(* ===== verification/_CoqProject ===== *)
-Q . S2P
Prelude.v
BTree.v
Text.v
Bytes.v
Json.v
JsonSpec.v
JsonText.v
Order.v
OrderBook.v
BookInvariant.v
Samples.v
BookEffects.v
BookOps.v
Matcher.v
Effects.v
Pace.v
MatchOrders.v
Sweep.v
Fok.v
Stops.v
Executions.v
Cascade.v
Session.v
SymbolConfig.v
Auction.v
AuctionPrice.v
AuctionAlloc.v
Proto.v
Reports.v
ExecutionReports.v
EventLog.v
WireSamples.v
LogRecovery.v
Engine.v
EngineInv.v
EngineMatch.v
EngineSamples.v
Corners.v
Canonical.v
EngineOwners.v
Digest.v
Trace.v
Recording.v
Journal.v
JournalOwners.v
JournalRecovery.v
Bundle.v
TraceRows.v
BundleFiles.v
ReplayMirror.v
BundleSpec.v
EngineOps.v
EngineEntry.v
EngineReplace.v
EngineAuction.v
EngineSession.v
EngineClock.v
EngineRun.v
Transport.v
TransportSpec.v
Server.v
ServerSpec.v
ServerMoves.v
ServerStatus.v
ServerSamples.v
ServerRecovery.v
ServerRun.v
ReplayCli.v
ReplayCliSpec.v
ReportAssets.v
Report.v
ReportNames.v
ReportLives.v
ReportPage.v
ReplayTool.v
ReportSave.v
ReplayToolSpec.v
ReplayServer.v
Metrics.v
