(* ===== verification/Prelude.v ===== *)
(** * FXP: a verification library for the exchange core

    FXP is an exchange. Its core (src/fxp_core, Rust) is a server that accepts
    framed protobuf messages on TCP connections, gives every symbol one task with
    one matching engine, journals every input before it runs, and can record a
    run as a bundle that is replayed and compared offline.

    ** The parts and how they interact

    A connection's handler (server.rs) authenticates (core_auth.rs), reads frames
    and forwards them to the task of their symbol. The task writes the input to
    the journal (event_log.rs), which runs it on the engine of the symbol
    (engine.rs, engine/phases.rs). The engine validates against the symbol's rules
    (symbol_config.rs), follows the session clock (engine/session.rs), enters
    orders in the book (order_book/order_book.rs), matches them
    (order_book/matcher.rs), fires stops (order_book/stops.rs), runs call auctions
    (engine/auction.rs) and answers with reports and market data. The journal
    digests the answers (reproducibility.rs), traces them (reproducibility/trace.rs)
    and records the bundle; [inspect_bundle] replays a bundle and compares. The
    offline tool (replay_cli.rs) verifies, compares and explains bundles and writes
    run reports (replay_cli/report); counters (metrics.rs) watch the server.

    ** The files

    Foundations: Prelude (machine integers, outcomes, list lemmas, tactics and
    hints), BTree ([BTreeMap] as a sorted association list), Text ([str] and
    number formatting), Bytes (big-endian words, self-delimiting encodings).

    Order book: Order (order.rs, market_data.rs, execution_report.rs,
    broadcaster.rs), OrderBook (order_book.rs), BookInvariant (the invariant
    [wf]), BookEffects and BookOps (what each operation does), Matcher
    (matcher.rs), Effects, Pace, MatchOrders, Sweep and Fok (crossing, sweeping,
    fill-or-kill), Stops (stops.rs), Executions and Cascade (an order and the
    stops it fires). Samples holds concrete books.

    Engine: Session (session.rs), SymbolConfig (symbol_config.rs), Auction with
    AuctionPrice and AuctionAlloc (auction.rs), Proto (proto/fxp.proto), Reports
    and Engine (engine.rs, phases.rs, diagnostic.rs), ExecutionReports (the reports
    of an execution), EngineInv, EngineMatch, EngineOps, EngineEntry,
    EngineReplace, EngineAuction, EngineSession and EngineClock (requests, auctions
    and session boundaries on a coherent engine), EngineRun (any sequence of
    inputs), EngineOwners (connections are only addresses), Canonical
    (canonical.rs), EngineSamples and Corners (concrete engines).

    Durability: Json, JsonSpec and JsonText (reproducibility/json.rs), EventLog and
    LogRecovery (the log of event_log.rs), Journal, JournalOwners and
    JournalRecovery (its [Journal]), Digest, Recording and Bundle
    (reproducibility.rs), Trace and TraceRows (trace.rs), BundleFiles,
    ReplayMirror and BundleSpec (a recorded run across crashes). WireSamples is a
    concrete message encoding.

    Server: Transport and TransportSpec (core_auth.rs and the connection half of
    server.rs), Server, ServerSpec, ServerMoves and ServerStatus (router, symbol
    tasks, handlers and waiting tasks), ServerSamples, ServerRecovery and ServerRun
    (the whole program with its log), Metrics (metrics.rs).

    Offline tool: ReplayCli (options, filters, texts of replay_cli.rs) with
    ReplayCliSpec, Report (report/mod.rs, engine/report_view.rs and the observed
    replay of event_log.rs) with ReportAssets (shell.html, style.css, view.js),
    ReportNames (anonymization), ReportLives (lifecycles) and ReportPage (the
    page), ReplayTool ([execute], [run] and [save]) with ReportSave and
    ReplayToolSpec, and ReplayServer (the tool on what a server records).

    ** How the code is rendered

    A struct is a record with the fields of the source, an enum an inductive type,
    a method a function from the state to the state and what it returns. Machine
    integers are [Z] with the wrap-around of the release profile written out
    ([add32], [sub32], [as_i32], ...). A call that can panic returns an [outcome]:
    [Done], [Panicked] or [OutOfFuel]; a fallible one a [result]. A [HashMap] is a
    [gmap], a [BTreeMap] a sorted list; iteration over a [HashMap] is
    [map_to_list], so a theorem holds for every order the map could be read in
    only where the order is shown not to matter. The concurrent server is a step
    relation whose steps are the stretches between two suspension points.

    Libraries the source calls are interfaces: prost's encoding ([Wire] with
    [WireLaws]), SHA-256 ([Sha256] with [Sha256Laws]), the constant-time comparison
    ([ConstantTimeEq]), the build constants ([Build]), what the operating system
    says of paths ([Host]). Their laws are documented
    behaviour, and the witnesses instantiate each of them.

    ** What the theorems show

    - The book and the matcher: every operation keeps [wf]; matching returns,
      uncrosses the book, respects price-time priority and accounts for every
      unit of every order and every displayed unit of every level; fill-or-kill is
      all or nothing, and its outcome is decided by what it reaches before its
      first own order; self-trade prevention does what its mode says.
    - Stops: the cascade returns, fires each stop at most once and leaves none that
      a print reached.
    - Auctions: the clearing price is the documented optimum over all prices, the
      allocation executes exactly the clearing volume in priority order, and
      neither depends on the order of its input.
    - The engine: on a coherent engine cancels, mass cancels, new orders,
      replacements, auctions and the clock return, keep coherence and report to exactly whom they concern; the
      canonical bytes of two engines agree only if the engines do. Any sequence
      of inputs returns, except that a replacement that moves a partly filled
      order to the close is left out, since the code loses count of its fills.
    - Durability: the log gives back the acknowledged records after any torn
      write; a reopened journal is the journal that was lost, or has also executed
      the input whose failed write left its whole record; a recorded run verifies,
      and no crash makes an incomplete bundle pass for a complete one.
    - The server: an invariant of all interleavings, every waiting request is
      answered, critical frames are not lost silently, the log of any run
      recovers its engines, and no symbol task panics or hangs.
    - The offline tool: without resource limits it ends with exit code 0, 1 or 2;
      what it selects,
      redacts, lists and files in lifecycles is exactly what the journal holds of
      it; a report has the documented types, hides what it promises to hide,
      embeds its data inertly and never damages a file; verifying what a server
      recorded prints that it is identical.
    - Codecs: JSON, configuration, schedule, frames, base64 and status pages round
      trip.

    ** Bounds and fuel

    Loops that are not structural run on fuel that is a function of the state:
    matching on the resting quantity, which every step reduces ([match_fuel]);
    sweeping on the aggressor and the level; the cascade on the number of parked
    stops; the clock on the seconds to catch up, from the end of an operator's call
    where that is earlier; parsing and the masking of names on the length of the
    text; the links between replaced orders on twice the rows, since each pass but
    the last adds one of two orders of a row; the names of a temporary file on the
    17 attempts of the source; the observed replay on the length of the log. The theorems of each loop prove that it returns [Done], so [OutOfFuel]
    is never the reason a property holds. Instants are unbounded, because the sums
    involved leave [i64] only within a day of its ends.

    ** Not modelled

    - replay_limits.rs, [run_process] and bin/fxp-replay.rs: budgets of wall clock,
      memory, bytes and events that stop a command of the offline tool early, with
      exit code 3, and its entry. The commands are modelled as they run where no
      argument sets a limit ([limit_argument]) and the output streams take what is
      written to them.
    - metrics.rs: the text of the endpoint, which prints floating-point seconds, its
      socket, the connection gauge and the [response] hook, whose messages are
      opaque bytes here.
    - main.rs, lib.rs and diagnostics.rs: signal handling and trace output that no
      decision reads; server/phase1.rs and the test modules: tests.
    - view.js is embedded text; what a browser does with it is outside the model.
    - The Go gateway, the FIX bridge, the web console, the SDKs and the demo
      services: programs of their own around the core. *)

From stdpp Require Export base tactics option list sorting gmap strings.
From Stdlib Require Export ZArith Lia.

#[export] Set Default Goal Selector "!".

Open Scope Z_scope.

(** ** Machine integers

    A Rust integer of width [w] is a [Z]; the operations below write out the
    wrap-around of the release profile. *)

Definition u32_modulus : Z := 4294967296.
Definition u32_max : Z := 4294967295.
Definition i32_max : Z := 2147483647.
Definition u64_modulus : Z := 18446744073709551616.
Definition u64_max : Z := 18446744073709551615.

Definition wrap32 (z : Z) : Z := z mod u32_modulus.
Definition wrap64 (z : Z) : Z := z mod u64_modulus.

Definition add32 (a b : Z) : Z := wrap32 (a + b).
Definition sub32 (a b : Z) : Z := wrap32 (a - b).
Definition add64 (a b : Z) : Z := wrap64 (a + b).
Definition sub64 (a b : Z) : Z := wrap64 (a - b).

(** [as i32] of an unsigned or wider value: the low 32 bits, sign extended. *)
Definition as_i32 (z : Z) : Z :=
  let low := wrap32 z in if low <=? i32_max then low else low - u32_modulus.

(** [as u32] of a signed or wider value. *)
Definition as_u32 (z : Z) : Z := wrap32 z.

(** [u32::saturating_sub]. *)
Definition saturating_sub (a b : Z) : Z := if b <=? a then a - b else 0.

Definition is_u32 (z : Z) : Prop := 0 <= z <= u32_max.
Definition is_u64 (z : Z) : Prop := 0 <= z <= u64_max.

(** ** Outcomes: a value, a panic, or a loop that ran out of its fuel *)

Inductive outcome (A : Type) : Type :=
| Done (a : A)
| Panicked
| OutOfFuel.

Arguments Done {A} a.
Arguments Panicked {A}.
Arguments OutOfFuel {A}.

Definition obind {A B : Type} (m : outcome A) (k : A -> outcome B) : outcome B :=
  match m with
  | Done a => k a
  | Panicked => Panicked
  | OutOfFuel => OutOfFuel
  end.

(** [Option::expect] and map indexing. *)
Definition expect {A : Type} (o : option A) : outcome A :=
  match o with Some a => Done a | None => Panicked end.

Declare Scope fxp_scope.
Delimit Scope fxp_scope with fxp.

Notation "'let*' x ':=' m 'in' k" := (obind m (fun x => k))
  (at level 10, x pattern, m at level 100, k at level 200)
  : fxp_scope.

Open Scope fxp_scope.

(** ** Results: Rust's [Result] *)

Inductive result (A E : Type) : Type :=
| Ok (a : A)
| Err (e : E).

Arguments Ok {A E} a.
Arguments Err {A E} e.

Definition result_ok {A E : Type} (r : result A E) : option A :=
  match r with Ok a => Some a | Err _ => None end.

Definition result_err {A E : Type} (r : result A E) : option E :=
  match r with Ok _ => None | Err e => Some e end.

(** [Option::or_else]. *)
Definition or_else {A : Type} (o : option A) (k : unit -> option A) : option A :=
  match o with Some a => Some a | None => k tt end.

(** ** Lists *)

Definition sumZ {A : Type} (f : A -> Z) (l : list A) : Z :=
  foldr (fun a acc => f a + acc) 0 l.

(** [VecDeque::pop_front] on a list whose head is the front. *)
Definition pop_front {A : Type} (l : list A) : option A * list A :=
  match l with [] => (None, []) | x :: l' => (Some x, l') end.

Definition is_nil {A : Type} (l : list A) : bool :=
  match l with [] => true | _ :: _ => false end.

(** [Iterator::min] and [max] of a non-empty iterator of integers. *)
Definition minimumZ (l : list Z) : option Z :=
  match l with [] => None | x :: l' => Some (foldl Z.min x l') end.

Definition maximumZ (l : list Z) : option Z :=
  match l with [] => None | x :: l' => Some (foldl Z.max x l') end.

(** A stable insertion sort on a boolean "not after" test, the function
    [slice::sort_by] and [sort_by_key] compute. *)
Section stable_sort.
Context {A : Type} (leb : A -> A -> bool).

Fixpoint insert_stable (x : A) (l : list A) : list A :=
  match l with
  | [] => [x]
  | y :: l' => if leb x y then x :: y :: l' else y :: insert_stable x l'
  end.

Definition sort_stable (l : list A) : list A := foldr insert_stable [] l.

End stable_sort.

(** ** Tactics *)

(** Turn the boolean integer and boolean connective tests of the context into
    propositions. *)
Ltac propify :=
  repeat match goal with
  | H : (_ =? _) = true |- _ => apply Z.eqb_eq in H
  | H : (_ =? _) = false |- _ => apply Z.eqb_neq in H
  | H : (_ <? _) = true |- _ => apply Z.ltb_lt in H
  | H : (_ <? _) = false |- _ => apply Z.ltb_ge in H
  | H : (_ <=? _) = true |- _ => apply Z.leb_le in H
  | H : (_ <=? _) = false |- _ => apply Z.leb_gt in H
  | H : (_ >=? _) = _ |- _ => rewrite Z.geb_leb in H
  | H : (_ >? _) = _ |- _ => rewrite Z.gtb_ltb in H
  | H : _ && _ = true |- _ => apply andb_true_iff in H as [? ?]
  | H : _ || _ = false |- _ => apply orb_false_iff in H as [? ?]
  | H : negb _ = true |- _ => apply negb_true_iff in H
  | H : negb _ = false |- _ => apply negb_false_iff in H
  | H : bool_decide _ = true |- _ => apply bool_decide_eq_true in H
  | H : bool_decide _ = false |- _ => apply bool_decide_eq_false in H
  end.

(** Case on the first [match] or [if] of a hypothesis, keeping its equation. *)
Ltac case_in H :=
  match type of H with
  | context [match ?x with _ => _ end] => destruct x eqn:?
  end.

(** Split a hypothesis [m = Done r] where [m] is built from [obind]. *)
Lemma Ok_inj {A E : Type} (a b : A) : Ok (E := E) a = Ok b -> a = b.
Proof. by injection 1. Qed.

Lemma obind_Done {A B : Type} (m : outcome A) (k : A -> outcome B) (b : B) :
  obind m k = Done b <-> exists a, m = Done a /\ k a = Done b.
Proof. destruct m; simpl; split; [eauto|intros (? & [= ->] & ?); done|done|by intros (? & ? & ?)|done|by intros (? & ? & ?)]. Qed.

Lemma expect_Done {A : Type} (o : option A) (a : A) :
  expect o = Done a <-> o = Some a.
Proof. destruct o; naive_solver. Qed.

Ltac unbind H :=
  repeat match type of H with
  | obind _ _ = Done _ => apply obind_Done in H as (? & ? & H)
  end.

Create HintDb fxp.
Create Rewrite HintDb fxp.

(** ** Machine integer lemmas *)

Lemma wrap32_small z : is_u32 z -> wrap32 z = z.
Proof. unfold is_u32, wrap32, u32_max, u32_modulus. intros. apply Z.mod_small. lia. Qed.

Lemma wrap32_range z : is_u32 (wrap32 z).
Proof.
  unfold is_u32, wrap32, u32_max, u32_modulus.
  pose proof (Z.mod_pos_bound z 4294967296). lia.
Qed.

Lemma sub32_small a b : is_u32 a -> 0 <= b <= a -> sub32 a b = a - b.
Proof. unfold is_u32, sub32. intros. apply wrap32_small. unfold is_u32. lia. Qed.

Lemma add32_small a b : 0 <= a -> 0 <= b -> a + b <= u32_max -> add32 a b = a + b.
Proof. intros. apply wrap32_small. unfold is_u32. lia. Qed.

Lemma add64_small a b : 0 <= a -> 0 <= b -> a + b <= u64_max -> add64 a b = a + b.
Proof. intros. unfold add64, wrap64. apply Z.mod_small. unfold u64_max, u64_modulus in *. lia. Qed.

Lemma sub64_small a b : 0 <= b -> b <= a -> a <= u64_max -> sub64 a b = a - b.
Proof. intros. unfold sub64, wrap64. apply Z.mod_small. unfold u64_max, u64_modulus in *. lia. Qed.

Lemma sub32_range a b : is_u32 (sub32 a b).
Proof. apply wrap32_range. Qed.

Lemma as_i32_small z : 0 <= z <= i32_max -> as_i32 z = z.
Proof.
  intros. unfold as_i32. rewrite wrap32_small by (unfold is_u32, i32_max, u32_max in *; lia).
  destruct (Z.leb_spec z i32_max); lia.
Qed.

(** ** List lemmas *)

Lemma sumZ_nil {A} (f : A -> Z) : sumZ f [] = 0.
Proof. reflexivity. Qed.

Lemma sumZ_cons {A} (f : A -> Z) x l : sumZ f (x :: l) = f x + sumZ f l.
Proof. reflexivity. Qed.

Lemma sumZ_app {A} (f : A -> Z) l1 l2 : sumZ f (l1 ++ l2) = sumZ f l1 + sumZ f l2.
Proof. induction l1 as [|x l1 IH]; simpl; [reflexivity|]. rewrite IH. lia. Qed.

Lemma sumZ_nonneg {A} (f : A -> Z) l : Forall (fun a => 0 <= f a) l -> 0 <= sumZ f l.
Proof. induction 1; simpl; lia. Qed.

Lemma sumZ_ext {A} (f g : A -> Z) l : Forall (fun a => f a = g a) l -> sumZ f l = sumZ g l.
Proof. induction 1 as [|x l Hx _ IH]; simpl; [reflexivity|]. rewrite Hx, IH. reflexivity. Qed.

#[export] Instance sumZ_Permutation {A} (f : A -> Z) : Proper (Permutation ==> eq) (sumZ f).
Proof. intros l1 l2 H. induction H; simpl; lia. Qed.

#[export] Hint Rewrite @sumZ_nil @sumZ_cons @sumZ_app : fxp.

Lemma is_nil_true {A} (l : list A) : is_nil l = true <-> l = [].
Proof. destruct l; naive_solver. Qed.

Lemma is_nil_false {A} (l : list A) : is_nil l = false <-> l <> [].
Proof. destruct l; naive_solver. Qed.

Lemma filter_all {A} (P : A -> Prop) `{forall x, Decision (P x)} (l : list A) :
  Forall P l -> filter P l = l.
Proof. induction 1; [done|]. rewrite filter_cons_True by done. by f_equal. Qed.

(** ** The stable sort *)

Section stable_sort_facts.
Context {A : Type} (leb : A -> A -> bool).

Lemma insert_stable_perm x l : insert_stable leb x l ≡ₚ x :: l.
Proof.
  induction l as [|y l IH]; simpl; [reflexivity|].
  destruct (leb x y); [reflexivity|]. rewrite IH. constructor.
Qed.

Lemma sort_stable_perm l : sort_stable leb l ≡ₚ l.
Proof.
  induction l as [|x l IH]; simpl; [reflexivity|].
  unfold sort_stable in *. simpl. rewrite insert_stable_perm, IH. reflexivity.
Qed.

(** Elements that are mutually in order keep the order they had. *)
Lemma insert_stable_filter (P : A -> bool) x l :
  (forall x y, P x = true -> P y = true -> leb x y = true) ->
  List.filter P (insert_stable leb x l) = List.filter P (x :: l).
Proof.
  intros HP. induction l as [|y l IH]; simpl; [done|].
  destruct (leb x y) eqn:E; [done|]. simpl in *. rewrite IH.
  destruct (P x) eqn:Px, (P y) eqn:Py; try done. by rewrite (HP x y Px Py) in E.
Qed.

Lemma sort_stable_filter (P : A -> bool) l :
  (forall x y, P x = true -> P y = true -> leb x y = true) ->
  List.filter P (sort_stable leb l) = List.filter P l.
Proof.
  intros HP. induction l as [|x l IH]; [done|]. unfold sort_stable in *. simpl.
  rewrite insert_stable_filter by done. simpl. by rewrite IH.
Qed.

Context (leb_total : forall a b, leb a b = false -> leb b a = true).
Context (leb_trans : forall a b c, leb a b = true -> leb b c = true -> leb a c = true).

Lemma insert_stable_sorted x l :
  StronglySorted (fun a b => leb a b = true) l ->
  StronglySorted (fun a b => leb a b = true) (insert_stable leb x l).
Proof using leb_total leb_trans.
  induction 1 as [|y l Hs IH Hy]; simpl; [repeat constructor|].
  destruct (leb x y) eqn:E.
  - constructor; [by constructor|]. constructor; [done|].
    eapply Forall_impl; [exact Hy|]. eauto.
  - constructor; [done|]. rewrite insert_stable_perm. constructor; auto.
Qed.

Lemma sort_stable_sorted l :
  StronglySorted (fun a b => leb a b = true) (sort_stable leb l).
Proof using leb_total leb_trans.
  induction l; simpl; [constructor|]. by apply insert_stable_sorted.
Qed.

End stable_sort_facts.
