(* ===== verification/BTree.v ===== *)
(** * Ordered maps: the part of [std::collections::BTreeMap] the core uses

    A [BTreeMap<K, V>] is its in-order list of entries, strictly sorted by key.
    [OrdKey] is Rust's [Ord] on the key type; [Z] ([i64] prices) and [string]
    (byte-wise order of [String]) are the instances the core needs. *)

From Stdlib Require Import OrdersEx.
From S2P Require Import Prelude.

Class OrdKey (K : Type) := {
  key_ltb : K -> K -> bool;
  key_ltb_irrefl : forall k, key_ltb k k = false;
  key_ltb_trans : forall a b c, key_ltb a b = true -> key_ltb b c = true -> key_ltb a c = true;
  key_ltb_total : forall a b, key_ltb a b = false -> key_ltb b a = false -> a = b;
}.

#[export] Program Instance OrdKey_Z : OrdKey Z := {| key_ltb := Z.ltb |}.
Next Obligation. intros. lia. Qed.
Next Obligation. intros. lia. Qed.
Next Obligation. intros. lia. Qed.

(** [Ord] of [String]: byte-wise lexicographic order. *)
Definition string_ltb (a b : string) : bool := match String.compare a b with Lt => true | _ => false end.

#[export] Program Instance OrdKey_string : OrdKey string := {| key_ltb := string_ltb |}.
Next Obligation.
  intros k. unfold string_ltb. destruct (String.compare k k) eqn:E; [done| |done].
  exfalso. by apply (StrictOrder_Irreflexive (R := String_as_OT.lt) k).
Qed.
Next Obligation.
  intros a b c. unfold string_ltb. intros H1 H2.
  destruct (String.compare a b) eqn:E1; [done| |done]. destruct (String.compare b c) eqn:E2; [done| |done].
  pose proof (StrictOrder_Transitive (R := String_as_OT.lt) a b c E1 E2) as H. unfold String_as_OT.lt in H. change (String_as_OT.compare a c) with (String.compare a c) in H. by rewrite H.
Qed.
Next Obligation.
  intros a b. unfold string_ltb. intros H1 H2. rewrite String.compare_antisym in H2.
  destruct (String.compare a b) eqn:E; [by apply String.compare_eq_iff|done|done].
Qed.

Section btree.
Context {K : Type} `{OrdKey K} {V : Type}.

(** [BTreeMap::get]. *)
Fixpoint bt_get (k : K) (m : list (K * V)) : option V :=
  match m with
  | [] => None
  | (k', v) :: m' =>
    if key_ltb k k' then None else if key_ltb k' k then bt_get k m' else Some v
  end.

(** [BTreeMap::insert], the map only. *)
Fixpoint bt_insert (k : K) (v : V) (m : list (K * V)) : list (K * V) :=
  match m with
  | [] => [(k, v)]
  | (k', v') :: m' =>
    if key_ltb k k' then (k, v) :: m
    else if key_ltb k' k then (k', v') :: bt_insert k v m'
    else (k, v) :: m'
  end.

(** [BTreeMap::remove], the map only. *)
Fixpoint bt_remove (k : K) (m : list (K * V)) : list (K * V) :=
  match m with
  | [] => []
  | (k', v') :: m' =>
    if key_ltb k k' then m
    else if key_ltb k' k then (k', v') :: bt_remove k m'
    else m'
  end.

(** [keys().next()] and [keys().next_back()]. *)
Definition bt_first (m : list (K * V)) : option K := head (m.*1).
Definition bt_last (m : list (K * V)) : option K := last (m.*1).

(** Keys strictly ascending. *)
Definition bt_sorted (m : list (K * V)) : Prop :=
  StronglySorted (fun a b => key_ltb a b = true) (m.*1).

Lemma key_ltb_asym a b : key_ltb a b = true -> key_ltb b a = false.
Proof.
  intros Hab. destruct (key_ltb b a) eqn:Hba; [|done].
  pose proof (key_ltb_trans _ _ _ Hab Hba). by rewrite key_ltb_irrefl in *.
Qed.

Lemma bt_sorted_cons k v m :
  bt_sorted ((k, v) :: m) <-> bt_sorted m /\ Forall (fun e => key_ltb k e.1 = true) m.
Proof.
  unfold bt_sorted. rewrite fmap_cons. split.
  - intros Hs. apply StronglySorted_inv in Hs as [? Hf]. split; [done|].
    by apply Forall_fmap in Hf.
  - intros [? ?]. constructor; [done|]. by apply Forall_fmap.
Qed.

Lemma bt_sorted_nil : bt_sorted [].
Proof. constructor. Qed.

Lemma bt_get_below k m :
  Forall (fun e => key_ltb k e.1 = true) m -> bt_get k m = None.
Proof. destruct m as [|[k' v'] m]; [done|]. intros [Hk _]%Forall_cons. simpl in *. by rewrite Hk. Qed.

(** A key above all others goes to the end. *)
Lemma bt_append k v m :
  Forall (fun e => key_ltb e.1 k = true) m -> bt_get k m = None /\ bt_insert k v m = m ++ [(k, v)].
Proof.
  induction 1 as [|[k' v'] m Hk _ [IH1 IH2]]; [done|]. simpl in *.
  rewrite (key_ltb_asym _ _ Hk), Hk. split; [done|]. by rewrite IH2.
Qed.

Lemma bt_remove_below k m :
  Forall (fun e => key_ltb k e.1 = true) m -> bt_remove k m = m.
Proof. destruct m as [|[k' v'] m]; [done|]. intros [Hk _]%Forall_cons. simpl in *. by rewrite Hk. Qed.

Lemma bt_get_Some_elem k v m : bt_get k m = Some v -> (k, v) ∈ m.
Proof.
  induction m as [|[k' v'] m IH]; simpl; [done|].
  destruct (key_ltb k k') eqn:E1; [done|]. destruct (key_ltb k' k) eqn:E2.
  - intros ?. right. auto.
  - intros [= ->]. rewrite (key_ltb_total _ _ E1 E2). left.
Qed.

Lemma bt_elem_get k v m : bt_sorted m -> (k, v) ∈ m -> bt_get k m = Some v.
Proof.
  induction m as [|[k' v'] m IH]; [by intros _ ?%elem_of_nil|].
  intros [Hs Hf]%bt_sorted_cons [[= -> ->]|Hin]%elem_of_cons; simpl.
  - by rewrite key_ltb_irrefl.
  - rewrite Forall_forall in Hf. pose proof (Hf _ Hin) as Hlt. simpl in Hlt.
    rewrite (key_ltb_asym _ _ Hlt), Hlt. auto.
Qed.

Lemma bt_get_elem k v m : bt_sorted m -> bt_get k m = Some v <-> (k, v) ∈ m.
Proof. split; [apply bt_get_Some_elem|by apply bt_elem_get]. Qed.

Lemma bt_remove_subset k m e : e ∈ bt_remove k m -> e ∈ m.
Proof.
  induction m as [|[k' v'] m IH]; simpl; [done|].
  destruct (key_ltb k k'); [done|]. destruct (key_ltb k' k).
  - intros [->|?]%elem_of_cons; [by left|right; auto].
  - by right.
Qed.

Lemma bt_sorted_remove k m : bt_sorted m -> bt_sorted (bt_remove k m).
Proof.
  induction m as [|[k' v'] m IH]; simpl; [done|].
  intros Hs. pose proof Hs as [Hs' Hf]%bt_sorted_cons.
  destruct (key_ltb k k'); [done|]. destruct (key_ltb k' k); [|done].
  apply bt_sorted_cons. split; [by apply IH|].
  rewrite Forall_forall in Hf |- *. intros e He. eauto using bt_remove_subset.
Qed.

Lemma bt_insert_elem k v m e : e ∈ bt_insert k v m -> e = (k, v) \/ e ∈ m.
Proof.
  induction m as [|[k' v'] m IH]; simpl.
  - intros ->%list_elem_of_singleton. by left.
  - destruct (key_ltb k k'); [|destruct (key_ltb k' k)]; rewrite !elem_of_cons; naive_solver.
Qed.

Lemma bt_sorted_insert k v m : bt_sorted m -> bt_sorted (bt_insert k v m).
Proof.
  induction m as [|[k' v'] m IH]; simpl.
  - intros _. apply bt_sorted_cons. split; [apply bt_sorted_nil|constructor].
  - intros Hs. pose proof Hs as [Hs' Hf]%bt_sorted_cons.
    destruct (key_ltb k k') eqn:E1; [|destruct (key_ltb k' k) eqn:E2].
    + apply bt_sorted_cons. split; [done|]. constructor; [done|].
      eapply Forall_impl; [exact Hf|]. intros e He. simpl in *. eauto using key_ltb_trans.
    + apply bt_sorted_cons. split; [by apply IH|].
      rewrite Forall_forall in Hf |- *. intros e [->|He]%bt_insert_elem; auto.
    + rewrite (key_ltb_total _ _ E1 E2). by apply bt_sorted_cons.
Qed.

(** Every update is a permutation of removing the key and adding an entry. *)
Lemma bt_insert_perm k v m : bt_sorted m -> bt_insert k v m ≡ₚ (k, v) :: bt_remove k m.
Proof.
  induction m as [|[k' v'] m IH]; simpl; [done|]. intros [Hs Hf]%bt_sorted_cons.
  destruct (key_ltb k k') eqn:E1; [done|]. destruct (key_ltb k' k) eqn:E2; [|done].
  rewrite IH by done. constructor.
Qed.

Lemma bt_get_perm k v m : bt_get k m = Some v -> m ≡ₚ (k, v) :: bt_remove k m.
Proof.
  induction m as [|[k' v'] m IH]; simpl; [done|].
  destruct (key_ltb k k') eqn:E1; [done|]. destruct (key_ltb k' k) eqn:E2.
  - intros Hg. rewrite (IH Hg) at 1. constructor.
  - intros [= ->]. by rewrite (key_ltb_total _ _ E1 E2).
Qed.

Lemma bt_get_None_remove k m : bt_sorted m -> bt_get k m = None -> bt_remove k m = m.
Proof.
  induction m as [|[k' v'] m IH]; simpl; [done|]. intros [Hs Hf]%bt_sorted_cons.
  destruct (key_ltb k k') eqn:E1; [done|]. destruct (key_ltb k' k) eqn:E2; [|done].
  intros. by rewrite IH.
Qed.

Lemma bt_remove_not_elem k v m : bt_sorted m -> (k, v) ∉ bt_remove k m.
Proof.
  intros Hs. induction m as [|[k' v'] m IH]; simpl; [apply not_elem_of_nil|].
  pose proof Hs as [Hs' Hf]%bt_sorted_cons. rewrite Forall_forall in Hf.
  destruct (key_ltb k k') eqn:E1; [|destruct (key_ltb k' k) eqn:E2].
  - intros [[= -> ->]|Hin]%elem_of_cons; [by rewrite key_ltb_irrefl in E1|].
    pose proof (Hf _ Hin) as Hlt. simpl in Hlt. by rewrite (key_ltb_asym _ _ E1) in Hlt.
  - intros [[= -> ->]|Hin]%elem_of_cons; [by rewrite key_ltb_irrefl in E2|]. by apply IH in Hin.
  - intros Hin. apply Hf in Hin. simpl in Hin. by rewrite E2 in Hin.
Qed.

Lemma bt_get_insert_eq k v m : bt_sorted m -> bt_get k (bt_insert k v m) = Some v.
Proof.
  intros Hs. apply bt_get_elem; [by apply bt_sorted_insert|].
  rewrite bt_insert_perm by done. left.
Qed.

Lemma bt_get_remove_eq k m : bt_sorted m -> bt_get k (bt_remove k m) = None.
Proof.
  intros Hs. destruct (bt_get k (bt_remove k m)) as [v|] eqn:E; [|done].
  apply bt_get_Some_elem in E. by apply bt_remove_not_elem in E.
Qed.

Lemma bt_elem_remove_ne k k' v m :
  bt_sorted m -> k <> k' -> (k', v) ∈ bt_remove k m <-> (k', v) ∈ m.
Proof.
  intros Hs Hne. destruct (bt_get k m) as [v0|] eqn:E.
  - rewrite (bt_get_perm _ _ _ E) at 2. rewrite elem_of_cons. naive_solver.
  - by rewrite bt_get_None_remove.
Qed.

Lemma bt_get_ext m1 m2 k :
  bt_sorted m1 -> bt_sorted m2 ->
  (forall v, (k, v) ∈ m1 <-> (k, v) ∈ m2) -> bt_get k m1 = bt_get k m2.
Proof.
  intros Hs1 Hs2 Heq. destruct (bt_get k m1) as [v|] eqn:E1.
  - symmetry. apply bt_get_elem; [done|]. apply Heq. by apply bt_get_elem.
  - destruct (bt_get k m2) as [v|] eqn:E2; [|done].
    apply bt_get_elem in E2; [|done]. apply Heq, bt_get_elem in E2; [|done]. congruence.
Qed.

Lemma bt_get_remove_ne k k' m : bt_sorted m -> k <> k' -> bt_get k' (bt_remove k m) = bt_get k' m.
Proof.
  intros Hs Hne. apply bt_get_ext; [by apply bt_sorted_remove|done|].
  intros v. by apply bt_elem_remove_ne.
Qed.

Lemma bt_get_insert_ne k k' v m :
  bt_sorted m -> k <> k' -> bt_get k' (bt_insert k v m) = bt_get k' m.
Proof.
  intros Hs Hne. apply bt_get_ext; [by apply bt_sorted_insert|done|].
  intros v'. rewrite bt_insert_perm, elem_of_cons by done.
  rewrite bt_elem_remove_ne by done. naive_solver.
Qed.

(** A sorted map is determined by its lookups. *)
Lemma bt_ext m1 : forall m2, bt_sorted m1 -> bt_sorted m2 -> (forall k, bt_get k m1 = bt_get k m2) -> m1 = m2.
Proof.
  induction m1 as [|[k1 v1] m1 IH]; intros [|[k2 v2] m2] H1 H2 Heq; [done|..].
  - specialize (Heq k2). simpl in Heq. by rewrite key_ltb_irrefl in Heq.
  - specialize (Heq k1). simpl in Heq. by rewrite key_ltb_irrefl in Heq.
  - assert (k1 = k2) as ->.
    { pose proof (Heq k1) as E1. pose proof (Heq k2) as E2. simpl in E1, E2. rewrite key_ltb_irrefl in E1, E2.
      destruct (key_ltb k1 k2) eqn:L1; [done|]. destruct (key_ltb k2 k1) eqn:L2; [done|]. by apply key_ltb_total. }
    assert (v1 = v2) as ->.
    { specialize (Heq k2). simpl in Heq. rewrite key_ltb_irrefl in Heq. congruence. }
    apply bt_sorted_cons in H1 as [H1 F1]. apply bt_sorted_cons in H2 as [H2 F2].
    f_equal. apply IH; [done|done|]. intros k. specialize (Heq k). simpl in Heq.
    destruct (key_ltb k k2) eqn:L1.
    { rewrite !bt_get_below; [done|..]; (eapply Forall_impl; [eassumption|]); intros e He; by eapply key_ltb_trans. }
    destruct (key_ltb k2 k) eqn:L2; [done|]. assert (k = k2) as -> by (by apply key_ltb_total).
    by rewrite !bt_get_below.
Qed.

(** First and last entries of a sorted map. *)
Lemma bt_first_Some k m :
  bt_first m = Some k -> exists v m', m = (k, v) :: m' /\ bt_get k m = Some v /\ bt_remove k m = m'.
Proof.
  destruct m as [|[k' v] m]; [done|]. intros [= ->]. exists v, m.
  simpl. by rewrite key_ltb_irrefl.
Qed.

Lemma bt_last_Some k m :
  bt_sorted m -> bt_last m = Some k ->
  exists v m', m = m' ++ [(k, v)] /\ bt_get k m = Some v /\ bt_remove k m = m'.
Proof.
  unfold bt_last. induction m as [|[k' v'] m IH]; [done|].
  intros [Hs Hf]%bt_sorted_cons Hl. destruct m as [|e m].
  - simpl in Hl. injection Hl as ->. exists v', []. simpl. by rewrite key_ltb_irrefl.
  - destruct IH as (v & m' & Hm & Hg & Hr); [done|done|].
    exists v, ((k', v') :: m'). rewrite Forall_forall in Hf.
    assert (key_ltb k' k = true) as Hlt.
    { apply (Hf (k, v)). by apply bt_get_Some_elem. }
    split; [by rewrite Hm|]. simpl. rewrite (key_ltb_asym _ _ Hlt), Hlt.
    split; [exact Hg|]. f_equal. exact Hr.
Qed.

Lemma bt_first_None m : bt_first m = None <-> m = [].
Proof. destruct m; naive_solver. Qed.

Lemma bt_last_None m : bt_last m = None <-> m = [].
Proof.
  unfold bt_last. rewrite last_None. split; [|by intros ->].
  apply fmap_nil_inv.
Qed.

Lemma bt_first_le k m k' v : bt_sorted m -> bt_first m = Some k -> (k', v) ∈ m -> key_ltb k' k = false.
Proof.
  intros Hs Hf Hin. apply bt_first_Some in Hf as (v0 & m' & -> & _).
  apply bt_sorted_cons in Hs as [_ Hall]. apply elem_of_cons in Hin as [[= -> ->]|Hin].
  - apply key_ltb_irrefl.
  - rewrite Forall_forall in Hall. apply key_ltb_asym. by apply (Hall _ Hin).
Qed.

Lemma bt_last_ge k m k' v : bt_sorted m -> bt_last m = Some k -> (k', v) ∈ m -> key_ltb k k' = false.
Proof.
  intros Hs Hl Hin. pose proof Hl as (v0 & m' & -> & _)%bt_last_Some; [|done].
  apply elem_of_app in Hin as [Hin|[= -> ->]%list_elem_of_singleton]; [|apply key_ltb_irrefl].
  clear Hl. induction m' as [|[k1 v1] m' IH]; [by apply elem_of_nil in Hin|].
  apply bt_sorted_cons in Hs as [Hs Hall]. apply elem_of_cons in Hin as [[= -> ->]|Hin].
  - rewrite Forall_forall in Hall. apply key_ltb_asym. apply (Hall (k, v0)).
    apply elem_of_app. right. left.
  - by apply IH.
Qed.

End btree.

(** A [BTreeMap] of queues: its elements in key order. *)
Definition bt_concat {K A : Type} (m : list (K * list A)) : list A := concat (m.*2).

Lemma bt_concat_perm {K A : Type} (m1 m2 : list (K * list A)) :
  m1 ≡ₚ m2 -> bt_concat m1 ≡ₚ bt_concat m2.
Proof.
  unfold bt_concat. induction 1; simpl; [done|by f_equiv| |by etrans].
  rewrite !app_assoc. f_equiv. apply Permutation_app_comm.
Qed.

Lemma bt_concat_cons {K A : Type} (k : K) (l : list A) m : bt_concat ((k, l) :: m) = l ++ bt_concat m.
Proof. reflexivity. Qed.

Lemma bt_concat_app {K A : Type} (m1 m2 : list (K * list A)) :
  bt_concat (m1 ++ m2) = bt_concat m1 ++ bt_concat m2.
Proof. unfold bt_concat. by rewrite fmap_app, concat_app. Qed.

Lemma elem_of_bt_concat {K A : Type} (m : list (K * list A)) a :
  a ∈ bt_concat m <-> exists k l, (k, l) ∈ m /\ a ∈ l.
Proof.
  induction m as [|[k l] m IH].
  - split; [by intros ?%elem_of_nil|by intros (?&?&?%elem_of_nil&_)].
  - rewrite bt_concat_cons, elem_of_app, IH. setoid_rewrite elem_of_cons. naive_solver.
Qed.
