(* ===== verification/Text.v ===== *)
(** * Text: the parts of [str] and of number formatting the core uses

    A Rust [str] is its UTF-8 bytes. The separators the core splits on are
    ASCII, so splitting bytes is splitting characters. *)

From Stdlib Require Import Ascii.
From S2P Require Import Prelude.

(** ** Operations *)

Definition is_digit (c : ascii) : bool :=
  ((48 <=? Ascii.N_of_ascii c) && (Ascii.N_of_ascii c <=? 57))%N.

Definition digit_val (c : ascii) : Z := Z.of_N (Ascii.N_of_ascii c) - 48.

Fixpoint all_chars (p : ascii -> bool) (s : string) : bool :=
  match s with EmptyString => true | String c s => p c && all_chars p s end.

(** [str::split] with a character. *)
Fixpoint split_on (sep : ascii) (s : string) : list string :=
  match s with
  | EmptyString => [""]
  | String c s =>
    if Ascii.eqb c sep then "" :: split_on sep s
    else match split_on sep s with
         | [] => [String c ""]
         | w :: ws => String c w :: ws
         end
  end.

(** [str::split_once]. *)
Fixpoint split_once (sep : ascii) (s : string) : option (string * string) :=
  match s with
  | EmptyString => None
  | String c s =>
    if Ascii.eqb c sep then Some ("", s)
    else match split_once sep s with
         | None => None
         | Some (a, b) => Some (String c a, b)
         end
  end.

(** The value of a string of decimal digits. *)
Fixpoint digits_val (acc : Z) (s : string) : Z :=
  match s with EmptyString => acc | String c s => digits_val (acc * 10 + digit_val c) s end.

(** [str::parse] to an integer type of the given maximum, on strings the caller
    has checked to be digits: it fails when there are none or on overflow. *)
Definition parse_digits (max : Z) (s : string) : option Z :=
  if String.eqb s "" || negb (all_chars is_digit s) then None
  else if digits_val 0 s <=? max then Some (digits_val 0 s) else None.

(** [str::parse::<u64>]: digits with an optional plus sign, in range. *)
Definition parse_u64 (s : string) : option Z :=
  parse_digits u64_max (match s with String c s' => if Ascii.eqb c "+" then s' else s | EmptyString => s end).

Definition digit_char (d : Z) : ascii := Ascii.ascii_of_N (Z.to_N (48 + d)).

(** The decimal digits of a nonnegative number below [10 ^ fuel], in front of [acc]. *)
Fixpoint print_fuel (fuel : nat) (n : Z) (acc : string) : string :=
  match fuel with
  | O => acc
  | S fuel =>
    let acc := String (digit_char (n mod 10)) acc in
    if n / 10 =? 0 then acc else print_fuel fuel (n / 10) acc
  end.

(** [{}] of an integer; a number has no more decimal digits than binary ones. *)
Definition print_nat (n : Z) : string := print_fuel (S (Z.to_nat (Z.log2 n))) n "".

Definition print_dec (n : Z) : string := if n <? 0 then String "-" (print_nat (- n)) else print_nat n.

(** [{:02}] of a number below one hundred. *)
Definition print2 (n : Z) : string := String (digit_char (n / 10)) (String (digit_char (n mod 10)) "").

(** Words with a separator between them. *)
Fixpoint join (sep : ascii) (ws : list string) : string :=
  match ws with
  | [] => ""
  | [w] => w
  | w :: ws => (w ++ String sep (join sep ws))%string
  end.

(** ** Splitting and joining *)

Lemma all_chars_app p s t : all_chars p (s ++ t) = all_chars p s && all_chars p t.
Proof. induction s as [|c s IH]; simpl; [done|]. by rewrite IH, andb_assoc. Qed.

Lemma all_chars_impl (p q : ascii -> bool) s :
  (forall c, p c = true -> q c = true) -> all_chars p s = true -> all_chars q s = true.
Proof.
  intros H. induction s as [|c s IH]; simpl; [done|]. intros Hp. propify. by rewrite H, IH.
Qed.

Definition free_of (sep : ascii) (s : string) : bool := all_chars (fun c => negb (Ascii.eqb c sep)) s.

Lemma split_on_not_nil sep s : split_on sep s <> [].
Proof. destruct s as [|c s]; simpl; [done|]. destruct (Ascii.eqb c sep); [done|]. by destruct (split_on sep s). Qed.

Lemma split_on_free sep s : free_of sep s = true -> split_on sep s = [s].
Proof.
  induction s as [|c s IH]; simpl; [done|]. unfold free_of in *. simpl. intros [Hc Hs]%andb_true_iff.
  destruct (Ascii.eqb c sep); [done|]. by rewrite (IH Hs).
Qed.

Lemma split_on_app sep s t : free_of sep s = true -> split_on sep (s ++ String sep t) = s :: split_on sep t.
Proof.
  induction s as [|c s IH]; simpl; [by rewrite Ascii.eqb_refl|]. unfold free_of in *. simpl. intros [Hc Hs]%andb_true_iff. destruct (Ascii.eqb c sep); [done|]. by rewrite (IH Hs).
Qed.

Lemma split_join sep ws : ws <> [] -> Forall (fun w => free_of sep w = true) ws -> split_on sep (join sep ws) = ws.
Proof.
  induction ws as [|w ws IH]; [done|]. intros _ H. apply Forall_cons in H as [Hw H]. destruct ws as [|w' ws].
  - by apply split_on_free.
  - change (join sep (w :: w' :: ws)) with (w ++ String sep (join sep (w' :: ws)))%string.
    rewrite split_on_app by done. by rewrite IH.
Qed.

Lemma split_once_app sep s t : free_of sep s = true -> split_once sep (s ++ String sep t) = Some (s, t).
Proof.
  induction s as [|c s IH]; simpl; [by rewrite Ascii.eqb_refl|]. unfold free_of in *. simpl. intros [Hc Hs]%andb_true_iff. destruct (Ascii.eqb c sep); [done|]. by rewrite (IH Hs).
Qed.

(** ** Numbers *)

Lemma digit_char_spec d :
  0 <= d < 10 -> is_digit (digit_char d) = true /\ digit_val (digit_char d) = d /\
    forall sep, is_digit sep = false -> Ascii.eqb (digit_char d) sep = false.
Proof.
  intros Hd. assert (Ascii.N_of_ascii (digit_char d) = Z.to_N (48 + d)) as E by (apply Ascii.N_ascii_embedding; lia).
  assert (is_digit (digit_char d) = true) as Hdig.
  { unfold is_digit. rewrite E. apply andb_true_iff. split; apply N.leb_le; lia. }
  split_and!; [done|unfold digit_val; rewrite E; lia|].
  intros sep Hs. apply Ascii.eqb_neq. intros H. rewrite H in Hdig. congruence.
Qed.

Lemma digits_val_acc s : forall acc, digits_val acc s = acc * 10 ^ Z.of_nat (String.length s) + digits_val 0 s.
Proof.
  induction s as [|c s IH]; intros acc; [simpl; lia|]. cbn [digits_val String.length]. rewrite IH, (IH (0 * 10 + digit_val c)).
  rewrite Nat2Z.inj_succ, Z.pow_succ_r by lia. lia.
Qed.

Lemma str_app_assoc (s t u : string) : ((s ++ t) ++ u = s ++ (t ++ u))%string.
Proof. induction s as [|c s IH]; [done|]. change (String c ((s ++ t) ++ u) = String c (s ++ (t ++ u)))%string. by rewrite IH. Qed.

Lemma print_fuel_app fuel : forall n acc, print_fuel fuel n acc = (print_fuel fuel n "" ++ acc)%string.
Proof.
  induction fuel as [|fuel IH]; intros n acc; [done|]. cbn [print_fuel]. destruct (n / 10 =? 0); [done|].
  rewrite (IH _ (String _ acc)), (IH _ (String _ "")), str_app_assoc. done.
Qed.

Lemma digits_val_app s : forall acc t, digits_val acc (s ++ t) = digits_val (digits_val acc s) t.
Proof. induction s as [|c s IH]; intros acc t; simpl; [done|]. apply IH. Qed.

Lemma print_fuel_spec fuel : forall n,
  0 <= n < 10 ^ Z.of_nat fuel -> (0 < fuel)%nat ->
  digits_val 0 (print_fuel fuel n "") = n /\ all_chars is_digit (print_fuel fuel n "") = true /\
  print_fuel fuel n "" <> "".
Proof.
  induction fuel as [|fuel IH]; intros n Hn Hf; [lia|]. cbn [print_fuel].
  destruct (digit_char_spec (n mod 10)) as (D1 & D2 & _); [apply Z.mod_pos_bound; lia|].
  destruct (Z.eqb_spec (n / 10) 0) as [E|E].
  - cbn [digits_val all_chars]. rewrite D1, D2. split_and!; [|done|done].
    rewrite (Z.div_mod n 10) at 2 by lia. lia.
  - rewrite Nat2Z.inj_succ, Z.pow_succ_r in Hn by lia.
    assert (0 <= n / 10 < 10 ^ Z.of_nat fuel) as Hq by (split; [apply Z.div_pos; lia|apply Z.div_lt_upper_bound; lia]).
    assert (0 < fuel)%nat as Hf' by (destruct fuel; [simpl in Hq; lia|lia]).
    destruct (IH _ Hq Hf') as (V & A & NE). rewrite print_fuel_app, digits_val_app, all_chars_app, V, A.
    cbn [digits_val all_chars]. rewrite D1, D2. split_and!.
    + rewrite (Z.div_mod n 10) at 3 by lia. lia.
    + done.
    + by destruct (print_fuel fuel (n / 10) "").
Qed.

Lemma print_fuel_enough n : 0 <= n -> 0 <= n < 10 ^ Z.of_nat (S (Z.to_nat (Z.log2 n))).
Proof.
  intros Hn. rewrite Nat2Z.inj_succ, Z2Nat.id by apply Z.log2_nonneg. split; [done|].
  destruct (Z.eq_dec n 0) as [->|H0]; [done|]. apply Z.lt_le_trans with (2 ^ Z.succ (Z.log2 n)); [apply Z.log2_spec; lia|].
  apply Z.pow_le_mono_l. lia.
Qed.

(** The first digit of a number is not zero. *)
Lemma print_fuel_head fuel : forall n, 0 < n < 10 ^ Z.of_nat fuel ->
  exists d s, print_fuel fuel n "" = String (digit_char d) s /\ 0 < d < 10 /\ all_chars is_digit s = true.
Proof.
  induction fuel as [|fuel IH]; intros n Hn; [simpl in Hn; lia|]. cbn [print_fuel]. destruct (Z.eqb_spec (n / 10) 0) as [E|E].
  - exists (n mod 10), "". split_and!; [done| | |done]; Z.div_mod_to_equations; lia.
  - rewrite Nat2Z.inj_succ, Z.pow_succ_r in Hn by lia. destruct (IH (n / 10)) as (d & s & Hs & Hd & Ha).
    { split; [Z.div_mod_to_equations; lia|apply Z.div_lt_upper_bound; lia]. }
    exists d, (s ++ String (digit_char (n mod 10)) "")%string. rewrite print_fuel_app, Hs. split_and!; [done|lia|lia|].
    rewrite all_chars_app, Ha. simpl. destruct (digit_char_spec (n mod 10)) as (-> & _); [apply Z.mod_pos_bound; lia|done].
Qed.

(** Printing then parsing a number gives it back. *)
Lemma parse_print max n :
  0 <= n <= max ->
  all_chars is_digit (print_dec n) = true /\ print_dec n <> "" /\ parse_digits max (print_dec n) = Some n.
Proof.
  intros Hn. unfold print_dec. destruct (Z.ltb_spec n 0); [lia|].
  destruct (print_fuel_spec (S (Z.to_nat (Z.log2 n))) n) as (V & A & NE); [apply print_fuel_enough; lia|lia|].
  fold (print_nat n) in V, A, NE. split_and!; [done|done|].
  unfold parse_digits. rewrite A, V. destruct (String.eqb_spec (print_nat n) ""); [done|]. cbn [orb negb].
  by rewrite (proj2 (Z.leb_le _ _) (proj2 Hn)).
Qed.

Lemma digits_free sep s : is_digit sep = false -> all_chars is_digit s = true -> free_of sep s = true.
Proof.
  intros Hsep. apply all_chars_impl. intros c Hc. destruct (Ascii.eqb_spec c sep); [congruence|done].
Qed.

Lemma print2_spec n :
  0 <= n < 100 -> all_chars is_digit (print2 n) = true /\ digits_val 0 (print2 n) = n.
Proof.
  intros Hn. unfold print2. cbn [all_chars digits_val].
  destruct (digit_char_spec (n / 10)) as (D1 & D2 & _).
  { split; [apply Z.div_pos; lia|apply Z.div_lt_upper_bound; lia]. }
  destruct (digit_char_spec (n mod 10)) as (D3 & D4 & _); [apply Z.mod_pos_bound; lia|].
  rewrite D1, D2, D3, D4. split; [done|]. rewrite (Z.div_mod n 10) at 3 by lia. lia.
Qed.

Lemma digits_val_nonneg s : forall acc, 0 <= acc -> all_chars is_digit s = true -> 0 <= digits_val acc s.
Proof.
  induction s as [|c s IH]; intros acc Ha; [done|]. cbn [all_chars digits_val]. intros [Hc Hs]%andb_true_iff.
  apply IH; [|done]. unfold is_digit in Hc. apply andb_true_iff in Hc as [Hc _]. apply N.leb_le in Hc. unfold digit_val. lia.
Qed.
