(* ===== verification/Bytes.v ===== *)
(** * Bytes

    Byte strings as lists of integers, big-endian words, and encodings that
    delimit themselves: a value written in front of any bytes can be told from
    what follows it. *)

From Stdlib Require Import Ascii.
From S2P Require Import Prelude Text.

(** ** Definitions *)

Definition is_byte (z : Z) : Prop := 0 <= z < 256.

(** [to_be_bytes] of an [n]-byte word, modulo its width. *)
Fixpoint be_bytes (n : nat) (z : Z) : list Z :=
  match n with
  | O => []
  | S k => (z / 256 ^ Z.of_nat k) mod 256 :: be_bytes k z
  end.

(** [from_be_bytes]. *)
Definition from_be (l : list Z) : Z := foldl (fun acc b => acc * 256 + b) 0 l.

(** [as_bytes]. *)
Fixpoint bytes_of (s : string) : list Z :=
  match s with EmptyString => [] | String c s => Z.of_N (N_of_ascii c) :: bytes_of s end.

(** [self_delimiting ok enc]: on values of [ok], [enc a] in front of [r] determines
    both. *)
Definition self_delimiting {A : Type} (ok : A -> Prop) (enc : A -> list Z) : Prop :=
  forall a b r s, ok a -> ok b -> enc a ++ r = enc b ++ s -> a = b /\ r = s.

(** ** Words *)

Lemma length_be n z : length (be_bytes n z) = n.
Proof. revert z. induction n as [|n IH]; intros z; simpl; [done|]. by rewrite IH. Qed.

Lemma be_bytes_ok n z : Forall is_byte (be_bytes n z).
Proof. induction n as [|n IH]; simpl; constructor; [|done]. unfold is_byte. apply Z.mod_pos_bound. lia. Qed.

Lemma from_be_app l l' : forall acc, foldl (fun acc b => acc * 256 + b) acc (l ++ l') =
  foldl (fun acc b => acc * 256 + b) (foldl (fun acc b => acc * 256 + b) acc l) l'.
Proof. intros acc. apply foldl_app. Qed.

Lemma from_be_acc n z : forall acc,
  foldl (fun acc b => acc * 256 + b) acc (be_bytes n z) = acc * 256 ^ Z.of_nat n + z mod 256 ^ Z.of_nat n.
Proof.
  induction n as [|n IH]; intros acc; [simpl; rewrite Z.mod_1_r; lia|].
  cbn [be_bytes foldl]. rewrite IH. rewrite Nat2Z.inj_succ, Z.pow_succ_r by lia.
  assert (0 < 256 ^ Z.of_nat n) as Hp by (apply Z.pow_pos_nonneg; lia).
  replace (256 * 256 ^ Z.of_nat n) with (256 ^ Z.of_nat n * 256) by lia.
  rewrite (Z.rem_mul_r z) by lia. lia.
Qed.

Lemma from_be_bytes n z : 0 <= z < 256 ^ Z.of_nat n -> from_be (be_bytes n z) = z.
Proof. intros Hz. unfold from_be. rewrite from_be_acc, Z.mod_small by done. lia. Qed.

Lemma from_be_inj l : forall l' acc acc',
  length l = length l' -> Forall is_byte l -> Forall is_byte l' ->
  foldl (fun acc b => acc * 256 + b) acc l = foldl (fun acc b => acc * 256 + b) acc' l' -> acc = acc' /\ l = l'.
Proof.
  induction l as [|x l IH]; intros [|y l'] acc acc' Hl Hb Hb' H; try done. simpl in *.
  apply Forall_cons in Hb as [Hx Hb], Hb' as [Hy Hb']. apply IH in H as [H ->]; [|lia|done..].
  unfold is_byte in *. assert (x = y) as -> by (Z.div_mod_to_equations; lia). split; [lia|done].
Qed.

Lemma length_bytes_of s : length (bytes_of s) = String.length s.
Proof. induction s as [|c s IH]; [done|]. simpl. by rewrite IH. Qed.

Lemma bytes_of_ok s : Forall is_byte (bytes_of s).
Proof.
  induction s as [|c s IH]; simpl; constructor; [|done]. unfold is_byte. pose proof (N_ascii_bounded c). lia.
Qed.

Lemma bytes_of_inj s t : bytes_of s = bytes_of t -> s = t.
Proof.
  revert t. induction s as [|c s IH]; intros [|d t]; simpl; try done. intros [= Hc Hs].
  rewrite (IH _ Hs). apply N2Z.inj in Hc. f_equal. by rewrite <- (ascii_N_embedding c), Hc, ascii_N_embedding.
Qed.

Lemma bytes_of_app s t : bytes_of (s ++ t) = bytes_of s ++ bytes_of t.
Proof.
  induction s as [|c s IH]; [done|].
  change (bytes_of (String.append (String c s) t)) with (Z.of_N (N_of_ascii c) :: bytes_of (String.append s t)). by rewrite IH.
Qed.

#[global] Arguments be_bytes : simpl never.

(** ** Self-delimiting encodings *)

Lemma app_inj_length {A} (l1 l2 r s : list A) : length l1 = length l2 -> l1 ++ r = l2 ++ s -> l1 = l2 /\ r = s.
Proof. intros Hl H. by apply app_inj_1. Qed.

Lemma sd_be n : self_delimiting (fun z => 0 <= z < 256 ^ Z.of_nat n) (be_bytes n).
Proof.
  intros a b r s Ha Hb H. apply app_inj_length in H as [H ->]; [|by rewrite !length_be].
  split; [|done]. by rewrite <- (from_be_bytes n a), H, from_be_bytes.
Qed.
