(* ===== verification/Json.v ===== *)
(** * The JSON codec of run bundles: reproducibility/json.rs

    Values with objects sorted by key and numbers kept as text; [json_encode]
    writes them and [json_parse] reads bytes by recursive descent. The parser's
    position is the list of bytes that are left. *)

From Stdlib Require Import Ascii.
From S2P Require Import Prelude BTree Text Bytes.

(** ** Definitions *)

#[local] Unset Elimination Schemes.

Inductive Json : Type :=
| JNull
| JBool (b : bool)
| JNumber (n : string)
| JString (s : string)
| JArray (l : list Json)
| JObject (m : list (string * Json)).

#[local] Set Elimination Schemes.

(** The derived [PartialEq]. *)
Fixpoint json_eqb (a b : Json) : bool :=
  match a, b with
  | JNull, JNull => true
  | JBool x, JBool y => Bool.eqb x y
  | JNumber x, JNumber y => String.eqb x y
  | JString x, JString y => String.eqb x y
  | JArray l, JArray m =>
    (fix go l m := match l, m with [], [] => true | a :: l, b :: m => json_eqb a b && go l m | _, _ => false end) l m
  | JObject l, JObject m =>
    (fix go l m := match l, m with
                   | [], [] => true
                   | (k, a) :: l, (k', b) :: m => String.eqb k k' && json_eqb a b && go l m
                   | _, _ => false
                   end) l m
  | _, _ => false
  end.

(** *** Bytes and UTF-8 *)

Fixpoint string_of (l : list Z) : string :=
  match l with [] => "" | b :: l => String (ascii_of_N (Z.to_N b)) (string_of l) end.

Definition between (lo b hi : Z) : bool := (lo <=? b) && (b <=? hi).

(** [str::from_utf8]: well-formed sequences of one to four bytes. *)
Fixpoint valid_utf8 (l : list Z) : bool :=
  match l with
  | [] => true
  | a :: l1 =>
    if between 0 a 127 then valid_utf8 l1
    else match l1 with
    | [] => false
    | b :: l2 =>
      if between 194 a 223 then between 128 b 191 && valid_utf8 l2
      else match l2 with
      | [] => false
      | c :: l3 =>
        if between 224 a 239 then
          between (if a =? 224 then 160 else 128) b (if a =? 237 then 159 else 191) && between 128 c 191 && valid_utf8 l3
        else match l3 with
        | [] => false
        | d :: l4 =>
          between 240 a 244 && between (if a =? 240 then 144 else 128) b (if a =? 244 then 143 else 191)
          && between 128 c 191 && between 128 d 191 && valid_utf8 l4
        end
      end
    end
  end.

(** [char::encode_utf8]. *)
Definition encode_utf8 (cp : Z) : list Z :=
  if cp <? 128 then [cp]
  else if cp <? 2048 then [192 + cp / 64; 128 + cp mod 64]
  else if cp <? 65536 then [224 + cp / 4096; 128 + cp / 64 mod 64; 128 + cp mod 64]
  else [240 + cp / 262144; 128 + cp / 4096 mod 64; 128 + cp / 64 mod 64; 128 + cp mod 64].

(** [char::from_u32]. *)
Definition is_char (cp : Z) : bool := between 0 cp 1114111 && negb (between 55296 cp 57343).

(** *** Writing *)

Definition hex_char (d : Z) : ascii := ascii_of_N (Z.to_N (if d <? 10 then 48 + d else 87 + d)).

(** [{:04x}] of a number below 65536. *)
Definition hex4_text (n : Z) : string :=
  String (hex_char (n / 4096 mod 16)) (String (hex_char (n / 256 mod 16)) (String (hex_char (n / 16 mod 16)) (String (hex_char (n mod 16)) ""))).

Definition quote : ascii := ascii_of_N 34.

(** The characters of a string between quotes. Only ASCII is escaped, so bytes
    can stand for characters. *)
Fixpoint escape (s : string) : string :=
  match s with
  | EmptyString => EmptyString
  | String c s =>
    let b := Z.of_N (N_of_ascii c) in
    if b =? 34 then String "\" (String quote (escape s))
    else if b =? 92 then String "\" (String "\" (escape s))
    else if b <? 32 then (String "\" (String "u" (hex4_text b)) ++ escape s)%string
    else String c (escape s)
  end.

Definition encode_string (s : string) : string := String quote (escape s ++ String quote "").

(** [Json::encode]. *)
Fixpoint json_encode (j : Json) : string :=
  match j with
  | JNull => "null"
  | JBool true => "true"
  | JBool false => "false"
  | JNumber n => n
  | JString s => encode_string s
  | JArray l => ("[" ++ join "," (json_encode <$> l) ++ "]")%string
  | JObject m => ("{" ++ join "," ((fun e => encode_string e.1 ++ ":" ++ json_encode e.2)%string <$> m) ++ "}")%string
  end.

(** [Json::get] and [Json::text]. *)
Definition json_get (key : string) (j : Json) : result Json string :=
  match j with
  | JObject m => match bt_get key m with Some v => Ok v | None => Err ("missing " ++ key)%string end
  | _ => Err "expected JSON object"%string
  end.

Definition json_text (j : Json) : result string string :=
  match j with JString s => Ok s | _ => Err "expected JSON string"%string end.

(** [Json::object]. *)
Definition json_object (fields : list (string * Json)) : Json :=
  JObject (foldl (fun m e => bt_insert e.1 e.2 m) [] fields).

Definition json_number (n : Z) : Json := JNumber (print_dec n).

(** *** Reading *)

(** Parsers: a value and the bytes that are left, or an error. *)
Definition parsed (A : Type) : Type := outcome (result (A * list Z) string).

Definition pbind {A B : Type} (m : parsed A) (k : A -> list Z -> parsed B) : parsed B :=
  match m with
  | Done (Ok (a, s)) => k a s
  | Done (Err e) => Done (Err e)
  | Panicked => Panicked
  | OutOfFuel => OutOfFuel
  end.

Notation "'parse*' x ',' s ':=' m 'in' k" := (pbind m (fun x s => k))
  (at level 10, x name, s name, m at level 100, k at level 200) : fxp_scope.

Definition pok {A : Type} (a : A) (s : list Z) : parsed A := Done (Ok (a, s)).
Definition perr {A : Type} (e : string) : parsed A := Done (Err e).

(** [ws] and [take]. *)
Definition is_ws (b : Z) : bool := (b =? 32) || (b =? 9) || (b =? 13) || (b =? 10).

Fixpoint skip_ws (s : list Z) : list Z :=
  match s with [] => [] | b :: s' => if is_ws b then skip_ws s' else s end.

Definition take_byte (b : Z) (s : list Z) : bool * list Z :=
  match skip_ws s with
  | [] => (false, [])
  | c :: s' => if c =? b then (true, s') else (false, c :: s')
  end.

(** [expect]. *)
Definition expect_byte (b : Z) (s : list Z) : parsed unit :=
  let '(found, s) := take_byte b s in if found then pok tt s else perr "invalid JSON punctuation".

Definition hex_val (b : Z) : option Z :=
  if between 48 b 57 then Some (b - 48)
  else if between 97 b 102 then Some (b - 87)
  else if between 65 b 70 then Some (b - 55)
  else None.

(** The digits of [from_str_radix]; there is at least one. *)
Fixpoint hex_digits (acc : Z) (l : list Z) : option Z :=
  match l with
  | [] => Some acc
  | b :: l => match hex_val b with Some d => hex_digits (acc * 16 + d) l | None => None end
  end.

(** [u16::from_str_radix] of a text of four bytes: a plus sign is allowed. *)
Definition from_radix16 (l : list Z) : option Z :=
  match l with
  | [] => None
  | c :: l' => if c =? 43 then (if is_nil l' then None else hex_digits 0 l') else hex_digits 0 l
  end.

(** [hex4]. *)
Definition hex4 (s : list Z) : parsed Z :=
  if (length s <? 4)%nat then perr "short JSON escape"
  else if negb (valid_utf8 (take 4 s)) then perr "invalid utf-8 sequence"
  else match from_radix16 (take 4 s) with
       | Some n => pok n (drop 4 s)
       | None => perr "invalid digit found in string"
       end.

(** The code point of a [\u] escape. *)
Definition code_point (s : list Z) : parsed Z :=
  parse* a, s := hex4 s in
  if between 55296 a 56319 then
    if bool_decide (take 2 s <> [92; 117]) then perr "unpaired JSON surrogate"
    else
      parse* b, s := hex4 (drop 2 s) in
      if between 56320 b 57343 then pok (65536 + (a - 55296) * 1024 + b - 56320) s
      else perr "unpaired JSON surrogate"
  else pok a s.

(** The escapes of one character. *)
Definition simple_escape (e : Z) : option Z :=
  if (e =? 34) || (e =? 92) || (e =? 47) then Some e
  else if e =? 98 then Some 8
  else if e =? 102 then Some 12
  else if e =? 110 then Some 10
  else if e =? 114 then Some 13
  else if e =? 116 then Some 9
  else None.

(** The loop of [string], after the opening quote. *)
Fixpoint string_loop (fuel : nat) (out : list Z) (s : list Z) : parsed string :=
  match fuel with
  | O => OutOfFuel
  | S fuel =>
    match s with
    | [] => perr "unterminated JSON string"
    | b :: s =>
      if b =? 34 then (if valid_utf8 out then pok (string_of out) s else perr "invalid utf-8 sequence")
      else if b =? 92 then
        match s with
        | [] => perr "short JSON escape"
        | e :: s =>
          match simple_escape e with
          | Some c => string_loop fuel (out ++ [c]) s
          | None =>
            if e =? 117 then
              parse* cp, s := code_point s in
              if is_char cp then string_loop fuel (out ++ encode_utf8 cp) s else perr "invalid JSON codepoint"
            else perr "invalid JSON escape"
          end
        end
      else if b <? 32 then perr "control character in JSON string"
      else string_loop fuel (out ++ [b]) s
    end
  end.

(** [string]; every step of the loop reads a byte. *)
Definition json_string (s : list Z) : parsed string :=
  parse* x, s := expect_byte 34 s in string_loop (S (length s)) [] s.

(** [digits] and [required_digits]. *)
Definition is_digit_byte (b : Z) : bool := between 48 b 57.

Fixpoint skip_digits (s : list Z) : list Z :=
  match s with [] => [] | b :: s' => if is_digit_byte b then skip_digits s' else s end.

Definition required_digits (s : list Z) : option (list Z) :=
  match s with b :: _ => if is_digit_byte b then Some (skip_digits s) else None | [] => None end.

(** The parts of a number: what is left after it. *)
Definition skip_integer (s : list Z) : option (list Z) :=
  let s := match s with c :: s' => if c =? 45 then s' else s | [] => s end in
  match s with
  | [] => None
  | b :: s' => if b =? 48 then Some s' else if between 49 b 57 then Some (skip_digits s) else None
  end.

Definition skip_fraction (s : list Z) : option (list Z) :=
  match s with c :: s' => if c =? 46 then required_digits s' else Some s | [] => Some s end.

Definition skip_exponent (s : list Z) : option (list Z) :=
  match s with
  | e :: s' =>
    if (e =? 101) || (e =? 69) then
      required_digits (match s' with c :: s'' => if (c =? 43) || (c =? 45) then s'' else s' | [] => s' end)
    else Some s
  | [] => Some s
  end.

Definition json_number_text (s : list Z) : parsed string :=
  match skip_integer s with
  | None => perr "invalid JSON number"
  | Some s1 =>
    match skip_fraction s1 with
    | None => perr "invalid JSON number"
    | Some s2 =>
      match skip_exponent s2 with
      | None => perr "invalid JSON number"
      | Some s3 => pok (string_of (take (length s - length s3) s)) s3
      end
    end
  end.

(** [value] with its two loops; the loops carry what they have read. The limit
    on nesting is 64. *)
Definition starts_with (word : string) (s : list Z) : bool := bool_decide (take (String.length word) s = bytes_of word).

Section values.
Context (limit : nat).

Fixpoint json_value (fuel : nat) (depth : nat) (s : list Z) : parsed Json :=
  match fuel with
  | O => OutOfFuel
  | S fuel =>
    if (limit <? depth)%nat then perr "JSON nesting exceeds limit"
    else
      match skip_ws s with
      | [] => perr "invalid JSON value"
      | b :: s' =>
        let s := b :: s' in
        if b =? 34 then parse* t, s := json_string s in pok (JString t) s
        else if b =? 123 then
          let '(closed, s) := take_byte 125 s' in if closed then pok (JObject []) s else json_members fuel depth [] s
        else if b =? 91 then
          let '(closed, s) := take_byte 93 s' in if closed then pok (JArray []) s else json_elements fuel depth [] s
        else if (b =? 110) && starts_with "null" s then pok JNull (drop 4 s)
        else if (b =? 116) && starts_with "true" s then pok (JBool true) (drop 4 s)
        else if (b =? 102) && starts_with "false" s then pok (JBool false) (drop 5 s)
        else if (b =? 45) || is_digit_byte b then parse* n, s := json_number_text s in pok (JNumber n) s
        else perr "invalid JSON value"
      end
  end
with json_members (fuel : nat) (depth : nat) (m : list (string * Json)) (s : list Z) : parsed Json :=
  match fuel with
  | O => OutOfFuel
  | S fuel =>
    parse* k, s := json_string s in
    parse* x, s := expect_byte 58 s in
    parse* v, s := json_value fuel (S depth) s in
    if bool_decide (is_Some (bt_get k m)) then perr "duplicate JSON key"
    else
      let m := bt_insert k v m in
      let '(closed, s) := take_byte 125 s in
      if closed then pok (JObject m) s
      else parse* x, s := expect_byte 44 s in json_members fuel depth m s
  end
with json_elements (fuel : nat) (depth : nat) (a : list Json) (s : list Z) : parsed Json :=
  match fuel with
  | O => OutOfFuel
  | S fuel =>
    parse* v, s := json_value fuel (S depth) s in
    let '(closed, s) := take_byte 93 s in
    if closed then pok (JArray (a ++ [v])) s
    else parse* x, s := expect_byte 44 s in json_elements fuel depth (a ++ [v]) s
  end.

End values.

(** [Json::parse]: two calls at most for every byte that is read. *)
Definition json_parse (text : string) : outcome (result Json string) :=
  let s := bytes_of text in
  match json_value 64 (S (S (2 * length s))) 0 s with
  | Done (Ok (j, s)) => Done (if is_nil (skip_ws s) then Ok j else Err "trailing JSON data"%string)
  | Done (Err e) => Done (Err e)
  | Panicked => Panicked
  | OutOfFuel => OutOfFuel
  end.
