(* ===== verification/JsonSpec.v ===== *)
(** * Correctness of the JSON codec

    Parsing always returns, what it returns can be written and read back, and
    writing then reading any value of the format gives the value. *)

From Stdlib Require Import Ascii.
From S2P Require Import Prelude BTree Text Bytes Json.

(** ** Definitions *)

(** Induction over values, with the property for every element and member. *)
Fixpoint json_induction (P : Json -> Prop)
    (Hnull : P JNull) (Hbool : forall b, P (JBool b)) (Hnum : forall n, P (JNumber n)) (Hstr : forall s, P (JString s))
    (Harr : forall l, Forall P l -> P (JArray l)) (Hobj : forall m, Forall (fun e => P e.2) m -> P (JObject m)) (j : Json) : P j :=
  let rec := json_induction P Hnull Hbool Hnum Hstr Harr Hobj in
  match j with
  | JNull => Hnull
  | JBool b => Hbool b
  | JNumber n => Hnum n
  | JString s => Hstr s
  | JArray l => Harr l ((fix go l : Forall P l := match l with [] => Forall_nil_2 P | x :: l => Forall_cons_2 P x l (rec x) (go l) end) l)
  | JObject m =>
    Hobj m ((fix go m : Forall (fun e => P e.2) m :=
      match m with [] => Forall_nil_2 _ | e :: m => Forall_cons_2 _ e m (rec e.2) (go m) end) m)
  end.

(** The grammar of numbers. *)
Definition digits_ok (l : list Z) : Prop := l <> [] /\ Forall (fun b => is_digit_byte b = true) l.

Definition integer_ok (l : list Z) : Prop :=
  exists sign n, l = sign ++ n /\ (sign = [] \/ sign = [45]) /\
    (n = [48] \/ exists d ds, n = d :: ds /\ between 49 d 57 = true /\ Forall (fun b => is_digit_byte b = true) ds).

Definition fraction_ok (l : list Z) : Prop := l = [] \/ exists ds, l = 46 :: ds /\ digits_ok ds.

Definition exponent_ok (l : list Z) : Prop :=
  l = [] \/ exists e sign ds, l = e :: sign ++ ds /\ (e = 101 \/ e = 69) /\ (sign = [] \/ sign = [43] \/ sign = [45]) /\ digits_ok ds.

Definition number_ok (n : string) : Prop :=
  exists i f e, bytes_of n = i ++ f ++ e /\ integer_ok i /\ fraction_ok f /\ exponent_ok e.

Create HintDb json.

Section limited.
Context (limit : nat).

#[local] Abbreviation json_value := (Json.json_value limit).
#[local] Abbreviation json_members := (Json.json_members limit).
#[local] Abbreviation json_elements := (Json.json_elements limit).

(** Values that can be written at a nesting depth: text is UTF-8, numbers are
    numbers, objects are sorted and nothing is nested too deep. *)
Inductive json_ok (d : nat) : Json -> Prop :=
| ok_null : (d <= limit)%nat -> json_ok d JNull
| ok_bool b : (d <= limit)%nat -> json_ok d (JBool b)
| ok_number n : (d <= limit)%nat -> number_ok n -> json_ok d (JNumber n)
| ok_string s : (d <= limit)%nat -> valid_utf8 (bytes_of s) = true -> json_ok d (JString s)
| ok_array l : (d <= limit)%nat -> Forall (json_ok (S d)) l -> json_ok d (JArray l)
| ok_object m : (d <= limit)%nat -> bt_sorted m -> Forall (fun e => valid_utf8 (bytes_of e.1) = true) m ->
    Forall (fun e => json_ok (S d) e.2) m -> json_ok d (JObject m).

(** What may follow a value. *)
Definition stops (rest : list Z) : Prop :=
  match rest with
  | [] => True
  | b :: _ => is_digit_byte b = false /\ b <> 46 /\ b <> 101 /\ b <> 69
  end.

(** A hexadecimal digit. *)
Definition hex_byte (d : Z) : Z := if d <? 10 then 48 + d else 87 + d.

(** What is left after reading something. *)
Definition tail_of (r s : list Z) : Prop := exists l, l <> [] /\ s = l ++ r.

(** A parser that returns and, when it gives a value, has read something and the
    value is as it should be. *)
Definition reads {A : Type} (m : parsed A) (s : list Z) (P : A -> Prop) : Prop :=
  exists res, m = Done res /\ forall a r, res = Ok (a, r) -> P a /\ tail_of r s.

(** The members read so far. *)
Definition members_ok (depth : nat) (m : list (string * Json)) : Prop :=
  bt_sorted m /\ Forall (fun e => valid_utf8 (bytes_of e.1) = true) m /\ Forall (fun e => json_ok (S depth) e.2) m.

(** The first byte of a value. *)
Definition starts_value (b : Z) : Prop := is_ws b = false /\ b <> 93 /\ b <> 125.

(** The written value is read back in front of anything that may follow it. *)
Definition value_reads (j : Json) : Prop :=
  forall fuel d rest, json_ok d j -> stops rest -> (2 * length (bytes_of (json_encode j)) + 2 <= fuel)%nat ->
    json_value fuel d (bytes_of (json_encode j) ++ rest) = pok j rest.

(** A member of an object. *)
Definition member_text (e : string * Json) : string := (encode_string e.1 ++ ":" ++ json_encode e.2)%string.

(** ** Bytes *)

Lemma string_of_bytes_of s : string_of (bytes_of s) = s.
Proof. induction s as [|c s IH]; [done|]. simpl. rewrite IH, N2Z.id, ascii_N_embedding. done. Qed.

Lemma bytes_of_string l : Forall is_byte l -> bytes_of (string_of l) = l.
Proof.
  induction 1 as [|b l Hb _ IH]; [done|]. simpl. rewrite IH. unfold is_byte in Hb. rewrite N_ascii_embedding by lia. f_equal. lia.
Qed.

Lemma between_spec lo b hi : between lo b hi = true <-> lo <= b <= hi.
Proof. unfold between. rewrite andb_true_iff, !Z.leb_le. done. Qed.

Lemma valid_utf8_bytes n : forall l, (length l <= n)%nat -> valid_utf8 l = true -> Forall is_byte l.
Proof.
  induction n as [|n IH]; intros [|a l1] Hl H; try done; simpl in Hl; [lia|]. simpl in H.
  destruct (between 0 a 127) eqn:Ea.
  { apply between_spec in Ea. constructor; [unfold is_byte; lia|apply IH; [lia|done]]. }
  destruct l1 as [|b l2]; [done|]. simpl in Hl. destruct (between 194 a 223) eqn:Eb.
  { apply andb_true_iff in H as [H1 H2]. apply between_spec in Eb, H1. repeat constructor; try (unfold is_byte; lia). apply IH; [lia|done]. }
  destruct l2 as [|c l3]; [done|]. simpl in Hl. destruct (between 224 a 239) eqn:Ec.
  { rewrite !andb_true_iff, !between_spec in H. apply between_spec in Ec. destruct H as [[H1 H2] H3].
    repeat constructor; try (unfold is_byte; destruct (a =? 224), (a =? 237); lia). apply IH; [lia|done]. }
  destruct l3 as [|d l4]; [done|]. simpl in Hl. rewrite !andb_true_iff, !between_spec in H. destruct H as [[[[H0 H1] H2] H3] H4].
  repeat constructor; try (unfold is_byte; destruct (a =? 240), (a =? 244); lia). apply IH; [lia|done].
Qed.

(** ** Numbers *)

Lemma skip_digits_app ds rest :
  Forall (fun b => is_digit_byte b = true) ds -> (forall b r, rest = b :: r -> is_digit_byte b = false) -> skip_digits (ds ++ rest) = rest.
Proof.
  intros Hds Hr. induction Hds as [|d ds Hd _ IH]; simpl.
  - destruct rest as [|b r]; simpl; [done|]. rewrite (Hr b r eq_refl). done.
  - rewrite Hd. done.
Qed.

Lemma skip_digits_split s : exists ds, s = ds ++ skip_digits s /\ Forall (fun b => is_digit_byte b = true) ds.
Proof.
  induction s as [|b s [ds [Hs Hds]]]; [by exists []|]. simpl. destruct (is_digit_byte b) eqn:E; [|by exists []].
  exists (b :: ds). simpl. rewrite <- Hs. auto.
Qed.

Lemma required_digits_app ds rest :
  digits_ok ds -> (forall b r, rest = b :: r -> is_digit_byte b = false) -> required_digits (ds ++ rest) = Some rest.
Proof.
  intros [Hne Hds] Hr. pose proof (skip_digits_app ds rest Hds Hr) as Hs.
  destruct ds as [|d ds]; [done|]. cbn [app required_digits]. inversion Hds as [|? ? Hd]; subst. rewrite Hd. f_equal. exact Hs.
Qed.

Lemma required_digits_split s r : required_digits s = Some r -> exists ds, s = ds ++ r /\ digits_ok ds.
Proof.
  destruct s as [|b s]; [done|]. unfold required_digits. destruct (is_digit_byte b) eqn:E; [|done]. intros H. apply (inj Some) in H.
  destruct (skip_digits_split (b :: s)) as (ds & Hs & Hds). rewrite H in Hs. exists ds. split; [done|]. split; [|done].
  intros ->. simpl in Hs, H. rewrite E in H. destruct (skip_digits_split s) as (l & Hl & _). apply (f_equal length) in Hs, Hl.
  rewrite length_app in Hl. subst r. simpl in Hs. lia.
Qed.

(** What follows a part of a number does not continue it. *)
Lemma stops_digit rest : stops rest -> forall b r, rest = b :: r -> is_digit_byte b = false.
Proof. intros H b r ->. apply H. Qed.

Lemma exponent_digit e rest : exponent_ok e -> stops rest -> forall b r, e ++ rest = b :: r -> is_digit_byte b = false.
Proof.
  intros [->|(x & sign & ds & -> & Hx & _)] Hs b r; simpl; [apply stops_digit; done|]. intros [= <- _]. by destruct Hx as [-> | ->].
Qed.

Lemma fraction_digit f e rest :
  fraction_ok f -> exponent_ok e -> stops rest -> forall b r, f ++ e ++ rest = b :: r -> is_digit_byte b = false.
Proof.
  intros [->|(ds & -> & _)] He Hs b r; simpl; [apply exponent_digit; done|]. intros [= <- _]. done.
Qed.

Lemma skip_integer_app i rest :
  integer_ok i -> (forall b r, rest = b :: r -> is_digit_byte b = false) -> skip_integer (i ++ rest) = Some rest.
Proof.
  intros (sign & n & -> & Hsign & Hn) Hr. rewrite <- app_assoc.
  assert (forall d ds, between 49 d 57 = true -> Forall (fun b => is_digit_byte b = true) ds -> skip_digits (d :: ds ++ rest) = rest) as Hs.
  { intros d ds Hd Hds. apply (skip_digits_app (d :: ds)); [constructor; [|done]|done]. apply between_spec in Hd. apply between_spec. lia. }
  destruct Hsign as [->| ->], Hn as [->|(d & ds & -> & Hd & Hds)]; try done; unfold skip_integer; cbn [app Z.eqb Pos.eqb];
    specialize (Hs d ds Hd Hds); apply between_spec in Hd as Hb.
  - destruct (Z.eqb_spec d 45); [lia|]. destruct (Z.eqb_spec d 48); [lia|]. by rewrite Hd, Hs.
  - destruct (Z.eqb_spec d 48); [lia|]. by rewrite Hd, Hs.
Qed.

Lemma skip_integer_split s r : skip_integer s = Some r -> exists i, s = i ++ r /\ integer_ok i.
Proof.
  assert (forall s, match s with [] => None
    | b :: s' => if b =? 48 then Some s' else if between 49 b 57 then Some (skip_digits s) else None end = Some r ->
    exists n, s = n ++ r /\ (n = [48] \/ exists d ds, n = d :: ds /\ between 49 d 57 = true /\ Forall (fun b => is_digit_byte b = true) ds)) as Hn.
  { intros [|b l]; [done|]. destruct (Z.eqb_spec b 48) as [->|_]; [intros [= ->]; exists [48]; auto|].
    destruct (between 49 b 57) eqn:Eb; [|done]. intros H. apply (inj Some) in H.
    assert (is_digit_byte b = true) as Hb by (apply between_spec in Eb; apply between_spec; lia).
    simpl in H. rewrite Hb in H. destruct (skip_digits_split l) as (ds & Hl & Hds). exists (b :: ds). rewrite H in Hl.
    split; [by rewrite Hl at 1|]. eauto 8. }
  unfold skip_integer. intros H. destruct s as [|c s']; [done|]. destruct (Z.eqb_spec c 45) as [->|Hc].
  - destruct (Hn _ H) as (n & Hs & Hok). exists (45 :: n). split; [simpl; by rewrite Hs at 1|]. exists [45], n. auto.
  - destruct (Hn (c :: s') H) as (n & Hs & Hok). exists n. split; [done|]. exists [], n. auto.
Qed.

Lemma skip_fraction_app f e rest :
  fraction_ok f -> exponent_ok e -> stops rest -> skip_fraction (f ++ e ++ rest) = Some (e ++ rest).
Proof.
  intros Hf He Hs. destruct Hf as [->|(ds & -> & Hds)].
  - simpl. unfold skip_fraction. destruct He as [->|(x & sign & ds & -> & Hx & _)]; simpl.
    + destruct rest as [|b r]; [done|]. destruct Hs as (_ & H & _). by destruct (Z.eqb_spec b 46).
    + by destruct Hx as [->| ->].
  - simpl. apply required_digits_app; [done|]. by apply exponent_digit.
Qed.

Lemma skip_fraction_split s r : skip_fraction s = Some r -> exists f, s = f ++ r /\ fraction_ok f.
Proof.
  unfold skip_fraction. destruct s as [|c s]; [intros [= <-]; exists []; split; [done|by left]|].
  destruct (Z.eqb_spec c 46) as [->|_].
  - intros H. destruct (required_digits_split _ _ H) as (ds & -> & Hds). exists (46 :: ds). split; [done|]. right. eauto.
  - intros [= <-]. exists []. split; [done|by left].
Qed.

Lemma skip_exponent_app e rest : exponent_ok e -> stops rest -> skip_exponent (e ++ rest) = Some rest.
Proof.
  intros He Hs. pose proof (stops_digit rest Hs) as Hd. destruct He as [->|(x & sign & ds & -> & Hx & Hsign & Hds)]; simpl.
  - destruct rest as [|b r]; [done|]. destruct Hs as (_ & _ & H1 & H2). simpl. by destruct (Z.eqb_spec b 101), (Z.eqb_spec b 69).
  - rewrite <- app_assoc. assert ((x =? 101) || (x =? 69) = true) as -> by (by destruct Hx as [->| ->]).
    destruct Hsign as [->|[->| ->]]; simpl; try by apply required_digits_app.
    destruct ds as [|d ds]; [by destruct Hds|]. simpl. destruct Hds as [Hn Hds]. inversion Hds as [|? ? Hdd]; subst.
    apply between_spec in Hdd as Hb. destruct (Z.eqb_spec d 43), (Z.eqb_spec d 45); try lia. simpl.
    apply (required_digits_app (d :: ds)); [done|done].
Qed.

Lemma skip_exponent_split s r : skip_exponent s = Some r -> exists e, s = e ++ r /\ exponent_ok e.
Proof.
  unfold skip_exponent. destruct s as [|c s]; [intros [= <-]; exists []; split; [done|by left]|].
  destruct ((c =? 101) || (c =? 69)) eqn:Ec; [|intros [= <-]; exists []; split; [done|by left]].
  assert (c = 101 \/ c = 69) as Hc by (apply orb_true_iff in Ec as [E|E]; apply Z.eqb_eq in E; auto).
  intros H. destruct (required_digits_split _ _ H) as (ds & Hs & Hds). destruct s as [|d s].
  { exists (c :: [] ++ ds). split; [by simpl; f_equal|]. right. exists c, [], ds. auto 8. }
  destruct (Z.eqb_spec d 43) as [->|]; [|destruct (Z.eqb_spec d 45) as [->|]]; simpl in Hs.
  - exists (c :: [43] ++ ds). split; [simpl; by rewrite Hs|]. right. exists c, [43], ds. auto 8.
  - exists (c :: [45] ++ ds). split; [simpl; by rewrite Hs|]. right. exists c, [45], ds. auto 8.
  - exists (c :: [] ++ ds). split; [simpl; by rewrite Hs|]. right. exists c, [], ds. auto 8.
Qed.

Lemma number_reads n rest : number_ok n -> stops rest -> json_number_text (bytes_of n ++ rest) = pok n rest.
Proof.
  intros (i & f & e & Hn & Hi & Hf & He) Hs. unfold json_number_text.
  assert (bytes_of n ++ rest = i ++ f ++ e ++ rest) as Hb by (rewrite Hn, !app_assoc; done).
  rewrite Hb, skip_integer_app, skip_fraction_app, skip_exponent_app; try done; [|by apply fraction_digit].
  rewrite <- Hb, length_app. replace (length (bytes_of n) + length rest - length rest)%nat with (length (bytes_of n)) by lia.
  rewrite take_app_length, string_of_bytes_of. done.
Qed.

Lemma number_sound s n r :
  Forall is_byte s -> json_number_text s = pok n r -> number_ok n /\ exists l, l <> [] /\ s = l ++ r.
Proof.
  intros Hb. unfold json_number_text. destruct (skip_integer s) as [s1|] eqn:E1; [|done].
  destruct (skip_fraction s1) as [s2|] eqn:E2; [|done]. destruct (skip_exponent s2) as [s3|] eqn:E3; [|done]. intros [= <- <-].
  apply skip_integer_split in E1 as (i & -> & Hi). apply skip_fraction_split in E2 as (f & -> & Hf).
  apply skip_exponent_split in E3 as (e & -> & He). rewrite !app_assoc.
  rewrite length_app. replace (length ((i ++ f) ++ e) + length s3 - length s3)%nat with (length ((i ++ f) ++ e)) by lia.
  rewrite take_app_length. split.
  - exists i, f, e. rewrite bytes_of_string; [by rewrite app_assoc|]. rewrite !app_assoc in Hb. by apply Forall_app in Hb as [Hb _].
  - exists ((i ++ f) ++ e). split; [|done]. destruct Hi as (sign & m & -> & _ & [->|(d & ds & -> & _)]); by destruct sign.
Qed.

(** ** Strings *)

Lemma hex_char_byte d s : 0 <= d < 16 -> bytes_of (String (hex_char d) s) = hex_byte d :: bytes_of s.
Proof.
  intros Hd. simpl. f_equal. unfold hex_char. fold (hex_byte d).
  assert (0 <= hex_byte d < 256) by (unfold hex_byte; destruct (Z.ltb_spec d 10); lia).
  rewrite N_ascii_embedding by lia. lia.
Qed.

Lemma hex_byte_val d : 0 <= d < 16 -> hex_val (hex_byte d) = Some d /\ 48 <= hex_byte d <= 102.
Proof.
  intros Hd. unfold hex_val, hex_byte, between. destruct (Z.ltb_spec d 10); split; try lia.
  - rewrite (proj2 (Z.leb_le _ _)), (proj2 (Z.leb_le _ _)) by lia. simpl. f_equal. lia.
  - rewrite (proj2 (Z.leb_le 48 _)), (proj2 (Z.leb_gt _ 57)), (proj2 (Z.leb_le 97 _)), (proj2 (Z.leb_le _ 102)) by lia. simpl. f_equal. lia.
Qed.

Lemma hex4_reads n rest : 0 <= n < 65536 -> hex4 (bytes_of (hex4_text n) ++ rest) = pok n rest.
Proof.
  intros Hn. unfold hex4_text. rewrite !hex_char_byte by (apply Z.mod_pos_bound; lia). unfold hex4. cbn [app length bytes_of].
  destruct (hex_byte_val (n / 4096 mod 16)) as [V1 B1]; [apply Z.mod_pos_bound; lia|].
  destruct (hex_byte_val (n / 256 mod 16)) as [V2 B2]; [apply Z.mod_pos_bound; lia|].
  destruct (hex_byte_val (n / 16 mod 16)) as [V3 B3]; [apply Z.mod_pos_bound; lia|].
  destruct (hex_byte_val (n mod 16)) as [V4 B4]; [apply Z.mod_pos_bound; lia|].
  set (h1 := hex_byte _) in *. set (h2 := hex_byte (n / 256 mod 16)) in *. set (h3 := hex_byte (n / 16 mod 16)) in *.
  set (h4 := hex_byte (n mod 16)) in *. simpl take. simpl drop. cbn [valid_utf8].
  rewrite !(proj2 (between_spec _ _ _)) by lia. simpl. destruct (Z.eqb_spec h1 43); [lia|].
  rewrite V1, V2, V3, V4. f_equal. f_equal. f_equal.
  assert (n = 4096 * (n / 4096) + 256 * ((n / 256) mod 16) + 16 * ((n / 16) mod 16) + n mod 16) as Hd.
  { assert (n / 16 / 16 = n / 256) by (by rewrite Z.div_div by lia). assert (n / 256 / 16 = n / 4096) by (by rewrite Z.div_div by lia).
    pose proof (Z.div_mod n 16). pose proof (Z.div_mod (n / 16) 16). pose proof (Z.div_mod (n / 256) 16). lia. }
  assert (n / 4096 < 16) by (apply Z.div_lt_upper_bound; lia). rewrite (Z.mod_small (n / 4096)) by (split; [apply Z.div_pos; lia|lia]). lia.
Qed.

Lemma string_reads t : forall fuel out rest,
  valid_utf8 (out ++ bytes_of t) = true -> (length (bytes_of (escape t)) < fuel)%nat ->
  string_loop fuel out (bytes_of (escape t) ++ 34 :: rest) = pok (string_of (out ++ bytes_of t)) rest.
Proof.
  induction t as [|c t IH]; intros [|fuel] out rest Hv Hf; try (simpl in Hf; lia).
  { simpl in *. rewrite app_nil_r in *. rewrite Hv. done. }
  change (bytes_of (String c t)) with (Z.of_N (N_of_ascii c) :: bytes_of t) in *. cbn [escape] in *.
  assert (Z.of_N (N_of_ascii c) < 256) as Hb by (pose proof (N_ascii_bounded c); lia).
  remember (Z.of_N (N_of_ascii c)) as b eqn:Eb. rewrite (cons_middle b out), app_assoc in Hv |- *.
  destruct (Z.eqb_spec b 34) as [->|H34]; [|destruct (Z.eqb_spec b 92) as [->|H92]]; [| |destruct (Z.ltb_spec b 32) as [H32|H32]].
  - refine (IH fuel (out ++ [34]) rest Hv _). simpl in Hf. lia.
  - refine (IH fuel (out ++ [92]) rest Hv _). simpl in Hf. lia.
  - rewrite bytes_of_app in *. cbn [bytes_of] in *. rewrite length_app in Hf. simpl length in Hf. cbn [app string_loop].
    change (Z.of_N (N_of_ascii "\")) with 92. change (Z.of_N (N_of_ascii "u")) with 117. simpl (92 =? _). simpl (simple_escape 117). simpl (117 =? 117).
    unfold code_point. rewrite <- app_assoc, hex4_reads by lia. cbn [pbind pok].
    assert (between 55296 b 56319 = false) as -> by (apply not_true_iff_false; rewrite between_spec; lia). cbn [pbind pok].
    assert (is_char b = true) as ->.
    { unfold is_char. rewrite (proj2 (between_spec _ _ _)) by lia. assert (between 55296 b 57343 = false) as ->; [|done].
      apply not_true_iff_false. rewrite between_spec. lia. }
    unfold encode_utf8. destruct (Z.ltb_spec b 128); [|lia]. apply IH; [done|lia].
  - simpl in Hf. cbn [bytes_of app string_loop]. rewrite <- Eb. destruct (Z.eqb_spec b 34); [done|]. destruct (Z.eqb_spec b 92); [done|].
    destruct (Z.ltb_spec b 32); [lia|]. apply IH; [done|lia].
Qed.

(** ** Parsers that return, read something and give what they should *)

Lemma tail_cons b s : tail_of s (b :: s).
Proof. by exists [b]. Qed.

Lemma tail_trans r s t : tail_of r s -> tail_of s t -> tail_of r t.
Proof. intros (l & Hl & ->) (k & Hk & ->). exists (k ++ l). rewrite app_assoc. split; [|done]. by destruct k. Qed.

Lemma tail_length r s : tail_of r s -> (length r < length s)%nat.
Proof. intros (l & Hl & ->). rewrite length_app. destruct l; [done|simpl; lia]. Qed.

Lemma tail_bytes r s : tail_of r s -> Forall is_byte s -> Forall is_byte r.
Proof. intros (l & _ & ->) H. by apply Forall_app in H as [_ H]. Qed.

Lemma reads_pok {A : Type} (a : A) r s (P : A -> Prop) : P a -> tail_of r s -> reads (pok a r) s P.
Proof. intros Ha Hr. eexists. split; [done|]. by intros ? ? [= <- <-]. Qed.

Lemma reads_perr {A : Type} e s (P : A -> Prop) : reads (perr e) s P.
Proof. eexists. by split. Qed.

Lemma reads_tail {A : Type} (m : parsed A) r s P : tail_of r s -> reads m r P -> reads m s P.
Proof. intros Ht (res & -> & H). eexists. split; [done|]. intros a r' Hr. destruct (H a r' Hr) as [Ha Hr']. split; [done|]. by eapply tail_trans. Qed.

Lemma reads_bind {A B : Type} (m : parsed A) (k : A -> list Z -> parsed B) s (P : A -> Prop) (Q : B -> Prop) :
  reads m s P -> (forall a r, P a -> tail_of r s -> reads (k a r) s Q) -> reads (pbind m k) s Q.
Proof.
  intros (res & -> & H) Hk. destruct res as [[a r]|e]; simpl; [|apply reads_perr]. destruct (H a r eq_refl). by apply Hk.
Qed.

#[local] Hint Resolve tail_cons tail_trans reads_pok reads_perr reads_tail : json.

Lemma skip_ws_tail s : skip_ws s = s \/ tail_of (skip_ws s) s.
Proof.
  induction s as [|b s IH]; [by left|]. simpl. destruct (is_ws b); [|by left]. right. destruct IH as [->|IH]; eauto with json.
Qed.

Lemma take_byte_tail b s :
  (exists r, take_byte b s = (true, r) /\ tail_of r s) \/ (exists r, take_byte b s = (false, r) /\ (r = s \/ tail_of r s)).
Proof.
  unfold take_byte. pose proof (skip_ws_tail s) as H. destruct (skip_ws s) as [|c r]; [right; exists []; split; [done|naive_solver]|].
  destruct (c =? b).
  - left. exists r. split; [done|]. destruct H as [<-|H]; eauto with json.
  - right. exists (c :: r). split; [done|naive_solver].
Qed.

Lemma expect_reads b s : reads (expect_byte b s) s (fun _ => True).
Proof.
  unfold expect_byte. destruct (take_byte_tail b s) as [(r & -> & Hr)|(r & -> & _)]; eauto with json.
Qed.

Lemma hex4_returns s : reads (hex4 s) s (fun _ => True).
Proof.
  unfold hex4. destruct (Nat.ltb_spec (length s) 4); [eauto with json|]. destruct (negb _); [eauto with json|].
  destruct (from_radix16 _); [|eauto with json]. apply reads_pok; [done|]. exists (take 4 s). rewrite take_drop.
  split; [|done]. destruct s; [simpl in *; lia|done].
Qed.

Lemma code_point_returns s : reads (code_point s) s (fun _ => True).
Proof.
  apply (reads_bind _ _ _ (fun _ => True)); [apply hex4_returns|]. intros a r _ Hr. destruct (between 55296 a 56319); [|eauto with json].
  case_bool_decide as H2; [eauto with json|].
  assert (tail_of (drop 2 r) s) as Hd.
  { refine (tail_trans _ _ _ _ Hr). exists (take 2 r). rewrite take_drop, H2. done. }
  apply (reads_tail _ (drop 2 r)); [done|]. apply (reads_bind _ _ _ (fun _ => True)); [apply hex4_returns|]. intros b r' _ Hr'.
  destruct (between 56320 b 57343); eauto with json.
Qed.

Lemma string_loop_returns fuel : forall out s,
  (length s < fuel)%nat -> reads (string_loop fuel out s) s (fun t => valid_utf8 (bytes_of t) = true).
Proof.
  induction fuel as [|fuel IH]; intros out s Hf; [lia|]. cbn [string_loop]. destruct s as [|b s]; [eauto with json|]. simpl in Hf.
  assert (forall out' r, tail_of r (b :: s) -> reads (string_loop fuel out' r) (b :: s) (fun t => valid_utf8 (bytes_of t) = true)) as Hrec.
  { intros out' r Hr. apply (reads_tail _ r); [done|]. apply IH. apply tail_length in Hr. simpl in Hr. lia. }
  destruct (b =? 34).
  { destruct (valid_utf8 out) eqn:Ev; [|eauto with json]. apply reads_pok; [|apply tail_cons].
    rewrite bytes_of_string; [done|]. by apply (valid_utf8_bytes (length out)). }
  destruct (b =? 92); [|destruct (b <? 32); [eauto with json|apply Hrec, tail_cons]].
  destruct s as [|e s]; [eauto with json|]. destruct (simple_escape e); [apply Hrec; eauto with json|].
  destruct (e =? 117); [|eauto with json].
  apply (reads_bind _ _ _ (fun _ => True)); [apply (reads_tail _ s); [eauto with json|apply code_point_returns]|].
  intros cp r _ Hr. destruct (is_char cp); [by apply Hrec|eauto with json].
Qed.

Lemma json_string_returns s : reads (json_string s) s (fun t => valid_utf8 (bytes_of t) = true).
Proof.
  apply (reads_bind _ _ _ (fun _ => True)); [apply expect_reads|]. intros _ r _ Hr. apply (reads_tail _ r); [done|]. apply string_loop_returns. lia.
Qed.

Lemma number_returns s : Forall is_byte s -> reads (json_number_text s) s number_ok.
Proof.
  intros Hb. destruct (json_number_text s) as [[[n r]|e]| |] eqn:E.
  - exists (Ok (n, r)). split; [done|]. intros ? ? [= <- <-]. by apply number_sound.
  - by exists (Err e).
  - unfold json_number_text in E. repeat case_match; done.
  - unfold json_number_text in E. repeat case_match; done.
Qed.

Lemma word_reads j word s :
  (exists c w, word = String c w) -> starts_with word s = true -> forall P : Json -> Prop, P j -> reads (pok j (drop (String.length word) s)) s P.
Proof.
  intros (c & w & Hw) H P Hj. unfold starts_with in H. apply bool_decide_eq_true in H. apply reads_pok; [done|].
  exists (take (String.length word) s). rewrite take_drop, H, Hw. done.
Qed.

(** ** Values *)

(** A loop of the parser that goes on after an item: a closing byte, or a
    comma and the rest. *)
Lemma closing_reads b s s0 (done_ : Json) (k : list Z -> parsed Json) P :
  P done_ -> tail_of s s0 -> (forall r, tail_of r s0 -> (length r < length s)%nat -> reads (k r) s0 P) ->
  reads (let '(closed, s) := take_byte b s in if closed then pok done_ s else parse* x, s := expect_byte 44 s in k s) s0 P.
Proof.
  intros Hd Hs Hk. destruct (take_byte_tail b s) as [(r & -> & Hr)|(r & -> & Hr)]; [eauto with json|].
  destruct (expect_reads 44 r) as (res & -> & He). destruct res as [[[] r']|e]; simpl; [|apply reads_perr].
  destruct (He tt r' eq_refl) as [_ Hr'].
  assert (tail_of r' s) as Ht by (destruct Hr as [->|Hr]; eauto with json). apply Hk; [eauto with json|]. by apply tail_length.
Qed.

Lemma members_insert depth k v m :
  members_ok depth m -> valid_utf8 (bytes_of k) = true -> json_ok (S depth) v -> members_ok depth (bt_insert k v m).
Proof.
  intros (Hs & Hk & Hv) Hk' Hv'. split; [by apply bt_sorted_insert|]. rewrite !Forall_forall in *.
  split; intros e He; apply bt_insert_elem in He as [->|He]; auto.
Qed.

Lemma values_return fuel : forall depth s, Forall is_byte s ->
  ((2 * length s + 2 <= fuel)%nat -> reads (json_value fuel depth s) s (json_ok depth)) /\
  (forall m, (2 * length s + 1 <= fuel)%nat -> (depth <= limit)%nat -> members_ok depth m -> reads (json_members fuel depth m s) s (json_ok depth)) /\
  (forall a, (2 * length s + 3 <= fuel)%nat -> (depth <= limit)%nat -> Forall (json_ok (S depth)) a -> reads (json_elements fuel depth a s) s (json_ok depth)).
Proof.
  induction fuel as [|fuel IH]; intros depth s Hb; [repeat split; intros; lia|]. split; [|split].
  - intros Hf. cbn [Json.json_value]. destruct (Nat.ltb_spec limit depth) as [_|Hd]; [eauto with json|].
    pose proof (skip_ws_tail s) as Hws. destruct (skip_ws s) as [|b s'] eqn:Ews; [eauto with json|].
    assert (forall m (P : Json -> Prop), reads m (b :: s') P -> reads m s P) as Hup.
    { intros m P H. destruct Hws as [<-|Hws]; eauto with json. }
    assert (Forall is_byte (b :: s')) as Hb' by (destruct Hws as [<-|Hws]; [done|by eapply tail_bytes]).
    assert (length (b :: s') <= length s)%nat as Hl by (destruct Hws as [<-|Hws]; [done|apply tail_length in Hws; lia]).
    apply Hup. simpl in Hl.
    assert (forall r, tail_of r (b :: s') -> Forall is_byte r /\ (2 * length r + 3 <= fuel)%nat) as Hr.
    { intros r Hr. split; [by eapply tail_bytes|]. apply tail_length in Hr. simpl in Hr. lia. }
    destruct (b =? 34).
    { apply (reads_bind _ _ _ _ _ (json_string_returns _)). intros t r Ht Hr'. apply reads_pok; [by constructor|done]. }
    destruct (b =? 123).
    { destruct (take_byte_tail 125 s') as [(r & -> & Ht)|(r & -> & Ht)].
      - apply reads_pok; [constructor; try done; apply bt_sorted_nil|eauto with json].
      - assert (tail_of r (b :: s')) as Ht' by (destruct Ht as [->|Ht]; eauto with json). destruct (Hr r Ht') as [Hbr Hlr].
        apply (reads_tail _ r); [done|]. apply (IH depth r Hbr); [lia|done|]. split; [apply bt_sorted_nil|done]. }
    destruct (b =? 91).
    { destruct (take_byte_tail 93 s') as [(r & -> & Ht)|(r & -> & Ht)].
      - apply reads_pok; [by constructor|eauto with json].
      - assert (tail_of r (b :: s')) as Ht' by (destruct Ht as [->|Ht]; eauto with json). destruct (Hr r Ht') as [Hbr Hlr].
        apply (reads_tail _ r); [done|]. by apply (IH depth r Hbr). }
    destruct (_ && starts_with "null" _) eqn:En; [apply andb_true_iff in En as [_ En]; apply (word_reads _ _ _ ltac:(eauto) En); by constructor|].
    destruct (_ && starts_with "true" _) eqn:Et; [apply andb_true_iff in Et as [_ Et]; apply (word_reads _ _ _ ltac:(eauto) Et); by constructor|].
    destruct (_ && starts_with "false" _) eqn:Ef; [apply andb_true_iff in Ef as [_ Ef]; apply (word_reads _ _ _ ltac:(eauto) Ef); by constructor|].
    destruct (_ || _); [|eauto with json]. apply (reads_bind _ _ _ _ _ (number_returns _ Hb')). intros n r Hn Hr'.
    apply reads_pok; [by constructor|done].
  - intros m Hf Hd Hm. cbn [Json.json_members]. apply (reads_bind _ _ _ _ _ (json_string_returns s)). intros k r Hk Hr.
    apply (reads_bind _ _ _ (fun _ => True)); [apply (reads_tail _ r); [done|apply expect_reads]|]. intros _ r1 _ Hr1.
    apply tail_length in Hr1 as Hl1.
    assert (Forall is_byte r1) as Hb1 by (by eapply tail_bytes).
    apply (reads_bind _ _ _ (json_ok (S depth))).
    { apply (reads_tail _ r1); [done|]. apply (IH (S depth) r1 Hb1). lia. }
    intros v r2 Hv Hr2. case_bool_decide; [eauto with json|]. cbv zeta.
    pose proof (members_insert depth k v m Hm Hk Hv) as Hm'.
    apply (closing_reads 125 r2 s (JObject (bt_insert k v m)) (fun s => json_members fuel depth (bt_insert k v m) s)); [|done|].
    { by constructor; try apply Hm'. }
    intros r3 Hr3 _. apply (reads_tail _ r3); [done|]. apply tail_length in Hr3 as Hl3. apply (IH depth r3); [by eapply tail_bytes|lia|done|done].
  - intros a Hf Hd Ha. cbn [Json.json_elements]. apply (reads_bind _ _ _ (json_ok (S depth))); [apply (IH (S depth) s Hb); lia|].
    intros v r Hv Hr. assert (Forall (json_ok (S depth)) (a ++ [v])) as Hav by (apply Forall_app; auto).
    apply (closing_reads 93 r s (JArray (a ++ [v])) (fun s => json_elements fuel depth (a ++ [v]) s)); [by constructor|done|].
    intros r3 Hr3 _. apply (reads_tail _ r3); [done|]. apply tail_length in Hr3 as Hl3. apply (IH depth r3); [by eapply tail_bytes|lia|done|done].
Qed.

(** ** Writing, then reading *)

Lemma take_byte_ok b r : is_ws b = false -> take_byte b (b :: r) = (true, r).
Proof. intros H. unfold take_byte. simpl. rewrite H, Z.eqb_refl. done. Qed.

Lemma take_byte_other b c r : is_ws c = false -> c <> b -> take_byte b (c :: r) = (false, c :: r).
Proof. intros H Hc. unfold take_byte. simpl. rewrite H. by destruct (Z.eqb_spec c b). Qed.

Lemma expect_byte_ok b r : is_ws b = false -> expect_byte b (b :: r) = pok tt r.
Proof. intros H. unfold expect_byte. by rewrite take_byte_ok. Qed.

Lemma encode_string_reads t rest :
  valid_utf8 (bytes_of t) = true -> json_string (bytes_of (encode_string t) ++ rest) = pok t rest.
Proof.
  intros Hv. unfold encode_string, json_string. cbn [bytes_of]. change (Z.of_N (N_of_ascii quote)) with 34. rewrite bytes_of_app.
  cbn [bytes_of]. change (Z.of_N (N_of_ascii quote)) with 34. simpl app. rewrite expect_byte_ok by done. cbn [pbind pok].
  rewrite <- app_assoc. simpl app. rewrite string_reads by (try done; rewrite length_app; lia). cbn [app]. by rewrite string_of_bytes_of.
Qed.

Lemma number_head n : number_ok n -> exists b l, bytes_of n = b :: l /\ (b = 45 \/ is_digit_byte b = true).
Proof.
  intros (i & f & e & Hn & (sign & m & -> & Hs & Hm) & _). rewrite <- !app_assoc in Hn.
  destruct Hs as [->| ->]; [|eexists _, _; split; [exact Hn|by left]].
  destruct Hm as [->|(d & ds & -> & Hd & _)]; (eexists _, _; split; [exact Hn|right]); [done|].
  apply between_spec in Hd. apply between_spec. lia.
Qed.

Lemma encode_head d j : json_ok d j -> exists b l, bytes_of (json_encode j) = b :: l /\ starts_value b.
Proof.
  intros H. destruct H as [_|b _|n _ Hn|s _ _|l _ _|m _ _ _ _]; try (eexists _, _; split; [reflexivity|done]).
  - destruct b; eexists _, _; (split; [reflexivity|done]).
  - destruct (number_head n Hn) as (b & l & Hb & Hd). exists b, l. split; [done|]. unfold starts_value, is_ws.
    destruct Hd as [->|Hd]; [done|]. apply between_spec in Hd.
    destruct (Z.eqb_spec b 32), (Z.eqb_spec b 9), (Z.eqb_spec b 13), (Z.eqb_spec b 10); simpl; repeat split; lia.
Qed.

Lemma bt_sorted_middle (a : list (string * Json)) k v l : bt_sorted (a ++ (k, v) :: l) -> Forall (fun e => key_ltb e.1 k = true) a.
Proof.
  induction a as [|[k' v'] a IH]; [done|]. simpl. intros [Hs Hf]%bt_sorted_cons. constructor; [|auto].
  simpl. rewrite Forall_forall in Hf. apply (Hf (k, v)). apply elem_of_app. right. by left.
Qed.

(** An item of a list in front of the closing byte: the item, and what is left
    for the loop. *)
Lemma join_bytes w ws : bytes_of (join "," (w :: ws)) = bytes_of w ++ match ws with [] => [] | _ => 44 :: bytes_of (join "," ws) end.
Proof. destruct ws as [|w' ws]; simpl; [by rewrite app_nil_r|]. rewrite bytes_of_app. done. Qed.

Lemma elements_read l : forall fuel d a rest,
  l <> [] -> Forall value_reads l -> Forall (json_ok (S d)) l ->
  (2 * length (bytes_of (join "," (json_encode <$> l))) + 3 <= fuel)%nat ->
  json_elements fuel d a (bytes_of (join "," (json_encode <$> l)) ++ 93 :: rest) = pok (JArray (a ++ l)) rest.
Proof.
  induction l as [|j l IH]; intros [|fuel] d a rest Hne Hr Hok Hf; [done|done|lia|].
  apply Forall_cons in Hr as [Hj Hr], Hok as [Hd Hok]. rewrite fmap_cons in *. rewrite join_bytes in *. rewrite length_app in Hf.
  cbn [Json.json_elements]. rewrite <- app_assoc. destruct l as [|j' l].
  - cbn [fmap list_fmap app]. rewrite Hj by (done || (simpl in Hf; lia)). cbn [pbind pok]. by rewrite take_byte_ok.
  - rewrite fmap_cons in *. cbn [app length] in *. rewrite Hj by (done || lia). cbn [pbind pok].
    rewrite take_byte_other, expect_byte_ok by done. cbn [pbind pok]. rewrite <- fmap_cons.
    rewrite IH; [by rewrite <- app_assoc|done|done|done|]. cbn [fmap list_fmap]; lia.
Qed.

Lemma members_read l : forall fuel d a rest,
  l <> [] -> Forall (fun e => value_reads e.2) l -> bt_sorted (a ++ l) -> Forall (fun e => valid_utf8 (bytes_of e.1) = true) l ->
  Forall (fun e => json_ok (S d) e.2) l -> (2 * length (bytes_of (join "," (member_text <$> l))) + 3 <= fuel)%nat ->
  json_members fuel d a (bytes_of (join "," (member_text <$> l)) ++ 125 :: rest) = pok (JObject (a ++ l)) rest.
Proof.
  induction l as [|[k v] l IH]; intros [|fuel] d a rest Hne Hr Hs Hk Hok Hf; [done|done|lia|].
  apply Forall_cons in Hr as [Hj Hr], Hok as [Hd Hok], Hk as [Hk Hks]. rewrite fmap_cons in *. rewrite join_bytes in *. rewrite length_app in Hf.
  destruct (bt_append k v a (bt_sorted_middle _ _ _ _ Hs)) as [Hnone Hins]. simpl in Hj, Hd, Hk.
  assert (bytes_of (member_text (k, v)) = bytes_of (encode_string k) ++ 58 :: bytes_of (json_encode v)) as Hm.
  { unfold member_text. simpl fst. simpl snd. rewrite !bytes_of_app. done. }
  rewrite Hm in *. cbn [Json.json_members]. rewrite <- !app_assoc, encode_string_reads by done. cbn [pbind pok app].
  rewrite expect_byte_ok by done. cbn [pbind pok]. rewrite length_app in Hf. cbn [length] in Hf. destruct l as [|e l].
  - cbn [fmap list_fmap app]. rewrite Hj by (done || (simpl in Hf; lia)). cbn [pbind pok]. rewrite Hnone, Hins. by rewrite take_byte_ok.
  - rewrite fmap_cons in *. cbn [app length] in *. rewrite Hj by (done || lia). cbn [pbind pok]. rewrite Hnone, Hins. cbv zeta.
    rewrite bool_decide_false by (by intros [? ?]). rewrite take_byte_other, expect_byte_ok by done. cbn [pbind pok]. rewrite <- fmap_cons.
    rewrite IH; try done; [by rewrite <- app_assoc|by rewrite <- app_assoc|]. cbn [fmap list_fmap]; lia.
Qed.

Lemma array_bytes l : bytes_of (json_encode (JArray l)) = 91 :: bytes_of (join "," (json_encode <$> l)) ++ [93].
Proof. cbn [json_encode]. rewrite !bytes_of_app. done. Qed.

Lemma object_bytes m : bytes_of (json_encode (JObject m)) = 123 :: bytes_of (join "," (member_text <$> m)) ++ [125].
Proof. change (json_encode (JObject m)) with ("{" ++ join "," (member_text <$> m) ++ "}")%string. rewrite !bytes_of_app. done. Qed.

Lemma value_array fuel d s : (d <= limit)%nat ->
  json_value (S fuel) d (91 :: s) =
  (let '(closed, s) := take_byte 93 s in if closed then pok (JArray []) s else json_elements fuel d [] s).
Proof. intros Hd. cbn [Json.json_value]. by destruct (Nat.ltb_spec limit d) as [?|_]; [lia|]. Qed.

Lemma value_object fuel d s : (d <= limit)%nat ->
  json_value (S fuel) d (123 :: s) =
  (let '(closed, s) := take_byte 125 s in if closed then pok (JObject []) s else json_members fuel d [] s).
Proof. intros Hd. cbn [Json.json_value]. by destruct (Nat.ltb_spec limit d) as [?|_]; [lia|]. Qed.

Lemma array_reads l : Forall value_reads l -> value_reads (JArray l).
Proof.
  intros IH [|fuel] d rest Hok Hs Hf; [lia|]. inversion Hok as [| | | |? Hd Hl|]; subst. rewrite array_bytes in *.
  cbn [app length] in *. rewrite length_app in Hf. cbn [length] in Hf. rewrite <- app_assoc, value_array by done. destruct l as [|j l]; [done|].
  pose proof (elements_read (j :: l) fuel d [] rest ltac:(done) IH Hl ltac:(lia)) as Hr. cbn [app] in Hr |- *.
  apply Forall_cons in Hl as [Hj _]. destruct (encode_head _ _ Hj) as (b & r & Hb & Hw & H93 & _).
  rewrite fmap_cons, join_bytes, Hb in Hr |- *. cbn [app] in Hr |- *. rewrite (take_byte_other 93 b _ Hw H93). exact Hr.
Qed.

Lemma object_reads m : Forall (fun e => value_reads e.2) m -> value_reads (JObject m).
Proof.
  intros IH [|fuel] d rest Hok Hs Hf; [lia|]. inversion Hok as [| | | | |? Hd Hm Hk Hl]; subst. rewrite object_bytes in *.
  cbn [app length] in *. rewrite length_app in Hf. cbn [length] in Hf. rewrite <- app_assoc, value_object by done. destruct m as [|[k v] m]; [done|].
  pose proof (members_read ((k, v) :: m) fuel d [] rest ltac:(done) IH Hm Hk Hl ltac:(lia)) as Hr. cbn [app] in Hr |- *.
  rewrite fmap_cons, join_bytes in Hr |- *. unfold member_text at 1 3 in Hr. unfold member_text at 1 3. rewrite bytes_of_app in Hr |- *.
  cbn [encode_string bytes_of app] in Hr |- *. rewrite take_byte_other by done. exact Hr.
Qed.

Lemma number_value n : value_reads (JNumber n).
Proof.
  intros [|fuel] d rest Hok Hs Hf; [lia|]. inversion Hok as [| |? Hd Hn| | |]; subst. cbn [Json.json_value json_encode] in *.
  destruct (Nat.ltb_spec limit d) as [?|_]; [lia|].
  destruct (number_head n Hn) as (b & r & Hb & Hh). pose proof (number_reads n rest Hn Hs) as Hr. rewrite Hb in *. cbn [app] in *.
  assert (is_ws b = false /\ b <> 34 /\ b <> 123 /\ b <> 91 /\ b <> 110 /\ b <> 116 /\ b <> 102) as (Hw & ? & ? & ? & ? & ? & ?).
  { unfold is_ws. destruct Hh as [->|Hh]; [done|]. apply between_spec in Hh.
    destruct (Z.eqb_spec b 32), (Z.eqb_spec b 9), (Z.eqb_spec b 13), (Z.eqb_spec b 10); simpl; repeat split; lia. }
  assert ((b =? 45) || is_digit_byte b = true) as Hor by (destruct Hh as [->| ->]; [done|apply orb_true_r]).
  simpl skip_ws. rewrite Hw, !(proj2 (Z.eqb_neq b _)), Hor by done. cbn [andb]. by rewrite Hr.
Qed.

Lemma value_string fuel d s : (d <= limit)%nat ->
  json_value (S fuel) d (34 :: s) = (parse* t, s := json_string (34 :: s) in pok (JString t) s).
Proof. intros Hd. cbn [Json.json_value]. by destruct (Nat.ltb_spec limit d) as [?|_]; [lia|]. Qed.

Lemma string_value s : value_reads (JString s).
Proof.
  intros [|fuel] d rest Hok Hs Hf; [lia|]. inversion Hok as [| | |? Hd Hn| |]; subst.
  change (bytes_of (json_encode (JString s)) ++ rest) with (34 :: bytes_of (escape s ++ String quote "") ++ rest).
  rewrite value_string by done.
  change (34 :: bytes_of (escape s ++ String quote "") ++ rest) with (bytes_of (encode_string s) ++ rest).
  by rewrite encode_string_reads.
Qed.

Lemma json_reads j : value_reads j.
Proof.
  induction j as [|b|n|s|l IH|m IH] using json_induction;
    [| |by apply number_value|by apply string_value|by apply array_reads|by apply object_reads].
  all: intros [|fuel] d rest Hok Hs Hf; [lia|]; inversion Hok; subst; cbn [Json.json_value json_encode];
    (destruct (Nat.ltb_spec limit d) as [?|_]; [lia|]).
  - reflexivity.
  - destruct b; reflexivity.
Qed.

End limited.

Lemma parse_written j : json_ok 64 0 j -> json_parse (json_encode j) = Done (Ok j).
Proof.
  intros Hj. unfold json_parse. pose proof (json_reads 64 j (S (S (2 * length (bytes_of (json_encode j))))) 0%nat [] Hj I ltac:(lia)) as H.
  rewrite app_nil_r in H. by rewrite H.
Qed.

Lemma json_parse_returns text : exists res, json_parse text = Done res /\ forall j, res = Ok j -> json_ok 64 0 j.
Proof.
  unfold json_parse. destruct (values_return 64 (S (S (2 * length (bytes_of text)))) 0 (bytes_of text) (bytes_of_ok text)) as [Hv _].
  destruct (Hv ltac:(lia)) as (res & -> & Hok). destruct res as [[j s]|e]; [|by eexists].
  destruct (Hok j s eq_refl) as [Hj _]. eexists. split; [done|]. intros j' Hr. destruct (is_nil (skip_ws s)); [|done]. by injection Hr as <-.
Qed.

(** C32: Writing a JSON value and parsing the text gives the value back, for
    every value whose numbers follow the grammar of numbers, whose strings and
    keys are UTF-8, whose objects are sorted and which nests at most 64 deep:
    escapes, control characters, empty containers and every number form. *)
Theorem json_roundtrip j : json_ok 64 0 j -> json_parse (json_encode j) = Done (Ok j).
Proof. apply parse_written. Qed.

Lemma json_roundtrip_witness :
  json_parse (json_encode (JObject [("a", JArray [JNumber "-1.5e+3"; JNull]); ("b", JString (String quote "\x"))])) =
  Done (Ok (JObject [("a", JArray [JNumber "-1.5e+3"; JNull]); ("b", JString (String quote "\x"))])).
Proof.
  apply json_roundtrip. constructor; [lia|repeat constructor|repeat constructor|].
  repeat constructor. exists [45; 49], [46; 53], [101; 43; 51]. split; [reflexivity|]. split; [|split].
  - exists [45], [49]. split; [done|]. split; [by right|]. right. exists 49, []. auto.
  - right. exists [53]. split; [done|]. split; [done|by repeat constructor].
  - right. exists 101, [43], [51]. split; [done|]. split; [by left|]. split; [by right; left|]. split; [done|by repeat constructor].
Defined.

(** Parsing returns on every text, with an error or a value, and never
    panics or runs on; and every value it accepts can be written and parsed
    again, to the same value. *)
Theorem json_parse_stable text :
  exists res, json_parse text = Done res /\ forall j, res = Ok j -> json_parse (json_encode j) = Done (Ok j).
Proof.
  destruct (json_parse_returns text) as (res & -> & Hok). eexists. split; [done|]. intros j Hj.
  by apply parse_written, Hok.
Qed.

(** The digits of an escape go through [u16::from_str_radix], which takes a plus
    sign: the text [\u+041] is accepted, and read as the letter A. *)
Theorem json_plus_escape :
  json_parse (string_of [34; 92; 117; 43; 48; 52; 49; 34]) = Done (Ok (JString "A")).
Proof. vm_compute. reflexivity. Qed.
