(* ===== verification/JsonText.v ===== *)
(** * JSON values as lines of text

    The values the core writes are built from strings, numbers and objects, so
    their shape is right; that their strings are UTF-8 can be read off the text
    itself. A written value has no control characters, so it is one line. *)

From Stdlib Require Import Ascii.
From S2P Require Import Prelude BTree Text Bytes Json JsonSpec.

(** ** Definitions *)

(** [json_ok] but for the encoding of the strings. *)
Inductive json_shape (limit d : nat) : Json -> Prop :=
| sh_null : (d <= limit)%nat -> json_shape limit d JNull
| sh_bool b : (d <= limit)%nat -> json_shape limit d (JBool b)
| sh_number n : (d <= limit)%nat -> number_ok n -> json_shape limit d (JNumber n)
| sh_string s : (d <= limit)%nat -> json_shape limit d (JString s)
| sh_array l : (d <= limit)%nat -> Forall (json_shape limit (S d)) l -> json_shape limit d (JArray l)
| sh_object m : (d <= limit)%nat -> bt_sorted m -> Forall (fun e => json_shape limit (S d) e.2) m -> json_shape limit d (JObject m).

Definition ascii_byte (b : Z) : Prop := 0 <= b < 128.

Definition visible_byte (b : Z) : Prop := 32 <= b.

Create HintDb shape.
#[export] Hint Constructors json_shape : shape.

(** ** Equality *)

Lemma json_eqb_spec a : forall b, json_eqb a b = true <-> a = b.
Proof.
  induction a as [|x|x|x|l IH|m IH] using json_induction; intros [|y|y|y|l'|m']; cbn [json_eqb]; try (split; [done|discriminate]); try done.
  - rewrite Bool.eqb_true_iff. split; congruence.
  - rewrite String.eqb_eq. split; congruence.
  - rewrite String.eqb_eq. split; congruence.
  - revert l'. induction IH as [|a l Ha _ IHl]; intros [|b l']; try (split; [done|discriminate]); try done.
    rewrite andb_true_iff, Ha, IHl. split; [intros [-> [= ->]]; done|intros [= -> ->]; done].
  - revert m'. induction IH as [|[k a] l Ha _ IHl]; intros [|[k' b] l']; try (split; [done|discriminate]); try done.
    rewrite !andb_true_iff, String.eqb_eq, (Ha b), IHl. cbn [snd]. split; [intros [[-> ->] [= ->]]; done|intros [= -> -> ->]; done].
Qed.

Lemma json_eqb_refl a : json_eqb a a = true.
Proof. by apply json_eqb_spec. Qed.

(** ** Numbers *)

Lemma digits_bytes s : all_chars is_digit s = true -> Forall (fun b => is_digit_byte b = true) (bytes_of s).
Proof.
  induction s as [|c s IH]; simpl; [constructor|]. intros [Hc Hs]%andb_true_iff. constructor; [|by apply IH].
  unfold is_digit in Hc. apply andb_true_iff in Hc as [H1%N.leb_le H2%N.leb_le]. unfold is_digit_byte. apply between_spec. lia.
Qed.

Lemma print_nat_integer n : 0 <= n -> exists l, bytes_of (print_nat n) = l /\
  (l = [48] \/ exists d ds, l = d :: ds /\ between 49 d 57 = true /\ Forall (fun b => is_digit_byte b = true) ds).
Proof.
  intros Hn. eexists. split; [done|]. destruct (Z.eq_dec n 0) as [->|H0]; [by left|]. right. unfold print_nat.
  destruct (print_fuel_head (S (Z.to_nat (Z.log2 n))) n) as (d & s & -> & Hd & Hs); [pose proof (print_fuel_enough n Hn); lia|].
  exists (48 + d), (bytes_of s). split_and!.
  - cbn [bytes_of]. unfold digit_char. rewrite N_ascii_embedding by lia. f_equal. lia.
  - apply between_spec. lia.
  - by apply digits_bytes.
Qed.

Lemma print_dec_number n : number_ok (print_dec n).
Proof.
  exists (bytes_of (print_dec n)), [], []. rewrite !app_nil_r. split_and!; [done| |by left|by left]. unfold print_dec.
  destruct (Z.ltb_spec n 0).
  - destruct (print_nat_integer (- n)) as (l & Hl & Hok); [lia|]. exists [45], l. rewrite <- Hl. split; [done|]. split; [by right|].
    by rewrite Hl.
  - destruct (print_nat_integer n) as (l & Hl & Hok); [lia|]. exists [], l. rewrite <- Hl. split; [done|]. split; [by left|]. by rewrite Hl.
Qed.

(** ** Shapes *)

Lemma shape_number limit d n : (d <= limit)%nat -> json_shape limit d (json_number n).
Proof. constructor; [done|]. apply print_dec_number. Qed.

Lemma shape_fold limit d fields : forall m, bt_sorted m -> Forall (fun e => json_shape limit (S d) e.2) m ->
  Forall (fun e => json_shape limit (S d) e.2) fields ->
  let m' := foldl (fun m (e : string * Json) => bt_insert e.1 e.2 m) m fields in
  bt_sorted m' /\ Forall (fun e => json_shape limit (S d) e.2) m'.
Proof.
  induction fields as [|e fields IH]; intros m Hs Hm Hf; [done|]. apply Forall_cons in Hf as [He Hf]. simpl. apply IH; [by apply bt_sorted_insert| |done].
  rewrite Forall_forall in *. intros x [->|Hx]%bt_insert_elem; [done|by apply Hm].
Qed.

Lemma shape_object limit d fields : (d <= limit)%nat -> Forall (fun e => json_shape limit (S d) e.2) fields -> json_shape limit d (json_object fields).
Proof. intros Hd Hf. destruct (shape_fold limit d fields []) as [Hs Hm]; [apply bt_sorted_nil|constructor|done|]. by constructor. Qed.

Lemma shape_insert limit d k v m :
  json_shape limit d (JObject m) -> json_shape limit (S d) v -> json_shape limit d (JObject (bt_insert k v m)).
Proof.
  intros Hm Hv. inversion Hm; subst. constructor; [done|by apply bt_sorted_insert|]. rewrite Forall_forall in *.
  intros x [->|Hx]%bt_insert_elem; auto.
Qed.

Lemma ok_insert limit d k v m : valid_utf8 (bytes_of k) = true ->
  json_ok limit d (JObject m) -> json_ok limit (S d) v -> json_ok limit d (JObject (bt_insert k v m)).
Proof.
  intros Hk Hm Hv. inversion Hm as [| | | | |? Hd Hs Hks Hvs]; subst. constructor; [done|by apply bt_sorted_insert|..];
    rewrite Forall_forall in *; intros x [->|Hx]%bt_insert_elem; auto.
Qed.

Lemma ok_object limit d fields : (d <= limit)%nat -> Forall (fun e => valid_utf8 (bytes_of e.1) = true /\ json_ok limit (S d) e.2) fields ->
  json_ok limit d (json_object fields).
Proof.
  intros Hd Hf. unfold json_object. assert (forall m, json_ok limit d (JObject m) ->
    json_ok limit d (JObject (foldl (fun m (e : string * Json) => bt_insert e.1 e.2 m) m fields))) as Hfold.
  { induction Hf as [|e fields [Hk Hv] _ IH]; intros m Hm; [done|]. simpl. apply IH. by apply ok_insert. }
  apply Hfold. constructor; [done|apply bt_sorted_nil|constructor|constructor].
Qed.

(** A value moved to where more nesting is allowed. *)
Lemma ok_deeper limit limit' d d' j : (limit + d' <= limit' + d)%nat -> json_ok limit d j -> json_ok limit' d' j.
Proof.
  intros Hle. revert d d' Hle. induction j as [|x|x|x|l IH|m IH] using json_induction; intros d d' Hle Hj; inversion Hj; subst; constructor; try done; try lia.
  - rewrite Forall_forall in *. intros x Hx. eapply (IH x Hx (S d)); [lia|]. auto.
  - rewrite Forall_forall in *. intros x Hx. eapply (IH x Hx (S d)); [lia|]. auto.
Qed.

Lemma ok_shape limit d j : json_ok limit d j -> json_shape limit d j.
Proof.
  revert d. induction j as [|x|x|x|l IH|m IH] using json_induction; intros d Hj; inversion Hj; subst; constructor; try done.
  - rewrite Forall_forall in *. auto.
  - rewrite Forall_forall in *. intros e He. apply IH; auto.
Qed.

(** ** UTF-8 *)

Ltac utf8_step := repeat (case_match; try done).

(** A valid text is valid on both sides of an ASCII byte. *)
Lemma utf8_split_ascii n : forall l b r, (length l <= n)%nat -> ascii_byte b -> valid_utf8 (l ++ b :: r) = valid_utf8 l && valid_utf8 r.
Proof.
  induction n as [|n IH]; intros l b r Hl Hb.
  all: assert (forall lo hi, 128 <= lo -> between lo b hi = false) as Hno
    by (intros lo hi Hlo; apply not_true_iff_false; rewrite between_spec; unfold ascii_byte in Hb; lia).
  all: assert (between 0 b 127 = true) as Hasc by (apply between_spec; unfold ascii_byte in Hb; lia).
  { destruct l; [|simpl in Hl; lia]. cbn [app valid_utf8]. by rewrite Hasc. }
  destruct l as [|a l1]; [cbn [app valid_utf8]; by rewrite Hasc|]. simpl in Hl. cbn [app valid_utf8].
  destruct (between 0 a 127) eqn:Ha; [apply IH; [lia|done]|].
  destruct l1 as [|x l2].
  { cbn [app]. rewrite !Hno by (repeat case_match; lia). simpl. rewrite ?andb_false_r. utf8_step. }
  simpl in Hl. cbn [app]. destruct (between 194 a 223); [rewrite IH by (done || lia); by rewrite andb_assoc|].
  destruct l2 as [|y l3].
  { cbn [app]. rewrite !Hno by lia. rewrite ?andb_false_r. cbn [andb]. utf8_step. }
  simpl in Hl. cbn [app]. destruct (between 224 a 239); [rewrite IH by (done || lia); by rewrite !andb_assoc|].
  destruct l3 as [|z l4].
  { cbn [app]. rewrite !Hno by lia. by rewrite ?andb_false_r. }
  simpl in Hl. cbn [app]. rewrite IH by (done || lia). by rewrite !andb_assoc.
Qed.

Lemma utf8_ascii_split l b r : ascii_byte b -> valid_utf8 (l ++ b :: r) = valid_utf8 l && valid_utf8 r.
Proof. by apply (utf8_split_ascii (length l)). Qed.

Lemma utf8_ascii_app a l : Forall ascii_byte a -> valid_utf8 (a ++ l) = valid_utf8 l.
Proof.
  induction 1 as [|b a Hb _ IH]; [done|]. cbn [app valid_utf8]. rewrite (proj2 (between_spec 0 b 127)) by (unfold ascii_byte in Hb; lia). done.
Qed.

(** Text of ASCII characters. *)
Definition ascii_char (c : ascii) : bool := (N_of_ascii c <? 128)%N.

Lemma ascii_utf8 s : all_chars ascii_char s = true -> valid_utf8 (bytes_of s) = true.
Proof.
  intros Hs. rewrite <- (app_nil_r (bytes_of s)). rewrite utf8_ascii_app; [done|]. induction s as [|c s IH]; [constructor|].
  cbn [all_chars] in Hs. apply andb_true_iff in Hs as [Hc Hs]. constructor; [|by apply IH]. apply N.ltb_lt in Hc. unfold ascii_byte. lia.
Qed.

Lemma digit_ascii c : is_digit c = true -> ascii_char c = true.
Proof. unfold is_digit, ascii_char. rewrite andb_true_iff, !N.leb_le, N.ltb_lt. lia. Qed.

Lemma digits_ascii s : all_chars is_digit s = true -> all_chars ascii_char s = true.
Proof. apply all_chars_impl, digit_ascii. Qed.

Lemma all_chars_join p sep ws : p sep = true -> Forall (fun w => all_chars p w = true) ws -> all_chars p (join sep ws) = true.
Proof.
  intros Hs. induction 1 as [|w ws Hw _ IH]; [done|]. destruct ws as [|w' ws]; [done|]. change (join sep (w :: w' :: ws)) with (w ++ String sep (join sep (w' :: ws)))%string.
  rewrite all_chars_app, Hw. cbn [all_chars]. by rewrite Hs, IH.
Qed.

Lemma hex4_text_bytes n : Forall (fun b => 32 <= b < 128) (bytes_of (hex4_text n)).
Proof.
  unfold hex4_text. pose proof (fun m => Z.mod_pos_bound m 16). rewrite !hex_char_byte by auto with lia.
  repeat constructor; unfold hex_byte; case_match; Z.div_mod_to_equations; lia.
Qed.

(** The bytes of an escaped string: an ASCII character becomes ASCII
    characters, any other byte stays. *)
Lemma escape_cases c s :
  (exists a, Forall ascii_byte a /\ a <> [] /\ bytes_of (escape (String c s)) = a ++ bytes_of (escape s) /\ ascii_byte (Z.of_N (N_of_ascii c))) \/
  128 <= Z.of_N (N_of_ascii c) /\ bytes_of (escape (String c s)) = Z.of_N (N_of_ascii c) :: bytes_of (escape s).
Proof.
  pose proof (N_ascii_bounded c) as Hc. cbn [escape]. set (b := Z.of_N (N_of_ascii c)) in *.
  destruct (Z.eqb_spec b 34); [left; exists [92; 34]; split_and!; [by repeat constructor|done|done|unfold ascii_byte; lia]|].
  destruct (Z.eqb_spec b 92); [left; exists [92; 92]; split_and!; [by repeat constructor|done|done|unfold ascii_byte; lia]|].
  destruct (Z.ltb_spec b 32).
  { left. exists (92 :: 117 :: bytes_of (hex4_text b)). rewrite bytes_of_app. split_and!; [|done|done|unfold ascii_byte; lia].
    constructor; [done|]. constructor; [done|]. eapply Forall_impl; [apply hex4_text_bytes|]. unfold ascii_byte. simpl. lia. }
  destruct (Z.lt_ge_cases b 128); [|by right]. left. exists [b]. split_and!; [|done|done|unfold ascii_byte; lia].
  constructor; [unfold ascii_byte; lia|done].
Qed.

Lemma escape_head s b l :
  bytes_of (escape s) = b :: l -> 128 <= b -> exists c t, s = String c t /\ Z.of_N (N_of_ascii c) = b /\ l = bytes_of (escape t).
Proof.
  intros H Hb. destruct s as [|c s]; [done|]. destruct (escape_cases c s) as [(a & Ha & Hne & He & _)|[_ He]]; rewrite He in H.
  - destruct Ha as [|x a Hx _]; [done|]. injection H as <- _. unfold ascii_byte in Hx. lia.
  - injection H as <- <-. eauto.
Qed.

Lemma between_ge lo b hi : between lo b hi = true -> lo <= b.
Proof. rewrite between_spec. lia. Qed.

(** A continuation byte after an escape is one of the string. *)
Lemma escape_continues s b l lo hi :
  bytes_of (escape s) = b :: l -> between lo b hi = true -> 128 <= lo ->
  exists c t, s = String c t /\ bytes_of s = b :: bytes_of t /\ l = bytes_of (escape t).
Proof.
  intros H Hb%between_ge Hlo. destruct (escape_head s b l H) as (c & t & -> & Hc & ->); [lia|]. exists c, t. simpl. by rewrite Hc.
Qed.

Lemma escape_utf8 n : forall s, (String.length s <= n)%nat -> valid_utf8 (bytes_of (escape s)) = true -> valid_utf8 (bytes_of s) = true.
Proof.
  induction n as [|n IH]; intros [|c s] Hn Hv; try done; [simpl in Hn; lia|]. simpl in Hn.
  destruct (escape_cases c s) as [(a & Ha & _ & He & Hc)|[Hc He]]; rewrite He in Hv; cbn [bytes_of].
  { rewrite utf8_ascii_app in Hv by done. cbn [valid_utf8]. rewrite (proj2 (between_spec _ _ _)) by (unfold ascii_byte in Hc; lia).
    apply IH; [lia|done]. }
  cbn [valid_utf8] in Hv |- *. set (b := Z.of_N (N_of_ascii c)) in *.
  assert (between 0 b 127 = false) as E by (apply not_true_iff_false; rewrite between_spec; lia). rewrite E in Hv |- *.
  destruct (bytes_of (escape s)) as [|x l] eqn:Es; [done|]. destruct (between 194 b 223) eqn:E2.
  { apply andb_true_iff in Hv as [Hx Hv]. destruct (escape_continues _ _ _ _ _ Es Hx ltac:(lia)) as (c1 & t & -> & -> & ->).
    rewrite Hx. simpl in Hn. apply IH; [lia|done]. }
  destruct l as [|y l]; [done|]. destruct (between 224 b 239) eqn:E3.
  { apply andb_true_iff in Hv as [[Hx Hy]%andb_true_iff Hv].
    destruct (escape_continues _ _ _ _ _ Es Hx) as (c1 & t & -> & -> & El); [case_match; lia|]. symmetry in El.
    destruct (escape_continues _ _ _ _ _ El Hy ltac:(lia)) as (c2 & t' & -> & -> & ->). rewrite Hx, Hy. simpl in Hn. apply IH; [lia|done]. }
  destruct l as [|z l]; [done|]. apply andb_true_iff in Hv as [[[[E4 Hx]%andb_true_iff Hy]%andb_true_iff Hz]%andb_true_iff Hv].
  destruct (escape_continues _ _ _ _ _ Es Hx) as (c1 & t & -> & -> & El); [case_match; lia|]. symmetry in El.
  destruct (escape_continues _ _ _ _ _ El Hy ltac:(lia)) as (c2 & t2 & -> & -> & El2). symmetry in El2.
  destruct (escape_continues _ _ _ _ _ El2 Hz ltac:(lia)) as (c3 & t3 & -> & -> & ->).
  rewrite E4, Hx, Hy, Hz. simpl in Hn. apply IH; [lia|done].
Qed.

(** In front of more text. *)
Lemma encode_string_utf8 s rest :
  valid_utf8 (bytes_of (encode_string s) ++ rest) = true -> valid_utf8 (bytes_of s) = true /\ valid_utf8 rest = true.
Proof.
  change (bytes_of (encode_string s)) with (34 :: bytes_of (escape s ++ String quote "")). rewrite bytes_of_app, <- app_comm_cons, <- app_assoc.
  change (bytes_of (String quote "") ++ rest) with (34 :: rest). change (34 :: bytes_of (escape s) ++ 34 :: rest) with ([34] ++ bytes_of (escape s) ++ 34 :: rest).
  rewrite utf8_ascii_app by (by repeat constructor). rewrite utf8_ascii_split by done. intros [H Hr]%andb_true_iff. split; [|done].
  by apply (escape_utf8 (String.length s)).
Qed.

Lemma number_ascii n : number_ok n -> Forall ascii_byte (bytes_of n) /\ Forall visible_byte (bytes_of n).
Proof.
  intros (i & f & e & -> & (sg & m & -> & Hsg & Hm) & Hf & He).
  assert (forall ds, Forall (fun b => is_digit_byte b = true) ds -> Forall (fun b => 32 <= b < 128) ds) as Hd.
  { intros ds Hds. eapply Forall_impl; [exact Hds|]. intros b Hb%between_spec. lia. }
  cut (Forall (fun b => 32 <= b < 128) ((sg ++ m) ++ f ++ e)).
  { intros H. split; (eapply Forall_impl; [exact H|]); unfold ascii_byte, visible_byte; simpl; lia. }
  rewrite !Forall_app. split_and!.
  - by destruct Hsg as [->| ->]; repeat constructor.
  - destruct Hm as [->|(d & ds & -> & Hb & Hds)]; [by repeat constructor|]. apply between_spec in Hb. constructor; [lia|auto].
  - destruct Hf as [->|(ds & -> & _ & Hds)]; [done|]. constructor; [lia|auto].
  - destruct He as [->|(x & sg' & ds & -> & Hx & Hs & _ & Hds)]; [done|]. constructor; [lia|]. apply Forall_app. split; [|auto].
    by destruct Hs as [->|[->| ->]]; repeat constructor.
Qed.

(** The strings of a value whose text is UTF-8 are. *)
Definition text_gives (j : Json) : Prop :=
  forall limit d rest, json_shape limit d j -> valid_utf8 (bytes_of (json_encode j) ++ rest) = true -> json_ok limit d j /\ valid_utf8 rest = true.

Lemma texts_give {A : Type} (f : A -> string) (P : A -> Prop) (l : list A) rest :
  Forall (fun x => forall rest, valid_utf8 (bytes_of (f x) ++ rest) = true -> P x /\ valid_utf8 rest = true) l ->
  valid_utf8 (bytes_of (join "," (f <$> l)) ++ rest) = true -> Forall P l /\ valid_utf8 rest = true.
Proof.
  induction 1 as [|x l Hx _ IH]; [done|]. rewrite fmap_cons, join_bytes. destruct (f <$> l) as [|w ws] eqn:El.
  - rewrite app_nil_r. intros Hv. destruct (Hx _ Hv). destruct l; [|done]. split; [by repeat constructor|done].
  - rewrite <- app_assoc. intros Hv. destruct (Hx _ Hv) as [HP Hv']. rewrite <- app_comm_cons in Hv'. change (44 :: ?l) with ([44] ++ l) in Hv'.
    rewrite utf8_ascii_app in Hv' by (by repeat constructor). destruct (IH Hv'). split; [by constructor|done].
Qed.

Lemma json_text_gives j : text_gives j.
Proof.
  induction j as [|x|x|x|l IH|m IH] using json_induction; intros limit d rest Hj; inversion Hj; subst.
  - change (bytes_of (json_encode JNull)) with (bytes_of "null"). rewrite utf8_ascii_app by (by repeat constructor). split; [by constructor|done].
  - rewrite utf8_ascii_app by (destruct x; by repeat constructor). split; [by constructor|done].
  - rewrite utf8_ascii_app by (by apply number_ascii). split; [by constructor|done].
  - intros [Hs Hr]%encode_string_utf8. split; [by constructor|done].
  - rewrite array_bytes, <- app_comm_cons, <- app_assoc. change (91 :: ?l) with ([91] ++ l). rewrite utf8_ascii_app by (by repeat constructor).
    intros Hv. destruct (texts_give json_encode (json_ok limit (S d)) l ([93] ++ rest)) with (2 := Hv) as [Hl Hr].
    { rewrite Forall_forall in *. intros x Hx rest'. apply IH; auto. }
    split; [by constructor|]. by rewrite utf8_ascii_app in Hr by (by repeat constructor).
  - rewrite object_bytes, <- app_comm_cons, <- app_assoc. change (123 :: ?l) with ([123] ++ l). rewrite utf8_ascii_app by (by repeat constructor).
    intros Hv. destruct (texts_give member_text (fun e => valid_utf8 (bytes_of e.1) = true /\ json_ok limit (S d) e.2) m ([125] ++ rest)) with (2 := Hv) as [Hl Hr].
    { rewrite Forall_forall in *. intros x Hx rest'. unfold member_text. rewrite !bytes_of_app, <- !app_assoc. intros [Hk Hv']%encode_string_utf8.
      rewrite utf8_ascii_app in Hv' by (by repeat constructor). destruct (IH x Hx limit (S d) rest') as [Hx' Hr']; auto. }
    apply Forall_and in Hl as [Hk Hl]. split; [by constructor|].
    by rewrite utf8_ascii_app in Hr by (by repeat constructor).
Qed.

Lemma shape_text limit d j : json_shape limit d j -> valid_utf8 (bytes_of (json_encode j)) = true -> json_ok limit d j.
Proof. intros Hj Hv. rewrite <- (app_nil_r (bytes_of _)) in Hv. by destruct (json_text_gives j limit d [] Hj Hv). Qed.

(** ** Written values are text *)

Lemma utf8_app n : forall a b, (length a <= n)%nat -> valid_utf8 a = true -> valid_utf8 (a ++ b) = valid_utf8 b.
Proof.
  induction n as [|n IH]; intros [|x a] b Hn Hv; try done; [simpl in Hn; lia|]. simpl in Hn. cbn [app valid_utf8] in Hv |- *.
  destruct (between 0 x 127); [apply IH; [lia|done]|]. destruct a as [|y a]; [done|]. simpl in Hn. cbn [app].
  destruct (between 194 x 223); [apply andb_true_iff in Hv as [-> Hv]; apply IH; [lia|done]|]. destruct a as [|z a]; [done|]. simpl in Hn. cbn [app].
  destruct (between 224 x 239); [apply andb_true_iff in Hv as [-> Hv]; apply IH; [lia|done]|]. destruct a as [|w a]; [done|]. simpl in Hn. cbn [app].
  apply andb_true_iff in Hv as [-> Hv]. apply IH; [lia|done].
Qed.

Lemma escape_big c s : 128 <= Z.of_N (N_of_ascii c) -> bytes_of (escape (String c s)) = Z.of_N (N_of_ascii c) :: bytes_of (escape s).
Proof. intros Hc. destruct (escape_cases c s) as [(a & _ & _ & _ & Ha)|[_ H]]; [unfold ascii_byte in Ha; lia|done]. Qed.

Lemma escape_valid n : forall s, (String.length s <= n)%nat -> valid_utf8 (bytes_of s) = true -> valid_utf8 (bytes_of (escape s)) = true.
Proof.
  induction n as [|n IH]; intros [|c s] Hn Hv; try done; [simpl in Hn; lia|]. simpl in Hn.
  destruct (escape_cases c s) as [(a & Ha & _ & He & Hc)|[Hc He]]; rewrite He; cbn [bytes_of] in Hv.
  { rewrite utf8_ascii_app by done. cbn [valid_utf8] in Hv. rewrite (proj2 (between_spec _ _ _)) in Hv by (unfold ascii_byte in Hc; lia).
    apply IH; [lia|done]. }
  cbn [valid_utf8] in Hv |- *. set (b := Z.of_N (N_of_ascii c)) in *.
  assert (between 0 b 127 = false) as E by (apply not_true_iff_false; rewrite between_spec; lia). rewrite E in Hv |- *.
  destruct s as [|d s]; [done|]. cbn [bytes_of String.length] in Hv, Hn. destruct (between 194 b 223) eqn:E2.
  { apply andb_true_iff in Hv as [Hx Hv]. rewrite escape_big by (apply between_ge in Hx; lia). rewrite Hx. apply IH; [lia|done]. }
  destruct s as [|e s]; [done|]. cbn [bytes_of String.length] in Hv, Hn. destruct (between 224 b 239) eqn:E3.
  { apply andb_true_iff in Hv as [[Hx Hy]%andb_true_iff Hv]. rewrite !escape_big; [|apply between_ge in Hx, Hy; repeat case_match; lia..].
    rewrite Hx, Hy. apply IH; [lia|done]. }
  destruct s as [|f s]; [done|]. cbn [bytes_of String.length] in Hv, Hn. apply andb_true_iff in Hv as [[[[E4 Hx]%andb_true_iff Hy]%andb_true_iff Hz]%andb_true_iff Hv].
  rewrite !escape_big; [|apply between_ge in Hx, Hy, Hz; repeat case_match; lia..]. rewrite E4, Hx, Hy, Hz. apply IH; [lia|done].
Qed.

Lemma encode_string_valid s : valid_utf8 (bytes_of s) = true -> valid_utf8 (bytes_of (encode_string s)) = true.
Proof.
  intros Hs. change (bytes_of (encode_string s)) with ([34] ++ bytes_of (escape s ++ String quote "")). rewrite utf8_ascii_app, bytes_of_app by (by repeat constructor).
  rewrite (utf8_app (length (bytes_of (escape s)))); [done|done|]. by apply (escape_valid (String.length s)).
Qed.

Lemma join_valid ws : Forall (fun w => valid_utf8 (bytes_of w) = true) ws -> valid_utf8 (bytes_of (join "," ws)) = true.
Proof.
  induction 1 as [|w ws Hw _ IH]; [done|]. rewrite join_bytes. rewrite (utf8_app (length (bytes_of w))) by done. destruct ws; [done|].
  change (44 :: ?l) with ([44] ++ l). by rewrite utf8_ascii_app by (by repeat constructor).
Qed.

Lemma ok_text limit d j : json_ok limit d j -> valid_utf8 (bytes_of (json_encode j)) = true.
Proof.
  revert d. induction j as [|x|x|x|l IH|m IH] using json_induction; intros d Hj; inversion Hj as [| |? _ Hn|? _ Hs|? _ Hl|? _ _ Hk Hm]; subst.
  - done.
  - by destruct x.
  - rewrite <- (app_nil_r (bytes_of _)), utf8_ascii_app; [done|by apply number_ascii].
  - by apply encode_string_valid.
  - rewrite array_bytes. change (91 :: ?l) with ([91] ++ l). rewrite utf8_ascii_app by (by repeat constructor).
    rewrite (utf8_app _ _ _ (Nat.le_refl _)); [done|]. apply join_valid, Forall_fmap. rewrite Forall_forall in *. intros x Hx. eapply IH; [done|]. by apply Hl.
  - rewrite object_bytes. change (123 :: ?l) with ([123] ++ l). rewrite utf8_ascii_app by (by repeat constructor).
    rewrite (utf8_app _ _ _ (Nat.le_refl _)); [done|]. apply join_valid, Forall_fmap. rewrite Forall_forall in *. intros x Hx.
    change (valid_utf8 (bytes_of (member_text x)) = true). unfold member_text. rewrite !bytes_of_app.
    rewrite (utf8_app _ _ _ (Nat.le_refl _)) by (by apply encode_string_valid, Hk). rewrite utf8_ascii_app by (by repeat constructor). eapply IH; [done|]. by apply Hm.
Qed.

(** ** Lines *)

Lemma escape_visible s : Forall visible_byte (bytes_of (escape s)).
Proof.
  induction s as [|c s IH]; [constructor|]. cbn [escape]. set (b := Z.of_N (N_of_ascii c)).
  destruct (Z.eqb_spec b 34); [repeat (constructor; [unfold visible_byte; simpl; lia|]); done|].
  destruct (Z.eqb_spec b 92); [repeat (constructor; [unfold visible_byte; simpl; lia|]); done|].
  destruct (Z.ltb_spec b 32); [|constructor; done]. rewrite bytes_of_app, Forall_app. split; [|done].
  cbn [bytes_of]. constructor; [done|]. constructor; [done|]. eapply Forall_impl; [apply hex4_text_bytes|]. unfold visible_byte. simpl. lia.
Qed.

Lemma encode_string_visible s : Forall visible_byte (bytes_of (encode_string s)).
Proof.
  change (bytes_of (encode_string s)) with (34 :: bytes_of (escape s ++ String quote "")). rewrite bytes_of_app. constructor; [done|].
  apply Forall_app. split; [apply escape_visible|by repeat constructor].
Qed.

Lemma join_visible ws : Forall (fun w => Forall visible_byte (bytes_of w)) ws -> Forall visible_byte (bytes_of (join "," ws)).
Proof.
  induction 1 as [|w ws Hw _ IH]; [constructor|]. rewrite join_bytes. apply Forall_app. split; [done|]. destruct ws; [done|]. by constructor.
Qed.

Lemma encode_visible limit d j : json_shape limit d j -> Forall visible_byte (bytes_of (json_encode j)).
Proof.
  revert d. induction j as [|x|x|x|l IH|m IH] using json_induction; intros d Hj; inversion Hj; subst.
  - by repeat constructor.
  - by destruct x; repeat constructor.
  - by apply number_ascii.
  - apply encode_string_visible.
  - rewrite array_bytes. constructor; [done|]. apply Forall_app. split; [|by repeat constructor]. apply join_visible, Forall_fmap.
    rewrite Forall_forall in *. intros x Hx. simpl. eauto.
  - rewrite object_bytes. constructor; [done|]. apply Forall_app. split; [|by repeat constructor]. apply join_visible, Forall_fmap.
    rewrite Forall_forall in *. intros x Hx. change (Forall visible_byte (bytes_of (member_text x))). unfold member_text. rewrite !bytes_of_app, !Forall_app. split_and!; [apply encode_string_visible|by repeat constructor|eauto].
Qed.

(** ** Nesting *)

Lemma pbind_ok {A B : Type} (m : parsed A) (k k' : A -> list Z -> parsed B) x :
  pbind m k = Done (Ok x) -> (forall a s, k a s = Done (Ok x) -> k' a s = Done (Ok x)) -> pbind m k' = Done (Ok x).
Proof. destruct m as [[[a s]|e]| |]; simpl; auto; done. Qed.

Lemma pbind_both {A B : Type} (m m' : parsed A) (k k' : A -> list Z -> parsed B) x :
  pbind m k = Done (Ok x) -> (forall y, m = Done (Ok y) -> m' = Done (Ok y)) -> (forall a s, k a s = Done (Ok x) -> k' a s = Done (Ok x)) ->
  pbind m' k' = Done (Ok x).
Proof. intros H Hm Hk. destruct m as [[[a s]|e]| |]; try done. rewrite (Hm _ eq_refl). simpl in *. auto. Qed.

(** What is read within a limit is read within a larger one. *)
Lemma limit_mono l l' : (l <= l')%nat -> forall fuel,
  (forall d s x, json_value l fuel d s = Done (Ok x) -> json_value l' fuel d s = Done (Ok x)) /\
  (forall d m s x, json_members l fuel d m s = Done (Ok x) -> json_members l' fuel d m s = Done (Ok x)) /\
  (forall d a s x, json_elements l fuel d a s = Done (Ok x) -> json_elements l' fuel d a s = Done (Ok x)).
Proof.
  intros Hl. induction fuel as [|fuel (IHv & IHm & IHe)]; [done|]. split_and!.
  - intros d s x. cbn [json_value]. destruct (Nat.ltb_spec l d); [done|]. destruct (Nat.ltb_spec l' d); [lia|].
    repeat (case_match; try done); auto.
  - intros d m s x H. cbn [json_members] in *. eapply pbind_ok; [exact H|]. intros k s1 H1. eapply pbind_ok; [exact H1|]. intros u s2 H2.
    eapply pbind_both; [exact H2|auto|]. intros v s3. simpl. repeat (case_match; try done). intros Hp. eapply pbind_ok; [exact Hp|]. auto.
  - intros d a s x H. cbn [json_elements] in *. eapply pbind_both; [exact H|auto|]. intros v s1. simpl. repeat (case_match; try done).
    intros Hp. eapply pbind_ok; [exact Hp|]. auto.
Qed.

(** A value that only might nest too deep, whose text the parser accepts, is what
    the parser gives. *)
Lemma parse_deep limit j j' : (64 <= limit)%nat -> json_ok limit 0 j -> json_parse (json_encode j) = Done (Ok j') -> j' = j /\ json_ok 64 0 j.
Proof.
  intros Hl Hj Hp. assert (j' = j) as ->.
  { unfold json_parse in Hp. destruct (json_value 64 _ 0 _) as [[[v r]|e]| |] eqn:Hv; [|done|done|done].
    apply (proj1 (limit_mono 64 limit Hl _)) in Hv. pose proof (json_reads limit j (S (S (2 * length (bytes_of (json_encode j))))) 0%nat [] Hj I ltac:(lia)) as H.
    rewrite app_nil_r in H. rewrite H in Hv. injection Hv as <- <-. by injection Hp. }
  split; [done|]. destruct (json_parse_returns (json_encode j)) as (res & Hr & Hok). rewrite Hp in Hr. injection Hr as <-. by apply Hok.
Qed.
