(* ===== verification/Order.v ===== *)
(** * Order data model

    [order_book/order.rs], [order_book/market_data.rs],
    [order_book/execution_report.rs] and [order_book/broadcaster.rs]: orders,
    self-trade prevention instructions, market data and fill records, and the
    subscriber registry. *)

From S2P Require Import Prelude.

(** ** order.rs *)

Inductive OrderSide : Type := Buy | Sell.

Inductive OrderType : Type := Market | Limit | Stop | StopLimit.

Inductive TimeInForce : Type := Day | GTC | IOC | FOK | AtOpen | AtClose | Gtd.

Inductive StpMode : Type :=
  StpNone | CancelNewest | CancelOldest | CancelBoth | DecrementAndCancel.

Record Stp : Type := mkStp { mode : StpMode; group : string }.

(** [Stp::default()]. *)
Definition stp_default_value : Stp := {| mode := StpNone; group := "" |}.

Inductive StpKey : Type := Owner (id : string) | Group (id : string).

Record Order : Type := mkOrder {
  order_id : string;
  trader_id : string;
  symbol : string;
  price : Z;             (* i64 *)
  quantity : Z;          (* u32, total leaves *)
  display_quantity : Z;  (* u32, zero means fully displayed *)
  side : OrderSide;
  order_type : OrderType;
  time_in_force : TimeInForce;
  timestamp : Z;         (* u64, milliseconds *)
  stop_price : Z;        (* i64 *)
  expire_date : string;
  account : string;
  client_order_id : string;
  order_stp : Stp;
}.

#[export] Instance OrderSide_eq_dec : EqDecision OrderSide.
Proof. solve_decision. Defined.
#[export] Instance OrderType_eq_dec : EqDecision OrderType.
Proof. solve_decision. Defined.
#[export] Instance TimeInForce_eq_dec : EqDecision TimeInForce.
Proof. solve_decision. Defined.
#[export] Instance StpMode_eq_dec : EqDecision StpMode.
Proof. solve_decision. Defined.
#[export] Instance Stp_eq_dec : EqDecision Stp.
Proof. solve_decision. Defined.
#[export] Instance StpKey_eq_dec : EqDecision StpKey.
Proof. solve_decision. Defined.
#[export] Instance Order_eq_dec : EqDecision Order.
Proof. solve_decision. Defined.

(** [Order::stp_key]. *)
Definition stp_key (o : Order) : StpKey :=
  if bool_decide (group (order_stp o) = ""%string) then Owner (trader_id o)
  else Group (group (order_stp o)).

(** Field updates of the struct-update syntax [Order { f: v, ..order }]. *)
Definition with_quantity (q : Z) (o : Order) : Order :=
  {| order_id := order_id o; trader_id := trader_id o; symbol := symbol o; price := price o;
     quantity := q; display_quantity := display_quantity o; side := side o;
     order_type := order_type o; time_in_force := time_in_force o; timestamp := timestamp o;
     stop_price := stop_price o; expire_date := expire_date o; account := account o;
     client_order_id := client_order_id o; order_stp := order_stp o |}.

Definition with_order_type (t : OrderType) (o : Order) : Order :=
  {| order_id := order_id o; trader_id := trader_id o; symbol := symbol o; price := price o;
     quantity := quantity o; display_quantity := display_quantity o; side := side o;
     order_type := t; time_in_force := time_in_force o; timestamp := timestamp o;
     stop_price := stop_price o; expire_date := expire_date o; account := account o;
     client_order_id := client_order_id o; order_stp := order_stp o |}.

(** *** [str::trim]

    A Rust string is its UTF-8 bytes. [white_space] lists the encodings of the
    Unicode White_Space characters; trimming removes them from both ends. *)

Fixpoint string_of_bytes (l : list N) : string :=
  match l with
  | [] => ""
  | b :: l' => String (Ascii.ascii_of_N b) (string_of_bytes l')
  end.

Definition white_space : list string :=
  string_of_bytes <$>
  [[9]; [10]; [11]; [12]; [13]; [32]; [194; 133]; [194; 160]; [225; 154; 128];
   [226; 128; 128]; [226; 128; 129]; [226; 128; 130]; [226; 128; 131]; [226; 128; 132];
   [226; 128; 133]; [226; 128; 134]; [226; 128; 135]; [226; 128; 136]; [226; 128; 137];
   [226; 128; 138]; [226; 128; 168]; [226; 128; 169]; [226; 128; 175]; [226; 129; 159];
   [227; 128; 128]]%N.

Fixpoint strip_prefix (p s : string) : option string :=
  match p, s with
  | EmptyString, _ => Some s
  | String a p', String b s' => if Ascii.eqb a b then strip_prefix p' s' else None
  | String _ _, EmptyString => None
  end.

Fixpoint rev_string (s acc : string) : string :=
  match s with EmptyString => acc | String a s' => rev_string s' (String a acc) end.

Fixpoint strip_first (ps : list string) (s : string) : option string :=
  match ps with
  | [] => None
  | p :: ps' => match strip_prefix p s with Some s' => Some s' | None => strip_first ps' s end
  end.

Fixpoint trim_start_fuel (fuel : nat) (ps : list string) (s : string) : string :=
  match fuel with
  | O => s
  | S fuel' => match strip_first ps s with
               | Some s' => trim_start_fuel fuel' ps s'
               | None => s
               end
  end.

Definition trim_start_with (ps : list string) (s : string) : string :=
  trim_start_fuel (String.length s) ps s.

Definition trim (s : string) : string :=
  let started := trim_start_with white_space s in
  rev_string (trim_start_with ((fun w => rev_string w "") <$> white_space) (rev_string started "")) "".

(** The error of [StpMode::parse], carrying the value its message quotes. *)
Inductive StpParseError : Type := InvalidStpMode (value : string).

(** [StpMode::parse]. *)
Definition stp_mode_parse (value : string) : result StpMode StpParseError :=
  let v := trim value in
  if bool_decide (v = ""%string) || bool_decide (v = "none"%string) then Ok StpNone
  else if bool_decide (v = "cancel-newest"%string) then Ok CancelNewest
  else if bool_decide (v = "cancel-oldest"%string) then Ok CancelOldest
  else if bool_decide (v = "cancel-both"%string) then Ok CancelBoth
  else if bool_decide (v = "decrement-and-cancel"%string) then Ok DecrementAndCancel
  else Err (InvalidStpMode v).

(** [StpMode::as_str]. *)
Definition stp_mode_as_str (m : StpMode) : string :=
  match m with
  | StpNone => "none"
  | CancelNewest => "cancel-newest"
  | CancelOldest => "cancel-oldest"
  | CancelBoth => "cancel-both"
  | DecrementAndCancel => "decrement-and-cancel"
  end.

(** ** market_data.rs *)

Record MarketDataSnapshot : Type := {
  snap_symbol : string;
  bids : list (Z * Z);
  asks : list (Z * Z);
}.

Inductive MarketUpdateType : Type := NewOrder | ModifyOrder | CancelOrder.

Record MarketOrderUpdate : Type := {
  update_type : MarketUpdateType;
  upd_price : Z;
  upd_quantity : Z;
  upd_side : OrderSide;
}.

Record MarketDataIncrementalUpdate : Type := {
  inc_symbol : string;
  changes : list MarketOrderUpdate;
}.

(** ** execution_report.rs *)

Record ExecutionReport : Type := mkExecutionReport {
  buy_order_id : string;
  sell_order_id : string;
  trade_price : Z;
  trade_quantity : Z;
  aggressor_side : OrderSide;
  buy_fully_filled : bool;
  sell_fully_filled : bool;
}.

(** ** broadcaster.rs

    The registry behind the mutex, one call at a time; broadcasting only
    traces, so the delivered set is what [get_subscribers] returns. *)

Record MarketDataBroadcaster : Type := { subscribers : gmap string (gset Z) }.

Definition broadcaster_new : MarketDataBroadcaster := {| subscribers := ∅ |}.

Definition subscribe (b : MarketDataBroadcaster) (client_id : Z) (sym : string) : MarketDataBroadcaster :=
  {| subscribers := <[sym := {[client_id]} ∪ default ∅ (subscribers b !! sym)]> (subscribers b) |}.

Definition unsubscribe (b : MarketDataBroadcaster) (client_id : Z) (sym : string) : MarketDataBroadcaster :=
  match subscribers b !! sym with
  | Some clients =>
    let clients' := clients ∖ {[client_id]} in
    {| subscribers := if bool_decide (clients' = ∅) then delete sym (subscribers b)
                      else <[sym := clients']> (subscribers b) |}
  | None => b
  end.

Definition get_subscribers (b : MarketDataBroadcaster) (sym : string) : list Z :=
  elements (default ∅ (subscribers b !! sym)).

(** ** Lemmas *)

Lemma with_quantity_same o : with_quantity (quantity o) o = o.
Proof. by destruct o. Qed.

Lemma with_quantity_twice a b o : with_quantity a (with_quantity b o) = with_quantity a o.
Proof. reflexivity. Qed.

Lemma stp_key_with_quantity q o : stp_key (with_quantity q o) = stp_key o.
Proof. reflexivity. Qed.

(** Mode names parse back to their mode. *)
Lemma stp_mode_roundtrip_lemma m : stp_mode_parse (stp_mode_as_str m) = Ok m.
Proof. destruct m; vm_compute; reflexivity. Qed.

Lemma elem_of_get_subscribers b sym c :
  c ∈ get_subscribers b sym <-> exists s, subscribers b !! sym = Some s /\ c ∈ s.
Proof.
  unfold get_subscribers. rewrite elem_of_elements.
  destruct (subscribers b !! sym) as [s|]; simpl; [naive_solver|]. set_solver.
Qed.
