(* ===== verification/OrderBook.v ===== *)
(** * The order book

    [order_book/order_book.rs]: price levels, the lookup and its side tables,
    entry, cancel, replace, fill bookkeeping and the displayed snapshot. The
    book is a record and every method a function on it. *)

From S2P Require Import Prelude BTree Order.

(** ** Self-trade prevention results ([matcher.rs]) *)

Inductive StpAction : Type := Canceled | Restated (by_ : Z).

Record StpEvent : Type := mkStpEvent {
  opposing_order : string;
  ev_order_id : string;
  action : StpAction;
  ev_mode : StpMode;
  before_fill : nat;
}.

Record StpOutcome : Type := mkStpOutcome {
  events : list StpEvent;
  stp_updates : list MarketDataIncrementalUpdate;
}.

Definition stp_outcome_default : StpOutcome := {| events := []; stp_updates := [] |}.

(** ** The book *)

Abbreviation levels := (list (Z * list Order)).

Record OrderBook : Type := mkOrderBook {
  book_symbol : string;
  broadcaster : MarketDataBroadcaster;
  buy_orders : levels;
  sell_orders : levels;
  order_lookup : gmap string Order;
  cum_filled : gmap string Z;
  arrival : gmap string Z;
  next_arrival : Z;
  displayed : gmap string Z;
  last_added : option string;
  refresh_log : option (list (nat * string * Z));
  book_stp : StpOutcome;
}.

Inductive OrderReject : Type :=
  UnknownOrder | DuplicateOrderId | NotOwner | QuantityNotAboveFilled.

#[export] Instance OrderReject_eq_dec : EqDecision OrderReject.
Proof. solve_decision. Defined.

(** [OrderReject::reason]. *)
Definition reject_reason (r : OrderReject) : string :=
  match r with
  | UnknownOrder | NotOwner => "Unknown order (filled, cancelled or never existed)"
  | DuplicateOrderId => "Duplicate order id"
  | QuantityNotAboveFilled => "Replace quantity not above filled quantity"
  end.

Record OrderReplace : Type := mkOrderReplace {
  new_price : Z;
  new_total_qty : Z;
  new_display_quantity : option Z;
  new_time_in_force : option TimeInForce;
  repl_client_order_id : string;
  repl_timestamp : Z;
}.

(** Assignments to one field of [self]. *)
Definition set_levels (s : OrderSide) (m : levels) (b : OrderBook) : OrderBook :=
  {| book_symbol := book_symbol b; broadcaster := broadcaster b;
     buy_orders := match s with Buy => m | Sell => buy_orders b end;
     sell_orders := match s with Buy => sell_orders b | Sell => m end;
     order_lookup := order_lookup b; cum_filled := cum_filled b; arrival := arrival b;
     next_arrival := next_arrival b; displayed := displayed b; last_added := last_added b;
     refresh_log := refresh_log b; book_stp := book_stp b |}.

Definition set_tables (lk : gmap string Order) (cum arr : gmap string Z) (b : OrderBook) : OrderBook :=
  {| book_symbol := book_symbol b; broadcaster := broadcaster b;
     buy_orders := buy_orders b; sell_orders := sell_orders b;
     order_lookup := lk; cum_filled := cum; arrival := arr;
     next_arrival := next_arrival b; displayed := displayed b; last_added := last_added b;
     refresh_log := refresh_log b; book_stp := book_stp b |}.

Definition set_next_arrival (n : Z) (b : OrderBook) : OrderBook :=
  {| book_symbol := book_symbol b; broadcaster := broadcaster b;
     buy_orders := buy_orders b; sell_orders := sell_orders b;
     order_lookup := order_lookup b; cum_filled := cum_filled b; arrival := arrival b;
     next_arrival := n; displayed := displayed b; last_added := last_added b;
     refresh_log := refresh_log b; book_stp := book_stp b |}.

Definition set_displayed (d : gmap string Z) (b : OrderBook) : OrderBook :=
  {| book_symbol := book_symbol b; broadcaster := broadcaster b;
     buy_orders := buy_orders b; sell_orders := sell_orders b;
     order_lookup := order_lookup b; cum_filled := cum_filled b; arrival := arrival b;
     next_arrival := next_arrival b; displayed := d; last_added := last_added b;
     refresh_log := refresh_log b; book_stp := book_stp b |}.

Definition set_last_added (id : option string) (b : OrderBook) : OrderBook :=
  {| book_symbol := book_symbol b; broadcaster := broadcaster b;
     buy_orders := buy_orders b; sell_orders := sell_orders b;
     order_lookup := order_lookup b; cum_filled := cum_filled b; arrival := arrival b;
     next_arrival := next_arrival b; displayed := displayed b; last_added := id;
     refresh_log := refresh_log b; book_stp := book_stp b |}.

Definition set_refresh_log (l : option (list (nat * string * Z))) (b : OrderBook) : OrderBook :=
  {| book_symbol := book_symbol b; broadcaster := broadcaster b;
     buy_orders := buy_orders b; sell_orders := sell_orders b;
     order_lookup := order_lookup b; cum_filled := cum_filled b; arrival := arrival b;
     next_arrival := next_arrival b; displayed := displayed b; last_added := last_added b;
     refresh_log := l; book_stp := book_stp b |}.

Definition set_stp (o : StpOutcome) (b : OrderBook) : OrderBook :=
  {| book_symbol := book_symbol b; broadcaster := broadcaster b;
     buy_orders := buy_orders b; sell_orders := sell_orders b;
     order_lookup := order_lookup b; cum_filled := cum_filled b; arrival := arrival b;
     next_arrival := next_arrival b; displayed := displayed b; last_added := last_added b;
     refresh_log := refresh_log b; book_stp := o |}.

Definition side_levels (s : OrderSide) (b : OrderBook) : levels :=
  match s with Buy => buy_orders b | Sell => sell_orders b end.

(** [OrderBook::new]. *)
Definition book_new (sym : string) (bc : MarketDataBroadcaster) : OrderBook :=
  {| book_symbol := sym; broadcaster := bc; buy_orders := []; sell_orders := [];
     order_lookup := ∅; cum_filled := ∅; arrival := ∅; next_arrival := 0; displayed := ∅;
     last_added := None; refresh_log := None; book_stp := stp_outcome_default |}.

(** [OrderBook::generate_incremental_update]. *)
Definition generate_incremental_update (b : OrderBook) (t : MarketUpdateType)
    (p q : Z) (s : OrderSide) : MarketDataIncrementalUpdate :=
  {| inc_symbol := book_symbol b;
     changes := [{| update_type := t; upd_price := p; upd_quantity := q; upd_side := s |}] |}.

(** [levels.entry(price).or_default()], then a push at the chosen end. *)
Definition push_level (back : bool) (o : Order) (m : levels) : levels :=
  let level := default [] (bt_get (price o) m) in
  bt_insert (price o) (if back then level ++ [o] else o :: level) m.

(** The slice shown on entry. *)
Definition initial_visible (o : Order) : Z :=
  if display_quantity o =? 0 then quantity o else Z.min (display_quantity o) (quantity o).

(** [OrderBook::add_order]. *)
Definition add_order (o : Order) (b : OrderBook) : MarketDataIncrementalUpdate * OrderBook :=
  let b := set_levels (side o) (push_level true o (side_levels (side o) b)) b in
  let visible := initial_visible o in
  let b := set_displayed (<[order_id o := visible]> (displayed b)) b in
  let b := set_last_added (Some (order_id o)) b in
  let b := set_tables (<[order_id o := o]> (order_lookup b)) (cum_filled b) (arrival b) b in
  let b := set_next_arrival (add64 (next_arrival b) 1) b in
  let b := set_tables (order_lookup b) (cum_filled b)
             (<[order_id o := next_arrival b]> (arrival b)) b in
  (generate_incremental_update b NewOrder (price o) visible (side o), b).

(** Drop every order of a level with this id, and the level if it empties. *)
Definition remove_from_levels (p : Z) (id : string) (m : levels) : levels :=
  match bt_get p m with
  | Some orders =>
    let orders' := filter (fun o => order_id o <> id) orders in
    if is_nil orders' then bt_remove p m else bt_insert p orders' m
  | None => m
  end.

(** [OrderBook::cancel_order]. *)
Definition cancel_order (id : string) (b : OrderBook) : option MarketDataIncrementalUpdate * OrderBook :=
  match order_lookup b !! id with
  | Some o =>
    let visible := default (quantity o) (displayed b !! id) in
    let b := set_tables (delete id (order_lookup b)) (delete id (cum_filled b))
               (delete id (arrival b)) (set_displayed (delete id (displayed b)) b) in
    let b := set_levels (side o) (remove_from_levels (price o) id (side_levels (side o) b)) b in
    (Some (generate_incremental_update b CancelOrder (price o) visible (side o)), b)
  | None => (None, b)
  end.

(** [OrderBook::check_owner]. *)
Definition check_owner (b : OrderBook) (id owner : string) : result unit OrderReject :=
  match order_lookup b !! id with
  | None => Err UnknownOrder
  | Some o => if bool_decide (trader_id o <> owner) then Err NotOwner else Ok tt
  end.

(** [OrderBook::cancel_order_for]. *)
Definition cancel_order_for (id owner : string) (b : OrderBook)
    : result MarketDataIncrementalUpdate OrderReject * OrderBook :=
  match check_owner b id owner with
  | Err e => (Err e, b)
  | Ok _ =>
    match cancel_order id b with
    | (Some md, b') => (Ok md, b')
    | (None, b') => (Err UnknownOrder, b')
    end
  end.

(** [OrderBook::sync_fill] on the three tables it borrows. *)
Definition sync_fill (lk : gmap string Order) (cum arr : gmap string Z)
    (id : string) (remaining trade_qty : Z) : gmap string Order * gmap string Z * gmap string Z :=
  if remaining =? 0 then (delete id lk, delete id cum, delete id arr)
  else match lk !! id with
       | Some o => (<[id := with_quantity remaining o]> lk,
                    <[id := add32 (default 0 (cum !! id)) trade_qty]> cum, arr)
       | None => (lk, cum, arr)
       end.

(** [iter_mut().find(..)] followed by an assignment through the reference. *)
Fixpoint update_first (id : string) (f : Order -> Order) (l : list Order) : option (Order * list Order) :=
  match l with
  | [] => None
  | o :: l' =>
    if bool_decide (order_id o = id) then Some (f o, f o :: l')
    else match update_first id f l' with
         | Some (o', l'') => Some (o', o :: l'')
         | None => None
         end
  end.

(** [OrderBook::apply_auction_fill]. *)
Definition apply_auction_fill (id : string) (qty : Z) (b : OrderBook)
    : outcome (MarketDataIncrementalUpdate * OrderBook) :=
  let* o := expect (order_lookup b !! id) in
  let* level := expect (bt_get (price o) (side_levels (side o) b)) in
  let* (resting, level) :=
    expect (update_first id (fun r => with_quantity (sub32 (quantity r) qty) r) level) in
  let remaining := quantity resting in
  let level := filter (fun r => quantity r > 0) level in
  let m := side_levels (side o) b in
  let b := set_levels (side o) (if is_nil level then bt_remove (price o) m
                                else bt_insert (price o) level m) b in
  let '(lk, cum, arr) := sync_fill (order_lookup b) (cum_filled b) (arrival b) id remaining qty in
  let b := set_tables lk cum arr b in
  let b := set_displayed (if remaining =? 0 then delete id (displayed b)
                          else <[id := remaining]> (displayed b)) b in
  Done (generate_incremental_update b ModifyOrder (price o) qty (side o), b).

(** [OrderBook::visible]. *)
Definition visible (b : OrderBook) (o : Order) : Z :=
  default (quantity o) (displayed b !! order_id o).

(** [OrderBook::sync_visible_fill]. *)
Definition sync_visible_fill (o : Order) (trade_qty vis : Z) (b : OrderBook) : OrderBook :=
  let '(lk, cum, arr) :=
    sync_fill (order_lookup b) (cum_filled b) (arrival b) (order_id o) (quantity o) trade_qty in
  let b := set_tables lk cum arr b in
  set_displayed (if quantity o =? 0 then delete (order_id o) (displayed b)
                 else <[order_id o := vis]> (displayed b)) b.

(** [OrderBook::replenish]. *)
Definition replenish (o : Order) (b : OrderBook) : option MarketDataIncrementalUpdate * OrderBook :=
  if (quantity o =? 0) || (display_quantity o =? 0) || (visible b o >? 0) then (None, b)
  else
    let vis := Z.min (quantity o) (display_quantity o) in
    let b := set_displayed (<[order_id o := vis]> (displayed b)) b in
    let b := set_next_arrival (add64 (next_arrival b) 1) b in
    let b := set_tables (order_lookup b) (cum_filled b)
               (<[order_id o := next_arrival b]> (arrival b)) b in
    (Some (generate_incremental_update b NewOrder (price o) vis (side o)), b).

(** [OrderBook::requeue]. *)
Definition requeue (o : Order) (back : bool) (b : OrderBook) : OrderBook :=
  if quantity o =? 0 then b
  else set_levels (side o) (push_level back o (side_levels (side o) b)) b.

(** The best price of a side: highest bid, lowest offer. *)
Definition best_price (s : OrderSide) (m : levels) : option Z :=
  match s with Buy => bt_last m | Sell => bt_first m end.

(** [OrderBook::pop_best]. *)
Definition pop_best (s : OrderSide) (b : OrderBook) : option Order * OrderBook :=
  let m := side_levels s b in
  match best_price s m with
  | None => (None, b)
  | Some p =>
    match bt_get p m with
    | None => (None, b)
    | Some level =>
      let '(o, level') := pop_front level in
      (o, set_levels s (if is_nil level' then bt_remove p m else bt_insert p level' m) b)
    end
  end.

(** [OrderBook::replace_order]. *)
Definition replace_order (orig_id new_id : string) (ch : OrderReplace) (owner : string) (b : OrderBook)
    : result (Order * MarketDataIncrementalUpdate) OrderReject * OrderBook :=
  match check_owner b orig_id owner with
  | Err e => (Err e, b)
  | Ok _ =>
  match order_lookup b !! orig_id with
  | None => (Err UnknownOrder, b)
  | Some orig =>
  if bool_decide (new_id <> orig_id) && bool_decide (is_Some (order_lookup b !! new_id))
  then (Err DuplicateOrderId, b)
  else
    let filled := default 0 (cum_filled b !! orig_id) in
    let leaves := if new_total_qty ch =? 0 then Some (quantity orig)
                  else if new_total_qty ch >? filled then Some (sub32 (new_total_qty ch) filled)
                  else None in
    match leaves with
    | None => (Err QuantityNotAboveFilled, b)
    | Some leaves =>
      let '(removed, b) := cancel_order orig_id b in
      let replacement :=
        {| order_id := new_id; trader_id := trader_id orig; symbol := symbol orig;
           price := if new_price ch >? 0 then new_price ch else price orig;
           quantity := leaves;
           display_quantity := default (display_quantity orig) (new_display_quantity ch);
           side := side orig; order_type := order_type orig;
           time_in_force := default (time_in_force orig) (new_time_in_force ch);
           timestamp := repl_timestamp ch; stop_price := stop_price orig;
           expire_date := expire_date orig; account := account orig;
           client_order_id := repl_client_order_id ch; order_stp := order_stp orig |} in
      let '(inc, b) := add_order replacement b in
      let inc := match removed with
                 | Some r => {| inc_symbol := inc_symbol inc; changes := changes r ++ changes inc |}
                 | None => inc
                 end in
      let b := if filled >? 0
               then set_tables (order_lookup b) (<[new_id := filled]> (cum_filled b)) (arrival b) b
               else b in
      (Ok (replacement, inc), b)
    end
  end
  end.

(** The quantity a snapshot shows at one level: a [u32] sum. *)
Definition level_visible (b : OrderBook) (l : list Order) : Z :=
  foldl (fun acc o => add32 acc (visible b o)) 0 l.

(** [OrderBook::get_market_snapshot]. *)
Definition get_market_snapshot (b : OrderBook) : MarketDataSnapshot :=
  {| snap_symbol := book_symbol b;
     bids := (fun e => (e.1, level_visible b e.2)) <$> buy_orders b;
     asks := (fun e => (e.1, level_visible b e.2)) <$> sell_orders b |}.
