(* ===== verification/BookInvariant.v ===== *)
(** * Well-formed books

    The invariant of [OrderBook] and its preservation by every method. A book
    is well formed when its price levels are sorted, non-empty and hold orders
    of their own price and side with a positive quantity, and when the lookup,
    the displayed slices, the arrival stamps and the running fills describe
    exactly those orders.

    The matcher takes orders out of their level, changes them and puts them
    back, so the invariant carries the list [det] of live orders that are
    currently detached from the levels. *)

From S2P Require Import Prelude BTree Order OrderBook.

(** ** Definitions *)

(** All orders in the levels. *)
Definition orders (b : OrderBook) : list Order :=
  bt_concat (buy_orders b) ++ bt_concat (sell_orders b).

Definition level_ok (s : OrderSide) (e : Z * list Order) : Prop :=
  e.2 <> [] /\ Forall (fun o => price o = e.1 /\ side o = s) e.2.

Definition levels_ok (s : OrderSide) (m : levels) : Prop :=
  bt_sorted m /\ Forall (level_ok s) m.

Definition order_ok (o : Order) : Prop :=
  0 < quantity o <= u32_max /\ 0 <= display_quantity o.

Definition index (l : list Order) : gmap string Order :=
  list_to_map ((fun o => (order_id o, o)) <$> l).

(** The displayed slice of an order that is live: never above its quantity,
    and all of it when the order has no reserve. *)
Definition slice_ok (b : OrderBook) (o : Order) : Prop :=
  0 <= visible b o <= quantity o /\ (display_quantity o = 0 -> visible b o = quantity o).

Record book_inv (det : list Order) (b : OrderBook) : Prop := {
  inv_levels : forall s, levels_ok s (side_levels s b);
  inv_ids : NoDup (order_id <$> det ++ orders b);
  inv_orders : Forall order_ok (det ++ orders b);
  inv_lookup : order_lookup b = index (det ++ orders b);
  inv_displayed : dom (displayed b) = dom (order_lookup b);
  inv_arrival : dom (arrival b) = dom (order_lookup b);
  inv_slices : Forall (slice_ok b) (det ++ orders b);
  inv_shown : Forall (fun o => 0 < visible b o) (orders b);
  inv_cum : forall id c, cum_filled b !! id = Some c ->
    exists o, order_lookup b !! id = Some o /\ 0 <= c /\ c + quantity o <= u32_max;
}.

(** A book between two operations: nothing is detached. *)
Definition wf_book (b : OrderBook) : Prop := book_inv [] b.

(** ** The index of a list of orders *)

Lemma index_cons o l : index (o :: l) = <[order_id o := o]> (index l).
Proof. reflexivity. Qed.

Lemma index_fst (l : list Order) : ((fun o => (order_id o, o)) <$> l).*1 = order_id <$> l.
Proof. rewrite <- list_fmap_compose. reflexivity. Qed.

Lemma index_perm l1 l2 : NoDup (order_id <$> l1) -> l1 ≡ₚ l2 -> index l1 = index l2.
Proof.
  intros Hnd Hp. unfold index. apply list_to_map_proper; [by rewrite index_fst|]. by f_equiv.
Qed.

Lemma index_lookup l id o :
  NoDup (order_id <$> l) -> index l !! id = Some o <-> o ∈ l /\ order_id o = id.
Proof.
  intros Hnd. unfold index. rewrite <- elem_of_list_to_map by (by rewrite index_fst).
  rewrite list_elem_of_fmap. split; [intros (x & [= -> ->] & Hx); done|].
  intros [Hin <-]. eauto.
Qed.

Lemma index_lookup_None l id : index l !! id = None <-> id ∉ order_id <$> l.
Proof. unfold index. by rewrite <- not_elem_of_list_to_map, index_fst. Qed.

Lemma index_delete o l : order_id o ∉ order_id <$> l -> delete (order_id o) (index (o :: l)) = index l.
Proof. intros Hn. rewrite index_cons, delete_insert_id; [done|]. by apply index_lookup_None. Qed.

Lemma dom_index l : dom (index l) = list_to_set (order_id <$> l).
Proof. unfold index. by rewrite dom_list_to_map_L, index_fst. Qed.

(** ** Levels *)

Lemma levels_ok_nil s : levels_ok s [].
Proof. split; [apply bt_sorted_nil|constructor]. Qed.

Lemma levels_ok_remove s p m : levels_ok s m -> levels_ok s (bt_remove p m).
Proof.
  intros [Hs Hf]. split; [by apply bt_sorted_remove|].
  rewrite Forall_forall in Hf |- *. eauto using bt_remove_subset.
Qed.

Lemma levels_ok_insert s p l m : levels_ok s m -> level_ok s (p, l) -> levels_ok s (bt_insert p l m).
Proof.
  intros [Hs Hf] Hl. split; [by apply bt_sorted_insert|].
  rewrite Forall_forall in Hf |- *. intros e [->|He]%bt_insert_elem; auto.
Qed.

Lemma levels_ok_get s p l m : levels_ok s m -> bt_get p m = Some l -> level_ok s (p, l).
Proof. intros [_ Hf] Hg%bt_get_Some_elem. rewrite Forall_forall in Hf. by apply Hf. Qed.

Lemma levels_ok_elem s m o : levels_ok s m -> o ∈ bt_concat m -> side o = s.
Proof.
  intros [_ Hf] (p & l & Hm & Ho)%elem_of_bt_concat. rewrite Forall_forall in Hf.
  destruct (Hf _ Hm) as [_ Hl]. simpl in Hl. rewrite Forall_forall in Hl. by apply Hl.
Qed.

Lemma bt_concat_get (p : Z) (l : list Order) (m : levels) :
  bt_get p m = Some l -> bt_concat m ≡ₚ l ++ bt_concat (bt_remove p m).
Proof. intros Hg. rewrite <- (bt_concat_cons p l). apply bt_concat_perm. by apply bt_get_perm. Qed.

Lemma bt_concat_insert (p : Z) (l : list Order) (m : levels) :
  bt_sorted m -> bt_concat (bt_insert p l m) ≡ₚ l ++ bt_concat (bt_remove p m).
Proof. intros Hs. rewrite <- (bt_concat_cons p l). apply bt_concat_perm. by apply bt_insert_perm. Qed.

(** Replace the level at [p] by [l'], dropping it when empty. *)
Definition put_level (p : Z) (l' : list Order) (m : levels) : levels :=
  if is_nil l' then bt_remove p m else bt_insert p l' m.

Lemma put_level_concat p l' m :
  bt_sorted m -> bt_concat (put_level p l' m) ≡ₚ l' ++ bt_concat (bt_remove p m).
Proof.
  intros Hs. unfold put_level. destruct l' as [|o l']; simpl; [done|]. by apply bt_concat_insert.
Qed.

Lemma put_level_ok s p l' m :
  levels_ok s m -> Forall (fun o => price o = p /\ side o = s) l' -> levels_ok s (put_level p l' m).
Proof.
  intros Hm Hl. unfold put_level. destruct l' as [|o l']; simpl; [by apply levels_ok_remove|].
  by apply levels_ok_insert.
Qed.

Lemma push_level_concat s back o m :
  levels_ok s m -> bt_concat (push_level back o m) ≡ₚ o :: bt_concat m.
Proof.
  intros [Hs _]. unfold push_level. rewrite bt_concat_insert by done.
  destruct (bt_get (price o) m) as [l|] eqn:Hg; simpl.
  - rewrite (bt_concat_get _ _ _ Hg). destruct back; simpl; [|done].
    rewrite <- app_assoc. simpl. by rewrite <- Permutation_middle.
  - rewrite (bt_get_None_remove _ _ Hs Hg). by destruct back.
Qed.

Lemma push_level_ok back o m : levels_ok (side o) m -> levels_ok (side o) (push_level back o m).
Proof.
  intros Hm. unfold push_level. apply levels_ok_insert; [done|].
  assert (Forall (fun x => price x = price o /\ side x = side o) (default [] (bt_get (price o) m))) as Hl.
  { destruct (bt_get (price o) m) as [l|] eqn:Hg; simpl; [|constructor].
    by apply (levels_ok_get _ _ _ _ Hm) in Hg as [_ Hg]. }
  split; simpl; [by destruct back, (default [] (bt_get (price o) m))|].
  destruct back; [apply Forall_app|]; eauto.
Qed.

(** ** Changing the levels *)

Lemma orders_set_levels s m b :
  orders (set_levels s m b) ++ bt_concat (side_levels s b) ≡ₚ orders b ++ bt_concat m.
Proof.
  unfold orders. destruct s; simpl; solve_Permutation.
Qed.

Lemma orders_levels s b o : o ∈ bt_concat (side_levels s b) -> o ∈ orders b.
Proof. unfold orders. rewrite elem_of_app. destruct s; simpl; auto. Qed.

Lemma visible_set_levels s m b : visible (set_levels s m b) = visible b.
Proof. reflexivity. Qed.

(** The general step: move orders between the levels of one side and the
    detached list. *)
Lemma book_inv_set_levels det det' s m b :
  book_inv det b -> levels_ok s m ->
  det ++ bt_concat (side_levels s b) ≡ₚ det' ++ bt_concat m ->
  Forall (fun o => 0 < visible b o) (bt_concat m) ->
  book_inv det' (set_levels s m b).
Proof.
  intros Hinv Hm Hperm Hshown.
  assert (det ++ orders b ≡ₚ det' ++ orders (set_levels s m b)) as Hp.
  { apply (Permutation_app_inv_r (bt_concat (side_levels s b))).
    rewrite <- (app_assoc det'), orders_set_levels.
    rewrite (Permutation_app_comm (orders b) (bt_concat m)), (app_assoc det'), <- Hperm.
    solve_Permutation. }
  destruct Hinv as [Hlv Hids Hok Hlk Hd Ha Hsl Hsh Hc]. split; simpl.
  - intros s'. destruct (decide (s' = s)) as [->|]; [by destruct s|].
    specialize (Hlv s'). by destruct s, s'.
  - by rewrite <- Hp.
  - by rewrite <- Hp.
  - rewrite Hlk. by apply index_perm.
  - done.
  - done.
  - rewrite <- Hp. exact Hsl.
  - rewrite visible_set_levels. unfold orders in *. apply Forall_app in Hsh as [? ?].
    apply Forall_app. by destruct s.
  - exact Hc.
Qed.

#[export] Instance book_inv_Permutation : Proper (Permutation ==> eq ==> iff) book_inv.
Proof.
  assert (forall l1 l2 b, l1 ≡ₚ l2 -> book_inv l1 b -> book_inv l2 b) as Himp.
  { intros l1 l2 b Hp [Hlv Hids Hok Hlk Hd Ha Hsl Hsh Hc].
    split; rewrite <- ?Hp; try done. rewrite Hlk. apply index_perm; [done|]. by rewrite Hp. }
  intros l1 l2 Hp b ? <-. split; apply Himp; [done|by symmetry].
Qed.

Lemma inv_live det b o :
  book_inv det b -> o ∈ det ++ orders b -> order_lookup b !! order_id o = Some o.
Proof. intros Hinv Ho. rewrite (inv_lookup _ _ Hinv). apply index_lookup; [apply Hinv|done]. Qed.

Lemma inv_lookup_elem det b id o :
  book_inv det b -> order_lookup b !! id = Some o -> o ∈ det ++ orders b /\ order_id o = id.
Proof. intros Hinv. rewrite (inv_lookup _ _ Hinv). apply index_lookup, Hinv. Qed.

Lemma inv_displayed_Some det b o :
  book_inv det b -> o ∈ det ++ orders b -> displayed b !! order_id o = Some (visible b o).
Proof.
  intros Hinv Ho. unfold visible. pose proof (inv_live _ _ _ Hinv Ho) as Hl.
  assert (order_id o ∈ dom (displayed b)) as Hd.
  { rewrite (inv_displayed _ _ Hinv). by apply elem_of_dom_2 in Hl. }
  apply elem_of_dom in Hd as [v Hv]. by rewrite Hv.
Qed.

Lemma inv_order_ok det b o : book_inv det b -> o ∈ det ++ orders b -> order_ok o.
Proof. intros [_ _ Hok _ _ _ _ _ _]. rewrite Forall_forall in Hok. apply Hok. Qed.

Lemma inv_slice_ok det b o : book_inv det b -> o ∈ det ++ orders b -> slice_ok b o.
Proof. intros [_ _ _ _ _ _ Hsl _ _]. rewrite Forall_forall in Hsl. apply Hsl. Qed.

(** ** Detaching the best order *)

Lemma best_price_get s m p :
  levels_ok s m -> best_price s m = Some p ->
  exists o l, bt_get p m = Some (o :: l) /\ price o = p /\ side o = s.
Proof.
  intros Hm Hb. assert (exists l, bt_get p m = Some l) as [l Hg].
  { destruct s; simpl in Hb.
    - apply bt_last_Some in Hb as (v & m' & _ & Hg & _); [eauto|apply Hm].
    - apply bt_first_Some in Hb as (v & m' & _ & Hg & _); eauto. }
  destruct (levels_ok_get _ _ _ _ Hm Hg) as [Hne Hall]. destruct l as [|o l]; [done|].
  exists o, l. apply Forall_cons in Hall as [Ho _]. by destruct Ho.
Qed.

Lemma pop_best_spec det s b p :
  book_inv det b -> best_price s (side_levels s b) = Some p ->
  exists o l, bt_get p (side_levels s b) = Some (o :: l) /\
    pop_best s b = (Some o, set_levels s (put_level p l (side_levels s b)) b) /\
    price o = p /\ side o = s /\
    book_inv (o :: det) (set_levels s (put_level p l (side_levels s b)) b).
Proof.
  intros Hinv Hb. pose proof (inv_levels _ _ Hinv s) as Hlv.
  destruct (best_price_get _ _ _ Hlv Hb) as (o & l & Hg & Hp & Hs).
  exists o, l. split_and!; [done| |done|done|].
  { unfold pop_best. by rewrite Hb, Hg. }
  destruct (levels_ok_get _ _ _ _ Hlv Hg) as [_ Hall]. apply Forall_cons in Hall as [_ Hall].
  apply (book_inv_set_levels det); [done|by apply put_level_ok| |].
  - rewrite put_level_concat, (bt_concat_get _ _ _ Hg) by apply Hlv. simpl. solve_Permutation.
  - rewrite put_level_concat by apply Hlv. pose proof (inv_shown _ _ Hinv) as Hsh.
    rewrite Forall_forall in Hsh |- *. intros x Hx. apply Hsh, (orders_levels s).
    rewrite (bt_concat_get _ _ _ Hg). simpl. by right.
Qed.

(** ** Returning an order to its level *)

Lemma requeue_inv det o back b :
  book_inv (o :: det) b -> 0 < visible b o -> book_inv det (requeue o back b).
Proof.
  intros Hinv Hv. assert (order_ok o) as Hok by (eapply inv_order_ok; [done|left]).
  unfold requeue. destruct (Z.eqb_spec (quantity o) 0) as [E|E]; [destruct Hok; lia|].
  pose proof (inv_levels _ _ Hinv (side o)) as Hlv.
  apply (book_inv_set_levels (o :: det)); [done|by apply push_level_ok| |].
  - rewrite push_level_concat by done. simpl. solve_Permutation.
  - rewrite push_level_concat by done. constructor; [done|].
    pose proof (inv_shown _ _ Hinv) as Hsh. rewrite Forall_forall in Hsh |- *.
    intros x Hx. by apply Hsh, (orders_levels (side o)).
Qed.

(** ** Recording a fill or a reduction of a detached order *)

Lemma visible_sync_other o q t v b x :
  order_id x <> order_id o -> visible (sync_visible_fill (with_quantity q o) t v b) x = visible b x.
Proof.
  intros Hne. unfold visible, sync_visible_fill, sync_fill; simpl.
  destruct (q =? 0); simpl; [by rewrite lookup_delete_ne|].
  destruct (order_lookup b !! order_id o); simpl; by rewrite lookup_insert_ne.
Qed.

Lemma visible_sync_self o q t v b :
  q <> 0 -> visible (sync_visible_fill (with_quantity q o) t v b) (with_quantity q o) = v.
Proof.
  intros Hq. unfold visible, sync_visible_fill, sync_fill; simpl.
  destruct (Z.eqb_spec q 0); [done|].
  destruct (order_lookup b !! order_id o); simpl; by rewrite lookup_insert_eq.
Qed.

Lemma side_levels_sync s o t v b : side_levels s (sync_visible_fill o t v b) = side_levels s b.
Proof.
  unfold sync_visible_fill, sync_fill. destruct (quantity o =? 0); [by destruct s|].
  destruct (order_lookup b !! order_id o); by destruct s.
Qed.

Lemma orders_sync o t v b : orders (sync_visible_fill o t v b) = orders b.
Proof.
  unfold orders. pose proof (side_levels_sync Buy o t v b). pose proof (side_levels_sync Sell o t v b).
  simpl in *. congruence.
Qed.

Lemma inv_tail_ids det o b :
  book_inv (o :: det) b -> forall x, x ∈ det ++ orders b -> order_id x <> order_id o.
Proof.
  intros Hinv x Hx Heq. pose proof (inv_ids _ _ Hinv) as Hnd. simpl in Hnd.
  apply NoDup_cons in Hnd as [Hn _]. apply Hn. rewrite <- Heq. by apply list_elem_of_fmap_2.
Qed.

Lemma sync_gone_inv det o t v b :
  book_inv (o :: det) b -> book_inv det (sync_visible_fill (with_quantity 0 o) t v b).
Proof.
  intros Hinv. pose proof (inv_tail_ids _ _ _ Hinv) as Hne.
  assert (order_id o ∉ order_id <$> det ++ orders b) as Hn.
  { pose proof (inv_ids _ _ Hinv) as Hnd. simpl in Hnd. by apply NoDup_cons in Hnd as [? _]. }
  destruct Hinv as [Hlv Hids Hok Hlk Hd Ha Hsl Hsh Hc].
  set (b' := sync_visible_fill (with_quantity 0 o) t v b).
  assert (forall x, x ∈ det ++ orders b -> visible b' x = visible b x) as Hvis.
  { intros x Hx. apply visible_sync_other. auto. }
  assert (order_lookup b' = delete (order_id o) (order_lookup b)) as Hlk' by reflexivity.
  split.
  - exact Hlv.
  - by apply NoDup_cons in Hids as [_ ?].
  - by apply Forall_cons in Hok as [_ ?].
  - rewrite Hlk', Hlk. simpl. by rewrite index_delete.
  - simpl. by rewrite !dom_delete_L, Hd.
  - simpl. by rewrite !dom_delete_L, Ha.
  - apply Forall_cons in Hsl as [_ Hsl]. rewrite Forall_forall in Hsl |- *.
    intros x Hx. unfold slice_ok. rewrite Hvis by done. by apply Hsl.
  - rewrite Forall_forall in Hsh |- *. intros x Hx. rewrite Hvis; [by apply Hsh|].
    apply elem_of_app. by right.
  - intros id c. simpl. rewrite !lookup_delete. case_decide; [done|]. apply Hc.
Qed.

Lemma sync_left_inv det o q t v b :
  book_inv (o :: det) b -> 0 < q -> 0 <= t -> q + t <= quantity o -> 0 <= v <= q ->
  (display_quantity o = 0 -> v = q) ->
  book_inv (with_quantity q o :: det) (sync_visible_fill (with_quantity q o) t v b).
Proof.
  intros Hinv Hq Ht Hqt Hv Hfull. pose proof (inv_tail_ids _ _ _ Hinv) as Hne.
  pose proof (inv_live _ _ o Hinv ltac:(left)) as Hlive.
  pose proof (inv_order_ok _ _ o Hinv ltac:(left)) as [Hqo Hdo].
  destruct Hinv as [Hlv Hids Hok Hlk Hd Ha Hsl Hsh Hc].
  set (o' := with_quantity q o). set (b' := sync_visible_fill o' t v b).
  assert (forall x, x ∈ det ++ orders b -> visible b' x = visible b x) as Hvis.
  { intros x Hx. apply visible_sync_other. auto. }
  assert (b' = set_displayed (<[order_id o := v]> (displayed b))
                (set_tables (<[order_id o := o']> (order_lookup b))
                   (<[order_id o := add32 (default 0 (cum_filled b !! order_id o)) t]> (cum_filled b))
                   (arrival b) b)) as Hb'.
  { unfold b', sync_visible_fill, sync_fill; simpl. destruct (Z.eqb_spec q 0); [lia|].
    by rewrite Hlive. }
  split.
  - rewrite Hb'. exact Hlv.
  - rewrite Hb'. exact Hids.
  - rewrite Hb'. apply Forall_cons in Hok as [_ Hok]. constructor; [|exact Hok].
    split; simpl; [lia|done].
  - rewrite Hb'. simpl. rewrite Hlk. simpl. rewrite !index_cons. simpl. by rewrite insert_insert_eq.
  - rewrite Hb'. simpl. by rewrite !dom_insert_L, Hd.
  - rewrite Hb'. simpl. rewrite dom_insert_L, Ha.
    symmetry. apply subseteq_union_1_L. apply singleton_subseteq_l. by apply elem_of_dom_2 in Hlive.
  - unfold b'. rewrite orders_sync. apply Forall_cons in Hsl as [_ Hsl]. constructor.
    + unfold slice_ok, o'. rewrite visible_sync_self by lia. simpl. split; [lia|done].
    + rewrite Forall_forall in Hsl |- *. intros x Hx.
      unfold slice_ok. fold b'. rewrite Hvis by done. by apply Hsl.
  - unfold b'. rewrite orders_sync. rewrite Forall_forall in Hsh |- *. intros x Hx.
    fold b'. rewrite Hvis; [by apply Hsh|]. apply elem_of_app. by right.
  - intros id c. rewrite Hb'. simpl. rewrite !lookup_insert. case_decide as E; [|apply Hc].
    intros [= <-]. exists o'. split; [done|]. simpl. subst id.
    destruct (cum_filled b !! order_id o) as [c|] eqn:Hcum; simpl.
    + destruct (Hc _ _ Hcum) as (x & Hx & ? & ?). assert (x = o) as -> by congruence.
      rewrite add32_small by lia. lia.
    + rewrite add32_small by (unfold u32_max in *; lia). lia.
Qed.

(** ** Replenishing a reserve *)

Definition refreshed (o : Order) (b : OrderBook) : OrderBook :=
  set_tables (order_lookup b) (cum_filled b)
    (<[order_id o := add64 (next_arrival b) 1]> (arrival b))
    (set_next_arrival (add64 (next_arrival b) 1)
       (set_displayed (<[order_id o := Z.min (quantity o) (display_quantity o)]> (displayed b)) b)).

Lemma replenish_eq o b :
  replenish o b =
  if (quantity o =? 0) || (display_quantity o =? 0) || (visible b o >? 0) then (None, b)
  else (Some (generate_incremental_update b NewOrder (price o)
                (Z.min (quantity o) (display_quantity o)) (side o)), refreshed o b).
Proof. reflexivity. Qed.

Lemma visible_refreshed_self o b :
  visible (refreshed o b) o = Z.min (quantity o) (display_quantity o).
Proof. unfold visible. simpl. by rewrite lookup_insert_eq. Qed.

Lemma visible_refreshed_other o b x :
  order_id x <> order_id o -> visible (refreshed o b) x = visible b x.
Proof. intros Hne. unfold visible. simpl. by rewrite lookup_insert_ne. Qed.

Lemma refreshed_inv det o b :
  book_inv (o :: det) b -> 0 < display_quantity o -> book_inv (o :: det) (refreshed o b).
Proof.
  intros Hinv Hdq. pose proof (inv_tail_ids _ _ _ Hinv) as Hne.
  pose proof (inv_live _ _ o Hinv ltac:(left)) as Hlive.
  pose proof (inv_order_ok _ _ o Hinv ltac:(left)) as [Hqo Hdo].
  destruct Hinv as [Hlv Hids Hok Hlk Hd Ha Hsl Hsh Hc].
  assert (order_id o ∈ dom (order_lookup b)) as Hin by (by apply elem_of_dom_2 in Hlive).
  split; try done.
  - simpl. rewrite dom_insert_L, Hd. set_solver.
  - simpl. rewrite dom_insert_L, Ha. set_solver.
  - apply Forall_cons in Hsl as [_ Hsl]. constructor.
    + unfold slice_ok. rewrite visible_refreshed_self. split; lia.
    + rewrite Forall_forall in Hsl |- *. intros x Hx. unfold slice_ok.
      rewrite visible_refreshed_other by auto. by apply Hsl.
  - rewrite Forall_forall in Hsh |- *. intros x Hx. rewrite visible_refreshed_other; [by apply Hsh|].
    apply Hne. apply elem_of_app. by right.
Qed.

(** After a fill of a detached order, replenishing leaves a positive slice. *)
Lemma replenish_inv det o b md b' :
  book_inv (o :: det) b -> replenish o b = (md, b') ->
  book_inv (o :: det) b' /\ 0 < visible b' o /\
  orders b' = orders b /\ (forall s, side_levels s b' = side_levels s b) /\
  (md = None -> b' = b) /\ (md <> None -> visible b o = 0 /\ 0 < display_quantity o).
Proof.
  intros Hinv. rewrite replenish_eq.
  pose proof (inv_order_ok _ _ o Hinv ltac:(left)) as [Hqo Hdo].
  pose proof (inv_slice_ok _ _ o Hinv ltac:(left)) as [Hs1 Hs2].
  destruct (quantity o =? 0) eqn:E1; [lia|]. destruct (display_quantity o =? 0) eqn:E2; simpl.
  { intros [= <- <-]. split_and!; try done. propify. rewrite Hs2 by done. lia. }
  destruct (visible b o >? 0) eqn:E3; propify.
  - intros [= <- <-]. split_and!; try done.
  - intros [= <- <-]. split_and!; try done; try lia.
    + apply refreshed_inv; [done|lia].
    + rewrite visible_refreshed_self. lia.
Qed.

(** ** Entry *)

Definition entered (o : Order) (b : OrderBook) : OrderBook :=
  set_tables (<[order_id o := o]> (order_lookup b)) (cum_filled b)
    (<[order_id o := add64 (next_arrival b) 1]> (arrival b))
    (set_next_arrival (add64 (next_arrival b) 1)
       (set_last_added (Some (order_id o))
          (set_displayed (<[order_id o := initial_visible o]> (displayed b)) b))).

Lemma add_order_eq o b :
  add_order o b =
  (generate_incremental_update b NewOrder (price o) (initial_visible o) (side o),
   set_levels (side o) (push_level true o (side_levels (side o) b)) (entered o b)).
Proof. unfold add_order. by destruct (side o). Qed.

Lemma initial_visible_range o :
  order_ok o -> 0 < initial_visible o <= quantity o /\
  (display_quantity o = 0 -> initial_visible o = quantity o).
Proof. intros [? ?]. unfold initial_visible. destruct (Z.eqb_spec (display_quantity o) 0); lia. Qed.

Lemma visible_entered_other o b x :
  order_id x <> order_id o -> visible (entered o b) x = visible b x.
Proof. intros Hne. unfold visible. simpl. by rewrite lookup_insert_ne. Qed.

Lemma visible_entered_self o b : visible (entered o b) o = initial_visible o.
Proof. unfold visible. simpl. by rewrite lookup_insert_eq. Qed.

Lemma fresh_ids det b o x :
  book_inv det b -> order_lookup b !! order_id o = None -> x ∈ det ++ orders b -> order_id x <> order_id o.
Proof. intros Hinv Hf Hx Heq. pose proof (inv_live _ _ _ Hinv Hx). congruence. Qed.

Lemma entered_inv det o b :
  book_inv det b -> order_ok o -> order_lookup b !! order_id o = None ->
  book_inv (o :: det) (entered o b).
Proof.
  intros Hinv Hok Hfresh. pose proof (fresh_ids det b o) as Hne.
  pose proof (initial_visible_range _ Hok) as [Hiv1 Hiv2].
  assert (order_id o ∉ order_id <$> det ++ orders b) as Hn.
  { apply index_lookup_None. by rewrite <- (inv_lookup _ _ Hinv). }
  pose proof Hinv as [Hlv Hids Hoks Hlk Hd Ha Hsl Hsh Hc]. split.
  - exact Hlv.
  - simpl. by apply NoDup_cons.
  - by constructor.
  - simpl. rewrite Hlk. by rewrite index_cons.
  - simpl. by rewrite !dom_insert_L, Hd.
  - simpl. by rewrite !dom_insert_L, Ha.
  - constructor.
    + unfold slice_ok. rewrite visible_entered_self. split; [lia|done].
    + rewrite Forall_forall in Hsl |- *. intros x Hx. unfold slice_ok.
      rewrite visible_entered_other by eauto. by apply Hsl.
  - rewrite Forall_forall in Hsh |- *. intros x Hx. rewrite visible_entered_other; [by apply Hsh|].
    eapply Hne; [done|done|]. apply elem_of_app. by right.
  - intros id c Hcum. destruct (Hc _ _ Hcum) as (x & Hx & ?). exists x. split; [|done].
    simpl. rewrite lookup_insert_ne; [done|]. intros <-. congruence.
Qed.

Lemma add_order_inv det o b :
  book_inv det b -> order_ok o -> order_lookup b !! order_id o = None ->
  book_inv det (add_order o b).2.
Proof.
  intros Hinv Hok Hfresh. rewrite add_order_eq. simpl.
  pose proof (entered_inv _ _ _ Hinv Hok Hfresh) as He.
  pose proof (initial_visible_range _ Hok) as [Hiv _].
  pose proof (requeue_inv _ _ true _ He) as Hr. unfold requeue in Hr.
  destruct (Z.eqb_spec (quantity o) 0) as [E|_]; [destruct Hok; lia|].
  rewrite visible_entered_self in Hr. apply Hr. lia.
Qed.

(** ** Cancellation *)

Lemma filter_other_id (l1 l2 : list Order) o :
  NoDup (order_id <$> l1 ++ o :: l2) ->
  filter (fun x => order_id x <> order_id o) (l1 ++ o :: l2) = l1 ++ l2.
Proof.
  intros Hnd. rewrite fmap_app, fmap_cons in Hnd.
  apply NoDup_app in Hnd as (_ & Hd & Hnd). apply NoDup_cons in Hnd as [Hn _].
  rewrite filter_app, filter_cons_False by (intros ?; done).
  f_equal; apply filter_all, Forall_forall.
  - intros x Hx Heq. apply (Hd (order_id x)); [by apply list_elem_of_fmap_2|].
    rewrite Heq. left.
  - intros x Hx Heq. apply Hn. rewrite <- Heq. by apply list_elem_of_fmap_2.
Qed.

Lemma inv_in_level b o :
  wf_book b -> o ∈ orders b ->
  exists l1 l2, bt_get (price o) (side_levels (side o) b) = Some (l1 ++ o :: l2).
Proof.
  intros Hinv Ho.
  assert (o ∈ bt_concat (side_levels (side o) b)) as Hs.
  { unfold orders in Ho. apply elem_of_app in Ho as [Ho|Ho].
    - assert (side o = Buy) as -> by exact (levels_ok_elem _ _ _ (inv_levels _ _ Hinv Buy) Ho). done.
    - assert (side o = Sell) as -> by exact (levels_ok_elem _ _ _ (inv_levels _ _ Hinv Sell) Ho). done. }
  apply elem_of_bt_concat in Hs as (p & l & Hm & Hl).
  destruct (inv_levels _ _ Hinv (side o)) as [Hsort Hall].
  assert (price o = p) as ->.
  { rewrite Forall_forall in Hall. destruct (Hall _ Hm) as [_ Hf]. simpl in Hf.
    rewrite Forall_forall in Hf. by apply Hf. }
  apply list_elem_of_split in Hl as (l1 & l2 & ->). exists l1, l2. by apply bt_elem_get.
Qed.

Lemma level_ids b s p l :
  wf_book b -> bt_get p (side_levels s b) = Some l -> NoDup (order_id <$> l).
Proof.
  intros Hinv Hg. pose proof (inv_ids _ _ Hinv) as Hnd. simpl in Hnd. unfold orders in Hnd.
  rewrite fmap_app in Hnd. apply NoDup_app in Hnd as (H1 & _ & H2).
  assert (NoDup (order_id <$> bt_concat (side_levels s b))) as H by (by destruct s).
  rewrite (bt_concat_get _ _ _ Hg), fmap_app in H. by apply NoDup_app in H as (? & _ & _).
Qed.

(** Taking a resting order out of its level. *)
Lemma detach_inv b o l1 l2 :
  wf_book b -> bt_get (price o) (side_levels (side o) b) = Some (l1 ++ o :: l2) ->
  book_inv [o] (set_levels (side o) (put_level (price o) (l1 ++ l2) (side_levels (side o) b)) b).
Proof.
  intros Hinv Hg. pose proof (inv_levels _ _ Hinv (side o)) as Hlv.
  destruct (levels_ok_get _ _ _ _ Hlv Hg) as [_ Hall]. simpl in Hall.
  apply (book_inv_set_levels []); [done| | |].
  - apply put_level_ok; [done|]. apply Forall_app in Hall as [? [_ ?]%Forall_cons].
    by apply Forall_app.
  - rewrite put_level_concat, (bt_concat_get _ _ _ Hg) by apply Hlv. simpl. solve_Permutation.
  - rewrite put_level_concat by apply Hlv. pose proof (inv_shown _ _ Hinv) as Hsh.
    rewrite Forall_forall in Hsh |- *. intros x Hx. apply Hsh, (orders_levels (side o)).
    rewrite (bt_concat_get _ _ _ Hg). revert Hx. rewrite !elem_of_app, elem_of_cons. tauto.
Qed.

(** What a cancel of a live order does. *)
Lemma cancel_order_live b o :
  wf_book b -> o ∈ orders b ->
  exists l1 l2, bt_get (price o) (side_levels (side o) b) = Some (l1 ++ o :: l2) /\
    cancel_order (order_id o) b =
    (Some (generate_incremental_update b CancelOrder (price o) (visible b o) (side o)),
     sync_visible_fill (with_quantity 0 o) 0 0
       (set_levels (side o) (put_level (price o) (l1 ++ l2) (side_levels (side o) b)) b)).
Proof.
  intros Hinv Ho. destruct (inv_in_level _ _ Hinv Ho) as (l1 & l2 & Hg). exists l1, l2.
  split; [done|]. unfold cancel_order.
  rewrite (inv_live _ _ o Hinv Ho).
  set (b1 := set_tables _ _ _ _).
  assert (side_levels (side o) b1 = side_levels (side o) b) as -> by (by destruct (side o)).
  unfold remove_from_levels. rewrite Hg, filter_other_id by (by eapply level_ids).
  destruct (side o); reflexivity.
Qed.

Lemma cancel_order_inv id b : wf_book b -> wf_book (cancel_order id b).2.
Proof.
  intros Hinv. destruct (order_lookup b !! id) as [o|] eqn:Hl.
  - destruct (inv_lookup_elem _ _ _ _ Hinv Hl) as [Ho <-]. simpl in Ho.
    destruct (cancel_order_live _ _ Hinv Ho) as (l1 & l2 & Hg & ->). simpl.
    apply sync_gone_inv. by apply detach_inv.
  - unfold cancel_order. by rewrite Hl.
Qed.

Lemma cancel_order_lookup id b : order_lookup (cancel_order id b).2 = delete id (order_lookup b).
Proof.
  unfold cancel_order. destruct (order_lookup b !! id) as [o|] eqn:Hl; [by destruct (side o)|].
  simpl. by rewrite delete_id.
Qed.

Lemma cancel_order_cum id b :
  wf_book b -> cum_filled (cancel_order id b).2 = delete id (cum_filled b).
Proof.
  intros Hinv. unfold cancel_order. destruct (order_lookup b !! id) as [o|] eqn:Hl; [by destruct (side o)|].
  simpl. rewrite delete_id; [done|]. destruct (cum_filled b !! id) as [c|] eqn:Hc; [|done].
  destruct (inv_cum _ _ Hinv _ _ Hc) as (x & Hx & _). congruence.
Qed.

(** ** Cancel/replace *)

Lemma set_cum_inv det b id o c :
  book_inv det b -> order_lookup b !! id = Some o -> 0 <= c -> c + quantity o <= u32_max ->
  book_inv det (set_tables (order_lookup b) (<[id := c]> (cum_filled b)) (arrival b) b).
Proof.
  intros [Hlv Hids Hoks Hlk Hd Ha Hsl Hsh Hc] Hl H1 H2. split; try done.
  intros id' c'. simpl. rewrite lookup_insert. case_decide; [|apply Hc].
  subst. intros [= <-]. eauto.
Qed.

(** Requested changes as the engine passes them. *)
Definition replace_ok (ch : OrderReplace) : Prop :=
  is_u32 (new_total_qty ch) /\ 0 <= default 0 (new_display_quantity ch).

(** The replacement order a successful [replace_order] rests. *)
Definition replacement_of (orig : Order) (new_id : string) (ch : OrderReplace) (leaves : Z) : Order :=
  {| order_id := new_id; trader_id := trader_id orig; symbol := symbol orig;
     price := if new_price ch >? 0 then new_price ch else price orig;
     quantity := leaves;
     display_quantity := default (display_quantity orig) (new_display_quantity ch);
     side := side orig; order_type := order_type orig;
     time_in_force := default (time_in_force orig) (new_time_in_force ch);
     timestamp := repl_timestamp ch; stop_price := stop_price orig;
     expire_date := expire_date orig; account := account orig;
     client_order_id := repl_client_order_id ch; order_stp := order_stp orig |}.

(** Every way [replace_order] can end. *)
Inductive replace_case (b : OrderBook) (orig_id new_id : string) (ch : OrderReplace) (owner : string)
  : result (Order * MarketDataIncrementalUpdate) OrderReject * OrderBook -> Prop :=
| replace_unknown :
    order_lookup b !! orig_id = None ->
    replace_case b orig_id new_id ch owner (Err UnknownOrder, b)
| replace_not_owner o :
    order_lookup b !! orig_id = Some o -> trader_id o <> owner ->
    replace_case b orig_id new_id ch owner (Err NotOwner, b)
| replace_duplicate o :
    order_lookup b !! orig_id = Some o -> trader_id o = owner ->
    new_id <> orig_id -> is_Some (order_lookup b !! new_id) ->
    replace_case b orig_id new_id ch owner (Err DuplicateOrderId, b)
| replace_not_above o :
    order_lookup b !! orig_id = Some o -> trader_id o = owner ->
    (new_id = orig_id \/ order_lookup b !! new_id = None) ->
    new_total_qty ch <> 0 -> new_total_qty ch <= default 0 (cum_filled b !! orig_id) ->
    replace_case b orig_id new_id ch owner (Err QuantityNotAboveFilled, b)
| replace_accepted o leaves :
    order_lookup b !! orig_id = Some o -> trader_id o = owner ->
    (new_id = orig_id \/ order_lookup b !! new_id = None) ->
    (new_total_qty ch = 0 /\ leaves = quantity o \/
     default 0 (cum_filled b !! orig_id) < new_total_qty ch /\
     leaves = new_total_qty ch - default 0 (cum_filled b !! orig_id)) ->
    let repl := replacement_of o new_id ch leaves in
    let c := cancel_order orig_id b in
    let a := add_order repl c.2 in
    let filled := default 0 (cum_filled b !! orig_id) in
    replace_case b orig_id new_id ch owner
      (Ok (repl, {| inc_symbol := book_symbol b;
                    changes := changes (generate_incremental_update b CancelOrder (price o)
                                          (default (quantity o) (displayed b !! orig_id)) (side o))
                               ++ changes a.1 |}),
       if filled >? 0
       then set_tables (order_lookup a.2) (<[new_id := filled]> (cum_filled a.2)) (arrival a.2) a.2
       else a.2).

Lemma replace_order_cases b orig_id new_id ch owner :
  wf_book b -> replace_ok ch ->
  replace_case b orig_id new_id ch owner (replace_order orig_id new_id ch owner b).
Proof.
  intros Hinv [Hch _]. unfold replace_order, check_owner.
  destruct (order_lookup b !! orig_id) as [o|] eqn:Hl; [|by constructor].
  destruct (bool_decide (trader_id o <> owner)) eqn:Ho; propify; [by eapply replace_not_owner|].
  apply dec_stable in Ho.
  destruct (bool_decide (new_id <> orig_id) && bool_decide (is_Some (order_lookup b !! new_id))) eqn:Hd.
  { propify. by eapply replace_duplicate. }
  assert (new_id = orig_id \/ order_lookup b !! new_id = None) as Hfree.
  { apply andb_false_iff in Hd as [Hd|Hd]; propify; [left; by apply dec_stable|right; by apply eq_None_not_Some]. }
  assert (0 <= default 0 (cum_filled b !! orig_id)) as Hnn.
  { destruct (cum_filled b !! orig_id) as [c|] eqn:Hc; simpl; [|lia].
    by destruct (inv_cum _ _ Hinv _ _ Hc) as (_ & _ & ? & _). }
  assert (forall l, (if new_total_qty ch =? 0 then Some (quantity o)
      else if new_total_qty ch >? default 0 (cum_filled b !! orig_id)
           then Some (sub32 (new_total_qty ch) (default 0 (cum_filled b !! orig_id))) else None) = Some l ->
      new_total_qty ch = 0 /\ l = quantity o \/
      default 0 (cum_filled b !! orig_id) < new_total_qty ch /\
      l = new_total_qty ch - default 0 (cum_filled b !! orig_id)) as Hleaves.
  { intros l. destruct (new_total_qty ch =? 0) eqn:E1; [intros [= <-]; propify; auto|].
    destruct (new_total_qty ch >? _) eqn:E2; [|done]. intros [= <-]. propify. right.
    rewrite sub32_small by (done || lia). done. }
  destruct (if new_total_qty ch =? 0 then _ else _) as [l|] eqn:El.
  - pose proof (replace_accepted b orig_id new_id ch owner o l Hl Ho Hfree (Hleaves _ eq_refl)) as H.
    revert H. unfold cancel_order. rewrite Hl. unfold add_order, replacement_of.
    by destruct (side o), (default 0 (cum_filled b !! orig_id) >? 0).
  - destruct (new_total_qty ch =? 0) eqn:E1; [done|].
    destruct (new_total_qty ch >? _) eqn:E2; [done|]. propify. by eapply replace_not_above.
Qed.

Lemma replace_order_inv orig_id new_id ch owner b :
  wf_book b -> replace_ok ch -> wf_book (replace_order orig_id new_id ch owner b).2.
Proof.
  intros Hinv Hch. destruct (replace_order_cases b orig_id new_id ch owner Hinv Hch)
    as [| | | |o leaves Hl Ho Hfree Hleaves repl c a filled]; simpl; try done.
  destruct Hch as [Hq Hdisp].
  destruct (inv_lookup_elem _ _ _ _ Hinv Hl) as [Hin Hid].
  pose proof (inv_order_ok _ _ _ Hinv Hin) as [Hoq Hod].
  assert (0 <= filled /\ filled + quantity o <= u32_max) as [Hf0 Hf1].
  { subst filled. destruct (cum_filled b !! orig_id) as [x|] eqn:Hc; simpl; [|lia].
    destruct (inv_cum _ _ Hinv _ _ Hc) as (y & Hy & ? & ?). by simplify_eq. }
  assert (order_ok repl) as Hok.
  { unfold is_u32 in Hq. split; simpl; [destruct Hleaves; lia|].
    destruct (new_display_quantity ch); simpl in *; lia. }
  assert (order_lookup c.2 !! new_id = None) as Hfresh.
  { subst c. rewrite cancel_order_lookup. destruct Hfree as [->|Hn]; [by rewrite lookup_delete_eq|].
    rewrite lookup_delete. by case_decide. }
  assert (wf_book a.2) as Ha by (apply add_order_inv; [by apply cancel_order_inv|done|done]).
  destruct (filled >? 0); [|done].
  apply (set_cum_inv [] a.2 new_id repl); [done| |done|].
  - subst a. rewrite add_order_eq. simpl. destruct (side o); simpl; by rewrite lookup_insert_eq.
  - simpl. unfold is_u32 in Hq. destruct Hleaves; lia.
Qed.

(** ** Auction fills *)

Lemma update_first_spec (l1 l2 : list Order) o f :
  NoDup (order_id <$> l1 ++ o :: l2) ->
  update_first (order_id o) f (l1 ++ o :: l2) = Some (f o, l1 ++ f o :: l2).
Proof.
  induction l1 as [|x l1 IH]; simpl; intros Hnd; [by rewrite bool_decide_true|].
  apply NoDup_cons in Hnd as [Hn Hnd]. rewrite bool_decide_false, IH; [done|done|].
  intros Heq. apply Hn. rewrite Heq. apply list_elem_of_fmap_2, elem_of_app. right. left.
Qed.

Lemma sync_set_levels s m o t v b :
  sync_visible_fill o t v (set_levels s m b) = set_levels s m (sync_visible_fill o t v b).
Proof.
  unfold sync_visible_fill, sync_fill. simpl.
  destruct (quantity o =? 0); [done|]. by destruct (order_lookup b !! order_id o).
Qed.

(** An auction fill of a live order never panics: it takes [qty] off the order
    in place, showing all of what is left. *)
Lemma apply_auction_fill_spec b o qty :
  wf_book b -> o ∈ orders b -> 0 < qty <= quantity o ->
  exists l1 l2, bt_get (price o) (side_levels (side o) b) = Some (l1 ++ o :: l2) /\
    let rem := quantity o - qty in
    let l' := if rem =? 0 then l1 ++ l2 else l1 ++ with_quantity rem o :: l2 in
    apply_auction_fill (order_id o) qty b =
    Done (generate_incremental_update b ModifyOrder (price o) qty (side o),
          set_levels (side o) (put_level (price o) l' (side_levels (side o) b))
            (sync_visible_fill (with_quantity rem o) qty rem b)).
Proof.
  intros Hinv Ho Hq. destruct (inv_in_level _ _ Hinv Ho) as (l1 & l2 & Hg). exists l1, l2.
  split; [done|]. pose proof (inv_order_ok _ _ _ Hinv Ho) as [Hok _].
  unfold apply_auction_fill. rewrite (inv_live _ _ _ Hinv Ho). simpl. rewrite Hg. simpl.
  rewrite update_first_spec by (by eapply level_ids). simpl.
  rewrite sub32_small by (unfold is_u32; lia). cbv zeta.
  assert (filter (fun r => quantity r > 0) (l1 ++ with_quantity (quantity o - qty) o :: l2) =
          if quantity o - qty =? 0 then l1 ++ l2 else l1 ++ with_quantity (quantity o - qty) o :: l2) as ->.
  { assert (Forall (fun r => quantity r > 0) (l1 ++ l2)) as [Hl1 Hl2]%Forall_app.
    { apply Forall_forall. intros x Hx. assert (x ∈ orders b) as Hxo.
      { apply (orders_levels (side o)). rewrite (bt_concat_get _ _ _ Hg).
        revert Hx. rewrite !elem_of_app, elem_of_cons. tauto. }
      destruct (inv_order_ok _ _ _ Hinv Hxo). lia. }
    rewrite filter_app, (filter_all _ l1) by done.
    destruct (Z.eqb_spec (quantity o - qty) 0) as [E|E].
    - rewrite filter_cons_False by (simpl; lia). by rewrite filter_all.
    - rewrite filter_cons_True by (simpl; lia). by rewrite filter_all. }
  unfold put_level, sync_visible_fill, sync_fill. simpl. unfold sync_fill. simpl.
  destruct (quantity o - qty =? 0); [by destruct (side o)|].
  by destruct (side o), (order_lookup b !! order_id o).
Qed.

Lemma set_levels_twice s m1 m2 b : set_levels s m2 (set_levels s m1 b) = set_levels s m2 b.
Proof. by destruct s. Qed.

Lemma apply_auction_fill_inv b o qty md b' :
  wf_book b -> o ∈ orders b -> 0 < qty <= quantity o ->
  apply_auction_fill (order_id o) qty b = Done (md, b') -> wf_book b'.
Proof.
  intros Hinv Ho Hq Hrun. pose proof (inv_levels _ _ Hinv (side o)) as Hlv.
  destruct (apply_auction_fill_spec _ _ _ Hinv Ho Hq) as (l1 & l2 & Hg & Heq).
  rewrite Heq in Hrun. injection Hrun as _ <-. clear Heq.
  pose proof (detach_inv _ _ _ _ Hinv Hg) as Hdet.
  set (rem := quantity o - qty) in *. destruct (Z.eqb_spec rem 0) as [E|E].
  - rewrite E, <- sync_set_levels. by apply sync_gone_inv.
  - pose proof (sync_left_inv _ _ rem qty rem _ Hdet) as Hs.
    rewrite sync_set_levels in Hs.
    assert (book_inv [with_quantity rem o] (set_levels (side o)
        (put_level (price o) (l1 ++ l2) (side_levels (side o) b))
        (sync_visible_fill (with_quantity rem o) qty rem b))) as Hs' by (apply Hs; lia). clear Hs.
    assert (levels_ok (side o) (put_level (price o) (l1 ++ with_quantity rem o :: l2) (side_levels (side o) b))) as Hput.
    { apply put_level_ok; [done|]. destruct (levels_ok_get _ _ _ _ Hlv Hg) as [_ Hall]. simpl in Hall.
      apply Forall_app in Hall as [? [? ?]%Forall_cons]. apply Forall_app. split; [done|]. by constructor. }
    rewrite <- (set_levels_twice (side o) (put_level (price o) (l1 ++ l2) (side_levels (side o) b))).
    apply (book_inv_set_levels [with_quantity rem o]); [done|done| |].
    + assert (side_levels (side o) (set_levels (side o) (put_level (price o) (l1 ++ l2) (side_levels (side o) b))
        (sync_visible_fill (with_quantity rem o) qty rem b)) =
        put_level (price o) (l1 ++ l2) (side_levels (side o) b)) as -> by (by destruct (side o)).
      rewrite !put_level_concat by apply Hlv. simpl. solve_Permutation.
    + rewrite visible_set_levels, put_level_concat by apply Hlv.
      pose proof (inv_shown _ _ Hs') as Hsh. rewrite visible_set_levels in Hsh.
      assert (Forall (fun x => 0 < visible (sync_visible_fill (with_quantity rem o) qty rem b) x)
                ((l1 ++ l2) ++ bt_concat (bt_remove (price o) (side_levels (side o) b)))) as Hrest.
      { apply Forall_forall. intros x Hx. rewrite Forall_forall in Hsh. apply Hsh.
        apply (orders_levels (side o)).
        assert (side_levels (side o) (set_levels (side o) (put_level (price o) (l1 ++ l2) (side_levels (side o) b))
          (sync_visible_fill (with_quantity rem o) qty rem b)) =
          put_level (price o) (l1 ++ l2) (side_levels (side o) b)) as -> by (by destruct (side o)).
        by rewrite put_level_concat by apply Hlv. }
      apply Forall_app in Hrest as [[H1 H2]%Forall_app H3]. apply Forall_app. split; [|done].
      apply Forall_app. split; [done|]. constructor; [|done]. rewrite visible_sync_self by lia. lia.
Qed.
