(* ===== verification/Samples.v ===== *)
(** * Sample orders and books

    Small concrete books the witnesses of the theorems run on. Every book is
    built by [add_order], so that it is well formed by the invariant lemmas. *)

From S2P Require Import Prelude BTree Order OrderBook BookInvariant.

Local Open Scope string_scope.

Definition no_stp : Stp := {| mode := StpNone; group := "" |}.

(** A limit order of a trader: id, trader, side, price, quantity, display. *)
Definition sample (id trader : string) (s : OrderSide) (p q d : Z) : Order :=
  {| order_id := id; trader_id := trader; symbol := "FXP"; price := p; quantity := q;
     display_quantity := d; side := s; order_type := Limit; time_in_force := GTC; timestamp := 0;
     stop_price := 0; expire_date := ""; account := ""; client_order_id := id; order_stp := no_stp |}.

Definition with_stp (m : StpMode) (o : Order) : Order :=
  {| order_id := order_id o; trader_id := trader_id o; symbol := symbol o; price := price o;
     quantity := quantity o; display_quantity := display_quantity o; side := side o;
     order_type := order_type o; time_in_force := time_in_force o; timestamp := timestamp o;
     stop_price := stop_price o; expire_date := expire_date o; account := account o;
     client_order_id := client_order_id o; order_stp := {| mode := m; group := "" |} |}.

Definition with_tif (t : TimeInForce) (o : Order) : Order :=
  {| order_id := order_id o; trader_id := trader_id o; symbol := symbol o; price := price o;
     quantity := quantity o; display_quantity := display_quantity o; side := side o;
     order_type := order_type o; time_in_force := t; timestamp := timestamp o;
     stop_price := stop_price o; expire_date := expire_date o; account := account o;
     client_order_id := client_order_id o; order_stp := order_stp o |}.

Definition empty_book : OrderBook := book_new "FXP" broadcaster_new.

(** Orders entered one after the other, without matching. *)
Definition book_of (l : list Order) : OrderBook :=
  foldl (fun b o => (add_order o b).2) empty_book l.

(** Two offers, one of them an iceberg, against one bid below them. *)
Definition ask_iceberg : Order := sample "s1" "alice" Sell 101 5 2.
Definition ask_plain : Order := sample "s2" "bob" Sell 101 3 0.
Definition ask_far : Order := sample "s3" "carol" Sell 103 4 0.
Definition bid_low : Order := sample "b1" "dave" Buy 99 2 0.
Definition quiet_book : OrderBook := book_of [ask_iceberg; ask_plain; ask_far; bid_low].

(** The same book with a bid that crosses both price levels, and one of a trader
    who also owns an offer. *)
Definition bid_cross : Order := sample "b2" "erin" Buy 103 4 0.
Definition bid_self : Order := with_stp CancelNewest (sample "b3" "bob" Buy 101 4 0).
Definition crossed_book : OrderBook := book_of [ask_iceberg; ask_plain; ask_far; bid_low; bid_cross; bid_self].

(** A buy of bob's that runs into bob's own offer while it sweeps. *)
Definition bid_ioc : Order := with_tif IOC (with_stp DecrementAndCancel (sample "b4" "bob" Buy 102 4 0)).

(** Fill-or-kill: one that fits behind the iceberg, one that does not. *)
Definition bid_fok : Order := with_tif FOK (sample "b5" "erin" Buy 103 9 0).
Definition bid_fok_big : Order := with_tif FOK (sample "b6" "erin" Buy 103 13 0).

(** Stops: a buy that a print at 101 fires, one that a print at 103 fires, and a
    sell that stays parked. *)
Definition with_stop (t : OrderType) (p : Z) (o : Order) : Order :=
  {| order_id := order_id o; trader_id := trader_id o; symbol := symbol o; price := price o;
     quantity := quantity o; display_quantity := display_quantity o; side := side o;
     order_type := t; time_in_force := time_in_force o; timestamp := timestamp o;
     stop_price := p; expire_date := expire_date o; account := account o;
     client_order_id := client_order_id o; order_stp := order_stp o |}.

Definition stop_near : Order := with_stop Stop 101 (sample "t1" "frank" Buy 0 9 0).
Definition stop_next : Order := with_stop StopLimit 103 (sample "t2" "grace" Buy 104 5 0).
Definition stop_low : Order := with_stop Stop 90 (sample "t3" "frank" Sell 0 5 0).
Definition sample_stops : list Order := [stop_next; stop_low; stop_near].

Close Scope string_scope.

Definition enters (l : list Order) : bool :=
  forallb (fun o => (0 <? quantity o) && (quantity o <=? u32_max) && (0 <=? display_quantity o)) l
  && bool_decide (NoDup (order_id <$> l)).

(** ** Well-formedness *)

Lemma wf_empty sym bc : wf_book (book_new sym bc).
Proof.
  split; simpl; try done; try apply NoDup_nil_2; try apply Forall_nil_2. intros []; apply levels_ok_nil.
Qed.

Lemma add_order_lookup o b : order_lookup (add_order o b).2 = <[order_id o := o]> (order_lookup b).
Proof. rewrite add_order_eq. by destruct (side o). Qed.

Lemma wf_entries l : forall b,
  wf_book b -> Forall order_ok l -> NoDup (order_id <$> l) ->
  Forall (fun o => order_lookup b !! order_id o = None) l ->
  wf_book (foldl (fun b o => (add_order o b).2) b l).
Proof.
  induction l as [|o l IH]; intros b Hwf Hok Hnd Hfr; [done|].
  apply Forall_cons in Hok as [Ho Hok]. apply NoDup_cons in Hnd as [Hn Hnd].
  apply Forall_cons in Hfr as [Hf Hfr]. apply IH; [by apply add_order_inv|done|done|].
  rewrite Forall_forall in Hfr |- *. intros x Hx. rewrite add_order_lookup, lookup_insert_ne; [by apply Hfr|].
  intros E. apply Hn. rewrite E. by apply list_elem_of_fmap_2.
Qed.

Lemma wf_book_of l : enters l = true -> wf_book (book_of l).
Proof.
  unfold enters. intros [Hq Hnd]%andb_true_iff. apply bool_decide_eq_true in Hnd.
  apply wf_entries; [apply wf_empty| |done|by apply Forall_forall].
  apply Forall_forall. intros o Ho%list_elem_of_In. rewrite forallb_forall in Hq.
  specialize (Hq o Ho). propify. split; lia.
Qed.

Lemma quiet_wf : wf_book quiet_book.
Proof. apply wf_book_of. vm_compute. reflexivity. Qed.

Lemma crossed_wf : wf_book crossed_book.
Proof. apply wf_book_of. vm_compute. reflexivity. Qed.
