(* ===== verification/BookEffects.v ===== *)
(** * What the book primitives do to quantities and displayed depth

    Three views of a book: the leaves of an id ([qty]), the static fields of
    its orders ([lineage]) and the displayed quantity of a side and price
    ([depth]). Each primitive the matcher uses is characterised on all three,
    together with the invariant. *)

From S2P Require Import Prelude BTree Order OrderBook BookInvariant.

(** ** Definitions *)

(** Leaves of an id: its live quantity, or zero. *)
Definition qty (b : OrderBook) (id : string) : Z :=
  match order_lookup b !! id with Some o => quantity o | None => 0 end.

(** What the book has filled of an id. *)
Definition banked (b : OrderBook) (id : string) : Z := default 0 (cum_filled b !! id).

(** Every live order of [b'] is an order of [b] with another quantity. *)
Definition lineage (b b' : OrderBook) : Prop :=
  forall id o, order_lookup b' !! id = Some o ->
  exists o0, order_lookup b !! id = Some o0 /\ o = with_quantity (quantity o) o0.

Definition at_level (s : OrderSide) (p : Z) (o : Order) : bool :=
  bool_decide (side o = s) && (price o =? p).

(** Displayed quantity at a side and price, detached orders included. *)
Definition depth (det : list Order) (b : OrderBook) (s : OrderSide) (p : Z) : Z :=
  sumZ (fun o => if at_level s p o then visible b o else 0) (det ++ orders b).

(** The signed change one market data entry makes at a side and price: what a
    client that mirrors the level book applies. *)
Definition change_at (s : OrderSide) (p : Z) (c : MarketOrderUpdate) : Z :=
  if bool_decide (upd_side c = s) && (upd_price c =? p) then
    match update_type c with
    | NewOrder => upd_quantity c
    | ModifyOrder | CancelOrder => - upd_quantity c
    end
  else 0.

Definition changes_at (s : OrderSide) (p : Z) (us : list MarketDataIncrementalUpdate) : Z :=
  sumZ (fun u => sumZ (change_at s p) (changes u)) us.

(** A detached order after its quantity became [q]: gone when nothing is left. *)
Definition live_list (q : Z) (o : Order) : list Order :=
  if q =? 0 then [] else [with_quantity q o].

(** ** Frames: fields the primitives leave alone *)

Lemma book_inv_frame det b b' :
  book_inv det b ->
  buy_orders b' = buy_orders b -> sell_orders b' = sell_orders b ->
  order_lookup b' = order_lookup b -> cum_filled b' = cum_filled b ->
  arrival b' = arrival b -> displayed b' = displayed b -> book_inv det b'.
Proof.
  intros Hinv E1 E2 E3 E4 E5 E6.
  assert (orders b' = orders b) as Eo by (unfold orders; congruence).
  assert (visible b' = visible b) as Ev by (unfold visible; by rewrite E6).
  assert (slice_ok b' = slice_ok b) as Esl by (unfold slice_ok; by rewrite Ev).
  destruct Hinv as [Hlv Hids Hoks Hlk Hd Ha Hsl Hsh Hc].
  split; rewrite ?Eo, ?E3, ?E4, ?E5, ?E6, ?Ev, ?Esl; try done.
  intros s. specialize (Hlv s). destruct s; simpl in *; congruence.
Qed.

Lemma book_inv_set_stp det x b : book_inv det b -> book_inv det (set_stp x b).
Proof. intros Hinv. by apply (book_inv_frame det b). Qed.

Lemma book_inv_set_refresh_log det x b : book_inv det b -> book_inv det (set_refresh_log x b).
Proof. intros Hinv. by apply (book_inv_frame det b). Qed.

Lemma side_levels_set_levels s m b : side_levels s (set_levels s m b) = m.
Proof. by destruct s. Qed.

(** ** Detaching and attaching *)

Lemma depth_perm det det' b b' s p :
  det ++ orders b ≡ₚ det' ++ orders b' -> displayed b' = displayed b ->
  depth det' b' s p = depth det b s p.
Proof. intros Hp Hd. unfold depth, visible. by rewrite Hp, Hd. Qed.

Lemma inv_orders_det det det' b b' :
  book_inv det b -> book_inv det' b' -> order_lookup b' = order_lookup b ->
  det ++ orders b ≡ₚ det' ++ orders b'.
Proof.
  intros H1 H2 Heq. rewrite (inv_lookup _ _ H1), (inv_lookup _ _ H2) in Heq.
  unfold index in Heq. apply list_to_map_inj in Heq; [|rewrite index_fst; apply H2|rewrite index_fst; apply H1].
  assert (forall l : list Order, ((fun o => (order_id o, o)) <$> l).*2 = l) as Hsnd.
  { intros l. rewrite <- list_fmap_compose. apply list_fmap_id. }
  rewrite <- (Hsnd (det ++ orders b)), <- (Hsnd (det' ++ orders b')). by rewrite Heq.
Qed.

(** Moving orders between levels and hands keeps the depth. *)
Lemma depth_move det det' b b' s p :
  book_inv det b -> book_inv det' b' -> order_lookup b' = order_lookup b ->
  displayed b' = displayed b -> depth det' b' s p = depth det b s p.
Proof. intros H1 H2 Hl Hd. apply depth_perm; [by apply inv_orders_det|done]. Qed.

#[export] Instance depth_Permutation : Proper (Permutation ==> eq ==> eq ==> eq ==> eq) depth.
Proof. intros l1 l2 Hp b ? <- s ? <- p ? <-. unfold depth. by rewrite Hp. Qed.

(** ** Reducing a detached order *)

Lemma sync_inv det o q t v b :
  book_inv (o :: det) b -> 0 <= q -> 0 <= t -> q + t <= quantity o -> 0 <= v <= q ->
  (display_quantity o = 0 -> v = q) ->
  book_inv (live_list q o ++ det) (sync_visible_fill (with_quantity q o) t v b).
Proof.
  intros Hinv Hq Ht Hqt Hv Hfull. unfold live_list. destruct (Z.eqb_spec q 0) as [->|E]; simpl.
  - by apply sync_gone_inv.
  - apply sync_left_inv; (done || lia).
Qed.

Lemma sync_lookup det o q t v b :
  book_inv (o :: det) b ->
  order_lookup (sync_visible_fill (with_quantity q o) t v b) =
  if q =? 0 then delete (order_id o) (order_lookup b)
  else <[order_id o := with_quantity q o]> (order_lookup b).
Proof.
  intros Hinv. unfold sync_visible_fill, sync_fill. simpl.
  destruct (q =? 0); [done|]. by rewrite (inv_live _ _ o Hinv ltac:(left)).
Qed.

Lemma qty_sync det o q t v b id :
  book_inv (o :: det) b ->
  qty (sync_visible_fill (with_quantity q o) t v b) id = if bool_decide (id = order_id o) then q else qty b id.
Proof.
  intros Hinv. unfold qty. rewrite (sync_lookup det) by done.
  destruct (Z.eqb_spec q 0) as [->|]; case_bool_decide as E; subst; simplify_map_eq; done.
Qed.

Lemma banked_absent det b id : book_inv det b -> order_lookup b !! id = None -> banked b id = 0.
Proof.
  intros Hinv Hn. unfold banked. destruct (cum_filled b !! id) as [c|] eqn:Hc; [|done].
  destruct (inv_cum _ _ Hinv _ _ Hc) as (o & Ho & _). congruence.
Qed.

Lemma banked_bounds det b id o : book_inv det b -> order_lookup b !! id = Some o -> 0 <= banked b id /\ banked b id + quantity o <= u32_max.
Proof.
  intros Hinv Ho. unfold banked. destruct (cum_filled b !! id) as [c|] eqn:Hc; simpl.
  - destruct (inv_cum _ _ Hinv _ _ Hc) as (x & Hx & ? & ?). assert (x = o) as -> by congruence. lia.
  - destruct (inv_lookup_elem _ _ _ _ Hinv Ho) as [Hin _]. destruct (inv_order_ok _ _ _ Hinv Hin). lia.
Qed.

Lemma banked_sync det o q t v b id :
  book_inv (o :: det) b -> 0 <= t -> 0 <= q -> q + t <= quantity o ->
  is_Some (order_lookup (sync_visible_fill (with_quantity q o) t v b) !! id) ->
  banked (sync_visible_fill (with_quantity q o) t v b) id = banked b id + if bool_decide (id = order_id o) then t else 0.
Proof.
  intros Hinv Ht Hq Hqt. rewrite (sync_lookup det) by done. pose proof (inv_live _ _ o Hinv ltac:(left)) as Hlive.
  destruct (banked_bounds _ _ _ _ Hinv Hlive) as [Hb1 Hb2]. revert Hb1 Hb2.
  unfold banked, sync_visible_fill, sync_fill. simpl. rewrite Hlive. intros Hb1 Hb2.
  destruct (q =? 0); simpl; [rewrite !lookup_delete|rewrite !lookup_insert]; (case_decide as E;
    [subst id; rewrite bool_decide_true by done|rewrite bool_decide_false by congruence]).
  - intros [? [=]].
  - intros _. lia.
  - intros _. simpl. rewrite add32_small; lia.
  - intros _. lia.
Qed.

Lemma lineage_refl b : lineage b b.
Proof. intros id o Ho. exists o. by rewrite with_quantity_same. Qed.

Lemma lineage_trans b1 b2 b3 : lineage b1 b2 -> lineage b2 b3 -> lineage b1 b3.
Proof.
  intros H12 H23 id o Ho. destruct (H23 _ _ Ho) as (o2 & Ho2 & Heq).
  destruct (H12 _ _ Ho2) as (o1 & Ho1 & Heq2). exists o1. split; [done|].
  rewrite Heq, Heq2 at 1. done.
Qed.

Lemma lineage_same b b' : order_lookup b' = order_lookup b -> lineage b b'.
Proof. intros Heq id o. rewrite Heq. intros Ho. exists o. by rewrite with_quantity_same. Qed.

Lemma lineage_sync det o q t v b :
  book_inv (o :: det) b -> lineage b (sync_visible_fill (with_quantity q o) t v b).
Proof.
  intros Hinv id x. rewrite (sync_lookup det) by done.
  destruct (q =? 0).
  - rewrite lookup_delete. case_decide; [done|]. intros Hx. exists x. by rewrite with_quantity_same.
  - rewrite lookup_insert. case_decide as E.
    + subst id. intros [= <-]. exists o. split; [|done]. by apply (inv_live _ _ o Hinv ltac:(left)).
    + intros Hx. exists x. by rewrite with_quantity_same.
Qed.

Lemma depth_sync det o q t v b s p :
  book_inv (o :: det) b -> (q = 0 -> v = 0) ->
  depth (live_list q o ++ det) (sync_visible_fill (with_quantity q o) t v b) s p =
  depth (o :: det) b s p - (if at_level s p o then visible b o - v else 0).
Proof.
  intros Hinv Hv. unfold depth. rewrite orders_sync.
  set (b' := sync_visible_fill (with_quantity q o) t v b).
  assert (sumZ (fun o => if at_level s p o then visible b' o else 0) (det ++ orders b) =
          sumZ (fun o => if at_level s p o then visible b o else 0) (det ++ orders b)) as Hrest.
  { apply sumZ_ext, Forall_forall. intros x Hx. unfold b'.
    rewrite visible_sync_other; [done|]. by eapply inv_tail_ids. }
  rewrite <- app_assoc, sumZ_app, Hrest. simpl. unfold live_list.
  destruct (Z.eqb_spec q 0) as [->|E]; simpl.
  - rewrite Hv by done. destruct (at_level s p o); lia.
  - assert (at_level s p (with_quantity q o) = at_level s p o) as -> by done.
    unfold b'. rewrite visible_sync_self by done. destruct (at_level s p o); lia.
Qed.

Lemma changes_at_single s p b t pr q sd :
  changes_at s p [generate_incremental_update b t pr q sd] =
  if bool_decide (sd = s) && (pr =? p) then
    match t with NewOrder => q | ModifyOrder | CancelOrder => - q end else 0.
Proof.
  unfold changes_at, change_at. simpl. destruct (bool_decide (sd = s) && (pr =? p)); [|done].
  destruct t; lia.
Qed.

Lemma changes_at_nil s p : changes_at s p [] = 0.
Proof. reflexivity. Qed.

Lemma changes_at_app s p l1 l2 : changes_at s p (l1 ++ l2) = changes_at s p l1 + changes_at s p l2.
Proof. apply sumZ_app. Qed.

Lemma changes_at_cons s p u l : changes_at s p (u :: l) = changes_at s p [u] + changes_at s p l.
Proof. by rewrite <- changes_at_app. Qed.

(** ** Replenishing and requeueing what is left *)

Lemma replenish_live det o q b md b' :
  book_inv (live_list q o ++ det) b -> replenish (with_quantity q o) b = (md, b') ->
  book_inv (live_list q o ++ det) b' /\ order_lookup b' = order_lookup b /\
  (q <> 0 -> 0 < visible b' (with_quantity q o)) /\
  (forall x, order_id x <> order_id o -> visible b' x = visible b x) /\
  (forall s p, depth (live_list q o ++ det) b' s p =
     depth (live_list q o ++ det) b s p + changes_at s p (option_list md)) /\
  (forall s, side_levels s b' = side_levels s b) /\
  book_stp b' = book_stp b /\ book_symbol b' = book_symbol b /\ last_added b' = last_added b /\
  refresh_log b' = refresh_log b /\ cum_filled b' = cum_filled b.
Proof.
  unfold live_list. destruct (Z.eqb_spec q 0) as [->|E]; simpl.
  { intros Hinv. rewrite replenish_eq. simpl. intros [= <- <-]. split_and!; try done.
    intros s p. rewrite changes_at_nil. lia. }
  intros Hinv Hr. pose proof (replenish_inv _ _ _ _ _ Hinv Hr) as (H1 & H2 & H3 & H4 & H5 & H6).
  rewrite replenish_eq in Hr. split; [done|].
  destruct ((quantity (with_quantity q o) =? 0) || _ || _) eqn:Etest.
  { injection Hr as <- <-. split_and!; try done. intros s p. rewrite changes_at_nil. lia. }
  injection Hr as <- <-. split_and!; try done.
  - intros x Hx. by apply visible_refreshed_other.
  - intros s p. destruct H6 as [Hv0 _]; [done|]. simpl option_list. rewrite changes_at_single.
    unfold depth. rewrite H3. simpl. rewrite visible_refreshed_self, Hv0. simpl.
    assert (sumZ (fun x => if at_level s p x then visible (refreshed (with_quantity q o) b) x else 0) (det ++ orders b) =
            sumZ (fun x => if at_level s p x then visible b x else 0) (det ++ orders b)) as ->.
    { apply sumZ_ext, Forall_forall. intros x Hx. rewrite visible_refreshed_other; [done|].
      by eapply inv_tail_ids. }
    unfold at_level. simpl. destruct (bool_decide (side o = s) && (price o =? p)); lia.
Qed.

Lemma requeue_live det o q back b :
  book_inv (live_list q o ++ det) b -> (q <> 0 -> 0 < visible b (with_quantity q o)) ->
  book_inv det (requeue (with_quantity q o) back b).
Proof.
  unfold live_list. intros Hinv Hv. destruct (Z.eqb_spec q 0) as [->|E]; [done|].
  apply requeue_inv; auto.
Qed.

Lemma requeue_frame o back b :
  order_lookup (requeue o back b) = order_lookup b /\ displayed (requeue o back b) = displayed b /\
  arrival (requeue o back b) = arrival b /\ book_stp (requeue o back b) = book_stp b /\
  book_symbol (requeue o back b) = book_symbol b /\ last_added (requeue o back b) = last_added b /\
  refresh_log (requeue o back b) = refresh_log b /\ cum_filled (requeue o back b) = cum_filled b.
Proof. unfold requeue. by destruct (quantity o =? 0). Qed.

Lemma sync_frame o t v b :
  book_stp (sync_visible_fill o t v b) = book_stp b /\
  book_symbol (sync_visible_fill o t v b) = book_symbol b /\
  last_added (sync_visible_fill o t v b) = last_added b /\
  refresh_log (sync_visible_fill o t v b) = refresh_log b.
Proof.
  unfold sync_visible_fill, sync_fill. destruct (quantity o =? 0); [done|].
  by destruct (order_lookup b !! order_id o).
Qed.

Lemma qty_nonneg det b id : book_inv det b -> 0 <= qty b id.
Proof.
  intros Hinv. unfold qty. destruct (order_lookup b !! id) as [o|] eqn:Hl; [|lia].
  destruct (inv_lookup_elem _ _ _ _ Hinv Hl) as [Ho _]. destruct (inv_order_ok _ _ _ Hinv Ho). lia.
Qed.

Lemma qty_absent det b id : book_inv det b -> qty b id <= 0 -> order_lookup b !! id = None.
Proof.
  intros Hinv. unfold qty. destruct (order_lookup b !! id) as [o|] eqn:Hl; [|done].
  destruct (inv_lookup_elem _ _ _ _ Hinv Hl) as [Ho _]. destruct (inv_order_ok _ _ _ Hinv Ho). lia.
Qed.

Lemma qty_present b id : 0 < qty b id -> is_Some (order_lookup b !! id).
Proof. unfold qty. destruct (order_lookup b !! id); [by eexists|lia]. Qed.
