(* ===== verification/BookOps.v ===== *)
(** * Entry, cancellation, replacement and auction fills

    The theorems of the book's own operations: each keeps the book well formed,
    changes exactly the orders it names, publishes market data that follows the
    displayed depth, and on an error leaves the book as it was. *)

From S2P Require Import Prelude BTree Order OrderBook BookInvariant Samples BookEffects.

(** ** Definitions *)

(** A sample replacement: another price and a larger total. *)
Definition sample_replace : OrderReplace :=
  {| new_price := 102; new_total_qty := 5; new_display_quantity := None; new_time_in_force := None;
     repl_client_order_id := "s9"; repl_timestamp := 1 |}.

(** ** Lemmas *)

Lemma depth_entered det o b s p :
  book_inv det b -> order_lookup b !! order_id o = None ->
  depth (o :: det) (entered o b) s p = depth det b s p + (if at_level s p o then initial_visible o else 0).
Proof.
  intros Hinv Hfr. unfold depth. simpl. rewrite visible_entered_self.
  change (orders (entered o b)) with (orders b).
  rewrite (sumZ_ext (fun x => if at_level s p x then visible (entered o b) x else 0)
             (fun x => if at_level s p x then visible b x else 0) (det ++ orders b)); [lia|].
  apply Forall_forall. intros x Hx. rewrite visible_entered_other; [done|]. by eapply fresh_ids.
Qed.

Lemma add_order_depth o b s p :
  wf_book b -> order_ok o -> order_lookup b !! order_id o = None ->
  depth [] (add_order o b).2 s p = depth [] b s p + changes_at s p [(add_order o b).1].
Proof.
  intros Hwf Hok Hfr. pose proof (add_order_inv _ _ _ Hwf Hok Hfr) as Hwf'.
  rewrite add_order_eq in *. simpl fst. rewrite changes_at_single.
  pose proof (entered_inv _ _ _ Hwf Hok Hfr) as He.
  rewrite (depth_move [o] [] (entered o b) _ s p He Hwf') by (by destruct (side o)).
  by rewrite (depth_entered [] o b s p Hwf Hfr).
Qed.

Lemma cancel_order_depth id b s p :
  wf_book b -> depth [] (cancel_order id b).2 s p = depth [] b s p + changes_at s p (option_list (cancel_order id b).1).
Proof.
  intros Hwf. destruct (order_lookup b !! id) as [o|] eqn:Hl.
  - destruct (inv_lookup_elem _ _ _ _ Hwf Hl) as [Ho <-]. simpl in Ho.
    destruct (cancel_order_live _ _ Hwf Ho) as (l1 & l2 & Hg & ->). cbn [fst snd option_list].
    pose proof (detach_inv _ _ _ _ Hwf Hg) as Hd.
    set (b1 := set_levels _ _ b) in *.
    pose proof (depth_sync [] o 0 0 0 b1 s p Hd) as H. simpl in H. rewrite H by done.
    rewrite (depth_move [] [o] b b1 s p Hwf Hd) by done.
    change (option_list (Some ?u)) with [u]. rewrite changes_at_single. unfold at_level. destruct (_ && _); [|lia]. unfold visible. simpl. lia.
  - unfold cancel_order. rewrite Hl. simpl. lia.
Qed.

(** ** Entry after cancellation *)

Lemma replacement_ok b orig_id o new_id ch leaves :
  wf_book b -> replace_ok ch -> order_lookup b !! orig_id = Some o ->
  (new_total_qty ch = 0 /\ leaves = quantity o \/
   default 0 (cum_filled b !! orig_id) < new_total_qty ch /\
   leaves = new_total_qty ch - default 0 (cum_filled b !! orig_id)) ->
  order_ok (replacement_of o new_id ch leaves).
Proof.
  intros Hinv [Hq Hd] Hl Hleaves. destruct (inv_lookup_elem _ _ _ _ Hinv Hl) as [Hin Hid].
  pose proof (inv_order_ok _ _ _ Hinv Hin) as [Hoq Hod].
  assert (0 <= default 0 (cum_filled b !! orig_id)) as Hnn.
  { destruct (cum_filled b !! orig_id) as [c|] eqn:Hc; simpl; [|lia].
    by destruct (inv_cum _ _ Hinv _ _ Hc) as (_ & _ & ? & _). }
  unfold is_u32 in Hq. split; simpl; [destruct Hleaves; lia|].
  destruct (new_display_quantity ch); simpl in *; lia.
Qed.

Lemma replacement_fresh b orig_id new_id :
  new_id = orig_id \/ order_lookup b !! new_id = None -> order_lookup (cancel_order orig_id b).2 !! new_id = None.
Proof.
  intros Hfree. rewrite cancel_order_lookup. destruct Hfree as [->|Hn]; [by rewrite lookup_delete_eq|].
  rewrite lookup_delete. by case_decide.
Qed.

(** An accepted replacement is a cancellation followed by an entry. *)
Lemma replace_order_accepted b orig_id new_id ch owner repl md b' :
  wf_book b -> replace_ok ch -> replace_order orig_id new_id ch owner b = (Ok (repl, md), b') ->
  exists o leaves, order_lookup b !! orig_id = Some o /\ trader_id o = owner /\
    repl = replacement_of o new_id ch leaves /\ order_ok repl /\
    let c := cancel_order orig_id b in
    order_lookup c.2 !! new_id = None /\
    (forall s p, changes_at s p [md] = changes_at s p (option_list c.1) + changes_at s p [(add_order repl c.2).1]) /\
    (exists cum, b' = set_tables (order_lookup (add_order repl c.2).2) cum (arrival (add_order repl c.2).2) (add_order repl c.2).2) /\
    (new_total_qty ch = 0 /\ leaves = quantity o \/
     default 0 (cum_filled b !! orig_id) < new_total_qty ch /\
     leaves = new_total_qty ch - default 0 (cum_filled b !! orig_id)).
Proof.
  intros Hwf Hch Hrun. pose proof (replace_order_cases b orig_id new_id ch owner Hwf Hch) as Hcase.
  rewrite Hrun in Hcase. remember (Ok (repl, md), b') as res eqn:E.
  destruct Hcase as [| | | |o leaves Hl Ho Hfree Hleaves r c a filled]; try discriminate.
  apply (f_equal fst) in E as E1. apply (f_equal snd) in E as E2. cbn [fst snd] in E1, E2.
  assert (repl = r) as -> by congruence.
  assert (md = {| inc_symbol := book_symbol b; changes := changes (generate_incremental_update b CancelOrder (price o)
    (default (quantity o) (displayed b !! orig_id)) (side o)) ++ changes a.1 |}) as -> by congruence.
  subst b'. clear E E1. exists o, leaves.
  pose proof (replacement_ok _ _ _ new_id _ _ Hwf Hch Hl Hleaves) as Hok.
  cbv zeta. fold c a. split_and!; try done.
  - by apply replacement_fresh.
  - intros s p. unfold c, cancel_order. rewrite Hl. change (option_list (Some ?u)) with [u].
    unfold changes_at. simpl. lia.
  - destruct (filled >? 0); [by eexists|]. exists (cum_filled a.2). fold c a. by destruct a as [? []].
Qed.

Lemma replace_order_depth b orig_id new_id ch owner repl md b' s p :
  wf_book b -> replace_ok ch -> replace_order orig_id new_id ch owner b = (Ok (repl, md), b') ->
  depth [] b' s p = depth [] b s p + changes_at s p [md].
Proof.
  intros Hwf Hch Hrun. destruct (replace_order_accepted _ _ _ _ _ _ _ _ Hwf Hch Hrun)
    as (o & leaves & Hl & _ & Hr & Hok & Hfr & Hmd & [cum ->] & _).
  assert (order_id repl = new_id) as Hid by (by subst repl). rewrite <- Hid in Hfr.
  transitivity (depth [] (add_order repl (cancel_order orig_id b).2).2 s p); [done|].
  rewrite add_order_depth, cancel_order_depth, Hmd by (try apply cancel_order_inv; done). lia.
Qed.

(** ** Displayed depth, level by level *)

Lemma sumZ_zero {A} (f : A -> Z) l : Forall (fun a => f a = 0) l -> sumZ f l = 0.
Proof. induction 1 as [|a l Ha _ IH]; simpl; lia. Qed.

Lemma side_depth b s p :
  wf_book b ->
  sumZ (fun o => if at_level s p o then visible b o else 0) (bt_concat (side_levels s b)) =
  sumZ (visible b) (default [] (bt_get p (side_levels s b))).
Proof.
  intros Hwf. pose proof (inv_levels _ _ Hwf s) as Hlv.
  assert (forall m, levels_ok s m -> bt_get p m = None ->
    sumZ (fun o => if at_level s p o then visible b o else 0) (bt_concat m) = 0) as Hnone.
  { intros m [Hs Hf] Hg. apply sumZ_zero, Forall_forall. intros o (k & l & Hk & Ho)%elem_of_bt_concat.
    rewrite Forall_forall in Hf. destruct (Hf _ Hk) as [_ Hl]. rewrite Forall_forall in Hl.
    destruct (Hl _ Ho) as [Hp _]. simpl in Hp. unfold at_level. destruct (Z.eqb_spec (price o) p); [|by rewrite andb_false_r].
    exfalso. subst. apply bt_elem_get in Hk; [|done]. congruence. }
  destruct (bt_get p (side_levels s b)) as [l|] eqn:Hg; simpl; [|by apply Hnone].
  rewrite (bt_concat_get _ _ _ Hg), sumZ_app, (Hnone (bt_remove p (side_levels s b)));
    [|by apply levels_ok_remove|apply bt_get_remove_eq, Hlv].
  rewrite Z.add_0_r. apply sumZ_ext, Forall_forall. intros o Ho.
  destruct (levels_ok_get _ _ _ _ Hlv Hg) as [_ Hl]. rewrite Forall_forall in Hl. destruct (Hl _ Ho) as [Hp Hs].
  simpl in Hp. unfold at_level. by rewrite bool_decide_true, (proj2 (Z.eqb_eq _ _) Hp).
Qed.

Lemma depth_level b s p :
  wf_book b -> depth [] b s p = sumZ (visible b) (default [] (bt_get p (side_levels s b))).
Proof.
  intros Hwf. rewrite <- side_depth by done. unfold depth, orders. simpl. rewrite sumZ_app.
  assert (forall s', s' <> s -> sumZ (fun o => if at_level s p o then visible b o else 0) (bt_concat (side_levels s' b)) = 0) as Hz.
  { intros s' Hne. apply sumZ_zero, Forall_forall. intros o Ho.
    pose proof (levels_ok_elem _ _ _ (inv_levels _ _ Hwf s') Ho) as Hs.
    unfold at_level. by rewrite bool_decide_false by congruence. }
  destruct s; simpl.
  - pose proof (Hz Sell ltac:(done)) as H. simpl in H. lia.
  - pose proof (Hz Buy ltac:(done)) as H. simpl in H. lia.
Qed.

Lemma level_visible_sum b l :
  Forall (fun o => 0 <= visible b o) l -> sumZ (visible b) l <= u32_max -> level_visible b l = sumZ (visible b) l.
Proof.
  intros Hnn. unfold level_visible.
  enough (forall acc, 0 <= acc -> acc + sumZ (visible b) l <= u32_max ->
    foldl (fun acc o => add32 acc (visible b o)) acc l = acc + sumZ (visible b) l) as H.
  { intros Hs. rewrite H; lia. }
  induction Hnn as [|o l Ho Hl IH]; intros acc Hacc Hs; simpl in *; [lia|].
  pose proof (sumZ_nonneg (visible b) l Hl). rewrite add32_small, IH by lia. lia.
Qed.

Lemma bt_get_fmap {V W} (f : V -> W) (p : Z) (m : list (Z * V)) :
  bt_get p ((fun e => (e.1, f e.2)) <$> m) = f <$> bt_get p m.
Proof. induction m as [|[k v] m IH]; simpl; [done|]. by destruct (p <? k), (k <? p). Qed.

(** ** Auction fills *)

Lemma auction_fill_depth b o q md b' s p :
  wf_book b -> o ∈ orders b -> 0 < q <= quantity o ->
  apply_auction_fill (order_id o) q b = Done (md, b') ->
  depth [] b' s p = depth [] b s p + changes_at s p [md] + (if at_level s p o then quantity o - visible b o else 0).
Proof.
  intros Hwf Ho Hq Hrun. pose proof (apply_auction_fill_inv _ _ _ _ _ Hwf Ho Hq Hrun) as Hwf'.
  destruct (apply_auction_fill_spec _ _ _ Hwf Ho Hq) as (l1 & l2 & Hg & Heq).
  rewrite Heq in Hrun. injection Hrun as <- <-. clear Heq. rewrite changes_at_single.
  pose proof (detach_inv _ _ _ _ Hwf Hg) as Hd. set (b1 := set_levels _ _ b) in Hd.
  assert (book_inv (live_list (quantity o - q) o ++ []) (sync_visible_fill (with_quantity (quantity o - q) o) q (quantity o - q) b1)) as Hs.
  { apply sync_inv; (done || lia). }
  rewrite (depth_move _ [] _ _ s p Hs Hwf'); [|unfold b1; by rewrite sync_set_levels..].
  rewrite (depth_sync [] o) by (done || lia). rewrite (depth_move [] [o] b b1 s p Hwf Hd) by done.
  unfold at_level. destruct (_ && _); [|lia]. change (visible b1 o) with (visible b o). lia.
Qed.

(** ** Queues *)

Lemma bt_get_put_level k p l m :
  bt_sorted m -> bt_get k (put_level p l m) = if k =? p then (if is_nil l then None else Some l) else bt_get k m.
Proof.
  intros Hm. unfold put_level. destruct (Z.eqb_spec k p) as [->|Hne].
  - destruct (is_nil l); [by apply bt_get_remove_eq|by apply bt_get_insert_eq].
  - destruct (is_nil l); [by apply bt_get_remove_ne|by apply bt_get_insert_ne].
Qed.

Lemma elem_of_level b s p x : x ∈ default [] (bt_get p (side_levels s b)) -> x ∈ orders b.
Proof.
  destruct (bt_get p (side_levels s b)) as [l|] eqn:Hg; simpl; [|by intros ?%not_elem_of_nil].
  intros Hx. apply (orders_levels s). rewrite (bt_concat_get _ _ _ Hg). apply elem_of_app. by left.
Qed.

(** A queue holds no order of an id that is not live. *)
Lemma filter_fresh b id s p :
  wf_book b -> order_lookup b !! id = None ->
  filter (fun x => order_id x <> id) (default [] (bt_get p (side_levels s b))) = default [] (bt_get p (side_levels s b)).
Proof.
  intros Hwf Hn. apply filter_all, Forall_forall. intros x Hx%elem_of_level <-.
  pose proof (inv_live _ _ _ Hwf Hx). congruence.
Qed.

Lemma add_order_levels o b s p :
  wf_book b ->
  bt_get p (side_levels s (add_order o b).2) =
  if at_level s p o then Some (default [] (bt_get p (side_levels s b)) ++ [o])
  else bt_get p (side_levels s b).
Proof.
  intros Hwf. rewrite add_order_eq. cbn [snd]. unfold at_level.
  assert (forall s, side_levels s (entered o b) = side_levels s b) as He by (by intros []).
  case_bool_decide as Hs; simpl.
  - subst s. rewrite side_levels_set_levels. unfold push_level.
    destruct (Z.eqb_spec (price o) p) as [<-|Hne].
    + apply bt_get_insert_eq, (inv_levels _ _ Hwf).
    + apply bt_get_insert_ne; [apply (inv_levels _ _ Hwf)|done].
  - rewrite <- (He s). by destruct (side o), s.
Qed.

Lemma cancel_order_levels o b s p :
  wf_book b -> o ∈ orders b ->
  default [] (bt_get p (side_levels s (cancel_order (order_id o) b).2)) =
  filter (fun x => order_id x <> order_id o) (default [] (bt_get p (side_levels s b))).
Proof.
  intros Hwf Ho. destruct (cancel_order_live _ _ Hwf Ho) as (l1 & l2 & Hg & ->). cbn [snd].
  rewrite side_levels_sync.
  assert (NoDup (order_id <$> l1 ++ o :: l2)) as Hnd by (by eapply level_ids).
  destruct (decide (s = side o /\ p = price o)) as [[-> ->]|Hne].
  - rewrite side_levels_set_levels, bt_get_put_level, Z.eqb_refl, Hg by apply (inv_levels _ _ Hwf).
    simpl. rewrite filter_other_id by done. by destruct (l1 ++ l2).
  - assert (bt_get p (side_levels s (set_levels (side o) (put_level (price o) (l1 ++ l2) (side_levels (side o) b)) b)) =
      bt_get p (side_levels s b)) as ->.
    { destruct (decide (s = side o)) as [->|Hs].
      - rewrite side_levels_set_levels, bt_get_put_level by apply (inv_levels _ _ Hwf).
        destruct (Z.eqb_spec p (price o)); [naive_solver|done].
      - by destruct (side o), s. }
    symmetry. apply filter_all, Forall_forall. intros x Hx Heq. apply elem_of_level in Hx as Hxo.
    assert (x = o) as ->.
    { pose proof (inv_live _ _ _ Hwf Hxo). pose proof (inv_live _ _ _ Hwf Ho). congruence. }
    destruct (bt_get p (side_levels s b)) as [l|] eqn:Hl; simpl in Hx; [|by apply not_elem_of_nil in Hx].
    destruct (levels_ok_get _ _ _ _ (inv_levels _ _ Hwf s) Hl) as [_ Hall]. rewrite Forall_forall in Hall.
    destruct (Hall _ Hx) as [? ?]. by apply Hne.
Qed.

Lemma levels_default_ext s m1 m2 :
  levels_ok s m1 -> levels_ok s m2 ->
  (forall p, default [] (bt_get p m1) = default [] (bt_get p m2)) -> m1 = m2.
Proof.
  intros H1 H2 Heq. apply bt_ext; [apply H1|apply H2|]. intros p. specialize (Heq p).
  destruct (bt_get p m1) as [l1|] eqn:G1, (bt_get p m2) as [l2|] eqn:G2; simpl in Heq; try congruence.
  - destruct (levels_ok_get _ _ _ _ H1 G1) as [Hne _]. by subst.
  - destruct (levels_ok_get _ _ _ _ H2 G2) as [Hne _]. by subst.
Qed.

(** ** Theorems *)

(** Entering an order keeps the book well formed, registers exactly that
    order, puts it at the back of the queue of its price and leaves every other
    queue alone; the published increment follows the displayed depth. *)
Theorem add_order_spec o b :
  wf_book b -> order_ok o -> order_lookup b !! order_id o = None ->
  let md := (add_order o b).1 in let b' := (add_order o b).2 in
  wf_book b' /\ order_lookup b' = <[order_id o := o]> (order_lookup b) /\
  (forall s p, bt_get p (side_levels s b') =
     if at_level s p o then Some (default [] (bt_get p (side_levels s b)) ++ [o])
     else bt_get p (side_levels s b)) /\
  (forall s p, depth [] b' s p = depth [] b s p + changes_at s p [md]).
Proof.
  intros Hwf Hok Hfr. cbv zeta. split_and!.
  - by apply add_order_inv.
  - apply add_order_lookup.
  - intros s p. by apply add_order_levels.
  - intros s p. by apply add_order_depth.
Qed.

Lemma add_order_spec_witness :
  wf_book (add_order bid_cross quiet_book).2 /\ depth [] (add_order bid_cross quiet_book).2 Buy 103 = 4.
Proof.
  destruct (add_order_spec bid_cross quiet_book quiet_wf) as (H & _ & _ & Hd).
  - vm_compute. split_and!; congruence.
  - reflexivity.
  - split; [exact H|]. rewrite Hd. vm_compute. reflexivity.
Defined.

(** Canceling an id removes exactly that order, wherever it rests, keeps the
    order of every queue and the book well formed, and publishes its displayed
    quantity; an id that is not live changes nothing. *)
Theorem cancel_order_spec id b :
  wf_book b ->
  let md := (cancel_order id b).1 in let b' := (cancel_order id b).2 in
  wf_book b' /\ order_lookup b' = delete id (order_lookup b) /\
  (forall s p, default [] (bt_get p (side_levels s b')) =
     filter (fun x => order_id x <> id) (default [] (bt_get p (side_levels s b)))) /\
  (forall s p, depth [] b' s p = depth [] b s p + changes_at s p (option_list md)) /\
  (is_Some md <-> is_Some (order_lookup b !! id)) /\
  (order_lookup b !! id = None -> b' = b).
Proof.
  intros Hwf. cbv zeta. split_and!.
  - by apply cancel_order_inv.
  - apply cancel_order_lookup.
  - intros s p. destruct (order_lookup b !! id) as [o|] eqn:Hl.
    + destruct (inv_lookup_elem _ _ _ _ Hwf Hl) as [Ho <-]. by apply cancel_order_levels.
    + rewrite filter_fresh by done. unfold cancel_order. by rewrite Hl.
  - intros s p. by apply cancel_order_depth.
  - unfold cancel_order. destruct (order_lookup b !! id); simpl; split; (done || by intros [? ?]).
  - intros Hn. unfold cancel_order. by rewrite Hn.
Qed.

Lemma cancel_order_spec_witness :
  wf_book (cancel_order "s1" quiet_book).2 /\ depth [] (cancel_order "s1" quiet_book).2 Sell 101 = 3.
Proof.
  destruct (cancel_order_spec "s1" quiet_book quiet_wf) as (H & _ & _ & Hd & _).
  split; [exact H|]. rewrite Hd. vm_compute. reflexivity.
Defined.

(** Entering an order and canceling it again gives back the book: the same
    queues in the same order, the same live orders, slices, running fills and
    arrival stamps. *)
Theorem add_cancel_roundtrip o b :
  wf_book b -> order_ok o -> order_lookup b !! order_id o = None ->
  let b' := (cancel_order (order_id o) (add_order o b).2).2 in
  (forall s, side_levels s b' = side_levels s b) /\ order_lookup b' = order_lookup b /\
  displayed b' = displayed b /\ cum_filled b' = cum_filled b /\ arrival b' = arrival b.
Proof.
  intros Hwf Hok Hfr. cbv zeta.
  pose proof (add_order_inv _ _ _ Hwf Hok Hfr) as Hwf1.
  assert (order_lookup (add_order o b).2 !! order_id o = Some o) as Hl.
  { rewrite add_order_lookup. by rewrite lookup_insert_eq. }
  destruct (inv_lookup_elem _ _ _ _ Hwf1 Hl) as [Ho _]. split_and!.
  - intros s. apply (levels_default_ext s); [apply (inv_levels _ _ (cancel_order_inv _ _ Hwf1))|apply (inv_levels _ _ Hwf)|].
    intros p. rewrite cancel_order_levels, add_order_levels by done.
    pose proof (filter_fresh b (order_id o) s p Hwf Hfr) as Hf.
    destruct (at_level s p o); [|done]. simpl. rewrite filter_app, Hf, filter_cons_False, app_nil_r by auto. done.
  - rewrite cancel_order_lookup, add_order_lookup. by rewrite delete_insert_id.
  - unfold cancel_order. rewrite Hl. rewrite add_order_eq. simpl. rewrite delete_insert_id; [done|].
    apply not_elem_of_dom. rewrite (inv_displayed _ _ Hwf). by apply not_elem_of_dom.
  - rewrite cancel_order_cum, add_order_eq by done. simpl. apply delete_id.
    destruct (cum_filled b !! order_id o) as [c|] eqn:Hc; [|done].
    destruct (inv_cum _ _ Hwf _ _ Hc) as (x & Hx & _). congruence.
  - unfold cancel_order. rewrite Hl. rewrite add_order_eq. simpl. rewrite delete_insert_id; [done|].
    apply not_elem_of_dom. rewrite (inv_arrival _ _ Hwf). by apply not_elem_of_dom.
Qed.

Lemma add_cancel_roundtrip_witness :
  let b' := (cancel_order "b2" (add_order bid_cross quiet_book).2).2 in
  (forall s, side_levels s b' = side_levels s quiet_book) /\ order_lookup b' = order_lookup quiet_book.
Proof.
  destruct (add_cancel_roundtrip bid_cross quiet_book quiet_wf) as (H1 & H2 & _).
  - vm_compute. split_and!; congruence.
  - reflexivity.
  - split; [exact H1|exact H2].
Defined.

(** Only its owner can cancel an order through [cancel_order_for]: an id that
    is not live is [UnknownOrder], a live order of another trader [NotOwner], and
    both leave the book untouched; the owner's request is the plain cancel. *)
Theorem cancel_order_for_spec id owner b :
  wf_book b ->
  cancel_order_for id owner b =
  match order_lookup b !! id with
  | None => (Err UnknownOrder, b)
  | Some o =>
    if bool_decide (trader_id o = owner)
    then (Ok (generate_incremental_update b CancelOrder (price o) (visible b o) (side o)), (cancel_order id b).2)
    else (Err NotOwner, b)
  end.
Proof.
  intros Hwf. unfold cancel_order_for, check_owner, cancel_order, visible.
  destruct (order_lookup b !! id) as [o|] eqn:Hl; [|done].
  destruct (inv_lookup_elem _ _ _ _ Hwf Hl) as [_ <-]. by repeat case_bool_decide.
Qed.

Lemma cancel_order_for_spec_witness :
  (cancel_order_for "s1" "bob" quiet_book).1 = Err NotOwner /\
  (cancel_order_for "zz" "bob" quiet_book).1 = Err UnknownOrder.
Proof.
  split; rewrite (cancel_order_for_spec _ _ _ quiet_wf); vm_compute; reflexivity.
Defined.

(** [replace_order] ends in one of its five documented ways: unknown order,
    not the owner, an id already in use, a total not above what is filled, each
    with the book unchanged; or the original is canceled and the replacement
    entered with the requested total minus what was already filled, under which
    that amount stays recorded as filled. The book stays well formed. *)
Theorem replace_order_spec b orig_id new_id ch owner :
  wf_book b -> replace_ok ch ->
  replace_case b orig_id new_id ch owner (replace_order orig_id new_id ch owner b) /\
  wf_book (replace_order orig_id new_id ch owner b).2.
Proof. intros Hwf Hch. split; [by apply replace_order_cases|by apply replace_order_inv]. Qed.

Lemma replace_order_spec_witness :
  replace_case quiet_book "s2" "s9" sample_replace "bob" (replace_order "s2" "s9" sample_replace "bob" quiet_book) /\
  wf_book (replace_order "s2" "s9" sample_replace "bob" quiet_book).2.
Proof. apply replace_order_spec; [exact quiet_wf|]. vm_compute. split_and!; congruence. Defined.

(** An accepted replacement publishes increments that take the displayed
    depth from the old book to the new one. *)
Theorem replace_order_market_data b orig_id new_id ch owner repl md b' s p :
  wf_book b -> replace_ok ch -> replace_order orig_id new_id ch owner b = (Ok (repl, md), b') ->
  depth [] b' s p = depth [] b s p + changes_at s p [md].
Proof. apply replace_order_depth. Qed.

Lemma replace_order_market_data_witness :
  exists repl md b', replace_order "s2" "s9" sample_replace "bob" quiet_book = (Ok (repl, md), b') /\
  depth [] b' Sell 102 = 0 + changes_at Sell 102 [md].
Proof.
  destruct (replace_order "s2" "s9" sample_replace "bob" quiet_book) as [[[repl md]|e] b'] eqn:E;
    [|vm_compute in E; discriminate].
  exists repl, md, b'. split; [done|].
  apply (replace_order_market_data quiet_book "s2" "s9" sample_replace "bob" repl md b' Sell 102 quiet_wf); [|exact E].
  vm_compute. split_and!; congruence.
Defined.

(** An auction fill of a live order never panics and keeps the book well
    formed; it takes exactly the filled quantity off that order, which leaves the
    book when nothing is left. *)
Theorem apply_auction_fill_total b o q :
  wf_book b -> order_lookup b !! order_id o = Some o -> 0 < q <= quantity o ->
  exists md b', apply_auction_fill (order_id o) q b = Done (md, b') /\ wf_book b' /\
    order_lookup b' = (if quantity o =? q then delete (order_id o) (order_lookup b)
                       else <[order_id o := with_quantity (quantity o - q) o]> (order_lookup b)) /\
    (visible b o = quantity o -> forall s p, depth [] b' s p = depth [] b s p + changes_at s p [md]).
Proof.
  intros Hwf Hl Hq. destruct (inv_lookup_elem _ _ _ _ Hwf Hl) as [Ho _]. simpl in Ho.
  destruct (apply_auction_fill_spec _ _ _ Hwf Ho Hq) as (l1 & l2 & Hg & Heq).
  eexists _, _. split; [exact Heq|]. pose proof (apply_auction_fill_inv _ _ _ _ _ Hwf Ho Hq Heq) as Hwf'.
  split; [done|]. split.
  - simpl. unfold sync_visible_fill, sync_fill. simpl. rewrite Hl.
    destruct (Z.eqb_spec (quantity o - q) 0), (Z.eqb_spec (quantity o) q); try lia; done.
  - intros Hv s p. rewrite (auction_fill_depth _ _ _ _ _ s p Hwf Ho Hq Heq), Hv.
    destruct (at_level s p o); lia.
Qed.

Lemma apply_auction_fill_total_witness :
  exists md b', apply_auction_fill "s2" 2 quiet_book = Done (md, b') /\ wf_book b' /\ depth [] b' Sell 101 = 3.
Proof.
  destruct (apply_auction_fill_total quiet_book ask_plain 2 quiet_wf) as (md & b' & E & H & _ & Hd).
  - reflexivity.
  - vm_compute. split; congruence.
  - exists md, b'. split_and!; [exact E|exact H|]. rewrite Hd by reflexivity.
    vm_compute in E. injection E as <- _. vm_compute. reflexivity.
Defined.

(** A snapshot shows the displayed depth: as long as no level shows more than
    a [u32] holds, the quantity it gives for a price is the sum of the displayed
    slices there, and prices without orders are absent. *)
Theorem get_market_snapshot_depth b s p :
  wf_book b -> depth [] b s p <= u32_max ->
  bt_get p (match s with Buy => bids (get_market_snapshot b) | Sell => asks (get_market_snapshot b) end) =
  (if depth [] b s p =? 0 then None else Some (depth [] b s p)).
Proof.
  intros Hwf. rewrite depth_level by done. intros Hsum.
  assert (bt_get p (match s with Buy => bids (get_market_snapshot b) | Sell => asks (get_market_snapshot b) end) =
    level_visible b <$> bt_get p (side_levels s b)) as -> by (destruct s; apply bt_get_fmap).
  destruct (bt_get p (side_levels s b)) as [l|] eqn:Hg; simpl in *; [|done].
  assert (Forall (fun o => 0 < visible b o) l) as Hsh.
  { pose proof (inv_shown _ _ Hwf) as H. rewrite Forall_forall in H |- *. intros x Hx. apply H, (elem_of_level b s p).
    by rewrite Hg. }
  assert (Forall (fun o => 0 <= visible b o) l) as Hnn by (eapply Forall_impl; [exact Hsh|]; simpl; lia).
  rewrite level_visible_sum by done.
  destruct (levels_ok_get _ _ _ _ (inv_levels _ _ Hwf s) Hg) as [Hne _]. simpl in Hne.
  destruct l as [|o l]; [done|]. apply Forall_cons in Hsh as [Ho _]. apply Forall_cons in Hnn as [_ Hnn].
  pose proof (sumZ_nonneg (visible b) l Hnn). simpl in *. destruct (Z.eqb_spec (visible b o + sumZ (visible b) l) 0); [lia|done].
Qed.

Lemma get_market_snapshot_depth_witness :
  bt_get 101 (asks (get_market_snapshot quiet_book)) = Some 5.
Proof.
  rewrite (get_market_snapshot_depth quiet_book Sell 101 quiet_wf); vm_compute; [reflexivity|congruence].
Defined.
