(* ===== verification/Matcher.v ===== *)
(** * The matcher

    [order_book/matcher.rs]: crossing the book after an entry, sweeping an
    aggressive order over the opposite side (market, IOC, FOK), self-trade
    prevention in both, and the stop trigger partition.

    The two loops that are not structural run on fuel. Every crossing step
    takes at least one unit off the resting quantity and every sweep step off
    the aggressor or the level, so the fuel chosen below, one more than that
    quantity, is always enough; running out is a separate outcome. *)

From S2P Require Import Prelude BTree Order OrderBook BookInvariant.

Definition opposite (s : OrderSide) : OrderSide := match s with Buy => Sell | Sell => Buy end.

(** [self_match]. *)
Definition self_match (newer older : Order) : bool :=
  bool_decide (mode (order_stp newer) <> StpNone) && bool_decide (stp_key newer = stp_key older).

(** [self.stp.updates.push] and [self.stp.events.push]. *)
Definition push_stp_update (u : MarketDataIncrementalUpdate) (b : OrderBook) : OrderBook :=
  set_stp {| events := events (book_stp b); stp_updates := stp_updates (book_stp b) ++ [u] |} b.

Definition push_stp_event (e : StpEvent) (b : OrderBook) : OrderBook :=
  set_stp {| events := events (book_stp b) ++ [e]; stp_updates := stp_updates (book_stp b) |} b.

(** [log.push] when diagnostics are on. *)
Definition push_refresh (e : nat * string * Z) (b : OrderBook) : OrderBook :=
  match refresh_log b with
  | Some log => set_refresh_log (Some (log ++ [e])) b
  | None => b
  end.

(** What a prevented self-match leaves of the newer and the older order. *)
Definition stp_left (m : StpMode) (newer older : Z) : Z * Z :=
  match m with
  | CancelNewest => (0, older)
  | CancelOldest => (newer, 0)
  | CancelBoth => (0, 0)
  | _ => let q := Z.min newer older in (sub32 newer q, sub32 older q)
  end.

Definition stp_action (left cut : Z) : StpAction :=
  if left =? 0 then Canceled else Restated cut.

(** ** Passive matching *)

Record MatchState : Type := mkMatchState {
  ms_book : OrderBook;
  ms_fills : list ExecutionReport;
  ms_updates : list MarketDataIncrementalUpdate;
}.

(** One pass of the [for (order, left)] loop over the older and newer order. *)
Definition stp_reduce (m : StpMode) (old_id new_id : string) (nfills : nat)
    (o : Order) (left : Z) (b : OrderBook) : Order * OrderBook :=
  let cut := sub32 (quantity o) left in
  if cut =? 0 then (o, b)
  else
    let before := visible b o in
    let vis := Z.min before left in
    let o := with_quantity left o in
    let b := if before >? vis
             then push_stp_update
                    (generate_incremental_update b CancelOrder (price o) (sub32 before vis) (side o)) b
             else b in
    let b := sync_visible_fill o 0 vis b in
    let b := push_stp_event
               {| ev_order_id := order_id o;
                  opposing_order := if bool_decide (order_id o = old_id) then new_id else old_id;
                  action := stp_action left cut; ev_mode := m; before_fill := nfills |} b in
    (o, b).

(** Whether the bid is the newer of a crossing pair. *)
Definition bid_is_newer (aggressor : option string) (b : OrderBook) (bid ask : Order) : outcome bool :=
  if bool_decide (aggressor = Some (order_id bid)) then Done true
  else if bool_decide (aggressor = Some (order_id ask)) then Done false
  else
    let* bid_at := expect (arrival b !! order_id bid) in
    let* ask_at := expect (arrival b !! order_id ask) in
    Done (bid_at >? ask_at).

(** The prevented self-match of a crossing pair. *)
Definition match_stp (bid_newer : bool) (bid ask : Order) (st : MatchState) : MatchState :=
  let b := ms_book st in
  let '(newer, older) := if bid_newer then (bid, ask) else (ask, bid) in
  let m := mode (order_stp newer) in
  let '(new_left, old_left) := stp_left m (quantity newer) (quantity older) in
  let old_id := order_id older in
  let new_id := order_id newer in
  let n := length (ms_fills st) in
  let '(older, b) := stp_reduce m old_id new_id n older old_left b in
  let '(newer, b) := stp_reduce m old_id new_id n newer new_left b in
  let '(bid, ask) := if bid_newer then (newer, older) else (older, newer) in
  let b := requeue bid false b in
  let b := requeue ask false b in
  {| ms_book := b; ms_fills := ms_fills st; ms_updates := ms_updates st |}.

(** The log entry of a refreshed slice. *)
Definition log_refresh (i : nat) (md : option MarketDataIncrementalUpdate) (o : Order) (b : OrderBook)
    : OrderBook :=
  match md with
  | Some _ => push_refresh (i, order_id o, visible b o) b
  | None => b
  end.

(** The fill of a crossing pair. *)
Definition match_fill (bid_newer : bool) (bid_price ask_price : Z) (bid ask : Order) (st : MatchState)
    : MatchState :=
  let b := ms_book st in
  let bid_visible := visible b bid in
  let ask_visible := visible b ask in
  let qty := Z.min bid_visible ask_visible in
  let bid := with_quantity (sub32 (quantity bid) qty) bid in
  let ask := with_quantity (sub32 (quantity ask) qty) ask in
  let b := sync_visible_fill bid qty (sub32 bid_visible qty) b in
  let b := sync_visible_fill ask qty (sub32 ask_visible qty) b in
  let fills := ms_fills st ++
    [{| buy_order_id := order_id bid; sell_order_id := order_id ask;
        trade_price := if bid_newer then ask_price else bid_price;
        trade_quantity := qty;
        aggressor_side := if bid_newer then Buy else Sell;
        buy_fully_filled := quantity bid =? 0; sell_fully_filled := quantity ask =? 0 |}] in
  let updates := ms_updates st ++
    [generate_incremental_update b ModifyOrder (price bid) qty (side bid);
     generate_incremental_update b ModifyOrder (price ask) qty (side ask)] in
  let '(bid_refresh, b) := replenish bid b in
  let '(ask_refresh, b) := replenish ask b in
  let b := log_refresh (length fills - 1) bid_refresh bid b in
  let b := log_refresh (length fills - 1) ask_refresh ask b in
  let updates := updates ++ option_list bid_refresh ++ option_list ask_refresh in
  let b := requeue bid (bool_decide (is_Some bid_refresh)) b in
  let b := requeue ask (bool_decide (is_Some ask_refresh)) b in
  {| ms_book := b; ms_fills := fills; ms_updates := updates |}.

(** One iteration of the [while let] loop of [match_orders]; [None] leaves it. *)
Definition match_step (aggressor : option string) (st : MatchState) : outcome (option MatchState) :=
  let b := ms_book st in
  match bt_last (buy_orders b), bt_first (sell_orders b) with
  | Some bid_price, Some ask_price =>
    if bid_price <? ask_price then Done None
    else
      let '(bid, b) := pop_best Buy b in
      let* bid := expect bid in
      let '(ask, b) := pop_best Sell b in
      let* ask := expect ask in
      let* bid_newer := bid_is_newer aggressor b bid ask in
      let '(newer, older) := if bid_newer then (bid, ask) else (ask, bid) in
      let st := {| ms_book := b; ms_fills := ms_fills st; ms_updates := ms_updates st |} in
      Done (Some (if self_match newer older then match_stp bid_newer bid ask st
                  else match_fill bid_newer bid_price ask_price bid ask st))
  | _, _ => Done None
  end.

Fixpoint match_loop (fuel : nat) (aggressor : option string) (st : MatchState) : outcome MatchState :=
  match fuel with
  | O => OutOfFuel
  | S fuel =>
    let* next := match_step aggressor st in
    match next with
    | None => Done st
    | Some st' => match_loop fuel aggressor st'
    end
  end.

Definition match_fuel (b : OrderBook) : nat := S (Z.to_nat (sumZ quantity (orders b))).

(** [OrderBook::match_orders]. *)
Definition match_orders (b : OrderBook)
    : outcome (list ExecutionReport * list MarketDataIncrementalUpdate * OrderBook) :=
  let b := set_stp stp_outcome_default b in
  let* st := match_loop (match_fuel b) (last_added b)
               {| ms_book := b; ms_fills := []; ms_updates := [] |} in
  Done (ms_fills st, ms_updates st, ms_book st).

(** ** Aggressive orders *)

Record Sweep : Type := mkSweep {
  remaining : Z;
  sw_fills : list ExecutionReport;
  sw_fill_updates : list MarketDataIncrementalUpdate;
  stopped : bool;
}.

(** [Sweep::new], [live] and [finish]. *)
Definition sweep_new (o : Order) : Sweep :=
  {| remaining := quantity o; sw_fills := []; sw_fill_updates := []; stopped := false |}.

Definition sweep_live (sw : Sweep) : bool := (remaining sw >? 0) && negb (stopped sw).

Record AggressiveResult : Type := mkAggressiveResult {
  fills : list ExecutionReport;
  fill_updates : list MarketDataIncrementalUpdate;
  unfilled_qty : Z;
  rest_on_book : bool;
  stp_canceled : bool;
}.

Definition sweep_finish (sw : Sweep) : AggressiveResult :=
  {| fills := sw_fills sw; fill_updates := sw_fill_updates sw;
     unfilled_qty := if stopped sw then 0 else remaining sw;
     rest_on_book := false; stp_canceled := stopped sw |}.

(** The self-match arm of [fill_level]: the top order against the aggressor. *)
Definition level_stp (a : Order) (p : Z) (top : Order) (level : list Order) (sw : Sweep) (b : OrderBook)
    : list Order * Sweep * OrderBook :=
  let vis := visible b top in
  let m := mode (order_stp a) in
  let n := length (sw_fills sw) in
  let '(aggr_left, top_left) := stp_left m (remaining sw) (quantity top) in
  let cut := sub32 (quantity top) top_left in
  let '(top, b) :=
    if cut >? 0 then
      let top := with_quantity top_left top in
      let left_visible := Z.min vis top_left in
      let b := if vis >? left_visible
               then push_stp_update
                      (generate_incremental_update b CancelOrder p (sub32 vis left_visible) (side top)) b
               else b in
      let b := sync_visible_fill top 0 left_visible b in
      let b := push_stp_event
                 {| ev_order_id := order_id top; opposing_order := order_id a;
                    action := stp_action top_left cut; ev_mode := m; before_fill := n |} b in
      (top, b)
    else (top, b) in
  let aggr_cut := sub32 (remaining sw) aggr_left in
  let aggr_event act := {| ev_order_id := order_id a; opposing_order := order_id top;
                           action := act; ev_mode := m; before_fill := n |} in
  let '(sw, b) :=
    if aggr_left =? 0 then
      ({| remaining := remaining sw; sw_fills := sw_fills sw;
          sw_fill_updates := sw_fill_updates sw; stopped := true |},
       push_stp_event (aggr_event Canceled) b)
    else if aggr_cut >? 0 then
      ({| remaining := aggr_left; sw_fills := sw_fills sw;
          sw_fill_updates := sw_fill_updates sw; stopped := stopped sw |},
       push_stp_event (aggr_event (Restated aggr_cut)) b)
    else (sw, b) in
  (if quantity top >? 0 then top :: level else level, sw, b).

(** The fill arm of [fill_level]. *)
Definition level_fill (a : Order) (p : Z) (top : Order) (level : list Order) (sw : Sweep) (b : OrderBook)
    : list Order * Sweep * OrderBook :=
  let vis := visible b top in
  let qty := Z.min vis (remaining sw) in
  let top := with_quantity (sub32 (quantity top) qty) top in
  let rem := sub32 (remaining sw) qty in
  let b := sync_visible_fill top qty (sub32 vis qty) b in
  let report :=
    match side a with
    | Buy => {| buy_order_id := order_id a; sell_order_id := order_id top; trade_price := p;
                trade_quantity := qty; aggressor_side := side a;
                buy_fully_filled := rem =? 0; sell_fully_filled := quantity top =? 0 |}
    | Sell => {| buy_order_id := order_id top; sell_order_id := order_id a; trade_price := p;
                 trade_quantity := qty; aggressor_side := side a;
                 buy_fully_filled := quantity top =? 0; sell_fully_filled := rem =? 0 |}
    end in
  let sw := {| remaining := rem; sw_fills := sw_fills sw ++ [report];
               sw_fill_updates := sw_fill_updates sw ++
                 [generate_incremental_update b ModifyOrder p qty (side top)];
               stopped := stopped sw |} in
  let '(md, b) := replenish top b in
  match md with
  | Some md =>
    let b := push_refresh (length (sw_fills sw) - 1, order_id top, visible b top)%nat b in
    let sw := {| remaining := remaining sw; sw_fills := sw_fills sw;
                 sw_fill_updates := sw_fill_updates sw ++ [md]; stopped := stopped sw |} in
    (level ++ [top], sw, b)
  | None => (if quantity top >? 0 then top :: level else level, sw, b)
  end.

(** The [while sweep.live()] loop of [fill_level]. *)
Fixpoint level_loop (fuel : nat) (a : Order) (p : Z) (level : list Order) (sw : Sweep) (b : OrderBook)
    : outcome (list Order * Sweep * OrderBook) :=
  match fuel with
  | O => OutOfFuel
  | S fuel =>
    if sweep_live sw then
      match level with
      | [] => Done (level, sw, b)
      | top :: level' =>
        let '(level, sw, b) := if self_match a top then level_stp a p top level' sw b
                               else level_fill a p top level' sw b in
        level_loop fuel a p level sw b
      end
    else Done (level, sw, b)
  end.

Definition level_fuel (sw : Sweep) (level : list Order) : nat :=
  S (Z.to_nat (remaining sw + sumZ quantity level)).

(** [OrderBook::fill_level]. *)
Definition fill_level (a : Order) (p : Z) (sw : Sweep) (b : OrderBook) : outcome (Sweep * OrderBook) :=
  let s := opposite (side a) in
  let level := default [] (bt_get p (side_levels s b)) in
  let b := set_levels s (bt_remove p (side_levels s b)) b in
  let* (level, sw, b) := level_loop (level_fuel sw level) a p level sw b in
  Done (sw, if is_nil level then b else set_levels s (bt_insert p level (side_levels s b)) b).

(** Whether a resting price satisfies the order's limit. *)
Definition crosses (a : Order) (p : Z) : bool :=
  match side a with Buy => p <=? price a | Sell => p >=? price a end.

(** The sweep loops of [execute_market] ([limit = false]) and [execute_ioc]
    ([limit = true]); each pass removes the best level or ends the sweep. *)
Fixpoint sweep_loop (fuel : nat) (limit : bool) (a : Order) (sw : Sweep) (b : OrderBook)
    : outcome (Sweep * OrderBook) :=
  match fuel with
  | O => OutOfFuel
  | S fuel =>
    if sweep_live sw then
      match best_price (opposite (side a)) (side_levels (opposite (side a)) b) with
      | None => Done (sw, b)
      | Some p =>
        if limit && negb (crosses a p) then Done (sw, b)
        else
          let* (sw, b) := fill_level a p sw b in
          sweep_loop fuel limit a sw b
      end
    else Done (sw, b)
  end.

Definition sweep_fuel (a : Order) (b : OrderBook) : nat :=
  S (length (side_levels (opposite (side a)) b)).

(** [OrderBook::execute_market]. *)
Definition execute_market (a : Order) (b : OrderBook) : outcome (AggressiveResult * OrderBook) :=
  let* (sw, b) := sweep_loop (sweep_fuel a b) false a (sweep_new a) b in
  Done (sweep_finish sw, b).

(** [OrderBook::execute_ioc]. *)
Definition execute_ioc (a : Order) (b : OrderBook) : outcome (AggressiveResult * OrderBook) :=
  let* (sw, b) := sweep_loop (sweep_fuel a b) true a (sweep_new a) b in
  Done (sweep_finish sw, b).

(** The resting orders a FOK order may reach, in matching order. *)
Definition crossing (a : Order) (b : OrderBook) : list Order :=
  match side a with
  | Buy => bt_concat (filter (fun e => e.1 <= price a) (sell_orders b))
  | Sell => bt_concat (rev (filter (fun e => price a <= e.1) (buy_orders b)))
  end.

(** The [for] loop over one level of the FOK scan. *)
Fixpoint fok_level (b : OrderBook) (a : Order) (has_self : bool) (queue : list Order) (available : Z)
    : Z * option string :=
  match queue with
  | [] => (available, None)
  | r :: queue =>
    if available >=? quantity a then (available, None)
    else if self_match a r then (available, Some (order_id r))
    else fok_level b a has_self queue
           (add64 available (if has_self then visible b r else quantity r))
  end.

(** The leading orders of one price. *)
Fixpoint span_price (p : Z) (l : list Order) : list Order * list Order :=
  match l with
  | [] => ([], [])
  | o :: l' =>
    if price o =? p then let '(l1, l2) := span_price p l' in (o :: l1, l2) else ([], l)
  end.

(** The [while available < want] loop of [execute_fok]. *)
Fixpoint fok_scan (fuel : nat) (b : OrderBook) (a : Order) (rest : list Order) (available : Z)
    : outcome (Z * option string) :=
  match fuel with
  | O => OutOfFuel
  | S fuel =>
    if available <? quantity a then
      match rest with
      | [] => Done (available, None)
      | first :: _ =>
        let '(queue, rest) := span_price (price first) rest in
        let has_self := existsb (self_match a) queue in
        let '(available, self_matched) := fok_level b a has_self queue available in
        match self_matched with
        | Some id => Done (available, Some id)
        | None => fok_scan fuel b a rest available
        end
      end
    else Done (available, None)
  end.

(** [OrderBook::execute_fok]. *)
Definition execute_fok (a : Order) (b : OrderBook) : outcome (AggressiveResult * OrderBook) :=
  let rest := crossing a b in
  let* (available, self_matched) := fok_scan (S (length rest)) b a rest 0 in
  match self_matched with
  | Some opposing =>
    Done ({| fills := []; fill_updates := []; unfilled_qty := 0; rest_on_book := false;
             stp_canceled := true |},
          push_stp_event {| ev_order_id := order_id a; opposing_order := opposing;
                            action := Canceled; ev_mode := mode (order_stp a);
                            before_fill := 0 |} b)
  | None =>
    if available <? quantity a then
      Done ({| fills := []; fill_updates := []; unfilled_qty := quantity a; rest_on_book := false;
               stp_canceled := false |}, b)
    else
      let* (r, b) := execute_ioc a b in
      Done ({| fills := fills r; fill_updates := fill_updates r; unfilled_qty := unfilled_qty r;
               rest_on_book := false; stp_canceled := stp_canceled r |}, b)
  end.

Definition resting_result (a : Order) : AggressiveResult :=
  {| fills := []; fill_updates := []; unfilled_qty := quantity a; rest_on_book := true;
     stp_canceled := false |}.

(** [OrderBook::process_aggressive] on limit orders. *)
Definition process_limit (a : Order) (b : OrderBook) : outcome (AggressiveResult * OrderBook) :=
  match time_in_force a with
  | IOC => execute_ioc a b
  | FOK => execute_fok a b
  | Day | GTC | Gtd => Done (resting_result a, b)
  | AtOpen | AtClose => Done (resting_result a, b)
  end.

(** [OrderBook::process_aggressive]. *)
Definition process_aggressive (a : Order) (b : OrderBook) : outcome (AggressiveResult * OrderBook) :=
  match order_type a with
  | Market => execute_market a b
  | Limit => process_limit a b
  | Stop => execute_market a b
  | StopLimit => process_limit (with_order_type Limit a) b
  end.

(** ** Stop triggers *)

(** The test of [drain_triggered_stops] and of [stops::stop_fires]. *)
Definition stop_fires (o : Order) (p : Z) : bool :=
  match side o with Buy => p >=? stop_price o | Sell => p <=? stop_price o end.

(** Distance from the print, in [i128]. *)
Definition stop_distance (p : Z) (o : Order) : Z := Z.abs (stop_price o - p).

(** [OrderBook::drain_triggered_stops]: the fired stops, farthest first and
    stable, and the stops that stay parked. *)
Definition drain_triggered_stops (stop_book : list Order) (last_trade_price : Z)
    : list Order * list Order :=
  let triggered := List.filter (fun o => stop_fires o last_trade_price) stop_book in
  let remaining := List.filter (fun o => negb (stop_fires o last_trade_price)) stop_book in
  (sort_stable (fun a b => stop_distance last_trade_price b <=? stop_distance last_trade_price a)
     triggered, remaining).
