(* ===== verification/Effects.v ===== *)
(** * Effects of matching

    What a run of matching operations does to a book, as one composable
    relation: from a book with detached orders to a book with detached orders,
    through the fills printed, the self-trade prevention events and the market
    data published. Passive and aggressive matching are both chains of such
    effects. *)

From S2P Require Import Prelude BTree Order OrderBook BookInvariant BookEffects Matcher.

(** ** Definitions *)

(** Quantity an id trades in a list of fills. *)
Definition filled_in (id : string) (fs : list ExecutionReport) : Z :=
  sumZ (fun f => if bool_decide (buy_order_id f = id) || bool_decide (sell_order_id f = id)
                 then trade_quantity f else 0) fs.

(** Quantity self-trade prevention takes off an id that stays live. *)
Definition restated_in (id : string) (es : list StpEvent) : Z :=
  sumZ (fun e => if bool_decide (ev_order_id e = id)
                 then match action e with Restated c => c | Canceled => 0 end else 0) es.

(** Whether self-trade prevention cancels an id. *)
Definition canceled_in (id : string) (es : list StpEvent) : bool :=
  existsb (fun e => bool_decide (ev_order_id e = id)
                    && match action e with Canceled => true | Restated _ => false end) es.

(** [effect P det b fs es us sus det' b']: matching takes [b] with [det]
    detached to [b'] with [det'] detached, printing [fs], recording the events
    [es] and publishing [us] and, for the events, [sus]. Quantities are
    accounted for on the ids of [P]. *)
Record effect (P : string -> Prop) (det : list Order) (b : OrderBook)
    (fs : list ExecutionReport) (es : list StpEvent) (us sus : list MarketDataIncrementalUpdate)
    (det' : list Order) (b' : OrderBook) : Prop := {
  eff_inv : book_inv det' b';
  eff_lineage : lineage b b';
  eff_qty_le : forall id, P id -> filled_in id fs + restated_in id es + qty b' id <= qty b id;
  eff_qty : forall id, P id -> canceled_in id es = false ->
    filled_in id fs + restated_in id es + qty b' id = qty b id;
  eff_canceled : forall id, P id -> canceled_in id es = true -> order_lookup b' !! id = None;
  eff_depth : forall s p, depth det' b' s p = depth det b s p + changes_at s p us + changes_at s p sus;
  eff_events : events (book_stp b') = events (book_stp b) ++ es;
  eff_updates : stp_updates (book_stp b') = stp_updates (book_stp b) ++ sus;
  eff_last_added : last_added b' = last_added b;
  eff_banked : forall id, P id -> is_Some (order_lookup b' !! id) -> banked b' id = banked b id + filled_in id fs;
  eff_cut : forall id, P id -> canceled_in id es = true -> filled_in id fs + restated_in id es < qty b id;
}.

Arguments eff_inv {_ _ _ _ _ _ _ _ _} _.
Arguments eff_lineage {_ _ _ _ _ _ _ _ _} _.
Arguments eff_qty_le {_ _ _ _ _ _ _ _ _} _.
Arguments eff_qty {_ _ _ _ _ _ _ _ _} _.
Arguments eff_canceled {_ _ _ _ _ _ _ _ _} _.
Arguments eff_depth {_ _ _ _ _ _ _ _ _} _.
Arguments eff_events {_ _ _ _ _ _ _ _ _} _.
Arguments eff_updates {_ _ _ _ _ _ _ _ _} _.
Arguments eff_last_added {_ _ _ _ _ _ _ _ _} _.
Arguments eff_banked {_ _ _ _ _ _ _ _ _} _.
Arguments eff_cut {_ _ _ _ _ _ _ _ _} _.

(** The events of one prevented self-match for one of its orders. *)
Definition reduce_events (m : StpMode) (old_id new_id : string) (n : nat) (o : Order) (left : Z)
    : list StpEvent :=
  if quantity o - left =? 0 then []
  else [{| ev_order_id := order_id o;
           opposing_order := if bool_decide (order_id o = old_id) then new_id else old_id;
           action := stp_action left (quantity o - left); ev_mode := m; before_fill := n |}].

Definition reduce_updates (o : Order) (left : Z) (b : OrderBook) : list MarketDataIncrementalUpdate :=
  let v := Z.min (visible b o) left in
  if visible b o >? v then [generate_incremental_update b CancelOrder (price o) (visible b o - v) (side o)]
  else [].

(** ** Frames of the small helpers *)

Lemma push_refresh_frame e b :
  order_lookup (push_refresh e b) = order_lookup b /\ displayed (push_refresh e b) = displayed b /\
  (forall det, book_inv det b -> book_inv det (push_refresh e b)) /\
  book_stp (push_refresh e b) = book_stp b /\ last_added (push_refresh e b) = last_added b /\
  book_symbol (push_refresh e b) = book_symbol b /\ orders (push_refresh e b) = orders b /\
  cum_filled (push_refresh e b) = cum_filled b.
Proof.
  unfold push_refresh. destruct (refresh_log b) as [l|]; [|done].
  split_and!; try done. intros det. apply book_inv_set_refresh_log.
Qed.

Lemma log_refresh_frame i md o b :
  order_lookup (log_refresh i md o b) = order_lookup b /\ displayed (log_refresh i md o b) = displayed b /\
  (forall det, book_inv det b -> book_inv det (log_refresh i md o b)) /\
  book_stp (log_refresh i md o b) = book_stp b /\ last_added (log_refresh i md o b) = last_added b /\
  book_symbol (log_refresh i md o b) = book_symbol b /\ orders (log_refresh i md o b) = orders b /\
  cum_filled (log_refresh i md o b) = cum_filled b.
Proof. unfold log_refresh. destruct md; [apply push_refresh_frame|done]. Qed.

Lemma visible_displayed b b' : displayed b' = displayed b -> visible b' = visible b.
Proof. intros H. unfold visible. by rewrite H. Qed.

Lemma sumZ_live_list q o : sumZ quantity (live_list q o) = q.
Proof. unfold live_list. destruct (Z.eqb_spec q 0) as [->|]; simpl; lia. Qed.

Lemma total_sync det o q t v b :
  sumZ quantity ((live_list q o ++ det) ++ orders (sync_visible_fill (with_quantity q o) t v b)) =
  sumZ quantity ((o :: det) ++ orders b) - (quantity o - q).
Proof.
  rewrite orders_sync, <- app_assoc, sumZ_app. simpl. unfold live_list.
  destruct (Z.eqb_spec q 0) as [->|]; simpl; lia.
Qed.

Lemma total_move det det' b b' :
  book_inv det b -> book_inv det' b' -> order_lookup b' = order_lookup b ->
  sumZ quantity (det' ++ orders b') = sumZ quantity (det ++ orders b).
Proof. intros H1 H2 Heq. by rewrite (inv_orders_det _ _ _ _ H1 H2 Heq). Qed.

Lemma total_nonneg det b : book_inv det b -> 0 <= sumZ quantity (det ++ orders b).
Proof.
  intros Hinv. apply sumZ_nonneg. eapply Forall_impl; [apply (inv_orders _ _ Hinv)|].
  intros o [Hq _]. lia.
Qed.

(** ** Composing effects *)

Lemma filled_in_app id l1 l2 : filled_in id (l1 ++ l2) = filled_in id l1 + filled_in id l2.
Proof. apply sumZ_app. Qed.

Lemma restated_in_nil id : restated_in id [] = 0.
Proof. reflexivity. Qed.

Lemma restated_in_app id l1 l2 : restated_in id (l1 ++ l2) = restated_in id l1 + restated_in id l2.
Proof. apply sumZ_app. Qed.

Lemma canceled_in_app id l1 l2 : canceled_in id (l1 ++ l2) = canceled_in id l1 || canceled_in id l2.
Proof. apply existsb_app. Qed.

Lemma lineage_None b b' id : lineage b b' -> order_lookup b !! id = None -> order_lookup b' !! id = None.
Proof.
  intros Hl Hn. destruct (order_lookup b' !! id) as [o|] eqn:E; [|done].
  destruct (Hl _ _ E) as (o0 & ? & _). congruence.
Qed.

Lemma effect_trans P det b fs1 es1 us1 sus1 det1 b1 fs2 es2 us2 sus2 det2 b2 :
  effect P det b fs1 es1 us1 sus1 det1 b1 -> effect P det1 b1 fs2 es2 us2 sus2 det2 b2 ->
  effect P det b (fs1 ++ fs2) (es1 ++ es2) (us1 ++ us2) (sus1 ++ sus2) det2 b2.
Proof.
  intros [I1 L1 Q1 E1 C1 D1 V1 U1 A1 B1 K1] [I2 L2 Q2 E2 C2 D2 V2 U2 A2 B2 K2]. split.
  - done.
  - by eapply lineage_trans.
  - intros id HP. rewrite filled_in_app, restated_in_app. specialize (Q1 id HP). specialize (Q2 id HP). lia.
  - intros id HP. rewrite filled_in_app, restated_in_app, canceled_in_app.
    intros [N1 N2]%orb_false_iff. specialize (E1 id HP N1). specialize (E2 id HP N2). lia.
  - intros id HP. rewrite canceled_in_app. intros [N|N]%orb_true_iff; [|auto].
    eapply lineage_None; eauto.
  - intros s p. rewrite D2, D1, !changes_at_app. lia.
  - by rewrite V2, V1, app_assoc.
  - by rewrite U2, U1, app_assoc.
  - congruence.
  - intros id HP Hid. rewrite filled_in_app, (B2 id HP Hid), (B1 id HP); [lia|].
    destruct Hid as [o Ho]. destruct (L2 _ _ Ho) as (o1 & ? & _). by exists o1.
  - intros id HP. rewrite filled_in_app, restated_in_app, canceled_in_app. specialize (Q1 id HP). specialize (Q2 id HP).
    pose proof (qty_nonneg _ _ id I2). intros [N|N]%orb_true_iff; [|specialize (K2 id HP N); lia].
    specialize (K1 id HP N). unfold qty in Q2 at 2. rewrite (C1 id HP N) in Q2. lia.
Qed.

Arguments effect_trans {_ _ _ _ _ _ _ _ _ _ _ _ _ _ _} _ _.

Lemma effect_move P det b det' b' :
  book_inv det b -> book_inv det' b' -> order_lookup b' = order_lookup b ->
  displayed b' = displayed b -> book_stp b' = book_stp b -> last_added b' = last_added b -> cum_filled b' = cum_filled b ->
  effect P det b [] [] [] [] det' b'.
Proof.
  intros I1 I2 Hl Hd Hs Ha Hc. split; try done.
  - by apply lineage_same.
  - intros id _. unfold qty. rewrite Hl. simpl. lia.
  - intros id _ _. unfold qty. by rewrite Hl.
  - intros s p. rewrite (depth_move det det' b b' s p) by done. rewrite changes_at_nil. lia.
  - by rewrite Hs, app_nil_r.
  - by rewrite Hs, app_nil_r.
  - intros id _ _. unfold banked. rewrite Hc. simpl. lia.
Qed.

Lemma effect_refl P det b : book_inv det b -> effect P det b [] [] [] [] det b.
Proof. intros H. by apply effect_move. Qed.

(** The accounting of [P] only depends on the ids it holds of. *)
Lemma effect_weaken (P Q : string -> Prop) det b fs es us sus det' b' :
  (forall id, Q id -> P id) -> effect P det b fs es us sus det' b' -> effect Q det b fs es us sus det' b'.
Proof. intros HPQ [? ? ? ? ? ? ? ? ? ?]. split; eauto. Qed.

#[export] Instance effect_Permutation P :
  Proper (Permutation ==> eq ==> eq ==> eq ==> eq ==> eq ==> Permutation ==> eq ==> iff) (effect P).
Proof.
  assert (forall d1 d2, d1 ≡ₚ d2 -> forall b fs es us sus d1' d2' b', d1' ≡ₚ d2' ->
    effect P d1 b fs es us sus d1' b' -> effect P d2 b fs es us sus d2' b') as H.
  { intros d1 d2 Hd b fs es us sus d1' d2' b' Hd' [I1 L1 Q1 E1 C1 D1 V1 U1 A1 B1].
    split; try done; [by rewrite <- Hd'|]. intros s p. rewrite <- Hd, <- Hd'. apply D1. }
  intros d1 d2 Hd b ? <- fs ? <- es ? <- us ? <- sus ? <- d1' d2' Hd' b' ? <-.
  split; apply H; (done || by symmetry).
Qed.

(** ** A fill of one detached order *)

Lemma sync_fill_effect (P : string -> Prop) det o q t v f b :
  book_inv (o :: det) b -> 0 <= q -> 0 <= t -> q + t = quantity o -> 0 <= v <= q ->
  (display_quantity o = 0 -> v = q) ->
  (forall id, P id -> filled_in id [f] = if bool_decide (id = order_id o) then t else 0) ->
  let b' := sync_visible_fill (with_quantity q o) t v b in
  effect P (o :: det) b [f] []
    [generate_incremental_update b' ModifyOrder (price o) (visible b o - v) (side o)] []
    (live_list q o ++ det) b'.
Proof.
  intros Hinv Hq Ht Hqt Hv Hd Hf b'. destruct (sync_frame (with_quantity q o) t v b) as (Fs & _ & Fa & _).
  assert (forall id, P id -> filled_in id [f] + qty b' id = qty b id) as E.
  { intros id HP. rewrite (Hf id HP). unfold b'. rewrite (qty_sync det) by done.
    case_bool_decide; [|done]. subst id. unfold qty. rewrite (inv_live _ _ o Hinv ltac:(left)). lia. }
  split; try done.
  - apply sync_inv; (done || lia).
  - by apply (lineage_sync det).
  - intros id HP. rewrite restated_in_nil. specialize (E id HP). lia.
  - intros id HP _. rewrite restated_in_nil. specialize (E id HP). lia.
  - intros s p. unfold b'. rewrite (depth_sync det), changes_at_single, changes_at_nil by (done || lia).
    unfold at_level. destruct (_ && _); lia.
  - unfold b'. by rewrite Fs, app_nil_r.
  - unfold b'. by rewrite Fs, app_nil_r.
  - intros id HP Hid. unfold b'. rewrite (banked_sync det) by (done || lia). by rewrite (Hf id HP).
Qed.

Lemma replenish_effect P det o q b md b' :
  book_inv (live_list q o ++ det) b -> replenish (with_quantity q o) b = (md, b') ->
  effect P (live_list q o ++ det) b [] [] (option_list md) [] (live_list q o ++ det) b'.
Proof.
  intros Hinv Hr.
  destruct (replenish_live _ _ _ _ _ _ Hinv Hr) as (I & L & _ & _ & D & _ & S & _ & A & _ & C).
  split; try done.
  - by apply lineage_same.
  - intros id _. unfold qty. rewrite L. simpl. lia.
  - intros id _ _. unfold qty. by rewrite L.
  - intros s p. rewrite D, changes_at_nil. lia.
  - by rewrite S, app_nil_r.
  - by rewrite S, app_nil_r.
  - intros id _ _. unfold banked. rewrite C. simpl. lia.
Qed.

(** ** A prevented self-match *)

Lemma qty_set_stp x b id : qty (set_stp x b) id = qty b id.
Proof. reflexivity. Qed.

Lemma depth_set_stp x det b s p : depth det (set_stp x b) s p = depth det b s p.
Proof. reflexivity. Qed.

Lemma side_levels_set_stp s x b : side_levels s (set_stp x b) = side_levels s b.
Proof. by destruct s. Qed.

Lemma visible_set_stp x b : visible (set_stp x b) = visible b.
Proof. reflexivity. Qed.

Lemma sync_set_stp x o t v b : sync_visible_fill o t v (set_stp x b) = set_stp x (sync_visible_fill o t v b).
Proof.
  unfold sync_visible_fill, sync_fill. simpl. destruct (quantity o =? 0); [done|].
  by destruct (order_lookup b !! order_id o).
Qed.

(** A cut clamps the displayed slice to the new leaves and publishes the
    displayed quantity it takes off. *)
Lemma stp_reduce_eq m old_id new_id n o left det b :
  book_inv (o :: det) b -> 0 <= left <= quantity o ->
  stp_reduce m old_id new_id n o left b =
  (with_quantity left o,
   if quantity o - left =? 0 then b
   else set_stp {| events := events (book_stp b) ++ reduce_events m old_id new_id n o left;
                   stp_updates := stp_updates (book_stp b) ++ reduce_updates o left b |}
          (sync_visible_fill (with_quantity left o) 0 (Z.min (visible b o) left) b)).
Proof.
  intros Hinv Hl. destruct (inv_order_ok _ _ o Hinv ltac:(left)) as [Hq Hd].
  destruct (inv_slice_ok _ _ o Hinv ltac:(left)) as [Hs Hf].
  unfold stp_reduce, reduce_events, reduce_updates.
  rewrite (sub32_small (quantity o) left), (sub32_small (visible b o)) by (unfold is_u32; lia).
  destruct (Z.eqb_spec (quantity o - left) 0) as [E|Hc].
  { replace left with (quantity o) by lia. by rewrite with_quantity_same. }
  f_equal. destruct (visible b o >? Z.min (visible b o) left); unfold push_stp_update, push_stp_event.
  - rewrite sync_set_stp. reflexivity.
  - simpl. rewrite app_nil_r. destruct (sync_frame (with_quantity left o) 0 (Z.min (visible b o) left) b) as [-> _].
    done.
Qed.

Lemma reduce_changes s p o left det b :
  book_inv (o :: det) b -> 0 <= left <= quantity o ->
  changes_at s p (reduce_updates o left b) =
  - (if at_level s p o then visible b o - Z.min (visible b o) left else 0).
Proof.
  intros Hinv Hl. destruct (inv_slice_ok _ _ o Hinv ltac:(left)) as [Hs _].
  unfold reduce_updates. destruct (Z.gtb_spec (visible b o) (Z.min (visible b o) left)) as [E|E].
  - rewrite changes_at_single. unfold at_level. destruct (_ && _); lia.
  - rewrite changes_at_nil. destruct (at_level s p o); lia.
Qed.

Section reduce.
Context (P : string -> Prop) (m : StpMode) (old_id new_id : string) (n : nat).
Context (o : Order) (left : Z) (det : list Order) (b : OrderBook).
Context (Hinv : book_inv (o :: det) b) (Hl : 0 <= left <= quantity o).

Let evs := reduce_events m old_id new_id n o left.

Lemma reduce_accounting id :
  restated_in id evs + (if bool_decide (id = order_id o) then left else qty b id) <= qty b id /\
  (canceled_in id evs = false ->
   restated_in id evs + (if bool_decide (id = order_id o) then left else qty b id) = qty b id) /\
  (canceled_in id evs = true -> id = order_id o /\ left = 0) /\ (canceled_in id evs = true -> restated_in id evs < qty b id).
Proof using Hinv Hl.
  assert (qty b (order_id o) = quantity o) as Hqo.
  { unfold qty. by rewrite (inv_live _ _ o Hinv ltac:(left)). }
  unfold evs, reduce_events, restated_in, canceled_in, stp_action.
  destruct (Z.eqb_spec (quantity o - left) 0) as [E|E]; simpl.
  { case_bool_decide; subst; split_and!; (done || lia). }
  destruct (Z.eqb_spec left 0) as [->|]; repeat case_bool_decide; simpl; subst; split_and!; (done || lia).
Qed.

Lemma stp_reduce_effect b' :
  stp_reduce m old_id new_id n o left b = (with_quantity left o, b') ->
  exists sus, effect P (o :: det) b [] evs [] sus (live_list left o ++ det) b' /\
  sumZ quantity ((live_list left o ++ det) ++ orders b') =
    sumZ quantity ((o :: det) ++ orders b) - (quantity o - left) /\
  (0 < visible b o -> left <> 0 -> 0 < visible b' (with_quantity left o)) /\
  (forall x, order_id x <> order_id o -> visible b' x = visible b x).
Proof using Hinv Hl.
  destruct (inv_slice_ok _ _ o Hinv ltac:(left)) as [Hs Hf].
  destruct (inv_order_ok _ _ o Hinv ltac:(left)) as [Hq Hd].
  rewrite (stp_reduce_eq _ _ _ _ _ _ _ _ Hinv Hl). intros [= <-].
  destruct (Z.eqb_spec (quantity o - left) 0) as [E|E].
  { assert (left = quantity o) as El by lia. exists []. unfold evs, reduce_events, live_list.
    rewrite (proj2 (Z.eqb_eq _ _) E), El, with_quantity_same.
    destruct (Z.eqb_spec (quantity o) 0); [lia|]. split_and!; (done || (simpl; lia) || by apply effect_refl). }
  exists (reduce_updates o left b). set (v := Z.min (visible b o) left).
  destruct (sync_frame (with_quantity left o) 0 v b) as (Fs & _ & Fa & _).
  split_and!; [|apply total_sync| |].
  - split; simpl; try done.
    + apply book_inv_set_stp, sync_inv; (done || lia).
    + apply (lineage_sync det); done.
    + intros id _. rewrite (qty_set_stp _ _ id), (qty_sync det) by done. apply reduce_accounting.
    + intros id _. rewrite (qty_set_stp _ _ id), (qty_sync det) by done. apply reduce_accounting.
    + intros id _ Hc. apply reduce_accounting in Hc as [-> ->]. rewrite (sync_lookup det) by done.
      apply lookup_delete_eq.
    + intros s p. rewrite depth_set_stp, (depth_sync det), (reduce_changes s p o left det) by (done || lia).
      fold v. lia.
    + intros id _ Hid. etransitivity; [apply (banked_sync det); (done || lia)|]. simpl. destruct (bool_decide _); lia.
    + intros id _. apply reduce_accounting.
  - intros Hv Hn. rewrite visible_set_stp, visible_sync_self by done. lia.
  - intros x Hx. rewrite visible_set_stp. by apply visible_sync_other.
Qed.
End reduce.

Lemma reduce_events_other m old_id new_id n o left id :
  id <> order_id o -> restated_in id (reduce_events m old_id new_id n o left) = 0 /\
                      canceled_in id (reduce_events m old_id new_id n o left) = false.
Proof.
  intros Hid. unfold reduce_events. destruct (_ =? 0); [done|]. unfold restated_in, canceled_in. simpl.
  by rewrite bool_decide_false by congruence.
Qed.

Lemma stp_reduce_levels m old_id new_id n o left b o' b' s :
  stp_reduce m old_id new_id n o left b = (o', b') -> side_levels s b' = side_levels s b.
Proof.
  unfold stp_reduce. destruct (_ =? 0); intros [= <- <-]; [done|].
  unfold push_stp_event. rewrite side_levels_set_stp, side_levels_sync.
  destruct (_ >? _); [apply side_levels_set_stp|done].
Qed.

Lemma self_match_true newer older :
  self_match newer older = true <-> mode (order_stp newer) <> StpNone /\ stp_key newer = stp_key older.
Proof. unfold self_match. by rewrite andb_true_iff, !bool_decide_eq_true. Qed.

Lemma stp_left_range m qn qo nl ol :
  0 < qn <= u32_max -> 0 < qo <= u32_max -> stp_left m qn qo = (nl, ol) ->
  0 <= nl <= qn /\ 0 <= ol <= qo /\ nl + ol < qn + qo.
Proof.
  intros Hn Ho. unfold stp_left. rewrite !sub32_small by (unfold is_u32; lia).
  destruct m; intros [= <- <-]; lia.
Qed.
