(* ===== verification/Pace.v ===== *)
(** * The pace of matching

    Matching prints fills and records self-trade prevention events on the side,
    each event with the number of fills before it. [paced] says that the two
    lists together tell what happened: every unit is accounted for, the events
    come in order, and an order that ends without leaves was ended by a fill or
    a cancel, never by a restatement. *)

From S2P Require Import Prelude BTree Order OrderBook BookInvariant BookEffects Matcher Effects.

(** ** Definitions *)

(** Leaves before and after a list of fills, prevention events and cancelled
    remainders: never more is gone than was there, and all of it is accounted
    for unless the id was canceled. *)
Definition accounts (before : string -> Z) (fs : list ExecutionReport) (es : list StpEvent)
    (cs : list string) (after : string -> Z) : Prop :=
  forall id, filled_in id fs + restated_in id es + after id <= before id /\
    (canceled_in id es = false -> id ∉ cs -> filled_in id fs + restated_in id es + after id = before id).

Definition involves (id : string) (f : ExecutionReport) : Prop := buy_order_id f = id \/ sell_order_id f = id.

(** A fill moves something between two orders. *)
Definition trade_ok (f : ExecutionReport) : Prop := 0 < trade_quantity f /\ buy_order_id f <> sell_order_id f.

Definition cut_ok (e : StpEvent) : Prop := match action e with Restated c => 0 < c | Canceled => True end.

(** Ids that self-trade prevention or a cancelled remainder took out. *)
Definition gone (id : string) (es : list StpEvent) (cs : list string) : Prop := canceled_in id es = true \/ id ∈ cs.

(** The restatements of a list of events leave something, or a later fill ends
    the order, or it is canceled. *)
Definition ends_well (n : nat) (fs : list ExecutionReport) (es : list StpEvent) (cs : list string) (after : string -> Z) : Prop :=
  forall e c, e ∈ es -> action e = Restated c ->
    gone (ev_order_id e) es cs \/ 0 < after (ev_order_id e) \/
    exists i f, fs !! i = Some f /\ (before_fill e <= n + i)%nat /\ involves (ev_order_id e) f.

Record paced (n : nat) (fs : list ExecutionReport) (es : list StpEvent) (cs : list string)
    (before after : string -> Z) : Prop := {
  pc_fills : Forall trade_ok fs;
  pc_cuts : Forall cut_ok es;
  pc_sorted : StronglySorted le (before_fill <$> es);
  pc_bounds : Forall (fun e => n <= before_fill e <= n + length fs)%nat es;
  pc_accounts : accounts before fs es cs after;
  pc_live : forall id, gone id es cs -> 0 < before id;
  pc_gone : forall id, gone id es cs -> after id <= 0;
  pc_ends : ends_well n fs es cs after;
}.

(** The events that cut an order of [q] down to [left], after [n] fills. *)
Record cuts (n : nat) (id : string) (q left : Z) (es : list StpEvent) : Prop := {
  ct_events : Forall (fun e => ev_order_id e = id /\ before_fill e = n /\ cut_ok e) es;
  ct_restated : Forall (fun e => match action e with Restated _ => 0 < left | Canceled => True end) es;
  ct_left : 0 < left -> canceled_in id es = false /\ restated_in id es = q - left;
}.

Arguments pc_fills {_ _ _ _ _ _} _.
Arguments pc_cuts {_ _ _ _ _ _} _.
Arguments pc_sorted {_ _ _ _ _ _} _.
Arguments pc_bounds {_ _ _ _ _ _} _.
Arguments pc_accounts {_ _ _ _ _ _} _.
Arguments pc_live {_ _ _ _ _ _} _.
Arguments pc_gone {_ _ _ _ _ _} _.
Arguments pc_ends {_ _ _ _ _ _} _.

(** ** Sums over fills and events *)

Lemma restated_in_cons id e es : restated_in id (e :: es) = restated_in id [e] + restated_in id es.
Proof. apply (restated_in_app id [e]). Qed.

Lemma canceled_in_cons id e es : canceled_in id (e :: es) = canceled_in id [e] || canceled_in id es.
Proof. apply (canceled_in_app id [e]). Qed.

Lemma filled_in_nonneg id fs : Forall trade_ok fs -> 0 <= filled_in id fs.
Proof.
  intros H. unfold filled_in. apply sumZ_nonneg. eapply Forall_impl; [exact H|]. intros f [Hq _]. simpl. destruct (_ || _); lia.
Qed.

Lemma filled_in_pos id fs : 0 < filled_in id fs -> exists i f, fs !! i = Some f /\ involves id f.
Proof.
  unfold filled_in. induction fs as [|f fs IH]; simpl; [lia|]. intros H.
  destruct (bool_decide (buy_order_id f = id) || bool_decide (sell_order_id f = id)) eqn:E.
  - exists 0%nat, f. split; [done|]. apply orb_true_iff in E as [E|E]; propify; [by left|by right].
  - destruct IH as (i & g & Hi & Hg); [lia|]. by exists (S i), g.
Qed.

Lemma restated_in_nonneg id es : Forall cut_ok es -> 0 <= restated_in id es.
Proof.
  intros H. unfold restated_in. apply sumZ_nonneg. eapply Forall_impl; [exact H|]. intros e He. unfold cut_ok in He. simpl.
  case_bool_decide; [|lia]. destruct (action e); lia.
Qed.

Lemma restated_in_pos id es : 0 < restated_in id es -> exists e c, e ∈ es /\ action e = Restated c /\ ev_order_id e = id.
Proof.
  induction es as [|e es IH]; [done|]. rewrite restated_in_cons. intros H.
  destruct (Z.lt_ge_cases 0 (restated_in id [e])) as [H1|H1].
  - unfold restated_in in H1. simpl in H1. case_bool_decide; [|lia]. destruct (action e) as [|c] eqn:E; [lia|]. exists e, c. split; [left|done].
  - destruct IH as (e' & c & He & Ha & Hid); [lia|]. exists e', c. split; [by right|done].
Qed.

Lemma gone_app id es1 es2 cs1 cs2 : gone id (es1 ++ es2) (cs1 ++ cs2) <-> gone id es1 cs1 \/ gone id es2 cs2.
Proof. unfold gone. rewrite canceled_in_app, orb_true_iff, elem_of_app. tauto. Qed.

(** ** Accounting *)

Lemma accounts_trans f0 fs1 es1 cs1 f1 fs2 es2 cs2 f2 :
  accounts f0 fs1 es1 cs1 f1 -> accounts f1 fs2 es2 cs2 f2 ->
  accounts f0 (fs1 ++ fs2) (es1 ++ es2) (cs1 ++ cs2) f2.
Proof.
  intros H1 H2 id. destruct (H1 id) as [L1 E1], (H2 id) as [L2 E2].
  rewrite filled_in_app, restated_in_app, canceled_in_app. split; [lia|].
  intros [N1 N2]%orb_false_iff Hcs. specialize (E1 N1 ltac:(set_solver)). specialize (E2 N2 ltac:(set_solver)). lia.
Qed.

Lemma accounts_refl f : accounts f [] [] [] f.
Proof. intros id. simpl. split; [lia|done]. Qed.

(** The accounting of an effect on the book. *)
Lemma effect_accounts det b fs es us sus det' b' :
  effect (fun _ => True) det b fs es us sus det' b' ->
  accounts (qty b) fs es [] (qty b') /\ (forall id, gone id es [] -> qty b' id <= 0).
Proof.
  intros E. split.
  - intros id. split; [by apply (eff_qty_le E)|intros Hn _; by apply (eff_qty E)].
  - intros id [Hc|Hc]; [|by apply not_elem_of_nil in Hc]. unfold qty. by rewrite (eff_canceled E id I Hc).
Qed.

(** ** Pacing *)

Lemma ends_well_trans n fs1 es1 cs1 f1 fs2 es2 cs2 f2 :
  ends_well n fs1 es1 cs1 f1 -> ends_well (n + length fs1) fs2 es2 cs2 f2 -> accounts f1 fs2 es2 cs2 f2 ->
  Forall (fun e => before_fill e <= n + length fs1)%nat es1 ->
  ends_well n (fs1 ++ fs2) (es1 ++ es2) (cs1 ++ cs2) f2.
Proof.
  intros H1 H2 Hacc Hb.
  assert (forall id k, 0 < f1 id -> (k <= n + length fs1)%nat ->
    gone id es2 cs2 \/ 0 < f2 id \/ exists i f, fs2 !! i = Some f /\ (k <= n + length fs1 + i)%nat /\ involves id f) as Hlate.
  { intros id k Hpos Hk. destruct (Hacc id) as [_ Heq]. destruct (canceled_in id es2) eqn:Hc; [by left; left|].
    destruct (decide (id ∈ cs2)) as [Hin|Hin]; [by left; right|]. specialize (Heq eq_refl Hin).
    destruct (Z.lt_ge_cases 0 (f2 id)) as [|Hz]; [by right; left|].
    destruct (Z.lt_ge_cases 0 (filled_in id fs2)) as [Hf|Hf].
    - apply filled_in_pos in Hf as (i & f & Hi & Hinv). right; right. exists i, f. split_and!; [done|lia|done].
    - destruct (restated_in_pos id es2) as (e & c & He & Ha & <-); [lia|].
      destruct (H2 e c He Ha) as [?|[?|(i & f & Hi & _ & Hinv)]]; [by left|by right; left|]. right; right. exists i, f. split_and!; [done|lia|done]. }
  intros e c He Ha. rewrite gone_app. apply elem_of_app in He as [He|He].
  - destruct (H1 e c He Ha) as [?|[Hp|(i & f & Hi & Hk & Hinv)]]; [by left; left| |].
    + rewrite Forall_forall in Hb. destruct (Hlate _ _ Hp (Hb e He)) as [?|[?|(i & f & Hi & Hk & Hinv)]]; [by left; right|by right; left|].
      right; right. exists (length fs1 + i)%nat, f. split_and!; [by rewrite lookup_app_r, Nat.add_comm, Nat.add_sub by lia|lia|done].
    + right; right. exists i, f. split_and!; [by apply lookup_app_l_Some|done|done].
  - destruct (H2 e c He Ha) as [?|[?|(i & f & Hi & Hk & Hinv)]]; [by left; right|by right; left|].
    right; right. exists (length fs1 + i)%nat, f. split_and!; [by rewrite lookup_app_r, Nat.add_comm, Nat.add_sub by lia|lia|done].
Qed.

Lemma paced_trans n fs1 es1 cs1 f0 f1 fs2 es2 cs2 f2 :
  paced n fs1 es1 cs1 f0 f1 -> paced (n + length fs1) fs2 es2 cs2 f1 f2 ->
  paced n (fs1 ++ fs2) (es1 ++ es2) (cs1 ++ cs2) f0 f2.
Proof.
  intros [F1 C1 S1 B1 A1 L1 G1 E1] [F2 C2 S2 B2 A2 L2 G2 E2]. split.
  - by apply Forall_app.
  - by apply Forall_app.
  - rewrite fmap_app. apply StronglySorted_app. split_and!; [|done|done].
    intros x y Hx Hy. apply list_elem_of_fmap in Hx as (a & -> & Ha). apply list_elem_of_fmap in Hy as (b & -> & Hb).
    rewrite Forall_forall in B1, B2. specialize (B1 a Ha). specialize (B2 b Hb). lia.
  - rewrite length_app. apply Forall_app. split; (eapply Forall_impl; [eassumption|]); intros e He; simpl in He; lia.
  - by eapply accounts_trans.
  - intros id. rewrite gone_app. intros [H|H]; [by apply L1|]. specialize (L2 id H). destruct (A1 id) as [L _].
    pose proof (filled_in_nonneg id _ F1). pose proof (restated_in_nonneg id _ C1). lia.
  - intros id. rewrite gone_app. intros [H|H]; [|by apply G2]. specialize (G1 id H). destruct (A2 id) as [L _].
    pose proof (filled_in_nonneg id _ F2). pose proof (restated_in_nonneg id _ C2). lia.
  - eapply ends_well_trans; [done|done|done|]. eapply Forall_impl; [exact B1|]. simpl. lia.
Qed.

Lemma paced_refl n f : paced n [] [] [] f f.
Proof.
  split; try (constructor; fail); [apply accounts_refl| | |].
  - intros id [H|H]; [done|by apply not_elem_of_nil in H].
  - intros id [H|H]; [done|by apply not_elem_of_nil in H].
  - intros e c He. by apply not_elem_of_nil in He.
Qed.

(** A step that only trades. *)
Lemma paced_fill n f before after :
  trade_ok f -> (forall id, filled_in id [f] + after id = before id) -> paced n [f] [] [] before after.
Proof.
  intros Hf Hacc. split; try (constructor; fail); [by constructor| | | |].
  - intros id. rewrite restated_in_nil. specialize (Hacc id). split; [lia|intros; lia].
  - intros id [H|H]; [done|by apply not_elem_of_nil in H].
  - intros id [H|H]; [done|by apply not_elem_of_nil in H].
  - intros e c He. by apply not_elem_of_nil in He.
Qed.

(** A step that only prevents, after [n] fills: what it restates stays live. *)
Lemma paced_prevent n es before after :
  Forall (fun e => before_fill e = n) es -> Forall cut_ok es -> accounts before [] es [] after ->
  (forall id, gone id es [] -> 0 < before id) -> (forall id, gone id es [] -> after id <= 0) ->
  Forall (fun e => match action e with Restated _ => canceled_in (ev_order_id e) es = true \/ 0 < after (ev_order_id e) | Canceled => True end) es ->
  paced n [] es [] before after.
Proof.
  intros Hn Hc Ha Hb Hg Hp. split; [constructor|done| | |done|done|done|].
  - clear -Hn. induction Hn as [|e es He Hn IH]; [constructor|]. rewrite fmap_cons. constructor; [done|].
    apply Forall_fmap. eapply Forall_impl; [exact Hn|]. intros e' He'. simpl in *. lia.
  - eapply Forall_impl; [exact Hn|]. intros e He. simpl in *. lia.
  - intros e c He Hact. rewrite Forall_forall in Hp. specialize (Hp e He). rewrite Hact in Hp.
    destruct Hp as [?|?]; [by left; left|by right; left].
Qed.

Lemma accounts_ext before before' fs es cs after after' :
  (forall id, before id = before' id) -> (forall id, after id = after' id) ->
  accounts before fs es cs after -> accounts before' fs es cs after'.
Proof. intros H1 H2 H id. rewrite <- H1, <- H2. apply H. Qed.

Lemma paced_ext n fs es cs before before' after after' :
  (forall id, before id = before' id) -> (forall id, after id = after' id) ->
  paced n fs es cs before after -> paced n fs es cs before' after'.
Proof.
  intros H1 H2 [F C S B A L G E]. split; try done.
  - by eapply accounts_ext.
  - intros id Hid. rewrite <- H1. by apply L.
  - intros id Hid. rewrite <- H2. by apply G.
  - intros e c He Ha. rewrite <- H2. by apply (E e c).
Qed.

(** Leaves of ids that take no part ride along. *)
Lemma paced_frame n fs es cs before after g :
  (forall id, 0 <= g id) -> (forall id, 0 < before id -> g id = 0) ->
  paced n fs es cs before after -> paced n fs es cs (fun id => before id + g id) (fun id => after id + g id).
Proof.
  intros Hg Hz [F C S B A L G E]. split; try done.
  - intros id. destruct (A id) as [Q0 Q]. split; [lia|]. intros Hn Hc. specialize (Q Hn Hc). lia.
  - intros id Hid. specialize (L id Hid). specialize (Hg id). lia.
  - intros id Hid. rewrite (Hz id) by auto. specialize (G id Hid). lia.
  - intros e c He Ha. specialize (Hg (ev_order_id e)). destruct (E e c He Ha) as [?|[?|?]]; [by left|right; left; lia|by right; right].
Qed.

(** Cancelling what is left of one id. *)
Lemma paced_cancel n fs es id before after after' :
  paced n fs es [] before after -> (forall i, i <> id -> after' i = after i) -> after' id = 0 -> 0 < after id ->
  paced n fs es [id] before after'.
Proof.
  intros [F C S B A Lv G E] Ho Hz Hp. split; try done.
  - intros i. destruct (A i) as [L Q]. destruct (decide (i = id)) as [->|Hi].
    + split; [lia|]. intros _ H. exfalso. apply H. by left.
    + rewrite (Ho i Hi). split; [done|]. intros Hn _. apply Q; [done|by apply not_elem_of_nil].
  - intros i [H|H].
    + apply Lv. by left.
    + apply list_elem_of_singleton in H as ->. destruct (A id) as [L _]. pose proof (filled_in_nonneg id _ F). pose proof (restated_in_nonneg id _ C). lia.
  - intros i [H|H].
    + destruct (decide (i = id)) as [->|Hi]; [lia|]. rewrite (Ho i Hi). apply G. by left.
    + apply list_elem_of_singleton in H as ->. lia.
  - intros e c He Ha. destruct (decide (ev_order_id e = id)) as [<-|Hi]; [left; right; by left|].
    destruct (E e c He Ha) as [[H|H]|[H|H]].
    + by left; left.
    + by apply not_elem_of_nil in H.
    + right; left. by rewrite Ho.
    + by right; right.
Qed.

(** ** Cuts *)

Lemma cuts_other n id q left es i : cuts n id q left es -> i <> id -> canceled_in i es = false /\ restated_in i es = 0.
Proof.
  intros [H _ _] Hi. induction H as [|e es (He & _ & _) _ IH]; [done|]. rewrite canceled_in_cons, restated_in_cons.
  destruct IH as [-> ->]. unfold canceled_in, restated_in. simpl. by rewrite bool_decide_false by congruence.
Qed.

Lemma reduce_events_cuts m old_id new_id n o left :
  0 <= left <= quantity o -> cuts n (order_id o) (quantity o) left (reduce_events m old_id new_id n o left).
Proof.
  intros Hl. unfold reduce_events. destruct (Z.eqb_spec (quantity o - left) 0) as [E|E].
  { split; [constructor..|]. intros _. split; [done|]. rewrite restated_in_nil. lia. }
  split; [apply Forall_singleton| |].
  - split_and!; [done|done|]. unfold cut_ok, stp_action. simpl. destruct (left =? 0); [done|lia].
  - apply Forall_singleton. unfold stp_action. simpl. destruct (Z.eqb_spec left 0); [done|lia].
  - intros Hp. unfold canceled_in, restated_in, stp_action. simpl. rewrite bool_decide_true by done.
    destruct (Z.eqb_spec left 0); [lia|]. simpl. split; [done|lia].
Qed.

(** A prevented self-match: both orders are cut. *)
Lemma paced_cuts n id1 q1 l1 es1 id2 q2 l2 es2 before after :
  cuts n id1 q1 l1 es1 -> cuts n id2 q2 l2 es2 -> id1 <> id2 -> before id1 = q1 -> before id2 = q2 -> 0 < q1 -> 0 < q2 ->
  accounts before [] (es1 ++ es2) [] after -> (forall id, gone id (es1 ++ es2) [] -> after id <= 0) ->
  paced n [] (es1 ++ es2) [] before after.
Proof.
  intros H1 H2 Hne B1 B2 P1 P2 Ha Hg.
  assert (forall id l es es', cuts n id (before id) l es -> canceled_in id es' = false /\ restated_in id es' = 0 ->
    (forall i, canceled_in i (es1 ++ es2) = canceled_in i es || canceled_in i es') -> (forall i, restated_in i (es1 ++ es2) = restated_in i es + restated_in i es') ->
    Forall (fun e => match action e with Restated _ => canceled_in (ev_order_id e) (es1 ++ es2) = true \/ 0 < after (ev_order_id e) | Canceled => True end) es) as Hside.
  { intros id l es es' [E R L] [C0 R0] HC HR. apply Forall_forall. intros e He. rewrite Forall_forall in E, R.
    destruct (E e He) as (-> & _ & _). specialize (R e He). destruct (action e) as [|c]; [done|]. right.
    destruct (L R) as [Lc Lr]. destruct (Ha id) as [_ Heq]. rewrite HC, HR, Lc, C0, Lr, R0 in Heq.
    specialize (Heq eq_refl (not_elem_of_nil _)). simpl in Heq. lia. }
  apply paced_prevent; [| |done| |done|].
  - apply Forall_app. split; [eapply Forall_impl; [exact (ct_events _ _ _ _ _ H1)|]|eapply Forall_impl; [exact (ct_events _ _ _ _ _ H2)|]]; by intros e (_ & ? & _).
  - apply Forall_app. split; [eapply Forall_impl; [exact (ct_events _ _ _ _ _ H1)|]|eapply Forall_impl; [exact (ct_events _ _ _ _ _ H2)|]]; by intros e (_ & _ & ?).
  - intros id [Hc|Hc]; [|by apply not_elem_of_nil in Hc]. rewrite canceled_in_app in Hc.
    destruct (decide (id = id1)) as [->|N1]; [lia|]. destruct (decide (id = id2)) as [->|N2]; [lia|].
    by rewrite (proj1 (cuts_other _ _ _ _ _ _ H1 N1)), (proj1 (cuts_other _ _ _ _ _ _ H2 N2)) in Hc.
  - apply Forall_app. split.
    + apply (Hside id1 l1 es1 es2); [by subst q1|by apply (cuts_other _ _ _ _ _ id1 H2)|intros; apply canceled_in_app|intros; apply restated_in_app].
    + apply (Hside id2 l2 es2 es1); [by subst q2|by apply (cuts_other _ _ _ _ _ id2 H1); congruence| |].
      * intros. rewrite canceled_in_app. apply orb_comm.
      * intros. rewrite restated_in_app. lia.
Qed.

(** Leaves only go down. *)
Lemma paced_le n fs es cs before after id : paced n fs es cs before after -> filled_in id fs + after id <= before id /\ 0 <= filled_in id fs.
Proof.
  intros H. destruct (pc_accounts H id) as [Ha _]. pose proof (restated_in_nonneg id _ (pc_cuts H)).
  pose proof (filled_in_nonneg id _ (pc_fills H)). lia.
Qed.
