(* ===== verification/MatchOrders.v ===== *)
(** * Crossing the book: [match_orders]

    Every iteration of the crossing loop either prints one fill or prevents one
    self-match; both are effects on the book ([Effects]). The loop is a chain of
    them: it terminates, uncrosses the book, and accounts for every unit of
    every order and for every displayed unit of every level. *)

From S2P Require Import Prelude BTree Order OrderBook BookInvariant Samples BookEffects Matcher Effects Pace.

(** ** Definitions *)

(** The report [match_fill] appends. *)
Definition cross_report (bid_newer : bool) (bid_price ask_price : Z) (bid ask : Order) (q : Z)
    : ExecutionReport :=
  {| buy_order_id := order_id bid; sell_order_id := order_id ask;
     trade_price := if bid_newer then ask_price else bid_price;
     trade_quantity := q;
     aggressor_side := if bid_newer then Buy else Sell;
     buy_fully_filled := quantity bid - q =? 0; sell_fully_filled := quantity ask - q =? 0 |}.

(** Best bid below best offer, or a side without orders. *)
Definition uncrossed (b : OrderBook) : Prop :=
  forall bp ap, bt_last (buy_orders b) = Some bp -> bt_first (sell_orders b) = Some ap -> bp < ap.

(** A fill between two live orders of a book: a buy and a sell, both within
    their limits, at the resting side's price, for a positive quantity, and not
    a self-match that its aggressor's mode prevents. *)
Definition fill_ok (b : OrderBook) (f : ExecutionReport) : Prop :=
  exists bid ask, order_lookup b !! buy_order_id f = Some bid /\
    order_lookup b !! sell_order_id f = Some ask /\
    side bid = Buy /\ side ask = Sell /\
    price ask <= trade_price f <= price bid /\
    trade_price f = match aggressor_side f with Buy => price ask | Sell => price bid end /\
    0 < trade_quantity f /\
    match aggressor_side f with
    | Buy => self_match bid ask = false
    | Sell => self_match ask bid = false
    end.

(** A self-trade prevention event about two live orders of opposite sides with
    one key, under a mode of one of them that prevents. *)
Definition event_ok (b : OrderBook) (e : StpEvent) : Prop :=
  exists o opp, order_lookup b !! ev_order_id e = Some o /\
    order_lookup b !! opposing_order e = Some opp /\
    side o = opposite (side opp) /\ stp_key o = stp_key opp /\ ev_mode e <> StpNone /\
    (ev_mode e = mode (order_stp o) \/ ev_mode e = mode (order_stp opp)).

Definition all_ids (_ : string) : Prop := True.

Lemma pair_ids (x y : Order) det b : book_inv (x :: y :: det) b -> order_id x <> order_id y.
Proof.
  intros Hinv Heq. apply (inv_tail_ids _ _ _ Hinv y); [|by symmetry]. simpl. left.
Qed.

(** ** Both orders of a detached pair *)

Section pair.
Context (x y : Order) (qx qy : Z).
Context (Hxy : order_id x <> order_id y).

(** Both reduced by the same trade. *)
Lemma sync_pair t vx vy b b1 b2 :
  book_inv [x; y] b ->
  b1 = sync_visible_fill (with_quantity qx x) t vx b ->
  b2 = sync_visible_fill (with_quantity qy y) t vy b1 ->
  0 <= qx -> 0 <= qy -> 0 <= t -> qx + t <= quantity x -> qy + t <= quantity y ->
  0 <= vx <= qx -> 0 <= vy <= qy ->
  (display_quantity x = 0 -> vx = qx) -> (display_quantity y = 0 -> vy = qy) ->
  book_inv (live_list qx x ++ live_list qy y) b2 /\
  (forall s p, depth (live_list qx x ++ live_list qy y) b2 s p =
     depth [x; y] b s p - (if at_level s p x then visible b x - vx else 0)
                        - (if at_level s p y then visible b y - vy else 0)) /\
  (forall id, qty b2 id = if bool_decide (id = order_id x) then qx
                          else if bool_decide (id = order_id y) then qy else qty b id) /\
  lineage b b2 /\
  sumZ quantity ((live_list qx x ++ live_list qy y) ++ orders b2) =
    sumZ quantity (x :: y :: orders b) - (quantity x - qx) - (quantity y - qy) /\
  book_stp b2 = book_stp b /\ last_added b2 = last_added b /\
  (forall id, is_Some (order_lookup b2 !! id) ->
     banked b2 id = banked b id + if bool_decide (id = order_id x) || bool_decide (id = order_id y) then t else 0).
Proof using Hxy.
  intros I0 E1 E2 Hx Hy Ht Hxt Hyt Hvx Hvy Hfx Hfy.
  assert (book_inv (live_list qx x ++ [y]) b1) as I1 by (subst b1; by apply sync_inv).
  assert (live_list qx x ++ [y] ≡ₚ y :: live_list qx x) as P1 by solve_Permutation.
  rewrite P1 in I1.
  assert (book_inv (live_list qy y ++ live_list qx x) b2) as I2 by (subst b2; by apply sync_inv).
  assert (live_list qy y ++ live_list qx x ≡ₚ live_list qx x ++ live_list qy y) as P2 by solve_Permutation.
  assert (visible b1 y = visible b y) as Hvis by (subst b1; apply visible_sync_other; congruence).
  destruct (sync_frame (with_quantity qx x) t vx b) as (F1a & _ & F1b & _).
  destruct (sync_frame (with_quantity qy y) t vy b1) as (F2a & _ & F2b & _).
  split_and!.
  - by rewrite <- P2.
  - intros s p. rewrite <- P2, E2, (depth_sync (live_list qx x)), <- P1, Hvis by (done || lia).
    rewrite E1, (depth_sync [y]) by (done || lia). lia.
  - intros id. rewrite E2, (qty_sync (live_list qx x)), E1, (qty_sync [y]) by (by subst).
    repeat case_bool_decide; congruence.
  - apply (lineage_trans _ b1); [subst b1; by apply (lineage_sync [y])|].
    subst b2. by apply (lineage_sync (live_list qx x)).
  - rewrite <- P2, E2, total_sync. simpl app. rewrite app_comm_cons, <- P1, E1, total_sync.
    simpl. lia.
  - congruence.
  - congruence.
  - intros id Hid. rewrite E2 in Hid |- *. rewrite (banked_sync (live_list qx x)) by done. destruct Hid as [o Ho].
    destruct (lineage_sync _ _ _ _ _ _ I1 _ _ Ho) as (o1 & Ho1 & _).
    rewrite E1 in Ho1 |- *. rewrite (banked_sync [y]) by (done || by eexists).
    repeat case_bool_decide; simpl; (congruence || lia).
Qed.

(** Both slices replenished. *)
Lemma replenish_pair b mx b1 my b2 :
  book_inv (live_list qx x ++ live_list qy y) b ->
  replenish (with_quantity qx x) b = (mx, b1) -> replenish (with_quantity qy y) b1 = (my, b2) ->
  book_inv (live_list qx x ++ live_list qy y) b2 /\ order_lookup b2 = order_lookup b /\
  (qx <> 0 -> 0 < visible b2 (with_quantity qx x)) /\
  (qy <> 0 -> 0 < visible b2 (with_quantity qy y)) /\
  (forall s p, depth (live_list qx x ++ live_list qy y) b2 s p =
     depth (live_list qx x ++ live_list qy y) b s p
     + changes_at s p (option_list mx ++ option_list my)) /\
  book_stp b2 = book_stp b /\ last_added b2 = last_added b /\ cum_filled b2 = cum_filled b.
Proof using Hxy.
  intros I0 R1 R2.
  destruct (replenish_live _ _ _ _ _ _ I0 R1) as (I1 & L1 & V1 & _ & D1 & _ & S1 & _ & A1 & _ & C1).
  assert (live_list qy y ++ live_list qx x ≡ₚ live_list qx x ++ live_list qy y) as P by solve_Permutation.
  rewrite <- P in I1.
  destruct (replenish_live _ _ _ _ _ _ I1 R2) as (I2 & L2 & V2 & O2 & D2 & _ & S2 & _ & A2 & _ & C2).
  rewrite P in I2. split_and!; [done|congruence| |done| |congruence..].
  - intros E. rewrite (O2 (with_quantity qx x)) by done. by apply V1.
  - intros s p. rewrite <- P, D2, P, D1, changes_at_app. lia.
Qed.

(** Both put back into their levels. *)
Lemma requeue_pair b kx ky :
  book_inv (live_list qx x ++ live_list qy y) b ->
  (qx <> 0 -> 0 < visible b (with_quantity qx x)) ->
  (qy <> 0 -> 0 < visible b (with_quantity qy y)) ->
  let b' := requeue (with_quantity qy y) ky (requeue (with_quantity qx x) kx b) in
  wf_book b' /\ order_lookup b' = order_lookup b /\ displayed b' = displayed b /\
  book_stp b' = book_stp b /\ last_added b' = last_added b /\ cum_filled b' = cum_filled b.
Proof using Type.
  intros I0 Vx Vy. cbv zeta.
  destruct (requeue_frame (with_quantity qx x) kx b) as (L1 & P1 & _ & S1 & _ & A1 & _ & C1).
  pose proof (requeue_live _ _ _ kx _ I0 Vx) as I1.
  set (b1 := requeue (with_quantity qx x) kx b) in *.
  destruct (requeue_frame (with_quantity qy y) ky b1) as (L2 & P2 & _ & S2 & _ & A2 & _ & C2).
  split_and!; [|congruence..].
  apply requeue_live; [by rewrite app_nil_r|]. by rewrite (visible_displayed b).
Qed.

End pair.

(** ** A fill of a detached pair *)

Section fill.
Context (bn : bool) (bp ap : Z) (bid ask : Order) (st : MatchState).
Context (Hinv : book_inv [bid; ask] (ms_book st)).
Context (Hbv : 0 < visible (ms_book st) bid) (Hav : 0 < visible (ms_book st) ask).

Lemma match_fill_spec :
  let b := ms_book st in
  let q := Z.min (visible b bid) (visible b ask) in
  let st' := match_fill bn bp ap bid ask st in
  wf_book (ms_book st') /\
  ms_fills st' = ms_fills st ++ [cross_report bn bp ap bid ask q] /\
  (exists us, ms_updates st' = ms_updates st ++ us /\
     forall s p, depth [] (ms_book st') s p = depth [bid; ask] b s p + changes_at s p us) /\
  (forall id, qty (ms_book st') id =
     if bool_decide (id = order_id bid) then quantity bid - q
     else if bool_decide (id = order_id ask) then quantity ask - q else qty b id) /\
  lineage b (ms_book st') /\
  sumZ quantity (orders (ms_book st')) = sumZ quantity (bid :: ask :: orders b) - 2 * q /\
  book_stp (ms_book st') = book_stp b /\ last_added (ms_book st') = last_added b /\
  (forall id, is_Some (order_lookup (ms_book st') !! id) ->
     banked (ms_book st') id = banked b id + if bool_decide (id = order_id bid) || bool_decide (id = order_id ask) then q else 0).
Proof using Hinv Hbv Hav.
  intros b q. pose proof (pair_ids _ _ _ _ Hinv) as Hab.
  pose proof (inv_order_ok _ _ bid Hinv ltac:(left)) as [Hbq Hbd].
  pose proof (inv_order_ok _ _ ask Hinv ltac:(right; left)) as [Haq Had].
  pose proof (inv_slice_ok _ _ bid Hinv ltac:(left)) as [Hbs Hbf].
  pose proof (inv_slice_ok _ _ ask Hinv ltac:(right; left)) as [Has Haf].
  fold b in Hinv, Hbs, Hbf, Has, Haf, Hbv, Hav.
  assert (0 < q /\ q <= visible b bid /\ q <= visible b ask) as (Hq & Hqb & Hqa) by (unfold q; lia).
  unfold match_fill. fold b q.
  rewrite (sub32_small (quantity bid)), (sub32_small (quantity ask)),
    (sub32_small (visible b bid)), (sub32_small (visible b ask)) by (unfold is_u32; lia).
  set (bid' := with_quantity (quantity bid - q) bid). set (ask' := with_quantity (quantity ask - q) ask).
  set (b1 := sync_visible_fill bid' q (visible b bid - q) b).
  set (b2 := sync_visible_fill ask' q (visible b ask - q) b1).
  destruct (sync_pair bid ask (quantity bid - q) (quantity ask - q) Hab q (visible b bid - q)
    (visible b ask - q) b b1 b2) as (I2 & D2 & Q2 & G2 & T2 & S2 & A2 & C2); try done; try lia.
  destruct (replenish bid' b2) as [mdb b3] eqn:R3. destruct (replenish ask' b3) as [mda b4] eqn:R4.
  destruct (replenish_pair _ _ _ _ Hab _ _ _ _ _ I2 R3 R4) as (I4 & L4 & Vb & Va & D4 & S4 & A4 & C4).
  rewrite length_app, Nat.add_sub. simpl length.
  destruct (log_refresh_frame (length (ms_fills st)) mdb bid' b4) as (L5 & P5 & I5 & S5 & A5 & _ & _ & C5).
  set (b5 := log_refresh (length (ms_fills st)) mdb bid' b4) in *.
  destruct (log_refresh_frame (length (ms_fills st)) mda ask' b5) as (L6 & P6 & I6 & S6 & A6 & _ & _ & C6).
  set (b6 := log_refresh (length (ms_fills st)) mda ask' b5) in *.
  assert (visible b6 = visible b4) as V6 by (apply visible_displayed; congruence).
  rewrite <- V6 in Vb, Va. pose proof (I6 _ (I5 _ I4)) as I6'.
  destruct (requeue_pair bid ask _ _ b6 (bool_decide (is_Some mdb)) (bool_decide (is_Some mda)) I6' Vb Va)
    as (I8 & L8 & P8 & S8 & A8 & C8).
  fold bid' ask' in I8, L8, P8, S8, A8, C8. set (b8 := requeue ask' _ _) in *. simpl.
  assert (order_lookup b8 = order_lookup b2) as L82 by congruence.
  split_and!; [exact I8|done| | | | |congruence|congruence|].
  - eexists. split; [by rewrite <- app_assoc|]. intros s p.
    rewrite (depth_move _ _ b4 b8 s p I4 I8), D4, D2 by congruence.
    rewrite !changes_at_app, (changes_at_cons s p (generate_incremental_update _ _ _ _ _)).
    rewrite !changes_at_single. unfold at_level, bid', ask'. simpl.
    destruct (bool_decide (side bid = s) && (price bid =? p)), (bool_decide (side ask = s) && (price ask =? p)); lia.
  - intros id. rewrite <- Q2. unfold qty. by rewrite L82.
  - eapply lineage_trans; [done|]. by apply lineage_same.
  - pose proof (total_move _ _ _ _ I2 I8 L82) as T. simpl app in T. simpl in T2 |- *. lia.
  - intros id. rewrite L82. intros Hid. rewrite <- (C2 id Hid). unfold banked. by replace (cum_filled b8) with (cum_filled b2) by congruence.
Qed.

End fill.

(** ** A prevented self-match of a detached pair *)

(** Both orders of a prevented self-match are cut, the older first. *)
Lemma stp_pair_effect P m n (older newer : Order) nl ol b o1 b1 o2 b2 :
  book_inv [older; newer] b -> 0 < visible b older -> 0 < visible b newer ->
  stp_left m (quantity newer) (quantity older) = (nl, ol) ->
  stp_reduce m (order_id older) (order_id newer) n older ol b = (o1, b1) ->
  stp_reduce m (order_id older) (order_id newer) n newer nl b1 = (o2, b2) ->
  o1 = with_quantity ol older /\ o2 = with_quantity nl newer /\
  (exists sus, effect P [older; newer] b []
     (reduce_events m (order_id older) (order_id newer) n older ol ++
      reduce_events m (order_id older) (order_id newer) n newer nl) [] sus
     (live_list ol older ++ live_list nl newer) b2) /\
  (ol <> 0 -> 0 < visible b2 (with_quantity ol older)) /\
  (nl <> 0 -> 0 < visible b2 (with_quantity nl newer)) /\
  sumZ quantity ((live_list ol older ++ live_list nl newer) ++ orders b2) <
  sumZ quantity (older :: newer :: orders b).
Proof.
  intros I0 Vo Vn Hl R1 R2. pose proof (pair_ids _ _ _ _ I0) as Hne.
  destruct (inv_order_ok _ _ older I0 ltac:(left)) as [Hqo _].
  destruct (inv_order_ok _ _ newer I0 ltac:(right; left)) as [Hqn _].
  destruct (stp_left_range _ _ _ _ _ Hqn Hqo Hl) as (Hnl & Hol & Hlt).
  assert (o1 = with_quantity ol older) as -> by (rewrite (stp_reduce_eq _ _ _ _ _ _ [newer]) in R1; by simplify_eq).
  destruct (stp_reduce_effect P _ _ _ _ _ _ _ _ I0 Hol _ R1) as (s1 & E1 & T1 & V1 & O1).
  assert (live_list ol older ++ [newer] ≡ₚ newer :: live_list ol older) as P1 by solve_Permutation.
  rewrite P1 in E1. pose proof (eff_inv E1) as I1.
  assert (o2 = with_quantity nl newer) as -> by (rewrite (stp_reduce_eq _ _ _ _ _ _ _ _ I1) in R2; by simplify_eq).
  destruct (stp_reduce_effect P _ _ _ _ _ _ _ _ I1 Hnl _ R2) as (s2 & E2 & T2 & V2 & O2).
  assert (live_list nl newer ++ live_list ol older ≡ₚ live_list ol older ++ live_list nl newer) as P2 by solve_Permutation.
  split_and!; [done|done| | | |].
  - exists (s1 ++ s2). rewrite <- P2. by apply (effect_trans E1 E2).
  - intros Hz. rewrite (O2 (with_quantity ol older)) by done. by apply V1.
  - intros Hz. apply V2; [|done]. by rewrite O1.
  - rewrite <- P2, T2, <- P1, T1. simpl. lia.
Qed.

(** The events of a prevented self-match between [newer] and [older]. *)
Definition stp_events (n : nat) (newer older : Order) : list StpEvent :=
  let m := mode (order_stp newer) in
  let '(nl, ol) := stp_left m (quantity newer) (quantity older) in
  reduce_events m (order_id older) (order_id newer) n older ol ++
  reduce_events m (order_id older) (order_id newer) n newer nl.

Lemma match_stp_spec P (bn : bool) bid ask st :
  let b := ms_book st in
  let newer := if bn then bid else ask in
  let older := if bn then ask else bid in
  let st' := match_stp bn bid ask st in
  book_inv [bid; ask] b -> 0 < visible b bid -> 0 < visible b ask ->
  ms_fills st' = ms_fills st /\ ms_updates st' = ms_updates st /\
  (exists sus, effect P [bid; ask] b [] (stp_events (length (ms_fills st)) newer older) [] sus [] (ms_book st')) /\
  sumZ quantity (orders (ms_book st')) < sumZ quantity (bid :: ask :: orders b).
Proof.
  intros b newer older st' I0 Vb Va. unfold st', match_stp. fold b.
  assert ((if bn then (bid, ask) else (ask, bid)) = (newer, older)) as -> by (by destruct bn).
  assert (book_inv [older; newer] b) as I0'.
  { eapply book_inv_Permutation; [|done|exact I0]. unfold older, newer. destruct bn; solve_Permutation. }
  unfold stp_events. destruct (stp_left _ _ _) as [nl ol] eqn:Hl.
  destruct (stp_reduce _ _ _ _ older ol b) as [o1 b1] eqn:R1.
  destruct (stp_reduce _ _ _ _ newer nl b1) as [o2 b2] eqn:R2.
  assert (0 < visible b older /\ 0 < visible b newer) as [Vo Vn] by (by destruct bn).
  destruct (stp_pair_effect P _ _ _ _ _ _ _ _ _ _ _ I0' Vo Vn Hl R1 R2)
    as (-> & -> & [sus E2] & Vo2 & Vn2 & T).
  pose proof (eff_inv E2) as I2.
  assert (exists b3, (let '(bid, ask) := if bn then (with_quantity nl newer, with_quantity ol older)
                                        else (with_quantity ol older, with_quantity nl newer) in
                     requeue ask false (requeue bid false b2)) = b3 /\
    wf_book b3 /\ order_lookup b3 = order_lookup b2 /\ displayed b3 = displayed b2 /\
    book_stp b3 = book_stp b2 /\ last_added b3 = last_added b2 /\ cum_filled b3 = cum_filled b2) as (b3 & Hb3 & I3 & L3 & D3 & S3 & A3 & C3).
  { eexists. split; [done|]. destruct bn; apply requeue_pair; try done. by rewrite Permutation_app_comm. }
  assert (effect P [older; newer] b [] (reduce_events (mode (order_stp newer)) (order_id older) (order_id newer) (length (ms_fills st)) older ol ++
   reduce_events (mode (order_stp newer)) (order_id older) (order_id newer) (length (ms_fills st)) newer nl) [] sus [] b3) as E3.
  { pose proof (effect_trans E2 (effect_move P _ _ _ _ I2 I3 L3 D3 S3 A3 C3)) as E3.
    by rewrite !app_nil_r in E3. }
  pose proof (total_move _ _ _ _ I2 I3 L3) as T3. rewrite <- T3 in T.
  assert ([older; newer] ≡ₚ [bid; ask]) as Pn by (unfold older, newer; destruct bn; solve_Permutation).
  rewrite Pn in E3.
  destruct bn; simpl in Hb3 |- *; rewrite Hb3; split_and!; eauto;
    unfold older, newer in T; simpl in T; lia.
Qed.

(** ** One iteration *)

Lemma fill_ok_lineage b b1 f : lineage b b1 -> fill_ok b1 f -> fill_ok b f.
Proof.
  intros Hl (bid & ask & Hb & Ha & H).
  destruct (Hl _ _ Hb) as (bid0 & Hb0 & Eb), (Hl _ _ Ha) as (ask0 & Ha0 & Ea).
  exists bid0, ask0. split; [done|]. split; [done|]. by rewrite Eb, Ea in H.
Qed.

Lemma event_ok_lineage b b1 e : lineage b b1 -> event_ok b1 e -> event_ok b e.
Proof.
  intros Hl (o & opp & Ho & Hp & H).
  destruct (Hl _ _ Ho) as (o0 & Ho0 & Eo), (Hl _ _ Hp) as (p0 & Hp0 & Ep).
  exists o0, p0. split; [done|]. split; [done|]. by rewrite Eo, Ep in H.
Qed.

Lemma match_fill_effect bn bp ap bid ask st :
  book_inv [bid; ask] (ms_book st) -> 0 < visible (ms_book st) bid -> 0 < visible (ms_book st) ask ->
  let q := Z.min (visible (ms_book st) bid) (visible (ms_book st) ask) in
  let st' := match_fill bn bp ap bid ask st in
  ms_fills st' = ms_fills st ++ [cross_report bn bp ap bid ask q] /\
  (exists us, ms_updates st' = ms_updates st ++ us /\
     effect all_ids [bid; ask] (ms_book st) [cross_report bn bp ap bid ask q] [] us [] [] (ms_book st')) /\
  sumZ quantity (orders (ms_book st')) < sumZ quantity (bid :: ask :: orders (ms_book st)).
Proof.
  intros Hinv Vb Va q st'.
  destruct (match_fill_spec bn bp ap bid ask st Hinv Vb Va) as (I & F & (us & U & D) & Q & L & T & S & A & C).
  fold st' q in I, F, U, D, Q, L, T, S, A, C. split; [done|]. split; [|unfold q in T; lia].
  exists us. split; [done|].
  assert (forall id, filled_in id [cross_report bn bp ap bid ask q] + qty (ms_book st') id = qty (ms_book st) id) as E.
  { intros id. rewrite Q. unfold filled_in, qty. simpl.
    pose proof (inv_live _ _ bid Hinv ltac:(left)) as Hb.
    pose proof (inv_live _ _ ask Hinv ltac:(right; left)) as Ha.
    repeat case_bool_decide; subst; simpl; rewrite ?Hb, ?Ha; (congruence || lia). }
  split; try done.
  - intros id _. rewrite <- E, restated_in_nil. lia.
  - intros id _ _. rewrite <- E, restated_in_nil. lia.
  - intros s p. rewrite D, changes_at_nil. lia.
  - by rewrite S, app_nil_r.
  - by rewrite S, app_nil_r.
  - intros id _ Hid. rewrite (C id Hid). unfold filled_in. simpl. rewrite !(bool_decide_ext _ _ (symmetry_iff eq id _)). lia.
Qed.

Lemma stp_events_ok n b newer older :
  order_lookup b !! order_id newer = Some newer -> order_lookup b !! order_id older = Some older ->
  side newer = opposite (side older) -> self_match newer older = true ->
  Forall (event_ok b) (stp_events n newer older).
Proof.
  intros Hn Ho Hs Hm. apply self_match_true in Hm as [Hm Hk].
  unfold stp_events. destruct (stp_left _ _ _) as [nl ol]. unfold reduce_events.
  assert (side older = opposite (side newer)) as Hs' by (rewrite Hs; by destruct (side older)).
  apply Forall_app. split.
  - destruct (_ =? 0); [constructor|]. apply Forall_singleton. exists older, newer. simpl.
    rewrite bool_decide_true by done. split_and!; auto.
  - destruct (_ =? 0); [constructor|]. apply Forall_singleton. exists newer, older. simpl.
    rewrite bool_decide_false by (intros E; assert (newer = older) as -> by congruence; by destruct (side older)).
    split_and!; auto.
Qed.

(** A prevented self-match between two live orders keeps the pace. *)
Lemma stp_events_paced n newer older det b us sus b' :
  order_id newer <> order_id older -> 0 < quantity newer <= u32_max -> 0 < quantity older <= u32_max ->
  qty b (order_id newer) = quantity newer -> qty b (order_id older) = quantity older ->
  effect all_ids det b [] (stp_events n newer older) us sus [] b' ->
  paced n [] (stp_events n newer older) [] (qty b) (qty b').
Proof.
  intros Hne Hqn Hqo Bn Bo E. apply effect_accounts in E as [Ha Hg]. revert Ha Hg. unfold stp_events.
  destruct (stp_left _ _ _) as [nl ol] eqn:Hl. destruct (stp_left_range _ _ _ _ _ Hqn Hqo Hl) as (Hnl & Hol & _). intros Ha Hg.
  eapply paced_cuts; [by apply reduce_events_cuts|by apply reduce_events_cuts|congruence|done|done|lia|lia|done|done].
Qed.

Lemma cross_report_ok bn bp ap bid ask q : order_id bid <> order_id ask -> 0 < q -> trade_ok (cross_report bn bp ap bid ask q).
Proof. by intros. Qed.

Lemma pop_both b bp ap :
  wf_book b -> best_price Buy (buy_orders b) = Some bp -> best_price Sell (sell_orders b) = Some ap ->
  exists bid ask b', (let '(o, b1) := pop_best Buy b in (o, pop_best Sell b1)) = (Some bid, (Some ask, b')) /\
    book_inv [bid; ask] b' /\ 0 < visible b' bid /\ 0 < visible b' ask /\
    price bid = bp /\ side bid = Buy /\ price ask = ap /\ side ask = Sell /\
    effect all_ids [] b [] [] [] [] [bid; ask] b' /\ arrival b' = arrival b /\
    order_lookup b' = order_lookup b.
Proof.
  intros Hwf Hbp Hap.
  destruct (pop_best_spec [] Buy b bp Hwf Hbp) as (bid & lb & Gb & Eb & Pb & Sb & I1).
  set (b1 := set_levels Buy _ b) in *.
  assert (best_price Sell (side_levels Sell b1) = Some ap) as Hap1 by done.
  destruct (pop_best_spec _ Sell b1 ap I1 Hap1) as (ask & la & Ga & Ea & Pa & Sa & I2).
  set (b2 := set_levels Sell _ b1) in *.
  assert (book_inv [bid; ask] b2) as I2' by (eapply book_inv_Permutation; [|done|exact I2]; solve_Permutation).
  assert (forall o, o ∈ orders b -> 0 < visible b o) as Hv.
  { pose proof (inv_shown _ _ Hwf) as H. by rewrite Forall_forall in H. }
  assert (visible b2 = visible b) as Ev by done.
  exists bid, ask, b2. rewrite Eb, Ea. split_and!; try done.
  - rewrite Ev. apply Hv, (orders_levels Buy). rewrite (bt_concat_get _ _ _ Gb). left.
  - rewrite Ev. apply Hv, (orders_levels Sell). simpl in Ga |- *. rewrite (bt_concat_get _ _ _ Ga). left.
  - by apply effect_move.
Qed.

Lemma bid_is_newer_total ag bid ask det b :
  book_inv (bid :: ask :: det) b -> exists bn, bid_is_newer ag b bid ask = Done bn.
Proof.
  intros Hinv. unfold bid_is_newer. do 2 (case_bool_decide; [eauto|]).
  assert (forall o, o ∈ [bid; ask] -> is_Some (arrival b !! order_id o)) as Ha.
  { intros o Ho. apply elem_of_dom. rewrite (inv_arrival _ _ Hinv). apply elem_of_dom. exists o.
    apply (inv_live _ _ _ Hinv). set_solver. }
  destruct (Ha bid ltac:(left)) as [x ->], (Ha ask ltac:(right; left)) as [y ->]. simpl. eauto.
Qed.

(** One iteration of the loop: either the book does not cross and the loop is
    left, or something is filled or prevented and the resting quantity drops. *)
Lemma match_step_spec ag st :
  wf_book (ms_book st) ->
  (match_step ag st = Done None /\ uncrossed (ms_book st)) \/
  exists st' fs es us sus, match_step ag st = Done (Some st') /\
    ms_fills st' = ms_fills st ++ fs /\ ms_updates st' = ms_updates st ++ us /\
    effect all_ids [] (ms_book st) fs es us sus [] (ms_book st') /\
    sumZ quantity (orders (ms_book st')) < sumZ quantity (orders (ms_book st)) /\
    Forall (fill_ok (ms_book st)) fs /\ Forall (event_ok (ms_book st)) es /\
    paced (length (ms_fills st)) fs es [] (qty (ms_book st)) (qty (ms_book st')).
Proof.
  intros Hwf. unfold match_step, uncrossed. set (b := ms_book st) in *.
  destruct (bt_last (buy_orders b)) as [bp|] eqn:Hbp; [|left; split; [done|congruence]].
  destruct (bt_first (sell_orders b)) as [ap|] eqn:Hap; [|left; split; [done|congruence]].
  destruct (Z.ltb_spec bp ap) as [Hlt|Hge]; [left; split; [done|intros; simplify_eq; lia]|right].
  destruct (pop_both b bp ap Hwf Hbp Hap)
    as (bid & ask & b' & Epop & I & Vb & Va & Pb & Sb & Pa & Sa & E1 & _ & L1).
  destruct (pop_best Buy b) as [ob b1]. destruct (pop_best Sell b1) as [oa b2]. simplify_eq.
  simpl. destruct (bid_is_newer_total ag bid ask [] b' I) as [bn ->]. simpl.
  set (st1 := {| ms_book := b'; ms_fills := _; ms_updates := _ |}).
  pose proof (inv_live _ _ bid I ltac:(left)) as Lb.
  pose proof (inv_live _ _ ask I ltac:(right; left)) as La.
  pose proof (total_move _ _ _ _ Hwf I L1) as T1. simpl in T1.
  pose proof (pair_ids _ _ _ _ I) as Hne.
  destruct (inv_order_ok _ _ bid I ltac:(left)) as [Hqb _]. destruct (inv_order_ok _ _ ask I ltac:(right; left)) as [Hqa _].
  destruct (self_match (if bn then bid else ask) (if bn then ask else bid)) eqn:Hself.
  - destruct (match_stp_spec all_ids bn bid ask st1 I Vb Va) as (F & U & [sus E2] & T).
    eexists _, [], _, [], sus. split_and!; [destruct bn; by rewrite Hself|by rewrite F, app_nil_r|by rewrite U, app_nil_r| | | | |].
    + exact (effect_trans E1 E2).
    + simpl in T. lia.
    + constructor.
    + apply stp_events_ok; [..|done]; rewrite <- ?L1; destruct bn; rewrite ?Sb, ?Sa; done.
    + eapply stp_events_paced; [..|exact (effect_trans E1 E2)]; unfold qty; rewrite <- ?L1; destruct bn; rewrite ?Lb, ?La; (done || congruence).
  - destruct (match_fill_effect bn (price bid) (price ask) bid ask st1 I Vb Va) as (F & (us & U & E2) & T).
    eexists _, _, [], us, []. split_and!; [destruct bn; by rewrite Hself|done|done| | | |constructor|].
    + exact (effect_trans E1 E2).
    + simpl in T. lia.
    + apply Forall_singleton. exists bid, ask. rewrite <- L1. simpl in Vb, Va.
      destruct bn; simpl; split_and!; (done || lia).
    + apply paced_fill; [apply cross_report_ok; [done|change (ms_book st1) with b'; lia]|]. intros id. pose proof (eff_qty (effect_trans E1 E2) id Logic.I eq_refl) as H.
      rewrite restated_in_nil, Z.add_0_r in H. exact H.
Qed.

(** ** The loop *)

Lemma match_loop_spec ag fuel st :
  wf_book (ms_book st) -> sumZ quantity (orders (ms_book st)) < Z.of_nat fuel ->
  exists st' fs es us sus, match_loop fuel ag st = Done st' /\
    ms_fills st' = ms_fills st ++ fs /\ ms_updates st' = ms_updates st ++ us /\
    effect all_ids [] (ms_book st) fs es us sus [] (ms_book st') /\ uncrossed (ms_book st') /\
    Forall (fill_ok (ms_book st)) fs /\ Forall (event_ok (ms_book st)) es /\
    paced (length (ms_fills st)) fs es [] (qty (ms_book st)) (qty (ms_book st')).
Proof.
  revert st. induction fuel as [|fuel IH]; intros st Hwf Hfuel.
  { pose proof (total_nonneg _ _ Hwf). simpl in *. lia. }
  simpl. destruct (match_step_spec ag st Hwf) as [[-> Hu]|(st1 & fs & es & us & sus & -> & F & U & E & T & Hf & He & Hpc)]; simpl.
  { exists st, [], [], [], []. rewrite !app_nil_r. split_and!; try done; [by apply effect_refl|apply paced_refl]. }
  destruct (IH st1) as (st2 & fs2 & es2 & us2 & sus2 & -> & F2 & U2 & E2 & Hu & Hf2 & He2 & Hpc2); [by apply E|lia|].
  pose proof (eff_lineage E) as Hl.
  exists st2, (fs ++ fs2), (es ++ es2), (us ++ us2), (sus ++ sus2).
  split_and!; [done|by rewrite F2, F, app_assoc|by rewrite U2, U, app_assoc| |done| | |].
  4: { rewrite F, length_app in Hpc2. exact (paced_trans _ _ _ _ _ _ _ _ _ _ Hpc Hpc2). }
  - by eapply effect_trans.
  - apply Forall_app. split; [done|]. eapply Forall_impl; [done|]. intros f. by apply fill_ok_lineage.
  - apply Forall_app. split; [done|]. eapply Forall_impl; [done|]. intros f. by apply event_ok_lineage.
Qed.

(** [match_orders] as one effect on the book. *)
Lemma match_orders_effect b :
  wf_book b ->
  exists fs us b', match_orders b = Done (fs, us, b') /\
    effect all_ids [] (set_stp stp_outcome_default b) fs (events (book_stp b')) us (stp_updates (book_stp b')) [] b' /\
    uncrossed b' /\ Forall (fill_ok b) fs /\ Forall (event_ok b) (events (book_stp b')) /\
    paced 0 fs (events (book_stp b')) [] (qty b) (qty b').
Proof.
  intros Hwf. unfold match_orders. set (b0 := set_stp stp_outcome_default b).
  assert (wf_book b0) as Hwf0 by (by apply book_inv_set_stp).
  destruct (match_loop_spec (last_added b0) (match_fuel b0) {| ms_book := b0; ms_fills := []; ms_updates := [] |} Hwf0)
    as (st' & fs & es & us & sus & -> & F & U & E & Hu & Hf & He & Hpc).
  { unfold match_fuel. simpl. lia. }
  simpl in *. subst. exists (ms_fills st'), (ms_updates st'), (ms_book st').
  pose proof (eff_events E) as Ev. pose proof (eff_updates E) as Eu.
  simpl in Ev, Eu. subst es sus. done.
Qed.

Lemma match_orders_run b fs us b' :
  wf_book b -> match_orders b = Done (fs, us, b') ->
  effect all_ids [] (set_stp stp_outcome_default b) fs (events (book_stp b')) us (stp_updates (book_stp b')) [] b' /\
  uncrossed b' /\ Forall (fill_ok b) fs /\ Forall (event_ok b) (events (book_stp b')).
Proof.
  intros Hwf Hrun. destruct (match_orders_effect b Hwf) as (fs0 & us0 & b0 & Hrun0 & H).
  rewrite Hrun in Hrun0. injection Hrun0 as <- <- <-. destruct H as (H1 & H2 & H3 & H4 & _). done.
Qed.

(** ** Theorems *)

(** On a well-formed book [match_orders] always returns: no [expect] panics
    and the loop ends within the resting quantity. The book it leaves is well
    formed and no longer crossed. *)
Theorem match_orders_total b :
  wf_book b ->
  exists fs us b', match_orders b = Done (fs, us, b') /\ wf_book b' /\ uncrossed b'.
Proof.
  intros Hwf. destruct (match_orders_effect b Hwf) as (fs & us & b' & Hrun & E & Hu & _).
  exists fs, us, b'. split_and!; [done|exact (eff_inv E)|done].
Qed.

Lemma match_orders_total_witness :
  exists fs us b', match_orders crossed_book = Done (fs, us, b') /\ wf_book b' /\ uncrossed b'.
Proof. apply match_orders_total. exact crossed_wf. Defined.

(** Every fill [match_orders] prints is a legal trade: between a live buy and
    a live sell, for a positive quantity, at the price of the resting side and
    within both limits, and never a self-match that the newer order's mode
    prevents. *)
Theorem match_orders_fills b fs us b' :
  wf_book b -> match_orders b = Done (fs, us, b') -> Forall (fill_ok b) fs.
Proof. intros Hwf Hrun. by destruct (match_orders_run _ _ _ _ Hwf Hrun) as (_ & _ & ? & _). Qed.

Lemma match_orders_fills_witness :
  exists fs us b', match_orders crossed_book = Done (fs, us, b') /\ fs <> [] /\
  Forall (fill_ok crossed_book) fs.
Proof.
  destruct (match_orders crossed_book) as [[[fs us] b']| |] eqn:E; [|vm_compute in E; discriminate..].
  exists fs, us, b'. split; [done|]. split; [intros ->; vm_compute in E; discriminate|].
  exact (match_orders_fills _ _ _ _ crossed_wf E).
Defined.

(** What matching leaves of an order, with the fills, the self-trade prevention
    events and the books before and after. Fills, restatements and leaves never
    exceed what the order had; they are exactly what it had unless it was
    canceled, and then it is no longer live and the cancel took a positive rest. *)
Definition accounted (b : OrderBook) (fs : list ExecutionReport) (es : list StpEvent) (b' : OrderBook) (id : string) : Prop :=
  if canceled_in id es then order_lookup b' !! id = None /\ filled_in id fs + restated_in id es < qty b id
  else filled_in id fs + restated_in id es + qty b' id = qty b id.

(** C7: Matching a well-formed book always returns, with a well-formed and
    uncrossed book in which every unit is accounted for. An order that self-trade
    prevention did not cancel had exactly what it traded, plus what prevention
    took off it, plus what is left of it; one that it canceled is no longer live,
    and traded and lost less than it had, the rest being what the cancel removed.
    Every fill is a legal trade between live orders of opposite sides at the
    resting price, and every prevention event is about two live orders with one
    key. *)
Theorem match_orders_conservation b :
  wf_book b ->
  exists fs us b', match_orders b = Done (fs, us, b') /\ wf_book b' /\ uncrossed b' /\
    (forall id, accounted b fs (events (book_stp b')) b' id) /\ Forall (fill_ok b) fs /\ Forall (event_ok b) (events (book_stp b')).
Proof.
  intros Hwf. destruct (match_orders_effect b Hwf) as (fs & us & b' & Hrun & E & Hu & Hf & He & _).
  exists fs, us, b'. split_and!; [done|exact (eff_inv E)|done| |done|done].
  intros id. unfold accounted. destruct (canceled_in id _) eqn:Hc; [|by apply (eff_qty E)]. split; [by apply (eff_canceled E)|by apply (eff_cut E id Logic.I)].
Qed.

Lemma match_orders_conservation_witness :
  exists fs us b', match_orders crossed_book = Done (fs, us, b') /\ wf_book b' /\ uncrossed b' /\
    (forall id, accounted crossed_book fs (events (book_stp b')) b' id) /\ Forall (fill_ok crossed_book) fs /\
    Forall (event_ok crossed_book) (events (book_stp b')).
Proof. exact (match_orders_conservation crossed_book crossed_wf). Defined.

(** The market data of a match is exact. A client that applies the published
    increments to the displayed depth of the old book holds the displayed depth
    of the new one, at every price of either side. *)
Theorem match_orders_market_data b fs us b' s p :
  wf_book b -> match_orders b = Done (fs, us, b') ->
  depth [] b' s p = depth [] b s p + changes_at s p (us ++ stp_updates (book_stp b')).
Proof.
  intros Hwf Hrun. destruct (match_orders_run _ _ _ _ Hwf Hrun) as (E & _).
  rewrite (eff_depth E), depth_set_stp, changes_at_app. lia.
Qed.

Lemma match_orders_market_data_witness :
  exists fs us b', match_orders crossed_book = Done (fs, us, b') /\ fs <> [] /\
  depth [] b' Sell 101 = 5 + changes_at Sell 101 (us ++ stp_updates (book_stp b')).
Proof.
  destruct (match_orders crossed_book) as [[[fs us] b']| |] eqn:E; [|vm_compute in E; discriminate..].
  exists fs, us, b'. split; [done|]. split; [intros ->; vm_compute in E; discriminate|].
  exact (match_orders_market_data _ _ _ _ Sell 101 crossed_wf E).
Defined.

(** Every self-trade prevention event is about two live orders of opposite
    sides that share a prevention key, under a preventing mode of one of them. *)
Theorem match_orders_stp_events b fs us b' :
  wf_book b -> match_orders b = Done (fs, us, b') -> Forall (event_ok b) (events (book_stp b')).
Proof. intros Hwf Hrun. by destruct (match_orders_run _ _ _ _ Hwf Hrun) as (_ & _ & _ & ?). Qed.

Lemma match_orders_stp_events_witness :
  exists fs us b', match_orders crossed_book = Done (fs, us, b') /\ fs <> [] /\
  events (book_stp b') <> [] /\ Forall (event_ok crossed_book) (events (book_stp b')).
Proof.
  destruct (match_orders crossed_book) as [[[fs us] b']| |] eqn:E; [|vm_compute in E; discriminate..].
  exists fs, us, b'. split; [done|]. split; [intros ->; vm_compute in E; discriminate|].
  split; [|exact (match_orders_stp_events _ _ _ _ crossed_wf E)].
  intros H. revert E. vm_compute. intros [= _ _ <-]. discriminate H.
Defined.

(** Matching is idempotent: run on its own result it prints nothing,
    publishes nothing and keeps every order. *)
Theorem match_orders_idempotent b fs us b' :
  wf_book b -> match_orders b = Done (fs, us, b') ->
  match_orders b' = Done ([], [], set_stp stp_outcome_default b').
Proof.
  intros Hwf Hrun. destruct (match_orders_run _ _ _ _ Hwf Hrun) as (E & Hu & _).
  unfold match_orders, match_fuel. cbn [match_loop].
  destruct (match_step_spec (last_added (set_stp stp_outcome_default b'))
    {| ms_book := set_stp stp_outcome_default b'; ms_fills := []; ms_updates := [] |}) as [[-> _]|Hs]; simpl.
  - apply book_inv_set_stp, (eff_inv E).
  - done.
  - destruct Hs as (st' & fs' & es' & us' & sus' & Hs & _). exfalso. revert Hs. unfold match_step. simpl.
    destruct (bt_last (buy_orders b')) as [bp|] eqn:Hb; [|done].
    destruct (bt_first (sell_orders b')) as [ap|] eqn:Ha; [|done].
    specialize (Hu bp ap Hb Ha). by destruct (Z.ltb_spec bp ap); [|lia].
Qed.

Lemma match_orders_idempotent_witness :
  exists fs us b', match_orders crossed_book = Done (fs, us, b') /\ fs <> [] /\
  match_orders b' = Done ([], [], set_stp stp_outcome_default b').
Proof.
  destruct (match_orders crossed_book) as [[[fs us] b']| |] eqn:E; [|vm_compute in E; discriminate..].
  exists fs, us, b'. split; [done|]. split; [intros ->; vm_compute in E; discriminate|].
  exact (match_orders_idempotent _ _ _ _ crossed_wf E).
Defined.

