(* ===== verification/Sweep.v ===== *)
(** * Sweeping an aggressive order over the opposite side

    [fill_level], [execute_market] and [execute_ioc] on well-formed books: the
    sweep terminates, leaves a well-formed book, trades at resting prices from
    the best one on, accounts for every unit of the aggressor and of the resting
    orders, and ends only when the aggressor is done or nothing crosses it. *)

From S2P Require Import Prelude BTree Order OrderBook BookInvariant Samples BookEffects Matcher Effects Pace.

(** ** Definitions *)

(** Ids other than the aggressor's: the resting orders. *)
Definition not_own (a : Order) (id : string) : Prop := id <> order_id a.

(** A fill of the aggressor [a] against an order resting in [b]. *)
Definition sweep_fill_ok (a : Order) (b : OrderBook) (f : ExecutionReport) : Prop :=
  exists r, order_lookup b !! order_id r = Some r /\ side r = opposite (side a) /\
    trade_price f = price r /\ aggressor_side f = side a /\ 0 < trade_quantity f /\
    self_match a r = false /\
    match side a with
    | Buy => buy_order_id f = order_id a /\ sell_order_id f = order_id r
    | Sell => buy_order_id f = order_id r /\ sell_order_id f = order_id a
    end.

(** Leaves of the resting orders and of the aggressor. *)
Definition sweep_leaves (a : Order) (sw : Sweep) (b : OrderBook) (id : string) : Z :=
  if bool_decide (id = order_id a) then (if stopped sw then 0 else remaining sw) else qty b id.

(** A sweep from [b], [sw] to [b'], [sw']: the effect on the book together with
    the accounting of the aggressor. *)
Record sweep_effect (a : Order) (det : list Order) (b : OrderBook) (sw : Sweep)
    (fs : list ExecutionReport) (es : list StpEvent) (us sus : list MarketDataIncrementalUpdate)
    (det' : list Order) (b' : OrderBook) (sw' : Sweep) : Prop := {
  se_effect : effect (not_own a) det b fs es us sus det' b';
  se_fills : sw_fills sw' = sw_fills sw ++ fs;
  se_updates : sw_fill_updates sw' = sw_fill_updates sw ++ us;
  se_remaining : remaining sw' + sumZ trade_quantity fs + restated_in (order_id a) es = remaining sw;
  se_range : 0 <= remaining sw' <= remaining sw;
  se_stopped : stopped sw' = stopped sw || canceled_in (order_id a) es;
  se_fill_ok : Forall (sweep_fill_ok a b) fs;
  se_paced : paced (length (sw_fills sw)) fs es [] (sweep_leaves a sw b) (sweep_leaves a sw' b');
}.

Arguments se_effect {_ _ _ _ _ _ _ _ _ _ _} _.
Arguments se_fills {_ _ _ _ _ _ _ _ _ _ _} _.
Arguments se_updates {_ _ _ _ _ _ _ _ _ _ _} _.
Arguments se_remaining {_ _ _ _ _ _ _ _ _ _ _} _.
Arguments se_range {_ _ _ _ _ _ _ _ _ _ _} _.
Arguments se_stopped {_ _ _ _ _ _ _ _ _ _ _} _.
Arguments se_fill_ok {_ _ _ _ _ _ _ _ _ _ _} _.
Arguments se_paced {_ _ _ _ _ _ _ _ _ _ _} _.

(** The level taken out of the book while the aggressor works through it. *)
Record level_inv (a : Order) (p : Z) (level : list Order) (b : OrderBook) : Prop := {
  li_inv : book_inv level b;
  li_level : Forall (fun o => price o = p /\ side o = opposite (side a)) level;
  li_shown : Forall (fun o => 0 < visible b o) level;
  li_fresh : order_lookup b !! order_id a = None;
}.

(** The order in which prices of a resting side are reached. *)
Definition price_le (s : OrderSide) (p p' : Z) : Prop :=
  match s with Buy => p' <= p | Sell => p <= p' end.

(** Either sweep: IOC within the limit, market without one. *)
Definition execute (limit : bool) (a : Order) (b : OrderBook) : outcome (AggressiveResult * OrderBook) :=
  if limit then execute_ioc a b else execute_market a b.

(** An aggressive order as the engine hands it over: a quantity that fits its
    type, under an id that is not live. *)
Definition enterable (a : Order) (b : OrderBook) : Prop :=
  0 < quantity a <= u32_max /\ order_lookup b !! order_id a = None.

Definition sweep_ok (sw : Sweep) : Prop := 0 <= remaining sw <= u32_max.

(** ** Composition *)

Lemma sweep_fill_ok_lineage a b b1 f : lineage b b1 -> sweep_fill_ok a b1 f -> sweep_fill_ok a b f.
Proof.
  intros Hl (r & Hr & H). destruct (Hl _ _ Hr) as (r0 & Hr0 & Er).
  exists r0. rewrite Er in H, Hr0. split; [done|]. exact H.
Qed.

Lemma sweep_effect_trans a det b sw fs1 es1 us1 sus1 det1 b1 sw1 fs2 es2 us2 sus2 det2 b2 sw2 :
  sweep_effect a det b sw fs1 es1 us1 sus1 det1 b1 sw1 ->
  sweep_effect a det1 b1 sw1 fs2 es2 us2 sus2 det2 b2 sw2 ->
  sweep_effect a det b sw (fs1 ++ fs2) (es1 ++ es2) (us1 ++ us2) (sus1 ++ sus2) det2 b2 sw2.
Proof.
  intros [E1 F1 U1 R1 G1 S1 O1 P1] [E2 F2 U2 R2 G2 S2 O2 P2]. split.
  - by eapply effect_trans.
  - by rewrite F2, F1, app_assoc.
  - by rewrite U2, U1, app_assoc.
  - rewrite sumZ_app, restated_in_app. lia.
  - lia.
  - by rewrite S2, S1, canceled_in_app, orb_assoc.
  - apply Forall_app. split; [done|]. eapply Forall_impl; [done|].
    intros f. apply sweep_fill_ok_lineage, E1.
  - rewrite F1, length_app in P2. exact (paced_trans _ _ _ _ _ _ _ _ _ _ P1 P2).
Qed.

Lemma sweep_effect_refl a det b sw :
  book_inv det b -> 0 <= remaining sw -> sweep_effect a det b sw [] [] [] [] det b sw.
Proof.
  intros Hinv Hr. split; rewrite ?app_nil_r, ?orb_false_r; simpl; try (done || lia); [by apply effect_refl|apply paced_refl].
Qed.

(** A move without fills or events changes no leaves. *)
Lemma sweep_leaves_move a sw det b us sus det' b' id :
  effect (not_own a) det b [] [] us sus det' b' -> sweep_leaves a sw b' id = sweep_leaves a sw b id.
Proof.
  intros E. unfold sweep_leaves. case_bool_decide as Hid; [done|]. pose proof (eff_qty E id Hid eq_refl) as H.
  rewrite restated_in_nil in H. simpl in H. lia.
Qed.

Lemma sweep_effect_pre a det0 b0 det b sw fs es us sus det' b' sw' :
  effect (not_own a) det0 b0 [] [] [] [] det b ->
  sweep_effect a det b sw fs es us sus det' b' sw' -> sweep_effect a det0 b0 sw fs es us sus det' b' sw'.
Proof.
  intros E0 [E F U R G S O P]. split; try done.
  - exact (effect_trans E0 E).
  - eapply Forall_impl; [done|]. intros f. apply sweep_fill_ok_lineage, E0.
  - eapply paced_ext; [..|exact P]; [|done]. intros id. by apply (sweep_leaves_move _ _ _ _ _ _ _ _ _ E0).
Qed.

Lemma sweep_effect_post a det b sw fs es us sus det1 b1 det' b' sw' :
  effect (not_own a) det1 b1 [] [] [] [] det' b' ->
  sweep_effect a det b sw fs es us sus det1 b1 sw' -> sweep_effect a det b sw fs es us sus det' b' sw'.
Proof.
  intros E0 [E F U R G S O P]. split; try done.
  - pose proof (effect_trans E E0) as H. by rewrite !app_nil_r in H.
  - eapply paced_ext; [..|exact P]; [done|]. intros id. symmetry. by apply (sweep_leaves_move _ _ _ _ _ _ _ _ _ E0).
Qed.

(** ** One order of a level *)

Lemma level_inv_intro a p level level' b b' :
  level_inv a p level b -> book_inv level' b' -> lineage b b' ->
  Forall (fun o => (price o = p /\ side o = opposite (side a)) /\ 0 < visible b' o) level' ->
  level_inv a p level' b'.
Proof.
  intros [_ _ _ Hf] Hinv Hl Hall. apply Forall_and in Hall as [H1 H2].
  split; [done..|]. by eapply lineage_None.
Qed.

Lemma replenish_None o b b' : replenish o b = (None, b') -> b' = b.
Proof. unfold replenish. destruct (_ || _); intros; by simplify_eq. Qed.

(** ** The aggressor's side of a prevented self-match *)

(** An event about the aggressor changes no resting order. *)
Lemma own_event_effect a det b e :
  book_inv det b -> ev_order_id e = order_id a -> effect (not_own a) det b [] [e] [] [] det (push_stp_event e b).
Proof.
  intros Hinv He. assert (forall id, not_own a id -> restated_in id [e] = 0 /\ canceled_in id [e] = false) as Hn.
  { intros id Hid. unfold restated_in, canceled_in. simpl. unfold not_own in Hid.
    by rewrite bool_decide_false by congruence. }
  split; try done.
  - by apply book_inv_set_stp.
  - by apply lineage_same.
  - intros id Hid. destruct (Hn id Hid) as [-> _]. simpl. unfold qty. simpl. lia.
  - intros id Hid _. destruct (Hn id Hid) as [-> _]. done.
  - intros id Hid. destruct (Hn id Hid) as [_ ->]. done.
  - intros s p'. rewrite changes_at_nil. unfold push_stp_event. rewrite depth_set_stp. lia.
  - simpl. by rewrite app_nil_r.
  - intros id _ _. unfold banked. simpl. lia.
  - intros id Hid. destruct (Hn id Hid) as [_ ->]. done.
Qed.

Section aggressor.
Context (a top : Order) (sw : Sweep).

(** The events of a prevented self-match for the aggressor. *)
Definition aggr_events (aggr_left : Z) : list StpEvent :=
  let ev act := {| ev_order_id := order_id a; opposing_order := order_id top; action := act;
                   ev_mode := mode (order_stp a); before_fill := length (sw_fills sw) |} in
  if aggr_left =? 0 then [ev Canceled]
  else if remaining sw - aggr_left >? 0 then [ev (Restated (remaining sw - aggr_left))] else [].

Definition aggr_swept (aggr_left : Z) : Sweep :=
  if aggr_left =? 0
  then {| remaining := remaining sw; sw_fills := sw_fills sw;
          sw_fill_updates := sw_fill_updates sw; stopped := true |}
  else if remaining sw - aggr_left >? 0
  then {| remaining := aggr_left; sw_fills := sw_fills sw;
          sw_fill_updates := sw_fill_updates sw; stopped := stopped sw |}
  else sw.

Lemma aggr_events_effect al det b3 :
  book_inv det b3 ->
  effect (not_own a) det b3 [] (aggr_events al) [] [] det
    (fold_left (fun b e => push_stp_event e b) (aggr_events al) b3).
Proof using Type.
  intros Hinv. unfold aggr_events. destruct (al =? 0); [by apply own_event_effect|].
  destruct (remaining sw - al >? 0); [by apply own_event_effect|]. by apply effect_refl.
Qed.

Lemma aggr_events_cuts al :
  0 <= al <= remaining sw -> cuts (length (sw_fills sw)) (order_id a) (remaining sw) al (aggr_events al).
Proof using Type.
  intros Hal. unfold aggr_events. destruct (Z.eqb_spec al 0) as [E|E]; [|destruct (Z.gtb_spec (remaining sw - al) 0)].
  - split; [by apply Forall_singleton|by apply Forall_singleton|lia].
  - split; [apply Forall_singleton; unfold cut_ok; simpl; split_and!; (done || lia)|apply Forall_singleton; simpl; lia|].
    intros _. unfold canceled_in, restated_in. simpl. rewrite bool_decide_true by done. simpl. split; [done|lia].
  - split; [constructor..|]. intros _. rewrite restated_in_nil. split; [done|lia].
Qed.

Lemma aggr_accounting al :
  0 <= al <= remaining sw ->
  remaining (aggr_swept al) + restated_in (order_id a) (aggr_events al) = remaining sw /\
  stopped (aggr_swept al) = stopped sw || canceled_in (order_id a) (aggr_events al) /\
  (stopped (aggr_swept al) = true \/ remaining (aggr_swept al) = al) /\
  0 <= remaining (aggr_swept al) <= remaining sw /\
  sw_fills (aggr_swept al) = sw_fills sw /\ sw_fill_updates (aggr_swept al) = sw_fill_updates sw.
Proof using Type.
  intros Hal. unfold aggr_swept, aggr_events, restated_in, canceled_in.
  destruct (Z.eqb_spec al 0); simpl; [|destruct (Z.gtb_spec (remaining sw - al) 0); simpl];
    rewrite ?bool_decide_true, ?orb_false_r, ?orb_true_r by done; split_and!; try (done || lia); try (right; lia); by left.
Qed.

End aggressor.

Section level.
Context (a : Order) (p : Z) (top : Order) (level : list Order) (sw : Sweep) (b : OrderBook).
Context (Hli : level_inv a p (top :: level) b) (Hsw : sweep_ok sw) (Hlive : sweep_live sw = true).

Lemma level_top :
  price top = p /\ side top = opposite (side a) /\ 0 < visible b top <= quantity top /\
  quantity top <= u32_max /\ order_id top <> order_id a /\ 0 < remaining sw /\ stopped sw = false.
Proof using Hli Hsw Hlive.
  destruct Hli as [Hinv Hlv Hsh Hfr]. apply Forall_cons in Hlv as [[Hp Hs] _]. apply Forall_cons in Hsh as [Hv _].
  destruct (inv_order_ok _ _ top Hinv ltac:(left)) as [Hq _].
  destruct (inv_slice_ok _ _ top Hinv ltac:(left)) as [Hsl _].
  unfold sweep_live in Hlive. apply andb_true_iff in Hlive as [Hr Hst]. propify.
  split_and!; try (done || lia).
  intros E. pose proof (inv_live _ _ top Hinv ltac:(left)). congruence.
Qed.

(** The other orders of the level stay shown. *)
Lemma level_rest_shown b' :
  (forall x, order_id x <> order_id top -> visible b' x = visible b x) ->
  Forall (fun o => (price o = p /\ side o = opposite (side a)) /\ 0 < visible b' o) level.
Proof using Hli.
  destruct Hli as [Hinv Hlv Hsh _]. apply Forall_cons in Hlv as [_ Hlv]. apply Forall_cons in Hsh as [_ Hsh].
  intros Hv. rewrite Forall_forall in Hlv, Hsh |- *. intros x Hx. split; [auto|].
  rewrite Hv; [auto|]. apply (inv_tail_ids _ _ _ Hinv), elem_of_app. by left.
Qed.

(** The top order after a fill of [q]. *)
Let q := Z.min (visible b top) (remaining sw).
Let ql := quantity top - q.
Let b1 := sync_visible_fill (with_quantity ql top) q (visible b top - q) b.

Lemma level_fill_book f md b2 :
  (forall id, not_own a id -> filled_in id [f] = if bool_decide (id = order_id top) then q else 0) ->
  replenish (with_quantity ql top) b1 = (md, b2) ->
  effect (not_own a) (top :: level) b [f] []
    ([generate_incremental_update b1 ModifyOrder (price top) q (side top)] ++ option_list md) []
    (live_list ql top ++ level) b2 /\
  (ql <> 0 -> 0 < visible b2 (with_quantity ql top)) /\
  (forall x, order_id x <> order_id top -> visible b2 x = visible b x) /\
  (forall s, side_levels s b2 = side_levels s b) /\
  (q = visible b top -> md = None -> ql = 0) /\ (md <> None -> ql <> 0).
Proof using Hli Hsw Hlive.
  intros Hf R. destruct level_top as (Hp & Hs & Hv & Hq & Hne & Hr & Hst).
  destruct Hli as [Hinv _ _ _]. destruct (inv_slice_ok _ _ top Hinv ltac:(left)) as [_ Hfull].
  assert (effect (not_own a) (top :: level) b [f] []
    [generate_incremental_update b1 ModifyOrder (price top) q (side top)] [] (live_list ql top ++ level) b1) as E1.
  { replace q with (visible b top - (visible b top - q)) at 1 by lia.
    apply sync_fill_effect; try done; unfold ql, q; lia. }
  pose proof (eff_inv E1) as I1.
  destruct (replenish_live _ _ _ _ _ _ I1 R) as (_ & _ & V2 & O2 & _ & L2 & _).
  split_and!; [|done| | | |].
  - exact (effect_trans E1 (replenish_effect _ _ _ _ _ _ _ I1 R)).
  - intros x Hx. rewrite O2 by done. by apply visible_sync_other.
  - intros s. rewrite L2. apply side_levels_sync.
  - intros Hqv ->. apply replenish_None in R. subst b2. destruct (Z.eq_dec ql 0) as [|Hz]; [done|].
    specialize (V2 Hz). unfold b1 in V2. rewrite visible_sync_self in V2 by done. lia.
  - intros Hmd E. apply Hmd. rewrite replenish_eq in R. simpl in R. rewrite E in R. simpl in R. congruence.
Qed.

(** What is left of the top order back in the level, at either end. *)
Lemma level_back left l1 l2 b2 b' :
  l1 ++ l2 = live_list left top ->
  (left <> 0 -> 0 < visible b2 (with_quantity left top)) ->
  (forall x, order_id x <> order_id top -> visible b2 x = visible b x) ->
  book_inv (l1 ++ level ++ l2) b' -> lineage b b' -> visible b' = visible b2 ->
  level_inv a p (l1 ++ level ++ l2) b'.
Proof using Hli Hsw Hlive.
  destruct level_top as (Hp & Hs & _).
  intros Hl V2 O2 I3 Hlin Hvis. eapply level_inv_intro; [exact Hli|done|done|].
  assert (Forall (fun o => (price o = p /\ side o = opposite (side a)) /\ 0 < visible b' o) (l1 ++ l2)) as Hll.
  { rewrite Hl, Hvis. unfold live_list. destruct (Z.eqb_spec left 0); constructor; auto. }
  apply Forall_app in Hll as [H1 H2]. rewrite !Forall_app. split_and!; [done| |done].
  apply level_rest_shown. by rewrite Hvis.
Qed.

(** The report [level_fill] appends. *)
Definition level_report : ExecutionReport :=
  match side a with
  | Buy => {| buy_order_id := order_id a; sell_order_id := order_id top; trade_price := p;
              trade_quantity := q; aggressor_side := side a;
              buy_fully_filled := remaining sw - q =? 0; sell_fully_filled := ql =? 0 |}
  | Sell => {| buy_order_id := order_id top; sell_order_id := order_id a; trade_price := p;
               trade_quantity := q; aggressor_side := side a;
               buy_fully_filled := ql =? 0; sell_fully_filled := remaining sw - q =? 0 |}
  end.

Lemma level_report_ok :
  self_match a top = false ->
  trade_price level_report = p /\ trade_quantity level_report = q /\ sweep_fill_ok a b level_report /\
  (forall id, not_own a id -> filled_in id [level_report] = if bool_decide (id = order_id top) then q else 0).
Proof using Hli Hsw Hlive.
  intros Hself. destruct level_top as (Hp & Hs & Hv & Hq & Hne & Hr & Hst).
  destruct Hli as [Hinv _ _ _]. unfold level_report, sweep_fill_ok, filled_in.
  split_and!; [by destruct (side a)..| |].
  - exists top. rewrite (inv_live _ _ top Hinv ltac:(left)).
    destruct (side a); simpl; split_and!; (done || lia).
  - intros id Hid. unfold not_own in Hid. destruct (side a); simpl;
      repeat case_bool_decide; simpl; (congruence || lia).
Qed.

(** The sweep state after a fill that published [us]. *)
Definition level_swept (us : list MarketDataIncrementalUpdate) : Sweep :=
  {| remaining := remaining sw - q; sw_fills := sw_fills sw ++ [level_report];
     sw_fill_updates := sw_fill_updates sw ++ us; stopped := stopped sw |}.

Lemma level_fill_eq :
  level_fill a p top level sw b =
  let '(md, b2) := replenish (with_quantity ql top) b1 in
  let sw' := level_swept ([generate_incremental_update b1 ModifyOrder p q (side top)] ++ option_list md) in
  match md with
  | Some md => (level ++ [with_quantity ql top], sw',
      push_refresh (length (sw_fills sw), order_id top, visible b2 (with_quantity ql top)) b2)
  | None => (live_list ql top ++ level, sw', b2)
  end.
Proof using Hli Hsw Hlive.
  destruct level_top as (Hp & Hs & Hv & Hq & Hne & Hr & Hst).
  unfold sweep_ok in Hsw. assert (0 <= ql) as Hql by (unfold ql, q; lia).
  unfold level_fill. fold q.
  rewrite (sub32_small (quantity top)), (sub32_small (remaining sw)), (sub32_small (visible b top))
    by (unfold is_u32; lia).
  fold ql b1. destruct (replenish (with_quantity ql top) b1) as [[md|] b2]; simpl.
  - unfold level_swept. simpl. rewrite <- app_assoc, length_app, Nat.add_sub. reflexivity.
  - assert ((if ql >? 0 then with_quantity ql top :: level else level) = live_list ql top ++ level) as ->; [|done].
    unfold live_list. destruct (Z.gtb_spec ql 0), (Z.eqb_spec ql 0); (done || lia).
Qed.

Lemma level_fill_paced us det b2 :
  self_match a top = false -> effect (not_own a) (top :: level) b [level_report] [] us [] det b2 ->
  paced (length (sw_fills sw)) [level_report] [] [] (sweep_leaves a sw b) (sweep_leaves a (level_swept us) b2).
Proof using Hli Hsw Hlive.
  intros Hself E. destruct level_top as (Hp & Hs & Hv & Hq & Hne & Hr & Hst).
  assert (0 < q) as Hqp by (unfold q; lia). apply paced_fill.
  - unfold trade_ok, level_report. destruct (side a); simpl; (split; [lia|congruence]).
  - intros id. unfold sweep_leaves, level_swept. cbn [stopped remaining]. rewrite Hst. case_bool_decide as Hid.
    + subst id. unfold filled_in, level_report. destruct (side a); simpl; repeat case_bool_decide; simpl; (congruence || lia).
    + pose proof (eff_qty E id Hid eq_refl) as H. rewrite restated_in_nil in H. lia.
Qed.

(** A fill takes the smaller of the displayed slice and the aggressor's
    remaining quantity; a slice that is used up sends the order to the back. *)
Lemma level_fill_spec level' sw' b' :
  self_match a top = false -> level_fill a p top level sw b = (level', sw', b') ->
  exists us l1 l2, sweep_effect a (top :: level) b sw [level_report] [] us [] level' b' sw' /\
    level_inv a p level' b' /\ level' = l1 ++ level ++ l2 /\ l1 ++ l2 = live_list ql top /\
    (q = visible b top -> l1 = []) /\
    (forall x, order_id x <> order_id top -> visible b' x = visible b x) /\
    (forall s, side_levels s b' = side_levels s b).
Proof using Hli Hsw Hlive.
  intros Hself. rewrite level_fill_eq. destruct level_top as (Hp & Hs & Hv & Hq & Hne & Hr & Hst).
  destruct (level_report_ok Hself) as (Fp & Fq & Fok & Ff). unfold sweep_ok in Hsw.
  destruct (replenish (with_quantity ql top) b1) as [md b2] eqn:R.
  destruct (level_fill_book _ md b2 Ff R) as (E2 & V2 & O2 & L2 & N2 & M2).
  rewrite Hp in E2. pose proof (eff_inv E2) as I2.
  set (us := _ ++ option_list md) in *.
  assert (sweep_effect a (top :: level) b sw [level_report] [] us [] (live_list ql top ++ level) b2 (level_swept us)) as S2.
  { split; simpl; rewrite ?orb_false_r, ?restated_in_nil, ?Fq; try (done || lia); [by apply Forall_singleton|].
    apply (level_fill_paced _ _ _ Hself E2). }
  destruct md as [md|]; intros [= <- <- <-]; exists us.
  - specialize (M2 ltac:(done)). set (e := (_, _, _)). destruct (push_refresh_frame e b2) as (Lr & Dr & Ir & Sr & Ar & _ & Or & Cr).
    assert (live_list ql top = [with_quantity ql top]) as Hll by (unfold live_list; by destruct (Z.eqb_spec ql 0)).
    assert (book_inv (level ++ [with_quantity ql top]) (push_refresh e b2)) as I3.
    { rewrite Permutation_app_comm. apply Ir. by rewrite Hll in I2. }
    exists [], [with_quantity ql top]. split_and!; try done.
    + eapply sweep_effect_post; [by apply (effect_move _ _ _ _ _ I2 I3)|done].
    + apply (level_back ql [] _ b2); try done; [|by apply visible_displayed].
      eapply lineage_trans; [apply E2|]. by apply lineage_same.
    + intros x Hx. rewrite (visible_displayed b2) by done. auto.
    + intros s. rewrite <- L2. unfold push_refresh. by destruct (refresh_log b2), s.
  - exists (live_list ql top), []. rewrite !app_nil_r. split_and!; try done.
    + rewrite <- (app_nil_r level) at 1. apply (level_back ql _ _ b2); rewrite ?app_nil_r; try done. apply E2.
    + intros E. unfold live_list. by rewrite (N2 E eq_refl).
Qed.
Lemma level_left_range al tl :
  stp_left (mode (order_stp a)) (remaining sw) (quantity top) = (al, tl) ->
  0 <= al <= remaining sw /\ 0 <= tl <= quantity top /\ al + tl < remaining sw + quantity top.
Proof using Hli Hsw Hlive.
  destruct level_top as (_ & _ & Hv & Hq & _ & Hr & _). unfold sweep_ok in Hsw.
  apply stp_left_range; lia.
Qed.

(** A prevented self-match cuts the top order as in passive matching, then the
    aggressor. *)
Lemma level_stp_eq al tl :
  stp_left (mode (order_stp a)) (remaining sw) (quantity top) = (al, tl) ->
  level_stp a p top level sw b =
  let '(top', b1) := stp_reduce (mode (order_stp a)) (order_id top) (order_id a) (length (sw_fills sw)) top tl b in
  (live_list tl top ++ level, aggr_swept sw al,
   fold_left (fun b e => push_stp_event e b) (aggr_events a top sw al) b1).
Proof using Hli Hsw Hlive.
  intros Hl. destruct level_top as (Hp & Hs & Hv & Hq & Hne & Hr & Hst). unfold sweep_ok in Hsw.
  destruct (level_left_range _ _ Hl) as (Hal & Htl & _).
  unfold level_stp, stp_reduce. rewrite Hl, bool_decide_true by done.
  rewrite (sub32_small (quantity top)), (sub32_small (visible b top)), (sub32_small (remaining sw)) by (unfold is_u32; lia).
  unfold aggr_swept, aggr_events, live_list. simpl. rewrite Hp.
  destruct (Z.gtb_spec (quantity top - tl) 0), (Z.eqb_spec (quantity top - tl) 0); try lia; simpl.
  - destruct (Z.gtb_spec tl 0), (Z.eqb_spec tl 0), (al =? 0), (remaining sw - al >? 0); (done || lia).
  - replace tl with (quantity top) by lia. rewrite with_quantity_same.
    destruct (Z.gtb_spec (quantity top) 0), (Z.eqb_spec (quantity top) 0), (al =? 0), (remaining sw - al >? 0); (done || lia).
Qed.

Lemma level_stp_paced al tl us sus det b' :
  stp_left (mode (order_stp a)) (remaining sw) (quantity top) = (al, tl) ->
  let es := reduce_events (mode (order_stp a)) (order_id top) (order_id a) (length (sw_fills sw)) top tl ++ aggr_events a top sw al in
  effect (not_own a) (top :: level) b [] es us sus det b' ->
  paced (length (sw_fills sw)) [] es [] (sweep_leaves a sw b) (sweep_leaves a (aggr_swept sw al) b').
Proof using Hli Hsw Hlive.
  intros Hl es E. destruct (level_left_range _ _ Hl) as (Hal & Htl & _).
  destruct level_top as (Hp & Hs & Hv & Hq & Hne & Hr & Hst).
  destruct (aggr_accounting a top sw al Hal) as (A1 & A2 & A3 & A4 & _).
  destruct (reduce_events_other (mode (order_stp a)) (order_id top) (order_id a) (length (sw_fills sw)) top tl (order_id a)) as [N1 N2]; [congruence|].
  rewrite Hst in A2. simpl in A2.
  eapply paced_cuts; [by apply reduce_events_cuts|by apply aggr_events_cuts|done| | |lia|lia| |]; unfold sweep_leaves.
  - rewrite bool_decide_false by done. unfold qty. by rewrite (inv_live _ _ top (li_inv _ _ _ _ Hli) ltac:(left)).
  - by rewrite bool_decide_true, Hst by done.
  - intros id. simpl. case_bool_decide as Hid; [subst id|by split; [apply (eff_qty_le E)|intros Hn _; apply (eff_qty E)]].
    rewrite restated_in_app, canceled_in_app, N1, N2, Hst. simpl. rewrite A2.
    destruct (canceled_in (order_id a) (aggr_events a top sw al)); split; try done; intros; lia.
  - intros id [Hc|Hc]; [|by apply not_elem_of_nil in Hc]. case_bool_decide as Hid.
    + subst id. rewrite canceled_in_app, N2 in Hc. simpl in Hc. by rewrite A2, Hc.
    + unfold qty. by rewrite (eff_canceled E id Hid Hc).
Qed.

Lemma level_stp_spec level' sw' b' :
  level_stp a p top level sw b = (level', sw', b') ->
  exists es sus, sweep_effect a (top :: level) b sw [] es [] sus level' b' sw' /\
    level_inv a p level' b' /\
    (stopped sw' = true \/ remaining sw' + sumZ quantity level' < remaining sw + sumZ quantity (top :: level)) /\
    (forall s, side_levels s b' = side_levels s b).
Proof using Hli Hsw Hlive.
  destruct (stp_left (mode (order_stp a)) (remaining sw) (quantity top)) as [al tl] eqn:Hl.
  rewrite (level_stp_eq _ _ Hl). destruct (level_left_range _ _ Hl) as (Hal & Htl & Hlt).
  destruct level_top as (Hp & Hs & Hv & Hq & Hne & Hr & Hst).
  pose proof (li_inv _ _ _ _ Hli) as Hinv.
  destruct (stp_reduce _ _ _ _ top tl b) as [top' b3] eqn:R.
  assert (top' = with_quantity tl top) as -> by (rewrite (stp_reduce_eq _ _ _ _ _ _ _ _ Hinv) in R; by simplify_eq).
  destruct (stp_reduce_effect (not_own a) _ _ _ _ _ _ _ _ Hinv Htl _ R) as (sus & E1 & _ & V1 & O1).
  pose proof (aggr_events_effect a top sw al _ _ (eff_inv E1)) as E2.
  destruct (aggr_accounting a top sw al Hal) as (A1 & A2 & A3 & A4 & A5 & A6).
  pose proof (effect_trans E1 E2) as E. rewrite !app_nil_r in E.
  destruct (reduce_events_other (mode (order_stp a)) (order_id top) (order_id a) (length (sw_fills sw)) top tl (order_id a)) as [N1 N2]; [congruence|].
  intros [= <- <- <-]. eexists _, sus. split_and!.
  - split; [exact E|by rewrite app_nil_r|by rewrite app_nil_r| |done| |constructor|].
    + rewrite restated_in_app, N1. simpl. lia.
    + by rewrite canceled_in_app, N2.
    + by eapply level_stp_paced.
  - rewrite <- (app_nil_r level) at 1. apply (level_back tl _ _ b3); rewrite ?app_nil_r;
      [done|intros; apply V1; [lia|done]|done|apply (eff_inv E)|apply (eff_lineage E)|]. unfold aggr_events. by destruct (al =? 0), (remaining sw - al >? 0).
  - destruct A3 as [->|A3]; [by left|right]. rewrite A3, sumZ_app, sumZ_live_list. simpl. lia.
  - intros s. rewrite <- (stp_reduce_levels _ _ _ _ _ _ _ _ _ s R). unfold aggr_events.
    by destruct (al =? 0), (remaining sw - al >? 0), s.
Qed.
Lemma level_step_spec :
  exists level' sw' b' fs es us sus,
    (if self_match a top then level_stp a p top level sw b else level_fill a p top level sw b) = (level', sw', b') /\
    sweep_effect a (top :: level) b sw fs es us sus level' b' sw' /\ level_inv a p level' b' /\
    Forall (fun f => trade_price f = p) fs /\ (forall s, side_levels s b' = side_levels s b) /\
    (stopped sw' = true \/ remaining sw' + sumZ quantity level' < remaining sw + sumZ quantity (top :: level)).
Proof using Hli Hsw Hlive.
  destruct level_top as (_ & _ & Hv & _ & _ & Hr & _).
  destruct (self_match a top) eqn:Hself.
  - destruct (level_stp a p top level sw b) as [[level' sw'] b'] eqn:E.
    destruct (level_stp_spec _ _ _ E) as (es & sus & H1 & H2 & H3 & H4).
    exists level', sw', b', [], es, [], sus. split_and!; (done || constructor).
  - destruct (level_fill a p top level sw b) as [[level' sw'] b'] eqn:E.
    destruct (level_fill_spec _ _ _ Hself E) as (us & l1 & l2 & H1 & H2 & H3 & H4 & _ & _ & H5).
    destruct (level_report_ok Hself) as (Fp & Fq & _).
    exists level', sw', b', [level_report], [], us, []. split_and!; try done; [by apply Forall_singleton|right].
    pose proof (se_remaining H1) as R. simpl in R. rewrite Fq in R.
    pose proof (f_equal (sumZ quantity) H4) as S. rewrite sumZ_app, sumZ_live_list in S.
    rewrite H3, !sumZ_app. simpl. unfold ql, q in *. lia.
Qed.

End level.

(** ** A whole level *)

Lemma level_nonneg a p l1 l2 b : level_inv a p (l1 ++ l2) b -> 0 <= sumZ quantity l2.
Proof.
  intros [Hinv _ _ _]. apply sumZ_nonneg. pose proof (inv_orders _ _ Hinv) as H.
  rewrite !Forall_app in H. destruct H as [[_ H] _]. eapply Forall_impl; [exact H|]. intros o [Hq _]. lia.
Qed.

Lemma level_loop_spec a p fuel level sw b :
  level_inv a p level b -> sweep_ok sw ->
  (if sweep_live sw then remaining sw + sumZ quantity level else 0) < Z.of_nat fuel ->
  exists level' sw' b' fs es us sus, level_loop fuel a p level sw b = Done (level', sw', b') /\
    sweep_effect a level b sw fs es us sus level' b' sw' /\ level_inv a p level' b' /\
    (sweep_live sw' = false \/ level' = []) /\ Forall (fun f => trade_price f = p) fs /\
    (forall s, side_levels s b' = side_levels s b).
Proof.
  revert level sw b. induction fuel as [|fuel IH]; intros level sw b Hli Hsw Hfuel.
  { pose proof (level_nonneg _ _ [] _ _ Hli). unfold sweep_ok in Hsw. destruct (sweep_live sw); lia. }
  simpl. destruct (sweep_live sw) eqn:Hlive.
  2: { eexists _, _, _, [], [], [], []. split; [done|]. split_and!; try done; [|by left].
       apply sweep_effect_refl; [apply Hli|apply Hsw]. }
  destruct level as [|top level].
  { eexists _, _, _, [], [], [], []. split; [done|]. split_and!; try done; [|by right].
    apply sweep_effect_refl; [apply Hli|apply Hsw]. }
  destruct (level_step_spec a p top level sw b Hli Hsw Hlive)
    as (level1 & sw1 & b1 & fs & es & us & sus & -> & E1 & Hli1 & Hf1 & L1 & Hm1).
  destruct (level_top a p top level sw b Hli Hsw Hlive) as (_ & _ & Hv & _ & _ & Hr & _).
  pose proof (level_nonneg _ _ [top] _ _ Hli) as Hnn. simpl in Hfuel.
  destruct (IH level1 sw1 b1 Hli1) as (level2 & sw2 & b2 & fs2 & es2 & us2 & sus2 & -> & E2 & Hli2 & Hd2 & Hf2 & L2).
  - pose proof (se_range E1). unfold sweep_ok in *. lia.
  - destruct (sweep_live sw1) eqn:Hl1; [|lia].
    unfold sweep_live in Hl1. propify. simpl in Hm1. destruct Hm1; [congruence|lia].
  - eexists _, _, _, _, _, _, _. split; [done|].
    split_and!; [by eapply sweep_effect_trans|done|done|by apply Forall_app|]. intros s. by rewrite L2.
Qed.

Lemma detach_level a p level b :
  wf_book b -> order_lookup b !! order_id a = None ->
  let s := opposite (side a) in
  bt_get p (side_levels s b) = Some level ->
  let b0 := set_levels s (bt_remove p (side_levels s b)) b in
  level_inv a p level b0 /\ effect (not_own a) [] b [] [] [] [] level b0.
Proof.
  intros Hwf Hfr s Hg b0. pose proof (inv_levels _ _ Hwf s) as Hlv. pose proof (inv_shown _ _ Hwf) as Hsh.
  assert (Forall (fun o => 0 < visible b o) (bt_concat (side_levels s b))) as Hsh1.
  { rewrite Forall_forall in Hsh |- *. intros o Ho. by apply Hsh, (orders_levels s). }
  rewrite (bt_concat_get _ _ _ Hg), Forall_app in Hsh1. destruct Hsh1 as [Hsl Hsr].
  assert (book_inv level b0) as I0.
  { apply (book_inv_set_levels []); [done|by apply levels_ok_remove| |done].
    simpl. by apply bt_concat_get. }
  split; [|by apply effect_move].
  split; [done| |done|done]. by destruct (levels_ok_get _ _ _ _ Hlv Hg).
Qed.

Lemma attach_level a p level b m :
  level_inv a p level b -> let s := opposite (side a) in
  bt_sorted m -> side_levels s b = bt_remove p m ->
  let b' := if is_nil level then b else set_levels s (bt_insert p level (side_levels s b)) b in
  effect (not_own a) level b [] [] [] [] [] b' /\
  side_levels s b' = (if is_nil level then bt_remove p m else bt_insert p level (bt_remove p m)) /\
  side_levels (side a) b' = side_levels (side a) b.
Proof.
  intros [Hinv Hlv Hsh Hfr] s Hm Hs b'. unfold b'.
  assert (side_levels (side a) (set_levels s (bt_insert p level (side_levels s b)) b) = side_levels (side a) b) as Hown.
  { unfold s. by destruct (side a). }
  destruct level as [|o l]; simpl is_nil; cbv iota; [split; [by apply effect_refl|done]|].
  rewrite side_levels_set_levels, Hs. split_and!; [|done|by rewrite <- Hs].
  apply effect_move; try done. rewrite <- Hs.
  assert (bt_remove p (side_levels s b) = side_levels s b) as Hrm.
  { apply bt_get_None_remove; [apply (inv_levels _ _ Hinv s)|]. rewrite Hs. by apply bt_get_remove_eq. }
  apply (book_inv_set_levels (o :: l)); [done| | |].
  - apply levels_ok_insert; [apply (inv_levels _ _ Hinv s)|]. done.
  - rewrite bt_concat_insert, Hrm by apply (inv_levels _ _ Hinv s). done.
  - rewrite bt_concat_insert, Hrm, Forall_app by apply (inv_levels _ _ Hinv s). split; [done|].
    pose proof (inv_shown _ _ Hinv) as H. rewrite Forall_forall in H |- *. intros x Hx. by apply H, (orders_levels s).
Qed.

Lemma fill_level_spec a p sw b :
  wf_book b -> order_lookup b !! order_id a = None -> sweep_ok sw ->
  let s := opposite (side a) in
  best_price s (side_levels s b) = Some p ->
  exists sw' b' fs es us sus, fill_level a p sw b = Done (sw', b') /\
    sweep_effect a [] b sw fs es us sus [] b' sw' /\ Forall (fun f => trade_price f = p) fs /\
    side_levels (side a) b' = side_levels (side a) b /\
    (exists level', side_levels s b' = (if is_nil level' then bt_remove p (side_levels s b)
                                        else bt_insert p level' (bt_remove p (side_levels s b))) /\
                    (sweep_live sw' = false \/ level' = [])).
Proof.
  intros Hwf Hfr Hsw s Hb. unfold fill_level. fold s.
  destruct (best_price_get _ _ _ (inv_levels _ _ Hwf s) Hb) as (o & l & Hg & _).
  destruct (detach_level a p (o :: l) b Hwf Hfr Hg) as [Hli E0]. fold s in Hli, E0.
  rewrite Hg. change (default [] (Some (o :: l))) with (o :: l). set (level := o :: l) in *.
  set (b0 := set_levels s (bt_remove p (side_levels s b)) b) in *.
  destruct (level_loop_spec a p (level_fuel sw level) level sw b0 Hli Hsw)
    as (level' & sw' & b1 & fs & es & us & sus & -> & E1 & Hli1 & Hd & Hf & L1).
  { unfold level_fuel. pose proof (level_nonneg _ _ [] _ _ Hli). unfold sweep_ok in Hsw. destruct (sweep_live sw); lia. }
  destruct (attach_level a p level' b1 (side_levels s b) Hli1) as (E2 & Hs & Ho).
  { apply (inv_levels _ _ Hwf s). }
  { rewrite L1. unfold b0. by rewrite side_levels_set_levels. }
  fold s in E2, Hs, Ho. cbn [obind]. eexists sw', _, fs, es, us, sus. split; [done|]. split_and!; [|done| |].
  - eapply sweep_effect_post; [exact E2|]. by eapply sweep_effect_pre.
  - rewrite Ho, L1. unfold b0, s. by destruct (side a).
  - by exists level'.
Qed.

(** ** The sweep *)

Lemma best_price_le b s p o :
  wf_book b -> best_price s (side_levels s b) = Some p ->
  order_lookup b !! order_id o = Some o -> side o = s -> price_le s p (price o).
Proof.
  intros Hwf Hb Ho <-.
  destruct (inv_lookup_elem _ _ _ _ Hwf Ho) as [Hin _].
  destruct (inv_in_level b o Hwf Hin) as (l1 & l2 & Hg).
  pose proof (inv_levels _ _ Hwf (side o)) as [Hsrt _]. apply bt_get_Some_elem in Hg.
  unfold price_le, best_price in *. destruct (side o).
  - pose proof (bt_last_ge _ _ _ _ Hsrt Hb Hg) as H. simpl in H. propify. lia.
  - pose proof (bt_first_le _ _ _ _ Hsrt Hb Hg) as H. simpl in H. propify. lia.
Qed.

Lemma sweep_prices a b p fs :
  wf_book b -> best_price (opposite (side a)) (side_levels (opposite (side a)) b) = Some p ->
  Forall (sweep_fill_ok a b) fs -> Forall (price_le (opposite (side a)) p) (trade_price <$> fs).
Proof.
  intros Hwf Hb Hf. apply Forall_fmap. eapply Forall_impl; [exact Hf|].
  intros f (r & Hr & Hs & Hp & _). simpl. rewrite Hp. by apply (best_price_le b).
Qed.

Lemma price_le_refl s p : price_le s p p.
Proof. destruct s; simpl; lia. Qed.

Lemma bt_remove_length {V} (p : Z) (l : V) (m : list (Z * V)) :
  bt_get p m = Some l -> length m = S (length (bt_remove p m)).
Proof. intros Hg%bt_get_perm. by rewrite Hg at 1. Qed.

Lemma sorted_level p s l ps :
  Forall (fun p' => p' = p) l -> Forall (price_le s p) ps -> StronglySorted (price_le s) ps ->
  StronglySorted (price_le s) (l ++ ps).
Proof.
  intros Hl Hps Hs. induction Hl as [|x l -> Hl IH]; [done|]. simpl. constructor; [done|].
  apply Forall_app. split; [|done]. eapply Forall_impl; [exact Hl|]. intros ? ->. apply price_le_refl.
Qed.

(** Where a sweep stops: the aggressor is done, or no resting price is left
    that it may trade at. *)
Definition swept_out (limit : bool) (a : Order) (sw : Sweep) (b : OrderBook) : Prop :=
  sweep_live sw = false \/
  match best_price (opposite (side a)) (side_levels (opposite (side a)) b) with
  | None => True
  | Some p => limit = true /\ crosses a p = false
  end.

Lemma sweep_loop_spec fuel limit a sw b :
  wf_book b -> order_lookup b !! order_id a = None -> sweep_ok sw ->
  let s := opposite (side a) in
  ((if sweep_live sw then length (side_levels s b) else 0) < fuel)%nat ->
  exists sw' b' fs es us sus, sweep_loop fuel limit a sw b = Done (sw', b') /\
    sweep_effect a [] b sw fs es us sus [] b' sw' /\
    side_levels (side a) b' = side_levels (side a) b /\
    StronglySorted (price_le s) (trade_price <$> fs) /\
    (limit = true -> Forall (fun f => crosses a (trade_price f) = true) fs) /\
    swept_out limit a sw' b'.
Proof.
  intros Hwf Hfr Hsw s. unfold swept_out. fold s. revert sw b Hwf Hfr Hsw.
  induction fuel as [|fuel IH]; intros sw b Hwf Hfr Hsw Hfuel; [lia|].
  assert (forall P : Prop, P -> sweep_effect a [] b sw [] [] [] [] [] b sw /\
    side_levels (side a) b = side_levels (side a) b /\ StronglySorted (price_le s) (trade_price <$> []) /\
    (limit = true -> Forall (fun f => crosses a (trade_price f) = true) []) /\ P) as Hstop.
  { intros P HP. split_and!; try done; [|constructor]. apply sweep_effect_refl; [done|apply Hsw]. }
  simpl. destruct (sweep_live sw) eqn:Hlive; [|eexists sw, b, [], [], [], []; auto].
  fold s. destruct (best_price s (side_levels s b)) as [p|] eqn:Hb.
  2: { eexists sw, b, [], [], [], []. split; [done|]. apply Hstop. rewrite Hb. by right. }
  destruct (limit && negb (crosses a p)) eqn:Hlim.
  { propify. eexists sw, b, [], [], [], []. split; [done|]. apply Hstop. rewrite Hb. by right. }
  destruct (fill_level_spec a p sw b Hwf Hfr Hsw Hb)
    as (sw1 & b1 & fs & es & us & sus & -> & E1 & Hf & Ho & level' & Hlv & Hd).
  fold s in Hlv. cbn [obind].
  destruct (IH sw1 b1) as (sw2 & b2 & fs2 & es2 & us2 & sus2 & -> & E2 & Ho2 & Hs2 & Hc2 & Hd2).
  - apply (eff_inv (se_effect E1)).
  - eapply lineage_None; [apply (eff_lineage (se_effect E1))|done].
  - pose proof (se_range E1). unfold sweep_ok in *. lia.
  - destruct (best_price_get _ _ _ (inv_levels _ _ Hwf s) Hb) as (o & l & Hg & _).
    pose proof (bt_remove_length _ _ _ Hg). destruct (sweep_live sw1); [|lia].
    destruct Hd as [Hd| -> ]; [done|]. rewrite Hlv. simpl. lia.
  - eexists _, _, _, _, _, _. split; [done|]. split_and!; [by eapply sweep_effect_trans|congruence| | |done].
    + rewrite fmap_app. apply (sorted_level p); [by apply Forall_fmap| |done].
      apply (sweep_prices a b); [done..|]. eapply Forall_impl; [apply (se_fill_ok E2)|].
      intros f. apply sweep_fill_ok_lineage, (eff_lineage (se_effect E1)).
    + intros ->. apply Forall_app. split; [|auto]. simpl in Hlim. propify.
      eapply Forall_impl; [exact Hf|]. intros f ->. done.
Qed.

Lemma execute_eq limit a b :
  execute limit a b = let* (sw, b) := sweep_loop (sweep_fuel a b) limit a (sweep_new a) b in Done (sweep_finish sw, b).
Proof. by destruct limit. Qed.

Lemma execute_spec limit a b :
  wf_book b -> enterable a b ->
  exists sw b' fs es us sus, execute limit a b = Done (sweep_finish sw, b') /\
    sweep_effect a [] b (sweep_new a) fs es us sus [] b' sw /\
    side_levels (side a) b' = side_levels (side a) b /\
    StronglySorted (price_le (opposite (side a))) (trade_price <$> fs) /\
    (limit = true -> Forall (fun f => crosses a (trade_price f) = true) fs) /\
    swept_out limit a sw b'.
Proof.
  intros Hwf [Hq Hfr]. rewrite execute_eq.
  destruct (sweep_loop_spec (sweep_fuel a b) limit a (sweep_new a) b Hwf Hfr)
    as (sw & b' & fs & es & us & sus & -> & H); [unfold sweep_ok; simpl; lia| |].
  { unfold sweep_fuel. destruct (sweep_live (sweep_new a)); lia. }
  by exists sw, b', fs, es, us, sus.
Qed.

Lemma execute_run limit a b r b' :
  wf_book b -> enterable a b -> execute limit a b = Done (r, b') ->
  exists sw es us sus, r = sweep_finish sw /\
    sweep_effect a [] b (sweep_new a) (fills r) es us sus [] b' sw /\ fill_updates r = us /\
    StronglySorted (price_le (opposite (side a))) (trade_price <$> fills r) /\
    (limit = true -> Forall (fun f => crosses a (trade_price f) = true) (fills r)).
Proof.
  intros Hwf He Hrun. destruct (execute_spec limit a b Hwf He)
    as (sw & b0 & fs & es & us & sus & Hrun0 & E & _ & Hs & Hc & _).
  rewrite Hrun in Hrun0. injection Hrun0 as -> ->. exists sw, es, us, sus.
  pose proof (se_fills E) as Hf. pose proof (se_updates E) as Hu. simpl in Hf, Hu |- *.
  rewrite Hf, Hu. done.
Qed.

Lemma bid_ioc_enterable : enterable bid_ioc quiet_book.
Proof. split; [vm_compute; split; congruence|reflexivity]. Qed.

(** ** Theorems *)

(** A market or IOC order always executes: the sweep terminates without a
    panic, leaves a well-formed book and never touches the orders of its own
    side. If the order is not filled, nothing it may trade with is left: the
    opposite side is empty, or for an IOC order its best price is beyond the
    limit. *)
Theorem execute_total limit a b :
  wf_book b -> enterable a b ->
  exists r b', execute limit a b = Done (r, b') /\ wf_book b' /\
    side_levels (side a) b' = side_levels (side a) b /\
    (0 < unfilled_qty r -> forall o, order_lookup b' !! order_id o = Some o -> side o = opposite (side a) ->
       limit = true /\ crosses a (price o) = false).
Proof.
  intros Hwf He. destruct (execute_spec limit a b Hwf He)
    as (sw & b' & fs & es & us & sus & Hrun & E & Hown & _ & _ & Hout).
  pose proof (eff_inv (se_effect E)) as Hwf'. exists (sweep_finish sw), b'. split_and!; [done..|].
  simpl. intros Hun o Ho Hs. assert (sweep_live sw = true) as Hlive.
  { unfold sweep_live. destruct (stopped sw); [lia|]. apply andb_true_iff. split; [lia|done]. }
  destruct Hout as [?|Hout]; [congruence|].
  destruct (best_price _ _) as [p|] eqn:Hb.
  - destruct Hout as [-> Hc]. split; [done|]. pose proof (best_price_le b' _ p o Hwf' Hb Ho Hs) as Hle.
    unfold crosses, price_le in *. destruct (side a); simpl in *; propify; lia.
  - destruct (inv_lookup_elem _ _ _ _ Hwf' Ho) as [Hin _]. destruct (inv_in_level b' o Hwf' Hin) as (l1 & l2 & Hg).
    rewrite Hs in Hg. exfalso. unfold best_price in Hb. destruct (side a); simpl in *.
    + apply bt_first_None in Hb. by rewrite Hb in Hg.
    + apply bt_last_None in Hb. by rewrite Hb in Hg.
Qed.

Lemma execute_total_witness :
  exists r b', execute true bid_cross quiet_book = Done (r, b') /\ wf_book b' /\
    side_levels Buy b' = side_levels Buy quiet_book /\
    (0 < unfilled_qty r -> forall o, order_lookup b' !! order_id o = Some o -> side o = Sell ->
       true = true /\ crosses bid_cross (price o) = false).
Proof. apply (execute_total true bid_cross quiet_book quiet_wf). split; [vm_compute; split; congruence|reflexivity]. Defined.

(** The trades of a sweep are legal and in price priority: each is for a
    positive quantity with an order resting on the opposite side, at that
    order's price, not prevented as a self-match; the prices never improve along
    the sweep, and an IOC order stays within its limit. *)
Theorem execute_fills limit a b r b' :
  wf_book b -> enterable a b -> execute limit a b = Done (r, b') ->
  Forall (sweep_fill_ok a b) (fills r) /\
  StronglySorted (price_le (opposite (side a))) (trade_price <$> fills r) /\
  (limit = true -> Forall (fun f => crosses a (trade_price f) = true) (fills r)).
Proof.
  intros Hwf He Hrun. destruct (execute_run _ _ _ _ _ Hwf He Hrun) as (sw & es & us & sus & _ & E & _ & Hs & Hc).
  split_and!; [exact (se_fill_ok E)|done|done].
Qed.

Lemma execute_fills_witness :
  exists r b', execute true bid_ioc quiet_book = Done (r, b') /\ fills r <> [] /\
  Forall (sweep_fill_ok bid_ioc quiet_book) (fills r).
Proof.
  destruct (execute true bid_ioc quiet_book) as [[r b']| |] eqn:E; [|vm_compute in E; discriminate..].
  exists r, b'. split; [done|]. split; [intros Hn; vm_compute in E; injection E as <- _; discriminate|].
  exact (proj1 (execute_fills true _ _ _ _ quiet_wf bid_ioc_enterable E)).
Defined.

(** A sweep accounts for every unit. Unless self-trade prevention canceled
    it, the aggressor's quantity is what it traded, plus what prevention took
    off it, plus what it reports unfilled; a canceled aggressor reports nothing
    unfilled. Every resting order keeps exactly what it did not trade or lose to
    prevention, unless prevention canceled it. *)
Theorem execute_conservation limit a b r b' :
  wf_book b -> enterable a b -> execute limit a b = Done (r, b') ->
  exists es, events (book_stp b') = events (book_stp b) ++ es /\
    (stp_canceled r = false ->
       sumZ trade_quantity (fills r) + restated_in (order_id a) es + unfilled_qty r = quantity a) /\
    stp_canceled r = canceled_in (order_id a) es /\ (stp_canceled r = true -> unfilled_qty r = 0) /\
    0 <= unfilled_qty r <= quantity a /\
    (forall id, id <> order_id a ->
       filled_in id (fills r) + restated_in id es + qty b' id <= qty b id /\
       (canceled_in id es = false -> filled_in id (fills r) + restated_in id es + qty b' id = qty b id)).
Proof.
  intros Hwf He Hrun. destruct (execute_run _ _ _ _ _ Hwf He Hrun) as (sw & es & us & sus & -> & E & _).
  exists es. pose proof (se_remaining E) as Hr. pose proof (se_range E) as Hg. pose proof (se_stopped E) as Hst.
  simpl in Hr, Hg, Hst |- *. split_and!; [exact (eff_events (se_effect E))|..].
  - intros Hf. rewrite Hf. lia.
  - done.
  - intros Hf. by rewrite Hf.
  - destruct (stopped sw); lia.
  - destruct (stopped sw); lia.
  - intros id Hid. split; [by apply (eff_qty_le (se_effect E))|by apply (eff_qty (se_effect E))].
Qed.

Lemma execute_conservation_witness :
  exists r b', execute true bid_ioc quiet_book = Done (r, b') /\ fills r <> [] /\
  exists es, events (book_stp b') = es /\ es <> [] /\
    (stp_canceled r = false -> sumZ trade_quantity (fills r) + restated_in "b4" es + unfilled_qty r = 4).
Proof.
  destruct (execute true bid_ioc quiet_book) as [[r b']| |] eqn:E; [|vm_compute in E; discriminate..].
  exists r, b'. split; [done|]. split; [intros Hn; vm_compute in E; injection E as <- _; discriminate|].
  destruct (execute_conservation true _ _ _ _ quiet_wf bid_ioc_enterable E) as (es & He & Ha & _).
  exists es. split; [exact He|]. split; [|exact Ha]. intros ->. vm_compute in E. injection E as _ <-. discriminate He.
Defined.

(** The market data of a sweep is exact: the fill updates and the updates of
    self-trade prevention turn the displayed depth of the old book into that of
    the new one. *)
Theorem execute_market_data limit a b r b' :
  wf_book b -> enterable a b -> execute limit a b = Done (r, b') ->
  exists sus, stp_updates (book_stp b') = stp_updates (book_stp b) ++ sus /\
  forall s p, depth [] b' s p = depth [] b s p + changes_at s p (fill_updates r ++ sus).
Proof.
  intros Hwf He Hrun. destruct (execute_run _ _ _ _ _ Hwf He Hrun) as (sw & es & us & sus & _ & E & -> & _).
  exists sus. split; [exact (eff_updates (se_effect E))|]. intros s p.
  rewrite (eff_depth (se_effect E)), changes_at_app. lia.
Qed.

Lemma execute_market_data_witness :
  exists r b', execute true bid_ioc quiet_book = Done (r, b') /\ fills r <> [] /\
  exists sus, depth [] b' Sell 101 = 5 + changes_at Sell 101 (fill_updates r ++ sus).
Proof.
  destruct (execute true bid_ioc quiet_book) as [[r b']| |] eqn:E; [|vm_compute in E; discriminate..].
  exists r, b'. split; [done|]. split; [intros Hn; vm_compute in E; injection E as <- _; discriminate|].
  destruct (execute_market_data true _ _ _ _ quiet_wf bid_ioc_enterable E) as (sus & _ & Hd).
  exists sus. exact (Hd Sell 101).
Defined.
