(* ===== verification/Fok.v ===== *)
(** * Fill-or-kill

    [execute_fok] scans the crossing levels before it trades. The scan is sound:
    when it finds enough quantity, the sweep that follows fills the order
    completely and meets no self-match; and it is complete: it kills the order
    only when the crossing levels hold too little, and prevents a self-match
    only when the order would reach an own order before it is covered. *)

From S2P Require Import Prelude BTree Order OrderBook BookInvariant Samples BookEffects Matcher Effects Sweep.

(** ** Definitions *)

(** The orders of [m], the side opposite to [a], that [a] may reach. *)
Definition crossing_of (a : Order) (m : levels) : list Order :=
  match side a with
  | Buy => bt_concat (filter (fun e => e.1 <= price a) m)
  | Sell => bt_concat (rev (filter (fun e => price a <= e.1) m))
  end.

Definition no_self (a o : Order) : Prop := self_match a o = false.

(** The orders against [a], the prices within its limit, and of two prices the
    one it trades at first. *)
Definition opposing (a : Order) (b : OrderBook) : list Order := bt_concat (side_levels (opposite (side a)) b).
Definition within (a : Order) (p : Z) : Prop := match side a with Buy => p <= price a | Sell => price a <= p end.
Definition nearer (a : Order) (p q : Z) : Prop := match side a with Buy => p < q | Sell => q < p end.

#[export] Instance within_dec a p : Decision (within a p).
Proof. unfold within. destruct (side a); apply _. Defined.
#[export] Instance nearer_dec a p q : Decision (nearer a p q).
Proof. unfold nearer. destruct (side a); apply _. Defined.

(** The order [o] is the first one that [a] reaches and would match with itself,
    behind [pre] in its queue. *)
Record own_first (a : Order) (b : OrderBook) (pre : list Order) (o : Order) : Prop := {
  of_queue : exists post, bt_get (price o) (side_levels (opposite (side a)) b) = Some (pre ++ o :: post);
  of_within : within a (price o);
  of_self : self_match a o = true;
  of_free : Forall (no_self a) (filter (fun r => nearer a (price r) (price o)) (opposing a b) ++ pre);
}.

(** What [a] can trade before it reaches [o]: all of the orders at nearer
    prices, reserves included, and the displayed part of those in the queue. *)
Definition before_own (a : Order) (b : OrderBook) (pre : list Order) (o : Order) : Z :=
  sumZ quantity (filter (fun r => nearer a (price r) (price o)) (opposing a b)) + sumZ (visible b) pre.

Definition all_within (a : Order) (b : OrderBook) : list Order := filter (fun r => within a (price r)) (opposing a b).

(** How a fill-or-kill order [a] ends on [b]. *)
Inductive fok_case (a : Order) (b : OrderBook) : AggressiveResult -> OrderBook -> Prop :=
| fok_filled r b' :
    quantity a <= sumZ quantity (all_within a b) -> (forall pre o, own_first a b pre o -> quantity a <= before_own a b pre o) ->
    sumZ trade_quantity (fills r) = quantity a -> unfilled_qty r = 0 -> stp_canceled r = false ->
    events (book_stp b') = events (book_stp b) ->
    Forall (fun f => crosses a (trade_price f) = true) (fills r) -> Forall (sweep_fill_ok a b) (fills r) ->
    fok_case a b r b'
| fok_killed r :
    sumZ quantity (all_within a b) < quantity a -> Forall (no_self a) (all_within a b) ->
    fills r = [] -> fill_updates r = [] -> unfilled_qty r = quantity a -> stp_canceled r = false ->
    fok_case a b r b
| fok_prevented r b' pre o :
    own_first a b pre o -> before_own a b pre o < quantity a ->
    fills r = [] -> fill_updates r = [] -> unfilled_qty r = 0 -> stp_canceled r = true ->
    b' = push_stp_event {| ev_order_id := order_id a; opposing_order := order_id o; action := Canceled;
                           ev_mode := mode (order_stp a); before_fill := 0 |} b ->
    fok_case a b r b'.

(** ** The sweep of one level, exactly *)

(** The parts of a sweep that stay as they are while nothing self-matches. *)
Record quiet (level : list Order) (sw sw' : Sweep) (b b' : OrderBook) : Prop := {
  quiet_stopped : stopped sw' = stopped sw;
  quiet_events : events (book_stp b') = events (book_stp b);
  quiet_visible : forall x, order_id x ∉ order_id <$> level -> visible b' x = visible b x;
}.

Lemma quiet_refl level sw b : quiet level sw sw b b.
Proof. by split. Qed.

Section top.
Context (a : Order) (p : Z) (top : Order) (level : list Order) (sw : Sweep) (b : OrderBook).
Context (Hli : level_inv a p (top :: level) b) (Hsw : sweep_ok sw) (Hlive : sweep_live sw = true).
Context (Hself : no_self a top).

Lemma level_fill_quiet level' sw' b' :
  level_fill a p top level sw b = (level', sw', b') ->
  let q := Z.min (visible b top) (remaining sw) in
  remaining sw' = remaining sw - q /\ sweep_ok sw' /\ level_inv a p level' b' /\
  quiet (top :: level) sw sw' b b' /\
  (forall x, x ∈ level -> visible b' x = visible b x) /\
  (order_id <$> level' ⊆ order_id <$> top :: level) /\
  sumZ quantity level' = sumZ quantity (top :: level) - q /\
  (Forall (no_self a) level -> Forall (no_self a) level') /\
  (q = visible b top -> exists l, level' = level ++ l).
Proof using Hli Hsw Hlive Hself.
  intros E q.
  destruct (level_fill_spec _ _ _ _ _ _ Hli Hsw Hlive _ _ _ Hself E) as (us & l1 & l2 & H1 & H2 & H3 & H4 & H5 & H6 & H7).
  destruct (level_report_ok _ _ _ _ _ _ Hli Hsw Hlive Hself) as (Fp & Fq & _). fold q in Fq, H4, H5.
  destruct (level_top _ _ _ _ _ _ Hli Hsw Hlive) as (_ & _ & Hv & _ & _ & Hr & _).
  pose proof (se_remaining H1) as R. simpl in R. rewrite Fq in R.
  pose proof (f_equal (sumZ quantity) H4) as S. rewrite sumZ_app, sumZ_live_list in S.
  pose proof (se_range H1) as G. unfold sweep_ok in Hsw.
  assert (forall x, x ∈ l1 \/ x ∈ l2 -> order_id x = order_id top /\ no_self a x) as Hl.
  { intros x Hx. apply elem_of_app in Hx. rewrite H4 in Hx. unfold live_list in Hx.
    destruct (_ =? 0); [by apply not_elem_of_nil in Hx|]. apply list_elem_of_singleton in Hx as ->. done. }
  split_and!; [lia|unfold sweep_ok; lia|done| | | | | |].
  - split.
    + rewrite (se_stopped H1). by rewrite orb_false_r.
    + rewrite (eff_events (se_effect H1)). by rewrite app_nil_r.
    + intros x Hx. apply H6. simpl in Hx. set_solver.
  - intros x Hx. apply H6, (inv_tail_ids _ _ _ (li_inv _ _ _ _ Hli)), elem_of_app. by left.
  - intros id. rewrite !list_elem_of_fmap. intros (x & -> & Hx). rewrite H3, !elem_of_app in Hx.
    destruct Hx as [Hx|[Hx|Hx]]; [exists top|exists x|exists top]; (split; [|set_solver]); (done || (apply Hl; auto)).
  - rewrite H3, !sumZ_app. simpl. lia.
  - intros Hn. rewrite H3. apply Forall_app. split; [|apply Forall_app; split; [done|]];
      apply Forall_forall; intros x Hx; apply Hl; auto.
  - intros Hq. rewrite (H5 Hq) in H3. by exists l2.
Qed.

End top.

Lemma quiet_trans level level1 sw sw1 sw2 b b1 b2 :
  quiet level sw sw1 b b1 -> quiet level1 sw1 sw2 b1 b2 ->
  order_id <$> level1 ⊆ order_id <$> level -> quiet level sw sw2 b b2.
Proof.
  intros [S1 E1 V1] [S2 E2 V2] Hs. split; [congruence..|].
  intros x Hx. rewrite V2 by (intros H; by apply Hx, Hs). by apply V1.
Qed.

(** Without a self-match the level and the aggressor lose the same quantity. *)
Lemma level_loop_no_self a p fuel : forall level sw b level' sw' b',
  level_inv a p level b -> sweep_ok sw -> Forall (no_self a) level ->
  level_loop fuel a p level sw b = Done (level', sw', b') ->
  quiet level sw sw' b b' /\ remaining sw - remaining sw' = sumZ quantity level - sumZ quantity level'.
Proof.
  induction fuel as [|fuel IH]; intros level sw b level' sw' b' Hli Hsw Hn; simpl; [done|].
  destruct (sweep_live sw) eqn:Hlive; [|intros [= <- <- <-]; split; [apply quiet_refl|lia]].
  destruct level as [|top level]; [intros [= <- <- <-]; split; [apply quiet_refl|lia]|].
  apply Forall_cons in Hn as [Ht Hn]. rewrite Ht.
  destruct (level_fill a p top level sw b) as [[level1 sw1] b1] eqn:E. intros Hloop.
  destruct (level_fill_quiet _ _ _ _ _ _ Hli Hsw Hlive Ht _ _ _ E) as (R1 & Hsw1 & Hli1 & Q1 & _ & I1 & T1 & N1 & _).
  destruct (IH _ _ _ _ _ _ Hli1 Hsw1 (N1 Hn) Hloop) as [Q2 T2].
  split; [by eapply quiet_trans|lia].
Qed.

(** Enough displayed quantity ahead of anything else fills the aggressor. *)
Lemma level_loop_prefix a p : forall pre post fuel sw b level' sw' b',
  level_inv a p (pre ++ post) b -> sweep_ok sw -> Forall (no_self a) pre ->
  stopped sw = false -> remaining sw <= sumZ (visible b) pre ->
  level_loop fuel a p (pre ++ post) sw b = Done (level', sw', b') ->
  remaining sw' = 0 /\ stopped sw' = false /\ events (book_stp b') = events (book_stp b).
Proof.
  induction pre as [|top pre IH]; intros post fuel sw b level' sw' b' Hli Hsw Hn Hst Hr;
    (destruct fuel as [|fuel]; [done|]); simpl in Hr; cbn [level_loop];
    destruct (sweep_live sw) eqn:Hlive.
  - unfold sweep_live in Hlive. propify. lia.
  - intros [= <- <- <-]. unfold sweep_ok in Hsw. split_and!; [lia|done..].
  - simpl app. apply Forall_cons in Hn as [Ht Hn]. rewrite Ht.
    destruct (level_fill a p top (pre ++ post) sw b) as [[level1 sw1] b1] eqn:E. intros Hloop.
    destruct (level_fill_quiet _ _ _ _ _ _ Hli Hsw Hlive Ht _ _ _ E) as (R1 & Hsw1 & Hli1 & [S1 E1 _] & V1 & _ & _ & _ & B1).
    destruct (Z.le_gt_cases (remaining sw) (visible b top)) as [Hle|Hgt].
    + destruct fuel as [|fuel]; [done|]. cbn [level_loop] in Hloop.
      assert (sweep_live sw1 = false) as Hl1 by (unfold sweep_live; rewrite R1; apply andb_false_iff; left; lia).
      rewrite Hl1 in Hloop. injection Hloop as <- <- <-. split_and!; [lia|congruence..].
    + destruct B1 as [l ->]; [lia|]. rewrite <- app_assoc in Hloop, Hli1.
      rewrite <- E1. apply (IH _ _ _ _ _ _ _ Hli1 Hsw1 Hn) with (3 := Hloop); [congruence|].
      rewrite (sumZ_ext (visible b1) (visible b)); [lia|]. apply Forall_forall. intros x Hx. apply V1. set_solver.
  - intros [= <- <- <-]. unfold sweep_live in Hlive. rewrite Hst in Hlive. simpl in Hlive.
    rewrite andb_true_r in Hlive. propify. unfold sweep_ok in Hsw. split_and!; [lia|done..].
Qed.

(** ** The crossing orders, level by level *)

Lemma crossing_eq a b : crossing a b = crossing_of a (side_levels (opposite (side a)) b).
Proof. unfold crossing, crossing_of. by destruct (side a). Qed.

Lemma filter_nil_all {A} (P : A -> Prop) `{forall x, Decision (P x)} l :
  Forall (fun x => ~ P x) l -> filter P l = [].
Proof. induction 1; [done|]. by rewrite filter_cons_False. Qed.

Section crossing.
Context (a : Order) (m : levels).

Lemma crossing_of_None : best_price (opposite (side a)) m = None -> crossing_of a m = [].
Proof using Type.
  unfold crossing_of, best_price. destruct (side a); simpl.
  - by intros ->%bt_first_None.
  - by intros ->%bt_last_None.
Qed.

Context (Hm : levels_ok (opposite (side a)) m).

Lemma crossing_of_stop p :
  best_price (opposite (side a)) m = Some p -> crosses a p = false -> crossing_of a m = [].
Proof using Hm.
  destruct Hm as [Hs _]. unfold crossing_of, best_price, crosses. destruct (side a); simpl; intros Hb Hc.
  - rewrite filter_nil_all; [done|]. apply Forall_forall. intros [k l] Hk. simpl.
    pose proof (bt_first_le _ _ _ _ Hs Hb Hk) as H. simpl in H. propify. lia.
  - rewrite filter_nil_all; [done|]. apply Forall_forall. intros [k l] Hk. simpl.
    pose proof (bt_last_ge _ _ _ _ Hs Hb Hk) as H. simpl in H. propify. lia.
Qed.

Lemma crossing_of_step p l :
  best_price (opposite (side a)) m = Some p -> bt_get p m = Some l -> crosses a p = true ->
  crossing_of a m = l ++ crossing_of a (bt_remove p m).
Proof using Hm.
  destruct Hm as [Hs _]. unfold crossing_of, best_price, crosses. destruct (side a); simpl; intros Hb Hg Hc.
  - destruct (bt_first_Some _ _ Hb) as (l' & m' & Em & Hg' & Hr). rewrite Hr. simplify_eq.
    rewrite filter_cons_True by (simpl; lia). apply bt_concat_cons.
  - destruct (bt_last_Some _ _ Hs Hb) as (l' & m' & Em & Hg' & Hr). rewrite Hr. simplify_eq.
    rewrite filter_app, rev_app_distr, filter_cons_True by (simpl; propify; lia). apply bt_concat_cons.
Qed.

End crossing.

Lemma elem_of_crossing_of a m o : o ∈ crossing_of a m -> o ∈ bt_concat m.
Proof.
  unfold crossing_of. rewrite elem_of_bt_concat.
  destruct (side a); intros (k & l & Hk & Ho)%elem_of_bt_concat; exists k, l; (split; [|done]).
  - by apply list_elem_of_filter in Hk as [_ ?].
  - apply list_elem_of_In, in_rev, list_elem_of_In, list_elem_of_filter in Hk. by destruct Hk.
Qed.

Lemma span_price_spec p l : forall l1 l2, span_price p l = (l1, l2) -> l = l1 ++ l2.
Proof.
  induction l as [|o l IH]; simpl; intros l1 l2; [by intros [= <- <-]|].
  destruct (price o =? p); [|by intros [= <- <-]].
  destruct (span_price p l) as [l1' l2']. intros [= <- <-]. simpl. f_equal. auto.
Qed.

Lemma span_price_level p l rest :
  Forall (fun o => price o = p) l -> Forall (fun o => price o <> p) rest ->
  span_price p (l ++ rest) = (l, rest).
Proof.
  intros Hl Hr. induction Hl as [|o l Ho Hl IH]; simpl.
  - destruct Hr as [|o rest Ho]; simpl; [done|]. by destruct (Z.eqb_spec (price o) p).
  - rewrite IH. by destruct (Z.eqb_spec (price o) p).
Qed.

(** ** The scan *)

Lemma fok_scan_total b a : forall fuel rest av, (length rest < fuel)%nat -> exists r, fok_scan fuel b a rest av = Done r.
Proof.
  induction fuel as [|fuel IH]; intros rest av Hf; [lia|]. cbn [fok_scan].
  destruct (av <? quantity a); [|eauto]. destruct rest as [|o rest]; [eauto|].
  destruct (span_price (price o) (o :: rest)) as [queue rest'] eqn:E.
  assert (length rest' < fuel)%nat as Hl.
  { simpl in E, Hf. rewrite Z.eqb_refl in E. destruct (span_price (price o) rest) as [l1 l2] eqn:E'.
    injection E as <- <-. apply span_price_spec in E'. rewrite E', length_app in Hf. lia. }
  destruct (fok_level b a _ queue av) as [av' [id|]]; eauto.
Qed.

Section scan.
Context (a : Order) (b : OrderBook).
Context (Ha : 0 < quantity a <= u32_max).

Definition counted (has_self : bool) (o : Order) : Z := if has_self then visible b o else quantity o.

(** A scan of a level that finds no self-match has counted a prefix of it, all
    of it unless that was already enough. *)
Lemma fok_level_None has_self queue : forall av av',
  Forall (fun o => 0 < counted has_self o <= u32_max) queue -> 0 <= av ->
  fok_level b a has_self queue av = (av', None) ->
  exists pre post, queue = pre ++ post /\ Forall (no_self a) pre /\
    av' = av + sumZ (counted has_self) pre /\ (post = [] \/ quantity a <= av').
Proof using Ha.
  induction queue as [|o queue IH]; intros av av' Hq Hav; simpl.
  { intros [= <-]. exists [], []. simpl. split_and!; [done|constructor|lia|by left]. }
  apply Forall_cons in Hq as [Ho Hq]. destruct (Z.geb_spec av (quantity a)) as [Hge|Hlt].
  { intros [= <-]. exists [], (o :: queue). simpl. split_and!; [done|constructor|lia|by right]. }
  destruct (self_match a o) eqn:Hs; [done|]. change (if has_self then visible b o else quantity o) with (counted has_self o).
  rewrite add64_small by (unfold u32_max, u64_max in *; lia).
  intros E. destruct (IH (av + counted has_self o) av' Hq ltac:(lia) E) as (pre & post & -> & Hn & -> & Hd).
  exists (o :: pre), post. simpl. split_and!; [done|by constructor|lia|].
  destruct Hd; [by left|right; lia].
Qed.

Lemma fok_level_Some has_self queue id : forall av av',
  Forall (fun o => 0 < counted has_self o <= u32_max) queue -> 0 <= av ->
  fok_level b a has_self queue av = (av', Some id) ->
  exists pre o post, queue = pre ++ o :: post /\ order_id o = id /\ self_match a o = true /\ Forall (no_self a) pre /\
    av + sumZ (counted has_self) pre < quantity a.
Proof using Ha.
  induction queue as [|o queue IH]; intros av av' Hq Hav; simpl; [done|].
  apply Forall_cons in Hq as [Ho Hq]. destruct (Z.geb_spec av (quantity a)) as [Hge|Hlt]; [done|]. destruct (self_match a o) eqn:Hs.
  - intros [= _ <-]. exists [], o, queue. simpl. split_and!; [done..|constructor|lia].
  - change (if has_self then visible b o else quantity o) with (counted has_self o). rewrite add64_small by (unfold u32_max, u64_max in *; lia).
    intros E. destruct (IH (av + counted has_self o) av' Hq ltac:(lia) E) as (pre & x & post & -> & Hid & Hx & Hn & Hsum). exists (o :: pre), x, post. simpl.
    split_and!; [done..|by constructor|lia].
Qed.

Lemma existsb_self_false queue : existsb (self_match a) queue = false -> Forall (no_self a) queue.
Proof using Type.
  intros H. apply Forall_forall. intros o Ho. destruct (self_match a o) eqn:E; [|done].
  exfalso. assert (existsb (self_match a) queue = true); [|congruence].
  apply existsb_exists. exists o. split; [by apply list_elem_of_In|done].
Qed.

Lemma existsb_self_true queue : existsb (self_match a) queue = true -> ~ Forall (no_self a) queue.
Proof using Type.
  intros (o & Ho & Hs)%existsb_exists H. rewrite Forall_forall in H.
  apply list_elem_of_In, H in Ho. unfold no_self in Ho. congruence.
Qed.

(** Queues of one price each, in the order they are swept in. *)
Definition queues_ok (ms : levels) : Prop :=
  NoDup ms.*1 /\ Forall (fun e => e.2 <> [] /\ Forall (fun o => price o = e.1 /\ 0 < visible b o <= quantity o /\ quantity o <= u32_max) e.2) ms.

(** The first order to self-match in the queues, and what comes before it. *)
Definition own_at (ms ms1 : levels) (pre : list Order) (o : Order) : Prop :=
  (exists p post ms2, ms = ms1 ++ (p, pre ++ o :: post) :: ms2) /\ Forall (no_self a) (bt_concat ms1 ++ pre) /\ self_match a o = true.
Definition reached (ms1 : levels) (pre : list Order) : Z := sumZ quantity (bt_concat ms1) + sumZ (visible b) pre.

Lemma queues_head p l ms : queues_ok ((p, l) :: ms) ->
  queues_ok ms /\ span_price p (l ++ bt_concat ms) = (l, bt_concat ms) /\ (exists o l', l = o :: l' /\ price o = p) /\
  Forall (fun o => 0 < visible b o <= quantity o /\ quantity o <= u32_max) l.
Proof using Ha.
  intros [Hnd Hq]. apply NoDup_cons in Hnd as [Hp Hnd]. apply Forall_cons in Hq as [[Hne Hl] Hq]. simpl in *. split_and!; [by split| | |].
  - apply span_price_level; [eapply Forall_impl; [exact Hl|tauto]|]. apply Forall_forall. intros o (k & l' & Hk & Ho)%elem_of_bt_concat Hpo.
    rewrite Forall_forall in Hq. destruct (Hq _ Hk) as [_ Hl']. rewrite Forall_forall in Hl'. destruct (Hl' _ Ho) as [Hko _]. simpl in Hko.
    apply Hp. apply list_elem_of_fmap. exists (k, l'). split; [simpl; congruence|done].
  - destruct l as [|o l]; [done|]. apply Forall_cons in Hl as [[Ho _] _]. eauto.
  - eapply Forall_impl; [exact Hl|]. tauto.
Qed.

Lemma sizes_counted hs l : Forall (fun o => 0 < visible b o <= quantity o /\ quantity o <= u32_max) l ->
  Forall (fun o => 0 < counted hs o <= u32_max) l /\ 0 <= sumZ (counted hs) l <= sumZ quantity l.
Proof using Ha.
  induction 1 as [|o l Ho _ [IH1 IH2]]; simpl; [split; [constructor|lia]|].
  assert (0 < counted hs o <= quantity o) as Hc by (unfold counted; destruct hs; lia). split; [constructor; [lia|done]|lia].
Qed.

(** A level that was left with enough was left before its first self-match. *)
Lemma prefix_before pre post pre' o post' :
  pre ++ post = pre' ++ o :: post' -> Forall (no_self a) pre -> self_match a o = true -> exists mid, pre' = pre ++ mid.
Proof using Type.
  revert pre'. induction pre as [|x pre IH]; intros pre' E Hn Ho; [by exists pre'|]. apply Forall_cons in Hn as [Hx Hn].
  destruct pre' as [|y pre']; injection E as -> E; [unfold no_self in Hx; congruence|].
  destruct (IH pre' E Hn Ho) as [mid ->]. by exists mid.
Qed.

Lemma own_at_cons p l ms ms1 pre o : own_at ((p, l) :: ms) ms1 pre o ->
  (ms1 = [] /\ (exists post, l = pre ++ o :: post) /\ Forall (no_self a) pre /\ self_match a o = true) \/
  (exists ms1', ms1 = (p, l) :: ms1' /\ Forall (no_self a) l /\ own_at ms ms1' pre o).
Proof using Type.
  intros [(q & post & ms2 & E) [Hf Hs]]. destruct ms1 as [|e ms1].
  - injection E as -> -> ->. left. split_and!; [done|by eexists|done|done].
  - injection E as <- ->. right. exists ms1. rewrite bt_concat_cons, <- app_assoc in Hf. apply Forall_app in Hf as [Hl Hf].
    split_and!; [done|done|]. split_and!; [by do 3 eexists|done|done].
Qed.

Lemma reached_cons p l ms1 pre : reached ((p, l) :: ms1) pre = sumZ quantity l + reached ms1 pre.
Proof using Ha. unfold reached. rewrite bt_concat_cons, sumZ_app. lia. Qed.

Lemma queues_sum ms : queues_ok ms -> 0 <= sumZ quantity (bt_concat ms) /\ forall ms1 pre o, own_at ms ms1 pre o -> 0 <= reached ms1 pre.
Proof using Ha.
  induction ms as [|[p l] ms IH]; intros Hok.
  { split; [done|]. intros ms1 pre o [(q & post & ms2 & E) _]. by destruct ms1. }
  destruct (queues_head _ _ _ Hok) as (Hok' & _ & _ & Hl). destruct (IH Hok') as [IH1 IH2]. destruct (sizes_counted false l Hl) as [_ Hs]. change (counted false) with quantity in Hs.
  split; [rewrite bt_concat_cons, sumZ_app; lia|].
  intros ms1 pre o [(-> & [post ->] & _)|(ms1' & -> & _ & Ho)]%own_at_cons.
  - apply Forall_app in Hl as [Hl _]. destruct (sizes_counted true pre Hl) as [_ Hv]. unfold reached. simpl. change (counted true) with (visible b) in Hv. lia.
  - rewrite reached_cons. specialize (IH2 _ _ _ Ho). lia.
Qed.

Lemma existsb_own l pre o post : l = pre ++ o :: post -> self_match a o = true -> existsb (self_match a) l = true.
Proof using Type. intros -> Ho. apply existsb_exists. exists o. split; [|done]. apply list_elem_of_In, elem_of_app. right. left. Qed.

(** A level that gives enough. *)
Lemma level_enough p l ms pre post av :
  queues_ok ((p, l) :: ms) -> l = pre ++ post -> Forall (no_self a) pre ->
  quantity a <= av + sumZ (counted (existsb (self_match a) l)) pre ->
  quantity a <= av + sumZ quantity (bt_concat ((p, l) :: ms)) /\
  forall ms1 pre' o, own_at ((p, l) :: ms) ms1 pre' o -> quantity a <= av + reached ms1 pre'.
Proof using Ha.
  intros Hok El Hn Hge. destruct (queues_head _ _ _ Hok) as (Hok' & _ & _ & Hl). destruct (queues_sum _ Hok') as [Hs Hr].
  assert (sumZ (counted (existsb (self_match a) l)) pre <= sumZ quantity l) as Hle.
  { rewrite El in Hl |- *. apply Forall_app in Hl as [H1 H2]. destruct (sizes_counted (existsb (self_match a) (pre ++ post)) _ H1) as [_ Hx].
    destruct (sizes_counted false _ H2) as [_ Hy]. change (counted false) with quantity in Hy. rewrite sumZ_app. lia. }
  split; [rewrite bt_concat_cons, sumZ_app; lia|].
  intros ms1 pre' o [(-> & [post' E] & _ & Ho)|(ms1' & -> & _ & Hown)]%own_at_cons; [|rewrite reached_cons; specialize (Hr _ _ _ Hown); lia].
  rewrite (existsb_own _ _ _ _ E Ho) in Hge. rewrite El in E. destruct (prefix_before _ _ _ _ _ E Hn Ho) as [mid ->].
  unfold reached. simpl. rewrite sumZ_app. rewrite El, E in Hl. rewrite !Forall_app in Hl. destruct Hl as [[_ Hm] _].
  destruct (sizes_counted true _ Hm) as [_ Hx]. change (counted true) with (visible b) in Hge, Hx. lia.
Qed.

(** The scan, exactly. *)
Lemma fok_scan_exact : forall fuel ms av av' res, queues_ok ms -> 0 <= av -> fok_scan fuel b a (bt_concat ms) av = Done (av', res) ->
  match res with
  | Some id => exists ms1 pre o, own_at ms ms1 pre o /\ order_id o = id /\ av + reached ms1 pre < quantity a
  | None =>
    (av' < quantity a -> Forall (no_self a) (bt_concat ms) /\ av + sumZ quantity (bt_concat ms) < quantity a) /\
    (quantity a <= av' -> quantity a <= av + sumZ quantity (bt_concat ms) /\
       forall ms1 pre o, own_at ms ms1 pre o -> quantity a <= av + reached ms1 pre)
  end.
Proof using Ha.
  induction fuel as [|fuel IH]; intros ms av av' res Hok Hav; [done|]. cbn [fok_scan].
  destruct (Z.ltb_spec av (quantity a)) as [Hlt|Hge].
  2:{ intros [= <- <-]. destruct (queues_sum _ Hok) as [Hs Hr]. split; [lia|]. intros _. split; [lia|]. intros ms1 pre o Ho. specialize (Hr _ _ _ Ho). lia. }
  destruct ms as [|[p l] ms]; [intros [= <- <-]; split; [split; [constructor|simpl; lia]|lia]|].
  destruct (queues_head _ _ _ Hok) as (Hok' & Hspan & (o & l' & El & Hp) & Hl). rewrite bt_concat_cons.
  destruct (l ++ bt_concat ms) as [|first rest] eqn:E; [by subst l|]. assert (first = o) as -> by (subst l; by injection E). rewrite Hp, Hspan.
  destruct (sizes_counted (existsb (self_match a) l) l Hl) as [Hc _]. rewrite <- E. clear E.
  destruct (fok_level b a (existsb (self_match a) l) l av) as [av1 [id|]] eqn:Hlevel.
  - intros [= <- <-]. destruct (fok_level_Some _ _ _ _ _ Hc Hav Hlevel) as (pre & x & post & E & Hid & Hx & Hn & Hsum).
    rewrite (existsb_own _ _ _ _ E Hx) in Hsum. exists [], pre, x. split_and!; [split_and!; [exists p, post, ms; by rewrite E|done..]|done|].
    unfold reached. simpl. change (counted true) with (visible b) in Hsum. lia.
  - intros Hscan. destruct (fok_level_None _ _ _ _ Hc Hav Hlevel) as (pre & post & E & Hn & Hav1 & Hd).
    destruct (decide (quantity a <= av1)) as [Hge|Hlt1].
    + destruct fuel as [|fuel]; [done|]. cbn [fok_scan] in Hscan. destruct (Z.ltb_spec av1 (quantity a)); [lia|]. injection Hscan as <- <-.
      split; [lia|]. intros _. rewrite <- (bt_concat_cons p l). apply (level_enough p l ms pre post); [done..|lia].
    + destruct Hd as [->|]; [|lia]. rewrite app_nil_r in E. subst pre.
      destruct (existsb (self_match a) l) eqn:Hs; [by apply existsb_self_true in Hs|]. change (counted false) with quantity in Hav1.
      destruct (sizes_counted false l Hl) as [_ Hpos]. change (counted false) with quantity in Hpos.
      specialize (IH ms av1 av' res Hok' ltac:(lia) Hscan). rewrite sumZ_app. destruct res as [id|].
      * destruct IH as (ms1 & pre & x & [(q & post' & ms2 & ->) [Hf Hx]] & Hid & Hsum). exists ((p, l) :: ms1), pre, x. rewrite reached_cons.
        split_and!; [split_and!; [by do 3 eexists| |done]|done|lia]. rewrite bt_concat_cons, <- app_assoc. by apply Forall_app.
      * destruct IH as [IH1 IH2]. split.
        -- intros Hx. destruct (IH1 Hx) as [H1 H2]. split; [by apply Forall_app|lia].
        -- intros Hx. destruct (IH2 Hx) as [H1 H2]. split; [lia|]. intros ms1 pre x [(-> & [post' E] & _ & Hown)|(ms1' & -> & _ & Hown)]%own_at_cons.
           ++ by rewrite (existsb_own _ _ _ _ E Hown) in Hs.
           ++ rewrite reached_cons. specialize (H2 _ _ _ Hown). lia.
Qed.
End scan.

(** ** Filling one level completely or exactly *)

Section level.
Context (a : Order) (p : Z) (l : list Order) (sw : Sweep) (b : OrderBook).
Context (Hwf : wf_book b) (Hfr : order_lookup b !! order_id a = None) (Hsw : sweep_ok sw).
Context (Hst : stopped sw = false).

Let s := opposite (side a).
Context (Hg : bt_get p (side_levels s b) = Some l).

(** The loop that [fill_level] runs, and what it makes of its result. *)
Lemma fill_level_loop sw' b' :
  fill_level a p sw b = Done (sw', b') ->
  exists b0 fuel level' b1, level_inv a p l b0 /\ visible b0 = visible b /\ book_stp b0 = book_stp b /\
    level_loop fuel a p l sw b0 = Done (level', sw', b1) /\
    visible b' = visible b1 /\ book_stp b' = book_stp b1 /\
    0 <= sumZ quantity level' /\ 0 <= remaining sw' /\
    (sweep_live sw' = false \/ level' = [] /\ side_levels s b' = bt_remove p (side_levels s b)).
Proof using Hwf Hfr Hsw Hg.
  unfold fill_level. fold s. rewrite Hg. change (default [] (Some l)) with l.
  destruct (detach_level a p l b Hwf Hfr Hg) as [Hli _]. fold s in Hli.
  set (b0 := set_levels s (bt_remove p (side_levels s b)) b) in *.
  destruct (level_loop_spec a p (level_fuel sw l) l sw b0 Hli Hsw)
    as (level' & sw1 & b1 & fs & es & us & sus & E & E1 & Hli1 & Hd & _ & L1).
  { unfold level_fuel. pose proof (level_nonneg _ _ [] _ _ Hli). unfold sweep_ok in Hsw. destruct (sweep_live sw); lia. }
  rewrite E. cbn [obind]. intros [= <- <-].
  exists b0, (level_fuel sw l), level', b1. split_and!; try done.
  - by destruct level'.
  - by destruct level'.
  - by apply (level_nonneg _ _ [] _ _ Hli1).
  - apply (se_range E1).
  - destruct Hd as [Hd|Hd]; [by left|right]. split; [done|]. subst level'. simpl. rewrite L1. unfold b0.
    by rewrite side_levels_set_levels.
Qed.

Lemma fill_level_no_self sw' b' :
  Forall (no_self a) l -> fill_level a p sw b = Done (sw', b') ->
  stopped sw' = false /\ events (book_stp b') = events (book_stp b) /\
  remaining sw' = Z.max 0 (remaining sw - sumZ quantity l) /\
  (0 < remaining sw' -> side_levels s b' = bt_remove p (side_levels s b) /\
     forall x, order_id x ∉ order_id <$> l -> visible b' x = visible b x).
Proof using Hwf Hfr Hsw Hg Hst.
  intros Hn (b0 & fuel & level' & b1 & Hli & V0 & S0 & Hl & V1 & S1 & Hnn & Hr & Hd)%fill_level_loop.
  destruct (level_loop_no_self _ _ _ _ _ _ _ _ _ Hli Hsw Hn Hl) as [[Q1 Q2 Q3] T].
  rewrite S1, V1. rewrite <- V0, <- S0. split_and!; [congruence|done| |].
  - unfold sweep_live in Hd. rewrite Q1, Hst, andb_true_r in Hd. destruct Hd as [Hd|[-> _]]; propify; simpl in *; lia.
  - intros Hp. split; [|exact Q3]. unfold sweep_live in Hd. rewrite Q1, Hst, andb_true_r in Hd.
    destruct Hd as [Hd|[_ Hd]]; [propify; lia|done].
Qed.

Lemma fill_level_prefix pre post sw' b' :
  l = pre ++ post -> Forall (no_self a) pre -> remaining sw <= sumZ (visible b) pre ->
  fill_level a p sw b = Done (sw', b') ->
  remaining sw' = 0 /\ stopped sw' = false /\ events (book_stp b') = events (book_stp b).
Proof using Hwf Hfr Hsw Hg Hst.
  intros El Hn Hle (b0 & fuel & level' & b1 & Hli & V0 & S0 & Hl & V1 & S1 & _)%fill_level_loop.
  rewrite El in Hli, Hl.
  rewrite S1, <- S0. rewrite <- V0 in Hle. by apply (level_loop_prefix _ _ _ _ _ _ _ _ _ _ Hli Hsw Hn Hst Hle Hl).
Qed.
End level.

(** ** The scan is sound for the sweep *)

Section sound.
Context (a : Order) (b0 : OrderBook).
Context (Ha : 0 < quantity a <= u32_max).

Lemma sweep_loop_done fuel limit sw b sw' b' :
  remaining sw = 0 -> sweep_loop fuel limit a sw b = Done (sw', b') -> sw' = sw /\ b' = b.
Proof using Type.
  intros Hr. destruct fuel; simpl; [done|].
  assert (sweep_live sw = false) as -> by (unfold sweep_live; by rewrite Hr). by intros [= <- <-].
Qed.

Lemma wf_level_orders b s p l :
  wf_book b -> bt_get p (side_levels s b) = Some l ->
  l <> [] /\ Forall (fun o => price o = p) l /\
  Forall (fun o => 0 < visible b o <= u32_max /\ 0 < quantity o <= u32_max) l.
Proof using Type.
  intros Hwf Hg. destruct (levels_ok_get _ _ _ _ (inv_levels _ _ Hwf s) Hg) as [Hne Hlv].
  split_and!; [done|eapply Forall_impl; [exact Hlv|by intros o [? ?]]|].
  apply Forall_forall. intros o Ho.
  assert (o ∈ orders b) as Hin.
  { apply (orders_levels s). rewrite (bt_concat_get _ _ _ Hg). apply elem_of_app. by left. }
  destruct (inv_order_ok _ _ o Hwf Hin) as [Hq _]. destruct (inv_slice_ok _ _ o Hwf Hin) as [Hv _].
  pose proof (inv_shown _ _ Hwf) as Hs. rewrite Forall_forall in Hs. specialize (Hs o Hin). simpl in Hs. lia.
Qed.

(** The orders behind the best level have other prices and other ids. *)
Lemma crossing_rest_prices b p l :
  wf_book b -> bt_get p (side_levels (opposite (side a)) b) = Some l ->
  Forall (fun o => price o <> p /\ order_id o ∉ order_id <$> l)
    (crossing_of a (bt_remove p (side_levels (opposite (side a)) b))).
Proof using Type.
  set (s := opposite (side a)). intros Hwf Hg. apply Forall_forall. intros o Ho%elem_of_crossing_of.
  pose proof (inv_levels _ _ Hwf s) as Hlv. split.
  - apply elem_of_bt_concat in Ho as (k & l' & Hk & Ho). intros <-.
    destruct (levels_ok_remove s (price o) _ Hlv) as [Hs Hf]. rewrite Forall_forall in Hf.
    destruct (Hf _ Hk) as [_ Hl]. rewrite Forall_forall in Hl. destruct (Hl _ Ho) as [Hp _]. simpl in Hp. subst k.
    by eapply (bt_remove_not_elem (K := Z)); [apply Hlv|exact Hk].
  - intros (x & Hx & Hin)%list_elem_of_fmap. pose proof (inv_ids _ _ Hwf) as Hnd. simpl in Hnd.
    unfold orders in Hnd. rewrite fmap_app in Hnd. apply NoDup_app in Hnd as (H1 & _ & H2).
    assert (NoDup (order_id <$> bt_concat (side_levels s b))) as H by (by destruct s).
    rewrite (bt_concat_get _ _ _ Hg), fmap_app in H. apply NoDup_app in H as (_ & H & _).
    apply (H (order_id x)); [by apply list_elem_of_fmap_2|]. rewrite <- Hx. by apply list_elem_of_fmap_2.
Qed.
(** One level of the scan against the same level of the sweep. *)
Lemma fok_level_sweep b p l sw av av1 sw1 b1 :
  wf_book b -> order_lookup b !! order_id a = None -> sweep_ok sw -> stopped sw = false ->
  bt_get p (side_levels (opposite (side a)) b) = Some l ->
  remaining sw = quantity a - av -> 0 <= av -> (forall o, o ∈ l -> visible b o = visible b0 o) ->
  fok_level b0 a (existsb (self_match a) l) l av = (av1, None) ->
  fill_level a p sw b = Done (sw1, b1) ->
  stopped sw1 = false /\ events (book_stp b1) = events (book_stp b) /\
  (remaining sw1 = 0 \/
   remaining sw1 = quantity a - av1 /\ 0 <= av1 /\
   side_levels (opposite (side a)) b1 = bt_remove p (side_levels (opposite (side a)) b) /\
   forall x, order_id x ∉ order_id <$> l -> visible b1 x = visible b x).
Proof using Ha.
  intros Hwf Hfr Hsw Hst Hg Hr Hav Hvis Hscan Hfill.
  destruct (wf_level_orders b _ _ _ Hwf Hg) as (_ & _ & Hq). remember (existsb (self_match a) l) as hs eqn:Ehs. symmetry in Ehs.
  assert (Forall (fun o => 0 < counted b0 hs o <= u32_max) l) as Hc.
  { rewrite Forall_forall in Hq |- *. intros o Ho. destruct (Hq o Ho) as [Hv Hqo]. unfold counted.
    rewrite <- (Hvis o Ho). by destruct hs. }
  destruct (fok_level_None a b0 Ha _ _ _ _ Hc Hav Hscan) as (pre & post & El & Hn & Hav1 & Hd).
  rewrite El in Hc. apply Forall_app in Hc as [Hpre Hpost].
  assert (0 <= sumZ (counted b0 hs) pre /\ 0 <= sumZ (counted b0 hs) post) as [Hp1 Hp2].
  { split; apply sumZ_nonneg; [eapply Forall_impl; [exact Hpre|]|eapply Forall_impl; [exact Hpost|]];
      intros x Hx; simpl in *; lia. }
  destruct hs.
  - assert (remaining sw <= sumZ (visible b) pre) as Hle.
    { destruct Hd as [->|Hd]; [rewrite app_nil_r in El; subst pre; by apply existsb_self_true in Ehs|].
      rewrite (sumZ_ext (visible b) (counted b0 true)); [lia|]. apply Forall_forall. intros x Hx.
      simpl. apply Hvis. rewrite El. apply elem_of_app. by left. }
    destruct (fill_level_prefix a p l sw b Hwf Hfr Hsw Hst Hg pre post sw1 b1 El Hn Hle Hfill) as (R & S & E).
    split_and!; [done..|by left].
  - apply existsb_self_false in Ehs.
    destruct (fill_level_no_self a p l sw b Hwf Hfr Hsw Hst Hg sw1 b1 Ehs Hfill) as (S & E & R & Hrest).
    split_and!; [done..|]. change (counted b0 false) with quantity in *.
    rewrite El, sumZ_app in R. destruct Hd as [->|Hd]; [|left; lia]. simpl in R.
    destruct (Z.eq_dec (remaining sw1) 0) as [|Hne]; [by left|right].
    destruct Hrest as [H1 H2]; [lia|]. split_and!; [lia|lia|done|done].
Qed.

Lemma fok_sweep : forall fuel fuel2 sw b av av' sw' b',
  wf_book b -> order_lookup b !! order_id a = None -> sweep_ok sw -> stopped sw = false ->
  remaining sw = quantity a - av -> 0 <= av ->
  (forall o, o ∈ crossing a b -> visible b o = visible b0 o) ->
  fok_scan fuel2 b0 a (crossing a b) av = Done (av', None) -> quantity a <= av' ->
  sweep_loop fuel true a sw b = Done (sw', b') ->
  remaining sw' = 0 /\ stopped sw' = false /\ events (book_stp b') = events (book_stp b).
Proof using Ha.
  induction fuel as [|fuel IH]; intros fuel2 sw b av av' sw' b' Hwf Hfr Hsw Hst Hr Hav Hvis Hscan Hge; [done|].
  destruct (Z.eq_dec (remaining sw) 0) as [Hz|Hz]; [by intros [-> ->]%sweep_loop_done|].
  assert (0 <= remaining sw) as Hr0 by apply Hsw.
  assert (sweep_live sw = true) as Hlive.
  { unfold sweep_live. rewrite Hst, andb_true_r, Z.gtb_ltb. apply Z.ltb_lt. lia. }
  destruct fuel2 as [|fuel2]; [done|]. cbn [fok_scan] in Hscan. cbn [sweep_loop].
  rewrite Hlive. destruct (Z.ltb_spec av (quantity a)); [|lia].
  set (s := opposite (side a)) in *. rewrite crossing_eq in Hscan, Hvis. fold s in Hscan, Hvis.
  pose proof (inv_levels _ _ Hwf s) as Hlv.
  destruct (best_price s (side_levels s b)) as [p|] eqn:Hb.
  2: { rewrite (crossing_of_None a _ Hb) in Hscan. injection Hscan as <-. lia. }
  destruct (crosses a p) eqn:Hc; simpl.
  2: { rewrite (crossing_of_stop a _ Hlv p Hb Hc) in Hscan. injection Hscan as <-. lia. }
  destruct (best_price_get _ _ _ Hlv Hb) as (o & l & Hg & Hpo & _).
  destruct (fill_level_spec a p sw b Hwf Hfr Hsw Hb) as (sw1 & b1 & fs & es & us & sus & Hfill & E1 & _).
  rewrite Hfill. cbn [obind]. intros Hloop.
  rewrite (crossing_of_step a _ Hlv p _ Hb Hg Hc) in Hscan, Hvis.
  pose proof (crossing_rest_prices b p (o :: l) Hwf Hg) as Hrest. fold s in Hrest.
  set (rest := crossing_of a (bt_remove p (side_levels s b))) in *.
  destruct (wf_level_orders b s p _ Hwf Hg) as (_ & Hpr & _).
  change ((o :: l) ++ rest) with (o :: (l ++ rest)) in Hscan. cbn iota in Hscan.
  change (o :: (l ++ rest)) with ((o :: l) ++ rest) in Hscan.
  rewrite (span_price_level (price o)) in Hscan
    by (rewrite Hpo; first [exact Hpr | eapply Forall_impl; [exact Hrest|]; by intros x [? _]]).
  destruct (fok_level b0 a _ (o :: l) av) as [av1 [id|]] eqn:Hlevel; [done|].
  destruct (fok_level_sweep b p (o :: l) sw av av1 sw1 b1) as (S1 & V1 & Hd); try done.
  { intros x Hx. apply Hvis, elem_of_app. by left. }
  destruct Hd as [Hd|(R1 & Hav1 & L1 & Vis1)]; [by apply sweep_loop_done in Hloop as [-> ->]|].
  fold s in L1. rewrite <- V1. pose proof (se_range E1) as Hg1.
  apply (IH fuel2 sw1 b1 av1 av'); try done.
  - apply (eff_inv (se_effect E1)).
  - eapply lineage_None; [apply (eff_lineage (se_effect E1))|done].
  - unfold sweep_ok in *. lia.
  - intros x. rewrite crossing_eq. fold s. rewrite L1. intros Hx. fold rest in Hx.
    rewrite Forall_forall in Hrest. rewrite Vis1 by (by apply Hrest). apply Hvis, elem_of_app. by right.
  - rewrite crossing_eq. fold s. by rewrite L1.
Qed.
End sound.

(** ** The queues within the limit *)

Definition swept_queues (a : Order) (b : OrderBook) : levels :=
  match side a with
  | Buy => filter (fun e => e.1 <= price a) (sell_orders b)
  | Sell => rev (filter (fun e => price a <= e.1) (buy_orders b))
  end.

Lemma elem_of_swept a b e : e ∈ swept_queues a b <-> e ∈ side_levels (opposite (side a)) b /\ within a e.1.
Proof.
  unfold swept_queues, within. destruct (side a); simpl; [|rewrite list_elem_of_In, <- in_rev, <- list_elem_of_In]; rewrite list_elem_of_filter; tauto.
Qed.

(** Nearer prices first. *)
Lemma StronglySorted_filter_rev {A} (R : A -> A -> Prop) (P : A -> Prop) `{forall x, Decision (P x)} l :
  StronglySorted R l -> StronglySorted R (filter P l) /\ StronglySorted (flip R) (rev (filter P l)).
Proof.
  induction 1 as [|x l Hs [IH1 IH2] Hx]; [split; constructor|]. rewrite filter_cons. destruct (decide (P x)); [|done].
  assert (Forall (R x) (filter P l)) as Hf by (rewrite Forall_forall in *; intros y [_ Hy]%list_elem_of_filter; auto).
  split; [by constructor|]. simpl. apply StronglySorted_app_2; [|done|repeat constructor].
  intros y z Hy ->%list_elem_of_singleton. rewrite Forall_forall in Hf. unfold flip. by apply Hf, list_elem_of_In, in_rev, list_elem_of_In.
Qed.

Lemma swept_sorted a b : wf_book b -> StronglySorted (fun e1 e2 => nearer a e1.1 e2.1) (swept_queues a b).
Proof.
  intros Hwf. assert (forall s, StronglySorted (fun e1 e2 => e1.1 < e2.1) (side_levels s b)) as Hs.
  { intros s. pose proof (proj1 (inv_levels _ _ Hwf s)) as Hm. induction (side_levels s b) as [|[k l] m IH]; [constructor|].
    apply bt_sorted_cons in Hm as [Hm Hf]. constructor; [by apply IH|]. eapply Forall_impl; [exact Hf|]. intros e He. simpl in *. lia. }
  unfold swept_queues, nearer. destruct (side a).
  - apply (StronglySorted_filter_rev _ _ _ (Hs Sell)).
  - apply (StronglySorted_filter_rev _ _ _ (Hs Buy)).
Qed.

Lemma sorted_keys a (ms : levels) : StronglySorted (fun e1 e2 => nearer a e1.1 e2.1) ms -> NoDup ms.*1.
Proof.
  induction 1 as [|e ms _ IH He]; [constructor|]. cbn. constructor; [|done]. intros (e' & E & He')%list_elem_of_fmap.
  rewrite Forall_forall in He. specialize (He _ He'). unfold nearer in He. rewrite E in He. destruct (side a); lia.
Qed.

Lemma swept_queues_ok a b : wf_book b -> queues_ok b (swept_queues a b).
Proof.
  intros Hwf. split; [by eapply sorted_keys, swept_sorted|]. apply Forall_forall. intros [p l] [Hm _]%elem_of_swept. set (s := opposite (side a)) in *.
  assert (bt_get p (side_levels s b) = Some l) as Hg by (apply bt_elem_get; [apply (inv_levels _ _ Hwf s)|done]).
  destruct (wf_level_orders b s p l Hwf Hg) as (Hne & Hp & Hv). split; [done|]. rewrite Forall_forall in *. intros o Ho. simpl.
  assert (o ∈ orders b) as Hin by (apply (orders_levels s), elem_of_bt_concat; eauto).
  destruct (inv_slice_ok _ _ o Hwf Hin) as [Hsl _]. specialize (Hv _ Ho). specialize (Hp _ Ho). lia.
Qed.

(** The orders at prices that [P] holds of are those of the levels. *)
Lemma concat_filter s b (P : Z -> Prop) `{forall p, Decision (P p)} :
  wf_book b -> bt_concat (filter (fun e => P e.1) (side_levels s b)) = filter (fun o => P (price o)) (bt_concat (side_levels s b)).
Proof.
  intros Hwf. pose proof (proj2 (inv_levels _ _ Hwf s)) as Hm. induction Hm as [|[p l] m [_ Hl] _ IH]; [done|].
  rewrite bt_concat_cons, filter_app, filter_cons. simpl in *. destruct (decide (P p)) as [Hp|Hp].
  - rewrite bt_concat_cons, IH. f_equal. symmetry. apply filter_all. eapply Forall_impl; [exact Hl|]. intros o [-> _]. done.
  - rewrite IH. rewrite (filter_nil_all _ l); [done|]. eapply Forall_impl; [exact Hl|]. intros o [-> _]. done.
Qed.

(** Levels of the book that are those at prices that [P] holds of. *)
Lemma levels_perm a b (P : Z -> Prop) `{forall p, Decision (P p)} ms :
  wf_book b -> NoDup ms.*1 -> (forall e, e ∈ ms <-> e ∈ side_levels (opposite (side a)) b /\ P e.1) ->
  bt_concat ms ≡ₚ filter (fun r => P (price r)) (opposing a b).
Proof.
  intros Hwf Hnd Hin. unfold opposing. rewrite <- concat_filter by done. apply bt_concat_perm, NoDup_Permutation.
  - by eapply NoDup_fmap_1.
  - apply NoDup_filter. eapply (NoDup_fmap_1 fst). pose proof (proj1 (inv_levels _ _ Hwf (opposite (side a)))) as Hs. unfold bt_sorted in Hs.
    induction Hs as [|k ks _ IH Hk]; constructor; [|done]. intros Hx. rewrite Forall_forall in Hk. specialize (Hk _ Hx). by rewrite key_ltb_irrefl in Hk.
  - intros e. rewrite Hin, list_elem_of_filter. tauto.
Qed.

Lemma swept_within a b : wf_book b -> bt_concat (swept_queues a b) ≡ₚ all_within a b.
Proof.
  intros Hwf. apply (levels_perm a b (within a)); [done|by eapply sorted_keys, swept_sorted|]. intros e. apply elem_of_swept.
Qed.

(** The queues before a level are those at nearer prices. *)
Lemma swept_before a b ms1 p l ms2 :
  wf_book b -> swept_queues a b = ms1 ++ (p, l) :: ms2 ->
  bt_concat ms1 ≡ₚ filter (fun r => nearer a (price r) p) (opposing a b).
Proof.
  intros Hwf E. pose proof (swept_sorted a b Hwf) as Hs. rewrite E in Hs.
  apply (levels_perm a b (fun q => nearer a q p) (H := fun q => nearer_dec a q p)); [done|by eapply sorted_keys, StronglySorted_app_1_l|]. intros e. split.
  - intros He. assert (e ∈ swept_queues a b) as [Hm _]%elem_of_swept by (rewrite E; apply elem_of_app; by left).
    split; [done|]. apply (StronglySorted_app_1_elem_of _ _ _ e (p, l) Hs He). left.
  - intros [Hm Hn]. assert (e ∈ swept_queues a b) as Hin.
    { apply elem_of_swept. split; [done|]. assert ((p, l) ∈ swept_queues a b) as [_ Hp]%elem_of_swept by (rewrite E; apply elem_of_app; right; left).
      unfold within, nearer in *. simpl in Hp. destruct (side a); lia. }
    rewrite E in Hin. apply elem_of_app in Hin as [Hin|[->|Hin]%elem_of_cons]; [done|..]; exfalso; unfold nearer in *; simpl in *.
    + destruct (side a); lia.
    + apply StronglySorted_app_1_r, StronglySorted_cons in Hs as [Hf _]. rewrite Forall_forall in Hf. specialize (Hf _ Hin). simpl in Hf.
      destruct (side a); lia.
Qed.

Lemma own_at_first a b ms1 pre o :
  wf_book b -> own_at a (swept_queues a b) ms1 pre o -> own_first a b pre o /\ before_own a b pre o = reached b ms1 pre.
Proof.
  intros Hwf [(p & post & ms2 & E) [Hf Hs]]. pose proof (swept_before _ _ _ _ _ _ Hwf E) as Hp.
  assert ((p, pre ++ o :: post) ∈ swept_queues a b) as [Hm Hw]%elem_of_swept by (rewrite E; apply elem_of_app; right; left).
  assert (price o = p) as Ho.
  { pose proof (proj2 (inv_levels _ _ Hwf (opposite (side a)))) as Hl. rewrite Forall_forall in Hl. destruct (Hl _ Hm) as [_ Hq].
    rewrite Forall_forall in Hq. apply (Hq o). simpl. apply elem_of_app. right. left. }
  subst p. split.
  - split; [|done|done|by rewrite <- Hp]. exists post. apply bt_elem_get; [apply (inv_levels _ _ Hwf)|done].
  - unfold before_own, reached. by rewrite Hp.
Qed.

Lemma own_first_at a b pre o : wf_book b -> own_first a b pre o -> exists ms1, own_at a (swept_queues a b) ms1 pre o.
Proof.
  intros Hwf [[post Hg] Hw Hs Hf]. apply bt_get_Some_elem in Hg.
  assert ((price o, pre ++ o :: post) ∈ swept_queues a b) as (ms1 & ms2 & E)%list_elem_of_split by (by apply elem_of_swept).
  exists ms1. split_and!; [by do 3 eexists| |done]. by rewrite (swept_before _ _ _ _ _ _ Hwf E).
Qed.

Lemma execute_fok_cases a b :
  wf_book b -> enterable a b ->
  exists r b', execute_fok a b = Done (r, b') /\ wf_book b' /\ fok_case a b r b'.
Proof.
  intros Hwf He. destruct He as [Hq Hfr]. unfold execute_fok.
  destruct (fok_scan_total b a (S (length (crossing a b))) (crossing a b) 0) as [[av sm] Hscan]; [lia|].
  rewrite Hscan. assert (crossing a b = bt_concat (swept_queues a b)) as Hcr by (unfold crossing, swept_queues; by destruct (side a)).
  pose proof Hscan as Hexact. rewrite Hcr in Hexact. apply (fok_scan_exact a b Hq) in Hexact; [|by apply swept_queues_ok|lia].
  cbn [obind]. destruct sm as [id|].
  { destruct Hexact as (ms1 & pre & o & Hown & <- & Hlt). eexists _, _. split; [done|]. split; [by apply book_inv_set_stp|].
    destruct (own_at_first _ _ _ _ _ Hwf Hown) as [Hfirst Hsum]. eapply (fok_prevented _ _ _ _ pre o); try done. rewrite Hsum. lia. }
  destruct Hexact as [Hshort Hlong]. rewrite swept_within in Hshort, Hlong by done. destruct (Z.ltb_spec av (quantity a)) as [Hlt|Hge].
  { destruct (Hshort Hlt) as [Hn Hs]. eexists _, _. split; [done|]. split; [done|]. by apply fok_killed. }
  destruct (Hlong Hge) as [Hall Hown].
  assert (sweep_ok (sweep_new a)) as Hsw by (unfold sweep_ok; simpl; lia).
  destruct (sweep_loop_spec (sweep_fuel a b) true a (sweep_new a) b Hwf Hfr Hsw)
    as (sw & b' & fs & es & us & sus & Hloop & E & _ & _ & Hc & _).
  { unfold sweep_fuel. destruct (sweep_live (sweep_new a)); lia. }
  destruct (fok_sweep a b Hq (sweep_fuel a b) (S (length (crossing a b))) (sweep_new a) b 0 av sw b')
    as (R & S & V); try done; [simpl; lia|].
  unfold execute_ioc. rewrite Hloop. cbn [obind].
  eexists _, b'. split; [done|]. split; [exact (eff_inv (se_effect E))|].
  pose proof (se_fills E) as Hf. simpl in Hf.
  assert (es = []) as ->.
  { pose proof (eff_events (se_effect E)) as Hev. rewrite V in Hev.
    rewrite <- (app_nil_r (events (book_stp b))) in Hev at 1. by apply app_inv_head in Hev. }
  pose proof (se_remaining E) as Hr. rewrite R, restated_in_nil in Hr. simpl in Hr.
  apply fok_filled; simpl; rewrite ?Hf, ?S; try done; [|lia|by apply Hc|exact (se_fill_ok E)].
  intros pre o Ho. destruct (own_first_at _ _ _ _ Hwf Ho) as (ms1 & Hat). destruct (own_at_first _ _ _ _ _ Hwf Hat) as [_ Hsum].
  specialize (Hown _ _ _ Hat). lia.
Qed.

(** ** Theorems *)

(** C25: Fill-or-kill is all or nothing. On a well-formed book the order always
    ends in one of three ways, whose conditions exclude each other. It is
    canceled, with nothing changed but the recorded event that names the
    opposing order, exactly when the first own order it would reach within its
    limit comes before it is covered: before that order come all orders at
    nearer prices, with their reserves, and the displayed parts of those ahead
    of it in its queue. It is killed with the book unchanged exactly when it
    would reach no own order and the orders within its limit hold less than it
    asks for. Otherwise it is filled completely, within its limit, and without
    any self-match. *)
Theorem execute_fok_all_or_nothing a b :
  wf_book b -> enterable a b ->
  exists r b', execute_fok a b = Done (r, b') /\ wf_book b' /\ fok_case a b r b'.
Proof. apply execute_fok_cases. Qed.

Lemma execute_fok_all_or_nothing_witness :
  (exists r b', execute_fok bid_fok quiet_book = Done (r, b') /\ fills r <> [] /\ fok_case bid_fok quiet_book r b') /\
  (exists r b', execute_fok bid_fok_big quiet_book = Done (r, b') /\ fills r = [] /\ fok_case bid_fok_big quiet_book r b').
Proof.
  split.
  - destruct (execute_fok_all_or_nothing bid_fok quiet_book quiet_wf) as (r & b' & E & _ & H).
    { split; [vm_compute; split; congruence|reflexivity]. }
    exists r, b'. split_and!; [done| |done]. intros Hn. vm_compute in E. injection E as <- _. discriminate Hn.
  - destruct (execute_fok_all_or_nothing bid_fok_big quiet_book quiet_wf) as (r & b' & E & _ & H).
    { split; [vm_compute; split; congruence|reflexivity]. }
    exists r, b'. split_and!; [done| |done]. vm_compute in E. injection E as <- _. reflexivity.
Defined.
