(* ===== verification/Stops.v ===== *)
(** * Parked stops and the trigger cascade

    [order_book/stops.rs]: the parked stop orders, the execution of one order
    with everything it does to the book, and the cascade that fires the stops
    its prints reach. *)

From S2P Require Import Prelude BTree Order OrderBook BookInvariant Samples BookEffects Matcher Effects MatchOrders Sweep Fok.

(** ** Parked stops *)

Record StopReplace : Type := mkStopReplace {
  sr_new_price : Z;
  sr_new_stop_price : Z;
  sr_new_quantity : Z;
  sr_new_time_in_force : option TimeInForce;
  sr_client_order_id : string;
  sr_timestamp : Z;
}.

(** [StopBook]: the parked orders, in arrival order. *)
Abbreviation StopBook := (list Order).

Definition park (o : Order) (parked : StopBook) : StopBook := parked ++ [o].

Definition stop_contains (id : string) (parked : StopBook) : bool :=
  existsb (fun o => bool_decide (order_id o = id)) parked.

(** [iter().position(..)]. *)
Fixpoint position (id : string) (parked : StopBook) : option nat :=
  match parked with
  | [] => None
  | o :: parked' => if bool_decide (order_id o = id) then Some 0%nat else S <$> position id parked'
  end.

Definition position_for (id owner : string) (parked : StopBook) : result nat OrderReject :=
  match position id parked with
  | None => Err UnknownOrder
  | Some i =>
    match parked !! i with
    | Some o => if bool_decide (trader_id o <> owner) then Err NotOwner else Ok i
    | None => Err UnknownOrder
    end
  end.

(** [StopBook::cancel_for]. *)
Definition stop_cancel_for (id owner : string) (parked : StopBook) : result Order OrderReject * StopBook :=
  match position_for id owner parked with
  | Err e => (Err e, parked)
  | Ok i =>
    match parked !! i with
    | Some o => (Ok o, delete i parked)
    | None => (Err UnknownOrder, parked)
    end
  end.

Definition stop_replacement (orig : Order) (new_id : string) (ch : StopReplace) : Order :=
  {| order_id := new_id; trader_id := trader_id orig; symbol := symbol orig;
     price := if sr_new_price ch >? 0 then sr_new_price ch else price orig;
     quantity := if sr_new_quantity ch >? 0 then sr_new_quantity ch else quantity orig;
     display_quantity := display_quantity orig; side := side orig; order_type := order_type orig;
     time_in_force := default (time_in_force orig) (sr_new_time_in_force ch);
     timestamp := sr_timestamp ch;
     stop_price := if sr_new_stop_price ch >? 0 then sr_new_stop_price ch else stop_price orig;
     expire_date := expire_date orig; account := account orig;
     client_order_id := sr_client_order_id ch; order_stp := order_stp orig |}.

(** [StopBook::replace_for]. *)
Definition stop_replace_for (orig_id new_id : string) (ch : StopReplace) (owner : string) (id_in_use : bool)
    (parked : StopBook) : result Order OrderReject * StopBook :=
  match position_for orig_id owner parked with
  | Err e => (Err e, parked)
  | Ok i =>
    if bool_decide (new_id <> orig_id) && (id_in_use || stop_contains new_id parked)
    then (Err DuplicateOrderId, parked)
    else
      match parked !! i with
      | Some orig =>
        let replacement := stop_replacement orig new_id ch in
        (Ok replacement, park replacement (delete i parked))
      | None => (Err UnknownOrder, parked)
      end
  end.

(** ** Executions *)

Record Execution : Type := mkExecution {
  ex_fills : list ExecutionReport;
  ex_fill_updates : list MarketDataIncrementalUpdate;
  ex_rested : list MarketDataIncrementalUpdate;
  ex_cancels : list string;
  ex_triggered : list string;
  ex_trigger_points : list (nat * string * string);
  ex_refreshes : list (nat * string * Z);
  ex_stp : list StpEvent;
  ex_stp_updates : list MarketDataIncrementalUpdate;
}.

Definition execution_default : Execution :=
  {| ex_fills := []; ex_fill_updates := []; ex_rested := []; ex_cancels := []; ex_triggered := [];
     ex_trigger_points := []; ex_refreshes := []; ex_stp := []; ex_stp_updates := [] |}.

(** [e.before_fill += base]. *)
Definition shift_event (base : nat) (e : StpEvent) : StpEvent :=
  {| opposing_order := opposing_order e; ev_order_id := ev_order_id e; action := action e;
     ev_mode := ev_mode e; before_fill := (before_fill e + base)%nat |}.

(** [Execution::absorb_stp]: takes the book's events and refresh log. *)
Definition absorb_stp (b : OrderBook) (base : nat) (out : Execution) : Execution * OrderBook :=
  let refreshes := match refresh_log b with
                   | Some log => (fun '(i, id, q) => ((base + i)%nat, id, q)) <$> log
                   | None => []
                   end in
  ({| ex_fills := ex_fills out; ex_fill_updates := ex_fill_updates out; ex_rested := ex_rested out;
      ex_cancels := ex_cancels out; ex_triggered := ex_triggered out;
      ex_trigger_points := ex_trigger_points out; ex_refreshes := ex_refreshes out ++ refreshes;
      ex_stp := ex_stp out ++ (shift_event base <$> events (book_stp b));
      ex_stp_updates := ex_stp_updates out ++ stp_updates (book_stp b) |},
   set_refresh_log (match refresh_log b with Some _ => Some [] | None => None end)
     (set_stp stp_outcome_default b)).

Definition add_fills (fs : list ExecutionReport) (us : list MarketDataIncrementalUpdate) (out : Execution)
    : Execution :=
  {| ex_fills := ex_fills out ++ fs; ex_fill_updates := ex_fill_updates out ++ us;
     ex_rested := ex_rested out; ex_cancels := ex_cancels out; ex_triggered := ex_triggered out;
     ex_trigger_points := ex_trigger_points out; ex_refreshes := ex_refreshes out;
     ex_stp := ex_stp out; ex_stp_updates := ex_stp_updates out |}.

Definition add_rested (u : MarketDataIncrementalUpdate) (out : Execution) : Execution :=
  {| ex_fills := ex_fills out; ex_fill_updates := ex_fill_updates out;
     ex_rested := ex_rested out ++ [u]; ex_cancels := ex_cancels out; ex_triggered := ex_triggered out;
     ex_trigger_points := ex_trigger_points out; ex_refreshes := ex_refreshes out;
     ex_stp := ex_stp out; ex_stp_updates := ex_stp_updates out |}.

Definition add_cancel (id : string) (out : Execution) : Execution :=
  {| ex_fills := ex_fills out; ex_fill_updates := ex_fill_updates out;
     ex_rested := ex_rested out; ex_cancels := ex_cancels out ++ [id]; ex_triggered := ex_triggered out;
     ex_trigger_points := ex_trigger_points out; ex_refreshes := ex_refreshes out;
     ex_stp := ex_stp out; ex_stp_updates := ex_stp_updates out |}.

Definition add_triggered (log : bool) (id : string) (out : Execution) : Execution :=
  {| ex_fills := ex_fills out; ex_fill_updates := ex_fill_updates out;
     ex_rested := ex_rested out; ex_cancels := ex_cancels out; ex_triggered := ex_triggered out ++ [id];
     ex_trigger_points := ex_trigger_points out ++
       (if log then [(length (ex_fills out), id, "trade price crossed stop"%string)] else []);
     ex_refreshes := ex_refreshes out; ex_stp := ex_stp out; ex_stp_updates := ex_stp_updates out |}.

(** [OrderBook::match_into]. *)
Definition match_into (b : OrderBook) (out : Execution) : outcome (Execution * OrderBook) :=
  let base := length (ex_fills out) in
  let* (fs, us, b) := match_orders b in
  let '(out, b) := absorb_stp b base out in
  Done (add_fills fs us out, b).

(** The type a triggered stop executes as. *)
Definition executed_type (t : OrderType) : OrderType :=
  match t with Stop => Market | StopLimit => Limit | other => other end.

(** [OrderBook::execute_into]. *)
Definition execute_into (o : Order) (b : OrderBook) (out : Execution)
    : outcome (bool * Execution * OrderBook) :=
  let o := with_order_type (executed_type (order_type o)) o in
  let base := length (ex_fills out) in
  let* (r, b) := process_aggressive o b in
  let '(out, b) := absorb_stp b base out in
  let out := add_fills (fills r) (fill_updates r) out in
  if stp_canceled r || (unfilled_qty r =? 0) then Done (false, out, b)
  else if negb (rest_on_book r) then Done (false, add_cancel (order_id o) out, b)
  else
    let '(md, b) := add_order (with_quantity (unfilled_qty r) o) b in
    let* (out, b) := match_into b (add_rested md out) in
    Done (true, out, b).

(** ** The cascade *)

(** The inner [while scanned < out.fills.len()] loop, on the prints not yet
    scanned: the last print and the stops fired, in firing order. *)
Fixpoint scan_prints (prints : list ExecutionReport) (parked : StopBook) (last : option Z) (queue : list Order)
    : StopBook * option Z * list Order :=
  match prints with
  | [] => (parked, last, queue)
  | f :: prints =>
    let '(fired, parked) := drain_triggered_stops parked (trade_price f) in
    scan_prints prints parked (Some (trade_price f)) (queue ++ fired)
  end.

(** The [loop]: scan the new prints, then execute the first queued stop. *)
Fixpoint cascade_loop (fuel : nat) (scanned : nat) (queue : list Order) (b : OrderBook) (parked : StopBook)
    (last : option Z) (out : Execution) : outcome (OrderBook * StopBook * option Z * Execution) :=
  match fuel with
  | O => OutOfFuel
  | S fuel =>
    let '(parked, last, queue) := scan_prints (drop scanned (ex_fills out)) parked last queue in
    let scanned := length (ex_fills out) in
    match queue with
    | [] => Done (b, parked, last, out)
    | stop :: queue =>
      let out := add_triggered (bool_decide (is_Some (refresh_log b))) (order_id stop) out in
      let* (_, out, b) := execute_into stop b out in
      cascade_loop fuel scanned queue b parked last out
    end
  end.

(** [run_stop_cascade]; every pass takes one stop off the parked and queued
    ones, so one more pass than there are stops is enough. *)
Definition run_stop_cascade (b : OrderBook) (parked : StopBook) (last : option Z) (out : Execution)
    : outcome (OrderBook * StopBook * option Z * Execution) :=
  cascade_loop (S (length parked)) 0 [] b parked last out.
