(* ===== verification/Executions.v ===== *)
(** * Executions: one order and everything it does

    [process_aggressive], [execute_into] and [match_into] as one step of an
    [Execution]: the book stays well formed and uncrossed, every unit of every
    order is accounted for, and the recorded market data follows the displayed
    depth. *)

From S2P Require Import Prelude BTree Order OrderBook BookInvariant Samples BookEffects BookOps Matcher Effects Pace MatchOrders Sweep Fok Stops.

(** ** Definitions *)

(** The leaves of an order that is not on the book. *)
Definition leaves_of (o : Order) (id : string) : Z := if bool_decide (order_id o = id) then quantity o else 0.

(** What an execution appends to [out] on the way from [b] to [b']. *)
Record executed (b : OrderBook) (before : string -> Z) (out : Execution)
    (fs : list ExecutionReport) (es : list StpEvent) (cs : list string)
    (us rs sus : list MarketDataIncrementalUpdate)
    (b' : OrderBook) (after : string -> Z) (out' : Execution) : Prop := {
  x_wf : wf_book b';
  x_clean : book_stp b' = stp_outcome_default;
  x_uncrossed : uncrossed b';
  x_fills : ex_fills out' = ex_fills out ++ fs;
  x_stp : ex_stp out' = ex_stp out ++ es;
  x_cancels : ex_cancels out' = ex_cancels out ++ cs;
  x_fill_updates : ex_fill_updates out' = ex_fill_updates out ++ us;
  x_rested : ex_rested out' = ex_rested out ++ rs;
  x_stp_updates : ex_stp_updates out' = ex_stp_updates out ++ sus;
  x_paced : paced (length (ex_fills out)) fs es cs before after;
  x_depth : forall s p, depth [] b' s p =
    depth [] b s p + changes_at s p us + changes_at s p rs + changes_at s p sus;
  x_banked : forall id, 0 < after id -> banked b' id = banked b id + filled_in id fs;
}.

(** A book between two requests. *)
Record idle (b : OrderBook) : Prop := {
  idle_wf : wf_book b;
  idle_clean : book_stp b = stp_outcome_default;
  idle_uncrossed : uncrossed b;
}.

(** No market order rests. *)
Definition priced (b : OrderBook) : Prop := forall id o, order_lookup b !! id = Some o -> order_type o <> Market.

(** Orders whose price is a limit. *)
Definition has_limit (t : OrderType) : bool := match t with Limit | StopLimit => true | Market | Stop => false end.

(** The same order but for its leaves, and for a stop that has become the order
    it stands for. *)
Definition same_terms (o' o : Order) : Prop :=
  o' = with_quantity (quantity o') (with_order_type (order_type o') o) /\ has_limit (order_type o') = has_limit (order_type o).

(** An order of the book or of [src]. *)
Definition origin (src : list Order) (b : OrderBook) (id : string) (o : Order) : Prop :=
  order_lookup b !! id = Some o \/ o ∈ src /\ order_id o = id.

Definition agreeable (o : Order) (px : Z) : Prop :=
  has_limit (order_type o) = true -> match side o with Buy => px <= price o | Sell => price o <= px end.

(** A trade of a buy and a sell order, within the limits of both, at the price
    of one of them. *)
Definition legal (src : list Order) (b : OrderBook) (f : ExecutionReport) : Prop :=
  exists bid ask, origin src b (buy_order_id f) bid /\ origin src b (sell_order_id f) ask /\ side bid = Buy /\ side ask = Sell /\
    agreeable bid (trade_price f) /\ agreeable ask (trade_price f) /\
    (trade_price f = price bid \/ trade_price f = price ask) /\ 0 < trade_quantity f.

(** The live orders of [b'] are orders of [b] or of [src] with the terms they
    had, no market order joined them, and the fills are trades of such orders. *)
Record descends (src : list Order) (b : OrderBook) (fs : list ExecutionReport) (b' : OrderBook) : Prop := {
  de_orders : forall id o', order_lookup b' !! id = Some o' -> exists o, origin src b id o /\ same_terms o' o;
  de_priced : priced b -> priced b';
  de_fills : Forall (legal src b) fs;
}.

(** An order that may be executed on [b]. *)
Definition executable (o : Order) (b : OrderBook) : Prop :=
  order_ok o /\ order_lookup b !! order_id o = None.

(** What an aggressive order has left. *)
Definition unfilled_of (a : Order) (r : AggressiveResult) (id : string) : Z := if bool_decide (order_id a = id) then unfilled_qty r else 0.

(** The result of an order that does not rest: the effect of its sweep, with
    the aggressor accounted for. *)
Record swept (a : Order) (b : OrderBook) (r : AggressiveResult) (es : list StpEvent)
    (sus : list MarketDataIncrementalUpdate) (b' : OrderBook) : Prop := {
  sr_effect : effect (not_own a) [] b (fills r) es (fill_updates r) sus [] b';
  sr_fills : Forall (sweep_fill_ok a b) (fills r);
  sr_exact : stp_canceled r = false ->
    sumZ trade_quantity (fills r) + restated_in (order_id a) es + unfilled_qty r = quantity a;
  sr_bound : sumZ trade_quantity (fills r) + restated_in (order_id a) es <= quantity a;
  sr_canceled : stp_canceled r = canceled_in (order_id a) es;
  sr_none_left : stp_canceled r = true -> unfilled_qty r = 0;
  sr_unfilled : 0 <= unfilled_qty r;
  sr_paced : paced 0 (fills r) es [] (fun id => qty b id + leaves_of a id) (fun id => qty b' id + unfilled_of a r id);
  sr_limit : order_type a = Limit -> Forall (fun f => crosses a (trade_price f) = true) (fills r);
}.

(** ** Positions in an execution *)

Lemma restated_in_shift id base es : restated_in id (shift_event base <$> es) = restated_in id es.
Proof.
  induction es as [|e es IH]; [done|]. rewrite fmap_cons.
  by rewrite (restated_in_cons id e), (restated_in_cons id (shift_event base e)), IH.
Qed.

Lemma canceled_in_shift id base es : canceled_in id (shift_event base <$> es) = canceled_in id es.
Proof.
  induction es as [|e es IH]; [done|]. rewrite fmap_cons.
  by rewrite (canceled_in_cons id e), (canceled_in_cons id (shift_event base e)), IH.
Qed.

Lemma accounts_shift base f fs es cs f' : accounts f fs (shift_event base <$> es) cs f' <-> accounts f fs es cs f'.
Proof. unfold accounts. split; intros H id; specialize (H id); by rewrite restated_in_shift, canceled_in_shift in *. Qed.

Lemma gone_shift base id es cs : gone id (shift_event base <$> es) cs <-> gone id es cs.
Proof. unfold gone. by rewrite canceled_in_shift. Qed.

Lemma paced_shift base fs es cs before after :
  paced 0 fs es cs before after -> paced base fs (shift_event base <$> es) cs before after.
Proof.
  intros [F C S B A L G E]. split; [done| | | | | | |].
  - apply Forall_fmap. exact C.
  - clear -S. induction es as [|e es IH]; [constructor|]. rewrite !fmap_cons in *. apply StronglySorted_inv in S as [S H].
    constructor; [auto|]. apply Forall_fmap, Forall_fmap. rewrite Forall_fmap in H. eapply Forall_impl; [exact H|]. simpl. lia.
  - apply Forall_fmap. eapply Forall_impl; [exact B|]. intros e He. simpl in *. lia.
  - by apply accounts_shift.
  - intros id Hid. apply L. by rewrite gone_shift in Hid.
  - intros id Hid. apply G. by rewrite gone_shift in Hid.
  - intros e c He Ha. apply list_elem_of_fmap in He as (e0 & -> & He). rewrite gone_shift.
    destruct (E e0 c He Ha) as [?|[?|(i & f & Hi & Hk & Hinv)]]; [by left|by right; left|].
    right; right. exists i, f. split_and!; [done|simpl; lia|done].
Qed.

(** ** Descent *)

Lemma lineage_priced b b' : lineage b b' -> priced b -> priced b'.
Proof. intros H Hp id o' Ho. destruct (H id o' Ho) as (o & Hb & E). rewrite E. exact (Hp id o Hb). Qed.

Lemma same_terms_refl o : same_terms o o.
Proof. split; [by destruct o|done]. Qed.

Lemma same_terms_trans o1 o2 o3 : same_terms o1 o2 -> same_terms o2 o3 -> same_terms o1 o3.
Proof. intros [E1 L1] [E2 L2]. split; [|congruence]. rewrite E1, E2. by destruct o3. Qed.

Lemma same_terms_quantity q o : same_terms (with_quantity q o) o.
Proof. split; [by destruct o|done]. Qed.

(** What a trade may rely on of an order that descends from another. *)
Lemma same_terms_fields o' o : same_terms o' o ->
  order_id o' = order_id o /\ trader_id o' = trader_id o /\ side o' = side o /\ price o' = price o /\ forall px, agreeable o' px <-> agreeable o px.
Proof. intros [E L]. unfold agreeable. rewrite L. rewrite E. by destruct o. Qed.

Lemma origin_terms src src' b b' id o' :
  (forall x, x ∈ src' -> order_id x = id -> exists o, o ∈ src /\ order_id o = id /\ same_terms x o) ->
  (forall x, order_lookup b' !! id = Some x -> exists o, origin src b id o /\ same_terms x o) ->
  origin src' b' id o' -> exists o, origin src b id o /\ same_terms o' o.
Proof.
  intros Hs Hb [H|[Hin Hid]]; [by apply Hb|]. destruct (Hs o' Hin Hid) as (o & Ho & Hi & Ht). exists o. split; [by right|done].
Qed.

(** A trade of orders that come from others is a trade of those. *)
Lemma legal_terms src src' b b' f :
  (forall id o', origin src' b' id o' -> exists o, origin src b id o /\ same_terms o' o) -> legal src' b' f -> legal src b f.
Proof.
  intros Ho (bid & ask & Hb & Ha & Sb & Sa & Ab & Aa & Hp & Hq).
  destruct (Ho _ _ Hb) as (bid0 & Hb0 & (_ & _ & S1 & P1 & A1)%same_terms_fields). destruct (Ho _ _ Ha) as (ask0 & Ha0 & (_ & _ & S2 & P2 & A2)%same_terms_fields).
  exists bid0, ask0. split_and!; [done|done|congruence|congruence|by apply A1|by apply A2| |done]. rewrite <- P1, <- P2. exact Hp.
Qed.

Lemma fill_ok_legal src b f : fill_ok b f -> legal src b f.
Proof.
  intros (bid & ask & Hb & Ha & Sb & Sa & Hp & Hx & Hq & _). exists bid, ask. unfold agreeable. rewrite Sb, Sa.
  split_and!; [by left|by left|done|done|intros _; lia|intros _; lia| |done]. destruct (aggressor_side f); auto.
Qed.

Lemma lineage_descends src b fs b' : lineage b b' -> Forall (fill_ok b) fs -> descends src b fs b'.
Proof.
  intros H Hf. split; [|by apply lineage_priced|eapply Forall_impl; [exact Hf|]; intros f; apply fill_ok_legal].
  intros id o' Ho. destruct (H id o' Ho) as (o & Hb & E). exists o. split; [by left|]. rewrite E. apply same_terms_quantity.
Qed.

Lemma descends_refl src b : descends src b [] b.
Proof. split; [|done|constructor]. intros id o Ho. exists o. split; [by left|apply same_terms_refl]. Qed.

(** The sources of an execution may be given by orders of the same terms. *)
Lemma descends_src src src' b fs b' : (forall o, o ∈ src -> exists o', o' ∈ src' /\ same_terms o o') -> descends src b fs b' -> descends src' b fs b'.
Proof.
  intros Hs [H Hp Hf].
  assert (forall id o, origin src b id o -> exists o', origin src' b id o' /\ same_terms o o') as Ho.
  { intros id o. apply origin_terms.
    - intros x Hx <-. destruct (Hs x Hx) as (o' & Ho' & Ht). exists o'. split; [done|]. split; [|done]. symmetry. apply (same_terms_fields _ _ Ht).
    - intros x Hx. exists x. split; [by left|apply same_terms_refl]. }
  split; [|done|eapply Forall_impl; [exact Hf|]; intros f; by apply legal_terms].
  intros id o' Hb. destruct (H id o' Hb) as (o & Hor & Ht). destruct (Ho id o Hor) as (x & Hx & Hxt). exists x. split; [done|by eapply same_terms_trans].
Qed.

Lemma descends_trans s1 s2 b fs1 b1 fs2 b2 : descends s1 b fs1 b1 -> descends s2 b1 fs2 b2 -> descends (s1 ++ s2) b (fs1 ++ fs2) b2.
Proof.
  intros [H1 P1 F1] [H2 P2 F2].
  assert (forall id o, origin s1 b id o -> origin (s1 ++ s2) b id o) as Hm.
  { intros id o [?|[? ?]]; [by left|]. right. split; [set_solver|done]. }
  assert (forall id o, origin s2 b1 id o -> exists o', origin (s1 ++ s2) b id o' /\ same_terms o o') as Ho.
  { intros id o. apply origin_terms.
    - intros x Hx Hid. exists x. split; [set_solver|]. split; [done|apply same_terms_refl].
    - intros x Hx. destruct (H1 id x Hx) as (o1 & Hor & Ht). exists o1. split; [by apply Hm|done]. }
  split; [|auto|apply Forall_app; split].
  - intros id o2 Hb. destruct (H2 id o2 Hb) as (o1 & Hor & Ht). destruct (Ho id o1 Hor) as (o & Hx & Hxt). exists o. split; [done|by eapply same_terms_trans].
  - eapply Forall_impl; [exact F1|]. intros f. apply legal_terms. intros id o Hor. exists o. split; [by apply Hm|apply same_terms_refl].
  - eapply Forall_impl; [exact F2|]. intros f. by apply legal_terms.
Qed.

Lemma descends_fresh src b fs b' id : descends src b fs b' -> order_lookup b !! id = None -> id ∉ order_id <$> src -> order_lookup b' !! id = None.
Proof.
  intros [H _ _] Hb Hs. destruct (order_lookup b' !! id) as [o'|] eqn:E; [|done]. destruct (H id o' E) as (o & [?|[Hin <-]] & _); [congruence|].
  exfalso. apply Hs. by apply list_elem_of_fmap_2.
Qed.

(** The fills of a sweep are trades of the aggressor. *)
Lemma sweep_legal a b fs : (has_limit (order_type a) = true -> Forall (fun f => crosses a (trade_price f) = true) fs) ->
  Forall (sweep_fill_ok a b) fs -> Forall (legal [a] b) fs.
Proof.
  intros Hl Hf. rewrite Forall_forall in Hf |- *. intros f Hin. destruct (Hf f Hin) as (r & Hr & Hs & Hp & _ & Hq & _ & Hids).
  assert (agreeable a (trade_price f)) as Ha.
  { intros Hla. specialize (Hl Hla). rewrite Forall_forall in Hl. specialize (Hl f Hin). unfold crosses in Hl. destruct (side a); propify; lia. }
  assert (agreeable r (trade_price f)) as Hrr by (intros _; rewrite Hp; destruct (side r); lia).
  destruct (side a) eqn:Hsa; destruct Hids as [I1 I2]; [exists a, r|exists r, a].
  all: rewrite I1, I2; split_and!; try done; try (by left); try (by right); try (right; split; [left|done]).
Qed.

(** In every fill of a sweep the aggressor trades. *)
Lemma sweep_fills_own a b fs : Forall (sweep_fill_ok a b) fs -> filled_in (order_id a) fs = sumZ trade_quantity fs.
Proof.
  unfold filled_in. intros H. apply sumZ_ext. eapply Forall_impl; [exact H|].
  intros f (r & _ & _ & _ & _ & _ & _ & Hids). simpl.
  destruct (side a); destruct Hids as [E1 E2].
  - by rewrite (bool_decide_true (buy_order_id f = order_id a)).
  - by rewrite (bool_decide_true (sell_order_id f = order_id a)), orb_true_r.
Qed.

(** ** Uncrossed books *)

Lemma uncrossed_orders b :
  wf_book b ->
  uncrossed b <-> forall x y, order_lookup b !! order_id x = Some x -> order_lookup b !! order_id y = Some y ->
    side x = Buy -> side y = Sell -> price x < price y.
Proof.
  intros Hwf. split.
  - intros Hu x y Hx Hy Sx Sy.
    destruct (bt_last (buy_orders b)) as [bp|] eqn:Hb.
    + destruct (bt_first (sell_orders b)) as [ap|] eqn:Ha.
      * specialize (Hu bp ap Hb Ha). pose proof (best_price_le b Buy bp x Hwf Hb Hx Sx) as H1.
        pose proof (best_price_le b Sell ap y Hwf Ha Hy Sy) as H2. simpl in *. lia.
      * exfalso. destruct (inv_lookup_elem _ _ _ _ Hwf Hy) as [Hin _]. destruct (inv_in_level b y Hwf Hin) as (l1 & l2 & Hg).
        rewrite Sy in Hg. apply bt_first_None in Ha. simpl in Hg. by rewrite Ha in Hg.
    + exfalso. destruct (inv_lookup_elem _ _ _ _ Hwf Hx) as [Hin _]. destruct (inv_in_level b x Hwf Hin) as (l1 & l2 & Hg).
      rewrite Sx in Hg. apply bt_last_None in Hb. simpl in Hg. by rewrite Hb in Hg.
  - intros H bp ap Hb Ha.
    destruct (best_price_get Buy _ _ (inv_levels _ _ Hwf Buy) Hb) as (x & l & Hg & <- & Sx).
    destruct (best_price_get Sell _ _ (inv_levels _ _ Hwf Sell) Ha) as (y & l' & Hg' & <- & Sy).
    apply H; try done.
    + apply (inv_live _ _ _ Hwf), (orders_levels Buy). rewrite (bt_concat_get _ _ _ Hg). left.
    + apply (inv_live _ _ _ Hwf), (orders_levels Sell). rewrite (bt_concat_get _ _ _ Hg'). left.
Qed.

Lemma uncrossed_lineage b b' : wf_book b -> wf_book b' -> lineage b b' -> uncrossed b -> uncrossed b'.
Proof.
  intros Hwf Hwf' Hl Hu. rewrite uncrossed_orders in Hu |- * by done. intros x y Hx Hy Sx Sy.
  destruct (Hl _ _ Hx) as (x0 & Hx0 & Ex), (Hl _ _ Hy) as (y0 & Hy0 & Ey).
  assert (order_id x0 = order_id x /\ side x0 = side x /\ price x0 = price x) as (I1 & S1 & P1) by (by rewrite Ex).
  assert (order_id y0 = order_id y /\ side y0 = side y /\ price y0 = price y) as (I2 & S2 & P2) by (by rewrite Ey).
  rewrite <- P1, <- P2. apply Hu; congruence.
Qed.

(** ** Orders that do not rest *)

Lemma execute_swept limit a b :
  (order_type a = Limit -> limit = true) -> wf_book b -> enterable a b -> exists r es sus b', execute limit a b = Done (r, b') /\ swept a b r es sus b' /\ rest_on_book r = false.
Proof.
  intros Hl Hwf He. destruct (execute_spec limit a b Hwf He) as (sw & b' & fs & es & us & sus & Hrun & E & _ & _ & Hcr & _).
  exists (sweep_finish sw), es, sus, b'. split; [done|]. split; [|done].
  pose proof (se_fills E) as Hf. pose proof (se_updates E) as Hu. pose proof (se_remaining E) as Hr.
  pose proof (se_range E) as Hg. pose proof (se_stopped E) as Hst. simpl in *.
  split; simpl; rewrite ?Hf, ?Hu.
  - exact (se_effect E).
  - exact (se_fill_ok E).
  - intros Hn. rewrite Hn. lia.
  - lia.
  - done.
  - by intros ->.
  - destruct (stopped sw); lia.
  - pose proof (se_paced E) as Hpc. simpl in Hpc. destruct He as [_ Hfr].
    pose proof (lineage_None _ _ _ (eff_lineage (se_effect E)) Hfr) as Hfr'.
    eapply paced_ext; [..|exact Hpc]; intros id; unfold sweep_leaves, leaves_of, unfilled_of; simpl;
      repeat case_bool_decide; subst; try done; unfold qty; rewrite ?Hfr, ?Hfr'; lia.
  - auto.
Qed.

(** A fill-or-kill order refused for a self-match. *)
Lemma fok_refused_paced a b opposing m :
  enterable a b ->
  paced 0 [] [{| ev_order_id := order_id a; opposing_order := opposing; action := Canceled; ev_mode := m; before_fill := 0 |}] []
    (fun id => qty b id + leaves_of a id)
    (fun id => qty b id + unfilled_of a {| fills := []; fill_updates := []; unfilled_qty := 0; rest_on_book := false; stp_canceled := true |} id).
Proof.
  intros [Hq Hfr]. set (ev := {| ev_order_id := _ |}).
  assert (forall id, canceled_in id [ev] = bool_decide (order_id a = id) /\ restated_in id [ev] = 0) as Hev.
  { intros id. unfold canceled_in, restated_in. simpl. by case_bool_decide. }
  assert (qty b (order_id a) = 0) as Hz by (unfold qty; by rewrite Hfr).
  apply paced_prevent; [by apply Forall_singleton|by apply Forall_singleton| | | |by apply Forall_singleton];
    intros id; unfold leaves_of, unfilled_of; cbn [unfilled_qty].
  - destruct (Hev id) as [-> ->]. simpl. case_bool_decide; split; try done; intros; try done; lia.
  - intros [Hc|Hc]; [|by apply not_elem_of_nil in Hc]. rewrite (proj1 (Hev id)) in Hc. case_bool_decide; [subst id; lia|done].
  - intros [Hc|Hc]; [|by apply not_elem_of_nil in Hc]. rewrite (proj1 (Hev id)) in Hc. case_bool_decide; [subst id; lia|done].
Qed.

Lemma fok_swept a b :
  wf_book b -> enterable a b -> exists r es sus b', execute_fok a b = Done (r, b') /\ swept a b r es sus b' /\ rest_on_book r = false.
Proof.
  intros Hwf He. pose proof (proj1 He) as Hq. unfold execute_fok.
  destruct (fok_scan_total b a (S (length (crossing a b))) (crossing a b) 0) as [[av sm] Hscan]; [lia|].
  rewrite Hscan. cbn [obind]. destruct sm as [id|].
  { eexists _, _, [], _. split; [done|]. split; [|done]. split; simpl.
    - by apply own_event_effect.
    - constructor.
    - done.
    - unfold restated_in. simpl. case_bool_decide; lia.
    - unfold canceled_in. simpl. by rewrite bool_decide_true.
    - done.
    - done.
    - exact (fok_refused_paced a b id (mode (order_stp a)) He).
    - constructor. }
  destruct (av <? quantity a).
  { eexists _, [], [], b. split; [done|]. split; [|done]. split; simpl; try (done || lia); [by apply effect_refl|].
    eapply paced_ext; [..|apply paced_refl]; [done|]. intros id. unfold leaves_of, unfilled_of. simpl. done. }
  destruct (execute_swept true a b ltac:(done) Hwf He) as (r & es & sus & b' & Hrun & [E1 E2 E3 E4 E5 E6 E7 E8 E9] & _).
  simpl in Hrun. rewrite Hrun. cbn [obind]. eexists _, es, sus, b'. split; [done|]. split; [|done]. by split.
Qed.

Lemma process_aggressive_spec a b :
  wf_book b -> enterable a b -> order_type a = Market \/ order_type a = Limit ->
  (process_aggressive a b = Done (resting_result a, b) /\ order_type a <> Market) \/
  (exists r es sus b', process_aggressive a b = Done (r, b') /\ swept a b r es sus b' /\ rest_on_book r = false).
Proof.
  intros Hwf He. unfold process_aggressive, process_limit.
  destruct (order_type a) eqn:Hty; [|destruct (time_in_force a)|intros [?|?]; discriminate..]; intros _.
  - right. apply (execute_swept false a b); [by rewrite Hty|done|done].
  - by left.
  - by left.
  - right. by apply (execute_swept true a b).
  - right. by apply fok_swept.
  - by left.
  - by left.
  - by left.
Qed.

(** ** Taking the book's events *)

Lemma absorb_frame b base out :
  let b' := (absorb_stp b base out).2 in
  (wf_book b -> wf_book b') /\ book_stp b' = stp_outcome_default /\ order_lookup b' = order_lookup b /\
  (forall s p, depth [] b' s p = depth [] b s p) /\ (uncrossed b -> uncrossed b').
Proof.
  simpl. split_and!; try done. intros Hwf. by apply book_inv_set_refresh_log, book_inv_set_stp.
Qed.

Lemma absorb_cum b base out out' b' : absorb_stp b base out = (out', b') -> cum_filled b' = cum_filled b.
Proof. unfold absorb_stp. by intros [= <- <-]. Qed.

Lemma add_order_cum o b : cum_filled (add_order o b).2 = cum_filled b.
Proof. unfold add_order. by destruct (side o). Qed.

(** ** One order *)

Section execute.
Context (o : Order) (b : OrderBook) (out : Execution).
Context (Hidle : idle b) (Hex : executable o b).

Lemma swept_paced r es sus b' :
  swept o b r es sus b' ->
  paced 0 (fills r) es (if stp_canceled r || (unfilled_qty r =? 0) then [] else [order_id o])
    (fun id => qty b id + leaves_of o id) (qty b').
Proof using Hidle Hex.
  intros Hs. pose proof (sr_paced _ _ _ _ _ _ Hs) as Hp. destruct Hex as [_ Hfr].
  assert (qty b' (order_id o) = 0) as Hz.
  { unfold qty. by rewrite (lineage_None b b' _ (eff_lineage (sr_effect _ _ _ _ _ _ Hs)) Hfr). }
  destruct (stp_canceled r) eqn:Hc; simpl.
  { eapply paced_ext; [done| |exact Hp]. intros id. unfold unfilled_of. rewrite (sr_none_left _ _ _ _ _ _ Hs Hc). case_bool_decide; lia. }
  destruct (Z.eqb_spec (unfilled_qty r) 0) as [Hu|Hu].
  { eapply paced_ext; [done| |exact Hp]. intros id. unfold unfilled_of. rewrite Hu. case_bool_decide; lia. }
  pose proof (sr_unfilled _ _ _ _ _ _ Hs) as Hun. eapply paced_cancel; [exact Hp| |done|].
  - intros i Hi. unfold unfilled_of. rewrite bool_decide_false by congruence. lia.
  - unfold unfilled_of. rewrite bool_decide_true by done. lia.
Qed.

Lemma entered_paced n b' fs es :
  paced n fs es [] (qty (add_order o b).2) (qty b') -> paced n fs es [] (fun id => qty b id + leaves_of o id) (qty b').
Proof using Hex.
  destruct Hex as [_ Hfr]. apply paced_ext; [|done]. intros id. unfold qty, leaves_of.
  rewrite add_order_lookup, lookup_insert. case_decide as Hid.
  - subst id. rewrite bool_decide_true, Hfr by done. lia.
  - rewrite bool_decide_false by done. lia.
Qed.

End execute.

Lemma match_into_spec b out :
  wf_book b ->
  exists fs es us sus b' out', match_into b out = Done (out', b') /\
    executed b (qty b) out fs es [] us [] sus b' (qty b') out' /\ lineage b b' /\ Forall (fill_ok b) fs.
Proof.
  intros Hwf. unfold match_into. destruct (match_orders_effect b Hwf) as (fs & us & b1 & -> & E & Hu & Hfo & _ & Hpc).
  cbn [obind]. destruct (absorb_frame b1 (length (ex_fills out)) out) as (W & C & L & D & U).
  destruct (absorb_stp b1 (length (ex_fills out)) out) as [out1 b2] eqn:Ha. simpl in W, C, L, D, U.
  unfold absorb_stp in Ha. injection Ha as <- <-.
  eexists fs, (shift_event (length (ex_fills out)) <$> events (book_stp b1)), us, (stp_updates (book_stp b1)), _, _.
  split; [done|]. split_and!; [| |exact Hfo].
  - split; simpl; rewrite ?app_nil_r; try done; [apply W, (eff_inv E)| | |].
    + apply paced_shift, Hpc.
    + intros s p. rewrite D, (eff_depth E), depth_set_stp. simpl. lia.
    + intros id Hid. by apply (eff_banked E id Logic.I), qty_present.
  - eapply lineage_trans; [apply (lineage_same b (set_stp stp_outcome_default b)); done|].
    eapply lineage_trans; [apply (eff_lineage E)|by apply lineage_same].
Qed.

(** An order that does not rest: take its events, then record its fills and
    whether a remainder was cancelled. *)
Lemma swept_executed o b r es sus b' out :
  idle b -> executable o b -> swept o b r es sus b' ->
  let base := length (ex_fills out) in
  let '(out1, b1) := absorb_stp b' base out in
  let out2 := add_fills (fills r) (fill_updates r) out1 in
  let gone := stp_canceled r || (unfilled_qty r =? 0) in
  executed b (fun id => qty b id + leaves_of o id) out (fills r) (shift_event base <$> es)
    (if gone then [] else [order_id o]) (fill_updates r) [] sus b1 (qty b1)
    (if gone then out2 else add_cancel (order_id o) out2).
Proof.
  intros Hidle Hex Hs. pose proof (sr_effect _ _ _ _ _ _ Hs) as E. pose proof (eff_inv E) as Hwf1.
  pose proof (swept_paced o b Hidle Hex _ _ _ _ Hs) as Ha.
  pose proof (uncrossed_lineage _ _ (idle_wf _ Hidle) Hwf1 (eff_lineage E) (idle_uncrossed _ Hidle)) as Hu.
  pose proof (eff_events E) as Hev. pose proof (eff_updates E) as Hup.
  assert (forall id, 0 < qty b' id -> banked b' id = banked b id + filled_in id (fills r)) as Hbk.
  { intros id Hid. apply qty_present in Hid. apply (eff_banked E); [|done]. unfold not_own. intros ->.
    destruct Hid as [x Hx]. destruct (eff_lineage E _ _ Hx) as (y & Hy & _). destruct Hex. congruence. }
  rewrite (idle_clean _ Hidle) in Hev, Hup. simpl in Hev, Hup. subst es sus.
  destruct (absorb_frame b' (length (ex_fills out)) out) as (W & C & L & D & U).
  cbv zeta. unfold absorb_stp in *. cbn [fst snd] in *.
  destruct (stp_canceled r || (unfilled_qty r =? 0)); (split; simpl; rewrite ?app_nil_r; try done; [by apply W| |]).
  - apply paced_shift, Ha.
  - intros s p. rewrite D, (eff_depth E). simpl. lia.
  - apply paced_shift, Ha.
  - intros s p. rewrite D, (eff_depth E). simpl. lia.
Qed.

(** An order that rests: entered, then the book is crossed. *)
Lemma rested_executed o b out :
  idle b -> executable o b -> order_type o <> Market ->
  let '(out1, b1) := absorb_stp b (length (ex_fills out)) out in
  let '(md, b2) := add_order o b1 in
  exists fs es us sus b' out', match_into b2 (add_rested md (add_fills [] [] out1)) = Done (out', b') /\
    executed b (fun id => qty b id + leaves_of o id) out fs es [] us [md] sus b' (qty b') out' /\
    descends [o] b fs b'.
Proof.
  intros Hidle [Hok Hfr] Hty. pose proof (idle_wf _ Hidle) as Hwf. pose proof (idle_clean _ Hidle) as Hclean.
  destruct (absorb_frame b (length (ex_fills out)) out) as (W & C & L & D & U).
  assert (ex_stp (absorb_stp b (length (ex_fills out)) out).1 = ex_stp out /\
          ex_stp_updates (absorb_stp b (length (ex_fills out)) out).1 = ex_stp_updates out) as [S1 S2].
  { unfold absorb_stp. rewrite Hclean. simpl. by rewrite !app_nil_r. }
  destruct (absorb_stp b (length (ex_fills out)) out) as [out1 b1] eqn:Habs. cbn [fst snd] in *.
  rewrite <- L in Hfr. pose proof (W Hwf) as Hwf1.
  destruct (add_order o b1) as [md b2] eqn:Hadd.
  pose proof (add_order_inv [] o b1 Hwf1 Hok Hfr) as Hwf2. pose proof (add_order_lookup o b1) as L2.
  assert (forall s p, depth [] b2 s p = depth [] b1 s p + changes_at s p [md]) as D2.
  { intros s p. pose proof (add_order_depth o b1 s p Hwf1 Hok Hfr) as H. by rewrite Hadd in H. }
  rewrite Hadd in Hwf2, L2. simpl in Hwf2, L2.
  destruct (match_into_spec b2 (add_rested md (add_fills [] [] out1)) Hwf2)
    as (fs & es & us & sus & b' & out' & Hrun & [X1 X2 X3 X4 X5 X6 X7 X8 X9 X10 X11 X12] & Hlin & Hfo).
  exists fs, es, us, sus, b', out'. split; [done|].
  assert (ex_fills out1 = ex_fills out /\ ex_fill_updates out1 = ex_fill_updates out /\
          ex_rested out1 = ex_rested out /\ ex_cancels out1 = ex_cancels out) as (F1 & F2 & F3 & F4).
  { unfold absorb_stp in Habs. by injection Habs as <- <-. }
  simpl in *. rewrite !app_nil_r in *. split.
  - split; rewrite ?app_nil_r; try done; try congruence.
    + pose proof (entered_paced o b1 (conj Hok Hfr) (length (ex_fills out)) b' fs es) as Hacc. rewrite Hadd, <- F1 in Hacc.
      rewrite <- F1. eapply paced_ext; [|done|exact (Hacc X10)]. intros id. unfold qty. by rewrite L.
    + intros s p. rewrite X11, D2, D. simpl. lia.
    + intros id Hid. rewrite (X12 id Hid). f_equal. unfold banked. pose proof (add_order_cum o b1) as Hc. rewrite Hadd in Hc. simpl in Hc. rewrite Hc.
      by rewrite (absorb_cum _ _ _ _ _ Habs).
  - assert (forall id x, order_lookup b2 !! id = Some x -> origin [o] b id x) as Hor.
    { intros id x. rewrite L2, lookup_insert, L. case_decide as Hid; [|by left]. intros [= <-]. right. split; [left|done]. }
    split.
    + intros id o' Ho. destruct (Hlin id o' Ho) as (o1 & Hb & E). exists o1. split; [by apply Hor|]. rewrite E. apply same_terms_quantity.
    + intros Hp. eapply lineage_priced; [exact Hlin|]. intros id x. rewrite L2, lookup_insert. case_decide; [by intros [= <-]|]. rewrite L. apply Hp.
    + eapply Forall_impl; [exact Hfo|]. intros f Hf. apply (fill_ok_legal []) in Hf. revert Hf. apply legal_terms.
      intros id x [Hx|[Hx _]]; [|by apply not_elem_of_nil in Hx]. exists x. split; [by apply Hor|apply same_terms_refl].
Qed.

(** Executing an order on an idle book: it always returns, and does exactly what
    it records. *)
Lemma execute_into_spec o b out :
  idle b -> executable o b ->
  exists fs es cs us rs sus rests b' out', execute_into o b out = Done (rests, out', b') /\
    executed b (fun id => qty b id + leaves_of o id) out fs es cs us rs sus b' (qty b') out' /\
    descends [o] b fs b'.
Proof.
  intros Hidle Hex. unfold execute_into. set (o' := with_order_type (executed_type (order_type o)) o).
  assert (same_terms o' o) as Hterms by (split; [by destruct o|unfold o'; simpl; by destruct (order_type o)]).
  pose proof (idle_wf _ Hidle) as Hwf.
  assert (executable o' b) as Hex' by (destruct Hex as [[? ?] ?]; by split).
  assert (enterable o' b) as He by (destruct Hex' as [[? ?] ?]; by split).
  change (leaves_of o) with (leaves_of o'). change (order_id o) with (order_id o').
  destruct (process_aggressive_spec o' b Hwf He) as [[-> Hty]|(r & es & sus & b1 & -> & Hs & Hrest)].
  - unfold o', executed_type. destruct (order_type o); simpl; auto.
  - cbn [obind]. pose proof (rested_executed o' b out Hidle Hex' Hty) as H.
    destruct (absorb_stp b (length (ex_fills out)) out) as [out1 b1]. unfold resting_result.
    cbn [stp_canceled unfilled_qty rest_on_book fills fill_updates orb negb].
    destruct (Z.eqb_spec (quantity o') 0) as [Hz|_]; [destruct He; lia|].
    rewrite with_quantity_same. destruct (add_order o' b1) as [md b2].
    destruct H as (fs & es & us & sus & b' & out' & -> & Hx & Hf).
    eexists fs, es, [], us, [md], sus, true, b', out'. split; [done|]. split; [done|]. eapply descends_src; [|exact Hf].
    intros x Hin. apply list_elem_of_singleton in Hin as ->. exists o. split; [left|exact Hterms].
  - cbn [obind]. pose proof (swept_executed o' b r es sus b1 out Hidle Hex' Hs) as H. cbv zeta in H.
    assert (order_lookup (absorb_stp b1 (length (ex_fills out)) out).2 = order_lookup b1) as L by done.
    destruct (absorb_stp b1 (length (ex_fills out)) out) as [out1 b2]. cbn [snd] in L.
    assert (descends [o] b (fills r) b2) as Hf.
    { apply (descends_src [o']); [intros x Hin; apply list_elem_of_singleton in Hin as ->; exists o; split; [left|exact Hterms]|].
      assert (lineage b b2) as Hlin by (intros id x Hx; rewrite L in Hx; by apply (eff_lineage (sr_effect _ _ _ _ _ _ Hs))).
      pose proof (lineage_descends [o'] b [] b2 Hlin ltac:(constructor)) as [D1 D2 _]. split; [done|done|]. apply sweep_legal; [|apply (sr_fills _ _ _ _ _ _ Hs)].
      intros Hla. apply (sr_limit _ _ _ _ _ _ Hs). unfold o', executed_type in *. simpl in *. by destruct (order_type o). }
    rewrite Hrest. cbn [negb]. destruct (stp_canceled r || (unfilled_qty r =? 0));
      eexists _, _, _, _, _, _, _, _, _; (split; [done|]); (split; [exact H|exact Hf]).
Qed.

Lemma executed_idle b before out fs es cs us rs sus b' after out' :
  executed b before out fs es cs us rs sus b' after out' -> idle b'.
Proof. intros H. split; apply H. Qed.

Lemma executed_trans b f0 out fs1 es1 cs1 us1 rs1 sus1 b1 f1 out1 fs2 es2 cs2 us2 rs2 sus2 b2 f2 out2 :
  executed b f0 out fs1 es1 cs1 us1 rs1 sus1 b1 f1 out1 ->
  executed b1 f1 out1 fs2 es2 cs2 us2 rs2 sus2 b2 f2 out2 ->
  executed b f0 out (fs1 ++ fs2) (es1 ++ es2) (cs1 ++ cs2) (us1 ++ us2) (rs1 ++ rs2) (sus1 ++ sus2) b2 f2 out2.
Proof.
  intros [? ? ? F1 E1 C1 U1 R1 S1 A1 D1 B1] [? ? ? F2 E2 C2 U2 R2 S2 A2 D2 B2].
  split; rewrite ?app_assoc; try done; try congruence.
  - rewrite F1, length_app in A2. by eapply paced_trans.
  - intros s p. rewrite D2, D1, !changes_at_app. lia.
  - intros id Hid. destruct (paced_le _ _ _ _ _ _ id A2). rewrite filled_in_app, B2, B1 by lia. lia.
Qed.

Lemma executed_refl b f out : idle b -> executed b f out [] [] [] [] [] [] b f out.
Proof.
  intros [? ? ?]. split; rewrite ?app_nil_r; try done; try apply paced_refl; [intros s p|intros id _]; simpl; lia.
Qed.

(** Leaves of other ids ride along. *)
Lemma executed_frame b f out fs es cs us rs sus b' f' out' g :
  (forall id, 0 <= g id) -> (forall id, 0 < f id -> g id = 0) ->
  wf_book b -> (forall id, qty b id <= f id) -> (forall id, qty b' id <= f' id) ->
  executed b f out fs es cs us rs sus b' f' out' ->
  executed b (fun id => f id + g id) out fs es cs us rs sus b' (fun id => f' id + g id) out'.
Proof.
  intros Hg Hz Hwf Hq Hq' [? ? ? F1 E1 C1 U1 R1 S1 A1 D1 B1]. split; try done; [by apply paced_frame|].
  intros id Hid. specialize (Hg id). specialize (Hz id). destruct (paced_le _ _ _ _ _ _ id A1) as [Hle Hnn].
  specialize (Hq id). specialize (Hq' id). pose proof (qty_nonneg _ _ id x_wf0) as Hn.
  destruct (decide (0 < f' id)) as [|Hf]; [by apply B1|].
  rewrite (banked_absent _ _ _ Hwf), (banked_absent _ _ _ x_wf0); [lia|eapply qty_absent; [done|lia]..].
Qed.

Lemma executed_ext b f g out fs es cs us rs sus b' f' g' out' :
  (forall id, f id = g id) -> (forall id, f' id = g' id) ->
  executed b f out fs es cs us rs sus b' f' out' -> executed b g out fs es cs us rs sus b' g' out'.
Proof.
  intros Hf Hf' [? ? ? F1 E1 C1 U1 R1 S1 A1 D1 B1]. split; try done; [by eapply paced_ext|].
  intros id. rewrite <- Hf'. apply B1.
Qed.

(** Marking a stop as triggered records nothing else. *)
Lemma executed_triggered b f log id out fs es cs us rs sus b' f' out' :
  executed b f (add_triggered log id out) fs es cs us rs sus b' f' out' ->
  executed b f out fs es cs us rs sus b' f' out'.
Proof. intros [? ? ? F1 E1 C1 U1 R1 S1 A1 D1 B1]. by split. Qed.

(** ** Theorems *)

Lemma quiet_idle : idle quiet_book.
Proof.
  split; [exact quiet_wf|reflexivity|]. intros bp ap. vm_compute. intros [= <-] [= <-]. reflexivity.
Qed.

(** Executing any order on an idle book always returns and leaves an idle
    book: well formed, uncrossed, with no prevention events left over. The
    execution records exactly what happened: for every id the leaves before are
    the fills, the quantity prevented and the leaves after, unless the id was
    canceled; and the fill, entry and prevention increments together take the
    displayed depth of the old book to that of the new one. *)
Theorem execute_into_correct o b out :
  idle b -> executable o b ->
  exists fs es cs us rs sus rests b' out', execute_into o b out = Done (rests, out', b') /\ idle b' /\
    executed b (fun id => qty b id + leaves_of o id) out fs es cs us rs sus b' (qty b') out'.
Proof.
  intros Hb Ho. destruct (execute_into_spec o b out Hb Ho)
    as (fs & es & cs & us & rs & sus & rests & b' & out' & Hrun & Hx & _).
  exists fs, es, cs, us, rs, sus, rests, b', out'. split_and!; [done|by eapply executed_idle|done].
Qed.

Lemma execute_into_correct_witness :
  exists fs es cs us rs sus rests b' out',
    execute_into bid_cross quiet_book execution_default = Done (rests, out', b') /\ fs <> [] /\ rests = true /\
    executed quiet_book (fun id => qty quiet_book id + leaves_of bid_cross id) execution_default fs es cs us rs sus b' (qty b') out'.
Proof.
  destruct (execute_into_correct bid_cross quiet_book execution_default quiet_idle)
    as (fs & es & cs & us & rs & sus & rests & b' & out' & E & _ & H).
  { split; [vm_compute; split_and!; congruence|reflexivity]. }
  exists fs, es, cs, us, rs, sus, rests, b', out'. split_and!; [exact E| | |exact H].
  - intros ->. pose proof (x_fills _ _ _ _ _ _ _ _ _ _ _ _ H) as Hf. vm_compute in E. injection E as _ <- _. discriminate Hf.
  - vm_compute in E. by injection E as <- _ _.
Defined.
