(* ===== verification/Cascade.v ===== *)
(** * The stop cascade

    Which stops a print fires and in which order, and the cascade of executions
    they start: it terminates, fires every stop at most once, leaves no parked
    stop that any of its prints reaches, and keeps the accounting of
    [Executions] over all of it. *)

From S2P Require Import Prelude BTree Order OrderBook BookInvariant Samples BookEffects BookOps Matcher Effects MatchOrders Sweep Fok Stops Executions.

(** ** Definitions *)

(** Leaves waiting in a list of orders that are not on the book. *)
Definition waiting (l : list Order) (id : string) : Z := sumZ (fun o => leaves_of o id) l.

(** Stops that may be executed on [b] one after the other. *)
Definition stops_ok (b : OrderBook) (l : list Order) : Prop :=
  Forall (fun o => executable o b) l /\ NoDup (order_id <$> l).

(** No print of [fs] fires a stop of [l]. *)
Definition none_fires (fs : list ExecutionReport) (l : list Order) : Prop :=
  Forall (fun f => Forall (fun o => stop_fires o (trade_price f) = false) l) fs.

(** The price of the last print, if there was one. *)
Definition last_print (fs : list ExecutionReport) (last : option Z) : option Z :=
  foldl (fun _ f => Some (trade_price f)) last fs.

(** An execution that printed at 101. *)
Definition sample_print : Execution :=
  add_fills [{| buy_order_id := "b0"; sell_order_id := "s0"; trade_price := 101; trade_quantity := 1;
                aggressor_side := Buy; buy_fully_filled := true; sell_fully_filled := true |}] [] execution_default.

(** ** Firing *)

Lemma filter_partition {A} (f : A -> bool) (l : list A) :
  List.filter f l ++ List.filter (fun x => negb (f x)) l ≡ₚ l.
Proof.
  induction l as [|x l IH]; [done|]. simpl. destruct (f x); simpl.
  - by rewrite IH.
  - rewrite <- Permutation_middle. by rewrite IH.
Qed.

Lemma drain_perm parked p fired rest :
  drain_triggered_stops parked p = (fired, rest) ->
  fired ++ rest ≡ₚ parked /\ rest = List.filter (fun o => negb (stop_fires o p)) parked.
Proof.
  unfold drain_triggered_stops. intros [= <- <-]. split; [|done].
  rewrite sort_stable_perm. apply filter_partition.
Qed.

Lemma filter_sublist {A} (f : A -> bool) (l : list A) : List.filter f l `sublist_of` l.
Proof. induction l as [|x l IH]; simpl; [done|]. destruct (f x); by constructor. Qed.

Lemma scan_prints_spec prints : forall parked last queue parked' last' queue',
  scan_prints prints parked last queue = (parked', last', queue') ->
  exists fired, queue' = queue ++ fired /\ fired ++ parked' ≡ₚ parked /\ parked' `sublist_of` parked /\
    last' = last_print prints last /\ none_fires prints parked'.
Proof.
  induction prints as [|f prints IH]; intros parked last queue parked' last' queue'; cbn [scan_prints].
  { intros [= <- <- <-]. exists []. rewrite app_nil_r. split_and!; try done. constructor. }
  destruct (drain_triggered_stops parked (trade_price f)) as [fired rest] eqn:Hd. intros Hs.
  apply drain_perm in Hd as [Hp Hr]. destruct (IH _ _ _ _ _ _ Hs) as (fired2 & -> & Hp2 & Hsub & -> & Hn).
  exists (fired ++ fired2). split_and!; try done.
  - by rewrite app_assoc.
  - rewrite <- app_assoc, Hp2. done.
  - etrans; [exact Hsub|]. rewrite Hr. apply filter_sublist.
  - constructor; [|done]. apply Forall_forall. intros o Ho. apply (sublist_submseteq) in Hsub.
    apply (elem_of_submseteq _ _ _ Ho) in Hsub. rewrite Hr in Hsub.
    apply list_elem_of_In, filter_In in Hsub as [_ Hf]. by destruct (stop_fires o (trade_price f)).
Qed.

Lemma none_fires_sublist fs l l' : l' `sublist_of` l -> none_fires fs l -> none_fires fs l'.
Proof.
  intros Hs H. eapply Forall_impl; [exact H|]. intros f Hf. simpl in *. rewrite Forall_forall in Hf |- *.
  intros o Ho. apply Hf. eapply elem_of_submseteq; [exact Ho|]. by apply sublist_submseteq.
Qed.

(** ** The loop *)

Lemma execute_into_triggered o b out rests out' b' :
  execute_into o b out = Done (rests, out', b') -> ex_triggered out' = ex_triggered out.
Proof.
  unfold execute_into, match_into. intros ([r b1] & _ & H)%obind_Done.
  destruct (absorb_stp b1 (length (ex_fills out)) out) as [out1 b2] eqn:Ha.
  assert (ex_triggered out1 = ex_triggered out) as E1 by (unfold absorb_stp in Ha; by injection Ha as <- <-).
  destruct (_ || _); [by injection H as <- <- <-|]. destruct (negb _); [by injection H as <- <- <-|].
  destruct (add_order _ b2) as [md b3]. apply obind_Done in H as ([out2 b4] & Hm & H). injection H as <- <- <-.
  apply obind_Done in Hm as ([[fs us] b5] & _ & Hm).
  destruct (absorb_stp b5 _ _) as [out3 b6] eqn:Ha2. injection Hm as <- <-. simpl.
  unfold absorb_stp in Ha2. by injection Ha2 as <- <-.
Qed.

#[export] Instance waiting_Permutation : Proper (Permutation ==> eq ==> eq) waiting.
Proof. intros l l' Hp id ? <-. unfold waiting. by rewrite Hp. Qed.

Lemma stops_ok_perm b l l' : l ≡ₚ l' -> stops_ok b l -> stops_ok b l'.
Proof. intros Hp [H1 H2]. split; by rewrite <- Hp. Qed.

(** After one of them is executed, the other stops can still be. *)
Lemma stops_ok_next b fs b' o l :
  stops_ok b (o :: l) -> descends [o] b fs b' -> stops_ok b' l.
Proof.
  intros [H1 H2] Hf. apply Forall_cons in H1 as [_ H1]. apply NoDup_cons in H2 as [Hn H2].
  split; [|done]. rewrite Forall_forall in H1 |- *. intros x Hx. destruct (H1 x Hx) as [Hok Hfr].
  split; [done|]. eapply descends_fresh; [exact Hf|done|]. simpl. intros E%list_elem_of_singleton. apply Hn. rewrite <- E. by apply list_elem_of_fmap_2.
Qed.

Lemma waiting_nonneg b l id : stops_ok b l -> 0 <= waiting l id.
Proof.
  intros [H _]. unfold waiting. apply sumZ_nonneg. eapply Forall_impl; [exact H|]. intros o [[? _] _]. unfold leaves_of.
  simpl. case_bool_decide; lia.
Qed.

Lemma waiting_absent l id : id ∉ order_id <$> l -> waiting l id = 0.
Proof.
  induction l as [|o l IH]; [done|]. rewrite fmap_cons, not_elem_of_cons. intros [Hne Hn]. unfold waiting in *. simpl.
  rewrite (IH Hn). unfold leaves_of. by rewrite bool_decide_false by congruence.
Qed.

(** The stops that wait take no part in an execution. *)
Lemma waiting_apart b o l id : stops_ok b (o :: l) -> 0 < qty b id + leaves_of o id -> waiting l id = 0.
Proof.
  intros [H1 H2] Hpos. apply waiting_absent. intros Hin. apply NoDup_cons in H2 as [Hn _].
  apply list_elem_of_fmap in Hin as (x & -> & Hx). apply Forall_cons in H1 as [_ H1]. rewrite Forall_forall in H1.
  destruct (H1 x Hx) as [_ Hfr]. unfold qty in Hpos. rewrite Hfr in Hpos. unfold leaves_of in Hpos.
  case_bool_decide as E; [|lia]. apply Hn. rewrite E. by apply list_elem_of_fmap_2.
Qed.

Lemma last_print_app fs fs' last : last_print (fs ++ fs') last = last_print fs' (last_print fs last).
Proof. apply foldl_app. Qed.

(** Executing the first of several stops: the others wait. *)
Lemma execute_first b stop rest out :
  idle b -> stops_ok b (stop :: rest) ->
  exists fs es cs us rs sus rests b' out', execute_into stop b out = Done (rests, out', b') /\
    executed b (fun id => qty b id + waiting (stop :: rest) id) out fs es cs us rs sus b' (fun id => qty b' id + waiting rest id) out' /\
    stops_ok b' rest /\ descends [stop] b fs b'.
Proof.
  intros Hidle Hok. assert (executable stop b) as Hex by (destruct Hok as [H _]; by apply Forall_cons in H as [? _]).
  assert (forall id, qty b id <= qty b id + leaves_of stop id) as Hle.
  { intros id. destruct Hex as [[? _] _]. unfold leaves_of. case_bool_decide; lia. }
  assert (forall id, 0 <= waiting rest id) as Hnn.
  { intros id. apply (waiting_nonneg b). destruct Hok as [H1 H2]. apply Forall_cons in H1 as [_ H1]. apply NoDup_cons in H2 as [_ H2]. done. }
  pose proof (fun id => waiting_apart b stop rest id Hok) as Hap.
  destruct (execute_into_spec stop b out Hidle Hex) as (fs & es & cs & us & rs & sus & rests & b1 & out2 & Hrun & Hx & Hd).
  eexists _, _, _, _, _, _, _, _, _. split; [exact Hrun|]. split_and!; [|by eapply stops_ok_next|done].
  eapply executed_ext; [|done|exact (executed_frame _ _ _ _ _ _ _ _ _ _ _ _ (waiting rest) Hnn Hap (idle_wf _ Hidle) Hle (fun id => Z.le_refl _) Hx)].
  intros id. unfold waiting. simpl. lia.
Qed.

(** Where a pass of the loop stands after its scan. *)
Lemma scan_state scanned queue parked last last0 fs parked1 last1 queue1 :
  none_fires (take scanned fs) parked -> last = last_print (take scanned fs) last0 ->
  scan_prints (drop scanned fs) parked last queue = (parked1, last1, queue1) ->
  queue1 ++ parked1 ≡ₚ queue ++ parked /\ none_fires fs parked1 /\ parked1 `sublist_of` parked /\
  last1 = last_print fs last0.
Proof.
  intros Hn Hl Hs. destruct (scan_prints_spec _ _ _ _ _ _ _ Hs) as (fired & -> & Hp & Hsub & -> & Hn1).
  split_and!; [|  |done|].
  - rewrite <- app_assoc. by rewrite Hp.
  - rewrite <- (take_drop scanned fs). apply Forall_app. split; [|done]. by eapply none_fires_sublist.
  - rewrite Hl, <- last_print_app. by rewrite take_drop.
Qed.

Lemma cascade_loop_spec last0 fuel : forall scanned queue b parked last out,
  idle b -> stops_ok b (queue ++ parked) -> (length (queue ++ parked) < fuel)%nat ->
  none_fires (take scanned (ex_fills out)) parked -> last = last_print (take scanned (ex_fills out)) last0 ->
  exists fs es cs us rs sus ts b' parked' out',
    cascade_loop fuel scanned queue b parked last out = Done (b', parked', last_print (ex_fills out') last0, out') /\
    executed b (fun id => qty b id + waiting (queue ++ parked) id) out fs es cs us rs sus
      b' (fun id => qty b' id + waiting parked' id) out' /\
    none_fires (ex_fills out') parked' /\ parked' `sublist_of` parked /\
    ex_triggered out' = ex_triggered out ++ ts /\ ts ++ (order_id <$> parked') ≡ₚ order_id <$> queue ++ parked /\
    stops_ok b' parked' /\ descends (queue ++ parked) b fs b'.
Proof.
  induction fuel as [|fuel IH]; intros scanned queue b parked last out Hidle Hok Hf Hn Hl; [lia|].
  cbn [cascade_loop].
  destruct (scan_prints (drop scanned (ex_fills out)) parked last queue) as [[parked1 last1] queue1] eqn:Hs.
  destruct (scan_state _ _ _ _ _ _ _ _ _ Hn Hl Hs) as (Hp & Hn1 & Hsub & ->).
  destruct queue1 as [|stop queue1]; simpl app in Hp.
  { exists [], [], [], [], [], [], [], b, parked1, out. rewrite app_nil_r. split_and!; try done.
    - apply (executed_ext _ (fun id => qty b id + waiting parked1 id) _ _ _ _ _ _ _ _ _ (fun id => qty b id + waiting parked1 id));
        [intros id; by rewrite Hp|done|by apply executed_refl].
    - simpl. by rewrite Hp.
    - by apply (stops_ok_perm b (queue ++ parked)).
    - apply descends_refl. }
  apply (stops_ok_perm b _ (stop :: queue1 ++ parked1)) in Hok; [|done]. set (out1 := add_triggered _ (order_id stop) out).
  destruct (execute_first b stop (queue1 ++ parked1) out1 Hidle Hok) as (fs & es & cs & us & rs & sus & rests & b1 & out2 & Hrun & Hx & Hok1 & Hfresh).
  rewrite Hrun. cbn [obind]. apply execute_into_triggered in Hrun. pose proof (x_fills _ _ _ _ _ _ _ _ _ _ _ _ Hx) as Hfs.
  destruct (IH (length (ex_fills out)) queue1 b1 parked1 (last_print (ex_fills out) last0) out2)
    as (fs2 & es2 & cs2 & us2 & rs2 & sus2 & ts2 & b2 & parked2 & out3 & -> & Hx2 & Hn2 & Hsub2 & Ht2 & Hp2 & Hok2 & Hd2).
  - by eapply executed_idle.
  - done.
  - rewrite <- Hp in Hf. simpl in Hf. lia.
  - rewrite Hfs. simpl. by rewrite take_app_length.
  - rewrite Hfs. simpl. by rewrite take_app_length.
  - eexists _, _, _, _, _, _, (order_id stop :: ts2), b2, parked2, out3. split; [done|]. split_and!; try done.
    + eapply executed_trans; [|exact Hx2]. eapply executed_ext; [|done|exact (executed_triggered _ _ _ _ _ _ _ _ _ _ _ _ _ _ Hx)].
      intros id. simpl. by rewrite <- Hp.
    + by etrans.
    + rewrite Ht2, Hrun. simpl. by rewrite <- app_assoc.
    + simpl. rewrite Hp2, <- Hp. done.
    + apply (descends_src ([stop] ++ queue1 ++ parked1)); [|by eapply descends_trans]. intros x Hin. exists x. split; [|apply same_terms_refl]. rewrite <- Hp. exact Hin.
Qed.

Lemma run_stop_cascade_spec b parked last out :
  idle b -> stops_ok b parked ->
  exists fs es cs us rs sus b' parked' last' out',
    run_stop_cascade b parked last out = Done (b', parked', last', out') /\ idle b' /\ stops_ok b' parked' /\
    parked' `sublist_of` parked /\
    executed b (fun id => qty b id + waiting parked id) out fs es cs us rs sus
      b' (fun id => qty b' id + waiting parked' id) out' /\ descends parked b fs b'.
Proof.
  intros Hb Hs. destruct (cascade_loop_spec last (S (length parked)) 0 [] b parked last out Hb Hs)
    as (fs & es & cs & us & rs & sus & ts & b' & parked' & out' & Hrun & Hx & _ & Hsub & _ & _ & Hs' & Hd).
  - simpl. lia.
  - constructor.
  - done.
  - eexists _, _, _, _, _, _, _, _, _, _. split; [exact Hrun|]. split_and!; [by eapply executed_idle|done|done|exact Hx|exact Hd].
Qed.

(** ** Firing order *)

Lemma distance_leb_total p a b :
  (stop_distance p b <=? stop_distance p a) = false -> (stop_distance p a <=? stop_distance p b) = true.
Proof. intros H. propify. lia. Qed.

Lemma distance_leb_trans p a b c :
  (stop_distance p b <=? stop_distance p a) = true -> (stop_distance p c <=? stop_distance p b) = true ->
  (stop_distance p c <=? stop_distance p a) = true.
Proof. intros H1 H2. propify. lia. Qed.

Lemma sample_stops_ok : stops_ok quiet_book sample_stops.
Proof.
  split.
  - repeat constructor; vm_compute; congruence.
  - vm_compute. apply (bool_decide_unpack _). vm_compute. exact I.
Qed.

(** ** Theorems *)

(** A print fires exactly the stops it reaches. The fired and the remaining
    stops are a split of the parked ones; the remaining keep their order. Fired
    buy stops come by ascending, sell stops by descending stop price, in the
    order the price path reached them, and stops of one side and stop price in
    arrival order. *)
Theorem drain_triggered_order parked p fired rest :
  drain_triggered_stops parked p = (fired, rest) ->
  fired ++ rest ≡ₚ parked /\ Forall (fun o => stop_fires o p = true) fired /\
  rest = List.filter (fun o => negb (stop_fires o p)) parked /\
  StronglySorted (fun a b => side a = side b -> match side a with
    Buy => stop_price a <= stop_price b | Sell => stop_price b <= stop_price a end) fired /\
  (forall s sp, let here o := bool_decide (side o = s) && (stop_price o =? sp) in
     List.filter here fired = List.filter here (List.filter (fun o => stop_fires o p) parked)).
Proof.
  intros Hd. pose proof (drain_perm _ _ _ _ Hd) as [Hp Hr]. unfold drain_triggered_stops in Hd. injection Hd as Hf _.
  assert (Forall (fun o => stop_fires o p = true) fired) as Hfires.
  { apply Forall_forall. intros o Ho. rewrite <- Hf, sort_stable_perm in Ho.
    apply list_elem_of_In, filter_In in Ho. by destruct Ho. }
  split_and!; [done|done|done| |].
  - pose proof (sort_stable_sorted _ (distance_leb_total p) (distance_leb_trans p)
      (List.filter (fun o => stop_fires o p) parked)) as Hs. rewrite Hf in Hs.
    clear -Hs Hfires. induction Hs as [|a l Hs IH Ha]; [constructor|].
    apply Forall_cons in Hfires as [Fa Fl]. constructor; [auto|].
    rewrite Forall_forall in Ha, Fl |- *. intros b Hb Hside. specialize (Ha b Hb). specialize (Fl b Hb). simpl in *.
    unfold stop_fires, stop_distance in *. rewrite <- Hside in Fl. destruct (side a); propify; lia.
  - intros s sp. cbv zeta. rewrite <- Hf. apply sort_stable_filter. intros x y Hx Hy. propify. apply Z.leb_le.
    unfold stop_distance. congruence || (assert (stop_price x = stop_price y) as -> by congruence; lia).
Qed.

Lemma drain_triggered_order_witness :
  drain_triggered_stops sample_stops 103 = ([stop_near; stop_next], [stop_low]) /\
  [stop_near; stop_next] ++ [stop_low] ≡ₚ sample_stops.
Proof.
  assert (drain_triggered_stops sample_stops 103 = ([stop_near; stop_next], [stop_low])) as E by (vm_compute; reflexivity).
  split; [exact E|]. exact (proj1 (drain_triggered_order _ _ _ _ E)).
Defined.

(** C12: The stop cascade always comes to an end, after at most one execution per
    parked stop, and leaves an idle book. Over all the executions it starts,
    every unit of resting and parked orders is accounted for and the recorded
    increments follow the displayed depth. *)
Theorem run_stop_cascade_correct b parked last out :
  idle b -> stops_ok b parked ->
  exists fs es cs us rs sus b' parked' last' out',
    run_stop_cascade b parked last out = Done (b', parked', last', out') /\ idle b' /\ stops_ok b' parked' /\
    executed b (fun id => qty b id + waiting parked id) out fs es cs us rs sus
      b' (fun id => qty b' id + waiting parked' id) out'.
Proof.
  intros Hb Hs. destruct (run_stop_cascade_spec b parked last out Hb Hs)
    as (fs & es & cs & us & rs & sus & b' & parked' & last' & out' & Hrun & Hi & Hok & _ & Hx & _).
  by exists fs, es, cs, us, rs, sus, b', parked', last', out'.
Qed.

Lemma run_stop_cascade_correct_witness :
  exists fs es cs us rs sus b' parked' last' out',
    run_stop_cascade quiet_book sample_stops None sample_print = Done (b', parked', last', out') /\ idle b' /\
    executed quiet_book (fun id => qty quiet_book id + waiting sample_stops id) sample_print fs es cs us rs sus
      b' (fun id => qty b' id + waiting parked' id) out'.
Proof.
  destruct (run_stop_cascade_correct quiet_book sample_stops None sample_print quiet_idle sample_stops_ok)
    as (fs & es & cs & us & rs & sus & b' & parked' & last' & out' & E & H1 & _ & H2).
  exists fs, es, cs, us, rs, sus, b', parked', last', out'. split_and!; [exact E|exact H1|exact H2].
Defined.

(** The cascade leaves no stop behind that it should have fired: no print of
    the execution reaches a stop that is still parked. Every stop fires at most
    once, the others stay parked in arrival order, and the last trade price is
    that of the last print. *)
Theorem run_stop_cascade_complete b parked last out b' parked' last' out' :
  idle b -> stops_ok b parked ->
  run_stop_cascade b parked last out = Done (b', parked', last', out') ->
  none_fires (ex_fills out') parked' /\ parked' `sublist_of` parked /\
  (exists ts, ex_triggered out' = ex_triggered out ++ ts /\ ts ++ (order_id <$> parked') ≡ₚ order_id <$> parked) /\
  last' = last_print (ex_fills out') last.
Proof.
  intros Hb Hs Hrun. destruct (cascade_loop_spec last (S (length parked)) 0 [] b parked last out Hb Hs)
    as (fs & es & cs & us & rs & sus & ts & b2 & parked2 & out2 & Hrun2 & _ & Hn & Hsub & Ht & Hp & _).
  - simpl. lia.
  - constructor.
  - done.
  - unfold run_stop_cascade in Hrun. rewrite Hrun in Hrun2. injection Hrun2 as -> -> -> ->. split_and!; [done|done|by exists ts|done].
Qed.

Lemma run_stop_cascade_complete_witness :
  exists b' out', run_stop_cascade quiet_book sample_stops None sample_print = Done (b', [stop_low], Some 103, out') /\
  ex_triggered out' = ["t1"; "t2"]%string /\ none_fires (ex_fills out') [stop_low].
Proof.
  destruct (run_stop_cascade quiet_book sample_stops None sample_print) as [[[[b' parked'] last'] out']| |] eqn:E;
    [|vm_compute in E; discriminate..].
  assert (parked' = [stop_low] /\ last' = Some 103 /\ ex_triggered out' = ["t1"; "t2"]%string) as (-> & -> & Ht).
  { vm_compute in E. injection E as _ <- <- <-. vm_compute. split_and!; reflexivity. }
  exists b', out'. split; [done|]. split; [done|].
  exact (proj1 (run_stop_cascade_complete _ _ _ _ _ _ _ _ quiet_idle sample_stops_ok E)).
Defined.
