(* ===== verification/Session.v ===== *)
(** * The trading session: engine/session.rs

    The daily schedule, the phase it gives at an instant, the next boundary, the
    calendar behind GTD expiry, and the text form of schedules. Instants are
    seconds since the epoch ([i64], kept as unbounded [Z]: the sums below leave
    the type only within a day of its ends). *)

From Stdlib Require Import Ascii.
From S2P Require Import Prelude Text.

(** ** Definitions *)

(** [fxp::TradingPhase]; the number is its wire value. *)
Inductive TradingPhase : Type := PhaseUnspecified | Closed | OpeningCall | Continuous | ClosingCall.

Inductive Boundary : Type := BOpenCall | BOpen | BCloseCall | BClose.

#[export] Instance TradingPhase_eq_dec : EqDecision TradingPhase.
Proof. solve_decision. Defined.
#[export] Instance Boundary_eq_dec : EqDecision Boundary.
Proof. solve_decision. Defined.

Definition phase_code (p : TradingPhase) : Z :=
  match p with PhaseUnspecified => 0 | Closed => 1 | OpeningCall => 2 | Continuous => 3 | ClosingCall => 4 end.

(** [UtcTimeOfDay] is its field [seconds]. *)
Abbreviation UtcTimeOfDay := Z (only parsing).

Record SessionSchedule : Type := mkSessionSchedule {
  open_call : option UtcTimeOfDay;
  open : option UtcTimeOfDay;
  close_call : option UtcTimeOfDay;
  close : UtcTimeOfDay;
}.

Definition day : Z := 86400.

(** [SessionSchedule::is_full]. *)
Definition is_full (s : SessionSchedule) : bool :=
  match open_call s, open s, close_call s with Some _, Some _, Some _ => true | _, _, _ => false end.

(** [SessionSchedule::phase]. *)
Definition phase_at (s : SessionSchedule) (now : Z) : TradingPhase :=
  match open_call s, open s, close_call s with
  | Some oc, Some op, Some cc =>
    let time := now mod day in
    if (time >=? oc) && (time <? op) then OpeningCall
    else if (time >=? op) && (time <? cc) then Continuous
    else if (time >=? cc) && (time <? close s) then ClosingCall
    else Closed
  | _, _, _ => Continuous
  end.

(** [Iterator::min_by_key] on the instant: the first of the least. *)
Fixpoint min_by_time (best : Z * Boundary) (l : list (Z * Boundary)) : Z * Boundary :=
  match l with
  | [] => best
  | x :: l => min_by_time (if x.1 <? best.1 then x else best) l
  end.

(** The closure of [filter_map]: the next instant a time of day comes. *)
Definition occurrence (after : Z) (time : UtcTimeOfDay) : Z :=
  let at_ := after / day * day + time in if at_ <=? after then at_ + day else at_.

Definition boundaries (s : SessionSchedule) : list (UtcTimeOfDay * Boundary) :=
  omap (fun e => match e.1 with Some t => Some (t, e.2) | None => None end)
    [(open_call s, BOpenCall); (open s, BOpen); (close_call s, BCloseCall); (Some (close s), BClose)].

(** [SessionSchedule::next_boundary]; the [unwrap] is the match on the list. *)
Definition next_boundary (s : SessionSchedule) (after : Z) : outcome (Z * Boundary) :=
  match (fun e => (occurrence after e.1, e.2)) <$> boundaries s with
  | [] => Panicked
  | x :: l => Done (min_by_time x l)
  end.

(** The errors of the two [FromStr]. *)
Inductive ScheduleError : Type :=
| TimeFormat | TimeRange | ExpectedKeyValue | UnknownKey (key : string) | DuplicateKey (key : string)
| CloseRequired | BadSequence.

(** [UtcTimeOfDay::from_str]. *)
Definition time_part (p : string) : bool := (String.length p =? 2)%nat && all_chars is_digit p.

Definition parse_time (value : string) : result UtcTimeOfDay ScheduleError :=
  let parts := split_on ":" value in
  match parts with
  | h :: m :: rest =>
    if ((length rest <=? 1)%nat && forallb time_part parts)%bool then
      let hour := digits_val 0 h in
      let minute := digits_val 0 m in
      let second := match rest with s :: _ => digits_val 0 s | [] => 0 end in
      if (hour >? 23) || (minute >? 59) || (second >? 59) then Err TimeRange
      else Ok (hour * 3600 + minute * 60 + second)
    else Err TimeFormat
  | _ => Err TimeFormat
  end.

(** The fields [SessionSchedule::from_str] fills, one entry at a time. *)
Record Fields : Type := mkFields {
  f_open_call : option UtcTimeOfDay; f_open : option UtcTimeOfDay;
  f_close_call : option UtcTimeOfDay; f_close : option UtcTimeOfDay;
}.

Definition parse_entry (entry : string) (f : Fields) : result Fields ScheduleError :=
  match split_once "=" entry with
  | None => Err ExpectedKeyValue
  | Some (key, value) =>
    let set old put :=
      match old with
      | Some _ => Err (DuplicateKey key)
      | None => match parse_time value with Ok t => Ok (put t) | Err e => Err e end
      end in
    if bool_decide (key = "close"%string) then
      set (f_close f) (fun t => mkFields (f_open_call f) (f_open f) (f_close_call f) (Some t))
    else if bool_decide (key = "open_call"%string) then
      set (f_open_call f) (fun t => mkFields (Some t) (f_open f) (f_close_call f) (f_close f))
    else if bool_decide (key = "open"%string) then
      set (f_open f) (fun t => mkFields (f_open_call f) (Some t) (f_close_call f) (f_close f))
    else if bool_decide (key = "close_call"%string) then
      set (f_close_call f) (fun t => mkFields (f_open_call f) (f_open f) (Some t) (f_close f))
    else Err (UnknownKey key)
  end.

Fixpoint parse_entries (entries : list string) (f : Fields) : result Fields ScheduleError :=
  match entries with
  | [] => Ok f
  | e :: entries => match parse_entry e f with Ok f => parse_entries entries f | Err e => Err e end
  end.

Definition finish_schedule (f : Fields) : result SessionSchedule ScheduleError :=
  match f_close f with
  | None => Err CloseRequired
  | Some c =>
    let schedule := mkSessionSchedule (f_open_call f) (f_open f) (f_close_call f) c in
    match f_open_call f, f_open f, f_close_call f with
    | None, None, None => Ok schedule
    | Some a, Some b, Some d => if (a <? b) && (b <? d) && (d <? c) then Ok schedule else Err BadSequence
    | _, _, _ => Err BadSequence
    end
  end.

(** [SessionSchedule::from_str]. *)
Definition parse_schedule (value : string) : result SessionSchedule ScheduleError :=
  match parse_entries (split_on "," value) (mkFields None None None None) with
  | Ok f => finish_schedule f
  | Err e => Err e
  end.

(** [Display] of both types. *)
Definition show_time (t : UtcTimeOfDay) : string :=
  join ":" [print2 (t / 3600); print2 ((t / 60) mod 60); print2 (t mod 60)].

Definition show_entry (key : string) (t : UtcTimeOfDay) : string := (key ++ String "=" (show_time t))%string.

Definition show_schedule (s : SessionSchedule) : string :=
  join ","
    (option_list (show_entry "open_call" <$> open_call s) ++ option_list (show_entry "open" <$> open s) ++
     option_list (show_entry "close_call" <$> close_call s) ++ [show_entry "close" (close s)]).

(** The days of a month; [None] outside 1..12. *)
Definition is_leap (year : Z) : bool :=
  (year mod 4 =? 0) && (negb (year mod 100 =? 0) || (year mod 400 =? 0)).

Definition month_days (year month : Z) : option Z :=
  if month =? 2 then Some (if is_leap year then 29 else 28)
  else if (month =? 4) || (month =? 6) || (month =? 9) || (month =? 11) then Some 30
  else if (1 <=? month) && (month <=? 12) then Some 31
  else None.

(** Days from the epoch to a civil date, by March-based eras. *)
Definition days_from_civil (year month d : Z) : Z :=
  let y := year - (if month <=? 2 then 1 else 0) in
  let era := y / 400 in
  let yoe := y - era * 400 in
  let m := month + (if month >? 2 then -3 else 9) in
  let doy := (153 * m + 2) / 5 + d - 1 in
  let doe := yoe * 365 + yoe / 4 - yoe / 100 + doy in
  era * 146097 + doe - 719468.

(** Ten bytes, dashes at positions 4 and 7, digits everywhere else. *)
Fixpoint date_bytes (i : nat) (s : string) : bool :=
  match s with
  | EmptyString => true
  | String c s => (if (i =? 4)%nat || (i =? 7)%nat then Ascii.eqb c "-" else is_digit c) && date_bytes (S i) s
  end.

(** [expiry_instant]: the midnight that ends the date. *)
Definition expiry_instant (date : string) : result Z string :=
  if negb (String.length date =? 10)%nat || negb (date_bytes 0 date) then Err "expire_date must be YYYY-MM-DD"
  else
    let year := digits_val 0 (String.substring 0 4 date) in
    let month := digits_val 0 (String.substring 5 2 date) in
    let d := digits_val 0 (String.substring 8 2 date) in
    match month_days year month with
    | None => Err "invalid expire_date month"
    | Some days =>
      if (year =? 0) || (d <? 1) || (d >? days) then Err "invalid expire_date"
      else Ok ((days_from_civil year month d + 1) * day)
    end.

(** ** Specifications *)

(** Schedules [from_str] accepts: times of day in order. *)
Definition valid_schedule (s : SessionSchedule) : Prop :=
  0 <= close s < day /\
  match open_call s, open s, close_call s with
  | None, None, None => True
  | Some a, Some b, Some c => 0 <= a < b /\ b < c < close s
  | _, _, _ => False
  end.

(** The phase a boundary starts. *)
Definition boundary_phase (b : Boundary) : TradingPhase :=
  match b with BOpenCall => OpeningCall | BOpen => Continuous | BCloseCall => ClosingCall | BClose => Closed end.

(** The civil calendar: the lengths of the months, valid dates and the day after one. *)
Definition leap_year (y : Z) : Prop := y mod 400 = 0 \/ y mod 4 = 0 /\ y mod 100 <> 0.

Definition month_length (y m : Z) : option Z :=
  if bool_decide (1 <= m) then
    [31; if bool_decide (leap_year y) then 29 else 28; 31; 30; 31; 30; 31; 31; 30; 31; 30; 31] !! Z.to_nat (m - 1)
  else None.

Definition valid_date (y m d : Z) : Prop :=
  1 <= y <= 9999 /\ 1 <= d /\ exists n, month_length y m = Some n /\ d <= n.

Definition next_date (y m d : Z) : Z * Z * Z :=
  match month_length y m with
  | Some n => if d <? n then (y, m, d + 1) else if m <? 12 then (y, m + 1, 1) else (y + 1, 1, 1)
  | None => (y, m, d)
  end.

(** A date as [YYYY-MM-DD]. *)
Definition show_date (y m d : Z) : string :=
  (print2 (y / 100) ++ print2 (y mod 100) ++ String "-" (print2 m ++ String "-" (print2 d)))%string.

Definition date_text (s : string) (y m d : Z) : Prop :=
  0 <= y <= 9999 /\ 0 <= m <= 99 /\ 0 <= d <= 99 /\ s = show_date y m d.

(** ** The schedule and the clock *)

(** Linear arithmetic with division and remainder by constants. *)
Ltac euclid := Z.div_mod_to_equations; lia.

(** One comparison of the goal, decided. *)
Ltac compare_step :=
  match goal with
  | |- context [?x <=? ?y] => destruct (Z.leb_spec x y); try lia; cbn [andb orb]
  | |- context [?x <? ?y] => destruct (Z.ltb_spec x y); try lia; cbn [andb orb]
  end.

Lemma occurrence_spec after t :
  0 <= t < day -> after < occurrence after t <= after + day /\ occurrence after t mod day = t /\
    forall x, after < x -> x mod day = t -> occurrence after t <= x.
Proof.
  unfold occurrence, day. intros Ht. destruct (Z.leb_spec (after / 86400 * 86400 + t) after);
    (split_and!; [..|intros x Hx Hm]; euclid).
Qed.

Lemma min_by_time_spec l : forall best,
  (min_by_time best l ∈ best :: l) /\ forall x, x ∈ best :: l -> (min_by_time best l).1 <= x.1.
Proof.
  induction l as [|y l IH]; intros best; simpl.
  - split; [left|]. intros x Hx. apply list_elem_of_singleton in Hx as ->. lia.
  - destruct (IH (if y.1 <? best.1 then y else best)) as [Hin Hle]. split.
    + apply elem_of_cons in Hin as [->|Hin]; [|by do 2 right]. destruct (y.1 <? best.1); [right; left|left].
    + intros x Hx. specialize (Hle (if y.1 <? best.1 then y else best) ltac:(left)) as Hb.
      destruct (Z.ltb_spec y.1 best.1); apply elem_of_cons in Hx as [->|[->|Hx]%elem_of_cons]; try lia;
        (apply Hle; by right) || (apply Hle; left).
Qed.

(** The boundary [next_boundary] returns is the next one: it lies after the
    given instant, at one of the schedule's times, and none comes earlier. *)
Lemma next_boundary_spec s after :
  Forall (fun e => 0 <= e.1 < day) (boundaries s) ->
  exists at_ kind, next_boundary s after = Done (at_, kind) /\ after < at_ <= after + day /\
    (at_ mod day, kind) ∈ boundaries s /\
    forall t k, (t, k) ∈ boundaries s -> forall x, after < x < at_ -> x mod day <> t.
Proof.
  intros Hb. unfold next_boundary.
  destruct ((fun e => (occurrence after e.1, e.2)) <$> boundaries s) as [|x l] eqn:E.
  { exfalso. apply fmap_nil_inv in E. unfold boundaries in E. destruct s as [[] [] [] ?]; done. }
  destruct (min_by_time_spec l x) as [Hin Hle]. rewrite <- E in Hin, Hle.
  apply list_elem_of_fmap in Hin as ([t k] & Heq & Ht). simpl in Heq. rewrite Forall_forall in Hb.
  destruct (occurrence_spec after t) as (H1 & H2 & _); [by apply (Hb (t, k))|].
  rewrite Heq in *. exists (occurrence after t), k. split_and!; [done|lia|lia|by rewrite H2|].
  intros t' k' Ht' y Hy Hm. destruct (occurrence_spec after t') as (_ & _ & H3); [by apply (Hb (t', k'))|].
  specialize (H3 y ltac:(lia) Hm). specialize (Hle (occurrence after t', k')). simpl in Hle.
  specialize (Hle ltac:(apply list_elem_of_fmap; by exists (t', k'))). lia.
Qed.

Lemma valid_boundaries s : valid_schedule s -> Forall (fun e => 0 <= e.1 < day) (boundaries s).
Proof.
  destruct s as [[a|] [b|] [c|] e]; unfold valid_schedule; simpl; intros [? ?]; try done;
    repeat constructor; simpl; lia.
Qed.

Lemma boundaries_full a b c e :
  boundaries (mkSessionSchedule (Some a) (Some b) (Some c) e) =
  [(a, BOpenCall); (b, BOpen); (c, BCloseCall); (e, BClose)].
Proof. done. Qed.

Lemma phase_at_full a b c e t :
  phase_at (mkSessionSchedule (Some a) (Some b) (Some c) e) t =
  let time := t mod day in
  if (time >=? a) && (time <? b) then OpeningCall
  else if (time >=? b) && (time <? c) then Continuous
  else if (time >=? c) && (time <? e) then ClosingCall else Closed.
Proof. done. Qed.

(** Between two instants with no boundary in between the phase does not change. *)
Lemma phase_constant a b c e after t :
  0 <= a < b -> b < c < e -> e < day -> after <= t <= after + day ->
  (forall x, x ∈ [a; b; c; e] -> t < occurrence after x) ->
  phase_at (mkSessionSchedule (Some a) (Some b) (Some c) e) t =
  phase_at (mkSessionSchedule (Some a) (Some b) (Some c) e) after.
Proof.
  intros Ha Hb He Ht Hocc. rewrite !phase_at_full. cbv zeta.
  pose proof (Hocc a ltac:(left)) as H1. pose proof (Hocc b ltac:(right; left)) as H2.
  pose proof (Hocc c ltac:(right; right; left)) as H3. pose proof (Hocc e ltac:(right; right; right; left)) as H4.
  clear Hocc. unfold occurrence in *.
  assert (t mod day = t - after / day * day \/ t mod day = t - after / day * day - day) as Hm by (unfold day in *; euclid).
  assert (after mod day = after - after / day * day) as Hr by (unfold day; euclid).
  assert (0 <= after mod day < day /\ 0 <= t mod day < day) by (unfold day; euclid).
  set (q := after / day * day) in *. set (r' := t mod day) in *. set (r := after mod day) in *. clearbody q r r'.
  destruct (Z.leb_spec (q + a) after), (Z.leb_spec (q + b) after), (Z.leb_spec (q + c) after), (Z.leb_spec (q + e) after);
    try lia; destruct Hm as [Hm|Hm]; try lia;
    rewrite !Z.geb_leb; repeat compare_step; done.
Qed.

(** The phase an engine derives from the clock and the boundaries it walks
    agree: for a full schedule the next boundary after any instant lies strictly
    later, the clock's phase stays what it is until then, and at the boundary it
    becomes the phase the boundary starts. *)
Theorem next_boundary_phase s after :
  valid_schedule s -> is_full s = true ->
  exists at_ kind, next_boundary s after = Done (at_, kind) /\ after < at_ <= after + day /\
    phase_at s at_ = boundary_phase kind /\
    forall t, after <= t < at_ -> phase_at s t = phase_at s after.
Proof.
  intros Hv Hf. destruct (next_boundary_spec s after (valid_boundaries s Hv)) as (at_ & kind & Hn & Hat & Hk & Hnone).
  exists at_, kind. split_and!; [done|lia|lia|..].
  - destruct s as [[a|] [b|] [c|] e]; try done. rewrite boundaries_full in Hk.
    destruct Hv as [He [Ha Hb]]. simpl in *. rewrite phase_at_full. cbv zeta.
    set (r := at_ mod day) in *. clearbody r. rewrite !Z.geb_leb.
    repeat (apply elem_of_cons in Hk as [Hk|Hk]; [simplify_eq; repeat compare_step; done|]). by apply not_elem_of_nil in Hk.
  - intros t Ht. destruct s as [[a|] [b|] [c|] e]; try done. pose proof (valid_boundaries _ Hv) as Hall.
    destruct Hv as [He [Ha Hb]]. apply phase_constant; [simpl in *; lia..|].
    intros x Hx. assert (exists k, (x, k) ∈ boundaries (mkSessionSchedule (Some a) (Some b) (Some c) e)) as [k Hk'].
    { rewrite boundaries_full. rewrite !elem_of_cons in Hx. destruct Hx as [ -> |[ -> |[ -> |[ -> |Hx]]]].
      - exists BOpenCall. left.
      - exists BOpen. right. left.
      - exists BCloseCall. right. right. left.
      - exists BClose. right. right. right. left.
      - by apply not_elem_of_nil in Hx. }
    rewrite Forall_forall in Hall. destruct (occurrence_spec after x) as (H1 & H2 & _); [by apply (Hall (x, k))|].
    destruct (Z.le_gt_cases at_ (occurrence after x)) as [|Hlt]; [lia|]. exfalso. apply (Hnone _ _ Hk' (occurrence after x)); [lia|done].
Qed.

(** 08:00 opening call, 09:00 open, 16:00 closing call, 16:30 close. *)
Definition sample_schedule : SessionSchedule := mkSessionSchedule (Some 28800) (Some 32400) (Some 57600) 59400.

Lemma next_boundary_phase_witness :
  valid_schedule sample_schedule /\ is_full sample_schedule = true /\
  exists at_ kind, next_boundary sample_schedule 1700000000 = Done (at_, kind) /\ 1700000000 < at_ <= 1700000000 + day /\
    phase_at sample_schedule at_ = boundary_phase kind /\
    forall t, 1700000000 <= t < at_ -> phase_at sample_schedule t = phase_at sample_schedule 1700000000.
Proof.
  assert (valid_schedule sample_schedule) as H by (unfold valid_schedule, day; simpl; lia).
  split_and!; [done|done|]. by apply next_boundary_phase.
Defined.

(** ** The calendar *)

Lemma month_cases m : 1 <= m <= 12 ->
  m = 1 \/ m = 2 \/ m = 3 \/ m = 4 \/ m = 5 \/ m = 6 \/ m = 7 \/ m = 8 \/ m = 9 \/ m = 10 \/ m = 11 \/ m = 12.
Proof. lia. Qed.

(** Successive days of a month have successive numbers. *)
Lemma days_from_civil_add y m d k : days_from_civil y m (d + k) = days_from_civil y m d + k.
Proof. unfold days_from_civil. lia. Qed.

(** The length of a year's March-based part does not depend on its era: a month
    starts when the one before it ends. *)
Lemma days_from_civil_month y m n :
  1 <= m <= 11 -> month_days y m = Some n -> days_from_civil y (m + 1) 1 = days_from_civil y m n + 1.
Proof.
  intros Hm Hn. destruct (decide (m = 2)) as [->|H2].
  - unfold month_days in Hn. simpl in Hn. injection Hn as <-. unfold days_from_civil, is_leap. simpl.
    destruct (Z.eqb_spec (y mod 4) 0), (Z.eqb_spec (y mod 100) 0), (Z.eqb_spec (y mod 400) 0); simpl; euclid.
  - destruct (month_cases m ltac:(lia)) as [ -> |[ -> |[ -> |[ -> |[ -> |[ -> |[ -> |[ -> |[ -> |[ -> |[ -> | -> ]]]]]]]]]]]; try lia;
      unfold month_days in Hn; simpl in Hn; injection Hn as <-; unfold days_from_civil; rewrite !Z.gtb_ltb; repeat compare_step; euclid.
Qed.

Lemma days_from_civil_year y : days_from_civil (y + 1) 1 1 = days_from_civil y 12 31 + 1.
Proof. unfold days_from_civil. rewrite !Z.gtb_ltb. repeat compare_step. replace (y + 1 - 1) with (y - 0) by lia. euclid. Qed.

Lemma month_days_length y m : month_days y m = month_length y m.
Proof.
  unfold month_length. assert (is_leap y = bool_decide (leap_year y)) as Hl.
  { apply eq_true_iff_eq. unfold is_leap, leap_year. rewrite bool_decide_eq_true, andb_true_iff, orb_true_iff, negb_true_iff, !Z.eqb_eq, Z.eqb_neq.
    split; [intros [? [?|?]]; euclid|intros [?|[? ?]]; [split; [euclid|by right]|split; [done|by left]]]. }
  destruct (bool_decide_reflect (1 <= m)) as [Hm|Hm].
  - destruct (decide (m <= 12)) as [Hm'|Hm'].
    + assert (m = 1 \/ m = 2 \/ m = 3 \/ m = 4 \/ m = 5 \/ m = 6 \/ m = 7 \/ m = 8 \/ m = 9 \/ m = 10 \/ m = 11 \/ m = 12) as Hcases by lia.
      repeat (destruct Hcases as [->|Hcases]; [cbn; by rewrite ?Hl|]). subst m. done.
    + rewrite lookup_ge_None_2 by (simpl; lia). unfold month_days. rewrite !(proj2 (Z.eqb_neq m _)) by lia. cbn [orb].
      destruct (Z.leb_spec m 12); [lia|]. by rewrite andb_false_r.
  - unfold month_days. rewrite !(proj2 (Z.eqb_neq m _)) by lia. cbn [orb]. destruct (Z.leb_spec 1 m); [lia|done].
Qed.

Lemma month_days_bounds y m n : month_days y m = Some n -> 1 <= m <= 12 /\ 28 <= n <= 31.
Proof.
  unfold month_days. destruct (Z.eqb_spec m 2); [intros [= <-]; destruct (is_leap y); lia|].
  destruct ((m =? 4) || (m =? 6) || (m =? 9) || (m =? 11)) eqn:E; [intros [= <-]; propify; lia|].
  destruct ((1 <=? m) && (m <=? 12)) eqn:E'; [|done]. intros [= <-]. propify. lia.
Qed.

Lemma valid_month y m d : valid_date y m d -> exists n, month_days y m = Some n /\ 1 <= d <= n /\ 1 <= y <= 9999.
Proof. intros (Hy & Hd & n & Hn & Hle). rewrite <- month_days_length in Hn. eauto. Qed.

Lemma days_from_civil_next y m d :
  valid_date y m d ->
  days_from_civil (next_date y m d).1.1 (next_date y m d).1.2 (next_date y m d).2 = days_from_civil y m d + 1.
Proof.
  intros (n & E & Hd & Hy)%valid_month. pose proof (month_days_bounds _ _ _ E) as [Hm _]. unfold next_date. rewrite <- month_days_length, E.
  destruct (Z.ltb_spec d n); [apply days_from_civil_add|]. assert (d = n) as -> by lia.
  destruct (Z.ltb_spec m 12); simpl; [apply days_from_civil_month; [lia|done]|]. assert (m = 12) as -> by lia.
  injection E as <-. apply days_from_civil_year.
Qed.

Lemma show_date_digits y m d :
  0 <= y <= 9999 -> 0 <= m <= 99 -> 0 <= d <= 99 ->
  String.length (show_date y m d) = 10%nat /\ date_bytes 0 (show_date y m d) = true /\
  digits_val 0 (String.substring 0 4 (show_date y m d)) = y /\
  digits_val 0 (String.substring 5 2 (show_date y m d)) = m /\
  digits_val 0 (String.substring 8 2 (show_date y m d)) = d.
Proof.
  intros Hy Hm Hd.
  destruct (print2_spec (y / 100)) as [A1 V1]; [euclid|]. destruct (print2_spec (y mod 100)) as [A2 V2]; [euclid|].
  destruct (print2_spec m) as [A3 V3]; [lia|]. destruct (print2_spec d) as [A4 V4]; [lia|].
  unfold show_date. unfold print2 in *. cbv [String.append]. cbn [all_chars] in *. rewrite !andb_true_iff in *.
  split_and!; [done| |cbn -[digit_val digit_char Z.div Z.modulo]|done|done].
  - cbn -[is_digit digit_char Z.div Z.modulo]. destruct A1 as (-> & -> & _), A2 as (-> & -> & _), A3 as (-> & -> & _), A4 as (-> & -> & _). done.
  - cbn -[digit_val digit_char Z.div Z.modulo] in V1, V2. euclid.
Qed.

Lemma digit_char_val c : is_digit c = true -> digit_char (digit_val c) = c /\ 0 <= digit_val c <= 9.
Proof.
  unfold is_digit. intros [H1%N.leb_le H2%N.leb_le]%andb_true_iff. unfold digit_char, digit_val. split; [|lia].
  replace (Z.to_N (48 + (Z.of_N (Ascii.N_of_ascii c) - 48))) with (Ascii.N_of_ascii c) by lia. apply Ascii.ascii_N_embedding.
Qed.

(** Two digits print as they were read. *)
Lemma print2_digits c1 c2 : is_digit c1 = true -> is_digit c2 = true ->
  print2 (digit_val c1 * 10 + digit_val c2) = String c1 (String c2 "") /\ 0 <= digit_val c1 * 10 + digit_val c2 <= 99.
Proof.
  intros [E1 B1]%digit_char_val [E2 B2]%digit_char_val. split; [|lia]. unfold print2.
  replace ((digit_val c1 * 10 + digit_val c2) / 10) with (digit_val c1) by euclid.
  replace ((digit_val c1 * 10 + digit_val c2) mod 10) with (digit_val c2) by euclid. by rewrite E1, E2.
Qed.

Lemma date_bytes_text s : String.length s = 10%nat -> date_bytes 0 s = true ->
  date_text s (digits_val 0 (String.substring 0 4 s)) (digits_val 0 (String.substring 5 2 s)) (digits_val 0 (String.substring 8 2 s)).
Proof.
  intros Hlen Hb. do 10 (destruct s as [|? s]; [done|]). destruct s as [|? s]; [|done].
  cbn -[is_digit Ascii.eqb] in Hb. rewrite !andb_true_iff in Hb. destruct Hb as (D0 & D1 & D2 & D3 & S4 & D5 & D6 & S7 & D8 & D9 & _).
  apply Ascii.eqb_eq in S4 as ->. apply Ascii.eqb_eq in S7 as ->. cbn -[digit_val].
  destruct (print2_digits _ _ D0 D1) as [P1 B1], (print2_digits _ _ D2 D3) as [P2 B2], (print2_digits _ _ D5 D6) as [P3 B3], (print2_digits _ _ D8 D9) as [P4 B4].
  split_and!; try lia. unfold show_date.
  match goal with |- context [print2 (?y / 100)] => set (year := y) end.
  replace (year / 100) with (digit_val a * 10 + digit_val a0) by (unfold year; euclid).
  replace (year mod 100) with (digit_val a1 * 10 + digit_val a2) by (unfold year; euclid).
  rewrite !Z.add_0_l, P1, P2, P3, P4. done.
Qed.

Lemma date_text_inj s y m d y' m' d' : date_text s y m d -> date_text s y' m' d' -> y = y' /\ m = m' /\ d = d'.
Proof.
  intros (Hy & Hm & Hd & ->) (Hy' & Hm' & Hd' & E). destruct (show_date_digits y m d Hy Hm Hd) as (_ & _ & V1 & V2 & V3).
  destruct (show_date_digits y' m' d' Hy' Hm' Hd') as (_ & _ & V1' & V2' & V3'). rewrite <- E in V1', V2', V3'. split_and!; congruence.
Qed.

(** What [expiry_instant] says of the text of a date, valid or not. *)
Lemma expiry_instant_text s y m d : date_text s y m d ->
  (valid_date y m d /\ expiry_instant s = Ok ((days_from_civil y m d + 1) * day)) \/
  (~ valid_date y m d /\ expiry_instant s = Err (if bool_decide (1 <= m <= 12) then "invalid expire_date"%string else "invalid expire_date month"%string)).
Proof.
  intros (Hy & Hm & Hd & ->). destruct (show_date_digits y m d Hy Hm Hd) as (L & B & Vy & Vm & Vd).
  unfold expiry_instant. rewrite L, B, Vy, Vm, Vd. cbn [Nat.eqb negb orb].
  unfold valid_date. rewrite <- month_days_length. destruct (month_days y m) as [n|] eqn:E.
  - destruct (month_days_bounds _ _ _ E) as [Hm' Hn]. rewrite bool_decide_true by done.
    destruct ((y =? 0) || (d <? 1) || (d >? n)) eqn:C.
    + right. split; [|done]. intros (? & ? & n' & [= <-] & ?). rewrite !orb_true_iff, Z.eqb_eq, Z.ltb_lt, Z.gtb_lt in C. lia.
    + rewrite !orb_false_iff, Z.eqb_neq, Z.ltb_ge, Z.gtb_ltb, Z.ltb_ge in C. left. split; [|done]. split_and!; [lia..|]. exists n. lia || (split; [done|lia]).
  - right. split; [by intros (_ & _ & n & ? & _)|]. rewrite bool_decide_false; [done|]. intros Hm'. unfold month_days in E.
    destruct (Z.eqb_spec m 2); [done|]. destruct ((m =? 4) || _ || _ || _); [done|].
    destruct (Z.leb_spec 1 m), (Z.leb_spec m 12); simpl in E; try done; lia.
Qed.

Lemma expiry_instant_none s : (forall y m d, ~ date_text s y m d) -> expiry_instant s = Err "expire_date must be YYYY-MM-DD"%string.
Proof.
  intros Hno. unfold expiry_instant. destruct (Nat.eqb_spec (String.length s) 10) as [Hl|]; [|done].
  destruct (date_bytes 0 s) eqn:Hb; [|done]. destruct (Hno _ _ _ (date_bytes_text s Hl Hb)).
Qed.

Lemma date_text_dec s : (exists y m d, date_text s y m d) \/ forall y m d, ~ date_text s y m d.
Proof.
  destruct (Nat.eqb_spec (String.length s) 10) as [Hl|Hl]; [|right; intros y m d (Hy & Hm & Hd & ->); by destruct (show_date_digits y m d Hy Hm Hd)].
  destruct (date_bytes 0 s) eqn:Hb; [left; do 3 eexists; by apply date_bytes_text|right].
  intros y m d (Hy & Hm & Hd & ->). destruct (show_date_digits y m d Hy Hm Hd) as (_ & B & _). congruence.
Qed.

(** C39: GTD expiry follows the civil calendar, on every text. [expiry_instant]
    accepts exactly the texts YYYY-MM-DD of the dates of the Gregorian calendar
    of the years 1 to 9999; it refuses a text of another form, a month outside
    1 to 12 and another bad date each with its own message. An accepted date
    expires at the midnight that ends it: 1970-01-01 expires one day after the
    epoch, and every date one day later than the date before it. *)
Theorem expiry_instant_calendar s :
  (forall t, expiry_instant s = Ok t <-> exists y m d, date_text s y m d /\ valid_date y m d /\ t = (days_from_civil y m d + 1) * day) /\
  (forall e, expiry_instant s = Err e <->
     (forall y m d, ~ date_text s y m d) /\ e = "expire_date must be YYYY-MM-DD"%string \/
     exists y m d, date_text s y m d /\ ~ valid_date y m d /\
       e = if bool_decide (1 <= m <= 12) then "invalid expire_date"%string else "invalid expire_date month"%string) /\
  days_from_civil 1970 1 1 = 0 /\
  (forall y m d, valid_date y m d ->
     days_from_civil (next_date y m d).1.1 (next_date y m d).1.2 (next_date y m d).2 = days_from_civil y m d + 1).
Proof.
  split_and!; [..|done|apply days_from_civil_next]; destruct (date_text_dec s) as [(y & m & d & Hs)|Hno].
  - intros t. destruct (expiry_instant_text s y m d Hs) as [[Hv ->]|[Hv ->]]; (split; [intros [= <-]; by exists y, m, d|]);
      intros (y' & m' & d' & Hs' & Hv' & ->); by destruct (date_text_inj _ _ _ _ _ _ _ Hs Hs') as (<- & <- & <-).
  - intros t. rewrite (expiry_instant_none s Hno). split; [done|]. intros (y & m & d & Hs & _). by apply Hno in Hs.
  - intros e. destruct (expiry_instant_text s y m d Hs) as [[Hv ->]|[Hv ->]]; (split; [intros [= <-]; right; by exists y, m, d|]);
      (intros [[Hno _]|(y' & m' & d' & Hs' & Hv' & ->)]; [by apply Hno in Hs|]); by destruct (date_text_inj _ _ _ _ _ _ _ Hs Hs') as (<- & <- & <-).
  - intros e. rewrite (expiry_instant_none s Hno). split; [intros [= <-]; by left|]. intros [[_ ->]|(y & m & d & Hs & _)]; [done|by apply Hno in Hs].
Qed.

Example expiry_of_a_leap_day :
  show_date 2024 2 29 = "2024-02-29"%string /\ expiry_instant "2024-02-29" = Ok 1709251200 /\ next_date 2024 2 29 = (2024, 3, 1) /\
  expiry_instant "2023-02-29" = Err "invalid expire_date"%string /\ expiry_instant "2024-2-29" = Err "expire_date must be YYYY-MM-DD"%string.
Proof. split_and!; vm_compute; reflexivity. Qed.

(** ** Text round trip *)

Lemma print2_free sep n : is_digit sep = false -> 0 <= n < 100 -> free_of sep (print2 n) = true.
Proof. intros Hsep Hn. apply digits_free; [done|]. by apply print2_spec. Qed.

Lemma time_part_print2 n : 0 <= n < 100 -> time_part (print2 n) = true.
Proof. intros Hn. unfold time_part. by rewrite (proj1 (print2_spec n Hn)). Qed.

Lemma parse_show_time t : 0 <= t < day -> parse_time (show_time t) = Ok t.
Proof.
  intros Ht. unfold parse_time, show_time. unfold day in Ht.
  assert (0 <= t / 3600 <= 23 /\ 0 <= (t / 60) mod 60 <= 59 /\ 0 <= t mod 60 <= 59) as (H1 & H2 & H3) by euclid.
  rewrite split_join; [|done|repeat constructor; apply print2_free; done || lia].
  cbn [length Nat.leb andb forallb]. rewrite !time_part_print2 by lia. cbn [andb].
  rewrite (proj2 (print2_spec (t / 3600) ltac:(lia))), (proj2 (print2_spec ((t / 60) mod 60) ltac:(lia))),
    (proj2 (print2_spec (t mod 60) ltac:(lia))). rewrite !Z.gtb_ltb. repeat compare_step. f_equal. euclid.
Qed.

Lemma free_of_app sep s t : free_of sep (s ++ t) = free_of sep s && free_of sep t.
Proof. apply all_chars_app. Qed.

Lemma free_of_cons sep c s : free_of sep (String c s) = negb (Ascii.eqb c sep) && free_of sep s.
Proof. done. Qed.

Lemma show_time_free t : 0 <= t < day -> free_of "," (show_time t) = true.
Proof.
  intros Ht. unfold day in Ht. assert (0 <= t / 3600 <= 23 /\ 0 <= (t / 60) mod 60 <= 59 /\ 0 <= t mod 60 <= 59) as (H1 & H2 & H3) by euclid.
  unfold show_time. cbn [join]. repeat rewrite ?free_of_app, ?free_of_cons. by rewrite !print2_free by (done || lia).
Qed.

Lemma show_entry_free key t : free_of "," key = true -> 0 <= t < day -> free_of "," (show_entry key t) = true.
Proof.
  intros Hk Ht. unfold show_entry. rewrite free_of_app, Hk. apply (show_time_free t Ht).
Qed.

Lemma split_once_entry key t : free_of "=" key = true -> split_once "=" (show_entry key t) = Some (key, show_time t).
Proof. apply split_once_app. Qed.

Definition put_entry (b : Boundary) (t : UtcTimeOfDay) (f : Fields) : Fields :=
  match b with
  | BOpenCall => mkFields (Some t) (f_open f) (f_close_call f) (f_close f)
  | BOpen => mkFields (f_open_call f) (Some t) (f_close_call f) (f_close f)
  | BCloseCall => mkFields (f_open_call f) (f_open f) (Some t) (f_close f)
  | BClose => mkFields (f_open_call f) (f_open f) (f_close_call f) (Some t)
  end.

Definition entry_key (b : Boundary) : string :=
  match b with BOpenCall => "open_call" | BOpen => "open" | BCloseCall => "close_call" | BClose => "close" end.

Definition entry_free (b : Boundary) (f : Fields) : Prop :=
  match b with BOpenCall => f_open_call f | BOpen => f_open f | BCloseCall => f_close_call f | BClose => f_close f end = None.

Lemma parse_show_entry b key t f :
  key = entry_key b -> 0 <= t < day -> entry_free b f -> parse_entry (show_entry key t) f = Ok (put_entry b t f).
Proof.
  intros -> Ht Hf. unfold parse_entry. rewrite split_once_entry by (by destruct b). rewrite parse_show_time by done.
  destruct b; simpl in *; rewrite Hf; done.
Qed.

Lemma parse_show_schedule s : valid_schedule s -> parse_schedule (show_schedule s) = Ok s.
Proof.
  intros Hv. pose proof (valid_boundaries s Hv) as Hb. destruct s as [[a|] [b|] [c|] e]; destruct Hv as [He Ho]; try done.
  - rewrite boundaries_full in Hb. rewrite !Forall_cons in Hb. simpl in Hb, Ho, He. destruct Hb as (Ha & Hbb & Hc & _ & _).
    unfold parse_schedule.
    change (show_schedule _) with (join "," [show_entry "open_call" a; show_entry "open" b; show_entry "close_call" c; show_entry "close" e]).
    rewrite split_join; [|done|].
    2: { repeat (constructor; [by apply show_entry_free|]). constructor. }
    cbn [parse_entries].
    rewrite (parse_show_entry BOpenCall "open_call"), (parse_show_entry BOpen "open"), (parse_show_entry BCloseCall "close_call"),
      (parse_show_entry BClose "close") by done.
    unfold finish_schedule. simpl. repeat compare_step. done.
  - unfold parse_schedule. change (show_schedule _) with (join "," [show_entry "close" e]). rewrite split_join; [|done|].
    2: { constructor; [by apply show_entry_free|constructor]. }
    cbn [parse_entries]. by rewrite (parse_show_entry BClose "close").
Qed.


Lemma parse_time_valid v t : parse_time v = Ok t -> 0 <= t < day.
Proof.
  unfold parse_time. destruct (split_on ":" v) as [|h [|m rest]]; [done..|].
  destruct ((length rest <=? 1)%nat && forallb time_part (h :: m :: rest)) eqn:E; [|done].
  apply andb_true_iff in E as [_ E]. cbn [forallb] in E. rewrite !andb_true_iff in E. destruct E as (Hh & Hm & Hr).
  unfold time_part in Hh, Hm. apply andb_true_iff in Hh as [_ Hh], Hm as [_ Hm].
  pose proof (digits_val_nonneg h 0 ltac:(lia) Hh). pose proof (digits_val_nonneg m 0 ltac:(lia) Hm).
  assert (0 <= match rest with s :: _ => digits_val 0 s | [] => 0 end).
  { destruct rest as [|s rest]; [lia|]. cbn [forallb] in Hr. apply andb_true_iff in Hr as [Hr _].
    unfold time_part in Hr. apply andb_true_iff in Hr as [_ Hr]. by apply digits_val_nonneg. }
  set (x := match rest with s :: _ => digits_val 0 s | [] => 0 end) in *. clearbody x.
  destruct ((digits_val 0 h >? 23) || (digits_val 0 m >? 59) || (x >? 59)) eqn:E; [done|].
  rewrite !orb_false_iff, !Z.gtb_ltb, !Z.ltb_ge in E. intros [= <-]. unfold day. lia.
Qed.

Definition fields_valid (f : Fields) : Prop :=
  (forall t, f_open_call f = Some t -> 0 <= t < day) /\ (forall t, f_open f = Some t -> 0 <= t < day) /\
  (forall t, f_close_call f = Some t -> 0 <= t < day) /\ (forall t, f_close f = Some t -> 0 <= t < day).

Lemma parse_entry_valid e f f' : parse_entry e f = Ok f' -> fields_valid f -> fields_valid f'.
Proof.
  unfold parse_entry. destruct (split_once "=" e) as [[k v]|]; [|done].
  destruct (parse_time v) as [t|] eqn:Et.
  2: { repeat case_bool_decide; repeat case_match; done. }
  apply parse_time_valid in Et.
  intros H (H1 & H2 & H3 & H4). repeat case_bool_decide; repeat case_match; simplify_eq;
    (split_and!; simpl; intros; simplify_eq; eauto).
Qed.

Lemma parse_entries_valid es : forall f f', parse_entries es f = Ok f' -> fields_valid f -> fields_valid f'.
Proof.
  induction es as [|e es IH]; intros f f'; cbn [parse_entries]; [intros [= ->]; done|].
  destruct (parse_entry e f) as [f1|] eqn:E; [|done]. intros H Hf. eapply IH; [exact H|]. by eapply parse_entry_valid.
Qed.

Lemma parse_schedule_valid v s : parse_schedule v = Ok s -> valid_schedule s.
Proof.
  unfold parse_schedule. destruct (parse_entries _ _) as [f|] eqn:E; [|done].
  apply parse_entries_valid in E as (H1 & H2 & H3 & H4); [|by split_and!]. unfold finish_schedule, valid_schedule.
  destruct (f_close f) as [e|] eqn:Ee; [|done].
  destruct (f_open_call f) as [a|] eqn:Ea, (f_open f) as [b|] eqn:Eb, (f_close_call f) as [c|] eqn:Ec; try done.
  - destruct ((a <? b) && (b <? c) && (c <? e)) eqn:C; [|done]. intros [= <-]. simpl.
    rewrite !andb_true_iff, !Z.ltb_lt in C. pose proof (H1 a eq_refl). pose proof (H4 e eq_refl). lia.
  - intros [= <-]. simpl. split; [|done]. by apply H4.
Qed.

(** C40: Schedules survive their text form: what [from_str] accepts has its times
    within the day and in order, and parsing what [Display] prints of it gives
    the same schedule back. *)
Theorem schedule_roundtrip v s :
  parse_schedule v = Ok s -> valid_schedule s /\ parse_schedule (show_schedule s) = Ok s.
Proof.
  intros H. apply parse_schedule_valid in H. split; [done|]. by apply parse_show_schedule.
Qed.

Lemma schedule_roundtrip_witness :
  parse_schedule "close=16:30,open=09:00,open_call=08:00,close_call=16:00" = Ok sample_schedule /\
  show_schedule sample_schedule = "open_call=08:00:00,open=09:00:00,close_call=16:00:00,close=16:30:00"%string /\
  valid_schedule sample_schedule /\ parse_schedule (show_schedule sample_schedule) = Ok sample_schedule.
Proof.
  split; [vm_compute; reflexivity|]. split; [vm_compute; reflexivity|].
  apply (schedule_roundtrip "close=16:30,open=09:00,open_call=08:00,close_call=16:00"). vm_compute. reflexivity.
Defined.
