(* ===== verification/SymbolConfig.v ===== *)
(** * Symbol rules: symbol_config.rs

    Tick, lot and quantity limits per symbol, the text file they come from and
    its canonical form. *)

From Stdlib Require Import Ascii.
From S2P Require Import Prelude BTree Text Order.

(** ** Definitions *)

Record SymbolRules : Type := mkSymbolRules {
  price_scale : Z;
  tick_size : Z;
  lot_size : Z;
  min_quantity : Z;
  max_quantity : Z;
}.

Definition i64_max : Z := 9223372036854775807.

Definition default_rules : SymbolRules :=
  {| price_scale := 2; tick_size := 1; lot_size := 1; min_quantity := 1; max_quantity := i32_max |}.

(** [SymbolRules::validate_price]; [%] is the truncated remainder. *)
Definition validate_price (r : SymbolRules) (price : Z) : result unit string :=
  if (tick_size r <=? 0) || (price <=? 0) || negb (Z.rem price (tick_size r) =? 0)
  then Err "price must be positive and a multiple of symbol tick size" else Ok ().

(** [u32::is_multiple_of]: zero has only itself as a multiple. *)
Definition is_multiple_of (a b : Z) : bool := if b =? 0 then a =? 0 else a mod b =? 0.

(** [SymbolRules::validate_quantity]. *)
Definition validate_quantity (r : SymbolRules) (q : Z) : result unit string :=
  if (lot_size r =? 0) || (q <? min_quantity r) || (q >? max_quantity r) || negb (is_multiple_of q (lot_size r))
  then Err "quantity outside symbol lot/min/max rules" else Ok ().

(** [SymbolConfig] is a [BTreeMap] from symbols to rules. *)
Abbreviation SymbolConfig := (list (string * SymbolRules)) (only parsing).

(** [SymbolConfig::symbols] and [get]. *)
Definition config_symbols (c : SymbolConfig) : list string := c.*1.

Definition config_get (c : SymbolConfig) (sym : string) : SymbolRules := default default_rules (bt_get sym c).

(** [SymbolConfig::canonical]. *)
Definition newline : ascii := Ascii.ascii_of_N 10.

Definition rules_line (e : string * SymbolRules) : string :=
  join "," [e.1; print_dec (price_scale e.2); print_dec (tick_size e.2); print_dec (lot_size e.2);
            print_dec (min_quantity e.2); print_dec (max_quantity e.2)].

Definition canonical (c : SymbolConfig) : string :=
  foldr (fun e text => (rules_line e ++ String newline text)%string) "" c.

(** [str::lines]: pieces between line feeds, the last one dropped when empty,
    one carriage return before a line feed dropped with it. *)
Fixpoint strip_cr (s : string) : string :=
  match s with
  | EmptyString => ""
  | String c EmptyString => if Ascii.eqb c (Ascii.ascii_of_N 13) then "" else String c ""
  | String c s => String c (strip_cr s)
  end.

Fixpoint lines_of (pieces : list string) : list string :=
  match pieces with
  | [] => []
  | [p] => if String.eqb p "" then [] else [p]
  | p :: pieces => strip_cr p :: lines_of pieces
  end.

Definition lines (text : string) : list string := lines_of (split_on newline text).

(** [b"._-/:"] and ASCII alphanumerics. *)
Definition symbol_char (c : ascii) : bool :=
  let n := Ascii.N_of_ascii c in
  (is_digit c || ((65 <=? n) && (n <=? 90)) || ((97 <=? n) && (n <=? 122))
   || (n =? 46) || (n =? 95) || (n =? 45) || (n =? 47) || (n =? 58))%N.

(** The last validation of a line. *)
Definition rules_ok (r : SymbolRules) : bool :=
  negb ((price_scale r >? 8) || (tick_size r <=? 0) || (lot_size r =? 0) || (min_quantity r =? 0)
        || (min_quantity r >? max_quantity r) || (max_quantity r >? i32_max)
        || ((min_quantity r + lot_size r - 1) / lot_size r * lot_size r >? max_quantity r)).

(** The closure [parse] on one line. *)
Definition parse_rules (line : string) : option (string * SymbolRules) :=
  match trim <$> split_on "," line with
  | [sym; ps; ts; ls; mn; mx] =>
    if String.eqb sym "" || negb (all_chars symbol_char sym) then None
    else if negb (forallb (fun s => negb (String.eqb s "") && all_chars is_digit s) [ps; ts; ls; mn; mx]) then None
    else
      match parse_digits u32_max ps, parse_digits i64_max ts, parse_digits u32_max ls,
            parse_digits u32_max mn, parse_digits u32_max mx with
      | Some ps, Some ts, Some ls, Some mn, Some mx =>
        let r := mkSymbolRules ps ts ls mn mx in
        if rules_ok r then Some (sym, r) else None
      | _, _, _, _, _ => None
      end
  | _ => None
  end.

(** The two errors, with the line number they report. *)
Inductive ConfigError : Type := InvalidLine (n : Z) | DuplicateSymbol (n : Z).

Definition header_line : string := "symbol,price_scale,tick_size,lot_size,min_quantity,max_quantity".

Definition skipped (line : string) : bool :=
  String.eqb line "" || String.prefix "#" line || String.eqb line header_line.

Fixpoint parse_lines (line_no : Z) (ls : list string) (c : SymbolConfig) : result SymbolConfig ConfigError :=
  match ls with
  | [] => Ok c
  | line :: ls =>
    let line := trim line in
    if skipped line then parse_lines (line_no + 1) ls c
    else match parse_rules line with
         | None => Err (InvalidLine (line_no + 1))
         | Some (sym, rules) =>
           match bt_get sym c with
           | Some _ => Err (DuplicateSymbol (line_no + 1))
           | None => parse_lines (line_no + 1) ls (bt_insert sym rules c)
           end
         end
  end.

(** [SymbolConfig::parse]. *)
Definition parse_config (text : string) : result SymbolConfig ConfigError := parse_lines 0 (lines text) [].

(** What [parse] accepts as an entry. *)
Definition entry_ok (e : string * SymbolRules) : Prop :=
  e.1 <> "" /\ all_chars symbol_char e.1 = true /\ rules_ok e.2 = true /\
  0 <= price_scale e.2 <= u32_max /\ 0 <= tick_size e.2 <= i64_max /\ 0 <= lot_size e.2 <= u32_max /\
  0 <= min_quantity e.2 <= u32_max /\ 0 <= max_quantity e.2 <= u32_max.

(** ** Printable text *)

Definition plain (c : ascii) : bool := ((32 <? Ascii.N_of_ascii c) && (Ascii.N_of_ascii c <? 127))%N.

(** No white-space encoding starts or ends with a printable byte. *)
Definition starts_plain (p : string) : bool := match p with String a _ => plain a | EmptyString => true end.

Lemma white_space_starts :
  forallb (fun p => negb (starts_plain p)) white_space &&
  forallb (fun p => negb (starts_plain p)) ((fun w => rev_string w "") <$> white_space) = true.
Proof. vm_compute. reflexivity. Qed.

Lemma strip_first_plain ps c s :
  forallb (fun p => negb (starts_plain p)) ps = true -> plain c = true -> strip_first ps (String c s) = None.
Proof.
  intros Hps Hc. induction ps as [|p ps IH]; [done|]. cbn [forallb] in Hps. apply andb_true_iff in Hps as [Hp Hps].
  cbn [strip_first]. destruct p as [|a p]; [done|]. cbn [strip_prefix]. simpl in Hp.
  destruct (Ascii.eqb_spec a c) as [->|]; [by rewrite Hc in Hp|]. by apply IH.
Qed.

Lemma trim_start_plain ps s :
  forallb (fun p => negb (starts_plain p)) ps = true -> all_chars plain s = true -> trim_start_with ps s = s.
Proof.
  intros Hps Hs. unfold trim_start_with. destruct s as [|c s]; [done|]. cbn [String.length trim_start_fuel].
  cbn [all_chars] in Hs. apply andb_true_iff in Hs as [Hc _]. by rewrite strip_first_plain.
Qed.

Lemma rev_string_app s : forall acc, rev_string s acc = (rev_string s "" ++ acc)%string.
Proof.
  induction s as [|c s IH]; intros acc; [done|]. cbn [rev_string]. rewrite (IH (String c acc)), (IH (String c "")), str_app_assoc. done.
Qed.

Lemma rev_string_involutive s : rev_string (rev_string s "") "" = s.
Proof.
  assert (forall s t acc, rev_string (rev_string s t) acc = rev_string t (s ++ acc)) as H.
  { clear. induction s as [|c s IH]; intros t acc; [done|]. cbn [rev_string]. rewrite IH. done. }
  rewrite H. cbn [rev_string]. clear H. induction s as [|c s IH]; [done|].
  change (String c (s ++ "") = String c s)%string. by rewrite IH.
Qed.

Lemma all_chars_rev p s : forall acc, all_chars p (rev_string s acc) = all_chars p s && all_chars p acc.
Proof.
  induction s as [|c s IH]; intros acc; [done|]. cbn [rev_string]. rewrite IH. cbn [all_chars].
  destruct (p c), (all_chars p s); done.
Qed.

Lemma trim_plain s : all_chars plain s = true -> trim s = s.
Proof.
  intros Hs. unfold trim. pose proof white_space_starts as Hw. apply andb_true_iff in Hw as [W1 W2].
  rewrite (trim_start_plain _ s W1 Hs), trim_start_plain; [apply rev_string_involutive|done|].
  by rewrite all_chars_rev, Hs.
Qed.

Lemma digit_plain c : is_digit c = true -> plain c = true.
Proof. unfold is_digit, plain. rewrite !andb_true_iff, !N.leb_le, !N.ltb_lt. lia. Qed.

Lemma symbol_plain c : symbol_char c = true -> plain c = true /\ Ascii.eqb c "," = false /\ Ascii.eqb c "#" = false.
Proof.
  intros H. assert (plain c = true /\ Ascii.N_of_ascii c <> 44%N /\ Ascii.N_of_ascii c <> 35%N) as (H1 & H2 & H3).
  { unfold symbol_char, is_digit, plain in *.
    rewrite ?orb_true_iff, ?andb_true_iff, ?N.leb_le, ?N.eqb_eq, ?N.ltb_lt in *. lia. }
  split_and!; [done|..]; apply Ascii.eqb_neq; intros ->; by apply H2 || by apply H3.
Qed.

(** ** Lines *)

Definition unbroken (s : string) : bool := all_chars (fun c => negb (Ascii.eqb c newline) && negb (Ascii.eqb c (Ascii.ascii_of_N 13))) s.

Lemma plain_unbroken s : all_chars plain s = true -> unbroken s = true.
Proof.
  apply all_chars_impl. intros c Hc. destruct (Ascii.eqb_spec c newline) as [->|]; [done|].
  by destruct (Ascii.eqb_spec c (Ascii.ascii_of_N 13)) as [->|].
Qed.

Lemma strip_cr_unbroken s : unbroken s = true -> strip_cr s = s.
Proof.
  induction s as [|c s IH]; [done|]. unfold unbroken in *. cbn [all_chars]. intros [Hc Hs]%andb_true_iff.
  apply andb_true_iff in Hc as [_ Hc]. cbn [strip_cr]. destruct s as [|c' s].
  - by destruct (Ascii.eqb c _).
  - by rewrite (IH Hs).
Qed.

Lemma lines_of_app w ps : ps <> [] -> unbroken w = true -> lines_of (w :: ps) = w :: lines_of ps.
Proof. intros Hps Hw. destruct ps; [done|]. cbn [lines_of]. by rewrite strip_cr_unbroken. Qed.

Lemma lines_canonical c :
  Forall (fun e => all_chars plain (rules_line e) = true) c -> lines (canonical c) = rules_line <$> c.
Proof.
  unfold lines. induction 1 as [|e c He _ IH]; [done|]. cbn [canonical foldr]. apply plain_unbroken in He.
  rewrite split_on_app.
  - rewrite lines_of_app; [|apply split_on_not_nil|done]. rewrite fmap_cons. f_equal. exact IH.
  - eapply all_chars_impl; [|exact He]. intros ch Hch. by apply andb_true_iff in Hch as [Hch _].
Qed.

Lemma print_dec_plain max n : 0 <= n <= max -> all_chars plain (print_dec n) = true.
Proof. intros Hn. eapply all_chars_impl; [apply digit_plain|]. by eapply parse_print. Qed.

Lemma rules_line_plain e : entry_ok e -> all_chars plain (rules_line e) = true.
Proof.
  intros (_ & Hs & _ & H1 & H2 & H3 & H4 & H5). unfold rules_line. cbn [join].
  repeat (rewrite all_chars_app; cbn [all_chars]).
  rewrite (all_chars_impl symbol_char plain) by (done || (intros; by apply symbol_plain)).
  by rewrite !(print_dec_plain i64_max) by (unfold i64_max, u32_max in *; lia).
Qed.

(** ** Entries *)

Lemma print_dec_field max n :
  0 <= n <= max ->
  trim (print_dec n) = print_dec n /\ (negb (String.eqb (print_dec n) "") && all_chars is_digit (print_dec n)) = true /\
  parse_digits max (print_dec n) = Some n /\ free_of "," (print_dec n) = true.
Proof.
  intros Hn. destruct (parse_print max n Hn) as (H1 & H2 & H3).
  split_and!; [|..|done|].
  - apply trim_plain. eapply all_chars_impl; [apply digit_plain|done].
  - rewrite H1. by destruct (String.eqb_spec (print_dec n) "").
  - by apply digits_free.
Qed.

Lemma parse_rules_line e : entry_ok e -> parse_rules (rules_line e) = Some e.
Proof.
  destruct e as [sym [ps ts ls mn mx]]. intros (Hne & Hs & Hr & H1 & H2 & H3 & H4 & H5). unfold fst, snd in *. cbn [price_scale tick_size lot_size min_quantity max_quantity] in *.
  destruct (print_dec_field u32_max ps) as (T1 & N1 & P1 & F1); [done|].
  destruct (print_dec_field i64_max ts) as (T2 & N2 & P2 & F2); [done|].
  destruct (print_dec_field u32_max ls) as (T3 & N3 & P3 & F3); [done|].
  destruct (print_dec_field u32_max mn) as (T4 & N4 & P4 & F4); [done|].
  destruct (print_dec_field u32_max mx) as (T5 & N5 & P5 & F5); [done|].
  assert (free_of "," sym = true) as F0.
  { eapply all_chars_impl; [|exact Hs]. intros c Hc. by destruct (symbol_plain c Hc) as (_ & -> & _). }
  assert (trim sym = sym) as T0.
  { apply trim_plain. eapply all_chars_impl; [|exact Hs]. intros c Hc. by apply symbol_plain. }
  unfold parse_rules, rules_line. unfold fst, snd. cbn [price_scale tick_size lot_size min_quantity max_quantity].
  rewrite split_join; [|done|repeat (constructor; [done|]); constructor].
  rewrite !fmap_cons, T0, T1, T2, T3, T4, T5. cbn [fmap list_fmap].
  destruct (String.eqb_spec sym ""); [done|]. rewrite Hs. cbn [negb orb forallb]. rewrite N1, N2, N3, N4, N5. cbn [andb negb].
  by rewrite P1, P2, P3, P4, P5, Hr.
Qed.

(** A line of an entry is no header, comment or blank. *)
Lemma rules_line_not_skipped e : entry_ok e -> skipped (rules_line e) = false.
Proof.
  intros He. pose proof (parse_rules_line e He) as Hp. unfold skipped.
  destruct (String.eqb_spec (rules_line e) "") as [E|_]; [by rewrite E in Hp|].
  destruct (String.eqb_spec (rules_line e) header_line) as [E|_]; [rewrite E in Hp; vm_compute in Hp; done|].
  destruct He as (Hne & Hs & _). unfold rules_line. destruct e as [[|c sym] r]; [done|].
  unfold fst in *. cbn [all_chars] in Hs. apply andb_true_iff in Hs as [Hc _].
  destruct (symbol_plain c Hc) as (_ & _ & Hh). cbn [join].
  change ((String c sym ++ ?t)%string) with (String c (sym ++ t)). cbn [String.prefix orb].
  destruct (Ascii.ascii_dec "#" c) as [<-|]; [done|]. done.
Qed.

Lemma parse_lines_canonical c : forall n m,
  Forall entry_ok c -> bt_sorted (m ++ c) -> parse_lines n (rules_line <$> c) m = Ok (m ++ c).
Proof.
  induction c as [|[sym r] c IH]; intros n m Hok Hs; [by rewrite app_nil_r|].
  apply Forall_cons in Hok as [He Hok]. cbn [fmap list_fmap parse_lines].
  rewrite (trim_plain _ (rules_line_plain _ He)), (rules_line_not_skipped _ He), (parse_rules_line _ He).
  destruct (bt_append sym r m) as [Hget Hins].
  { unfold bt_sorted in Hs. rewrite fmap_app, fmap_cons in Hs. apply Forall_forall. intros e He'.
    eapply (StronglySorted_app_1_elem_of _ _ _ e.1 sym) in Hs; [done|by apply list_elem_of_fmap_2|left]. }
  rewrite Hget, Hins, IH; [by rewrite <- app_assoc|done|by rewrite <- app_assoc].
Qed.

(** What [parse] accepts is sorted, with valid entries. *)
Lemma parse_digits_range max s n : parse_digits max s = Some n -> 0 <= n <= max.
Proof.
  unfold parse_digits. destruct (String.eqb s "" || negb (all_chars is_digit s)) eqn:E; [done|].
  destruct (Z.leb_spec (digits_val 0 s) max); [|done]. intros [= <-]. apply orb_false_iff in E as [_ E].
  apply negb_false_iff in E. split; [by apply digits_val_nonneg|done].
Qed.

Lemma parse_rules_ok line e : parse_rules line = Some e -> entry_ok e.
Proof.
  unfold parse_rules. destruct (trim <$> split_on "," line) as [|sym [|ps [|ts [|ls [|mn [|mx [|]]]]]]]; try done.
  destruct (String.eqb sym "" || negb (all_chars symbol_char sym)) eqn:E1; [done|].
  apply orb_false_iff in E1 as [E1 E1']. apply negb_false_iff in E1'. apply String.eqb_neq in E1.
  destruct (negb (forallb _ _)); [done|].
  destruct (parse_digits u32_max ps) eqn:P1; [|done]. destruct (parse_digits i64_max ts) eqn:P2; [|done].
  destruct (parse_digits u32_max ls) eqn:P3; [|done]. destruct (parse_digits u32_max mn) eqn:P4; [|done].
  destruct (parse_digits u32_max mx) eqn:P5; [|done]. destruct (rules_ok _) eqn:Hr; [|done]. intros [= <-].
  apply parse_digits_range in P1, P2, P3, P4, P5. unfold entry_ok. simpl. tauto.
Qed.

Lemma parse_lines_ok ls : forall n c c',
  parse_lines n ls c = Ok c' -> bt_sorted c -> Forall entry_ok c -> bt_sorted c' /\ Forall entry_ok c'.
Proof.
  induction ls as [|l ls IH]; intros n c c' H Hs Hok; cbn [parse_lines] in H; [by simplify_eq|].
  destruct (skipped (trim l)); [by eapply IH|]. destruct (parse_rules (trim l)) as [[sym r]|] eqn:E; [|done].
  destruct (bt_get sym c) eqn:G; [done|]. eapply IH; [exact H|by apply bt_sorted_insert|].
  apply Forall_forall. intros e He. apply bt_insert_elem in He as [->|He]; [by apply parse_rules_ok in E|].
  by apply (Forall_forall entry_ok c).
Qed.

Lemma parse_config_ok text c : parse_config text = Ok c -> bt_sorted c /\ Forall entry_ok c.
Proof. intros H. eapply parse_lines_ok; [exact H|apply bt_sorted_nil|constructor]. Qed.

Lemma parse_canonical c : bt_sorted c -> Forall entry_ok c -> parse_config (canonical c) = Ok c.
Proof.
  intros Hs Hok. unfold parse_config. rewrite lines_canonical.
  - apply (parse_lines_canonical c 0 [] Hok Hs).
  - eapply Forall_impl; [exact Hok|]. apply rules_line_plain.
Qed.

(** A symbol configuration survives its canonical text: for every
    configuration [parse] accepts, parsing [canonical] of it gives the same
    configuration, so equal configurations and equal canonical texts are the
    same thing. *)
Theorem config_roundtrip text c :
  parse_config text = Ok c -> parse_config (canonical c) = Ok c.
Proof. intros [Hs Hok]%parse_config_ok. by apply parse_canonical. Qed.

Definition sample_config : string :=
  ("# symbols" ++ String newline (header_line ++ String newline
   ("P2,2, 5,10,10,1000" ++ String newline ("P0,0,1,1,1,2147483647" ++ String newline ""))))%string.

Lemma config_roundtrip_witness :
  parse_config sample_config = Ok [("P0"%string, mkSymbolRules 0 1 1 1 2147483647); ("P2"%string, mkSymbolRules 2 5 10 10 1000)] /\
  parse_config (canonical [("P0"%string, mkSymbolRules 0 1 1 1 2147483647); ("P2"%string, mkSymbolRules 2 5 10 10 1000)]) =
  Ok [("P0"%string, mkSymbolRules 0 1 1 1 2147483647); ("P2"%string, mkSymbolRules 2 5 10 10 1000)].
Proof.
  split; [vm_compute; reflexivity|]. apply (config_roundtrip sample_config). vm_compute. reflexivity.
Defined.

(** ** The rules *)

Lemma validate_quantity_iff r q :
  0 < lot_size r -> validate_quantity r q = Ok () <-> min_quantity r <= q <= max_quantity r /\ (lot_size r | q).
Proof.
  intros Hl. unfold validate_quantity, is_multiple_of. destruct (Z.eqb_spec (lot_size r) 0); [lia|].
  rewrite Z.gtb_ltb. destruct (Z.ltb_spec q (min_quantity r)), (Z.ltb_spec (max_quantity r) q); simpl; try (split; [done|lia]).
  rewrite <- Z.mod_divide by lia. destruct (Z.eqb_spec (q mod lot_size r) 0); simpl; split; try done; try lia; intros [_ ?]; done.
Qed.

Lemma validate_price_iff r p :
  0 < tick_size r -> validate_price r p = Ok () <-> 0 < p /\ (tick_size r | p).
Proof.
  intros Ht. unfold validate_price. destruct (Z.leb_spec (tick_size r) 0); [lia|].
  destruct (Z.leb_spec p 0); simpl; [split; [done|lia]|]. rewrite Z.rem_mod_nonneg by lia. rewrite <- Z.mod_divide by lia.
  destruct (Z.eqb_spec (p mod tick_size r) 0); simpl; split; try done; intros [_ ?]; done.
Qed.

(** Every configured symbol can be traded. For the rules [parse] accepts,
    the quantities [validate_quantity] lets through are exactly the multiples of
    the lot between the minimum and the maximum and there is at least one, all
    representable as the positive [i32] of an order message; the prices let
    through are exactly the positive multiples of the tick. *)
Theorem config_tradable text c sym r :
  parse_config text = Ok c -> bt_get sym c = Some r ->
  (forall q, validate_quantity r q = Ok () <-> min_quantity r <= q <= max_quantity r /\ (lot_size r | q)) /\
  (forall p, validate_price r p = Ok () <-> 0 < p /\ (tick_size r | p)) /\
  (exists q, validate_quantity r q = Ok ()) /\
  (forall q, validate_quantity r q = Ok () -> 0 < q <= i32_max).
Proof.
  intros H Hr. apply parse_config_ok in H as [_ Hok]. apply bt_get_Some_elem in Hr.
  rewrite Forall_forall in Hok. destruct (Hok _ Hr) as (_ & _ & R & _ & B2 & B3 & B4 & B5). simpl in *. unfold rules_ok in R.
  rewrite negb_true_iff, !orb_false_iff, !Z.gtb_ltb, !Z.ltb_ge, Z.leb_gt, !Z.eqb_neq in R.
  destruct R as ((((((R1 & R2) & R3) & R4) & R5) & R6) & R7).
  assert (forall q, validate_quantity r q = Ok () <-> min_quantity r <= q <= max_quantity r /\ (lot_size r | q)) as Hq.
  { intros q. apply validate_quantity_iff. lia. }
  split_and!; [exact Hq|intros p; by apply validate_price_iff|..].
  - exists ((min_quantity r + lot_size r - 1) / lot_size r * lot_size r). apply Hq. split; [|apply Z.divide_factor_r].
    split; [|lia]. pose proof (Z.div_mod (min_quantity r + lot_size r - 1) (lot_size r) ltac:(lia)).
    pose proof (Z.mod_pos_bound (min_quantity r + lot_size r - 1) (lot_size r) ltac:(lia)). lia.
  - intros q Hv. apply Hq in Hv. lia.
Qed.

Lemma config_tradable_witness :
  validate_quantity (mkSymbolRules 2 5 10 10 1000) 20 = Ok () /\
  (exists q, validate_quantity (mkSymbolRules 2 5 10 10 1000) q = Ok ()).
Proof.
  split; [vm_compute; reflexivity|].
  apply (config_tradable sample_config [("P0"%string, mkSymbolRules 0 1 1 1 2147483647); ("P2"%string, mkSymbolRules 2 5 10 10 1000)] "P2");
    vm_compute; reflexivity.
Defined.
