(* ===== verification/Auction.v ===== *)
(** * The call auction

    [engine/auction.rs]: the clearing price of an auction and the allocation of
    its volume. The clearing price maximises the executable volume over every
    price, with the documented tie breaks; the allocation executes exactly that
    volume in market, price, time priority; and both depend only on the set of
    orders, not on the order they are listed in. *)

From S2P Require Import Prelude BTree Order.

(** ** Data *)

(** [AuctionSide] has the constructors of the book's side. *)
Abbreviation AuctionSide := OrderSide.

Record AuctionOrder : Type := mkAuctionOrder {
  a_id : string;
  a_side : AuctionSide;
  limit_price : option Z;
  a_quantity : Z;
  a_seq : Z;
}.

Record AuctionResult : Type := mkAuctionResult {
  r_price : Z;
  r_volume : Z;
  r_imbalance : Z;
}.

Record AuctionFill : Type := mkAuctionFill {
  af_buy_id : string;
  af_sell_id : string;
  af_quantity : Z;
  af_price : Z;
}.

(** ** Clearing price *)

(** The running totals of the first loop of [uncross]. *)
Record Tally : Type := mkTally {
  t_levels : list (Z * (Z * Z));
  t_buys : Z;
  t_sells : Z;
  t_total_sells : Z;
}.

Definition tally_order (t : Tally) (o : AuctionOrder) : Tally :=
  let qty := a_quantity o in
  let buys := match a_side o with Buy => add64 (t_buys t) qty | Sell => t_buys t end in
  let total := match a_side o with Buy => t_total_sells t | Sell => add64 (t_total_sells t) qty end in
  let sells := match a_side o, limit_price o with
               | Sell, None => add64 (t_sells t) qty
               | _, _ => t_sells t
               end in
  let levels := match limit_price o with
                | None => t_levels t
                | Some p =>
                  let '(b, s) := default (0, 0) (bt_get p (t_levels t)) in
                  bt_insert p (match a_side o with Buy => (add64 b qty, s) | Sell => (b, add64 s qty) end)
                    (t_levels t)
                end in
  {| t_levels := levels; t_buys := buys; t_sells := sells; t_total_sells := total |}.

Definition tally (orders : list AuctionOrder) : Tally :=
  foldl tally_order {| t_levels := []; t_buys := 0; t_sells := 0; t_total_sells := 0 |} orders.

(** The loop over the levels: one candidate per limit price, ascending. *)
Fixpoint candidates (levels : list (Z * (Z * Z))) (buys sells : Z) : list AuctionResult :=
  match levels with
  | [] => []
  | (p, (at_buy, at_sell)) :: levels =>
    let sells := add64 sells at_sell in
    {| r_price := p; r_volume := Z.min buys sells; r_imbalance := buys - sells |}
      :: candidates levels (sub64 buys at_buy) sells
  end.

Definition distance (reference : Z) (r : AuctionResult) : Z := Z.abs (r_price r - reference).

(** [candidates.retain(|r| f(r) == v)]. *)
Definition retain (f : AuctionResult -> Z) (v : Z) (cs : list AuctionResult) : list AuctionResult :=
  filter (fun r => f r = v) cs.

(** The choice among the candidates that clear the most, least imbalanced and,
    given a reference, closest to it. *)
Definition choose (reference_price : option Z) (max_volume : Z) (cs : list AuctionResult) : outcome AuctionResult :=
  let cs := retain r_volume max_volume cs in
  let* min_imbalance := expect (minimumZ ((fun r => Z.abs (r_imbalance r)) <$> cs)) in
  let cs := retain (fun r => Z.abs (r_imbalance r)) min_imbalance cs in
  let* cs := match reference_price with
             | None => Done cs
             | Some reference =>
               let* closest := expect (minimumZ (distance reference <$> cs)) in
               Done (retain (distance reference) closest cs)
             end in
  if forallb (fun r => r_imbalance r >? 0) cs then expect (last cs) else expect (head cs).

(** [uncross]. *)
Definition uncross (orders : list AuctionOrder) (reference_price : option Z) : outcome AuctionResult :=
  let t := tally orders in
  let no_cross := {| r_price := 0; r_volume := 0; r_imbalance := t_buys t - t_total_sells t |} in
  if is_nil (t_levels t) then
    Done (match reference_price with
          | Some p => if Z.min (t_buys t) (t_sells t) >? 0
                      then {| r_price := p; r_volume := Z.min (t_buys t) (t_sells t);
                              r_imbalance := r_imbalance no_cross |}
                      else no_cross
          | None => no_cross
          end)
  else
    let cs := candidates (t_levels t) (t_buys t) (t_sells t) in
    let* max_volume := expect (maximumZ (r_volume <$> cs)) in
    if max_volume =? 0 then Done no_cross else choose reference_price max_volume cs.

(** ** Allocation *)

(** Whether an order may trade at the clearing price. *)
Definition eligible (side : AuctionSide) (price : Z) (o : AuctionOrder) : bool :=
  bool_decide (a_side o = side) && (a_quantity o >? 0)
  && match limit_price o with
     | None => true
     | Some p => match side with Buy => p >=? price | Sell => p <=? price end
     end.

(** [Ord] of [bool] and [Option<i64>], and lexicographic [then]. *)
Definition bool_cmp (a b : bool) : comparison :=
  match a, b with false, true => Lt | true, false => Gt | _, _ => Eq end.

Definition option_cmp (a b : option Z) : comparison :=
  match a, b with
  | None, None => Eq
  | None, Some _ => Lt
  | Some _, None => Gt
  | Some x, Some y => Z.compare x y
  end.

Definition then_cmp (c d : comparison) : comparison := match c with Eq => d | _ => c end.

Definition is_some {A} (o : option A) : bool := match o with Some _ => true | None => false end.

(** The comparator of the sort: market orders first, then price, then time. *)
Definition priority_cmp (side : AuctionSide) (a b : AuctionOrder) : comparison :=
  then_cmp (bool_cmp (is_some (limit_price a)) (is_some (limit_price b)))
    (then_cmp (match side with
               | Buy => option_cmp (limit_price b) (limit_price a)
               | Sell => option_cmp (limit_price a) (limit_price b)
               end)
       (then_cmp (Z.compare (a_seq a) (a_seq b)) (String.compare (a_id a) (a_id b)))).

Definition priority_leb (side : AuctionSide) (a b : AuctionOrder) : bool :=
  match priority_cmp side a b with Gt => false | _ => true end.

Definition queue (orders : list AuctionOrder) (price : Z) (side : AuctionSide) : list AuctionOrder :=
  sort_stable (priority_leb side) (List.filter (eligible side price) orders).

(** The [while] loop, on the parts of both queues from the indices on; [bu] and
    [su] are what is used of the first order of each. Every pass finishes one of
    the two orders or the volume. *)
Fixpoint allocate_loop (fuel : nat) (price remaining : Z) (buys : list AuctionOrder) (bu : Z)
    (sells : list AuctionOrder) (su : Z) : outcome (list AuctionFill) :=
  match fuel with
  | O => OutOfFuel
  | S fuel =>
    match buys, sells with
    | b :: buys', s :: sells' =>
      if remaining >? 0 then
        let buy_left := sub32 (a_quantity b) bu in
        let sell_left := sub32 (a_quantity s) su in
        let quantity := as_u32 (Z.min (Z.min buy_left sell_left) remaining) in
        let fill := {| af_buy_id := a_id b; af_sell_id := a_id s; af_quantity := quantity; af_price := price |} in
        let bu := add32 bu quantity in
        let su := add32 su quantity in
        let '(buys, bu) := if bu =? a_quantity b then (buys', 0) else (buys, bu) in
        let '(sells, su) := if su =? a_quantity s then (sells', 0) else (sells, su) in
        let* fills := allocate_loop fuel price (sub64 remaining quantity) buys bu sells su in
        Done (fill :: fills)
      else Done []
    | _, _ => Done []
    end
  end.

(** [allocate]. *)
Definition allocate (orders : list AuctionOrder) (result : AuctionResult) : outcome (list AuctionFill) :=
  let buys := queue orders (r_price result) Buy in
  let sells := queue orders (r_price result) Sell in
  allocate_loop (S (length buys + length sells)) (r_price result) (r_volume result) buys 0 sells 0.
