(* ===== verification/AuctionPrice.v ===== *)
(** * The clearing price

    [uncross] against its specification: demand and supply at a price, the
    executable volume, and the price that maximises it. *)

From S2P Require Import Prelude BTree Order Auction.

(** ** Definitions *)

(** Orders whose quantities fit their types, as do their totals. *)
Definition auction_ok (orders : list AuctionOrder) : Prop :=
  Forall (fun o => 0 <= a_quantity o <= u32_max) orders /\ sumZ a_quantity orders <= u64_max.

(** Quantity of the orders that satisfy a test. *)
Definition volume_of (test : AuctionOrder -> bool) (orders : list AuctionOrder) : Z :=
  sumZ (fun o => if test o then a_quantity o else 0) orders.

(** Orders of a side, market orders, and limit orders whose limit passes a test. *)
Definition on_side (s : AuctionSide) (o : AuctionOrder) : bool := bool_decide (a_side o = s).

Definition market (s : AuctionSide) (o : AuctionOrder) : bool :=
  on_side s o && match limit_price o with None => true | Some _ => false end.

Definition limited (s : AuctionSide) (f : Z -> bool) (o : AuctionOrder) : bool :=
  on_side s o && match limit_price o with None => false | Some p => f p end.

(** Who trades at [p]: market orders, buys limited at or above it and sells at or
    below it. *)
Definition willing (s : AuctionSide) (p : Z) (o : AuctionOrder) : bool :=
  on_side s o && match limit_price o with
                 | None => true
                 | Some l => match s with Buy => p <=? l | Sell => l <=? p end
                 end.

Definition demand (orders : list AuctionOrder) (p : Z) : Z := volume_of (willing Buy p) orders.
Definition supply (orders : list AuctionOrder) (p : Z) : Z := volume_of (willing Sell p) orders.

(** The auction at one price. *)
Definition clearing (orders : list AuctionOrder) (p : Z) : AuctionResult :=
  {| r_price := p; r_volume := Z.min (demand orders p) (supply orders p);
     r_imbalance := demand orders p - supply orders p |}.

Definition limits (orders : list AuctionOrder) : list Z := omap limit_price orders.

(** The quantity a level holds for a side. *)
Definition level_qty (s : AuctionSide) (e : Z * (Z * Z)) : Z := match s with Buy => e.2.1 | Sell => e.2.2 end.

(** The levels of a tally against the orders. *)
Record tallied (orders : list AuctionOrder) (t : Tally) : Prop := {
  ty_sorted : bt_sorted (t_levels t);
  ty_keys : forall p, p ∈ limits orders <-> is_Some (bt_get p (t_levels t));
  ty_levels : forall s (f : Z -> bool), sumZ (fun e : Z * (Z * Z) => if f e.1 then level_qty s e else 0) (t_levels t) =
                          volume_of (limited s f) orders;
  ty_nonneg : Forall (fun e => 0 <= e.2.1 /\ 0 <= e.2.2) (t_levels t);
  ty_buys : t_buys t = volume_of (on_side Buy) orders;
  ty_sells : t_sells t = volume_of (market Sell) orders;
  ty_total : t_total_sells t = volume_of (on_side Sell) orders;
}.

(** ** Volumes *)

Lemma on_side_match s o :
  on_side s o = match a_side o, s with Buy, Buy | Sell, Sell => true | _, _ => false end.
Proof. unfold on_side. by destruct (a_side o), s. Qed.

Lemma volume_of_app f l1 l2 : volume_of f (l1 ++ l2) = volume_of f l1 + volume_of f l2.
Proof. apply sumZ_app. Qed.

Lemma volume_of_single f o : volume_of f [o] = if f o then a_quantity o else 0.
Proof. unfold volume_of. simpl. lia. Qed.

Lemma volume_of_nonneg f l : Forall (fun o => 0 <= a_quantity o <= u32_max) l -> 0 <= volume_of f l.
Proof. intros H. apply sumZ_nonneg. eapply Forall_impl; [exact H|]. intros o Ho. simpl in *. destruct (f o); lia. Qed.

Lemma volume_of_le f l : Forall (fun o => 0 <= a_quantity o <= u32_max) l -> volume_of f l <= sumZ a_quantity l.
Proof. induction 1 as [|o l Ho _ IH]; unfold volume_of in *; simpl in *; [lia|]. destruct (f o); lia. Qed.

(** Splitting a test. *)
Lemma volume_of_split f g h l :
  (forall o, f o = g o || h o) -> (forall o, g o && h o = false) -> volume_of f l = volume_of g l + volume_of h l.
Proof.
  intros H1 H2. induction l as [|o l IH]; unfold volume_of in *; simpl in *; [lia|].
  specialize (H1 o). specialize (H2 o). destruct (f o), (g o), (h o); simpl in *; try congruence; lia.
Qed.

Lemma volume_of_mono f g l :
  Forall (fun o => 0 <= a_quantity o <= u32_max) l -> (forall o, o ∈ l -> f o = true -> g o = true) ->
  volume_of f l <= volume_of g l.
Proof.
  induction 1 as [|o l Ho _ IH]; intros H; unfold volume_of in *; simpl in *; [lia|].
  assert (sumZ (fun o => if f o then a_quantity o else 0) l <= sumZ (fun o => if g o then a_quantity o else 0) l)
    by (apply IH; intros; apply H; [by right|done]).
  specialize (H o ltac:(left)). destruct (f o), (g o); (lia || (specialize (H eq_refl); congruence)).
Qed.

#[export] Instance volume_of_Permutation f : Proper (Permutation ==> eq) (volume_of f).
Proof. intros l l' Hp. unfold volume_of. by rewrite Hp. Qed.

#[export] Instance auction_ok_Permutation : Proper (Permutation ==> iff) auction_ok.
Proof. intros l l' Hp. unfold auction_ok. by rewrite Hp. Qed.

Lemma auction_ok_snoc l o : auction_ok (l ++ [o]) -> auction_ok l /\ 0 <= a_quantity o <= u32_max /\ sumZ a_quantity l + a_quantity o <= u64_max.
Proof.
  intros [H1 H2]. apply Forall_app in H1 as [H1 Ho]. apply Forall_cons in Ho as [Ho _].
  rewrite sumZ_app in H2. simpl in H2. split_and!; try lia. split; [done|lia].
Qed.

(** ** The tally *)

Lemma level_sum_get (g : Z * (Z * Z) -> Z) p m :
  bt_sorted m -> g (p, (0, 0)) = 0 ->
  sumZ g m = g (p, default (0, 0) (bt_get p m)) + sumZ g (bt_remove p m).
Proof.
  intros Hs Hz. destruct (bt_get p m) as [v|] eqn:E; simpl.
  - rewrite (bt_get_perm _ _ _ E) at 1. done.
  - by rewrite bt_get_None_remove, Hz by done.
Qed.

(** The entry of a level is what the limit orders of its price add up to. *)
Lemma tallied_get orders t p b s :
  tallied orders t -> default (0, 0) (bt_get p (t_levels t)) = (b, s) ->
  b = volume_of (limited Buy (fun x => x =? p)) orders /\ s = volume_of (limited Sell (fun x => x =? p)) orders.
Proof.
  intros Ht Hg. assert (forall sd, sumZ (fun e => if e.1 =? p then level_qty sd e else 0) (bt_remove p (t_levels t)) = 0) as Hz.
  { intros sd. assert (Forall (fun e => (if e.1 =? p then level_qty sd e else 0) = 0) (bt_remove p (t_levels t))) as H.
    { apply Forall_forall. intros [k v] Hk. simpl. destruct (Z.eqb_spec k p) as [->|]; [|done].
      exfalso. by eapply (bt_remove_not_elem (K := Z)); [apply (ty_sorted _ _ Ht)|exact Hk]. }
    induction H; simpl; lia. }
  pose proof (ty_levels _ _ Ht Buy (fun x => x =? p)) as HB. pose proof (ty_levels _ _ Ht Sell (fun x => x =? p)) as HS.
  rewrite (level_sum_get _ p), Hz, Hg in HB by (apply (ty_sorted _ _ Ht) || (simpl; by rewrite Z.eqb_refl)).
  rewrite (level_sum_get _ p), Hz, Hg in HS by (apply (ty_sorted _ _ Ht) || (simpl; by rewrite Z.eqb_refl)).
  simpl in HB, HS. rewrite Z.eqb_refl in HB, HS. simpl in HB, HS. lia.
Qed.

Lemma tally_nil : tallied [] (tally []).
Proof.
  split; simpl; try done; [apply bt_sorted_nil|].
  intros p. split; [by intros ?%not_elem_of_nil|by intros [? ?]].
Qed.

(** One more order in the tally. *)
Section snoc.
Context (orders : list AuctionOrder) (o : AuctionOrder) (t : Tally).
Context (Ht : tallied orders t) (Hok : auction_ok (orders ++ [o])).

Lemma tally_level_snoc p b s :
  default (0, 0) (bt_get p (t_levels t)) = (b, s) ->
  0 <= b /\ 0 <= s /\ b + a_quantity o <= u64_max /\ s + a_quantity o <= u64_max.
Proof using Ht Hok.
  intros Hg. apply auction_ok_snoc in Hok as ([Hall Hsum] & Ho & Hlt).
  destruct (tallied_get _ _ _ _ _ Ht Hg) as [-> ->].
  pose proof (volume_of_nonneg (limited Buy (fun x => x =? p)) _ Hall).
  pose proof (volume_of_nonneg (limited Sell (fun x => x =? p)) _ Hall).
  pose proof (volume_of_le (limited Buy (fun x => x =? p)) _ Hall).
  pose proof (volume_of_le (limited Sell (fun x => x =? p)) _ Hall). lia.
Qed.

Lemma tally_levels_snoc sd (f : Z -> bool) :
  sumZ (fun e : Z * (Z * Z) => if f e.1 then level_qty sd e else 0) (t_levels (tally_order t o)) =
  volume_of (limited sd f) (orders ++ [o]).
Proof using Ht Hok.
  rewrite volume_of_app, volume_of_single, <- (ty_levels _ _ Ht). unfold tally_order, limited, on_side. simpl.
  destruct (limit_price o) as [p|] eqn:Hl; [|rewrite andb_false_r; lia].
  destruct (default (0, 0) (bt_get p (t_levels t))) as [b s] eqn:Hg.
  destruct (tally_level_snoc _ _ _ Hg) as (Hb & Hs & Hb' & Hs').
  apply auction_ok_snoc in Hok as (_ & Ho & _).
  rewrite bt_insert_perm by apply (ty_sorted _ _ Ht). simpl.
  rewrite (level_sum_get _ p (t_levels t)), Hg by (apply (ty_sorted _ _ Ht) || (simpl; by destruct (f p), sd)).
  destruct (a_side o), sd; simpl; destruct (f p); simpl; rewrite ?add64_small by lia; lia.
Qed.

Lemma tally_snoc : tallied (orders ++ [o]) (tally_order t o).
Proof using Ht Hok.
  pose proof Hok as Hok'. apply auction_ok_snoc in Hok' as ([Hall Hsum] & Ho & Hlt).
  pose proof (volume_of_le (on_side Buy) _ Hall). pose proof (volume_of_nonneg (on_side Buy) _ Hall).
  pose proof (volume_of_le (on_side Sell) _ Hall). pose proof (volume_of_nonneg (on_side Sell) _ Hall).
  pose proof (volume_of_le (market Sell) _ Hall). pose proof (volume_of_nonneg (market Sell) _ Hall).
  destruct Ht as [Hs Hk Hlv Hnn Hb Hse Hto]. split.
  - unfold tally_order. simpl. destruct (limit_price o) as [p|]; [|done].
    destruct (default (0, 0) (bt_get p (t_levels t))). by apply bt_sorted_insert.
  - intros q. unfold limits. rewrite omap_app, elem_of_app, Hk. unfold tally_order. simpl.
    destruct (limit_price o) as [p|] eqn:Hl; simpl.
    + destruct (default (0, 0) (bt_get p (t_levels t))) as [b s]. destruct (Z.eq_dec p q) as [->|Hne].
      * rewrite bt_get_insert_eq by done. split; [by eauto|]. intros _. right. left.
      * rewrite bt_get_insert_ne by done. rewrite list_elem_of_singleton. naive_solver.
    + rewrite elem_of_nil. naive_solver.
  - intros sd f. apply tally_levels_snoc.
  - unfold tally_order. simpl. destruct (limit_price o) as [p|] eqn:Hl; [|done].
    destruct (default (0, 0) (bt_get p (t_levels t))) as [b s] eqn:Hg.
    destruct (tally_level_snoc _ _ _ Hg) as (? & ? & ? & ?).
    rewrite Forall_forall in Hnn |- *. intros e [->|He]%bt_insert_elem; [|by apply Hnn].
    destruct (a_side o); simpl; rewrite add64_small by lia; lia.
  - rewrite volume_of_app, volume_of_single, on_side_match. unfold tally_order. simpl. rewrite Hb.
    destruct (a_side o); simpl; rewrite ?add64_small by lia; lia.
  - rewrite volume_of_app, volume_of_single. unfold market at 2. rewrite on_side_match. unfold tally_order. simpl.
    rewrite Hse. destruct (a_side o), (limit_price o); simpl; rewrite ?add64_small by lia; lia.
  - rewrite volume_of_app, volume_of_single, on_side_match. unfold tally_order. simpl. rewrite Hto.
    destruct (a_side o); simpl; rewrite ?add64_small by lia; lia.
Qed.
End snoc.

Lemma tally_spec orders : auction_ok orders -> tallied orders (tally orders).
Proof.
  induction orders as [|o orders IH] using rev_ind; intros Hok; [apply tally_nil|].
  unfold tally. rewrite foldl_snoc. apply tally_snoc; [|done]. apply IH. by apply auction_ok_snoc in Hok as [? _].
Qed.

(** ** Candidates *)

Lemma sorted_split m1 p v m2 :
  bt_sorted (m1 ++ (p, v) :: m2) ->
  Forall (fun e : Z * (Z * Z) => e.1 < p) m1 /\ Forall (fun e : Z * (Z * Z) => p < e.1) m2.
Proof.
  induction m1 as [|[k w] m1 IH]; simpl; intros [Hs Hf]%bt_sorted_cons.
  - split; [constructor|]. eapply Forall_impl; [exact Hf|]. intros e He. simpl in He. propify. lia.
  - destruct (IH Hs) as [H1 H2]. split; [|done]. constructor; [|done].
    apply Forall_app in Hf as [_ Hf]. apply Forall_cons in Hf as [Hf _]. simpl in *. propify. lia.
Qed.

Lemma sum_if_all {A} (f : A -> bool) (g : A -> Z) (b : bool) l :
  Forall (fun x => f x = b) l -> sumZ (fun x => if f x then g x else 0) l = if b then sumZ g l else 0.
Proof. induction 1 as [|x l Hx _ IH]; simpl; [by destruct b|]. rewrite Hx, IH. destruct b; lia. Qed.

Section candidates.
Context (orders : list AuctionOrder) (t : Tally).
Context (Ht : tallied orders t) (Hok : auction_ok orders).

Lemma supply_split m1 p v m2 :
  t_levels t = m1 ++ (p, v) :: m2 ->
  supply orders p = t_sells t + sumZ (level_qty Sell) m1 + v.2.
Proof using Ht.
  intros Hm. pose proof (ty_sorted _ _ Ht) as Hs. rewrite Hm in Hs. apply sorted_split in Hs as [H1 H2].
  unfold supply. rewrite (volume_of_split _ (market Sell) (limited Sell (fun l => l <=? p))).
  2: { intros o. unfold willing, market, limited. destruct (on_side Sell o), (limit_price o); done. }
  2: { intros o. unfold market, limited. destruct (on_side Sell o), (limit_price o); done. }
  rewrite <- (ty_levels _ _ Ht), Hm, sumZ_app, sumZ_cons, <- (ty_sells _ _ Ht). cbn [fst]. rewrite Z.leb_refl.
  rewrite (sum_if_all (fun e : Z * (Z * Z) => e.1 <=? p) (level_qty Sell) true m1), (sum_if_all (fun e : Z * (Z * Z) => e.1 <=? p) (level_qty Sell) false m2).
  - simpl. lia.
  - eapply Forall_impl; [exact H2|]. intros e He. simpl in *. lia.
  - eapply Forall_impl; [exact H1|]. intros e He. simpl in *. lia.
Qed.

Lemma demand_split m1 p v m2 :
  t_levels t = m1 ++ (p, v) :: m2 -> demand orders p = t_buys t - sumZ (level_qty Buy) m1.
Proof using Ht.
  intros Hm. pose proof (ty_sorted _ _ Ht) as Hs. rewrite Hm in Hs. apply sorted_split in Hs as [H1 H2].
  rewrite (ty_buys _ _ Ht), (volume_of_split (on_side Buy) (willing Buy p) (limited Buy (fun l => l <? p))).
  2: { intros o. unfold willing, limited. destruct (on_side Buy o), (limit_price o); simpl; try done. lia. }
  2: { intros o. unfold willing, limited. destruct (on_side Buy o), (limit_price o); simpl; try done. lia. }
  rewrite <- (ty_levels _ _ Ht), Hm, sumZ_app, sumZ_cons. cbn [fst]. rewrite Z.ltb_irrefl.
  rewrite (sum_if_all (fun e : Z * (Z * Z) => e.1 <? p) (level_qty Buy) true m1), (sum_if_all (fun e : Z * (Z * Z) => e.1 <? p) (level_qty Buy) false m2).
  - unfold demand. lia.
  - eapply Forall_impl; [exact H2|]. intros e He. simpl in *. lia.
  - eapply Forall_impl; [exact H1|]. intros e He. simpl in *. lia.
Qed.

Lemma candidates_spec m2 : forall m1,
  t_levels t = m1 ++ m2 ->
  candidates m2 (t_buys t - sumZ (level_qty Buy) m1) (t_sells t + sumZ (level_qty Sell) m1) =
  (fun e => clearing orders e.1) <$> m2.
Proof using Ht Hok.
  destruct Hok as [Hall Hsum].
  induction m2 as [|[p [ab sb]] m2 IH]; intros m1 Hm; [done|]. cbn [candidates].
  pose proof (supply_split _ _ _ _ Hm) as HS. pose proof (demand_split _ _ _ _ Hm) as HD. simpl in HS.
  pose proof (volume_of_nonneg (willing Sell p) _ Hall). pose proof (volume_of_le (willing Sell p) _ Hall).
  pose proof (volume_of_nonneg (willing Buy p) _ Hall). pose proof (volume_of_le (willing Buy p) _ Hall).
  fold (supply orders p) in *. fold (demand orders p) in *.
  pose proof (ty_nonneg _ _ Ht) as Hnn. rewrite Hm in Hnn. apply Forall_app in Hnn as [Hn1 Hn2].
  apply Forall_cons in Hn2 as [[Hab Hsb] _]. simpl in Hab, Hsb.
  assert (0 <= t_sells t) as Hts by (rewrite (ty_sells _ _ Ht); by apply volume_of_nonneg).
  assert (0 <= sumZ (level_qty Sell) m1) as Hm1 by (apply sumZ_nonneg; eapply Forall_impl; [exact Hn1|]; by intros e [? ?]).
  rewrite add64_small by lia.
  assert (ab <= demand orders p) as Hle.
  { rewrite HD. rewrite (ty_buys _ _ Ht). pose proof (ty_levels _ _ Ht Buy (fun _ => true)) as Hl.
    rewrite (sum_if_all (fun _ => true) (level_qty Buy) true) in Hl by (by apply Forall_forall). rewrite Hm, sumZ_app in Hl. simpl in Hl.
    assert (0 <= sumZ (level_qty Buy) m2) as Hm2.
    { apply sumZ_nonneg. pose proof (ty_nonneg _ _ Ht) as Hn. rewrite Hm in Hn. apply Forall_app in Hn as [_ Hn].
      apply Forall_cons in Hn as [_ Hn]. eapply Forall_impl; [exact Hn|]. by intros e [? ?]. }
    assert (volume_of (limited Buy (fun _ => true)) orders <= volume_of (on_side Buy) orders) as Hv.
    { apply volume_of_mono; [done|]. intros o _. unfold limited. by destruct (on_side Buy o). }
    lia. }
  rewrite sub64_small by lia. rewrite fmap_cons. f_equal.
  - unfold clearing. simpl. rewrite HD, HS. f_equal; lia.
  - rewrite <- (IH (m1 ++ [(p, (ab, sb))])) by (by rewrite <- app_assoc).
    rewrite !sumZ_app. simpl. f_equal; lia.
Qed.
End candidates.

(** ** The choice *)

(** Candidates that no criterion before the last tells apart. *)
Definition tied (reference : option Z) (r r' : AuctionResult) : Prop :=
  r_volume r' = r_volume r /\ Z.abs (r_imbalance r') = Z.abs (r_imbalance r) /\
  match reference with None => True | Some x => distance x r' = distance x r end.

(** The documented choice: most volume, then least imbalance, then closest to
    the reference, then the highest price under buy pressure and the lowest
    otherwise. *)
Record best (reference : option Z) (cs : list AuctionResult) (r : AuctionResult) : Prop := {
  best_in : r ∈ cs;
  best_volume : forall r', r' ∈ cs -> r_volume r' <= r_volume r;
  best_imbalance : forall r', r' ∈ cs -> r_volume r' = r_volume r -> Z.abs (r_imbalance r) <= Z.abs (r_imbalance r');
  best_distance : forall r', r' ∈ cs -> r_volume r' = r_volume r -> Z.abs (r_imbalance r') = Z.abs (r_imbalance r) ->
    match reference with None => True | Some x => distance x r <= distance x r' end;
  best_high : (forall x, x ∈ cs -> tied reference r x -> 0 < r_imbalance x) ->
    forall r', r' ∈ cs -> tied reference r r' -> r_price r' <= r_price r;
  best_low : (exists x, x ∈ cs /\ tied reference r x /\ r_imbalance x <= 0) ->
    forall r', r' ∈ cs -> tied reference r r' -> r_price r <= r_price r';
}.

Lemma foldl_min l : forall x, let v := foldl Z.min x l in (v = x \/ v ∈ l) /\ v <= x /\ Forall (fun y => v <= y) l.
Proof.
  induction l as [|y l IH]; intros x; simpl; [split_and!; [by left|lia|constructor]|].
  destruct (IH (Z.min x y)) as (H1 & H2 & H3). split_and!; [|lia|constructor; [lia|done]].
  destruct H1 as [->|H1]; [|right; by right]. destruct (Z.min_spec x y) as [[_ ->]|[_ ->]]; [by left|right; left].
Qed.

Lemma foldl_max l : forall x, let v := foldl Z.max x l in (v = x \/ v ∈ l) /\ x <= v /\ Forall (fun y => y <= v) l.
Proof.
  induction l as [|y l IH]; intros x; simpl; [split_and!; [by left|lia|constructor]|].
  destruct (IH (Z.max x y)) as (H1 & H2 & H3). split_and!; [|lia|constructor; [lia|done]].
  destruct H1 as [->|H1]; [|right; by right]. destruct (Z.max_spec x y) as [[_ ->]|[_ ->]]; [right; left|by left].
Qed.

Lemma minimum_spec {A} (f : A -> Z) l :
  l <> [] -> exists v, minimumZ (f <$> l) = Some v /\ (exists a, a ∈ l /\ f a = v) /\ forall a, a ∈ l -> v <= f a.
Proof.
  destruct l as [|x l]; [done|]. intros _. simpl. destruct (foldl_min (f <$> l) (f x)) as (H1 & H2 & H3).
  eexists. split; [done|]. split.
  - destruct H1 as [E|(a & E & Ha)%list_elem_of_fmap]; [exists x|exists a]; (split; [by constructor|symmetry; exact E]).
  - rewrite Forall_fmap, Forall_forall in H3. intros a [->|Ha]%elem_of_cons; [done|by apply H3].
Qed.

Lemma maximum_spec {A} (f : A -> Z) l :
  l <> [] -> exists v, maximumZ (f <$> l) = Some v /\ (exists a, a ∈ l /\ f a = v) /\ forall a, a ∈ l -> f a <= v.
Proof.
  destruct l as [|x l]; [done|]. intros _. simpl. destruct (foldl_max (f <$> l) (f x)) as (H1 & H2 & H3).
  eexists. split; [done|]. split.
  - destruct H1 as [E|(a & E & Ha)%list_elem_of_fmap]; [exists x|exists a]; (split; [by constructor|symmetry; exact E]).
  - rewrite Forall_fmap, Forall_forall in H3. intros a [->|Ha]%elem_of_cons; [done|by apply H3].
Qed.

Definition ascending (cs : list AuctionResult) : Prop := StronglySorted (fun a b => r_price a <= r_price b) cs.

Lemma ascending_filter (P : AuctionResult -> Prop) `{forall x, Decision (P x)} cs :
  ascending cs -> ascending (filter P cs).
Proof.
  induction 1 as [|r cs Hs IH Hf]; [constructor|]. rewrite filter_cons. case_decide; [|done].
  constructor; [done|]. rewrite Forall_forall in Hf |- *. intros x [_ Hx]%list_elem_of_filter. by apply Hf.
Qed.

Lemma ascending_head r cs x : ascending (r :: cs) -> x ∈ r :: cs -> r_price r <= r_price x.
Proof.
  intros Hs. apply StronglySorted_inv in Hs as [_ Hf]. rewrite Forall_forall in Hf.
  intros [->|Hx]%elem_of_cons; [lia|by apply Hf].
Qed.

Lemma ascending_last r cs x : ascending cs -> last cs = Some r -> x ∈ cs -> r_price x <= r_price r.
Proof.
  induction 1 as [|y cs Hs IH Hf]; [done|]. destruct cs as [|z cs]; simpl.
  - intros [= ->] Hx%list_elem_of_singleton. subst. lia.
  - intros Hl [->|Hx]%elem_of_cons; [|by apply IH]. rewrite Forall_forall in Hf.
    apply Hf. simpl in Hl. by apply last_Some_elem_of in Hl.
Qed.

(** Keeping the candidates with the least value of a criterion. *)
Lemma retain_min (f : AuctionResult -> Z) cs :
  cs <> [] -> ascending cs ->
  exists v, minimumZ (f <$> cs) = Some v /\ retain f v cs <> [] /\ ascending (retain f v cs) /\
    forall r, r ∈ retain f v cs <-> r ∈ cs /\ forall r', r' ∈ cs -> f r <= f r'.
Proof.
  intros Hne Hs. destruct (minimum_spec f cs Hne) as (v & Hv & (a & Ha & Hfa) & Hmin). exists v.
  assert (forall r, r ∈ retain f v cs <-> r ∈ cs /\ forall r', r' ∈ cs -> f r <= f r') as Hiff.
  { intros r. unfold retain. rewrite list_elem_of_filter. split.
    - intros [Hr Hin]. split; [done|]. intros r' Hr'. rewrite Hr. by apply Hmin.
    - intros [Hin Hr]. split; [|done]. specialize (Hr a Ha). specialize (Hmin r Hin). lia. }
  split_and!; [done| |by apply ascending_filter|done].
  intros E. assert (a ∈ retain f v cs) as H by (apply list_elem_of_filter; done). rewrite E in H. by apply not_elem_of_nil in H.
Qed.

(** The last criterion picks an end of the remaining candidates. *)
Lemma pick_end cs :
  cs <> [] -> ascending cs ->
  exists r, (if forallb (fun r => r_imbalance r >? 0) cs then expect (last cs) else expect (head cs)) = Done r /\ r ∈ cs /\
    ((forall x, x ∈ cs -> 0 < r_imbalance x) -> forall x, x ∈ cs -> r_price x <= r_price r) /\
    ((exists x, x ∈ cs /\ r_imbalance x <= 0) -> forall x, x ∈ cs -> r_price r <= r_price x).
Proof.
  intros Hne Hs. destruct (forallb (fun r => r_imbalance r >? 0) cs) eqn:Hall.
  - destruct (last cs) as [r|] eqn:Hl; [|by apply last_None in Hl]. exists r. split_and!; [done|by apply last_Some_elem_of|..].
    + intros _ x Hx. by apply (ascending_last r cs).
    + intros (x & Hx & Hi). rewrite forallb_forall in Hall. apply list_elem_of_In, Hall in Hx. propify. lia.
  - destruct cs as [|r cs]; [done|]. exists r. split_and!; [done|left|..].
    + intros Hpos. exfalso. assert (forallb (fun r => r_imbalance r >? 0) (r :: cs) = true); [|congruence].
      apply forallb_forall. intros x Hx%list_elem_of_In. apply Hpos in Hx. lia.
    + intros _ x Hx. by apply (ascending_head r cs).
Qed.

Lemma choose_best reference maxv cs :
  ascending cs -> (exists a, a ∈ cs /\ r_volume a = maxv) -> (forall r, r ∈ cs -> r_volume r <= maxv) ->
  exists r, choose reference maxv cs = Done r /\ best reference cs r /\ r_volume r = maxv.
Proof.
  intros Hs (a & Ha & Hva) Hmax. unfold choose. set (cs1 := retain r_volume maxv cs).
  assert (forall r, r ∈ cs1 <-> r ∈ cs /\ r_volume r = maxv) as H1.
  { intros r. unfold cs1, retain. rewrite list_elem_of_filter. naive_solver. }
  assert (cs1 <> []) as Hne1 by (intros E; assert (a ∈ cs1) as H by (by apply H1); rewrite E in H; by apply not_elem_of_nil in H).
  destruct (retain_min (fun r => Z.abs (r_imbalance r)) cs1 Hne1 (ascending_filter _ _ Hs)) as (v2 & -> & Hne2 & Hs2 & H2).
  simpl obind. set (cs2 := retain _ v2 cs1) in *.
  assert (exists cs3, (match reference with None => Done cs2 | Some x => let* closest := expect (minimumZ (distance x <$> cs2)) in
    Done (retain (distance x) closest cs2) end) = Done cs3 /\ cs3 <> [] /\ ascending cs3 /\
    forall r, r ∈ cs3 <-> r ∈ cs2 /\ match reference with None => True | Some x => forall r', r' ∈ cs2 -> distance x r <= distance x r' end)
    as (cs3 & -> & Hne3 & Hs3 & H3).
  { destruct reference as [x|]; [|exists cs2; naive_solver].
    destruct (retain_min (distance x) cs2 Hne2 Hs2) as (v3 & -> & Hne3 & Hs3 & H3). simpl. eauto. }
  simpl obind. destruct (pick_end cs3 Hne3 Hs3) as (r & -> & Hr & Hhigh & Hlow). exists r. split; [done|].
  apply H3 in Hr as Hr3. destruct Hr3 as [Hr2 Hdist]. apply H2 in Hr2 as Hr2'. destruct Hr2' as [Hr1 Himb].
  apply H1 in Hr1 as Hr1'. destruct Hr1' as [Hr0 Hvol].
  assert (forall x, x ∈ cs3 <-> x ∈ cs /\ tied reference r x) as H.
  { intros x. rewrite H3, H2, H1. unfold tied. split.
    - intros [[[Hx Hxv] Hxi] Hxd]. split; [done|]. split; [congruence|]. split.
      + pose proof (Hxi r Hr1). pose proof (Himb x ltac:(by apply H1)). lia.
      + destruct reference as [y|]; [|done]. assert (x ∈ cs2) as Hx2 by (apply H2; split; [by apply H1|done]).
        pose proof (Hxd r Hr2). pose proof (Hdist x Hx2). lia.
    - intros (Hx & Hxv & Hxi & Hxd). assert (x ∈ cs1) as Hx1 by (apply H1; split; [done|congruence]).
      split_and!; [done|congruence|intros; rewrite Hxi; by apply Himb|].
      destruct reference as [y|]; [|done]. intros r' Hr'. rewrite Hxd. by apply Hdist. }
  split; [|done]. split.
  - done.
  - intros r' Hr'. rewrite Hvol. by apply Hmax.
  - intros r' Hr' Hv. apply Himb, H1. split; [done|congruence].
  - intros r' Hr' Hv Hi. destruct reference as [y|]; [|done]. apply Hdist, H2. split; [apply H1; split; [done|congruence]|].
    intros x Hx. rewrite Hi. by apply Himb.
  - intros Hpos r' Hr' Ht. apply Hhigh; [|by apply H]. intros x Hx. apply H in Hx as [? ?]. by apply Hpos.
  - intros (x & Hx & Ht & Hi) r' Hr' Ht'. apply Hlow; [|by apply H]. exists x. split; [by apply H|done].
Qed.

(** ** Every price *)

Lemma elem_of_limits orders o p : o ∈ orders -> limit_price o = Some p -> p ∈ limits orders.
Proof. intros Ho Hp. apply list_elem_of_omap. eauto. Qed.

(** No price trades more than some limit price does. *)
Lemma limit_dominates orders p :
  auction_ok orders -> limits orders <> [] ->
  exists l, l ∈ limits orders /\ r_volume (clearing orders p) <= r_volume (clearing orders l).
Proof.
  intros [Hall _] Hne. simpl.
  assert (exists l, l ∈ limits orders /\ (forall x, x ∈ limits orders -> p <= x -> l <= x) /\
            (forall x, x ∈ limits orders -> x <= p -> x <= l) /\ (forall x, x ∈ limits orders -> p <= x -> p <= l))
    as (l & Hl & H1 & H2 & H3).
  { destruct (decide (filter (fun x => p <= x) (limits orders) = [])) as [E|E].
    - assert (forall x, x ∈ limits orders -> x < p) as Hlt.
      { intros x Hx. destruct (Z.le_gt_cases p x) as [Hle|]; [|done].
        assert (x ∈ filter (fun x => p <= x) (limits orders)) as H by (by apply list_elem_of_filter).
        rewrite E in H. by apply not_elem_of_nil in H. }
      destruct (maximum_spec (fun x => x) (limits orders) Hne) as (v & _ & (l & Hl & Hv) & Hmax). exists l. subst v.
      split_and!; [done|..]; intros x Hx Hp; specialize (Hlt x Hx); specialize (Hmax x Hx); simpl in *; lia.
    - destruct (minimum_spec (fun x => x) _ E) as (v & _ & (l & Hl & Hv) & Hmin). subst v.
      apply list_elem_of_filter in Hl as [Hpl Hl]. exists l. split_and!; [done|..]; intros x Hx Hp; simpl in *; try lia.
      apply Hmin. by apply list_elem_of_filter. }
  exists l. split; [done|]. unfold demand, supply.
  assert (volume_of (willing Buy p) orders <= volume_of (willing Buy l) orders) as HD.
  { apply volume_of_mono; [done|]. intros o Ho. unfold willing. destruct (on_side Buy o); [|done]. simpl.
    destruct (limit_price o) as [x|] eqn:Hx; [|done]. pose proof (elem_of_limits _ _ _ Ho Hx) as Hin.
    intros Hp. propify. apply Z.leb_le. by apply H1. }
  assert (volume_of (willing Sell p) orders <= volume_of (willing Sell l) orders) as HS.
  { apply volume_of_mono; [done|]. intros o Ho. unfold willing. destruct (on_side Sell o); [|done]. simpl.
    destruct (limit_price o) as [x|] eqn:Hx; [|done]. pose proof (elem_of_limits _ _ _ Ho Hx) as Hin.
    intros Hp. propify. apply Z.leb_le. by apply H2. }
  lia.
Qed.

(** No limit price: everybody trades at every price. *)
Lemma market_only orders s p : limits orders = [] -> volume_of (willing s p) orders = volume_of (on_side s) orders.
Proof.
  intros Hl. unfold volume_of. apply sumZ_ext, Forall_forall. intros o Ho. unfold willing.
  destruct (limit_price o) as [x|] eqn:Hx; [|by rewrite andb_true_r].
  pose proof (elem_of_limits _ _ _ Ho Hx) as H. rewrite Hl in H. by apply not_elem_of_nil in H.
Qed.

Definition no_cross (orders : list AuctionOrder) : AuctionResult :=
  {| r_price := 0; r_volume := 0; r_imbalance := volume_of (on_side Buy) orders - volume_of (on_side Sell) orders |}.

(** How an auction can end. *)
Inductive uncross_case (orders : list AuctionOrder) (reference : option Z) : AuctionResult -> Prop :=
| uncross_market p :
    limits orders = [] -> reference = Some p -> 0 < r_volume (clearing orders p) ->
    uncross_case orders reference (clearing orders p)
| uncross_no_price :
    limits orders = [] -> reference = None \/ (forall p, r_volume (clearing orders p) = 0) ->
    uncross_case orders reference (no_cross orders)
| uncross_no_volume :
    limits orders <> [] -> (forall p, r_volume (clearing orders p) = 0) ->
    uncross_case orders reference (no_cross orders)
| uncross_best r :
    0 < r_volume r -> best reference (clearing orders <$> limits orders) r ->
    (forall p, r_volume (clearing orders p) <= r_volume r) ->
    uncross_case orders reference r.

Lemma clearing_nonneg orders p : auction_ok orders -> 0 <= r_volume (clearing orders p).
Proof.
  intros [Hall _]. simpl. pose proof (volume_of_nonneg (willing Buy p) _ Hall).
  pose proof (volume_of_nonneg (willing Sell p) _ Hall). unfold demand, supply. lia.
Qed.

Lemma tallied_limits_nil orders t : tallied orders t -> is_nil (t_levels t) = true <-> limits orders = [].
Proof.
  intros Ht. rewrite is_nil_true. split.
  - intros E. destruct (limits orders) as [|p l] eqn:Hl; [done|]. exfalso.
    pose proof (proj1 (ty_keys _ _ Ht p)) as H. rewrite E, Hl in H. destruct H as [? ?]; [left|done].
  - intros E. destruct (t_levels t) as [|[p v] m] eqn:Hm; [done|]. exfalso.
    pose proof (proj2 (ty_keys _ _ Ht p)) as H. rewrite E, Hm in H. apply (not_elem_of_nil p), H.
    exists v. apply bt_get_elem; [rewrite <- Hm; apply (ty_sorted _ _ Ht)|left].
Qed.

(** The candidates of the code are the limit prices, ascending. *)
Lemma candidates_of orders t :
  tallied orders t -> auction_ok orders ->
  let cs := candidates (t_levels t) (t_buys t) (t_sells t) in
  ascending cs /\ forall r, r ∈ cs <-> r ∈ clearing orders <$> limits orders.
Proof.
  intros Ht Hok. pose proof (candidates_spec orders t Ht Hok (t_levels t) [] eq_refl) as Hc.
  simpl in Hc. rewrite Z.sub_0_r, Z.add_0_r in Hc. cbv zeta. rewrite Hc. split.
  - pose proof (ty_sorted _ _ Ht) as Hs. unfold bt_sorted in Hs. clear -Hs.
    induction (t_levels t) as [|e m IH]; [constructor|]. apply StronglySorted_inv in Hs as [Hs Hf]. rewrite fmap_cons. constructor; [by apply IH|].
    apply Forall_fmap. apply Forall_fmap in Hf. eapply Forall_impl; [exact Hf|]. intros x Hx. simpl in *. propify. lia.
  - intros r. rewrite !list_elem_of_fmap. split.
    + intros ([p v] & -> & Hm). exists p. split; [done|]. apply (ty_keys _ _ Ht). exists v.
      by apply bt_get_elem; [apply (ty_sorted _ _ Ht)|].
    + intros (p & -> & [v Hv]%(ty_keys _ _ Ht)). exists (p, v). split; [done|]. by apply bt_get_Some_elem.
Qed.

Lemma best_ext reference cs cs' r : (forall x, x ∈ cs <-> x ∈ cs') -> best reference cs r -> best reference cs' r.
Proof.
  intros H [B1 B2 B3 B4 B5 B6]. split.
  - by apply H.
  - intros r' Hr'. by apply B2, H.
  - intros r' Hr'. by apply B3, H.
  - intros r' Hr'. by apply B4, H.
  - intros Hp r' Hr'. apply B5; [|by apply H]. intros x Hx. by apply Hp, H.
  - intros (x & Hx & Ht) r' Hr'. apply B6; [|by apply H]. exists x. split; [by apply H|done].
Qed.

Lemma no_cross_tally orders :
  auction_ok orders ->
  {| r_price := 0; r_volume := 0; r_imbalance := t_buys (tally orders) - t_total_sells (tally orders) |} = no_cross orders.
Proof.
  intros Hok. pose proof (tally_spec _ Hok) as Ht. unfold no_cross. by rewrite (ty_buys _ _ Ht), (ty_total _ _ Ht).
Qed.

(** Without limit orders. *)
Lemma uncross_without_limits orders reference :
  auction_ok orders -> limits orders = [] ->
  exists r, uncross orders reference = Done r /\ uncross_case orders reference r.
Proof.
  intros Hok Hn. pose proof (tally_spec _ Hok) as Ht. unfold uncross. rewrite (no_cross_tally _ Hok).
  rewrite (proj2 (tallied_limits_nil _ _ Ht) Hn). eexists. split; [done|].
  assert (t_sells (tally orders) = volume_of (on_side Sell) orders) as Hs.
  { rewrite (ty_sells _ _ Ht). unfold volume_of. apply sumZ_ext, Forall_forall. intros o Ho. unfold market.
    destruct (limit_price o) as [x|] eqn:Hx; [|by rewrite andb_true_r].
    pose proof (elem_of_limits _ _ _ Ho Hx) as H. rewrite Hn in H. by apply not_elem_of_nil in H. }
  rewrite (ty_buys _ _ Ht), Hs.
  assert (forall p, clearing orders p =
    {| r_price := p; r_volume := Z.min (volume_of (on_side Buy) orders) (volume_of (on_side Sell) orders);
       r_imbalance := r_imbalance (no_cross orders) |}) as Hc.
  { intros p. unfold clearing, demand, supply. by rewrite !market_only. }
  destruct reference as [p|]; [|by apply uncross_no_price; [|left]].
  destruct (Z.gtb_spec (Z.min (volume_of (on_side Buy) orders) (volume_of (on_side Sell) orders)) 0) as [Hgt|Hle].
  - rewrite <- Hc. apply uncross_market; [done|done|]. rewrite Hc. simpl. lia.
  - apply uncross_no_price; [done|]. right. intros q. pose proof (clearing_nonneg orders q Hok) as H.
    rewrite Hc in H |- *. simpl in *. lia.
Qed.

(** With limit orders. *)
Lemma uncross_with_limits orders reference :
  auction_ok orders -> limits orders <> [] ->
  exists r, uncross orders reference = Done r /\ uncross_case orders reference r.
Proof.
  intros Hok Hlim. pose proof (tally_spec _ Hok) as Ht. unfold uncross. rewrite (no_cross_tally _ Hok).
  destruct (is_nil (t_levels (tally orders))) eqn:Hn; [by apply (tallied_limits_nil _ _ Ht) in Hn|].
  destruct (candidates_of orders (tally orders) Ht Hok) as [Hasc Hiff].
  set (cs := candidates _ _ _) in *.
  assert (cs <> []) as Hne.
  { destruct (limits orders) as [|p l] eqn:Hl; [done|]. intros E.
    assert (clearing orders p ∈ cs) as H by (apply Hiff; rewrite fmap_cons; left).
    rewrite E in H. by apply not_elem_of_nil in H. }
  destruct (maximum_spec r_volume cs Hne) as (maxv & -> & (a & Ha & Hva) & Hmax). cbn [obind expect].
  assert (forall p, r_volume (clearing orders p) <= maxv) as Hall.
  { intros p. destruct (limit_dominates orders p Hok Hlim) as (l & Hl & Hle). etrans; [exact Hle|].
    apply Hmax, Hiff. by apply list_elem_of_fmap_2. }
  assert (0 <= maxv) as Hnn.
  { apply Hiff, list_elem_of_fmap in Ha as (p & -> & _). rewrite <- Hva. by apply clearing_nonneg. }
  destruct (Z.eqb_spec maxv 0) as [->|Hpos].
  - eexists. split; [done|]. apply uncross_no_volume; [done|]. intros p. specialize (Hall p).
    pose proof (clearing_nonneg orders p Hok). lia.
  - destruct (choose_best reference maxv cs Hasc) as (r & -> & Hb & Hv); [eauto|done|].
    exists r. split; [done|]. rewrite <- Hv in Hall. apply uncross_best; [lia|by apply (best_ext _ cs)|done].
Qed.

Lemma uncross_cases orders reference :
  auction_ok orders -> exists r, uncross orders reference = Done r /\ uncross_case orders reference r.
Proof.
  intros Hok. destruct (decide (limits orders = [])); [by apply uncross_without_limits|by apply uncross_with_limits].
Qed.

(** C13: The clearing price of an auction is right. [uncross] never panics. With
    limit orders on the book its price executes at least the volume of every
    other price, limit or not, and among the limit prices that execute as much
    it is one of least imbalance, then closest to the reference price, then
    highest under buy pressure and lowest otherwise; the volume and imbalance it
    reports are those of its price. Without limit orders it clears at the
    reference price. When nothing can trade it reports no volume. *)
Theorem uncross_correct orders reference :
  auction_ok orders ->
  exists r, uncross orders reference = Done r /\ uncross_case orders reference r.
Proof. apply uncross_cases. Qed.

(** A call auction: two buys and two sells that cross, a market buy. *)
Definition sample_auction : list AuctionOrder :=
  [ {| a_id := "b1"; a_side := Buy; limit_price := Some 102; a_quantity := 30; a_seq := 1 |};
    {| a_id := "s1"; a_side := Sell; limit_price := Some 99; a_quantity := 20; a_seq := 2 |};
    {| a_id := "b2"; a_side := Buy; limit_price := Some 100; a_quantity := 20; a_seq := 3 |};
    {| a_id := "s2"; a_side := Sell; limit_price := Some 101; a_quantity := 25; a_seq := 4 |};
    {| a_id := "m1"; a_side := Buy; limit_price := None; a_quantity := 5; a_seq := 5 |} ].

Lemma sample_auction_ok : auction_ok sample_auction.
Proof. split; [repeat constructor|]; vm_compute; intuition discriminate. Qed.

Lemma uncross_correct_witness :
  uncross sample_auction (Some 100) = Done {| r_price := 101; r_volume := 35; r_imbalance := -10 |} /\
  exists r, uncross sample_auction (Some 100) = Done r /\ uncross_case sample_auction (Some 100) r.
Proof. split; [vm_compute; reflexivity|]. apply uncross_correct, sample_auction_ok. Defined.

(** ** Order of arrival *)

Lemma auction_ok_perm orders orders' : Permutation orders orders' -> auction_ok orders -> auction_ok orders'.
Proof. intros Hp [H1 H2]. split; [by rewrite <- Hp|by rewrite <- Hp]. Qed.

Lemma tally_perm orders orders' : Permutation orders orders' -> auction_ok orders -> tally orders = tally orders'.
Proof.
  intros Hp Hok. pose proof (tally_spec _ Hok) as Ht. pose proof (tally_spec _ (auction_ok_perm _ _ Hp Hok)) as Ht'.
  destruct (tally orders) as [lv b s ts] eqn:E. destruct (tally orders') as [lv' b' s' ts'] eqn:E'.
  assert (forall test, volume_of test orders = volume_of test orders') as Hv.
  { intros test. unfold volume_of. by rewrite Hp. }
  pose proof (ty_buys _ _ Ht). pose proof (ty_buys _ _ Ht'). pose proof (ty_sells _ _ Ht). pose proof (ty_sells _ _ Ht').
  pose proof (ty_total _ _ Ht). pose proof (ty_total _ _ Ht'). rewrite Hv in *. simpl in *. subst. f_equal.
  apply bt_ext; [apply (ty_sorted _ _ Ht)|apply (ty_sorted _ _ Ht')|]. intros p.
  pose proof (ty_keys _ _ Ht p) as K. pose proof (ty_keys _ _ Ht' p) as K'. simpl in *.
  destruct (default (0, 0) (bt_get p lv)) as [x y] eqn:G. destruct (default (0, 0) (bt_get p lv')) as [x' y'] eqn:G'.
  apply (tallied_get orders _ p x y Ht) in G as G1. apply (tallied_get orders' _ p x' y' Ht') in G' as G1'.
  rewrite !Hv in G1. destruct G1 as [-> ->]. destruct G1' as [-> ->].
  assert (is_Some (bt_get p lv) <-> is_Some (bt_get p lv')) as K''.
  { rewrite <- K, <- K'. unfold limits. by rewrite Hp. }
  destruct (bt_get p lv) as [v|], (bt_get p lv') as [v'|]; simpl in *; [congruence|..|done].
  - destruct (proj1 K'') as [? ?]; [eauto|done].
  - destruct (proj2 K'') as [? ?]; [eauto|done].
Qed.

(** The clearing price, volume and imbalance do not depend on the order in
    which the auction's orders arrived. *)
Theorem uncross_order_independent orders orders' reference :
  Permutation orders orders' -> auction_ok orders -> uncross orders reference = uncross orders' reference.
Proof. intros Hp Hok. unfold uncross. by rewrite (tally_perm _ _ Hp Hok). Qed.

Lemma uncross_order_independent_witness :
  uncross sample_auction (Some 100) = uncross (rev sample_auction) (Some 100).
Proof. apply uncross_order_independent; [apply Permutation_rev|apply sample_auction_ok]. Defined.
