(* ===== verification/AuctionAlloc.v ===== *)
(** * The allocation

    The allocation of a call auction: [allocate] of engine/auction.rs walks both
    sides in market, price, time and id priority and gives every order what the
    orders ahead of it leave of the auction's volume. *)

From Stdlib Require Import OrdersEx.
From stdpp Require Import sorting.
From S2P Require Import Prelude BTree Order Auction AuctionPrice.


(** ** Comparators *)

(** What [sort_by] asks of the closure it is given: a total order. *)
Class Lawful {A} (cmp : A -> A -> comparison) : Prop := {
  cmp_opp a b : cmp b a = CompOpp (cmp a b);
  cmp_eq_l a b c : cmp a b = Eq -> cmp a c = cmp b c;
  cmp_lt_trans a b c : cmp a b = Lt -> cmp b c = Lt -> cmp a c = Lt;
}.

Definition cmp_leb {A} (cmp : A -> A -> comparison) (a b : A) : bool := match cmp a b with Gt => false | _ => true end.

(** ** Reference allocation *)

(** A queue served in order: every order gets what it still asks, [used] being
    what the first one has, while the volume lasts. *)
Fixpoint serve (volume used : Z) (q : list AuctionOrder) : list (string * Z) :=
  match q with
  | [] => []
  | o :: q => let x := Z.min (a_quantity o - used) volume in (a_id o, x) :: serve (volume - x) 0 q
  end.

Definition served (i : string) (l : list (string * Z)) : Z := sumZ (fun e => if bool_decide (e.1 = i) then e.2 else 0) l.

(** What an id trades in a list of fills. *)
Definition fill_id (s : AuctionSide) (f : AuctionFill) : string := match s with Buy => af_buy_id f | Sell => af_sell_id f end.

Definition traded (s : AuctionSide) (i : string) (fills : list AuctionFill) : Z :=
  sumZ (fun f => if bool_decide (fill_id s f = i) then af_quantity f else 0) fills.

(** The state of the loop: [bu] of the first buy is used, [su] of the first sell,
    and both sides can serve the remaining volume. *)
Record alloc_ok (volume : Z) (q : list AuctionOrder) (used : Z) : Prop := {
  al_orders : Forall (fun o => 0 < a_quantity o <= u32_max) q;
  al_used : 0 <= used /\ match q with [] => used = 0 | o :: _ => used < a_quantity o end;
  al_volume : volume <= sumZ a_quantity q - used;
}.

(** A fill of the allocation: at the auction's price, between two orders of the queues. *)
Record alloc_fill_ok (price : Z) (buys sells : list AuctionOrder) (f : AuctionFill) : Prop := {
  fo_price : af_price f = price;
  fo_quantity : 0 < af_quantity f;
  fo_buy : exists o, o ∈ buys /\ a_id o = af_buy_id f;
  fo_sell : exists o, o ∈ sells /\ a_id o = af_sell_id f;
}.

(** Priority in an auction: market orders, then the better price, then the
    earlier arrival, then the smaller id. *)
Inductive ahead (s : AuctionSide) (a b : AuctionOrder) : Prop :=
| ahead_market p : limit_price a = None -> limit_price b = Some p -> ahead s a b
| ahead_price pa pb : limit_price a = Some pa -> limit_price b = Some pb -> (match s with Buy => pb < pa | Sell => pa < pb end) -> ahead s a b
| ahead_time : limit_price a = limit_price b -> a_seq a < a_seq b -> ahead s a b
| ahead_id : limit_price a = limit_price b -> a_seq a = a_seq b -> String.compare (a_id a) (a_id b) = Lt -> ahead s a b.

(** The orders of a side that trade at a price. *)
Definition trades_at (orders : list AuctionOrder) (price : Z) (s : AuctionSide) (o : AuctionOrder) : Prop :=
  o ∈ orders /\ willing s price o = true /\ 0 < a_quantity o.

(** Those of them that are ahead of an order. *)
Definition all_ahead (orders : list AuctionOrder) (price : Z) (s : AuctionSide) (o : AuctionOrder) (before : list AuctionOrder) : Prop :=
  NoDup before /\ forall a, a ∈ before <-> trades_at orders price s a /\ ahead s a o.

(** What an order is due of a volume that is given out in priority: nothing if
    it does not accept the price, or what those ahead of it leave. *)
Definition due (orders : list AuctionOrder) (price volume : Z) (s : AuctionSide) (o : AuctionOrder) (quantity : Z) : Prop :=
  (~ trades_at orders price s o -> quantity = 0) /\
  (trades_at orders price s o -> exists before, all_ahead orders price s o before /\
     quantity = Z.max 0 (Z.min (a_quantity o) (volume - sumZ a_quantity before))).

(** A fill at the auction's price between a buy and a sell order that accept it. *)
Record auction_fill (orders : list AuctionOrder) (price : Z) (f : AuctionFill) : Prop := {
  af_at : af_price f = price;
  af_some : 0 < af_quantity f;
  af_buyer : exists o, trades_at orders price Buy o /\ a_id o = af_buy_id f;
  af_seller : exists o, trades_at orders price Sell o /\ a_id o = af_sell_id f;
}.

(** ** Comparators are lawful *)

Section Lawful.
Context {A : Type} (cmp : A -> A -> comparison) `{!Lawful cmp}.

Lemma cmp_eq_r a b c : cmp b c = Eq -> cmp a b = cmp a c.
Proof using Lawful0.
  intros H. rewrite (cmp_opp b a), (cmp_opp c a). f_equal. by apply cmp_eq_l.
Qed.

Lemma cmp_leb_total a b : cmp_leb cmp a b = false -> cmp_leb cmp b a = true.
Proof using Lawful0. unfold cmp_leb. rewrite (cmp_opp a b). by destruct (cmp a b). Qed.

Lemma cmp_leb_trans a b c : cmp_leb cmp a b = true -> cmp_leb cmp b c = true -> cmp_leb cmp a c = true.
Proof using Lawful0.
  unfold cmp_leb. destruct (cmp a b) eqn:E1; [|destruct (cmp b c) eqn:E2|done].
  - by rewrite (cmp_eq_l _ _ c E1).
  - by rewrite <- (cmp_eq_r a _ _ E2), E1.
  - by rewrite (cmp_lt_trans _ _ _ E1 E2).
  - done.
Qed.

Lemma cmp_leb_antisym a b : cmp_leb cmp a b = true -> cmp_leb cmp b a = true -> cmp a b = Eq.
Proof using Lawful0. unfold cmp_leb. rewrite (cmp_opp a b). by destruct (cmp a b). Qed.

#[export] Instance lawful_flip : Lawful (fun a b => cmp b a).
Proof using Lawful0.
  split; intros.
  - apply cmp_opp.
  - symmetry. apply cmp_eq_r. done.
  - by eapply cmp_lt_trans.
Qed.

#[export] Instance lawful_on {B} (f : B -> A) : Lawful (fun a b => cmp (f a) (f b)).
Proof using Lawful0.
  split; intros; [apply cmp_opp|by apply cmp_eq_l|by eapply cmp_lt_trans].
Qed.

#[export] Instance lawful_then (cmp' : A -> A -> comparison) `{!Lawful cmp'} :
  Lawful (fun a b => then_cmp (cmp a b) (cmp' a b)).
Proof using Lawful0.
  split; unfold then_cmp.
  - intros a b. rewrite (cmp_opp a b), (cmp_opp (cmp := cmp') a b). by destruct (cmp a b).
  - intros a b c. destruct (cmp a b) eqn:E; [|done..]. intros E'.
    by rewrite (cmp_eq_l _ _ c E), (cmp_eq_l (cmp := cmp') _ _ c E').
  - intros a b c. destruct (cmp a b) eqn:E1; [|destruct (cmp b c) eqn:E2|done].
    + rewrite (cmp_eq_l _ _ c E1). destruct (cmp b c); [|done..]. apply cmp_lt_trans.
    + by rewrite <- (cmp_eq_r a _ _ E2), E1.
    + by rewrite (cmp_lt_trans _ _ _ E1 E2).
    + done.
Qed.

End Lawful.

#[export] Instance lawful_Z : Lawful Z.compare.
Proof.
  split.
  - intros a b. apply Z.compare_antisym.
  - intros a b c E. by apply Z.compare_eq in E as ->.
  - intros a b c. apply Z.lt_trans.
Qed.

#[export] Instance lawful_bool : Lawful bool_cmp.
Proof. split; [by intros [] []|by intros [] [] []|by intros [] [] []]. Qed.

#[export] Instance lawful_option : Lawful option_cmp.
Proof.
  split.
  - intros [a|] [b|]; simpl; [apply cmp_opp|done..].
  - intros [a|] [b|] [c|]; simpl; try done. apply cmp_eq_l.
  - intros [a|] [b|] [c|]; simpl; try done. apply cmp_lt_trans.
Qed.

#[export] Instance lawful_string : Lawful String.compare.
Proof.
  split.
  - intros a b. apply String.compare_antisym.
  - intros a b c E. by apply String.compare_eq_iff in E as ->.
  - intros a b c E1 E2. exact (StrictOrder_Transitive (R := String_as_OT.lt) a b c E1 E2).
Qed.

#[export] Instance lawful_priority s : Lawful (priority_cmp s).
Proof.
  unfold priority_cmp. apply lawful_then; [apply (lawful_on bool_cmp)|]. apply lawful_then.
  - destruct s; [apply (lawful_flip (fun a b => option_cmp (limit_price a) (limit_price b)))|]; apply (lawful_on option_cmp).
  - apply lawful_then; [apply (lawful_on Z.compare)|apply (lawful_on String.compare)].
Qed.

Lemma priority_leb_cmp s : priority_leb s = cmp_leb (priority_cmp s).
Proof. done. Qed.

(** Orders that tie in priority have the same id. *)
Lemma priority_eq_id s a b : priority_cmp s a b = Eq -> a_id a = a_id b.
Proof.
  unfold priority_cmp, then_cmp. destruct (bool_cmp _ _); [|done..].
  destruct (match s with Buy => _ | Sell => _ end); [|done..]. destruct (Z.compare _ _); [|done..].
  apply String.compare_eq_iff.
Qed.

(** The comparator is that priority. *)
Lemma priority_ahead s a b : priority_cmp s a b = Lt <-> ahead s a b.
Proof.
  unfold priority_cmp, then_cmp, bool_cmp, option_cmp. split.
  - destruct (limit_price a) as [pa|] eqn:Ea, (limit_price b) as [pb|] eqn:Eb; cbn [is_some]; try done; [|by intros _; eapply ahead_market|].
    + assert (match s with Buy => Z.compare pb pa | Sell => Z.compare pa pb end = Lt -> match s with Buy => pb < pa | Sell => pa < pb end) as Hp.
      { destruct s; intros H; by apply Z.compare_lt_iff in H. }
      assert (match s with Buy => Z.compare pb pa | Sell => Z.compare pa pb end = Eq -> pa = pb) as He.
      { destruct s; intros H; by apply Z.compare_eq in H. }
      destruct s; (destruct (Z.compare _ _) eqn:Ec in |- *; [|by intros _; eapply ahead_price; [..|apply Hp]|done]);
        specialize (He Ec); subst; destruct (Z.compare_spec (a_seq a) (a_seq b)); intros Hc; try done;
        solve [apply ahead_id; congruence | apply ahead_time; [congruence|done]].
    + destruct s; destruct (Z.compare_spec (a_seq a) (a_seq b)); intros Hc; try done; solve [apply ahead_id; congruence | apply ahead_time; [congruence|done]].
  - intros [p -> ->|pa pb -> -> H| -> H| -> H1 H2]; cbn [is_some]; [done|..].
    + destruct s; by apply Z.compare_lt_iff in H as ->.
    + apply Z.compare_lt_iff in H as ->. by destruct (limit_price b), s; cbn; rewrite ?Z.compare_refl.
    + rewrite H1, Z.compare_refl, H2. by destruct (limit_price b), s; cbn; rewrite ?Z.compare_refl.
Qed.

(** ** The queues *)

#[export] Instance list_filter_Permutation {A} (f : A -> bool) : Proper (Permutation ==> Permutation) (List.filter f).
Proof.
  induction 1 as [|x l l' _ IH|x y l|l1 l2 l3 _ IH1 _ IH2]; simpl; [done|..].
  - by destruct (f x); rewrite IH.
  - destruct (f x), (f y); by constructor || done.
  - by etrans.
Qed.

Lemma queue_perm orders p s : queue orders p s ≡ₚ List.filter (eligible s p) orders.
Proof. apply sort_stable_perm. Qed.

Lemma elem_of_queue orders p s o : o ∈ queue orders p s <-> o ∈ orders /\ eligible s p o = true.
Proof. rewrite queue_perm, !list_elem_of_In, List.filter_In. done. Qed.

Lemma queue_sorted orders p s : StronglySorted (fun a b => priority_leb s a b = true) (queue orders p s).
Proof. apply sort_stable_sorted; [apply (cmp_leb_total (priority_cmp s))|apply (cmp_leb_trans (priority_cmp s))]. Qed.

Lemma NoDup_queue orders p s : NoDup (a_id <$> orders) -> NoDup (a_id <$> queue orders p s).
Proof.
  rewrite queue_perm. intros H. eapply sublist_NoDup; [exact H|]. clear H.
  induction orders as [|o orders IH]; simpl; [constructor|].
  destruct (eligible s p o); constructor; auto.
Qed.

Lemma NoDup_fmap_inj_elem {A B} (f : A -> B) (l : list A) x y :
  NoDup (f <$> l) -> x ∈ l -> y ∈ l -> f x = f y -> x = y.
Proof.
  induction l as [|z l IH]; intros Hnd Hx Hy E; [by apply not_elem_of_nil in Hx|].
  rewrite fmap_cons in Hnd. apply NoDup_cons in Hnd as [Hn Hnd].
  apply elem_of_cons in Hx as [->|Hx], Hy as [->|Hy]; [done|..|by apply IH].
  - exfalso. apply Hn. rewrite E. by apply list_elem_of_fmap_2.
  - exfalso. apply Hn. rewrite <- E. by apply list_elem_of_fmap_2.
Qed.

(** Which order is served first does not depend on the order of arrival. *)
Lemma queue_order_independent orders orders' p s :
  orders ≡ₚ orders' -> NoDup (a_id <$> orders) -> queue orders p s = queue orders' p s.
Proof.
  intros Hp Hnd. eapply StronglySorted_unique_strong; [|apply queue_sorted|apply queue_sorted|].
  - intros x y Hx Hy Hxy Hyx. simpl in *. apply elem_of_queue in Hx as [Hx _], Hy as [Hy _].
    rewrite <- Hp in Hy. pose proof (priority_eq_id s x y (cmp_leb_antisym _ _ _ Hxy Hyx)) as Hid.
    by apply (NoDup_fmap_inj_elem a_id orders).
  - rewrite !queue_perm, Hp. done.
Qed.

(** ** One side of the loop *)

Lemma served_cons i j x l : served i ((j, x) :: l) = (if bool_decide (j = i) then x else 0) + served i l.
Proof. done. Qed.

(** The head of a queue after it trades [x]. *)
Definition use (q : list AuctionOrder) (o : AuctionOrder) (used : Z) : list AuctionOrder * Z :=
  if used =? a_quantity o then (q, 0) else (o :: q, used).

Lemma use_ok v o q u x :
  alloc_ok v (o :: q) u -> 0 < x <= v -> x <= a_quantity o - u ->
  alloc_ok (v - x) (use q o (u + x)).1 (use q o (u + x)).2.
Proof.
  intros [Hq Hu Hs] Hx Hle. apply Forall_cons in Hq as [Ho Hq]. rewrite sumZ_cons in Hs. unfold use.
  destruct (Z.eqb_spec (u + x) (a_quantity o)) as [E|E]; simpl.
  - split; [done| |lia]. split; [done|]. destruct q as [|o' q]; [done|]. apply Forall_cons in Hq as [? _]. lia.
  - split; [by constructor|lia|]. rewrite sumZ_cons. lia.
Qed.

Lemma use_served i v o q u x :
  0 < x <= v -> x <= a_quantity o - u ->
  served i (serve v u (o :: q)) =
  (if bool_decide (a_id o = i) then x else 0) + served i (serve (v - x) (use q o (u + x)).2 (use q o (u + x)).1).
Proof.
  intros Hx Hle. unfold use. cbn [serve]. rewrite served_cons.
  destruct (Z.eqb_spec (u + x) (a_quantity o)) as [E|E]; cbn [fst snd].
  - replace (Z.min (a_quantity o - u) v) with x by lia. done.
  - cbn [serve]. rewrite served_cons.
    replace (v - x - Z.min (a_quantity o - (u + x)) (v - x)) with (v - Z.min (a_quantity o - u) v) by lia.
    destruct (bool_decide (a_id o = i)); lia.
Qed.

Lemma use_length q o u : (length (use q o u).1 <= S (length q))%nat.
Proof. unfold use. destruct (u =? a_quantity o); simpl; lia. Qed.

Lemma use_sub q o u x : x ∈ (use q o u).1 -> x ∈ o :: q.
Proof. unfold use. destruct (u =? a_quantity o); simpl; [by right|done]. Qed.

Lemma serve_zero i u q : alloc_ok 0 q u -> served i (serve 0 u q) = 0.
Proof.
  revert u. induction q as [|o q IH]; intros u [Hq Hu Hs]; [done|]. cbn [serve].
  apply Forall_cons in Hq as [Ho Hq]. rewrite served_cons.
  replace (Z.min (a_quantity o - u) 0) with 0 by lia. rewrite Z.sub_0_r, IH; [by destruct (bool_decide _)|].
  split; [done| |].
  - split; [done|]. destruct q as [|o' q]; [done|]. apply Forall_cons in Hq as [? _]. lia.
  - rewrite Z.sub_0_r. apply sumZ_nonneg. eapply Forall_impl; [exact Hq|]. intros z Hz. simpl in *. lia.
Qed.

(** ** The loop *)

Lemma alloc_ok_cons v q u : alloc_ok v q u -> 0 < v -> exists o q', q = o :: q' /\ 0 <= u < a_quantity o /\ a_quantity o <= u32_max.
Proof.
  intros [Hq Hu Hs] Hv. destruct q as [|o q]; [rewrite sumZ_nil in Hs; lia|].
  apply Forall_cons in Hq as [Ho _]. exists o, q. split; [done|lia].
Qed.

(** One pass. *)
Lemma allocate_loop_step fuel price v b buys bu s sells su :
  0 < v <= u64_max -> 0 <= bu < a_quantity b -> a_quantity b <= u32_max -> 0 <= su < a_quantity s -> a_quantity s <= u32_max ->
  exists x, 0 < x <= v /\ x <= a_quantity b - bu /\ x <= a_quantity s - su /\
    (x = v \/ x = a_quantity b - bu \/ x = a_quantity s - su) /\
    allocate_loop (S fuel) price v (b :: buys) bu (s :: sells) su =
    (let* fills := allocate_loop fuel price (v - x) (use buys b (bu + x)).1 (use buys b (bu + x)).2
                     (use sells s (su + x)).1 (use sells s (su + x)).2 in
     Done ({| af_buy_id := a_id b; af_sell_id := a_id s; af_quantity := x; af_price := price |} :: fills)).
Proof.
  intros Hv Hb Hb' Hs Hs'. exists (Z.min (Z.min (a_quantity b - bu) (a_quantity s - su)) v).
  split_and!; try lia. cbn [allocate_loop]. destruct (Z.gtb_spec v 0); [|lia].
  rewrite !sub32_small by (unfold is_u32; lia). unfold as_u32. rewrite wrap32_small by (unfold is_u32; lia).
  rewrite !add32_small, sub64_small by lia. unfold use.
  by destruct (_ =? a_quantity b), (_ =? a_quantity s).
Qed.

Lemma alloc_fill_ok_mono price b b' s s' f :
  (forall o, o ∈ b -> o ∈ b') -> (forall o, o ∈ s -> o ∈ s') -> alloc_fill_ok price b s f -> alloc_fill_ok price b' s' f.
Proof. intros Hb Hs [H1 H2 (o & Ho & Eo) (o' & Ho' & Eo')]. split; eauto. Qed.

Lemma use_shorter q o u x : u + x = a_quantity o -> (length (use q o (u + x)).1 = length q)%nat.
Proof. intros H. unfold use. by rewrite (proj2 (Z.eqb_eq _ _) H). Qed.

Lemma allocate_loop_spec fuel price : forall v buys bu sells su,
  (0 < fuel)%nat -> (0 < v -> (length buys + length sells < fuel)%nat) ->
  0 <= v <= u64_max -> alloc_ok v buys bu -> alloc_ok v sells su ->
  exists fills, allocate_loop fuel price v buys bu sells su = Done fills /\
    sumZ af_quantity fills = v /\ Forall (alloc_fill_ok price buys sells) fills /\
    forall i, traded Buy i fills = served i (serve v bu buys) /\ traded Sell i fills = served i (serve v su sells).
Proof.
  induction fuel as [|fuel IH]; [lia|]. intros v buys bu sells su _ Hf Hv Hb Hs.
  destruct (decide (v = 0)) as [->|Hpos].
  { exists []. split_and!; [by destruct buys, sells|done|constructor|]. intros i. by rewrite !serve_zero. }
  destruct (alloc_ok_cons _ _ _ Hb) as (b & buys' & -> & Hb1 & Hb2); [lia|].
  destruct (alloc_ok_cons _ _ _ Hs) as (s & sells' & -> & Hs1 & Hs2); [lia|].
  destruct (allocate_loop_step fuel price v b buys' bu s sells' su) as (x & Hx & Hxb & Hxs & Hdone & ->); [lia..|].
  specialize (Hf ltac:(lia)). simpl in Hf.
  pose proof (use_ok _ _ _ _ x Hb Hx Hxb) as Hb'. pose proof (use_ok _ _ _ _ x Hs Hx Hxs) as Hs'.
  edestruct (IH (v - x)) as (fills & -> & Hsum & Hall & Htr); [lia| |lia|exact Hb'|exact Hs'|].
  { intros Hv'. pose proof (use_length buys' b (bu + x)). pose proof (use_length sells' s (su + x)).
    destruct Hdone as [|[E|E]]; [lia| |].
    - rewrite (use_shorter buys' b bu x) by lia. lia.
    - rewrite (use_shorter sells' s su x) by lia. lia. }
  cbn [obind]. eexists. split; [done|]. split_and!.
  - rewrite sumZ_cons, Hsum. simpl. lia.
  - constructor.
    + split; simpl; [done|lia|exists b|exists s]; (split; [left|done]).
    + eapply Forall_impl; [exact Hall|]. intros f. apply alloc_fill_ok_mono; intros o; apply use_sub.
  - intros i. destruct (Htr i) as [Tb Ts].
    rewrite (use_served i v b buys' bu x), (use_served i v s sells' su x) by done.
    unfold traded in *. rewrite !sumZ_cons, Tb, Ts. done.
Qed.

(** ** What a queue gives each order *)

Lemma serve_exhausted i v q : v = 0 -> Forall (fun o => 0 < a_quantity o) q -> served i (serve v 0 q) = 0.
Proof.
  intros ->. induction 1 as [|o q Ho _ IH]; [done|]. cbn [serve]. rewrite served_cons.
  replace (Z.min (a_quantity o - 0) 0) with 0 by lia. rewrite Z.sub_0_r, IH. by destruct (bool_decide _).
Qed.

Lemma served_absent i v u q : i ∉ a_id <$> q -> served i (serve v u q) = 0.
Proof.
  revert v u. induction q as [|o q IH]; intros v u Hi; [done|]. rewrite fmap_cons, not_elem_of_cons in Hi.
  cbn [serve]. rewrite served_cons, IH by tauto. rewrite bool_decide_false by (intros E; destruct Hi as [Hi _]; congruence). done.
Qed.

Lemma served_position q1 o q2 : forall v,
  0 <= v -> NoDup (a_id <$> q1 ++ o :: q2) -> Forall (fun o => 0 < a_quantity o) (q1 ++ o :: q2) ->
  served (a_id o) (serve v 0 (q1 ++ o :: q2)) = Z.max 0 (Z.min (a_quantity o) (v - sumZ a_quantity q1)).
Proof.
  induction q1 as [|o1 q1 IH]; intros v Hv Hnd Hq; simpl app in *; cbn [serve]; rewrite served_cons;
    rewrite fmap_cons in Hnd; apply NoDup_cons in Hnd as [Hn Hnd]; apply Forall_cons in Hq as [Ho Hq].
  - rewrite bool_decide_true, served_absent by done. rewrite sumZ_nil. lia.
  - rewrite bool_decide_false.
    2: { intros E. apply Hn. rewrite E, fmap_app, fmap_cons. apply elem_of_app. right. left. }
    rewrite sumZ_cons, IH; [|lia|done|done].
    assert (0 <= sumZ a_quantity q1).
    { apply sumZ_nonneg. apply Forall_app in Hq as [Hq _]. eapply Forall_impl; [exact Hq|]. intros z Hz. simpl in *. lia. }
    assert (0 < a_quantity o) by (apply Forall_app in Hq as [_ Hq]; by apply Forall_cons in Hq as [? _]). lia.
Qed.

(** ** Allocation *)

Lemma queue_volume orders p s :
  sumZ a_quantity (queue orders p s) = volume_of (willing s p) (List.filter (fun o => a_quantity o >? 0) orders).
Proof.
  rewrite queue_perm. unfold volume_of. induction orders as [|o orders IH]; [done|]. simpl. unfold eligible at 1.
  destruct (a_quantity o >? 0) eqn:Hq; [|by rewrite andb_false_r].
  rewrite sumZ_cons, <- IH, andb_true_r. unfold willing, on_side.
  destruct (bool_decide (a_side o = s)), s, (limit_price o) as [l|]; simpl; rewrite ?Z.geb_leb; try done;
    destruct (_ <=? _); rewrite ?sumZ_cons; done.
Qed.

Lemma volume_of_positive test orders :
  Forall (fun o => 0 <= a_quantity o <= u32_max) orders ->
  volume_of test (List.filter (fun o => a_quantity o >? 0) orders) = volume_of test orders.
Proof.
  unfold volume_of. induction 1 as [|o orders Ho _ IH]; [done|]. cbn [List.filter]. rewrite sumZ_cons, <- IH.
  destruct (Z.gtb_spec (a_quantity o) 0); [by rewrite sumZ_cons|]. destruct (test o); lia.
Qed.

(** An auction's volume can be served on both sides. *)
Lemma uncross_case_volume orders reference r :
  auction_ok orders -> uncross_case orders reference r ->
  0 <= r_volume r /\ r_volume r <= demand orders (r_price r) /\ r_volume r <= supply orders (r_price r).
Proof.
  intros Hok Hc. assert (forall p, 0 <= demand orders p /\ 0 <= supply orders p) as Hn.
  { intros p. destruct Hok. split; by apply volume_of_nonneg. }
  destruct Hc as [p _ _ Hp| | |r Hp [Hin _ _ _ _ _] _]; simpl.
  - specialize (Hn p). lia.
  - specialize (Hn 0). lia.
  - specialize (Hn 0). lia.
  - apply list_elem_of_fmap in Hin as (p & -> & _). simpl. specialize (Hn p). lia.
Qed.

Lemma alloc_ok_queue orders v p s :
  auction_ok orders -> 0 <= v <= volume_of (willing s p) orders -> alloc_ok v (queue orders p s) 0.
Proof.
  intros [Hall Hsum] Hv. split.
  - apply Forall_forall. intros o Ho. apply elem_of_queue in Ho as [Ho He]. rewrite Forall_forall in Hall.
    specialize (Hall o Ho). unfold eligible in He. propify. lia.
  - split; [done|]. destruct (queue orders p s) as [|o q] eqn:E; [done|].
    assert (o ∈ queue orders p s) as Ho by (rewrite E; left). apply elem_of_queue in Ho as [_ He].
    unfold eligible in He. propify. lia.
  - rewrite queue_volume, volume_of_positive by done. lia.
Qed.

Lemma allocate_spec orders reference r :
  auction_ok orders -> NoDup (a_id <$> orders) -> uncross orders reference = Done r ->
  exists fills, allocate orders r = Done fills /\
    sumZ af_quantity fills = r_volume r /\
    Forall (alloc_fill_ok (r_price r) (queue orders (r_price r) Buy) (queue orders (r_price r) Sell)) fills /\
    forall s,
      (forall o, o ∈ queue orders (r_price r) s <-> o ∈ orders /\ willing s (r_price r) o = true /\ 0 < a_quantity o) /\
      StronglySorted (fun a b => priority_leb s a b = true) (queue orders (r_price r) s) /\
      forall q1 o q2, queue orders (r_price r) s = q1 ++ o :: q2 ->
        traded s (a_id o) fills = Z.max 0 (Z.min (a_quantity o) (r_volume r - sumZ a_quantity q1)).
Proof.
  intros Hok Hnd Hr. destruct (uncross_cases orders reference Hok) as (r' & Hr' & Hc). rewrite Hr in Hr'. injection Hr' as <-.
  destruct (uncross_case_volume _ _ _ Hok Hc) as (H0 & HD & HS).
  assert (r_volume r <= u64_max) as Hmax.
  { destruct Hok as [Hall Hsum].  unfold demand in HD. etrans; [exact HD|]. etrans; [apply volume_of_le, Hall|exact Hsum]. }
  pose proof (alloc_ok_queue orders (r_volume r) (r_price r) Buy Hok (conj H0 HD)) as HB.
  pose proof (alloc_ok_queue orders (r_volume r) (r_price r) Sell Hok (conj H0 HS)) as HL.
  destruct (allocate_loop_spec (S (length (queue orders (r_price r) Buy) + length (queue orders (r_price r) Sell)))
    (r_price r) _ _ _ _ _ ltac:(lia) ltac:(intros _; apply Nat.lt_succ_diag_r) (conj H0 Hmax) HB HL)
    as (fills & Hf & Hsum & Hall & Htr).
  exists fills. split_and!; [exact Hf|done|done|]. intros s. split_and!.
  - intros o. rewrite elem_of_queue. unfold eligible, willing, on_side. rewrite !andb_true_iff, Z.gtb_lt.
    destruct (limit_price o), s; rewrite ?Z.geb_leb; tauto.
  - apply queue_sorted.
  - intros q1 o q2 Hq. assert (traded s (a_id o) fills = served (a_id o) (serve (r_volume r) 0 (queue orders (r_price r) s))) as ->.
    { destruct s; apply Htr. }
    assert (alloc_ok (r_volume r) (queue orders (r_price r) s) 0) as [Hq' _ _] by (by destruct s).
    rewrite Hq in *. apply served_position; [done|rewrite <- Hq; by apply NoDup_queue|].
    eapply Forall_impl; [exact Hq'|]. intros z Hz. simpl in *. lia.
Qed.

(** ** What an auction leaves *)

Lemma traded_nonneg price b s sd i fills : Forall (alloc_fill_ok price b s) fills -> 0 <= traded sd i fills.
Proof.
  intros H. apply sumZ_nonneg. eapply Forall_impl; [exact H|]. intros f [_ Hq _ _]. simpl. case_bool_decide; lia.
Qed.

(** Whoever is ahead of a limit order accepts its limit. *)
Lemma priority_willing s a o p x :
  a_side a = s -> limit_price o = Some p -> limit_price a = Some x -> priority_leb s a o = true -> willing s p a = true.
Proof.
  intros Hs Ho Ha. unfold priority_leb, priority_cmp, willing, on_side. rewrite bool_decide_true, Ho, Ha by done. simpl.
  destruct s; simpl; [destruct (Z.compare_spec p x)|destruct (Z.compare_spec x p)]; simpl; try done; intros _; apply Z.leb_le; lia.
Qed.

Lemma volume_of_filter f g l : Forall (fun o => 0 <= a_quantity o <= u32_max) l -> volume_of f (List.filter g l) <= volume_of f l.
Proof.
  unfold volume_of. induction 1 as [|o l Ho _ IH]; [done|]. cbn [List.filter]. rewrite sumZ_cons.
  destruct (g o); rewrite ?sumZ_cons; destruct (f o); lia.
Qed.

Section unserved.
Context (orders : list AuctionOrder) (r : AuctionResult) (fills : list AuctionFill) (s : AuctionSide) (o : AuctionOrder) (p : Z).
Context (Hok : auction_ok orders).
Context (Ho : o ∈ orders) (Hside : a_side o = s) (Hlim : limit_price o = Some p).
Context (Hnn : 0 <= traded s (a_id o) fills) (Hleft : traded s (a_id o) fills < a_quantity o).
Context (Hvol : r_volume r <= volume_of (willing s (r_price r)) orders).
Context (Hpos : forall q1 q2, queue orders (r_price r) s = q1 ++ o :: q2 ->
  traded s (a_id o) fills = Z.max 0 (Z.min (a_quantity o) (r_volume r - sumZ a_quantity q1))).

(** An order the auction does not fill accepts a price at which its side has more
    than the auction's volume. *)
Lemma unserved_volume : r_volume r < volume_of (willing s p) orders.
Proof using Hok Ho Hside Hlim Hnn Hleft Hvol Hpos.
  destruct Hok as [Hall _]. assert (willing s p o = true) as Hw.
  { unfold willing, on_side. rewrite bool_decide_true, Hlim by done. simpl. destruct s; apply Z.leb_le; lia. }
  destruct (eligible s (r_price r) o) eqn:Hel.
  - assert (o ∈ queue orders (r_price r) s) as Hin by (by apply elem_of_queue).
    apply list_elem_of_split in Hin as (q1 & q2 & Hq). rewrite (Hpos _ _ Hq) in Hleft.
    pose proof (queue_sorted orders (r_price r) s) as Hsort. rewrite Hq in Hsort.
    assert (Forall (fun a => willing s p a = true) (q1 ++ [o])) as Hall1.
    { apply Forall_app. split; [|by apply Forall_singleton]. apply Forall_forall. intros a Ha.
      assert (a ∈ orders /\ eligible s (r_price r) a = true) as [_ He] by (apply elem_of_queue; rewrite Hq; set_solver).
      unfold eligible in He. rewrite !andb_true_iff, bool_decide_eq_true in He. destruct He as [[Hsa _] _]. destruct (limit_price a) as [x|] eqn:Hx.
      - eapply priority_willing; [done|done|done|]. exact (StronglySorted_app_1_elem_of _ q1 (o :: q2) a o Hsort Ha ltac:(left)).
      - unfold willing, on_side. by rewrite bool_decide_true, Hx. }
    assert (sumZ a_quantity (q1 ++ [o]) = volume_of (willing s p) (q1 ++ [o])) as E.
    { unfold volume_of. apply sumZ_ext. eapply Forall_impl; [exact Hall1|]. simpl. by intros a ->. }
    assert (volume_of (willing s p) (q1 ++ [o]) <= volume_of (willing s p) orders) as Hle.
    { etrans; [|apply (volume_of_filter _ (eligible s (r_price r))); exact Hall].
      assert (volume_of (willing s p) (List.filter (eligible s (r_price r)) orders) = volume_of (willing s p) ((q1 ++ [o]) ++ q2)) as ->.
      { unfold volume_of. by rewrite <- queue_perm, Hq, cons_middle, app_assoc. }
      rewrite (volume_of_app _ (q1 ++ [o])). assert (0 <= volume_of (willing s p) q2); [|lia].
      apply volume_of_nonneg, Forall_forall. intros a Ha. rewrite Forall_forall in Hall. apply Hall.
      apply (elem_of_queue _ (r_price r) s). rewrite Hq. set_solver. }
    rewrite sumZ_app, sumZ_cons, sumZ_nil in E. lia.
  - assert (willing s (r_price r) o = false) as Hnot.
    { unfold eligible in Hel. unfold willing, on_side. rewrite Hlim in *. rewrite bool_decide_true in * by done.
      destruct (Z.gtb_spec (a_quantity o) 0); [|lia]. simpl in *. by destruct s; rewrite ?Z.geb_leb in Hel. }
    assert (forall a, willing s (r_price r) a = true -> willing s p a = true) as Hmono.
    { intros a. revert Hnot. unfold willing, on_side. rewrite Hlim, bool_decide_true by done. destruct (bool_decide (a_side a = s)); [|done].
      destruct (limit_price a) as [x|]; [|done]. destruct s; simpl; intros; propify; apply Z.leb_le; lia. }
    apply list_elem_of_split in Ho as (l1 & l2 & ->). rewrite !volume_of_app in *. unfold volume_of in *. rewrite !sumZ_cons in *. rewrite Hw, Hnot in *.
    apply Forall_app in Hall as [Ha1 Ha2]. apply Forall_cons in Ha2 as [_ Ha2].
    pose proof (volume_of_mono (willing s (r_price r)) (willing s p) l1 Ha1 ltac:(intros; auto)).
    pose proof (volume_of_mono (willing s (r_price r)) (willing s p) l2 Ha2 ltac:(intros; auto)). unfold volume_of in *. lia.
Qed.
End unserved.

(** An auction executes at least what any price would. *)
Lemma uncross_case_max orders reference r p :
  auction_ok orders -> uncross_case orders reference r -> limits orders <> [] -> r_volume (clearing orders p) <= r_volume r.
Proof. intros Hok Hc Hl. destruct Hc as [p0 E _ _|E _|_ Hz|r _ _ Hmax]; [done|done| |apply Hmax]. by rewrite Hz. Qed.

(** What an auction leaves of limit orders does not cross. *)
Lemma allocate_uncrosses orders reference r fills b s pb ps :
  auction_ok orders -> NoDup (a_id <$> orders) -> uncross orders reference = Done r -> allocate orders r = Done fills ->
  b ∈ orders -> a_side b = Buy -> limit_price b = Some pb -> traded Buy (a_id b) fills < a_quantity b ->
  s ∈ orders -> a_side s = Sell -> limit_price s = Some ps -> traded Sell (a_id s) fills < a_quantity s -> pb < ps.
Proof.
  intros Hok Hnd Hr Hf Hb Sb Lb Tb Hs Ss Ls Ts.
  destruct (allocate_spec orders reference r Hok Hnd Hr) as (fills' & Hf' & _ & Hall & Hq). rewrite Hf in Hf'. injection Hf' as <-.
  destruct (uncross_cases orders reference Hok) as (r' & Hr' & Hc). rewrite Hr in Hr'. injection Hr' as <-.
  destruct (uncross_case_volume _ _ _ Hok Hc) as (_ & HD & HS).
  destruct (Hq Buy) as (_ & _ & Hqb). destruct (Hq Sell) as (_ & _ & Hqs).
  pose proof (unserved_volume orders r fills Buy b pb Hok Hb Sb Lb (traded_nonneg _ _ _ _ _ _ Hall) Tb HD (fun q1 q2 => Hqb q1 b q2)) as VB.
  pose proof (unserved_volume orders r fills Sell s ps Hok Hs Ss Ls (traded_nonneg _ _ _ _ _ _ Hall) Ts HS (fun q1 q2 => Hqs q1 s q2)) as VS.
  destruct (Z.lt_ge_cases pb ps) as [|Hge]; [done|exfalso].
  assert (limits orders <> []) as Hl by (intros E; pose proof (elem_of_limits _ _ _ Hb Lb) as H; rewrite E in H; by apply not_elem_of_nil in H).
  pose proof (uncross_case_max orders reference r pb Hok Hc Hl) as Hmax. simpl in Hmax. unfold demand, supply in Hmax.
  destruct Hok as [Hall' _].
  pose proof (volume_of_mono (willing Sell ps) (willing Sell pb) orders Hall') as Hm. ospecialize (Hm _); [|lia].
  intros a _. unfold willing. destruct (on_side Sell a); [|done]. destruct (limit_price a); [|done]. simpl. rewrite !Z.leb_le. lia.
Qed.

(** ** Theorems *)

(** The orders before one in its queue are those ahead of it. *)
Lemma queue_all_ahead orders price s q1 o q2 :
  NoDup (a_id <$> orders) -> (forall x, x ∈ queue orders price s <-> trades_at orders price s x) -> queue orders price s = q1 ++ o :: q2 ->
  all_ahead orders price s o q1.
Proof.
  intros Hnd Hq E. pose proof (NoDup_queue orders price s Hnd) as Hn. pose proof (queue_sorted orders price s) as Hs. rewrite E in Hn, Hs.
  assert (forall x y l1 l2, q1 ++ o :: q2 = l1 ++ l2 -> x ∈ l1 -> y ∈ l2 -> ahead s x y) as Hlt.
  { intros x y l1 l2 El Hx Hy. rewrite El in Hn, Hs. pose proof (StronglySorted_app_1_elem_of _ l1 l2 x y Hs Hx Hy) as Hle. simpl in Hle. unfold priority_leb in Hle.
    apply priority_ahead. destruct (priority_cmp s x y) eqn:Ec; [|done|done]. apply priority_eq_id in Ec. exfalso.
    rewrite fmap_app in Hn. apply NoDup_app in Hn as (_ & Hn & _). apply (Hn (a_id x)); [by apply list_elem_of_fmap_2|]. rewrite Ec. by apply list_elem_of_fmap_2. }
  apply NoDup_fmap_1 in Hn. split; [by apply NoDup_app in Hn as [? _]|]. intros a. rewrite <- Hq, E. split.
  - intros Ha. split; [set_solver|]. apply (Hlt a o q1 (o :: q2)); [done|done|left].
  - intros [[Ha|[->|Ha]%elem_of_cons]%elem_of_app Hao]; [done|..]; apply priority_ahead in Hao.
    + pose proof (cmp_opp (cmp := priority_cmp s) o o) as Hx. rewrite Hao in Hx. done.
    + pose proof (Hlt o a (q1 ++ [o]) q2) as Hoa. rewrite <- app_assoc in Hoa. specialize (Hoa eq_refl ltac:(set_solver) Ha).
      apply priority_ahead in Hoa. rewrite (cmp_opp (cmp := priority_cmp s) o a), Hoa in Hao. done.
Qed.

(** An id of no order in a queue trades nothing. *)
Lemma traded_absent price b s sd i fills : Forall (alloc_fill_ok price b s) fills ->
  i ∉ a_id <$> (match sd with Buy => b | Sell => s end) -> traded sd i fills = 0.
Proof.
  intros Hf Hi. unfold traded. induction Hf as [|f fills [_ _ (x & Hx & Ex) (y & Hy & Ey)] _ IH]; [done|]. rewrite sumZ_cons, IH, bool_decide_false; [done|].
  intros E. apply Hi. destruct sd; cbn [fill_id] in E; subst i; [rewrite <- Ex|rewrite <- Ey]; by apply list_elem_of_fmap_2.
Qed.

(** C15: The allocation of a clearing result is complete and in priority. For the
    result of [uncross] on orders with distinct ids, [allocate] returns fills
    that add up to the clearing volume, each at the clearing price, for a
    positive quantity, between a buy and a sell order that accept the price. On
    each side an order that does not accept the price trades nothing, and one
    that does trades exactly what the orders ahead of it leave of the volume, up
    to its quantity, where market orders are ahead of limit orders, a higher bid
    and a lower offer ahead of a worse one, and at one price the earlier arrival,
    then the smaller id. *)
Theorem allocate_correct orders reference r :
  auction_ok orders -> NoDup (a_id <$> orders) -> uncross orders reference = Done r ->
  exists fills, allocate orders r = Done fills /\
    sumZ af_quantity fills = r_volume r /\
    Forall (auction_fill orders (r_price r)) fills /\
    forall s o, o ∈ orders -> due orders (r_price r) (r_volume r) s o (traded s (a_id o) fills).
Proof.
  intros Hok Hnd Hr. destruct (allocate_spec orders reference r Hok Hnd Hr) as (fills & Hf & Hs & Hall & Hq).
  assert (forall s x, x ∈ queue orders (r_price r) s <-> trades_at orders (r_price r) s x) as Hin by (intros s; apply Hq).
  exists fills. split_and!; [done|done| |].
  - eapply Forall_impl; [exact Hall|]. intros f [H1 H2 (b & Hb & Eb) (x & Hx & Ex)].
    split; [done|done|exists b|exists x]; (split; [by apply Hin|done]).
  - intros s o Ho. split.
    + intros Hno. apply (traded_absent (r_price r) _ _ s _ _ Hall). intros Hid. apply Hno, Hin.
      assert (a_id o ∈ a_id <$> queue orders (r_price r) s) as Hid' by (by destruct s). apply list_elem_of_fmap in Hid' as (x & Ex & Hx).
      assert (o = x) as ->; [|done]. apply (NoDup_fmap_inj_elem a_id orders); [done|done| |done]. by apply Hin in Hx as [? _].
    + intros Ht. apply Hin in Ht. apply list_elem_of_split in Ht as (q1 & q2 & E). exists q1. split; [by eapply queue_all_ahead|].
      by apply (proj2 (proj2 (Hq s)) q1 o q2).
Qed.

Lemma allocate_correct_witness :
  exists fills, allocate sample_auction {| r_price := 101; r_volume := 35; r_imbalance := -10 |} = Done fills /\
    sumZ af_quantity fills = 35 /\ Forall (auction_fill sample_auction 101) fills /\
    forall s o, o ∈ sample_auction -> due sample_auction 101 35 s o (traded s (a_id o) fills).
Proof.
  apply (allocate_correct sample_auction (Some 100) {| r_price := 101; r_volume := 35; r_imbalance := -10 |}).
  - apply sample_auction_ok.
  - apply (bool_decide_unpack _). vm_compute. exact I.
  - vm_compute. reflexivity.
Defined.

(** The allocation does not depend on the order in which the auction's
    orders are listed: fills come out in the same sequence. *)
Theorem allocate_order_independent orders orders' r :
  orders ≡ₚ orders' -> NoDup (a_id <$> orders) -> allocate orders r = allocate orders' r.
Proof. intros Hp Hnd. unfold allocate. by rewrite !(queue_order_independent orders orders' _ _ Hp Hnd). Qed.

Lemma allocate_order_independent_witness :
  allocate sample_auction {| r_price := 101; r_volume := 35; r_imbalance := -10 |} =
  allocate (rev sample_auction) {| r_price := 101; r_volume := 35; r_imbalance := -10 |}.
Proof.
  apply allocate_order_independent; [apply Permutation_rev|]. apply (bool_decide_unpack _). vm_compute. exact I.
Defined.
