(* ===== verification/Proto.v ===== *)
(** * The messages of proto/fxp.proto

    The records the engine reads and writes, with the field names of the
    protocol; scalar fields are the Rust types prost gives them ([int64] is
    [i64], an enum field is its [i32] number). The header the core puts on every
    message is kept as the pair of its fields. *)

From S2P Require Import Prelude.

(** [PROTOCOL_VERSION] of lib.rs. *)
Definition PROTOCOL_VERSION : string := "2.6".

Record FXPHeader : Type := mkHeader { protocol_version : string; sequence_number : Z }.

(** [google.protobuf.Timestamp]. *)
Record Timestamp : Type := mkTimestamp { ts_seconds : Z; ts_nanos : Z }.

(** ** Enumerations: the numbers the engine writes *)

Inductive ExecutionType : Type :=
| ExecNew | ExecFilled | ExecCanceled | ExecReplaced | ExecRejected | ExecExpired | ExecRestated | ExecOrderStatus.

Definition exec_type_code (t : ExecutionType) : Z :=
  match t with
  | ExecNew => 1 | ExecFilled => 2 | ExecCanceled => 3 | ExecReplaced => 4 | ExecRejected => 5
  | ExecExpired => 6 | ExecRestated => 9 | ExecOrderStatus => 10
  end.

Inductive OrderStatus : Type :=
| OrderNew | OrderFilled | OrderPartiallyFilled | OrderCanceled | OrderRejected | OrderReplaced | OrderExpired.

Definition order_status_code (s : OrderStatus) : Z :=
  match s with
  | OrderNew => 1 | OrderFilled => 3 | OrderPartiallyFilled => 4 | OrderCanceled => 5
  | OrderRejected => 6 | OrderReplaced => 7 | OrderExpired => 8
  end.

#[export] Instance ExecutionType_eq_dec : EqDecision ExecutionType.
Proof. solve_decision. Defined.
#[export] Instance OrderStatus_eq_dec : EqDecision OrderStatus.
Proof. solve_decision. Defined.

Definition SIDE_UNSPECIFIED : Z := 0.
Definition SIDE_BUY : Z := 1.
Definition SIDE_SELL : Z := 2.

(** [MASS_CANCEL_REASON_DISCONNECT]. *)
Definition MASS_CANCEL_DISCONNECT : Z := 2.

(** ** Requests

    Without the fields the core does not read: header, receiver and timestamp. *)

Record NewOrderSingle : Type := mkNewOrder {
  n_order_id : string;
  n_sender : string;
  n_symbol : string;
  n_price : Z;
  n_side : Z;
  n_quantity : Z;
  n_order_type : Z;
  n_time_in_force : Z;
  n_stop_price : Z;
  n_expire_date : string;
  n_account : string;
  n_client_order_id : string;
  n_stp_mode : Z;
  n_stp_group : string;
  n_display_quantity : Z;
}.

Record OrderCancelRequest : Type := mkCancelRequest {
  oc_order_id : string; oc_client_cancel_id : string; oc_sender : string; oc_symbol : string;
}.

Record OrderCancelReplaceRequest : Type := mkReplaceRequest {
  or_order_id : string; or_new_order_id : string; or_client_replace_id : string; or_sender : string; or_symbol : string;
  or_new_price : Z; or_new_quantity : Z; or_new_time_in_force : Z; or_new_stop_price : Z; or_new_display_quantity : option Z;
}.

Record OrderMassCancelRequest : Type := mkMassCancelRequest {
  om_sender : string; om_symbol : string; om_side : Z; om_client_request_id : string; om_reason : Z;
}.

Record SessionControl : Type := mkSessionControl {
  sc_request_id : string; sc_sender : string; sc_opening_call_seconds : Z; sc_symbol : string;
}.

(** ** Reports and market data *)

Record Report : Type := mkReport {
  header : FXPHeader;
  execution_id : string;
  rep_order_id : string;
  rep_symbol : string;
  execution_type : Z;
  order_status : Z;
  execution_price : Z;
  executed_quantity : Z;
  rep_timestamp : Timestamp;
  leaves_quantity : Z;
  avg_px : Z;
  cum_quantity : Z;
  rep_account : string;
  rep_client_order_id : string;
  orig_order_id : string;
  reject_reason_text : string;
  rep_side : Z;
  order_quantity : Z;
  auction : bool;
  rep_display_quantity : Z;
}.

(** [Default::default()] of a report. Its header and timestamp, [None] in the
    source, are empty here: the engine only puts it into the status history in
    front of the report that overwrites it, and a status query shows no report
    without an order id. *)
Definition report_default : Report :=
  mkReport (mkHeader "" 0) "" "" "" 0 0 0 0 (mkTimestamp 0 0) 0 0 0 "" "" "" "" 0 0 false 0.

Record MdChange : Type := mkMdChange { md_update_type : Z; md_price : Z; md_quantity : Z; md_side_code : Z }.

Record MdUpdate : Type := mkMdUpdate {
  md_header : FXPHeader; md_symbol : string; md_changes : list MdChange; md_timestamp : Timestamp;
}.

Record BookEntry : Type := mkBookEntry { entry_price : Z; entry_size : Z; entry_side : Z }.

Record Snapshot : Type := mkSnapshot {
  sn_header : FXPHeader; sn_symbol : string; bid_levels : list BookEntry; ask_levels : list BookEntry;
  bid_ask_spread : Z; total_volume : Z; sn_timestamp : Timestamp;
}.

Record TradeCapture : Type := mkTrade {
  tr_header : FXPHeader; trade_id : string; tr_buy_order_id : string; tr_sell_order_id : string;
  tr_symbol : string; tr_price : Z; tr_quantity : Z; tr_timestamp : Timestamp; tr_aggressor_side : Z;
  tr_seq : Z; is_auction : bool;
}.

Record SessionStatus : Type := mkSessionStatus { ss_symbol : string; ss_phase : Z; ss_timestamp : Timestamp }.

Record AuctionInfo : Type := mkAuctionInfo {
  ai_symbol : string; ai_phase : Z; indicative_price : Z; indicative_volume : Z; imbalance_quantity : Z;
  imbalance_side : Z; reference_price : Z; ai_timestamp : Timestamp;
}.
