(* ===== verification/Reports.v ===== *)
(** * Reports: the report state of live orders and the messages built from it

    engine.rs from [parse_order_enums] to [iceberg_reason], apart from the engine
    itself: the request parsers, [OrderState], [build_report], [apply_fill],
    [report_execution], [report_stp], the market data builders and [snapshot].
    [R] is the type of the connections reports are addressed to. *)

From Stdlib Require Import Ascii.
From S2P Require Import Prelude BTree Text Order OrderBook Matcher Stops Proto Session.

(** [as i64] of a wider integer. *)
Definition as_i64 (z : Z) : Z := let w := wrap64 z in if w <? 9223372036854775808 then w else w - u64_modulus.

(** ** The clock and the execution ids *)

Record Time : Type := mkTime { seconds : Z; nanos : Z }.

#[export] Instance Time_eq_dec : EqDecision Time.
Proof. solve_decision. Defined.

(** The derived [Ord]: seconds, then nanoseconds. *)
Definition time_ltb (a b : Time) : bool :=
  (seconds a <? seconds b) || ((seconds a =? seconds b) && (nanos a <? nanos b)).

Definition time_leb (a b : Time) : bool := negb (time_ltb b a).

(** [Time::as_millis]; both casts reinterpret the sign. *)
Definition as_millis (t : Time) : Z := add64 (wrap64 (seconds t) * 1000 mod u64_modulus) (wrap64 (nanos t) / 1000000).

Definition timestamp_of (t : Time) : Timestamp := mkTimestamp (seconds t) (nanos t).

(** The trait [ExecIds]. *)
Class ExecIds (I : Type) := next_id : I -> string * I.

(** [ReplayIds] of event_log.rs: a counter printed after an X. *)
#[export] Instance ReplayIds : ExecIds Z := fun n => (String "X" (print_dec n), add64 n 1).

(** ** Request parsers *)

Definition parse_order_enums (order : NewOrderSingle) : result (OrderSide * OrderType * TimeInForce) string :=
  let side :=
    match n_side order with
    | 1 => Ok Buy
    | 2 => Ok Sell
    | 0 => Err "side is required"%string
    | v => Err ("unknown side " ++ print_dec v)%string
    end in
  let ty :=
    match n_order_type order with
    | 1 => Ok Market
    | 2 => Ok Limit
    | 3 => Ok Stop
    | 4 => Ok StopLimit
    | 0 => Err "order_type is required"%string
    | v => Err ("unknown order_type " ++ print_dec v)%string
    end in
  let tif :=
    match n_time_in_force order with
    | 1 => Ok Day
    | 2 => Ok GTC
    | 3 => Ok IOC
    | 4 => Ok FOK
    | 5 => Ok AtOpen
    | 6 => Ok AtClose
    | 7 => Ok Gtd
    | 0 => Err "time_in_force is required"%string
    | v => Err ("unknown time_in_force " ++ print_dec v)%string
    end in
  match side with
  | Err e => Err e
  | Ok s => match ty with
            | Err e => Err e
            | Ok t => match tif with Err e => Err e | Ok f => Ok (s, t, f) end
            end
  end.

(** The mode and whether the request asked for it. *)
Definition parse_stp (value : Z) (dflt : StpMode) : result (StpMode * bool) string :=
  match value with
  | 0 => Ok (dflt, false)
  | 1 => Ok (StpNone, false)
  | 2 => Ok (CancelNewest, true)
  | 3 => Ok (CancelOldest, true)
  | 4 => Ok (CancelBoth, true)
  | 5 => Ok (DecrementAndCancel, true)
  | v => Err ("unknown stp_mode " ++ print_dec v)%string
  end.

Definition parse_replace_time_in_force (value : Z) : result (option TimeInForce) string :=
  match value with
  | 0 => Ok None
  | 1 => Ok (Some Day)
  | 2 => Ok (Some GTC)
  | 3 => Ok (Some IOC)
  | 4 => Ok (Some FOK)
  | 5 => Ok (Some AtOpen)
  | 6 => Ok (Some AtClose)
  | 7 => Ok (Some Gtd)
  | v => Err ("unknown new_time_in_force " ++ print_dec v)%string
  end.

Definition validate_expiry (date : string) (now : Time) : result unit string :=
  match expiry_instant date with
  | Err e => Err e
  | Ok s => if time_leb (mkTime s 0) now then Err "expire_date is in the past"%string else Ok ()
  end.

Definition side_to_proto (s : OrderSide) : Z := match s with Buy => SIDE_BUY | Sell => SIDE_SELL end.
Definition md_side (s : OrderSide) : Z := match s with Buy => SIDE_BUY | Sell => SIDE_SELL end.

(** ** Report state *)

Record OrderState (R : Type) : Type := mkOrderState {
  sender : string;
  st_time_in_force : TimeInForce;
  st_expire_date : string;
  st_arrival : Z;
  st_side : Z;
  order_qty : Z;
  st_display_quantity : Z;
  cum_qty : Z;
  notional : Z;
  st_account : string;
  st_client_order_id : string;
  output_tx : R;
}.
Arguments mkOrderState {R}.
Arguments sender {R}.
Arguments st_time_in_force {R}.
Arguments st_expire_date {R}.
Arguments st_arrival {R}.
Arguments st_side {R}.
Arguments order_qty {R}.
Arguments st_display_quantity {R}.
Arguments cum_qty {R}.
Arguments notional {R}.
Arguments st_account {R}.
Arguments st_client_order_id {R}.
Arguments output_tx {R}.

(** What the engine sends. *)
Inductive Output (R : Type) : Type :=
| OTradingSessionStatus (m : SessionStatus)
| OAuctionInfo (m : AuctionInfo)
| OExecutionReport (to : R) (m : Report)
| OMarketData (m : MdUpdate)
| OTrade (m : TradeCapture)
| OSnapshot (to : R) (m : Snapshot)
| OMassCancelCount (n : Z).
Arguments OTradingSessionStatus {R}.
Arguments OAuctionInfo {R}.
Arguments OExecutionReport {R}.
Arguments OMarketData {R}.
Arguments OTrade {R}.
Arguments OSnapshot {R}.
Arguments OMassCancelCount {R}.

(** [Diagnostic]: causal context of a replay, never sent. *)
Record Diagnostic : Type := mkDiagnostic {
  output_index : nat; dg_kind : string; dg_order_id : string; dg_role : string;
  dg_counterparty : string; dg_quantity : Z; dg_cause : string;
}.

(** Per-event report fields. *)
Record ReportEvent : Type := mkReportEvent {
  ev_type : ExecutionType;
  ev_status : OrderStatus;
  last_px : Z;
  last_qty : Z;
  ev_leaves : Z;
  ev_client_order_id : option string;
  ev_orig_order_id : string;
  ev_reject_reason : string;
}.

Definition event_new (t : ExecutionType) (s : OrderStatus) : ReportEvent := mkReportEvent t s 0 0 0 None "" "".

(** The parts of the engine the reporting functions thread: execution ids, the
    states, the trade counter, the diagnostics, and the outputs so far. *)
Record Desk (R I : Type) : Type := mkDesk {
  ids : I;
  states : gmap string (OrderState R);
  trade_seq : Z;
  diagnostics : option (list Diagnostic);
  outputs : list (Output R);
}.
Arguments mkDesk {R I}.
Arguments ids {R I}.
Arguments states {R I}.
Arguments trade_seq {R I}.
Arguments diagnostics {R I}.
Arguments outputs {R I}.

Section reports.
Context {R I : Type} `{!ExecIds I}.
Implicit Types (st : OrderState R) (d : Desk R I).

(** [OrderState::new], [leaves] and [avg_px]. *)
Definition state_new (order : NewOrderSingle) (qty : Z) (tx : R) (arr : Z) : OrderState R :=
  {| sender := n_sender order;
     st_time_in_force := match parse_order_enums order with Ok (_, _, tif) => tif | Err _ => GTC end;
     st_expire_date := n_expire_date order; st_arrival := arr; st_side := n_side order;
     order_qty := qty; st_display_quantity := as_u32 (Z.max (n_display_quantity order) 0);
     cum_qty := 0; notional := 0; st_account := n_account order;
     st_client_order_id := n_client_order_id order; output_tx := tx |}.

Definition leaves st : Z := saturating_sub (order_qty st) (cum_qty st).

(** [notional / cum_qty] truncates towards zero. *)
Definition state_avg_px st : Z := if cum_qty st =? 0 then 0 else as_i64 (Z.quot (notional st) (cum_qty st)).

Definition set_fill st (qty px : Z) : OrderState R :=
  {| sender := sender st; st_time_in_force := st_time_in_force st; st_expire_date := st_expire_date st;
     st_arrival := st_arrival st; st_side := st_side st; order_qty := order_qty st;
     st_display_quantity := st_display_quantity st; cum_qty := add32 (cum_qty st) qty;
     notional := notional st + px * qty; st_account := st_account st;
     st_client_order_id := st_client_order_id st; output_tx := output_tx st |}.

Definition set_order_qty st (q : Z) : OrderState R :=
  {| sender := sender st; st_time_in_force := st_time_in_force st; st_expire_date := st_expire_date st;
     st_arrival := st_arrival st; st_side := st_side st; order_qty := q;
     st_display_quantity := st_display_quantity st; cum_qty := cum_qty st;
     notional := notional st; st_account := st_account st;
     st_client_order_id := st_client_order_id st; output_tx := output_tx st |}.

(** Updates of the desk. *)
Definition set_ids (i : I) d : Desk R I := mkDesk i (states d) (trade_seq d) (diagnostics d) (outputs d).
Definition set_states (m : gmap string (OrderState R)) d : Desk R I := mkDesk (ids d) m (trade_seq d) (diagnostics d) (outputs d).
Definition set_trade_seq (n : Z) d : Desk R I := mkDesk (ids d) (states d) n (diagnostics d) (outputs d).
Definition push (o : Output R) d : Desk R I := mkDesk (ids d) (states d) (trade_seq d) (diagnostics d) (outputs d ++ [o]).

(** [emit]: the index is the number of outputs so far. *)
Definition emit (kind id role counterparty : string) (qty : Z) (cause : string) d : Desk R I :=
  mkDesk (ids d) (states d) (trade_seq d)
    ((fun log => log ++ [mkDiagnostic (length (outputs d)) kind id role counterparty qty cause]) <$> diagnostics d)
    (outputs d).

(** [build_report]: the report and the desk with the id drawn. *)
Definition build_report (id sym : string) (st : option (OrderState R)) (ev : ReportEvent) (ts : Timestamp) d
    : Report * Desk R I :=
  let '(xid, i) := next_id (ids d) in
  ({| header := mkHeader PROTOCOL_VERSION 0;
      execution_id := xid;
      rep_order_id := id;
      rep_symbol := sym;
      execution_type := exec_type_code (ev_type ev);
      order_status := order_status_code (ev_status ev);
      execution_price := last_px ev;
      executed_quantity := as_i32 (last_qty ev);
      rep_timestamp := ts;
      leaves_quantity := as_i32 (ev_leaves ev);
      avg_px := match st with Some s => state_avg_px s | None => 0 end;
      cum_quantity := match st with Some s => as_i32 (cum_qty s) | None => 0 end;
      rep_account := match st with Some s => st_account s | None => "" end;
      rep_client_order_id :=
        match ev_client_order_id ev with
        | Some c => c
        | None => match st with Some s => st_client_order_id s | None => "" end
        end;
      orig_order_id := ev_orig_order_id ev;
      reject_reason_text := ev_reject_reason ev;
      rep_side := match st with Some s => st_side s | None => 0 end;
      order_quantity := match st with Some s => as_i32 (order_qty s) | None => 0 end;
      auction := false;
      rep_display_quantity := match st with Some s => as_i32 (st_display_quantity s) | None => 0 end |},
   set_ids i d).

(** A report built and pushed for a connection. *)
Definition send_report (to : R) (id sym : string) (st : option (OrderState R)) (ev : ReportEvent) (ts : Timestamp) d
    : Desk R I :=
  let '(r, d) := build_report id sym st ev ts d in push (OExecutionReport to r) d.

(** [apply_fill]. *)
Definition apply_fill (id sym : string) (px qty : Z) (ts : Timestamp) d : option (Report * R) * Desk R I :=
  match states d !! id with
  | None => (None, d)
  | Some st =>
    let st := set_fill st qty px in
    let lv := leaves st in
    let status := if lv =? 0 then OrderFilled else OrderPartiallyFilled in
    let ev := mkReportEvent ExecFilled status px qty lv None "" "" in
    let '(r, d) := build_report id sym (Some st) ev ts d in
    (Some (r, output_tx st), set_states (if lv =? 0 then delete id (states d) else <[id := st]> (states d)) d)
  end.

(** [make_reject_report], pushed for the requester. *)
Definition reject_event (id request_id reason : string) : ReportEvent :=
  mkReportEvent ExecRejected OrderRejected 0 0 0 (Some request_id) id reason.

Definition send_reject (to : R) (id sym request_id reason : string) (ts : Timestamp) d : Desk R I :=
  send_report to id sym None (reject_event id request_id reason) ts d.

(** [send_replace_reports]. *)
Definition send_replace_reports (to : R) (id new_id sym : string) (new_state : OrderState R) (ts : Timestamp) d : Desk R I :=
  let ev t s := mkReportEvent t s 0 0 (leaves new_state) None id "" in
  let d := send_report to id sym (Some new_state) (ev ExecReplaced OrderReplaced) ts d in
  send_report to new_id sym (Some new_state) (ev ExecNew OrderNew) ts d.

(** [build_md_update]. *)
Definition update_code (t : MarketUpdateType) : Z := match t with NewOrder => 0 | ModifyOrder => 1 | CancelOrder => 2 end.

Definition build_md_update (inc : MarketDataIncrementalUpdate) (ts : Timestamp) : MdUpdate :=
  {| md_header := mkHeader PROTOCOL_VERSION 1; md_symbol := inc_symbol inc;
     md_changes := (fun c => mkMdChange (update_code (update_type c)) (upd_price c) (as_i32 (upd_quantity c)) (md_side (upd_side c)))
                     <$> changes inc;
     md_timestamp := ts |}.

Definition send_md (inc : MarketDataIncrementalUpdate) (ts : Timestamp) d : Desk R I :=
  push (OMarketData (build_md_update inc ts)) d.

(** [build_trade]; the id is the symbol and the sequence number. *)
Definition build_trade (sym : string) (seq px qty aggressor : Z) (is_auction_print : bool) (ts : Timestamp) : TradeCapture :=
  {| tr_header := mkHeader PROTOCOL_VERSION 0; trade_id := (sym ++ String ":" (print_dec seq))%string;
     tr_buy_order_id := ""; tr_sell_order_id := ""; tr_symbol := sym; tr_price := px; tr_quantity := as_i32 qty;
     tr_timestamp := ts; tr_aggressor_side := aggressor; tr_seq := seq; is_auction := is_auction_print |}.

Definition send_trade (sym : string) (px qty aggressor : Z) (is_auction_print : bool) (ts : Timestamp) d : Desk R I :=
  let seq := add64 (trade_seq d) 1 in
  push (OTrade (build_trade sym seq px qty aggressor is_auction_print ts)) (set_trade_seq seq d).

(** [report_stp]. *)
Definition report_stp (sym : string) (e : StpEvent) (ts : Timestamp) d : Desk R I :=
  let reason := ("self-trade prevention (" ++ stp_mode_as_str (ev_mode e) ++ ")")%string in
  match states d !! ev_order_id e with
  | None => d
  | Some st =>
    match action e with
    | Canceled =>
      send_report (output_tx st) (ev_order_id e) sym (Some st)
        (mkReportEvent ExecCanceled OrderCanceled 0 0 0 None "" reason) ts
        (set_states (delete (ev_order_id e) (states d)) d)
    | Restated by_ =>
      let st := set_order_qty st (saturating_sub (order_qty st) by_) in
      let status := if cum_qty st >? 0 then OrderPartiallyFilled else OrderNew in
      send_report (output_tx st) (ev_order_id e) sym (Some st)
        (mkReportEvent ExecRestated status 0 0 (leaves st) None "" reason) ts
        (set_states (<[ev_order_id e := st]> (states d)) d)
    end
  end.

(** An STP event with its diagnostic. *)
Definition report_stp_event (sym : string) (ts : Timestamp) (e : StpEvent) d : Desk R I :=
  report_stp sym e ts (emit "stp_context" (ev_order_id e) "" (opposing_order e) 0 "" d).

Definition report_trigger (t : nat * string * string) d : Desk R I := emit "stop_trigger" t.1.2 "" "" 0 t.2 d.

(** [next_if] in a loop: the longest prefix that satisfies a test. *)
Fixpoint take_while {A} (test : A -> bool) (l : list A) : list A * list A :=
  match l with
  | [] => ([], [])
  | x :: l => if test x then let '(a, b) := take_while test l in (x :: a, b) else ([], x :: l)
  end.

(** One side of a fill. *)
Definition report_fill_side (sym : string) (ts : Timestamp) (f : ExecutionReport) (id : string) d : Desk R I :=
  let '(sent, d') := apply_fill id sym (trade_price f) (trade_quantity f) ts d in
  match sent with
  | None => d'
  | Some (r, tx) =>
    let buyer := bool_decide (id = buy_order_id f) in
    let role := if bool_decide (buyer = bool_decide (aggressor_side f = Buy)) then "aggressor"%string else "resting"%string in
    push (OExecutionReport tx r)
      (emit "fill_context" id role (if buyer then sell_order_id f else buy_order_id f) 0 "" d')
  end.

(** The body of the loop over the fills, with what is left of the three
    peekable iterators. *)
Fixpoint report_fills (i : nat) (fills : list ExecutionReport) (triggers : list (nat * string * string))
    (refreshes : list (nat * string * Z)) (stp : list StpEvent) (sym : string) (ts : Timestamp) d
    : list (nat * string * string) * list StpEvent * Desk R I :=
  match fills with
  | [] => (triggers, stp, d)
  | f :: fills =>
    let '(now, triggers) := take_while (fun t => (t.1.1 <=? i)%nat) triggers in
    let d := foldl (fun d t => report_trigger t d) d now in
    let '(now, stp) := take_while (fun e => (before_fill e <=? i)%nat) stp in
    let d := foldl (fun d e => report_stp_event sym ts e d) d now in
    let d := report_fill_side sym ts f (buy_order_id f) d in
    let d := report_fill_side sym ts f (sell_order_id f) d in
    let d := send_trade sym (trade_price f) (trade_quantity f) (md_side (aggressor_side f)) false ts d in
    let '(now, refreshes) := take_while (fun r => (r.1.1 =? i)%nat) refreshes in
    let d := foldl (fun d (r : nat * string * Z) => emit "iceberg_refresh" r.1.2 "" "" r.2
                      "displayed slice exhausted; reserve replenished at back of queue" d) d now in
    report_fills (S i) fills triggers refreshes stp sym ts d
  end.

Definition tif_debug (t : TimeInForce) : string :=
  match t with
  | Day => "Day" | GTC => "GTC" | IOC => "IOC" | FOK => "FOK" | AtOpen => "AtOpen" | AtClose => "AtClose" | Gtd => "Gtd"
  end.

(** A canceled remainder. *)
Definition report_cancel (sym : string) (ts : Timestamp) (id : string) d : Desk R I :=
  match states d !! id with
  | None => d
  | Some st =>
    send_report (output_tx st) id sym (Some st) (event_new ExecCanceled OrderCanceled) ts
      (emit "cancel_context" id "" "" 0 ("unfilled remainder (" ++ tif_debug (st_time_in_force st) ++ ")")%string
        (set_states (delete id (states d)) d))
  end.

(** [report_execution]. *)
Definition report_execution (exec : Execution) (sym : string) (ts : Timestamp) d : Desk R I :=
  let '(triggers, stp, d) := report_fills 0 (ex_fills exec) (ex_trigger_points exec) (ex_refreshes exec) (ex_stp exec) sym ts d in
  let d := foldl (fun d t => report_trigger t d) d triggers in
  let d := foldl (fun d e => report_stp_event sym ts e d) d stp in
  let d := foldl (fun d id => report_cancel sym ts id d) d (ex_cancels exec) in
  foldl (fun d inc => send_md inc ts d) d (ex_rested exec ++ ex_stp_updates exec ++ ex_fill_updates exec).

End reports.

(** [snapshot]: bids best first, asks best first. *)
Definition book_entry (s : OrderSide) (e : Z * Z) : BookEntry := mkBookEntry e.1 (as_i32 e.2) (md_side s).

Definition snapshot (b : OrderBook) (now : Time) : Snapshot :=
  let snap := get_market_snapshot b in
  {| sn_header := mkHeader PROTOCOL_VERSION 1; sn_symbol := snap_symbol snap;
     bid_levels := book_entry Buy <$> rev (bids snap); ask_levels := book_entry Sell <$> asks snap;
     bid_ask_spread := 0; total_volume := 0; sn_timestamp := timestamp_of now |}.
