(* ===== verification/ExecutionReports.v ===== *)
(** * What reporting an execution does to the report states

    [report_execution] walks the fills and weaves the self-trade prevention
    events in between. For one order the reports are a sequence of acts; on a
    paced execution the acts take its state exactly from its leaves before to
    its leaves after. *)

From S2P Require Import Prelude BTree Text Order OrderBook BookInvariant BookEffects Matcher Effects Pace Stops Executions Proto Reports.

(** ** Definitions *)

(** What a report does to the state of one order. *)
Inductive act : Type := AFill (q px : Z) | ACut (c : Z) | AGone.

(** Fills and events in the order they are reported. *)
Fixpoint interleave (i : nat) (fs : list ExecutionReport) (es : list StpEvent) : list (ExecutionReport + StpEvent) :=
  match fs with
  | [] => inr <$> es
  | f :: fs => let '(now, es) := take_while (fun e => (before_fill e <=? i)%nat) es in (inr <$> now) ++ inl f :: interleave (S i) fs es
  end.

Definition acts_of (id : string) (x : ExecutionReport + StpEvent) : list act :=
  match x with
  | inl f => (if bool_decide (buy_order_id f = id) then [AFill (trade_quantity f) (trade_price f)] else []) ++
             (if bool_decide (sell_order_id f = id) then [AFill (trade_quantity f) (trade_price f)] else [])
  | inr e => if bool_decide (ev_order_id e = id) then [match action e with Canceled => AGone | Restated c => ACut c end] else []
  end.

Definition cancel_acts (id : string) (cs : list string) : list act := (fun _ => AGone) <$> filter (fun c => c = id) cs.

Definition acts_in (id : string) (fs : list ExecutionReport) (es : list StpEvent) (cs : list string) : list act :=
  mjoin (acts_of id <$> interleave 0 fs es) ++ cancel_acts id cs.

Definition act_size (a : act) : Z := match a with AFill q _ => q | ACut c => c | AGone => 0 end.
Definition act_fill (a : act) : Z := match a with AFill q _ => q | _ => 0 end.
Definition act_cut (a : act) : Z := match a with ACut c => c | _ => 0 end.
Definition act_ok (a : act) : Prop := match a with AFill q _ => 0 < q | ACut c => 0 < c | AGone => False end.
Definition is_fill (a : act) : bool := match a with AFill _ _ => true | _ => false end.

Section states.
Context {R I : Type} `{!ExecIds I}.
Implicit Types (d : Desk R I) (st : OrderState R).

Definition act_step (s : option (OrderState R)) (a : act) : option (OrderState R) :=
  match s with
  | None => None
  | Some st =>
    match a with
    | AFill q px => let st := set_fill st q px in if leaves st =? 0 then None else Some st
    | ACut c => Some (set_order_qty st (saturating_sub (order_qty st) c))
    | AGone => None
    end
  end.

(** The fields of a state an execution does not touch. *)
Definition same_terms (st st' : OrderState R) : Prop :=
  sender st' = sender st /\ st_side st' = st_side st /\ st_time_in_force st' = st_time_in_force st /\
  st_expire_date st' = st_expire_date st /\ st_arrival st' = st_arrival st /\ output_tx st' = output_tx st.

(** A state with leaves [l]. *)
Record live_state st (l : Z) : Prop := { ls_total : order_qty st = cum_qty st + l; ls_cum : 0 <= cum_qty st; ls_fits : order_qty st <= u32_max }.

(** ** Each report on the state of an id *)

Lemma send_report_states to id sym s ev ts d : states (send_report to id sym s ev ts d) = states d.
Proof. unfold send_report, build_report. by destruct (next_id (ids d)). Qed.

Lemma report_fill_side_states sym ts f i d id :
  states (report_fill_side sym ts f i d) !! id =
  foldl act_step (states d !! id) (if bool_decide (i = id) then [AFill (trade_quantity f) (trade_price f)] else []).
Proof.
  unfold report_fill_side, apply_fill. destruct (states d !! i) as [st|] eqn:E.
  - unfold build_report. destruct (next_id (ids d)) as [xid ids']. cbn [push emit set_states set_ids states].
    case_bool_decide as Hi; [subst i|].
    + cbn [foldl]. rewrite E. cbn [act_step]. destruct (leaves _ =? 0); simpl; by rewrite ?lookup_delete_eq, ?lookup_insert_eq.
    + destruct (leaves _ =? 0); simpl; by rewrite ?lookup_delete_ne, ?lookup_insert_ne.
  - case_bool_decide as Hi; [subst i|done]. by rewrite E.
Qed.

Lemma report_stp_states sym ts e d id :
  states (report_stp_event sym ts e d) !! id = foldl act_step (states d !! id) (acts_of id (inr e)).
Proof.
  unfold report_stp_event, report_stp. cbn [emit states acts_of]. destruct (states d !! ev_order_id e) as [st|] eqn:E.
  - case_bool_decide as Hi; [subst id|]; destruct (action e); rewrite send_report_states; cbn [set_states states foldl act_step]; rewrite ?E; by simplify_map_eq.
  - case_bool_decide as Hi; [subst id|done]. cbn [foldl]. by rewrite E.
Qed.

Lemma report_cancel_states sym ts i d id :
  states (report_cancel sym ts i d) !! id = foldl act_step (states d !! id) (if bool_decide (i = id) then [AGone] else []).
Proof.
  unfold report_cancel. destruct (states d !! i) as [st|] eqn:E.
  - rewrite send_report_states. cbn [emit set_states states]. case_bool_decide as Hi; [subst i|]; cbn [foldl]; rewrite ?E; by simplify_map_eq.
  - case_bool_decide as Hi; [subst i|done]. cbn [foldl]. by rewrite E.
Qed.

Lemma foldl_states {A : Type} (g : Desk R I -> A -> Desk R I) (l : list A) d : (forall d a, states (g d a) = states d) -> states (foldl g d l) = states d.
Proof. intros H. revert d. induction l as [|a l IH]; intros d; [done|]. simpl. by rewrite IH. Qed.

Lemma foldl_acts {A : Type} (g : Desk R I -> A -> Desk R I) (h : A -> list act) (l : list A) d id :
  (forall d a, states (g d a) !! id = foldl act_step (states d !! id) (h a)) ->
  states (foldl g d l) !! id = foldl act_step (states d !! id) (mjoin (h <$> l)).
Proof.
  intros H. revert d. induction l as [|a l IH]; intros d; [done|]. rewrite fmap_cons. simpl. by rewrite IH, H, foldl_app.
Qed.

Lemma stp_events_acts sym ts es d id :
  states (foldl (fun d e => report_stp_event sym ts e d) d es) !! id = foldl act_step (states d !! id) (mjoin (acts_of id <$> (inr <$> es))).
Proof. rewrite <- list_fmap_compose. apply foldl_acts. intros. apply report_stp_states. Qed.

Lemma report_fills_states sym ts id fs : forall i triggers refreshes es d triggers' es' d',
  report_fills i fs triggers refreshes es sym ts d = (triggers', es', d') ->
  foldl act_step (states d' !! id) (mjoin (acts_of id <$> (inr <$> es'))) = foldl act_step (states d !! id) (mjoin (acts_of id <$> interleave i fs es)).
Proof.
  induction fs as [|f fs IH]; intros i triggers refreshes es d triggers' es' d'; cbn [report_fills interleave].
  { by intros [= <- <- <-]. }
  destruct (take_while _ triggers) as [now trs]. destruct (take_while _ es) as [stps es1].
  destruct (take_while (fun r => (r.1.1 =? i)%nat) refreshes) as [refs refs1]. intros Hrun. rewrite (IH _ _ _ _ _ _ _ _ Hrun).
  rewrite (foldl_states _ refs) by done. unfold send_trade. cbn [push set_trade_seq states].
  rewrite !report_fill_side_states, stp_events_acts, (foldl_states _ now) by done.
  rewrite fmap_app, fmap_cons, join_app. cbn [mjoin list_join acts_of]. by rewrite !foldl_app.
Qed.

Lemma mjoin_cancels id cs : mjoin ((fun i => if bool_decide (i = id) then [AGone] else []) <$> cs) = cancel_acts id cs.
Proof.
  unfold cancel_acts. induction cs as [|c cs IH]; [done|]. rewrite fmap_cons, filter_cons. simpl. rewrite IH.
  by case_bool_decide; destruct (decide (c = id)).
Qed.

Lemma report_execution_states exec sym ts d id :
  states (report_execution exec sym ts d) !! id = foldl act_step (states d !! id) (acts_in id (ex_fills exec) (ex_stp exec) (ex_cancels exec)).
Proof.
  unfold report_execution, acts_in. destruct (report_fills _ _ _ _ _ _ _ _) as [[trs es] d1] eqn:E.
  rewrite (foldl_states _ (_ ++ _)) by done.
  rewrite (foldl_acts _ (fun i => if bool_decide (i = id) then [AGone] else [])) by (intros; apply report_cancel_states).
  rewrite stp_events_acts, (foldl_states _ trs) by done. by rewrite (report_fills_states _ _ id _ _ _ _ _ _ _ _ _ E), foldl_app, mjoin_cancels.
Qed.

(** ** A sequence of acts on a live state *)

Lemma act_step_None acts : foldl act_step None acts = None.
Proof. by induction acts. Qed.

Lemma acts_gone s acts : AGone ∈ acts -> foldl act_step s acts = None.
Proof.
  revert s. induction acts as [|a acts IH]; intros s H; [by apply not_elem_of_nil in H|]. cbn [foldl].
  apply elem_of_cons in H as [<-|H]; [|by apply IH]. destruct s; apply act_step_None.
Qed.

Lemma acts_size_nonneg acts : Forall act_ok acts -> 0 <= sumZ act_size acts /\ (sumZ act_size acts = 0 -> acts = []).
Proof.
  induction 1 as [|a acts Ha _ [IH1 IH2]]; [done|]. rewrite sumZ_cons. assert (0 < act_size a) by (by destruct a). split; lia.
Qed.

Lemma acts_live st l acts :
  live_state st l -> 0 < l -> Forall act_ok acts -> sumZ act_size acts <= l ->
  (sumZ act_size acts = l -> exists a, last acts = Some a /\ is_fill a = true) ->
  match foldl act_step (Some st) acts with
  | None => sumZ act_size acts = l
  | Some st' => same_terms st st' /\ live_state st' (l - sumZ act_size acts) /\ cum_qty st' = cum_qty st + sumZ act_fill acts /\ sumZ act_size acts < l
  end.
Proof.
  revert st l. induction acts as [|a acts IH]; intros st l Hst Hl Hok Hle Hlast.
  { simpl. split_and!; [done|by rewrite Z.sub_0_r|lia|lia]. }
  apply Forall_cons in Hok as [Ha Hok]. destruct (acts_size_nonneg acts Hok) as [Hn Hz]. cbn [foldl].
  rewrite sumZ_cons in *. destruct Hst as [Ht Hc Hf].
  assert (forall st', live_state st' (l - act_size a) -> same_terms st st' -> cum_qty st' = cum_qty st + act_fill a -> 0 < l - act_size a ->
    act_step (Some st) a = Some st' -> match foldl act_step (act_step (Some st) a) acts with
      | None => act_size a + sumZ act_size acts = l
      | Some st' => same_terms st st' /\ live_state st' (l - (act_size a + sumZ act_size acts)) /\
          cum_qty st' = cum_qty st + sumZ act_fill (a :: acts) /\ act_size a + sumZ act_size acts < l end) as Hnext.
  { intros st' Hst' Hsame Hcum Hpos ->. pose proof (IH st' (l - act_size a) Hst' Hpos Hok ltac:(lia)) as H.
    destruct (foldl act_step (Some st') acts) as [st2|].
    - destruct H as ((S1 & S2 & S3 & S4 & S5 & S6) & H2 & H3 & H4).
      { intros E. destruct (Hlast ltac:(lia)) as (x & Hx & Hxf). destruct acts as [|y acts]; [rewrite sumZ_nil in E; lia|by exists x]. }
      destruct Hsame as (T1 & T2 & T3 & T4 & T5 & T6). split_and!; try lia; [unfold same_terms; split_and!; congruence| |].
      + by replace (l - (act_size a + sumZ act_size acts)) with (l - act_size a - sumZ act_size acts) by lia.
      + rewrite sumZ_cons. lia.
    - rewrite H; [lia|]. intros E. destruct (Hlast ltac:(lia)) as (x & Hx & Hxf). destruct acts as [|y acts]; [rewrite sumZ_nil in E; lia|by exists x]. }
  destruct a as [q px|c|]; [| |done]; simpl in Ha, Hle, Hlast.
  - assert (add32 (cum_qty st) q = cum_qty st + q) as Hadd by (apply add32_small; unfold is_u32; lia).
    cbn [act_step]. destruct (Z.eqb_spec (leaves (set_fill st q px)) 0) as [E|E].
    + rewrite act_step_None. unfold leaves, saturating_sub in E. simpl in E. rewrite Hadd in E. simpl. destruct (Z.leb_spec (cum_qty st + q) (order_qty st)); lia.
    + pose proof E as E0. unfold leaves, saturating_sub in E. simpl in E. rewrite Hadd in E. destruct (Z.leb_spec (cum_qty st + q) (order_qty st)); [|lia].
      assert (act_step (Some st) (AFill q px) = Some (set_fill st q px)) as Hstep by (cbn [act_step]; by rewrite (proj2 (Z.eqb_neq _ _) E0)).
      rewrite <- Hstep. apply (Hnext (set_fill st q px)); [split; simpl; rewrite ?Hadd; lia|done|simpl; lia|simpl; lia|exact Hstep].
  - assert (saturating_sub (order_qty st) c = order_qty st - c) as Hs by (unfold saturating_sub; destruct (Z.leb_spec c (order_qty st)); lia).
    destruct (Z.eq_dec c l) as [->|Hcl].
    + destruct (Hlast ltac:(lia)) as (x & Hx & Hxf). rewrite (Hz ltac:(lia)) in Hx. simpl in Hx. injection Hx as <-. done.
    + apply (Hnext (set_order_qty st (saturating_sub (order_qty st) c))); [split; simpl; rewrite ?Hs; lia|done|simpl; lia|simpl; lia|done].
Qed.

End states.

(** ** The order of the reports *)

Lemma take_while_spec {A} (test : A -> bool) (l now rest : list A) :
  take_while test l = (now, rest) -> l = now ++ rest /\ (match rest with [] => True | x :: _ => test x = false end).
Proof.
  revert now. induction l as [|x l IH]; intros now; simpl; [by intros [= <- <-]|].
  destruct (test x) eqn:E; [|by intros [= <- <-]]. destruct (take_while test l) as [a b]. intros [= <- <-].
  destruct (IH a eq_refl) as [-> H]. done.
Qed.

Lemma interleave_perm fs : forall i es, interleave i fs es ≡ₚ (inl <$> fs) ++ (inr <$> es).
Proof.
  induction fs as [|f fs IH]; intros i es; [done|]. cbn [interleave]. destruct (take_while _ es) as [now rest] eqn:E.
  apply take_while_spec in E as [-> _]. rewrite IH, fmap_app, fmap_cons. solve_Permutation.
Qed.

(** An event is reported before every fill that comes after it. *)
Lemma interleave_after fs : forall i es l1 e l2 j f,
  StronglySorted le (before_fill <$> es) -> interleave i fs es = l1 ++ inr e :: l2 ->
  fs !! j = Some f -> (before_fill e <= i + j)%nat -> inl f ∈ l2.
Proof.
  induction fs as [|f0 fs IH]; intros i es l1 e l2 j f Hs Hl Hf Hle; [done|]. cbn [interleave] in Hl.
  destruct (take_while _ es) as [now rest] eqn:E. apply take_while_spec in E as [-> Hrest].
  rewrite fmap_app in Hs. apply StronglySorted_app in Hs as (_ & _ & Hs).
  assert (forall x, x ∈ rest -> (i < before_fill x)%nat) as Hlate.
  { intros x Hx. destruct rest as [|y rest]; [by apply not_elem_of_nil in Hx|]. apply Nat.leb_gt in Hrest.
    rewrite fmap_cons in Hs. apply StronglySorted_inv in Hs as [_ Hs]. apply elem_of_cons in Hx as [->|Hx]; [done|].
    rewrite Forall_fmap, Forall_forall in Hs. specialize (Hs x Hx). simpl in Hs. lia. }
  apply app_eq_inv in Hl as [(k & Hk & Hl)|(k & Hk & Hl)].
  - destruct k as [|x k]; [done|]. simpl in Hl. injection Hl as <- ->. apply elem_of_app. right.
    destruct j as [|j]; simpl in Hf; [injection Hf as ->; left|right]. rewrite interleave_perm. apply elem_of_app. left.
    apply list_elem_of_fmap_2. by eapply list_elem_of_lookup_2.
  - destruct k as [|x k]; simpl in Hl; [done|]. injection Hl as <- Hl. destruct j as [|j]; simpl in Hf.
    + exfalso. assert (e ∈ rest) as He; [|specialize (Hlate e He); lia].
      assert (inr e ∈ interleave (S i) fs rest) as Hin by (rewrite Hl; apply elem_of_app; right; left).
      rewrite interleave_perm in Hin. apply elem_of_app in Hin as [Hin|Hin]; apply list_elem_of_fmap in Hin as (y & Hy & Hin); congruence.
    + apply (IH (S i) rest k e l2 j f Hs Hl Hf). lia.
Qed.

(** ** The acts of one order *)

Lemma mjoin_perm {A B} (g : A -> list B) (l l' : list A) : l ≡ₚ l' -> mjoin (g <$> l) ≡ₚ mjoin (g <$> l').
Proof. induction 1; simpl; [done|by apply Permutation_app_head|rewrite !app_assoc; apply Permutation_app_tail, Permutation_app_comm|by etrans]. Qed.

Lemma last_mjoin {A B} (g : A -> list B) (l : list A) b :
  last (mjoin (g <$> l)) = Some b -> exists l1 x l2, l = l1 ++ x :: l2 /\ last (g x) = Some b /\ mjoin (g <$> l2) = [].
Proof.
  induction l as [|x l IH]; [done|]. rewrite fmap_cons. simpl. rewrite last_app. destruct (last (mjoin (g <$> l))) as [b'|] eqn:E.
  - intros [= ->]. destruct (IH eq_refl) as (l1 & y & l2 & -> & H). by exists (x :: l1), y, l2.
  - intros H. exists [], x, l. split_and!; [done|done|]. by apply last_None.
Qed.

Lemma fill_acts id fs :
  Forall trade_ok fs ->
  let l := mjoin (acts_of id <$> (inl <$> fs)) in sumZ act_size l = filled_in id fs /\ sumZ act_fill l = filled_in id fs /\ Forall act_ok l.
Proof.
  cbv zeta. induction 1 as [|f fs [Hq Hne] _ (IH1 & IH2 & IH3)]; [done|]. rewrite !fmap_cons.
  assert (sumZ act_size (acts_of id (inl f)) = filled_in id [f] /\ sumZ act_fill (acts_of id (inl f)) = filled_in id [f] /\
    Forall act_ok (acts_of id (inl f))) as (H1 & H2 & H3).
  { unfold filled_in, acts_of. simpl. repeat case_bool_decide; simpl; try congruence; split_and!; try lia; repeat constructor; done. }
  change (mjoin (?x :: ?l)) with (x ++ mjoin l). rewrite !sumZ_app, IH1, IH2, H1, H2, (filled_in_app id [f] fs : filled_in id (f :: fs) = _).
  split_and!; [done|done|by apply Forall_app].
Qed.

Lemma event_acts id es :
  Forall cut_ok es -> canceled_in id es = false ->
  let l := mjoin (acts_of id <$> (inr <$> es)) in sumZ act_size l = restated_in id es /\ sumZ act_fill l = 0 /\ Forall act_ok l.
Proof.
  cbv zeta. induction 1 as [|e es Hc _ IH]; [done|]. rewrite canceled_in_cons. intros [Hce Hcs]%orb_false_iff. destruct (IH Hcs) as (IH1 & IH2 & IH3).
  assert (sumZ act_size (acts_of id (inr e)) = restated_in id [e] /\ sumZ act_fill (acts_of id (inr e)) = 0 /\
    Forall act_ok (acts_of id (inr e))) as (H1 & H2 & H3).
  { unfold restated_in, acts_of. unfold canceled_in in Hce. unfold cut_ok in Hc. simpl in *. case_bool_decide; [|done].
    destruct (action e) as [|c]; [done|]. simpl. split_and!; [lia|done|by repeat constructor]. }
  rewrite !fmap_cons. change (mjoin (?x :: ?l)) with (x ++ mjoin l). rewrite !sumZ_app, IH1, IH2, H1, H2, (restated_in_cons id e es).
  split_and!; [done|done|by apply Forall_app].
Qed.

Lemma gone_acts id es cs fs : gone id es cs -> AGone ∈ acts_in id fs es cs.
Proof.
  unfold acts_in. intros [H|H]; apply elem_of_app; [left|right].
  - rewrite (mjoin_perm _ _ _ (interleave_perm fs 0 es)), fmap_app, join_app. apply elem_of_app. right.
    unfold canceled_in in H. apply existsb_exists in H as (e & He & H). apply andb_true_iff in H as [H1 H2]. propify.
    apply list_elem_of_join. exists (acts_of id (inr e)). split.
    + simpl. rewrite bool_decide_true by done. destruct (action e); [left|done].
    + apply list_elem_of_fmap_2, list_elem_of_fmap_2. by apply list_elem_of_In.
  - apply list_elem_of_fmap. exists id. split; [done|]. by apply list_elem_of_filter.
Qed.

Lemma acts_in_sums id fs es cs :
  Forall trade_ok fs -> Forall cut_ok es -> ~ gone id es cs ->
  let l := acts_in id fs es cs in sumZ act_size l = filled_in id fs + restated_in id es /\ sumZ act_fill l = filled_in id fs /\ Forall act_ok l.
Proof.
  intros Hf He Hg. assert (canceled_in id es = false /\ cancel_acts id cs = []) as [Hn Hc].
  { split; [apply not_true_is_false; intros H; apply Hg; by left|]. unfold cancel_acts. destruct (filter _ cs) as [|c l] eqn:E; [done|].
    exfalso. apply Hg. right. assert (c ∈ c :: l) as Hin by left. rewrite <- E in Hin. by apply list_elem_of_filter in Hin as [-> ?]. }
  unfold acts_in. rewrite Hc, app_nil_r. cbv zeta. pose proof (mjoin_perm (acts_of id) _ _ (interleave_perm fs 0 es)) as Hp.
  rewrite fmap_app, join_app in Hp. destruct (fill_acts id fs Hf) as (F1 & F2 & F3), (event_acts id es He Hn) as (E1 & E2 & E3).
  rewrite Hp, !sumZ_app. split_and!; [lia|lia|by apply Forall_app].
Qed.

(** An order that ends without leaves ends with a fill. *)
Lemma acts_in_last id fs es cs before after :
  paced 0 fs es cs before after -> ~ gone id es cs -> after id <= 0 -> acts_in id fs es cs <> [] ->
  exists a, last (acts_in id fs es cs) = Some a /\ is_fill a = true.
Proof.
  intros Hp Hg Ha Hne. destruct (acts_in_sums id fs es cs (pc_fills Hp) (pc_cuts Hp) Hg) as (_ & _ & Hok).
  destruct (last (acts_in id fs es cs)) as [a|] eqn:E; [|by apply last_None in E]. exists a. split; [done|].
  assert (act_ok a) as Hoka by (apply last_Some in E as [l' E]; rewrite E in Hok; apply Forall_app in Hok as [_ Hok]; by rewrite Forall_singleton in Hok).
  destruct a as [q px|c|]; [done| |done]. exfalso. unfold acts_in in E. rewrite last_app in E.
  destruct (last (cancel_acts id cs)) as [x|] eqn:Ec.
  { injection E as ->. apply last_Some in Ec as [l' Ec]. assert (ACut c ∈ cancel_acts id cs) as Hin by (rewrite Ec; apply elem_of_app; right; left).
    unfold cancel_acts in Hin. by apply list_elem_of_fmap in Hin as (? & ? & _). }
  apply last_mjoin in E as (l1 & x & l2 & Hl & Hx & Hl2). destruct x as [f|e].
  { simpl in Hx. repeat case_bool_decide; simpl in Hx; congruence. }
  simpl in Hx. case_bool_decide as Hid; [|done]. simpl in Hx. injection Hx as Hx. destruct (action e) as [|c'] eqn:Hact; [done|].
  assert (e ∈ es) as He.
  { assert (inr e ∈ interleave 0 fs es) as Hin by (rewrite Hl; apply elem_of_app; right; left). rewrite interleave_perm in Hin.
    apply elem_of_app in Hin as [Hin|Hin]; apply list_elem_of_fmap in Hin as (y & Hy & Hin); congruence. }
  destruct (pc_ends Hp e c' He Hact) as [?|[?|(i & f & Hi & Hk & Hinv)]]; rewrite Hid in *; [done|lia|].
  pose proof (interleave_after fs 0 es l1 e l2 i f (pc_sorted Hp) Hl Hi Hk) as Hin.
  assert (AFill (trade_quantity f) (trade_price f) ∈ mjoin (acts_of id <$> l2)) as H; [|rewrite Hl2 in H; by apply not_elem_of_nil in H].
  apply list_elem_of_join. exists (acts_of id (inl f)). split; [|by apply list_elem_of_fmap_2].
  simpl. apply elem_of_app. destruct Hinv as [<-|<-]; [left|right]; rewrite bool_decide_true by done; left.
Qed.

(** ** The report of a paced execution *)

(** A state the execution does not concern stays; one that it does follows its
    leaves, and is dropped exactly when none are left. *)
Lemma report_paced {R I : Type} `{!ExecIds I} exec sym ts (d : Desk R I) before after id :
  paced 0 (ex_fills exec) (ex_stp exec) (ex_cancels exec) before after -> 0 <= after id ->
  let s' := states (report_execution exec sym ts d) !! id in
  match states d !! id with
  | None => s' = None
  | Some st =>
    (before id = 0 -> s' = Some st) /\
    (0 < before id -> live_state st (before id) ->
       if after id =? 0 then s' = None else exists st', s' = Some st' /\ same_terms st st' /\ live_state st' (after id) /\
         cum_qty st' = cum_qty st + filled_in id (ex_fills exec))
  end.
Proof.
  intros Hp Ha s'. unfold s'. rewrite report_execution_states. set (l := acts_in _ _ _ _). destruct (states d !! id) as [st|]; [|apply act_step_None].
  destruct (pc_accounts Hp id) as [Hle Heq].
  assert (forall P : Prop, (gone id (ex_stp exec) (ex_cancels exec) -> P) ->
    (~ gone id (ex_stp exec) (ex_cancels exec) -> sumZ act_size l + after id = before id -> sumZ act_fill l = filled_in id (ex_fills exec) -> Forall act_ok l -> P) -> P) as Hcase.
  { intros P H1 H2. destruct (decide (canceled_in id (ex_stp exec) = true \/ id ∈ ex_cancels exec)) as [Hg|Hg]; [by apply H1|].
    destruct (acts_in_sums id _ _ _ (pc_fills Hp) (pc_cuts Hp) Hg) as (S1 & S2 & S3). apply H2; [done| |done|done].
    fold l in S1. rewrite S1. apply Heq; [apply not_true_is_false; intros H; apply Hg; by left|intros H; apply Hg; by right]. }
  split.
  - intros Hz. apply Hcase; [intros Hg; pose proof (pc_live Hp id Hg); lia|]. intros _ Hs _ Hok.
    destruct (acts_size_nonneg l Hok) as [Hn H0]. by rewrite (H0 ltac:(lia)).
  - intros Hpos Hst. apply Hcase.
    + intros Hg. pose proof (pc_gone Hp id Hg). destruct (Z.eqb_spec (after id) 0); [|lia]. by apply acts_gone, gone_acts.
    + intros Hg Hs Hfi Hok. pose proof (acts_live st (before id) l Hst Hpos Hok ltac:(lia)) as H.
      destruct (foldl act_step (Some st) l) as [st'|].
      * destruct H as (H1 & H2 & H3 & H4).
        { intros E. apply (acts_in_last id _ _ _ _ _ Hp Hg); [lia|]. intros E'. fold l in E'. rewrite E', sumZ_nil in E. lia. }
        destruct (Z.eqb_spec (after id) 0); [lia|]. exists st'. split_and!; [done|done| |by rewrite H3, Hfi]. by replace (after id) with (before id - sumZ act_size l) by lia.
      * rewrite H in Hs; [destruct (Z.eqb_spec (after id) 0); [done|lia]|]. intros E.
        apply (acts_in_last id _ _ _ _ _ Hp Hg); [lia|]. intros E'. fold l in E'. rewrite E', sumZ_nil in E. lia.
Qed.
