(* ===== verification/EventLog.v ===== *)
(** * The event log: event_log.rs

    Inputs are written ahead of their execution as framed records: a length, the
    protobuf body and a CRC-32 of both. Opening a log checks its header and reads
    the records back; a torn or corrupt tail is cut off. A file is its bytes; the
    disk is what [append] is told about its write.

    Protobuf encoding is prost's, so it is an interface: [Wire]. *)

From Stdlib Require Import Ascii.
From S2P Require Import Prelude BTree Text Bytes Order Session SymbolConfig Proto Reports.

(** ** Definitions *)

(** [prost::Message]: [encode_to_vec] and [decode]. *)
Class Wire (A : Type) := {
  encode_to_vec : A -> list Z;
  wire_decode : list Z -> option A;
}.

(** What prost documents: bytes out, and decoding gives back the message. *)
Class WireLaws (A : Type) `{!Wire A} := {
  wire_bytes a : Forall is_byte (encode_to_vec a);
  wire_roundtrip a : wire_decode (encode_to_vec a) = Some a;
}.

Definition MAGIC : list Z := bytes_of "FXPEVL01".
Definition MAX_RECORD : Z := 4194304.
Definition REPLAY_VERSION : string := "engine-input-v1".

(** [struct Record]. *)
Record LogRecord : Type := mkLogRecord {
  lr_seq : Z; lr_seconds : Z; lr_nanos : Z; lr_symbol : string; lr_kind : Z; lr_payload : list Z;
}.

#[export] Instance LogRecord_eq_dec : EqDecision LogRecord.
Proof. solve_decision. Defined.

Inductive Input : Type :=
| INew (m : NewOrderSingle)
| ICancel (m : OrderCancelRequest)
| IReplace (m : OrderCancelReplaceRequest)
| ITick
| ISubscribe
| IMassCancel (m : OrderMassCancelRequest)
| ISessionControl (m : SessionControl).

Section inputs.
Context `{!Wire NewOrderSingle, !Wire OrderCancelRequest, !Wire OrderCancelReplaceRequest, !Wire OrderMassCancelRequest, !Wire SessionControl}.

(** [Input::encode]. *)
Definition input_encode (i : Input) : Z * list Z :=
  match i with
  | INew m => (1, encode_to_vec m)
  | ICancel m => (2, encode_to_vec m)
  | IReplace m => (3, encode_to_vec m)
  | ITick => (4, [])
  | ISubscribe => (5, [])
  | IMassCancel m => (6, encode_to_vec m)
  | ISessionControl m => (7, encode_to_vec m)
  end.

(** [decode(..).map_err(invalid)?]; the text of prost's error is not modelled. *)
Definition decoded {A : Type} `{!Wire A} (bytes : list Z) (k : A -> Input * string) : result (Input * string) string :=
  match wire_decode bytes with Some m => Ok (k m) | None => Err "failed to decode Protobuf message"%string end.

(** [Input::decode]. *)
Definition input_decode (r : LogRecord) : result Input string :=
  let parsed :=
    if lr_kind r =? 1 then decoded (lr_payload r) (fun m => (INew m, n_symbol m))
    else if lr_kind r =? 2 then decoded (lr_payload r) (fun m => (ICancel m, oc_symbol m))
    else if lr_kind r =? 3 then decoded (lr_payload r) (fun m => (IReplace m, or_symbol m))
    else if lr_kind r =? 6 then decoded (lr_payload r) (fun m => (IMassCancel m, om_symbol m))
    else if lr_kind r =? 7 then decoded (lr_payload r) (fun m => (ISessionControl m, lr_symbol r))
    else if (lr_kind r =? 4) && is_nil (lr_payload r) then Ok (ITick, lr_symbol r)
    else if (lr_kind r =? 5) && is_nil (lr_payload r) then Ok (ISubscribe, lr_symbol r)
    else Err "unsupported event kind or payload"%string in
  match parsed with
  | Err e => Err e
  | Ok (input, sym) =>
    if bool_decide (sym <> lr_symbol r) || negb ((0 <=? lr_nanos r) && (lr_nanos r <? 1000000000))
    then Err "invalid event symbol or clock"%string else Ok input
  end.

(** The symbol a message is for, where the record has to agree with it. *)
Definition input_symbol (i : Input) : option string :=
  match i with
  | INew m => Some (n_symbol m) | ICancel m => Some (oc_symbol m) | IReplace m => Some (or_symbol m)
  | IMassCancel m => Some (om_symbol m) | ITick | ISubscribe | ISessionControl _ => None
  end.
End inputs.

(** *** Checksums *)

(** One bit of [crc32]. *)
Definition crc_round (crc : Z) : Z := Z.lxor (Z.shiftr crc 1) (Z.land 3988292384 (sub32 0 (Z.land crc 1))).

Definition crc_byte (crc byte : Z) : Z := Nat.iter 8 crc_round (Z.lxor crc byte).

(** [crc32]; [!x] flips 32 bits. *)
Definition crc32 (bytes : list Z) : Z := Z.lxor (foldl crc_byte u32_max bytes) u32_max.

(** *** Frames *)

Section frames.
Context `{!Wire LogRecord}.

(** [frame]. *)
Definition frame (r : LogRecord) : result (list Z) string :=
  let body := encode_to_vec r in
  if is_nil body || (MAX_RECORD <? Z.of_nat (length body)) then Err "event record exceeds size limit"%string
  else
    let bytes := be_bytes 4 (as_u32 (Z.of_nat (length body))) ++ body in
    Ok (bytes ++ be_bytes 4 (crc32 bytes)).

(** [read_exact_or_tail]: the bytes and the rest of the file, if there are enough. *)
Definition read_exact_or_tail (n : nat) (file : list Z) : option (list Z * list Z) :=
  if (n <=? length file)%nat then Some (take n file, drop n file) else None.

(** [read_frame]: [None] is a tail to cut off. *)
Definition read_frame (file : list Z) : option (LogRecord * list Z) :=
  match read_exact_or_tail 4 file with
  | None => None
  | Some (prefix, file) =>
    let len := from_be prefix in
    if (len =? 0) || (MAX_RECORD <? len) then None
    else
      match read_exact_or_tail (Z.to_nat len + 4) file with
      | None => None
      | Some (bytes, rest) =>
        let expected := from_be (drop (Z.to_nat len) bytes) in
        let bytes := take (Z.to_nat len) bytes in
        if bool_decide (crc32 (prefix ++ bytes) <> expected) then None
        else match wire_decode bytes with Some r => Some (r, rest) | None => None end
      end
  end.

(** *** The log *)

Record EventLog : Type := mkEventLog { log_file : list Z; next_seq : Z; log_failed : bool }.

(** [{:?}] of the schedule. *)
Definition debug_time (t : UtcTimeOfDay) : string := ("UtcTimeOfDay { seconds: " ++ print_dec t ++ " }")%string.

Definition debug_option (o : option UtcTimeOfDay) : string :=
  match o with Some t => ("Some(" ++ debug_time t ++ ")")%string | None => "None" end.

Definition debug_schedule (s : option SessionSchedule) : string :=
  match s with
  | None => "None"
  | Some s => ("Some(SessionSchedule { open_call: " ++ debug_option (open_call s) ++ ", open: " ++ debug_option (open s)
                ++ ", close_call: " ++ debug_option (close_call s) ++ ", close: " ++ debug_time (close s) ++ " })")%string
  end.

(** The text that names the configuration of a log. *)
Definition config_text (schedule : option SessionSchedule) (stp_default : StpMode) (config : SymbolConfig) : string :=
  let stp := match stp_default with StpNone => ""%string | mode_ => (";stp_default=" ++ stp_mode_as_str mode_)%string end in
  let text := canonical config in
  let symbols := if bool_decide (text = ""%string) then ""%string else (";symbols=" ++ text)%string in
  (REPLAY_VERSION ++ ";schedule=" ++ debug_schedule schedule ++ stp ++ symbols)%string.

Definition config_record (schedule : option SessionSchedule) (stp_default : StpMode) (config : SymbolConfig) : LogRecord :=
  mkLogRecord 0 0 0 "" 0 (bytes_of (config_text schedule stp_default config)).

(** The loop of [open_configured] over the records after the header: the records,
    the next sequence number and how many bytes of the file are good. A frame
    has at least nine bytes, so the length of the file is enough fuel. *)
Fixpoint read_records (fuel : nat) (seq : Z) (good : nat) (file : list Z)
    : outcome (result (list LogRecord * Z * nat) string) :=
  match fuel with
  | O => OutOfFuel
  | S fuel =>
    if is_nil file then Done (Ok ([], seq, good))
    else
      match read_frame file with
      | None => Done (Ok ([], seq, good))
      | Some (r, rest) =>
        if negb (lr_seq r =? seq) then Done (Err "event log sequence gap"%string)
        else if u64_max <=? seq then Done (Err "event sequence exhausted"%string)
        else
          let* tail := read_records fuel (seq + 1) (good + (length file - length rest)) rest in
          Done (match tail with Ok (rs, seq, good) => Ok (r :: rs, seq, good) | Err e => Err e end)
      end
  end.

(** [EventLog::open_configured] on the bytes of the file, empty when it is new. *)
Definition open_log (schedule : option SessionSchedule) (stp_default : StpMode) (config : SymbolConfig) (file : list Z)
    : outcome (result (EventLog * list LogRecord) string) :=
  let header := config_record schedule stp_default config in
  let created := if is_nil file then match frame header with Ok bytes => Ok (MAGIC ++ bytes) | Err e => Err e end else Ok file in
  match created with
  | Err e => Done (Err e)
  | Ok file =>
    match read_exact_or_tail 8 file with
    | None => Done (Err "invalid event log magic/version"%string)
    | Some (magic, rest) =>
      if bool_decide (magic <> MAGIC) then Done (Err "invalid event log magic/version"%string)
      else
        match read_frame rest with
        | None => Done (Err "event log configuration/version mismatch or corrupt header"%string)
        | Some (r, rest) =>
          if bool_decide (r <> header) then Done (Err "event log configuration/version mismatch or corrupt header"%string)
          else
            let* tail := read_records (S (length rest)) 1 (length file - length rest) rest in
            Done (match tail with
                  | Err e => Err e
                  | Ok (rs, seq, good) => Ok (mkEventLog (take good file) seq false, rs)
                  end)
        end
    end
  end.

(** What the disk did with a write: all of it is durable, or an error after the
    first bytes. *)
Inductive DiskWrite : Type := Synced | Torn (n : nat).

(** [EventLog::append]. *)
Definition log_append (sym : string) (at_ : Time) (kind : Z) (payload : list Z) (disk : DiskWrite) (log : EventLog)
    : result unit string * EventLog :=
  if log_failed log then (Err "event log is failed; restart required"%string, log)
  else
    match frame (mkLogRecord (next_seq log) (seconds at_) (nanos at_) sym kind payload) with
    | Err e => (Err e, log)
    | Ok bytes =>
      if u64_max <=? next_seq log then (Err "event sequence exhausted"%string, log)
      else
        match disk with
        | Torn n => (Err "write failed"%string, mkEventLog (log_file log ++ take n bytes) (next_seq log) true)
        | Synced => (Ok tt, mkEventLog (log_file log ++ bytes) (next_seq log + 1) false)
        end
    end.
End frames.
