(* ===== verification/WireSamples.v ===== *)
(** * A concrete message encoding

    The log's theorems hold for any encoding with prost's laws. This is one: a
    message is numbered and the bits of its number are the bytes. *)

From S2P Require Import Prelude BTree Text Bytes Order Session SymbolConfig Proto Reports EventLog.

(** ** Definitions *)

Fixpoint pos_bits (p : positive) : list Z :=
  match p with xH => [1] | xO p => 0 :: pos_bits p | xI p => 1 :: pos_bits p end.

Fixpoint bits_pos (l : list Z) : option positive :=
  match l with
  | [] => None
  | [b] => if b =? 1 then Some xH else None
  | b :: l => (if b =? 1 then xI else xO) <$> bits_pos l
  end.

Definition wire_of (A : Type) `{Countable A} : Wire A :=
  {| encode_to_vec a := pos_bits (encode a); wire_decode l := match bits_pos l with Some p => decode p | None => None end |}.

(** Messages can be numbered. *)
Ltac record_eq := solve_decision.

#[export] Instance NewOrderSingle_eq_dec : EqDecision NewOrderSingle.
Proof. record_eq. Defined.
#[export] Instance OrderCancelRequest_eq_dec : EqDecision OrderCancelRequest.
Proof. record_eq. Defined.
#[export] Instance OrderCancelReplaceRequest_eq_dec : EqDecision OrderCancelReplaceRequest.
Proof. record_eq. Defined.
#[export] Instance OrderMassCancelRequest_eq_dec : EqDecision OrderMassCancelRequest.
Proof. record_eq. Defined.
#[export] Instance SessionControl_eq_dec : EqDecision SessionControl.
Proof. record_eq. Defined.

#[export] Program Instance LogRecord_countable : Countable LogRecord :=
  inj_countable' (fun r => (lr_seq r, lr_seconds r, lr_nanos r, lr_symbol r, lr_kind r, lr_payload r))
    (fun '(a, b, c, d, e, f) => mkLogRecord a b c d e f) _.
Next Obligation. by intros []. Qed.

#[export] Program Instance NewOrderSingle_countable : Countable NewOrderSingle :=
  inj_countable' (fun m => (n_order_id m, n_sender m, n_symbol m, n_price m, n_side m, n_quantity m, n_order_type m, n_time_in_force m,
                            (n_stop_price m, n_expire_date m, n_account m, n_client_order_id m, n_stp_mode m, n_stp_group m, n_display_quantity m)))
    (fun '(a, b, c, d, e, f, g, h, (i, j, k, l, m, n, o)) => mkNewOrder a b c d e f g h i j k l m n o) _.
Next Obligation. by intros []. Qed.

#[export] Program Instance OrderCancelRequest_countable : Countable OrderCancelRequest :=
  inj_countable' (fun m => (oc_order_id m, oc_client_cancel_id m, oc_sender m, oc_symbol m)) (fun '(a, b, c, d) => mkCancelRequest a b c d) _.
Next Obligation. by intros []. Qed.

#[export] Program Instance OrderCancelReplaceRequest_countable : Countable OrderCancelReplaceRequest :=
  inj_countable' (fun m => (or_order_id m, or_new_order_id m, or_client_replace_id m, or_sender m, or_symbol m,
                            (or_new_price m, or_new_quantity m, or_new_time_in_force m, or_new_stop_price m, or_new_display_quantity m)))
    (fun '(a, b, c, d, e, (f, g, h, i, j)) => mkReplaceRequest a b c d e f g h i j) _.
Next Obligation. by intros []. Qed.

#[export] Program Instance OrderMassCancelRequest_countable : Countable OrderMassCancelRequest :=
  inj_countable' (fun m => (om_sender m, om_symbol m, om_side m, om_client_request_id m, om_reason m))
    (fun '(a, b, c, d, e) => mkMassCancelRequest a b c d e) _.
Next Obligation. by intros []. Qed.

#[export] Program Instance SessionControl_countable : Countable SessionControl :=
  inj_countable' (fun m => (sc_request_id m, sc_sender m, sc_opening_call_seconds m, sc_symbol m))
    (fun '(a, b, c, d) => mkSessionControl a b c d) _.
Next Obligation. by intros []. Qed.

#[export] Instance FXPHeader_eq_dec : EqDecision FXPHeader.
Proof. record_eq. Defined.
#[export] Instance Timestamp_eq_dec : EqDecision Timestamp.
Proof. record_eq. Defined.
#[export] Instance Report_eq_dec : EqDecision Report.
Proof. record_eq. Defined.
#[export] Instance TradeCapture_eq_dec : EqDecision TradeCapture.
Proof. record_eq. Defined.
#[export] Instance SessionStatus_eq_dec : EqDecision SessionStatus.
Proof. record_eq. Defined.
#[export] Instance AuctionInfo_eq_dec : EqDecision AuctionInfo.
Proof. record_eq. Defined.

#[export] Program Instance FXPHeader_countable : Countable FXPHeader :=
  inj_countable' (fun h => (protocol_version h, sequence_number h)) (fun '(a, b) => mkHeader a b) _.
Next Obligation. by intros []. Qed.

#[export] Program Instance Timestamp_countable : Countable Timestamp :=
  inj_countable' (fun t => (ts_seconds t, ts_nanos t)) (fun '(a, b) => mkTimestamp a b) _.
Next Obligation. by intros []. Qed.

#[export] Program Instance Report_countable : Countable Report :=
  inj_countable' (fun r => (header r, execution_id r, rep_order_id r, rep_symbol r, execution_type r, order_status r,
                            (execution_price r, executed_quantity r, rep_timestamp r, leaves_quantity r, avg_px r, cum_quantity r, rep_account r),
                            (rep_client_order_id r, orig_order_id r, reject_reason_text r, rep_side r, order_quantity r, auction r, rep_display_quantity r)))
    (fun '(a, b, c, d, e, f, (g, h, i, j, k, l, m), (n, o, p, q, r, s, t)) => mkReport a b c d e f g h i j k l m n o p q r s t) _.
Next Obligation. by intros []. Qed.

#[export] Program Instance TradeCapture_countable : Countable TradeCapture :=
  inj_countable' (fun t => (tr_header t, trade_id t, tr_buy_order_id t, tr_sell_order_id t, tr_symbol t, tr_price t,
                            (tr_quantity t, tr_timestamp t, tr_aggressor_side t, tr_seq t, is_auction t)))
    (fun '(a, b, c, d, e, f, (g, h, i, j, k)) => mkTrade a b c d e f g h i j k) _.
Next Obligation. by intros []. Qed.

#[export] Program Instance SessionStatus_countable : Countable SessionStatus :=
  inj_countable' (fun m => (ss_symbol m, ss_phase m, ss_timestamp m)) (fun '(a, b, c) => mkSessionStatus a b c) _.
Next Obligation. by intros []. Qed.

#[export] Program Instance AuctionInfo_countable : Countable AuctionInfo :=
  inj_countable' (fun m => (ai_symbol m, ai_phase m, indicative_price m, indicative_volume m, imbalance_quantity m, imbalance_side m,
                            reference_price m, ai_timestamp m))
    (fun '(a, b, c, d, e, f, g, h) => mkAuctionInfo a b c d e f g h) _.
Next Obligation. by intros []. Qed.

(** ** Laws *)

Lemma bits_pos_bits p : bits_pos (pos_bits p) = Some p.
Proof.
  induction p as [p IH|p IH|]; [| |done]; simpl; (destruct (pos_bits p) eqn:E; [by destruct p|]); by rewrite IH.
Qed.

Lemma wire_of_laws (A : Type) `{Countable A} : @WireLaws A (wire_of A).
Proof.
  split; intros a; simpl.
  - induction (encode a); simpl; repeat constructor; try done.
  - by rewrite bits_pos_bits, decode_encode.
Qed.
