(* ===== verification/LogRecovery.v ===== *)
(** * Recovery of the event log

    Frames can be told from what follows them, a torn or damaged frame is
    recognised, and what [open_log] reads back is what [log_append] acknowledged. *)

From S2P Require Import Prelude BTree Text Bytes Order Session SymbolConfig Proto Reports EventLog WireSamples.

(** ** Words of 32 bits *)

Lemma lxor_range n a b : 0 <= n -> 0 <= a < 2 ^ n -> 0 <= b < 2 ^ n -> 0 <= Z.lxor a b < 2 ^ n.
Proof.
  intros Hn Ha Hb. assert (Z.lxor a b = Z.lxor a b mod 2 ^ n) as ->; [|apply Z.mod_pos_bound; lia].
  apply Z.bits_inj'. intros i Hi. destruct (Z.lt_ge_cases i n).
  - by rewrite Z.mod_pow2_bits_low.
  - rewrite Z.mod_pow2_bits_high by lia. rewrite Z.lxor_spec.
    rewrite <- (Z.mod_small a (2 ^ n)), <- (Z.mod_small b (2 ^ n)) by done. by rewrite !Z.mod_pow2_bits_high by lia.
Qed.

Lemma lxor_inj_l a b c : Z.lxor a c = Z.lxor b c -> a = b.
Proof.
  intros H. apply (f_equal (fun z => Z.lxor z c)) in H. by rewrite !Z.lxor_assoc, Z.lxor_nilpotent, !Z.lxor_0_r in H.
Qed.

Definition crc_ok (c : Z) : Prop := 0 <= c < 2 ^ 32.

Lemma land_1 c : Z.land c 1 = c mod 2.
Proof. change 1 with (Z.ones 1) at 1. rewrite Z.land_ones by lia. done. Qed.

(** The round as a conditional. *)
Lemma crc_round_eq c : crc_ok c -> crc_round c = Z.lxor (c / 2) (if Z.odd c then 3988292384 else 0).
Proof.
  intros Hc. unfold crc_round. rewrite Z.shiftr_div_pow2 by lia. rewrite land_1. change (2 ^ 1) with 2. f_equal.
  rewrite Zmod_odd. destruct (Z.odd c).
  - change (sub32 0 1) with (Z.ones 32). rewrite Z.land_ones by lia. done.
  - done.
Qed.

Lemma crc_round_ok c : crc_ok c -> crc_ok (crc_round c).
Proof.
  intros Hc. rewrite crc_round_eq by done. unfold crc_ok in *. apply lxor_range; [lia| |destruct (Z.odd c); lia].
  split; [apply Z.div_pos; lia|]. apply Z.div_lt_upper_bound; lia.
Qed.

Lemma crc_round_top c : crc_ok c -> Z.testbit (crc_round c) 31 = Z.odd c.
Proof.
  intros Hc. rewrite crc_round_eq by done. rewrite Z.lxor_spec.
  assert (Z.testbit (c / 2) 31 = false) as ->.
  { unfold crc_ok in Hc. rewrite <- (Z.mod_small (c / 2) (2 ^ 31)); [by apply Z.mod_pow2_bits_high|].
    split; [apply Z.div_pos; lia|apply Z.div_lt_upper_bound; lia]. }
  by destruct (Z.odd c).
Qed.

(** No two words have the same successor. *)
Lemma crc_round_inj a b : crc_ok a -> crc_ok b -> crc_round a = crc_round b -> a = b.
Proof.
  intros Ha Hb H. assert (Z.odd a = Z.odd b) as Ho by (rewrite <- !crc_round_top by done; by rewrite H).
  rewrite !crc_round_eq, Ho in H by done. apply lxor_inj_l in H.
  rewrite (Z.div_mod a 2), (Z.div_mod b 2) by lia. rewrite !Zmod_odd, Ho, H. done.
Qed.

Lemma crc_iter n a b : crc_ok a -> crc_ok b ->
  crc_ok (Nat.iter n crc_round a) /\ (Nat.iter n crc_round a = Nat.iter n crc_round b -> a = b).
Proof.
  intros Ha Hb. induction n as [|n IH]; [by split|]. simpl. destruct IH as [IH1 IH2].
  split; [by apply crc_round_ok|]. intros H. apply IH2. apply crc_round_inj; [done| |done].
  clear -Hb. induction n; [done|]. by apply crc_round_ok.
Qed.

Lemma crc_byte_inj a b x y : crc_ok a -> crc_ok b -> is_byte x -> is_byte y ->
  crc_ok (crc_byte a x) /\ (crc_byte a x = crc_byte b y -> Z.lxor a x = Z.lxor b y).
Proof.
  intros Ha Hb Hx Hy. unfold crc_byte.
  assert (crc_ok (Z.lxor a x) /\ crc_ok (Z.lxor b y)) as [H1 H2].
  { unfold crc_ok, is_byte in *. split; apply lxor_range; lia. }
  by apply (crc_iter 8).
Qed.

Lemma crc_fold_ok l : forall a, crc_ok a -> Forall is_byte l -> crc_ok (foldl crc_byte a l).
Proof.
  induction l as [|x l IH]; intros a Ha Hl; [done|]. apply Forall_cons in Hl as [Hx Hl]. simpl.
  apply IH; [|done]. by apply (crc_byte_inj a a x x).
Qed.

Lemma crc_fold_inj l : forall a b, crc_ok a -> crc_ok b -> Forall is_byte l -> foldl crc_byte a l = foldl crc_byte b l -> a = b.
Proof.
  induction l as [|x l IH]; intros a b Ha Hb Hl H; [done|]. apply Forall_cons in Hl as [Hx Hl]. simpl in H.
  apply IH in H; [|by apply (crc_byte_inj a a x x)|by apply (crc_byte_inj b b x x)|done].
  apply (crc_byte_inj a b x x) in H; [|done..]. by apply lxor_inj_l in H.
Qed.

Lemma crc32_ok l : Forall is_byte l -> crc_ok (crc32 l).
Proof.
  intros Hl. unfold crc32. apply lxor_range; [lia| |unfold u32_max; lia]. apply crc_fold_ok; [|done]. unfold crc_ok, u32_max. lia.
Qed.

(** A checksum tells any two messages apart that differ in one byte. *)
Lemma crc32_one_byte l x y r :
  Forall is_byte l -> is_byte x -> is_byte y -> Forall is_byte r -> x <> y -> crc32 (l ++ x :: r) <> crc32 (l ++ y :: r).
Proof.
  intros Hl Hx Hy Hr Hne H. unfold crc32 in H. apply lxor_inj_l in H. rewrite !foldl_app in H. cbn [foldl] in H.
  set (c := foldl crc_byte u32_max l) in *.
  assert (crc_ok c) as Hc by (apply crc_fold_ok; [unfold crc_ok, u32_max; lia|done]).
  apply crc_fold_inj in H; [|by apply (crc_byte_inj c c x x)|by apply (crc_byte_inj c c y y)|done].
  apply (crc_byte_inj c c x y) in H; [|done..]. apply Hne, (lxor_inj_l x y c). by rewrite (Z.lxor_comm x), (Z.lxor_comm y).
Qed.

Section recovery.
Context `{!Wire LogRecord, !WireLaws LogRecord}.

(** ** Definitions *)

(** A record and its frame. *)
Definition framed (r : LogRecord) (bytes : list Z) : Prop := frame r = Ok bytes.

(** Records numbered from [seq]. *)
Fixpoint numbered (seq : Z) (rs : list LogRecord) : Prop :=
  match rs with [] => True | r :: rs => lr_seq r = seq /\ seq < u64_max /\ numbered (seq + 1) rs end.

(** What reading stops at. *)
Definition no_frame (tail : list Z) : Prop := tail = [] \/ read_frame tail = None.

(** [recorded schedule stp config log rs lost]: the log was created for a
    configuration, acknowledged the records [rs], and, if it failed, was writing
    [lost] then. *)
Inductive recorded schedule stp config : EventLog -> list LogRecord -> option LogRecord -> Prop :=
| recorded_new log :
    open_log schedule stp config [] = Done (Ok (log, [])) -> recorded schedule stp config log [] None
| recorded_append log rs sym at_ kind payload log' :
    recorded schedule stp config log rs None ->
    log_append sym at_ kind payload Synced log = (Ok tt, log') ->
    recorded schedule stp config log' (rs ++ [mkLogRecord (next_seq log) (seconds at_) (nanos at_) sym kind payload]) None
| recorded_torn log rs sym at_ kind payload n log' e :
    recorded schedule stp config log rs None ->
    log_append sym at_ kind payload (Torn n) log = (Err e, log') -> log_failed log' = true ->
    recorded schedule stp config log' rs (Some (mkLogRecord (next_seq log) (seconds at_) (nanos at_) sym kind payload)).

(** ** Frames *)

Lemma frame_inv r bytes :
  frame r = Ok bytes ->
  let body := encode_to_vec r in
  let n := Z.of_nat (length body) in
  0 < n <= MAX_RECORD /\ bytes = be_bytes 4 n ++ body ++ be_bytes 4 (crc32 (be_bytes 4 n ++ body)).
Proof.
  unfold frame. destruct (is_nil (encode_to_vec r)) eqn:Hn; [done|]. apply is_nil_false in Hn. cbn [orb].
  destruct (Z.ltb_spec MAX_RECORD (Z.of_nat (length (encode_to_vec r)))); [done|]. intros <-%Ok_inj. cbv zeta.
  assert (0 < Z.of_nat (length (encode_to_vec r))) as Hpos by (destruct (encode_to_vec r); simpl in *; [done|lia]).
  assert (as_u32 (Z.of_nat (length (encode_to_vec r))) = Z.of_nat (length (encode_to_vec r))) as ->
    by (apply wrap32_small; unfold is_u32, u32_max, MAX_RECORD in *; lia).
  split; [lia|]. by rewrite <- app_assoc.
Qed.

Lemma read_exact_app l rest n : length l = n -> read_exact_or_tail n (l ++ rest) = Some (l, rest).
Proof.
  intros <-. unfold read_exact_or_tail. rewrite length_app. destruct (Nat.leb_spec (length l) (length l + length rest)); [|lia].
  by rewrite take_app_length, drop_app_length.
Qed.

(** A frame with any body and checksum of its length. *)
Lemma read_frame_parts n body sum rest :
  0 < n <= MAX_RECORD -> length body = Z.to_nat n -> length sum = 4%nat ->
  read_frame (be_bytes 4 n ++ body ++ sum ++ rest) =
    if bool_decide (crc32 (be_bytes 4 n ++ body) <> from_be sum) then None
    else match wire_decode body with Some r => Some (r, rest) | None => None end.
Proof.
  intros Hn Hb Hs. unfold read_frame. rewrite read_exact_app by apply length_be.
  rewrite from_be_bytes by (unfold MAX_RECORD in Hn; lia).
  destruct (Z.eqb_spec n 0); [lia|]. destruct (Z.ltb_spec MAX_RECORD n); [lia|]. cbn [orb].
  rewrite app_assoc, read_exact_app by (rewrite length_app; lia).
  by rewrite <- Hb, take_app_length, drop_app_length.
Qed.

Lemma crc_word l : Forall is_byte l -> from_be (be_bytes 4 (crc32 l)) = crc32 l.
Proof. intros Hl. apply from_be_bytes. apply (crc32_ok l Hl). Qed.

Lemma read_frame_app r bytes rest : frame r = Ok bytes -> read_frame (bytes ++ rest) = Some (r, rest).
Proof.
  intros H. destruct (frame_inv r bytes H) as [Hn ->]. rewrite <- !app_assoc.
  rewrite read_frame_parts; [|done|lia|apply length_be].
  rewrite crc_word by (apply Forall_app; split; [apply be_bytes_ok|apply wire_bytes]).
  rewrite bool_decide_false by (intros Hx; by apply Hx). by rewrite wire_roundtrip.
Qed.

Lemma length_frame r bytes : frame r = Ok bytes -> (length bytes = length (encode_to_vec r) + 8)%nat.
Proof. intros H. destruct (frame_inv r bytes H) as [_ ->]. rewrite !length_app, !length_be. lia. Qed.

(** A frame cut short is recognised. *)
Lemma read_frame_torn r bytes k : frame r = Ok bytes -> (k < length bytes)%nat -> read_frame (take k bytes) = None.
Proof.
  intros H Hk. pose proof (length_frame _ _ H) as Hl. destruct (frame_inv r bytes H) as [Hn Hb].
  unfold read_frame. unfold read_exact_or_tail at 1. rewrite length_take_le by lia.
  destruct (Nat.leb_spec 4 k); [|done]. rewrite Hb, take_take, Nat.min_l by done.
  rewrite (take_app_le (be_bytes 4 _)) by (rewrite length_be; lia). rewrite take_ge by (rewrite length_be; lia).
  rewrite from_be_bytes by (unfold MAX_RECORD in Hn; lia).
  destruct (Z.eqb_spec (Z.of_nat (length (encode_to_vec r))) 0); [lia|].
  destruct (Z.ltb_spec MAX_RECORD (Z.of_nat (length (encode_to_vec r)))); [lia|]. cbn [orb].
  unfold read_exact_or_tail. rewrite length_drop, length_take_le by (rewrite !length_app, !length_be; lia).
  destruct (Nat.leb_spec (Z.to_nat (Z.of_nat (length (encode_to_vec r))) + 4) (k - 4)); [lia|done].
Qed.

(** A frame with one byte changed after its length is recognised. *)
Lemma read_frame_changed r bytes l x y tl rest :
  frame r = Ok bytes -> bytes = l ++ x :: tl -> (4 <= length l)%nat -> is_byte y -> x <> y ->
  read_frame (l ++ y :: tl ++ rest) = None.
Proof.
  intros H Hsplit Hl Hy Hne. destruct (frame_inv r bytes H) as [Hn Hb]. pose proof (wire_bytes r) as Hwb.
  set (body := encode_to_vec r) in *. set (n := Z.of_nat (length body)) in *. set (head := be_bytes 4 n) in *.
  assert (Forall is_byte head) as Hh by apply be_bytes_ok. assert (length head = 4%nat) as Hlh by apply length_be.
  assert (exists l', l = head ++ l') as [l' ->].
  { exists (drop 4 l). rewrite <- (take_drop 4 l) at 1. f_equal.
    transitivity (take 4 bytes); [rewrite Hsplit; by rewrite take_app_le|]. rewrite Hb. by rewrite take_app_le, take_ge by lia. }
  rewrite Hsplit, <- app_assoc in Hb. apply app_inv_head in Hb. rewrite <- app_assoc.
  destruct (decide (length l' < length body)%nat) as [Hin|Hin].
  - assert (body = l' ++ x :: take (length body - S (length l')) tl /\
      be_bytes 4 (crc32 (head ++ body)) = drop (length body - S (length l')) tl) as [Hbody Hsum].
    { apply app_inj_length; [|by rewrite <- app_assoc; simpl; rewrite take_drop, Hb].
      apply (f_equal length) in Hb. rewrite !length_app in Hb. simpl in Hb. rewrite ?length_be in Hb.
      rewrite length_app. simpl. rewrite length_take_le by lia. lia. }
    set (t := take _ tl) in *. set (sum := drop _ tl) in *.
    assert (l' ++ y :: tl ++ rest = (l' ++ y :: t) ++ sum ++ rest) as ->
      by (rewrite <- app_assoc; simpl; unfold t, sum; by rewrite (app_assoc (take _ tl)), take_drop).
    unfold head. rewrite read_frame_parts; [|done| |by rewrite <- Hsum, length_be].
    2: { rewrite length_app. unfold n. rewrite Nat2Z.id. rewrite Hbody at 1. by rewrite length_app. }
    rewrite bool_decide_true; [done|]. fold head. rewrite <- Hsum, crc_word by (apply Forall_app; done).
    rewrite Hbody. rewrite Hbody, Forall_app, Forall_cons in Hwb. destruct Hwb as (Hw1 & Hwx & Hw2).
    intros E. symmetry in E. rewrite !app_assoc in E. revert E. apply crc32_one_byte; [by apply Forall_app|done..].
  - assert (exists s, l' = body ++ s /\ be_bytes 4 (crc32 (head ++ body)) = s ++ x :: tl) as (s & -> & Hsum).
    { exists (drop (length body) l'). assert (body = take (length body) l') as Ht.
      { transitivity (take (length body) (l' ++ x :: tl)); [by rewrite Hb, take_app_length|]. by rewrite take_app_le by lia. }
      split; [rewrite Ht at 1; by rewrite take_drop|].
      transitivity (drop (length body) (l' ++ x :: tl)); [by rewrite Hb, drop_app_length|]. by rewrite drop_app_le by lia. }
    rewrite <- !app_assoc. assert (s ++ y :: tl ++ rest = (s ++ y :: tl) ++ rest) as -> by (by rewrite <- app_assoc).
    unfold head. rewrite read_frame_parts; [|done|by unfold n; rewrite Nat2Z.id|].
    2: { apply (f_equal length) in Hsum. rewrite length_be, length_app in Hsum. rewrite length_app. simpl in *. lia. }
    rewrite bool_decide_true; [done|]. fold head. intros E.
    assert (Forall is_byte (s ++ x :: tl)) as Hs by (rewrite <- Hsum; apply be_bytes_ok).
    assert (Forall is_byte (s ++ y :: tl)) as Hs' by (apply Forall_app in Hs as [? [? ?]%Forall_cons]; apply Forall_app; split; [done|by constructor]).
    rewrite <- crc_word in E by (by apply Forall_app). unfold from_be in E. rewrite Hsum in E.
    apply from_be_inj in E as [_ E]; [|by rewrite !length_app|done|done]. apply app_inv_head in E. by injection E.
Qed.

(** ** Reading a log *)

Lemma read_frame_shrinks file r rest : read_frame file = Some (r, rest) -> (length rest < length file)%nat.
Proof.
  unfold read_frame, read_exact_or_tail. destruct (Nat.leb_spec 4 (length file)); [|done].
  destruct (_ || _); [done|]. destruct (Nat.leb_spec (Z.to_nat (from_be (take 4 file)) + 4) (length (drop 4 file))); [|done].
  destruct (bool_decide _); [done|]. destruct (wire_decode _); [|done]. intros [= _ <-]. rewrite !length_drop. lia.
Qed.

(** The length of a file is enough fuel for it. *)
Lemma read_records_total fuel : forall seq good file, (length file < fuel)%nat -> exists r, read_records fuel seq good file = Done r.
Proof.
  induction fuel as [|fuel IH]; intros seq good file Hf; [lia|]. cbn [read_records].
  destruct (is_nil file); [eauto|]. destruct (read_frame file) as [[r rest]|] eqn:Hr; [|eauto].
  destruct (negb _); [eauto|]. destruct (_ <=? _); [eauto|]. apply read_frame_shrinks in Hr.
  destruct (IH (seq + 1) (good + (length file - length rest))%nat rest) as [tail ->]; [lia|]. cbn [obind]. eauto.
Qed.

Lemma read_records_frames rs : forall bss fuel seq good tail,
  Forall2 framed rs bss -> numbered seq rs -> no_frame tail -> (length (concat bss ++ tail) < fuel)%nat ->
  read_records fuel seq good (concat bss ++ tail) = Done (Ok (rs, seq + Z.of_nat (length rs), (good + length (concat bss))%nat)).
Proof.
  induction rs as [|r rs IH]; intros bss fuel seq good tail Hf Hnum Ht Hfuel.
  - apply Forall2_nil_inv_l in Hf as ->. simpl. rewrite Z.add_0_r, Nat.add_0_r. destruct fuel as [|fuel]; [simpl in Hfuel; lia|].
    cbn [read_records]. destruct Ht as [->|Ht]; [done|]. destruct (is_nil tail); [done|]. by rewrite Ht.
  - apply Forall2_cons_inv_l in Hf as (b & bss' & Hb & Hf & ->). destruct Hnum as (Hseq & Hlt & Hnum).
    destruct fuel as [|fuel]; [lia|]. cbn [read_records]. pose proof (length_frame _ _ Hb) as Hlen.
    simpl concat. rewrite <- app_assoc in *. destruct (is_nil (b ++ concat bss' ++ tail)) eqn:Hn.
    { apply is_nil_true in Hn. apply app_eq_nil in Hn as [-> _]. simpl in Hlen. lia. }
    rewrite (read_frame_app _ _ _ Hb), Hseq, Z.eqb_refl. cbn [negb].
    destruct (Z.leb_spec u64_max seq); [lia|]. rewrite (IH bss' fuel); [|done..|].
    + cbn [obind]. do 2 f_equal. rewrite !length_app. f_equal; [f_equal; simpl; lia|lia].
    + simpl concat in Hfuel. rewrite <- app_assoc, length_app in Hfuel. lia.
Qed.

Lemma open_log_frames schedule stp config h rs bss tail :
  frame (config_record schedule stp config) = Ok h -> Forall2 framed rs bss -> numbered 1 rs -> no_frame tail ->
  open_log schedule stp config (MAGIC ++ h ++ concat bss ++ tail) =
    Done (Ok (mkEventLog (MAGIC ++ h ++ concat bss) (1 + Z.of_nat (length rs)) false, rs)).
Proof.
  intros Hh Hf Hnum Ht. unfold open_log. cbn [is_nil]. change (is_nil (MAGIC ++ h ++ concat bss ++ tail)) with false. cbn iota.
  rewrite read_exact_app by reflexivity. rewrite bool_decide_false by (intros Hx; by apply Hx).
  rewrite (read_frame_app _ _ _ Hh). rewrite bool_decide_false by (intros Hx; by apply Hx).
  rewrite (read_records_frames rs bss) by (done || lia). cbn [obind]. do 4 f_equal.
  rewrite !length_app. replace (length MAGIC + (length h + (length (concat bss) + length tail)) - (length (concat bss) + length tail) + length (concat bss))%nat
    with (length (MAGIC ++ h ++ concat bss)) by (rewrite !length_app; lia).
  rewrite !app_assoc. by rewrite take_app_length.
Qed.

Lemma open_log_new schedule stp config h :
  frame (config_record schedule stp config) = Ok h -> open_log schedule stp config [] = Done (Ok (mkEventLog (MAGIC ++ h) 1 false, [])).
Proof.
  intros Hh. pose proof (open_log_frames schedule stp config h [] [] [] Hh) as H. simpl concat in H. rewrite !app_nil_r in H.
  transitivity (open_log schedule stp config (MAGIC ++ h)); [|apply H; [by constructor|done|by left]]. unfold open_log. cbn [is_nil]. rewrite Hh.
  change (is_nil (MAGIC ++ h)) with false. done.
Qed.

(** ** What a log holds *)

Record holds schedule stp config (log : EventLog) (rs : list LogRecord) (h : list Z) (bss : list (list Z)) : Prop := {
  ho_header : frame (config_record schedule stp config) = Ok h;
  ho_frames : Forall2 framed rs bss;
  ho_numbers : numbered 1 rs;
  ho_seq : next_seq log = 1 + Z.of_nat (length rs);
  ho_file : log_file log = MAGIC ++ h ++ concat bss;
  ho_live : log_failed log = false;
}.

Lemma numbered_snoc rs : forall seq r, numbered seq rs -> lr_seq r = seq + Z.of_nat (length rs) -> lr_seq r < u64_max -> numbered seq (rs ++ [r]).
Proof.
  induction rs as [|x rs IH]; intros seq r Hn Hr Hlt; simpl in *; [lia|]. destruct Hn as (? & ? & Hn).
  split_and!; [done|done|]. apply IH; [done|lia|done].
Qed.

(** An append that goes through, or stops after some bytes. *)
Lemma log_append_cases schedule stp config log rs h bss sym at_ kind payload disk res log' :
  holds schedule stp config log rs h bss -> log_append sym at_ kind payload disk log = (res, log') ->
  let r := mkLogRecord (next_seq log) (seconds at_) (nanos at_) sym kind payload in
  log' = log /\ res <> Ok tt \/
  exists b, framed r b /\ next_seq log < u64_max /\
    match disk with
    | Synced => res = Ok tt /\ holds schedule stp config log' (rs ++ [r]) h (bss ++ [b])
    | Torn n => res <> Ok tt /\ log' = mkEventLog (log_file log ++ take n b) (next_seq log) true
    end.
Proof.
  intros [Hh Hf Hn Hs Hfile Hl] H. unfold log_append in H. rewrite Hl in H.
  destruct (frame (mkLogRecord (next_seq log) (seconds at_) (nanos at_) sym kind payload)) as [b|e] eqn:Hb; [|left; by simplify_eq].
  destruct (Z.leb_spec u64_max (next_seq log)) as [Hlt|Hlt]; [left; by simplify_eq|]. right. exists b. split_and!; [done|done|].
  destruct disk; simplify_eq; [|done]. split; [done|]. split; try done.
  - by apply Forall2_app; [|constructor].
  - apply numbered_snoc; simpl; [done|lia|done].
  - simpl. rewrite Hs, length_app. simpl. lia.
  - simpl. rewrite Hfile, concat_app. simpl. rewrite app_nil_r, !app_assoc. done.
Qed.

Lemma recorded_holds schedule stp config log rs lost :
  recorded schedule stp config log rs lost ->
  match lost with
  | None => exists h bss, holds schedule stp config log rs h bss
  | Some r => exists log0 h bss b n, recorded schedule stp config log0 rs None /\ holds schedule stp config log0 rs h bss /\ framed r b /\
      lr_seq r = next_seq log0 /\ next_seq log0 < u64_max /\ log = mkEventLog (log_file log0 ++ take n b) (next_seq log0) true /\
      recorded schedule stp config (mkEventLog (log_file log0 ++ b) (next_seq log0 + 1) false) (rs ++ [r]) None
  end.
Proof.
  induction 1 as [log Ho|log rs sym at_ kind payload log' Hr [h [bss IH]] Ha|log rs sym at_ kind payload n log' e Hr [h [bss IH]] Ha Hfail].
  - unfold open_log in Ho. cbn [is_nil] in Ho. destruct (frame (config_record schedule stp config)) as [h|] eqn:Hh; [|done].
    exists h, []. pose proof (open_log_new _ _ _ _ Hh) as Hnew. unfold open_log in Hnew. cbn [is_nil] in Hnew. rewrite Hh, Ho in Hnew.
    injection Hnew as ->. split; simpl; try done. by rewrite app_nil_r.
  - destruct (log_append_cases _ _ _ _ _ _ _ _ _ _ _ _ _ _ IH Ha) as [[_ H]|(b & Hb & _ & _ & H)]; [done|eauto].
  - destruct (log_append_cases _ _ _ _ _ _ _ _ _ _ _ _ _ _ IH Ha) as [[-> _]|(b & Hb & Hlt & _ & ->)].
    { by rewrite (ho_live _ _ _ _ _ _ _ IH) in Hfail. }
    exists log, h, bss, b, n. split_and!; [done..|]. eapply recorded_append; [exact Hr|].
    unfold log_append. rewrite (ho_live _ _ _ _ _ _ _ IH). unfold framed in Hb. rewrite Hb.
    destruct (Z.leb_spec u64_max (next_seq log)); [lia|done].
Qed.

(** Opening what a log has written. *)
Lemma log_reopens schedule stp config log rs lost :
  recorded schedule stp config log rs lost ->
  exists log' rs', open_log schedule stp config (log_file log) = Done (Ok (log', rs')) /\
    recorded schedule stp config log' rs' None /\ next_seq log' = 1 + Z.of_nat (length rs') /\
    log_file log' `prefix_of` log_file log /\
    (rs' = rs /\ next_seq log' = next_seq log \/ exists r, lost = Some r /\ rs' = rs ++ [r] /\ log_file log' = log_file log).
Proof.
  intros H. pose proof (recorded_holds _ _ _ _ _ _ H) as Hh. destruct lost as [r|].
  - destruct Hh as (log0 & h & bss & b & n & Hr0 & [H1 H2 H3 H4 H5 H6] & Hb & Hseq & Hlt & -> & Hr1). cbn [log_file next_seq].
    destruct (decide (length b <= n)%nat) as [Hle|Hle].
    + rewrite take_ge by done. exists (mkEventLog (log_file log0 ++ b) (next_seq log0 + 1) false), (rs ++ [r]).
      split_and!; [|done| |done|right; eauto].
      * pose proof (open_log_frames schedule stp config h (rs ++ [r]) (bss ++ [b]) [] H1) as Ho. rewrite app_nil_r in Ho.
        assert (log_file log0 ++ b = MAGIC ++ h ++ concat (bss ++ [b])) as E
          by (rewrite H5, concat_app; simpl; by rewrite app_nil_r, !app_assoc).
        rewrite E, Ho; [|by apply Forall2_app; [|constructor]|apply numbered_snoc; [done|lia|lia]|by left].
        do 4 f_equal. rewrite H4, length_app. simpl. lia.
      * simpl. rewrite H4, length_app. simpl. lia.
    + exists log0, rs. split_and!; [|done|done|by eexists|by left].
      rewrite H5, <- !app_assoc. rewrite (open_log_frames schedule stp config h rs bss); [|done..|right; by apply (read_frame_torn r); [|lia]].
      destruct log0 as [f s x]. simpl in *. by rewrite H4, H5, H6.
  - destruct Hh as (h & bss & [H1 H2 H3 H4 H5 H6]). exists log, rs. split_and!; [|done|done|done|by left].
    pose proof (open_log_frames schedule stp config h rs bss [] H1 H2 H3 ltac:(by left)) as Ho. rewrite app_nil_r in Ho.
    rewrite H5, Ho. destruct log as [f s x]. simpl in *. by rewrite H4, H5, H6.
Qed.

(** ** Theorems *)

(** C26: Reading the frame of a record in front of any bytes gives back the record
    and those bytes; reading it cut short anywhere, or with any one byte of its
    body or checksum changed, gives nothing. *)
Theorem frame_reading r bytes rest :
  frame r = Ok bytes ->
  read_frame (bytes ++ rest) = Some (r, rest) /\
  (forall k, (k < length bytes)%nat -> read_frame (take k bytes) = None) /\
  (forall l x y tl, bytes = l ++ x :: tl -> (4 <= length l)%nat -> is_byte y -> x <> y -> read_frame (l ++ y :: tl ++ rest) = None).
Proof.
  intros H. split_and!.
  - by apply read_frame_app.
  - intros k Hk. by apply (read_frame_torn r).
  - intros l x y tl Hb Hl Hy Hne. by eapply read_frame_changed.
Qed.

(** Opening what a log has written gives back exactly the records it
    acknowledged, in order, with the next sequence number, and a log that goes on
    as if it had not been closed. After a failed write, however many of its bytes
    reached the disk, the partial record is cut off; only if all of them did is
    the record of the failed write there as well. *)
Theorem log_recovers schedule stp config log rs lost :
  recorded schedule stp config log rs lost ->
  exists log' rs', open_log schedule stp config (log_file log) = Done (Ok (log', rs')) /\
    recorded schedule stp config log' rs' None /\ next_seq log' = 1 + Z.of_nat (length rs') /\
    log_file log' `prefix_of` log_file log /\
    (rs' = rs /\ next_seq log' = next_seq log \/ exists r, lost = Some r /\ rs' = rs ++ [r] /\ log_file log' = log_file log).
Proof. apply log_reopens. Qed.

(** Opening any file returns, whatever its bytes are: with an error, or with
    a log whose file is a prefix of it. *)
Theorem open_log_total schedule stp config file :
  exists res, open_log schedule stp config file = Done res /\
    match res with Ok (log, _) => file = [] \/ log_file log `prefix_of` file | Err _ => True end.
Proof.
  unfold open_log. set (created := if is_nil file then _ else Ok file).
  assert (match created with Ok f => file = [] \/ f = file | Err _ => True end) as Hc.
  { unfold created. destruct file; [|simpl; by right]. simpl. destruct (frame _); [by left|done]. }
  destruct created as [f|e]; [|by eexists].
  destruct (read_exact_or_tail 8 f) as [[magic rest]|]; [|by eexists]. case_bool_decide; [by eexists|].
  destruct (read_frame rest) as [[r rest']|]; [|by eexists]. case_bool_decide; [by eexists|].
  destruct (read_records_total (S (length rest')) 1 (length f - length rest') rest') as [tail ->]; [lia|]. cbn [obind].
  eexists. split; [done|]. destruct tail as [[[rs seq] good]|e]; [|done]. simpl. destruct Hc as [->| ->]; [by left|right].
  exists (drop good file). by rewrite take_drop.
Qed.
End recovery.

(** ** Witnesses *)

#[local] Existing Instance wire_of.
#[local] Existing Instance wire_of_laws.

Definition sample_record : LogRecord := mkLogRecord 1 100 0 "FXP" 4 [].

Definition sample_frame : list Z := match frame sample_record with Ok b => b | Err _ => [] end.

Lemma frame_reading_witness :
  frame sample_record = Ok sample_frame /\ read_frame (sample_frame ++ [1; 2]) = Some (sample_record, [1; 2]) /\
  read_frame (take 20 sample_frame) = None.
Proof.
  assert (frame sample_record = Ok sample_frame) as E by (vm_compute; reflexivity).
  destruct (frame_reading sample_record sample_frame [1; 2] E) as (H1 & H2 & _).
  split_and!; [exact E|exact H1|]. apply H2. vm_compute. lia.
Defined.

(** A new log; two ticks are acknowledged and a third one is torn after 30 bytes. *)
Definition sample_tick (t : Z) (disk : DiskWrite) (log : EventLog) : result unit string * EventLog :=
  log_append "FXP" (mkTime t 0) 4 [] disk log.
Definition sample_log0 : EventLog :=
  match open_log None StpNone [] [] with Done (Ok (log, _)) => log | _ => mkEventLog [] 0 true end.
Definition sample_log1 : EventLog := (sample_tick 100 Synced sample_log0).2.
Definition sample_log2 : EventLog := (sample_tick 101 Synced sample_log1).2.
Definition sample_log3 : EventLog := (sample_tick 102 (Torn 30) sample_log2).2.
Definition sample_tick_record (log : EventLog) (t : Z) : LogRecord := mkLogRecord (next_seq log) t 0 "FXP" 4 [].

Lemma sample_recorded :
  recorded None StpNone [] sample_log3 ([sample_tick_record sample_log0 100] ++ [sample_tick_record sample_log1 101])
    (Some (sample_tick_record sample_log2 102)).
Proof.
  apply (recorded_torn None StpNone [] sample_log2 _ "FXP" (mkTime 102 0) 4 [] 30 _ "write failed"); [|vm_compute; reflexivity|vm_compute; reflexivity].
  apply (recorded_append None StpNone [] sample_log1 _ "FXP" (mkTime 101 0) 4 []); [|vm_compute; reflexivity].
  apply (recorded_append None StpNone [] sample_log0 [] "FXP" (mkTime 100 0) 4 []); [|vm_compute; reflexivity].
  apply recorded_new. vm_compute. reflexivity.
Qed.

Lemma log_recovers_witness :
  exists log' rs', open_log None StpNone [] (log_file sample_log3) = Done (Ok (log', rs')) /\
    rs' = [sample_tick_record sample_log0 100; sample_tick_record sample_log1 101].
Proof.
  destruct (log_recovers _ _ _ _ _ _ sample_recorded) as (log' & rs' & Ho & _ & _ & _ & Hcase).
  exists log', rs'. split; [exact Ho|]. destruct Hcase as [[-> _]|(r & _ & Hr & _)]; [reflexivity|]. exfalso.
  assert (match open_log None StpNone [] (log_file sample_log3) with Done (Ok (_, rs)) => length rs | _ => 0%nat end = 2%nat) as E
    by (vm_compute; reflexivity).
  rewrite Ho, Hr in E. discriminate E.
Defined.
