(* ===== verification/Engine.v ===== *)
(** * The engine of one symbol: engine.rs and engine/phases.rs

    The engine's state is a record with the fields of [Engine]; the clock is the
    time it answers, which the journal sets before each input and which does not
    change while an input is processed. The reporting fields sit together in a
    [Desk], whose outputs are the vector the operation in progress returns.
    Iteration over a [HashMap] is [map_to_list]; what depends on it is sorted
    afterwards or independent of the order. *)

From S2P Require Import Prelude BTree Text Order OrderBook Matcher Stops Session SymbolConfig Auction Proto Reports.

(** ** State *)

Record Engine (R I : Type) : Type := mkEngine {
  e_symbol : string;
  e_book : OrderBook;
  e_stops : StopBook;
  e_last : option Z;
  e_desk : Desk R I;
  e_clock : Time;
  e_schedule : option SessionSchedule;
  e_call_until : option Time;
  e_last_seen : Time;
  e_next_arrival : Z;
  e_phase : TradingPhase;
  e_call_markets : gmap string Order;
  e_held_close : gmap string Order;
  e_last_indicative : option AuctionResult;
  e_stp_default : StpMode;
  e_rules : SymbolRules;
  e_status_history : gmap string (string * Report);
  e_terminal_history : list (string * string);
}.
Arguments mkEngine {R I}.
Arguments e_symbol {R I}.
Arguments e_book {R I}.
Arguments e_stops {R I}.
Arguments e_last {R I}.
Arguments e_desk {R I}.
Arguments e_clock {R I}.
Arguments e_schedule {R I}.
Arguments e_call_until {R I}.
Arguments e_last_seen {R I}.
Arguments e_next_arrival {R I}.
Arguments e_phase {R I}.
Arguments e_call_markets {R I}.
Arguments e_held_close {R I}.
Arguments e_last_indicative {R I}.
Arguments e_stp_default {R I}.
Arguments e_rules {R I}.
Arguments e_status_history {R I}.
Arguments e_terminal_history {R I}.

#[export] Instance AuctionResult_eq_dec : EqDecision AuctionResult.
Proof. solve_decision. Defined.

(** Requests, as the journal hands them to the engine. *)
Record CancelMsg (R : Type) : Type := mkCancelMsg {
  c_order_id : string; c_sender : string; c_client_cancel_id : string; c_output_tx : R;
}.
Arguments mkCancelMsg {R}.
Arguments c_order_id {R}.
Arguments c_sender {R}.
Arguments c_client_cancel_id {R}.
Arguments c_output_tx {R}.

Record CancelReplaceMsg (R : Type) : Type := mkCancelReplaceMsg {
  cr_order_id : string; cr_sender : string; cr_new_order_id : string; cr_client_replace_id : string;
  cr_new_price : Z; cr_new_quantity : Z; cr_new_time_in_force : Z; cr_new_stop_price : Z;
  cr_new_display_quantity : option Z; cr_output_tx : R;
}.
Arguments mkCancelReplaceMsg {R}.
Arguments cr_order_id {R}.
Arguments cr_sender {R}.
Arguments cr_new_order_id {R}.
Arguments cr_client_replace_id {R}.
Arguments cr_new_price {R}.
Arguments cr_new_quantity {R}.
Arguments cr_new_time_in_force {R}.
Arguments cr_new_stop_price {R}.
Arguments cr_new_display_quantity {R}.
Arguments cr_output_tx {R}.

Record MassCancelMsg : Type := mkMassCancelMsg { mc_sender : string; mc_side : Z; mc_reason : Z }.

Inductive SymbolMsg (R : Type) : Type :=
| MOrder (order : NewOrderSingle) (tx : R)
| MCancel (m : CancelMsg R)
| MCancelReplace (m : CancelReplaceMsg R).
Arguments MOrder {R}.
Arguments MCancel {R}.
Arguments MCancelReplace {R}.

Section engine.
Context {R I : Type} `{!ExecIds I}.
Implicit Types (e : Engine R I).

(** Updates of the fields that change together. *)
Definition set_desk (d : Desk R I) e : Engine R I :=
  mkEngine (e_symbol e) (e_book e) (e_stops e) (e_last e) d (e_clock e) (e_schedule e) (e_call_until e) (e_last_seen e)
    (e_next_arrival e) (e_phase e) (e_call_markets e) (e_held_close e) (e_last_indicative e) (e_stp_default e) (e_rules e)
    (e_status_history e) (e_terminal_history e).

Definition set_market (b : OrderBook) (parked : StopBook) (last : option Z) e : Engine R I :=
  mkEngine (e_symbol e) b parked last (e_desk e) (e_clock e) (e_schedule e) (e_call_until e) (e_last_seen e)
    (e_next_arrival e) (e_phase e) (e_call_markets e) (e_held_close e) (e_last_indicative e) (e_stp_default e) (e_rules e)
    (e_status_history e) (e_terminal_history e).

Definition set_held (markets held : gmap string Order) e : Engine R I :=
  mkEngine (e_symbol e) (e_book e) (e_stops e) (e_last e) (e_desk e) (e_clock e) (e_schedule e) (e_call_until e) (e_last_seen e)
    (e_next_arrival e) (e_phase e) markets held (e_last_indicative e) (e_stp_default e) (e_rules e)
    (e_status_history e) (e_terminal_history e).

Definition set_phase_field (p : TradingPhase) (ind : option AuctionResult) e : Engine R I :=
  mkEngine (e_symbol e) (e_book e) (e_stops e) (e_last e) (e_desk e) (e_clock e) (e_schedule e) (e_call_until e) (e_last_seen e)
    (e_next_arrival e) p (e_call_markets e) (e_held_close e) ind (e_stp_default e) (e_rules e)
    (e_status_history e) (e_terminal_history e).

Definition set_timers (clock : Time) (until : option Time) (seen : Time) (next : Z) e : Engine R I :=
  mkEngine (e_symbol e) (e_book e) (e_stops e) (e_last e) (e_desk e) clock (e_schedule e) until seen
    next (e_phase e) (e_call_markets e) (e_held_close e) (e_last_indicative e) (e_stp_default e) (e_rules e)
    (e_status_history e) (e_terminal_history e).

Definition set_history (h : gmap string (string * Report)) (t : list (string * string)) e : Engine R I :=
  mkEngine (e_symbol e) (e_book e) (e_stops e) (e_last e) (e_desk e) (e_clock e) (e_schedule e) (e_call_until e) (e_last_seen e)
    (e_next_arrival e) (e_phase e) (e_call_markets e) (e_held_close e) (e_last_indicative e) (e_stp_default e) (e_rules e) h t.

Definition set_book (b : OrderBook) e : Engine R I := set_market b (e_stops e) (e_last e) e.
Definition on_desk (f : Desk R I -> Desk R I) e : Engine R I := set_desk (f (e_desk e)) e.
Definition e_states e : gmap string (OrderState R) := states (e_desk e).

(** The outputs of an operation start empty. *)
Definition fresh e : Engine R I :=
  on_desk (fun d => mkDesk (ids d) (states d) (trade_seq d) (diagnostics d) []) e.

(** [Engine::new] with its two builders. *)
Definition engine_new (sym : string) (now : Time) (i : I) (schedule : option SessionSchedule)
    (stp_default : StpMode) (rules : SymbolRules) : Engine R I :=
  mkEngine sym (book_new sym broadcaster_new) [] None (mkDesk i ∅ 0 None []) now schedule None now 0
    (match schedule with Some s => phase_at s (seconds now) | None => Continuous end)
    ∅ ∅ (Some (mkAuctionResult 0 0 0)) stp_default rules ∅ [].

(** [Engine::with_diagnostics]. *)
Definition with_diagnostics e : Engine R I :=
  set_book (set_refresh_log (Some []) (e_book e))
    (on_desk (fun d => mkDesk (ids d) (states d) (trade_seq d) (Some []) (outputs d)) e).

(** ** Status history *)

Definition is_reject (r : Report) : bool := execution_type r =? exec_type_code ExecRejected.

(** [bind_status_owner]: the last report about the id decides. *)
Definition accepted (id : string) (outs : list (Output R)) : bool :=
  match omap (fun o => match o with
                       | OExecutionReport _ r => if bool_decide (rep_order_id r = id) then Some (negb (is_reject r)) else None
                       | _ => None
                       end) (rev outs) with
  | b :: _ => b
  | [] => false
  end.

Definition bind_status_owner (id who : string) (outs : list (Output R)) e : Engine R I :=
  if accepted id outs then
    let entry := match e_status_history e !! id with Some (_, r) => (who, r) | None => (who, report_default) end in
    set_history (<[id := entry]> (e_status_history e)) (e_terminal_history e) e
  else e.

(** [order_status]. *)
Definition status_view (r : Report) : Report :=
  mkReport (header r) "0" (rep_order_id r) (rep_symbol r) (exec_type_code ExecOrderStatus) (order_status r) 0 0
    (rep_timestamp r) (leaves_quantity r) (avg_px r) (cum_quantity r) (rep_account r) (rep_client_order_id r)
    (orig_order_id r) (reject_reason_text r) (rep_side r) (order_quantity r) (auction r) (rep_display_quantity r).

Definition status_match (who id : string) (side : Z) (entry : string * (string * Report)) : bool :=
  bool_decide (entry.2.1 = who) && (bool_decide (id = ""%string) || bool_decide (entry.1 = id))
  && bool_decide (rep_order_id entry.2.2 <> ""%string) && ((side =? 0) || (side =? rep_side entry.2.2)).

Definition report_leb (a b : Report) : bool := negb (string_ltb (rep_order_id b) (rep_order_id a)).

Definition query_status (who id : string) (side : Z) e : list Report :=
  if bool_decide (who = ""%string) then []
  else sort_stable report_leb
         ((fun x => status_view x.2.2) <$> List.filter (status_match who id side) (map_to_list (e_status_history e))).

(** The replaced order's last status. *)
Definition replaced_view (r : Report) : Report :=
  mkReport (header r) (execution_id r) (rep_order_id r) (rep_symbol r) (execution_type r)
    (order_status_code OrderReplaced) (execution_price r) (executed_quantity r) (rep_timestamp r) 0 (avg_px r)
    (cum_quantity r) (rep_account r) (rep_client_order_id r) (orig_order_id r) (reject_reason_text r) (rep_side r)
    (order_quantity r) (auction r) (rep_display_quantity r).

Definition remember_report (r : Report) (h : gmap string (string * Report)) (t : list (string * string))
    : gmap string (string * Report) * list (string * string) :=
  let replaced h t :=
    if bool_decide (orig_order_id r <> ""%string) && (execution_type r =? exec_type_code ExecReplaced) then
      match h !! orig_order_id r with
      | Some (who, old) => (<[orig_order_id r := (who, replaced_view old)]> h, t ++ [(orig_order_id r, execution_id old)])
      | None => (h, t)
      end
    else (h, t) in
  match h !! rep_order_id r with
  | Some (who, current) =>
    if bool_decide (execution_id current = execution_id r) then (h, t)
    else replaced (<[rep_order_id r := (who, r)]> h)
           (if leaves_quantity r =? 0 then t ++ [(rep_order_id r, execution_id r)] else t)
  | None => replaced h t
  end.

Definition remember_output (o : Output R) (h : gmap string (string * Report)) (t : list (string * string))
    : gmap string (string * Report) * list (string * string) :=
  match o with
  | OExecutionReport _ r => if is_reject r then (h, t) else remember_report r h t
  | _ => (h, t)
  end.

(** The [while] loop that keeps the last [limit] terminal transitions. *)
Fixpoint trim_history (limit : nat) (t : list (string * string)) (h : gmap string (string * Report))
    : gmap string (string * Report) * list (string * string) :=
  match t with
  | [] => (h, [])
  | (id, exec) :: t' =>
    if (limit <? length t)%nat then
      trim_history limit t'
        (match h !! id with
         | Some (_, r) => if bool_decide (execution_id r = exec) && (leaves_quantity r =? 0) then delete id h else h
         | None => h
         end)
    else (h, t)
  end.

Definition history_limit : nat := Z.to_nat 100000.

Definition remember_status (outs : list (Output R)) e : Engine R I :=
  let '(h, t) := foldl (fun '(h, t) o => remember_output o h t) (e_status_history e, e_terminal_history e) outs in
  let '(h, t) := trim_history history_limit t h in
  set_history h t e.

(** ** Phases *)

Definition is_call (p : TradingPhase) : bool := match p with OpeningCall | ClosingCall => true | _ => false end.

Definition auctions_enabled e : bool :=
  bool_decide (is_Some (e_call_until e)) || match e_schedule e with Some s => is_full s | None => false end.

Definition entry_reason (p : TradingPhase) (full : bool) (ty : OrderType) (tif : TimeInForce) : option string :=
  if bool_decide (p = Closed) then Some "market closed"%string
  else
    let auction_tif := bool_decide (tif = AtOpen) || bool_decide (tif = AtClose) in
    let stop := bool_decide (ty = Stop) || bool_decide (ty = StopLimit) in
    if auction_tif && negb full then Some "no auction scheduled"%string
    else if auction_tif && stop then Some "auction time in force requires limit or market"%string
    else if bool_decide (tif = AtOpen) && bool_decide (p <> OpeningCall) then Some "opening auction not in progress"%string
    else if is_call p && (bool_decide (tif = IOC) || bool_decide (tif = FOK))
    then Some "IOC/FOK not supported during auction call"%string
    else None.

(** [set_phase]. *)
Definition set_phase (p : TradingPhase) (at_ : Time) e : Engine R I :=
  if bool_decide (e_phase e = p) then e
  else on_desk (push (OTradingSessionStatus (mkSessionStatus (e_symbol e) (phase_code p) (timestamp_of at_))))
         (set_phase_field p None e).

(** [auction_orders]; the fallback of [unwrap_or] is evaluated in any case. *)
Definition auction_order e (o : Order) : outcome AuctionOrder :=
  let* st := expect (e_states e !! order_id o) in
  Done {| a_id := order_id o; a_side := side o;
          limit_price := if bool_decide (order_type o = Market) then None else Some (price o);
          a_quantity := quantity o;
          a_seq := default (st_arrival st) (arrival (e_book e) !! order_id o) |}.

Fixpoint mapO {A B} (f : A -> outcome B) (l : list A) : outcome (list B) :=
  match l with
  | [] => Done []
  | x :: l => let* y := f x in let* ys := mapO f l in Done (y :: ys)
  end.

Definition live_auction_orders e : list Order :=
  (map_to_list (order_lookup (e_book e))).*2 ++ (map_to_list (e_call_markets e)).*2.

Definition auction_orders e : outcome (list AuctionOrder) := mapO (auction_order e) (live_auction_orders e).

(** [publish_indicative]. *)
Definition auction_info (res : AuctionResult) (at_ : Time) e : AuctionInfo :=
  {| ai_symbol := e_symbol e; ai_phase := phase_code (e_phase e); indicative_price := r_price res;
     indicative_volume := r_volume res; imbalance_quantity := wrap64 (Z.abs (r_imbalance res));
     imbalance_side := if r_imbalance res >? 0 then SIDE_BUY else if r_imbalance res <? 0 then SIDE_SELL else SIDE_UNSPECIFIED;
     reference_price := default 0 (e_last e); ai_timestamp := timestamp_of at_ |}.

Definition publish_indicative (at_ : Time) e : outcome (Engine R I) :=
  if negb (is_call (e_phase e)) then Done e
  else
    let* orders := auction_orders e in
    let* res := uncross orders (e_last e) in
    if bool_decide (e_last_indicative e = Some res) then Done e
    else Done (on_desk (push (OAuctionInfo (auction_info res at_ e))) (set_phase_field (e_phase e) (Some res) e)).

(** One side of an auction fill: book or call market, then the report. *)
Definition auction_fill_side (id other : string) (qty px : Z) (at_ : Time) (md : list MarketDataIncrementalUpdate) e
    : outcome (list MarketDataIncrementalUpdate * Engine R I) :=
  let* (md, e) :=
    match order_lookup (e_book e) !! id with
    | Some _ => let* (u, b) := apply_auction_fill id qty (e_book e) in Done (md ++ [u], set_book b e)
    | None =>
      let* o := expect (e_call_markets e !! id) in
      let left := sub32 (quantity o) qty in
      Done (md, set_held (if left =? 0 then delete id (e_call_markets e)
                          else <[id := with_quantity left o]> (e_call_markets e)) (e_held_close e) e)
    end in
  let '(sent, d) := apply_fill id (e_symbol e) px qty (timestamp_of at_) (e_desk e) in
  match sent with
  | None => Done (md, set_desk d e)
  | Some (r, tx) =>
    let r := mkReport (header r) (execution_id r) (rep_order_id r) (rep_symbol r) (execution_type r) (order_status r)
               (execution_price r) (executed_quantity r) (rep_timestamp r) (leaves_quantity r) (avg_px r) (cum_quantity r)
               (rep_account r) (rep_client_order_id r) (orig_order_id r) (reject_reason_text r) (rep_side r)
               (order_quantity r) true (rep_display_quantity r) in
    Done (md, set_desk (push (OExecutionReport tx r) (emit "fill_context" id "auction" other 0 "" d)) e)
  end.

Fixpoint auction_fills (fills : list AuctionFill) (px : Z) (at_ : Time) (md : list MarketDataIncrementalUpdate) e
    : outcome (list MarketDataIncrementalUpdate * Engine R I) :=
  match fills with
  | [] => Done (md, e)
  | f :: fills =>
    let* (md, e) := auction_fill_side (af_buy_id f) (af_sell_id f) (af_quantity f) px at_ md e in
    let* (md, e) := auction_fill_side (af_sell_id f) (af_buy_id f) (af_quantity f) px at_ md e in
    auction_fills fills px at_ md
      (on_desk (send_trade (e_symbol e) px (af_quantity f) SIDE_UNSPECIFIED true (timestamp_of at_)) e)
  end.

(** [run_auction]. *)
Definition run_auction (at_ : Time) e : outcome (option Z * Engine R I) :=
  let* orders := auction_orders e in
  let* res := uncross orders (e_last e) in
  let* fills := allocate orders res in
  let* (md, e) := auction_fills fills (r_price res) at_ [] e in
  let e := on_desk (fun d => foldl (fun d u => send_md u (timestamp_of at_) d) d md) e in
  if r_volume res =? 0 then Done (None, e)
  else Done (Some (r_price res), set_market (e_book e) (e_stops e) (Some (r_price res)) e).

(** [remove_live]. *)
Definition remove_live (id : string) e : outcome (option MarketDataIncrementalUpdate * Engine R I) :=
  let '(md, b) := cancel_order id (e_book e) in
  match md with
  | Some u => Done (Some u, set_book b e)
  | None =>
    let e := set_book b e in
    match e_call_markets e !! id with
    | Some _ => Done (None, set_held (delete id (e_call_markets e)) (e_held_close e) e)
    | None =>
      match e_held_close e !! id with
      | Some _ => Done (None, set_held (e_call_markets e) (delete id (e_held_close e)) e)
      | None =>
        let* st := expect (e_states e !! id) in
        match stop_cancel_for id (sender st) (e_stops e) with
        | (Ok _, parked) => Done (None, set_market (e_book e) parked (e_last e) e)
        | (Err _, _) => Panicked
        end
      end
    end
  end.

(** A live order leaves with a report; [mass_cancel] and [finish_order] share it. *)
Definition close_order (id : string) (diag : bool) (ev : ReportEvent) (ts : Timestamp) e : outcome (Engine R I) :=
  let* (md, e) := remove_live id e in
  let* st := expect (e_states e !! id) in
  let e := on_desk (fun d => set_states (delete id (states d)) d) e in
  let e := if diag then on_desk (emit "cancel_context" id "" "" 0 "auction remainder") e else e in
  let e := on_desk (send_report (output_tx st) id (e_symbol e) (Some st) ev ts) e in
  Done (match md with Some u => on_desk (send_md u ts) e | None => e end).

Definition finish_order (id : string) (expired : bool) (at_ : Time) e : outcome (Engine R I) :=
  let '(et, os) := if expired then (ExecExpired, OrderExpired) else (ExecCanceled, OrderCanceled) in
  close_order id (negb expired) (mkReportEvent et os 0 0 0 None id "") (timestamp_of at_) e.

Fixpoint finish_orders (due : list string) (expired : bool) (at_ : Time) e : outcome (Engine R I) :=
  match due with
  | [] => Done e
  | id :: due => let* e := finish_order id expired at_ e in finish_orders due expired at_ e
  end.

(** [sort] of pairs of arrival and id. *)
Definition pair_leb (a b : Z * string) : bool :=
  (a.1 <? b.1) || ((a.1 =? b.1) && negb (string_ltb b.2 a.2)).

Definition due_orders (test : string -> OrderState R -> bool) e : list string :=
  (sort_stable pair_leb ((fun x => (st_arrival x.2, x.1)) <$>
     List.filter (fun x => test x.1 x.2) (map_to_list (e_states e)))).*2.

(** [expire] and [cancel_remainders]. *)
Definition is_due (at_ : Time) (day_over : bool) (st : OrderState R) : bool :=
  (day_over && bool_decide (st_time_in_force st = Day))
  || (bool_decide (st_time_in_force st = Gtd)
      && match expiry_instant (st_expire_date st) with Ok t => time_leb (mkTime t 0) at_ | Err _ => false end).

Definition expire (at_ : Time) (day_over : bool) e : outcome (Engine R I) :=
  finish_orders (due_orders (fun _ st => is_due at_ day_over st) e) true at_ e.

Definition cancel_remainders (tif : TimeInForce) (at_ : Time) e : outcome (Engine R I) :=
  finish_orders
    (due_orders (fun id st => bool_decide (st_time_in_force st = tif) || bool_decide (is_Some (e_call_markets e !! id))) e)
    false at_ e.

(** ** Session boundaries *)

Definition add_point (log : bool) (id cause : string) (out : Execution) : Execution :=
  mkExecution (ex_fills out) (ex_fill_updates out) (ex_rested out) (ex_cancels out) (ex_triggered out)
    (ex_trigger_points out ++ (if log then [(length (ex_fills out), id, cause)] else []))
    (ex_refreshes out) (ex_stp out) (ex_stp_updates out).

Definition logging e : bool := bool_decide (is_Some (diagnostics (e_desk e))).

(** The stops an auction price fires, executed in firing order. *)
Fixpoint execute_stops (log : bool) (stops : list Order) (b : OrderBook) (out : Execution) : outcome (OrderBook * Execution) :=
  match stops with
  | [] => Done (b, out)
  | stop :: stops =>
    let out := add_triggered false (order_id stop) (add_point log (order_id stop) "auction trade price satisfies stop" out) in
    let* (_, out, b) := execute_into stop b out in
    execute_stops log stops b out
  end.

(** The cascade on the engine's book, then the reports. *)
Definition cascade_and_report (b : OrderBook) (exec : Execution) (ts : Timestamp) e : outcome (Engine R I) :=
  let* (b, parked, last, exec) := run_stop_cascade b (e_stops e) (e_last e) exec in
  Done (on_desk (report_execution exec (e_symbol e) ts) (set_market b parked last e)).

Definition open_market (at_ : Time) e : outcome (Engine R I) :=
  let* (px, e) := run_auction at_ e in
  let* e := cancel_remainders AtOpen at_ e in
  let e := set_phase Continuous at_ e in
  match px with
  | None => Done e
  | Some px =>
    let '(fired, parked) := drain_triggered_stops (e_stops e) px in
    let e := set_market (e_book e) parked (e_last e) e in
    let* (b, exec) := execute_stops (logging e) fired (e_book e) execution_default in
    cascade_and_report b exec (timestamp_of at_) e
  end.

(** [held.sort_by_key]: the key is read only when there is something to compare. *)
Definition held_in_order e : outcome (list Order) :=
  let held := (map_to_list (e_held_close e)).*2 in
  if (length held <=? 1)%nat then Done held
  else
    let* keyed := mapO (fun o => let* st := expect (e_states e !! order_id o) in Done (st_arrival st, o)) held in
    Done ((sort_stable (fun a b => a.1 <=? b.1) keyed).*2).

Definition enter_held (at_ : Time) (o : Order) e : Engine R I :=
  if bool_decide (order_type o = Market)
  then set_held (<[order_id o := o]> (e_call_markets e)) (e_held_close e) e
  else let '(md, b) := add_order o (e_book e) in on_desk (send_md md (timestamp_of at_)) (set_book b e).

Definition session_boundary (kind : Boundary) (at_ : Time) e : outcome (Engine R I) :=
  match kind with
  | BOpenCall => Done (set_phase OpeningCall at_ e)
  | BOpen => open_market at_ e
  | BCloseCall =>
    let e := set_phase ClosingCall at_ e in
    let* held := held_in_order e in
    Done (foldl (fun e o => enter_held at_ o e) (set_held (e_call_markets e) ∅ e) held)
  | BClose =>
    let* (_, e) := run_auction at_ e in
    let* e := cancel_remainders AtClose at_ e in
    expire at_ true (set_phase Closed at_ e)
  end.

(** The earliest expiry after the cursor. *)
Definition next_expiry (cursor : Time) e : option Z :=
  minimumZ (List.filter (fun s => time_ltb cursor (mkTime s 0))
    (omap (fun x : string * OrderState R =>
             if bool_decide (st_time_in_force x.2 = Gtd) then result_ok (expiry_instant (st_expire_date x.2)) else None)
       (map_to_list (e_states e)))).

(** The loop of [advance]. *)
Fixpoint advance_loop (fuel : nat) (cursor : Time) e : outcome (Engine R I) :=
  match fuel with
  | O => OutOfFuel
  | S fuel =>
    if negb (time_ltb cursor (e_clock e)) then Done e
    else
      let* scheduled :=
        match e_schedule e with
        | None => Done None
        | Some s => let* b := next_boundary s (seconds cursor) in Done (Some b)
        end in
      let operator_open := seconds <$> e_call_until e in
      match minimumZ (option_list (fst <$> scheduled) ++ option_list (next_expiry cursor e) ++ option_list operator_open) with
      | None => Done e
      | Some s =>
        let at_ := mkTime s 0 in
        if time_ltb (e_clock e) at_ then Done e
        else
          let boundary := match scheduled with Some (t, k) => if t =? s then Some k else None | None => None end in
          let full := match e_schedule e with Some sc => is_full sc | None => false end in
          let* e := expire at_ (negb full && bool_decide (boundary = Some BClose)) e in
          let* e :=
            if bool_decide (operator_open = Some s)
            then session_boundary BOpen at_ (set_timers (e_clock e) None (e_last_seen e) (e_next_arrival e) e)
            else match boundary with
                 | Some k => if full then session_boundary k at_ e else Done e
                 | None => Done e
                 end in
          let* e := publish_indicative at_ e in
          advance_loop fuel at_ e
      end
  end.

(** [advance]: the cursor reaches a new second on every pass but the one that
    ends an operator's call, which can lie before the cursor when the clock went
    back; the seconds to cover from there and two passes are enough. *)
Definition advance_fuel e : nat :=
  let from := seconds (e_last_seen e) in
  S (S (Z.to_nat (seconds (e_clock e) - Z.min from (default from (seconds <$> e_call_until e))))).

Definition advance e : outcome (Engine R I) :=
  let* e := advance_loop (S (advance_fuel e)) (e_last_seen e) e in
  Done (if time_ltb (e_last_seen e) (e_clock e)
        then set_timers (e_clock e) (e_call_until e) (e_clock e) (e_next_arrival e) e else e).

(** [tick], on the outputs of the operation it starts. *)
Definition tick e : outcome (Engine R I) :=
  let* e := advance (fresh e) in
  Done (remember_status (outputs (e_desk e)) e).

(** ** Requests without an order *)

Fixpoint cancel_all (targets : list string) (ev : ReportEvent) (ts : Timestamp) e : outcome (Engine R I) :=
  match targets with
  | [] => Done e
  | id :: targets => let* e := close_order id false ev ts e in cancel_all targets ev ts e
  end.

Definition mass_cancel_reason (code : Z) : string :=
  if code =? MASS_CANCEL_DISCONNECT then "cancel on disconnect" else "mass cancel".

Definition mass_targets (m : MassCancelMsg) e : list string :=
  due_orders (fun _ st => bool_decide (sender st = mc_sender m) && ((mc_side m =? 0) || (st_side st =? mc_side m))) e.

(** [mass_cancel]. *)
Definition mass_cancel (m : MassCancelMsg) e : outcome (Engine R I) :=
  let* e := tick e in
  let ts := timestamp_of (e_clock e) in
  let targets := mass_targets m e in
  let ev := mkReportEvent ExecCanceled OrderCanceled 0 0 0 None "" (mass_cancel_reason (mc_reason m)) in
  let* e := cancel_all targets ev ts e in
  let e := on_desk (push (OMassCancelCount (as_u32 (Z.of_nat (length targets))))) e in
  let* e := publish_indicative (e_clock e) e in
  Done (remember_status (outputs (e_desk e)) e).

(** [subscribe]. *)
Definition engine_subscribe (owner : R) e : outcome (Engine R I) :=
  let* e := tick e in
  let e := on_desk (push (OSnapshot owner (snapshot (e_book e) (e_clock e)))) e in
  let e := on_desk (push (OTradingSessionStatus
    (mkSessionStatus (e_symbol e) (phase_code (e_phase e)) (timestamp_of (e_clock e))))) e in
  publish_indicative (e_clock e) (set_phase_field (e_phase e) None e).

(** [begin_opening_call]. *)
Definition begin_opening_call (secs : Z) e : outcome (Engine R I) :=
  let* e := tick e in
  if (secs =? 0) || is_call (e_phase e) then Done e
  else
    let e := set_timers (e_clock e) (Some (mkTime (seconds (e_clock e) + secs) 0)) (e_last_seen e) (e_next_arrival e) e in
    let* e := publish_indicative (e_clock e) (set_phase OpeningCall (e_clock e) e) in
    Done (remember_status (outputs (e_desk e)) e).

(** ** Validation *)

(** [iceberg_reason]. *)
Definition iceberg_reason (display total : Z) (ty : OrderType) (tif : TimeInForce) (full : bool) (lot : Z) : option string :=
  if display <? 0 then Some "display quantity must be nonnegative"%string
  else if display =? 0 then None
  else if (as_u32 display >? total) || negb (is_multiple_of (as_u32 display) lot)
  then Some "display quantity must not exceed total and must be a multiple of lot size"%string
  else if full || bool_decide (ty <> Limit) || negb (bool_decide (tif = Day) || bool_decide (tif = GTC) || bool_decide (tif = Gtd))
  then Some "icebergs require limit DAY/GTC/GTD without auction sessions"%string
  else None.

(** The type a live id has for a replacement. *)
Definition live_type e (id : string) : OrderType :=
  if bool_decide (is_Some (e_call_markets e !! id)) then Market
  else if stop_contains id (e_stops e) then Stop else Limit.

(** The reasons of [preflight] to refuse a replacement, in the order it tries them. *)
Definition replace_entry_reason (m : CancelReplaceMsg R) e : option string :=
  let st := e_states e !! cr_order_id m in
  if bool_decide (e_phase e = Closed) then Some "market closed"%string
  else if match st with None => true | Some s => bool_decide (sender s <> cr_sender m) end
  then Some (reject_reason UnknownOrder)
  else if bool_decide (is_Some (e_held_close e !! cr_order_id m))
  then Some "replace of held AT_CLOSE order is not supported"%string
  else if bool_decide (cr_new_order_id m <> cr_order_id m) && bool_decide (is_Some (e_states e !! cr_new_order_id m))
  then Some (reject_reason DuplicateOrderId)
  else
    match parse_replace_time_in_force (cr_new_time_in_force m), st with
    | Err err, _ => Some err
    | Ok tif, Some s =>
      let tif := default (st_time_in_force s) tif in
      or_else (entry_reason (e_phase e) (auctions_enabled e) (live_type e (cr_order_id m)) tif)
        (fun _ => if bool_decide (tif = Gtd) then result_err (validate_expiry (st_expire_date s) (e_clock e)) else None)
    | Ok _, None => None
    end.

Definition replace_value_reason (m : CancelReplaceMsg R) e : option string :=
  if (cr_new_quantity m <? 0) || (cr_new_price m <? 0) || (cr_new_stop_price m <? 0)
  then Some "negative replace fields are invalid"%string
  else
    or_else (if cr_new_quantity m >? 0 then result_err (validate_quantity (e_rules e) (as_u32 (cr_new_quantity m))) else None)
      (fun _ => or_else (if cr_new_price m >? 0 then result_err (validate_price (e_rules e) (cr_new_price m)) else None)
        (fun _ => if cr_new_stop_price m >? 0 then result_err (validate_price (e_rules e) (cr_new_stop_price m)) else None)).

Definition replace_display_reason (m : CancelReplaceMsg R) (st : OrderState R) e : option string :=
  let display := default (as_i32 (st_display_quantity st)) (cr_new_display_quantity m) in
  let tif := if cr_new_time_in_force m =? 0 then Some (st_time_in_force st)
             else match parse_replace_time_in_force (cr_new_time_in_force m) with Ok (Some t) => Some t | _ => None end in
  match tif with
  | None => None
  | Some tif =>
    if (st_display_quantity st >? 0) && negb (bool_decide (tif = Day) || bool_decide (tif = GTC) || bool_decide (tif = Gtd))
    then Some "iceberg replacements require DAY/GTC/GTD; cancel and enter a new order to change to IOC/FOK/auction"%string
    else
      let ceiling :=
        if (cr_new_quantity m =? 0) && bool_decide (cr_new_display_quantity m = None)
        then Z.max (order_qty st) (st_display_quantity st)
        else if cr_new_quantity m =? 0 then order_qty st else as_u32 (cr_new_quantity m) in
      iceberg_reason display ceiling (live_type e (cr_order_id m)) tif (auctions_enabled e) (lot_size (e_rules e))
  end.

Definition replace_reason (m : CancelReplaceMsg R) e : outcome (option string) :=
  match or_else (replace_entry_reason m e) (fun _ => replace_value_reason m e) with
  | Some r => Done (Some r)
  | None => let* st := expect (e_states e !! cr_order_id m) in Done (replace_display_reason m st e)
  end.

(** ** Preflight *)

Definition cancel_event (m : CancelMsg R) : ReportEvent :=
  mkReportEvent ExecCanceled OrderCanceled 0 0 0 (Some (c_client_cancel_id m)) (c_order_id m) "".

(** Cancel of an order held for an auction. *)
Definition preflight_cancel (m : CancelMsg R) e : outcome (Engine R I) :=
  let ts := timestamp_of (e_clock e) in
  let* st := expect (e_states e !! c_order_id m) in
  if bool_decide (sender st <> c_sender m)
  then Done (on_desk (send_reject (c_output_tx m) (c_order_id m) (e_symbol e) (c_client_cancel_id m) (reject_reason NotOwner) ts) e)
  else
    let* (_, e) := remove_live (c_order_id m) e in
    let* st := expect (e_states e !! c_order_id m) in
    let e := on_desk (fun d => set_states (delete (c_order_id m) (states d)) d) e in
    Done (on_desk (send_report (c_output_tx m) (c_order_id m) (e_symbol e) (Some st) (cancel_event m) ts) e).

Definition replace_reject (m : CancelReplaceMsg R) (reason : string) e : Engine R I :=
  on_desk (send_reject (cr_output_tx m) (cr_order_id m) (e_symbol e) (cr_client_replace_id m) reason (timestamp_of (e_clock e))) e.

(** The state of a replaced call market. *)
Definition replaced_state (st : OrderState R) (q : Z) (tif : TimeInForce) (client : string) (tx : R) (arr : Z) : OrderState R :=
  mkOrderState (sender st) tif (st_expire_date st) arr (st_side st) (add32 (cum_qty st) q) (st_display_quantity st)
    (cum_qty st) (notional st) (st_account st) client tx.

Definition replacement_market (old : Order) (m : CancelReplaceMsg R) (q : Z) (tif : TimeInForce) (now : Time) : Order :=
  mkOrder (cr_new_order_id m) (trader_id old) (symbol old) (price old) q (display_quantity old) (side old) (order_type old)
    tif (as_millis now) (stop_price old) (expire_date old) (account old) (cr_client_replace_id m) (order_stp old).

(** Replacement of a market order waiting for an auction. *)
Definition replace_call_market (m : CancelReplaceMsg R) (old : Order) e : outcome (Engine R I) :=
  let* st := expect (e_states e !! cr_order_id m) in
  if (cr_new_quantity m >? 0) && (as_u32 (cr_new_quantity m) <=? cum_qty st)
  then Done (replace_reject m (reject_reason QuantityNotAboveFilled) e)
  else
    let q := if cr_new_quantity m >? 0 then sub32 (as_u32 (cr_new_quantity m)) (cum_qty st) else quantity old in
    let* parsed := expect (result_ok (parse_replace_time_in_force (cr_new_time_in_force m))) in
    let tif := default (time_in_force old) parsed in
    let replacement := replacement_market old m q tif (e_clock e) in
    let e := set_held (delete (cr_order_id m) (e_call_markets e)) (e_held_close e) e in
    let st := replaced_state st q tif (cr_client_replace_id m) (cr_output_tx m) (e_next_arrival e) in
    let e := on_desk (fun d => set_states (delete (cr_order_id m) (states d)) d) e in
    let e := on_desk (send_replace_reports (cr_output_tx m) (cr_order_id m) (cr_new_order_id m) (e_symbol e) st
                        (timestamp_of (e_clock e))) e in
    let e := on_desk (fun d => set_states (<[cr_new_order_id m := st]> (states d)) d) e in
    Done (if bool_decide (tif = AtClose) && bool_decide (e_phase e <> ClosingCall)
          then set_held (e_call_markets e) (<[cr_new_order_id m := replacement]> (e_held_close e)) e
          else set_held (<[cr_new_order_id m := replacement]> (e_call_markets e)) (e_held_close e) e).

(** [preflight]: whether the request is done with. *)
Definition preflight (m : SymbolMsg R) e : outcome (bool * Engine R I) :=
  match m with
  | MCancel c =>
    if bool_decide (is_Some (e_call_markets e !! c_order_id c)) || bool_decide (is_Some (e_held_close e !! c_order_id c))
    then let* e := preflight_cancel c e in Done (true, e)
    else Done (false, e)
  | MCancelReplace c =>
    let* reason := replace_reason c e in
    match reason with
    | Some r => Done (true, replace_reject c r e)
    | None =>
      match e_call_markets e !! cr_order_id c with
      | None => Done (false, e)
      | Some old => let* e := replace_call_market c old e in Done (true, e)
      end
    end
  | MOrder _ _ => Done (false, e)
  end.

(** ** Requests *)

(** The [Cancel] arm. *)
Definition process_cancel (m : CancelMsg R) e : Engine R I :=
  let ts := timestamp_of (e_clock e) in
  let '(cancelled, e) :=
    match cancel_order_for (c_order_id m) (c_sender m) (e_book e) with
    | (Err UnknownOrder, b) =>
      match stop_cancel_for (c_order_id m) (c_sender m) (e_stops e) with
      | (Ok _, parked) => (Ok None, set_market b parked (e_last e) e)
      | (Err r, parked) => (Err r, set_market b parked (e_last e) e)
      end
    | (Err r, b) => (Err r, set_book b e)
    | (Ok u, b) => (Ok (Some u), set_book b e)
    end in
  match cancelled with
  | Ok md =>
    let st := e_states e !! c_order_id m in
    let e := on_desk (fun d => set_states (delete (c_order_id m) (states d)) d) e in
    let e := on_desk (send_report (c_output_tx m) (c_order_id m) (e_symbol e) st (cancel_event m) ts) e in
    match md with Some u => on_desk (send_md u ts) e | None => e end
  | Err r => on_desk (send_reject (c_output_tx m) (c_order_id m) (e_symbol e) (c_client_cancel_id m) (reject_reason r) ts) e
  end.

(** The report state of a replacement. *)
Definition replacement_state (o : Order) (arr cum ntl : Z) (client : string) (tx : R) : OrderState R :=
  mkOrderState (trader_id o) (time_in_force o) (expire_date o) arr (side_to_proto (side o)) (add32 cum (quantity o))
    (display_quantity o) cum ntl (account o) client tx.

(** A stop that its new price makes fire at once. *)
Definition fire_replacement (o : Order) e : outcome (Engine R I) :=
  match stop_cancel_for (order_id o) (trader_id o) (e_stops e) with
  | (Err _, _) => Panicked
  | (Ok order, parked) =>
    let e := set_market (e_book e) parked (e_last e) e in
    let exec := add_triggered false (order_id order)
                  (add_point (logging e) (order_id order) "existing last trade price satisfies stop" execution_default) in
    let* (_, exec, b) := execute_into order (e_book e) exec in
    cascade_and_report b exec (timestamp_of (e_clock e)) e
  end.

Definition fires_now e (o : Order) : bool :=
  bool_decide (e_phase e = Continuous) && match e_last e with Some p => stop_fires o p | None => false end.

Definition replace_stop (m : CancelReplaceMsg R) (tif : option TimeInForce) (arr : Z) e : outcome (Engine R I) :=
  let in_use := bool_decide (is_Some (order_lookup (e_book e) !! cr_new_order_id m)) in
  let ch := mkStopReplace (cr_new_price m) (cr_new_stop_price m) (Z.max (cr_new_quantity m) 0) tif
              (cr_client_replace_id m) (as_millis (e_clock e)) in
  match stop_replace_for (cr_order_id m) (cr_new_order_id m) ch (cr_sender m) in_use (e_stops e) with
  | (Err r, _) => Done (replace_reject m (reject_reason r) e)
  | (Ok o, parked) =>
    let e := set_market (e_book e) parked (e_last e) e in
    let e := on_desk (fun d => set_states (delete (cr_order_id m) (states d)) d) e in
    let st := replacement_state o arr 0 0 (cr_client_replace_id m) (cr_output_tx m) in
    let e := on_desk (send_replace_reports (cr_output_tx m) (cr_order_id m) (cr_new_order_id m) (e_symbol e) st
                        (timestamp_of (e_clock e))) e in
    let e := on_desk (fun d => set_states (<[cr_new_order_id m := st]> (states d)) d) e in
    if fires_now e o then fire_replacement o e else Done e
  end.

Definition replace_resting (m : CancelReplaceMsg R) (tif : option TimeInForce) (arr : Z) e : outcome (Engine R I) :=
  let ts := timestamp_of (e_clock e) in
  let original := order_lookup (e_book e) !! cr_order_id m in
  let original_visible := match original with Some o => visible (e_book e) o | None => 0 end in
  let ch := mkOrderReplace (cr_new_price m) (Z.max (cr_new_quantity m) 0) (as_u32 <$> cr_new_display_quantity m) tif
              (cr_client_replace_id m) (as_millis (e_clock e)) in
  match replace_order (cr_order_id m) (cr_new_order_id m) ch (cr_sender m) (e_book e) with
  | (Err r, b) => Done (replace_reject m (reject_reason r) (set_book b e))
  | (Ok (o, inc), b) =>
    let e := set_book b e in
    let '(cum, ntl) := match e_states e !! cr_order_id m with Some s => (cum_qty s, notional s) | None => (0, 0) end in
    let e := on_desk (fun d => set_states (delete (cr_order_id m) (states d)) d) e in
    let st := replacement_state o arr cum ntl (cr_client_replace_id m) (cr_output_tx m) in
    let e := on_desk (send_replace_reports (cr_output_tx m) (cr_order_id m) (cr_new_order_id m) (e_symbol e) st ts) e in
    let e := on_desk (fun d => set_states (<[cr_new_order_id m := st]> (states d)) d) e in
    if bool_decide (time_in_force o = AtClose) && bool_decide (e_phase e <> ClosingCall) then
      let b := (cancel_order (order_id o) (e_book e)).2 in
      let e := set_held (e_call_markets e) (<[order_id o := o]> (e_held_close e)) (set_book b e) in
      let* orig := expect original in
      Done (on_desk (send_md (generate_incremental_update b CancelOrder (price orig) original_visible (side orig)) ts) e)
    else if bool_decide (e_phase e <> Continuous) then Done (on_desk (send_md inc ts) e)
    else
      let* (exec, b) := match_into (e_book e) execution_default in
      let* (b, parked, last, exec) := run_stop_cascade b (e_stops e) (e_last e) exec in
      Done (on_desk (report_execution exec (e_symbol e) ts) (on_desk (send_md inc ts) (set_market b parked last e)))
  end.

(** The [CancelReplace] arm. *)
Definition process_replace (m : CancelReplaceMsg R) (arr : Z) e : outcome (Engine R I) :=
  match parse_replace_time_in_force (cr_new_time_in_force m) with
  | Err r => Done (replace_reject m r e)
  | Ok tif =>
    let expired :=
      if bool_decide (tif = Some Gtd) then
        match e_states e !! cr_order_id m with
        | Some st => if bool_decide (sender st = cr_sender m)
                     then result_err (validate_expiry (st_expire_date st) (e_clock e)) else None
        | None => None
        end
      else None in
    match expired with
    | Some r => Done (replace_reject m r e)
    | None =>
      if stop_contains (cr_order_id m) (e_stops e) then replace_stop m tif arr e else replace_resting m tif arr e
    end
  end.

(** The checks of a new order, in the order the engine makes them. *)
Definition is_limit_type (t : OrderType) : bool := match t with Limit | StopLimit => true | _ => false end.
Definition is_stop_type (t : OrderType) : bool := match t with Stop | StopLimit => true | _ => false end.

Definition order_entry_reason (order : NewOrderSingle) (parsed : result (OrderSide * OrderType * TimeInForce) string)
    (stp : result (StpMode * bool) string) e : option string :=
  match parsed with
  | Err r => Some r
  | Ok (_, ty, tif) =>
    if n_quantity order <=? 0 then Some "quantity must be positive"%string
    else if is_limit_type ty && (n_price order <=? 0) then Some "limit price must be positive"%string
    else if bool_decide (is_Some (e_states e !! n_order_id order)) then Some "Duplicate order id"%string
    else match stp with
         | Err r => Some r
         | Ok (mode_, explicit) =>
           if (bool_decide (tif = AtOpen) || bool_decide (tif = AtClose)) && explicit && bool_decide (mode_ <> StpNone)
           then Some "self-trade prevention is not supported for auction orders"%string
           else match entry_reason (e_phase e) (auctions_enabled e) ty tif with
                | Some r => Some r
                | None => if bool_decide (tif = Gtd)
                          then result_err (validate_expiry (n_expire_date order) (e_clock e)) else None
                end
         end
  end.

Definition order_value_reason (order : NewOrderSingle) (parsed : result (OrderSide * OrderType * TimeInForce) string) e
    : option string :=
  let ty := match parsed with Ok (_, ty, _) => Some ty | Err _ => None end in
  or_else (result_err (validate_quantity (e_rules e) (as_u32 (n_quantity order))))
    (fun _ => or_else (if match ty with Some t => is_limit_type t | None => false end
                       then result_err (validate_price (e_rules e) (n_price order)) else None)
      (fun _ => if negb (n_stop_price order =? 0) && match ty with Some t => is_stop_type t | None => false end
                then result_err (validate_price (e_rules e) (n_stop_price order)) else None)).

Definition order_reason (order : NewOrderSingle) e : option string :=
  let parsed := parse_order_enums order in
  or_else (order_entry_reason order parsed (parse_stp (n_stp_mode order) (e_stp_default e)) e)
    (fun _ => or_else (order_value_reason order parsed e)
      (fun _ => match parsed with
                | Ok (_, ty, tif) => iceberg_reason (n_display_quantity order) (as_u32 (n_quantity order)) ty tif
                                       (auctions_enabled e) (lot_size (e_rules e))
                | Err _ => None
                end)).

(** The order a valid request becomes. *)
Definition order_of (order : NewOrderSingle) (s : OrderSide) (ty : OrderType) (tif : TimeInForce) (mode_ : StpMode) e : Order :=
  mkOrder (n_order_id order) (n_sender order) (e_symbol e) (n_price order) (as_u32 (n_quantity order))
    (as_u32 (n_display_quantity order)) s ty tif (as_millis (e_clock e)) (n_stop_price order) (n_expire_date order)
    (n_account order) (n_client_order_id order) (mkStp mode_ (n_stp_group order)).

Definition insert_state (id : string) (st : OrderState R) e : Engine R I :=
  on_desk (fun d => set_states (<[id := st]> (states d)) d) e.

Definition accept_event (st : OrderState R) : ReportEvent := mkReportEvent ExecNew OrderNew 0 0 (leaves st) None "" "".

(** An accepted order that does not match now: acknowledged, then parked, held
    or entered. *)
Definition acknowledge (o : Order) (st : OrderState R) e : Engine R I :=
  let e := on_desk (emit "order_accepted" (order_id o) "" "" (quantity o) "") e in
  let e := on_desk (send_report (output_tx st) (order_id o) (e_symbol e) (Some st) (accept_event st) (timestamp_of (e_clock e))) e in
  insert_state (order_id o) st e.

Definition hold_order (o : Order) (st : OrderState R) e : Engine R I :=
  let e := acknowledge o st e in
  if bool_decide (time_in_force o = AtClose) && bool_decide (e_phase e <> ClosingCall)
  then set_held (e_call_markets e) (<[order_id o := o]> (e_held_close e)) e
  else if bool_decide (order_type o = Market)
  then set_held (<[order_id o := o]> (e_call_markets e)) (e_held_close e) e
  else let '(md, b) := add_order o (e_book e) in
       on_desk (send_md md (timestamp_of (e_clock e))) (set_book b e).

(** An order that matches now. *)
Definition match_order (o : Order) (st : OrderState R) e : outcome (Engine R I) :=
  let ts := timestamp_of (e_clock e) in
  let e := insert_state (order_id o) st e in
  let e := on_desk (emit "order_accepted" (order_id o) "" "" (quantity o) "validated for matching") e in
  let exec := add_point (is_stop_type (order_type o) && logging e) (order_id o)
                "existing last trade price satisfies stop" execution_default in
  let* (rests, exec, b) := execute_into o (e_book e) exec in
  let e := match rests, e_states e !! order_id o with
           | true, Some st => on_desk (send_report (output_tx st) (order_id o) (e_symbol e) (Some st) (accept_event st) ts) e
           | _, _ => e
           end in
  cascade_and_report b exec ts e.

Definition accept_order (o : Order) (st : OrderState R) e : outcome (Engine R I) :=
  let reject reason :=
    Done (on_desk (send_report (output_tx st) (order_id o) (e_symbol e) (Some st)
                     (mkReportEvent ExecRejected OrderRejected 0 0 0 None "" reason) (timestamp_of (e_clock e))) e) in
  if is_stop_type (order_type o) && (stop_price o =? 0) then reject "stop_price is required"%string
  else if is_stop_type (order_type o) && negb (fires_now e o) then
    let e := acknowledge o st e in
    Done (set_market (e_book e) (park o (e_stops e)) (e_last e) e)
  else if bool_decide (e_phase e <> Continuous) || bool_decide (time_in_force o = AtClose) then Done (hold_order o st e)
  else match_order o st e.

(** The [Order] arm. *)
Definition process_order (order : NewOrderSingle) (tx : R) (arr : Z) e : outcome (Engine R I) :=
  match order_reason order e with
  | Some reason =>
    let st := state_new order (Z.max (n_quantity order) 0) tx arr in
    Done (on_desk (send_report tx (n_order_id order) (e_symbol e) (Some st)
                     (mkReportEvent ExecRejected OrderRejected 0 0 0 None "" reason) (timestamp_of (e_clock e))) e)
  | None =>
    let* (s, ty, tif) := expect (result_ok (parse_order_enums order)) in
    let* (mode_, _) := expect (result_ok (parse_stp (n_stp_mode order) (e_stp_default e))) in
    let o := order_of order s ty tif mode_ e in
    accept_order o (state_new order (quantity o) tx arr) e
  end.

(** [process]. *)
Definition process (m : SymbolMsg R) e : outcome (Engine R I) :=
  let* e := tick e in
  let arr := add64 (e_next_arrival e) 1 in
  let e := set_timers (e_clock e) (e_call_until e) (e_last_seen e) arr e in
  let* (done_, e) := preflight m e in
  let* e :=
    if done_ then Done e
    else match m with
         | MCancel c => Done (process_cancel c e)
         | MCancelReplace c => process_replace c arr e
         | MOrder order tx => process_order order tx arr e
         end in
  publish_indicative (e_clock e) e.

(** [new_order], [cancel] and [cancel_replace]. *)
Definition new_order (order : NewOrderSingle) (owner : R) e : outcome (Engine R I) :=
  let* e := process (MOrder order owner) e in
  let outs := outputs (e_desk e) in
  Done (remember_status outs (bind_status_owner (n_order_id order) (n_sender order) outs e)).

Definition cancel (m : CancelMsg R) e : outcome (Engine R I) :=
  let* e := process (MCancel m) e in Done (remember_status (outputs (e_desk e)) e).

Definition cancel_replace (m : CancelReplaceMsg R) e : outcome (Engine R I) :=
  let* e := process (MCancelReplace m) e in
  let outs := outputs (e_desk e) in
  Done (remember_status outs (bind_status_owner (cr_new_order_id m) (cr_sender m) outs e)).

End engine.
