(* ===== verification/EngineInv.v ===== *)
(** * Coherence of the engine

    A live order is in exactly one place (book, parked stops, markets waiting
    for an auction, orders held for the close) and its report state agrees with
    what is there. The operations that take orders out keep this, and so never
    meet the panics they guard with [expect]. *)

From S2P Require Import Prelude BTree Text Order OrderBook BookInvariant Samples BookEffects Matcher MatchOrders Stops Executions Cascade Session SymbolConfig Auction.
From S2P Require Import AuctionPrice Proto Reports ExecutionReports Engine.

(** ** Definitions *)

Section coherence.
Context {R I : Type} `{!ExecIds I}.
Implicit Types (e : Engine R I).

(** Where the orders of an id are. *)
Definition found e (id : string) : list Order :=
  option_list (order_lookup (e_book e) !! id) ++ filter (fun o => order_id o = id) (e_stops e) ++
  option_list (e_call_markets e !! id) ++ option_list (e_held_close e !! id).

(** The report state of an order. *)
Record tracks (st : OrderState R) (o : Order) : Prop := {
  tk_sender : sender st = trader_id o;
  tk_side : st_side st = side_to_proto (side o);
  tk_total : order_qty st = cum_qty st + quantity o;
  tk_cum : 0 <= cum_qty st;
  tk_fits : order_qty st <= u32_max;
  tk_ok : order_ok o;
}.

(** One order per state, one state per order. *)
Definition coherent_at e (id : string) : Prop :=
  match e_states e !! id with
  | Some st => exists o, found e id = [o] /\ order_id o = id /\ tracks st o
  | None => found e id = []
  end.

(** The book between two requests: nothing crosses in continuous trading. *)
Record book_ok e : Prop := {
  bo_wf : wf_book (e_book e);
  bo_clean : book_stp (e_book e) = stp_outcome_default;
  bo_priced : priced (e_book e);
  bo_uncrossed : e_phase e = Continuous -> uncrossed (e_book e);
}.

(** The book has filled what the states of the ids in [X] report as filled. *)
Definition fills_agree (X : string -> Prop) e : Prop := forall id st, e_states e !! id = Some st -> X id -> cum_qty st = banked (e_book e) id.

(** Coherence; in the middle of an auction the count of the fills holds for some
    ids only. *)
Record coherent_on (X : string -> Prop) e : Prop := {
  co_book : book_ok e;
  co_states : forall id, coherent_at e id;
  co_fills : fills_agree X e;
}.
End coherence.

Arguments co_book {R I X} e _.
Arguments co_states {R I X} e _.
Arguments co_fills {R I X} e _.

Abbreviation coherent := (coherent_on (fun _ => True)).

Section engines.
Context {R I : Type} `{!ExecIds I}.
Implicit Types (e : Engine R I).

(** Two engines that differ only at an id. *)
Record same_elsewhere (id : string) e e' : Prop := {
  se_found : forall i, i <> id -> found e' i = found e i;
  se_states : forall i, i <> id -> e_states e' !! i = e_states e !! i;
  se_banked : forall i, i <> id -> banked (e_book e') i = banked (e_book e) i;
}.

(** The fields no removal touches. *)
Definition same_session e e' : Prop :=
  e_symbol e' = e_symbol e /\ e_clock e' = e_clock e /\ e_schedule e' = e_schedule e /\ e_phase e' = e_phase e /\
  e_last e' = e_last e /\ e_call_until e' = e_call_until e /\ e_last_seen e' = e_last_seen e.

(** The reports among the outputs. *)
Definition reports (outs : list (Output R)) : list (R * Report) :=
  omap (fun o => match o with OExecutionReport to r => Some (to, r) | _ => None end) outs.

Definition e_outputs e : list (Output R) := outputs (e_desk e).

(** The report of an event on a state, with some execution id. *)
Definition report_on (id sym : string) (st : option (OrderState R)) (ev : ReportEvent) (ts : Timestamp) (r : Report) : Prop :=
  exists d : Desk R I, r = (build_report id sym st ev ts d).1.

(** Closing a list of orders with an event each. *)
Fixpoint close_all (due : list string) (diag : bool) (ev : string -> ReportEvent) (ts : Timestamp) e : outcome (Engine R I) :=
  match due with
  | [] => Done e
  | id :: due => let* e := close_order id diag (ev id) ts e in close_all due diag ev ts e
  end.

Definition finish_event (expired : bool) (id : string) : ReportEvent :=
  if expired then mkReportEvent ExecExpired OrderExpired 0 0 0 None id "" else mkReportEvent ExecCanceled OrderCanceled 0 0 0 None id "".

(** What closing a list of orders reports: one event per order, in order, to the
    order's own connection. *)
Definition closing_reports (e : Engine R I) (ev : string -> ReportEvent) (ts : Timestamp) (due : list string) (rs : list (R * Report)) : Prop :=
  Forall2 (fun id x => exists st, e_states e !! id = Some st /\ x.1 = output_tx st /\ report_on id (e_symbol e) (Some st) (ev id) ts x.2) due rs.

(** Two live orders, the first no later in the order of arrival. *)
Definition arrived_before (e : Engine R I) (i j : string) : Prop :=
  exists s1 s2, e_states e !! i = Some s1 /\ e_states e !! j = Some s2 /\ st_arrival s1 <= st_arrival s2.

(** The quantity of a request is an [i32]. *)
Definition request_ok (order : NewOrderSingle) : Prop := - i32_max - 1 <= n_quantity order <= i32_max.

(** Where an order that does not match now waits: a stop with the stops, an
    order for the close with those held for it unless its call is on, a market
    order with the market orders of the call, and any other order on the book of
    a call or of a closed session. *)
Definition waits e e' (o : Order) : Prop :=
  match order_type o with
  | Stop | StopLimit => o ∈ e_stops e'
  | _ =>
    if bool_decide (time_in_force o = AtClose) && bool_decide (e_phase e <> ClosingCall) then e_held_close e' !! order_id o = Some o
    else e_phase e <> Continuous /\
      (if bool_decide (order_type o = Market) then e_call_markets e' !! order_id o = Some o else order_lookup (e_book e') !! order_id o = Some o)
  end.

(** The report that an order is working. *)
Definition acknowledges (o : Order) (st : OrderState R) (r : Report) : Prop :=
  rep_order_id r = order_id o /\ execution_type r = exec_type_code ExecNew /\ order_status r = order_status_code OrderNew /\
  leaves_quantity r = as_i32 (leaves st) /\ order_quantity r = as_i32 (order_qty st) /\ rep_side r = st_side st /\
  rep_client_order_id r = st_client_order_id st.

(** Where an accepted order goes: nowhere when its stop price is missing, to one
    place with its state, or into matching on a book it can be entered on. *)
Inductive order_entered e (o : Order) (st : OrderState R) : outcome (Engine R I) -> Prop :=
| entered_refused e' : coherent e' -> e_states e' = e_states e -> is_stop_type (order_type o) = true -> stop_price o = 0 ->
    order_entered e o st (Done e')
| entered_waiting e' r : coherent e' -> e_states e' = <[order_id o := st]> (e_states e) -> found e' (order_id o) = [o] -> waits e e' o ->
    reports (e_outputs e') = reports (e_outputs e) ++ [(output_tx st, r)] -> acknowledges o st r ->
    order_entered e o st (Done e')
| entered_matching : e_phase e = Continuous -> idle (e_book e) -> executable o (e_book e) ->
    order_entered e o st (match_order o st e).

(** No more live orders than a [u32] counts: their quantities add up in a [u64]. *)
Definition few e : Prop := Z.of_nat (size (e_states e)) <= u32_max.

(** Two engines that differ in their outputs, indicative and histories only. *)
Record unmoved e e' : Prop := {
  um_found : forall id, found e' id = found e id;
  um_states : e_states e' = e_states e;
  um_book : e_book e' = e_book e;
  um_stops : e_stops e' = e_stops e;
  um_reports : reports (e_outputs e') = reports (e_outputs e);
  um_session : same_session e e';
  um_outputs : e_outputs e `prefix_of` e_outputs e';
  um_aside : e_call_markets e' = e_call_markets e /\ e_held_close e' = e_held_close e;
}.

(** ** Taking an order out *)

Lemma same_session_trans e1 e2 e3 : same_session e1 e2 -> same_session e2 e3 -> same_session e1 e3.
Proof. intros (? & ? & ? & ? & ? & ? & ?) (? & ? & ? & ? & ? & ? & ?). unfold same_session. split_and!; congruence. Qed.

Lemma position_spec id parked :
  match position id parked with
  | Some i => exists o, parked !! i = Some o /\ order_id o = id /\ filter (fun o => order_id o = id) (take i parked) = []
  | None => filter (fun o => order_id o = id) parked = []
  end.
Proof.
  induction parked as [|o parked IH]; [done|]. cbn [position]. case_bool_decide as E.
  - exists o. done.
  - destruct (position id parked) as [i|]; simpl.
    + destruct IH as (o' & H1 & H2 & H3). exists o'. split_and!; [done|done|]. by rewrite filter_cons_False.
    + by rewrite filter_cons_False.
Qed.

(** Cancelling the only stop of an id removes it and nothing else. *)
Lemma stop_cancel_for_only id owner parked o :
  filter (fun o => order_id o = id) parked = [o] -> trader_id o = owner ->
  exists parked', stop_cancel_for id owner parked = (Ok o, parked') /\
    filter (fun o => order_id o = id) parked' = [] /\
    forall i, i <> id -> filter (fun o => order_id o = i) parked' = filter (fun o => order_id o = i) parked.
Proof.
  intros Hf Ho. unfold stop_cancel_for, position_for. pose proof (position_spec id parked) as Hp.
  destruct (position id parked) as [i|]; [|congruence]. destruct Hp as (o' & Hi & Hid & Hpre).
  pose proof (take_drop_middle _ _ _ Hi) as Hm.
  assert (parked = take i parked ++ o' :: drop (S i) parked) as Hsplit by done. clear Hm.
  assert (delete i parked = take i parked ++ drop (S i) parked) as Hdel by (by rewrite delete_take_drop).
  rewrite Hsplit, filter_app, Hpre, filter_cons_True in Hf by done. simpl in Hf. injection Hf as -> Hpost.
  rewrite Hi, bool_decide_false by (intros H; by apply H). rewrite Hi. eexists. split; [done|]. rewrite Hdel. split.
  - by rewrite filter_app, Hpre, Hpost.
  - intros j Hj. rewrite filter_app. rewrite Hsplit at 3. rewrite filter_app, filter_cons_False by congruence. done.
Qed.

Lemma found_set_book b e id :
  found (set_book b e) id =
  option_list (order_lookup b !! id) ++ filter (fun o => order_id o = id) (e_stops e) ++
  option_list (e_call_markets e !! id) ++ option_list (e_held_close e !! id).
Proof. done. Qed.

Lemma book_ok_same e e' : e_book e' = e_book e -> e_phase e' = e_phase e -> book_ok e -> book_ok e'.
Proof. intros Hb Hp [H1 H2 H3 H4]. split; by rewrite Hb, ?Hp. Qed.

Lemma cancel_order_stp id b : book_stp (cancel_order id b).2 = book_stp b.
Proof. unfold cancel_order. destruct (order_lookup b !! id) as [o|]; [by destruct (side o)|done]. Qed.

Lemma cancel_book_ok id e : book_ok e -> book_ok (set_book (cancel_order id (e_book e)).2 e).
Proof.
  intros [Hw Hc Hpr Hu]. pose proof (cancel_order_inv id _ Hw) as Hw'. split; [done|by simpl; rewrite cancel_order_stp| |].
  { intros i o. simpl. rewrite cancel_order_lookup. intros [_ Ho]%lookup_delete_Some. by apply (Hpr i). }
  intros Hp. specialize (Hu Hp). simpl. rewrite uncrossed_orders in Hu |- * by done. rewrite cancel_order_lookup. intros x y Hx Hy.
  apply lookup_delete_Some in Hx as [_ Hx], Hy as [_ Hy]. by apply Hu.
Qed.

Lemma cancel_order_other id i b : i <> id -> order_lookup (cancel_order id b).2 !! i = order_lookup b !! i.
Proof. intros H. by rewrite cancel_order_lookup, lookup_delete_ne. Qed.

Lemma cancel_order_banked id i b : i <> id -> banked (cancel_order id b).2 i = banked b i.
Proof.
  intros H. unfold cancel_order. destruct (order_lookup b !! id) as [o|]; [|done]. unfold banked.
  destruct (side o); simpl; by rewrite lookup_delete_ne.
Qed.

Lemma fills_agree_same X e e' : e_states e' = e_states e -> e_book e' = e_book e -> fills_agree X e -> fills_agree X e'.
Proof. intros Hs Hb H id st. rewrite Hs, Hb. apply H. Qed.

(** [remove_live] on a live order: it returns, and only that order is gone. *)
Lemma remove_live_ok {X} id e st :
  coherent_on X e -> e_states e !! id = Some st ->
  exists md e', remove_live id e = Done (md, e') /\ book_ok e' /\ found e' id = [] /\ same_elsewhere id e e' /\
    e_desk e' = e_desk e /\ same_session e e' /\ md = (cancel_order id (e_book e)).1.
Proof.
  intros [Hwf Hco _] Hst. pose proof (Hco id) as Hid. unfold coherent_at in Hid. rewrite Hst in Hid.
  destruct Hid as (o & Hf & Ho & Ht). unfold remove_live. pose proof (cancel_book_ok id _ Hwf) as Hwf'.
  pose proof (cancel_order_other id) as Hoth. pose proof (cancel_order_lookup id (e_book e)) as Hlk.
  unfold found in Hf. destruct (order_lookup (e_book e) !! id) as [ob|] eqn:Hb.
  { assert (exists u b', cancel_order id (e_book e) = (Some u, b')) as (u & b' & E).
    { unfold cancel_order. rewrite Hb. eauto. }
    rewrite E in *. cbn [snd fst] in *. simpl in Hf. injection Hf as -> Hrest.
    eexists _, _. split; [done|]. split_and!; [done| | |done..].
    - rewrite found_set_book. rewrite Hlk, lookup_delete_eq. done.
    - pose proof (fun i => cancel_order_banked id i (e_book e)) as Hbk. rewrite E in Hbk. split; [|done|done].
      intros i Hi. rewrite found_set_book. unfold found. specialize (Hoth i (e_book e) Hi). rewrite E in Hoth. cbn [snd] in Hoth.
      by rewrite Hoth. }
  assert (cancel_order id (e_book e) = (None, e_book e)) as E by (unfold cancel_order; by rewrite Hb).
  rewrite E. cbn [fst]. simpl in Hf. change (e_call_markets (set_book (e_book e) e)) with (e_call_markets e).
  change (e_held_close (set_book (e_book e) e)) with (e_held_close e).
  change (e_states (set_book (e_book e) e)) with (e_states e). change (e_stops (set_book (e_book e) e)) with (e_stops e).
  destruct (e_call_markets e !! id) as [om|] eqn:Hm.
  { destruct (filter _ (e_stops e)) as [|x l] eqn:Hs; [|destruct l; discriminate]. simpl in Hf. injection Hf as -> Hrest.
    eexists _, _. split; [done|]. split_and!; [by apply (book_ok_same e)| | |done..].
    - unfold found. simpl. by rewrite Hb, Hs, lookup_delete_eq, Hrest.
    - split; [|done|done]. intros i Hi. unfold found. simpl. by rewrite lookup_delete_ne. }
  destruct (e_held_close e !! id) as [oh|] eqn:Hh.
  { destruct (filter _ (e_stops e)) as [|x l] eqn:Hs; [|destruct l; discriminate].
    eexists _, _. split; [done|]. split_and!; [by apply (book_ok_same e)| | |done..].
    - unfold found. simpl. by rewrite Hb, Hs, lookup_delete_eq, Hm.
    - split; [|done|done]. intros i Hi. unfold found. simpl. by rewrite lookup_delete_ne. }
  simpl in Hf. rewrite app_nil_r in Hf.
  destruct (stop_cancel_for_only id (sender st) _ o Hf) as (parked' & Hc & Hnone & Helse); [by rewrite (tk_sender _ _ Ht)|].
  rewrite Hst. cbn [expect obind]. rewrite Hc. eexists _, _. split; [done|]. split_and!; [by apply (book_ok_same e)| | |done..].
  - unfold found. simpl. by rewrite Hb, Hnone, Hm, Hh.
  - split; [|done|done]. intros i Hi. unfold found. simpl. by rewrite Helse.
Qed.

(** ** Closing orders *)

Lemma cancel_all_close due ev ts e : cancel_all due ev ts e = close_all due false (fun _ => ev) ts e.
Proof. revert e. induction due as [|id due IH]; intros e; [done|]. cbn [cancel_all close_all]. by destruct (close_order id false ev ts e); simpl. Qed.

Lemma finish_orders_close due expired at_ e :
  finish_orders due expired at_ e = close_all due (negb expired) (finish_event expired) (timestamp_of at_) e.
Proof.
  revert e. induction due as [|id due IH]; intros e; [done|]. cbn [finish_orders close_all].
  assert (finish_order id expired at_ e = close_order id (negb expired) (finish_event expired id) (timestamp_of at_) e) as ->
    by (by destruct expired).
  destruct (close_order id (negb expired) (finish_event expired id) (timestamp_of at_) e); simpl; done.
Qed.

Lemma coherent_removed {X} e e' id :
  coherent_on X e -> book_ok e' -> found e' id = [] -> (forall i, i <> id -> found e' i = found e i) ->
  (forall i, i <> id -> banked (e_book e') i = banked (e_book e) i) ->
  e_states e' = delete id (e_states e) -> coherent_on X e'.
Proof.
  intros [_ Hc Ht] Hb Hf Hfe Hbk Hs. split; [done| |].
  - intros i. unfold coherent_at. rewrite Hs.
    destruct (decide (i = id)) as [->|Hi]; [by rewrite lookup_delete_eq|]. rewrite lookup_delete_ne, Hfe by done. apply Hc.
  - intros i st. rewrite Hs. intros [Hi Hst]%lookup_delete_Some. rewrite Hbk by done. by apply Ht.
Qed.

Lemma send_report_spec to id sym st ev ts (d : Desk R I) :
  states (send_report to id sym st ev ts d) = states d /\
  outputs (send_report to id sym st ev ts d) = outputs d ++ [OExecutionReport to (build_report id sym st ev ts d).1].
Proof. unfold send_report, build_report. by destruct (next_id (ids d)). Qed.

Lemma reports_snoc outs to r : reports (outs ++ [OExecutionReport to r]) = reports outs ++ [(to, r)].
Proof. unfold reports. by rewrite omap_app. Qed.

(** The order is out; its state is dropped and the event reported to [to]. *)
Lemma removal_reported {X} to id (diag : bool) ev ts e md e1 st :
  coherent_on X e -> e_states e !! id = Some st -> remove_live id e = Done (md, e1) ->
  let e2 := on_desk (fun d => set_states (delete id (states d)) d) e1 in
  let e3 := if diag then on_desk (emit "cancel_context" id "" "" 0 "auction remainder") e2 else e2 in
  let e4 := on_desk (send_report to id (e_symbol e3) (Some st) ev ts) e3 in
  let e5 := match md with Some u => on_desk (send_md u ts) e4 | None => e4 end in
  e_states e1 !! id = Some st /\ exists r, coherent_on X e5 /\ e_states e5 = delete id (e_states e) /\
    (forall i, i <> id -> found e5 i = found e i) /\ found e5 id = [] /\ same_session e e5 /\
    reports (e_outputs e5) = reports (e_outputs e) ++ [(to, r)] /\ report_on id (e_symbol e) (Some st) ev ts r.
Proof.
  intros Hco Hst Hrun. destruct (remove_live_ok id e st Hco Hst) as (md' & e1' & Hrm & Hwf & Hnone & [Hf Hs Hbk] & Hd & Hses & Hmd).
  rewrite Hrm in Hrun. injection Hrun as -> ->. intros e2 e3 e4 e5.
  assert (forall i, found e5 i = found e1 i) as Hf5 by (intros i; unfold e5, e4, e3, e2; by destruct md, diag).
  assert (e_symbol e3 = e_symbol e) as Hsym by (unfold e3, e2; destruct diag; apply Hses).
  assert (e_states e5 = delete id (e_states e)) as Hs5.
  { assert (e_states e5 = e_states e4) as -> by (unfold e5; by destruct md). unfold e4, e_states at 1. simpl.
    rewrite (proj1 (send_report_spec _ _ _ _ _ _ _)). unfold e3, e2, e_states. destruct diag; simpl; by rewrite Hd. }
  assert (reports (e_outputs e5) = reports (e_outputs e4)) as Hr5.
  { unfold e5. destruct md; [|done]. unfold e_outputs, reports. simpl. by rewrite omap_app, app_nil_r. }
  assert (outputs (e_desk e3) = outputs (e_desk e)) as Ho3 by (unfold e3, e2; destruct diag; simpl; by rewrite Hd).
  split; [unfold e_states; by rewrite Hd|]. exists (build_report id (e_symbol e3) (Some st) ev ts (e_desk e3)).1. split_and!.
  - apply (coherent_removed e _ id); [done| |by rewrite Hf5|intros i Hi; by rewrite Hf5, Hf| |done].
    + apply (book_ok_same e1); [| |done]; unfold e5, e4, e3, e2; by destruct md, diag.
    + replace (e_book e5) with (e_book e1) by (unfold e5, e4, e3, e2; by destruct md, diag). done.
  - done.
  - intros i Hi. by rewrite Hf5, Hf.
  - by rewrite Hf5.
  - unfold same_session, e5, e4, e3, e2 in *. by destruct md, diag.
  - rewrite Hr5. unfold e_outputs, e4. simpl. by rewrite (proj2 (send_report_spec _ _ _ _ _ _ _)), reports_snoc, Ho3.
  - exists (e_desk e3). by rewrite Hsym.
Qed.

Lemma close_order_ok {X} id diag ev ts e st :
  coherent_on X e -> e_states e !! id = Some st ->
  exists e' r, close_order id diag ev ts e = Done e' /\ coherent_on X e' /\ e_states e' = delete id (e_states e) /\
    (forall i, i <> id -> found e' i = found e i) /\ found e' id = [] /\ same_session e e' /\
    reports (e_outputs e') = reports (e_outputs e) ++ [(output_tx st, r)] /\ report_on id (e_symbol e) (Some st) ev ts r.
Proof.
  intros Hco Hst. destruct (remove_live_ok id e st Hco Hst) as (md & e1 & Hrm & _).
  unfold close_order. rewrite Hrm. cbn [obind].
  destruct (removal_reported (output_tx st) id diag ev ts e md e1 st Hco Hst Hrm) as (Hs1 & r & Hr).
  rewrite Hs1. cbn [expect obind]. eexists _, r. split; [done|exact Hr].
Qed.

Lemma close_all_ok {X} diag ev ts due : forall e,
  coherent_on X e -> NoDup due -> (forall id, id ∈ due -> is_Some (e_states e !! id)) ->
  exists e' rs, close_all due diag ev ts e = Done e' /\ coherent_on X e' /\ same_session e e' /\
    (forall id, e_states e' !! id = if bool_decide (id ∈ due) then None else e_states e !! id) /\
    (forall id, found e' id = if bool_decide (id ∈ due) then [] else found e id) /\
    reports (e_outputs e') = reports (e_outputs e) ++ rs /\ closing_reports e ev ts due rs.
Proof.
  induction due as [|id due IH]; intros e Hco Hnd Hin.
  { exists e, []. split_and!; try done. - by rewrite app_nil_r. - constructor. }
  apply NoDup_cons in Hnd as [Hni Hnd]. destruct (Hin id ltac:(left)) as [st Hst].
  destruct (close_order_ok id diag (ev id) ts e st Hco Hst) as (e1 & r & Hc & Hco1 & Hs1 & Hf1 & Hf1' & Hses & Hr1 & Hon).
  destruct (IH e1 Hco1 Hnd) as (e2 & rs & Hc2 & Hco2 & Hses2 & Hs2 & Hf2 & Hr2 & Hcl).
  { intros i Hi. rewrite Hs1, lookup_delete_ne by (intros ->; done). apply Hin. by right. }
  exists e2, ((output_tx st, r) :: rs). cbn [close_all]. rewrite Hc. cbn [obind]. split; [done|]. split; [done|]. split_and!.
  - by eapply same_session_trans.
  - intros i. rewrite Hs2, Hs1. destruct (decide (i = id)) as [->|Hi].
    + rewrite lookup_delete_eq. rewrite (bool_decide_true (id ∈ id :: due)) by left. by destruct (bool_decide _).
    + rewrite lookup_delete_ne by done. by rewrite (bool_decide_ext (i ∈ id :: due) (i ∈ due)) by set_solver.
  - intros i. rewrite Hf2. destruct (decide (i = id)) as [->|Hi].
    + rewrite Hf1', (bool_decide_true (id ∈ id :: due)) by left. by destruct (bool_decide _).
    + rewrite Hf1 by done. by rewrite (bool_decide_ext (i ∈ id :: due) (i ∈ due)) by set_solver.
  - rewrite Hr2, Hr1, <- app_assoc. done.
  - constructor; [by exists st|]. eapply Forall2_impl; [exact Hcl|]. intros i x (st' & H1 & H2 & H3). exists st'.
    split_and!; [|done|by rewrite (proj1 Hses) in H3]. rewrite Hs1 in H1. by apply lookup_delete_Some in H1 as [_ H1].
Qed.

(** ** Which orders are due *)

Lemma due_orders_perm test e :
  due_orders test e ≡ₚ (List.filter (fun x => test x.1 x.2) (map_to_list (e_states e))).*1.
Proof.
  unfold due_orders. rewrite sort_stable_perm, <- list_fmap_compose. done.
Qed.

Lemma elem_of_due_orders test e id :
  id ∈ due_orders test e <-> exists st, e_states e !! id = Some st /\ test id st = true.
Proof.
  rewrite due_orders_perm, list_elem_of_fmap. split.
  - intros ([i st] & -> & Hx). apply list_elem_of_In, List.filter_In in Hx as [Hx Ht]. apply list_elem_of_In, elem_of_map_to_list in Hx. eauto.
  - intros (st & Hst & Ht). exists (id, st). split; [done|]. apply list_elem_of_In, List.filter_In.
    split; [by apply list_elem_of_In, elem_of_map_to_list|done].
Qed.

Lemma NoDup_due_orders test e : NoDup (due_orders test e).
Proof.
  rewrite due_orders_perm. eapply sublist_NoDup; [apply (NoDup_fst_map_to_list (e_states e))|].
  generalize (map_to_list (e_states e)). intros l. induction l as [|x l IH]; simpl; [constructor|].
  destruct (test x.1 x.2); simpl; by constructor.
Qed.

Lemma pair_leb_total a b : pair_leb a b = false -> pair_leb b a = true.
Proof.
  destruct a as [x i], b as [y j]. unfold pair_leb. simpl. destruct (Z.ltb_spec x y), (Z.eqb_spec x y), (Z.ltb_spec y x), (Z.eqb_spec y x); try lia; try done.
  simpl. intros Hj%negb_false_iff. apply negb_true_iff. destruct (string_ltb i j) eqn:Hi; [|done].
  pose proof (key_ltb_trans (K := string) _ _ _ Hi Hj) as Hx. by rewrite (key_ltb_irrefl (K := string)) in Hx.
Qed.

Lemma pair_leb_trans a b c : pair_leb a b = true -> pair_leb b c = true -> pair_leb a c = true.
Proof.
  destruct a as [x i], b as [y j], c as [z k]. unfold pair_leb. simpl.
  destruct (Z.ltb_spec x y), (Z.eqb_spec x y), (Z.ltb_spec y z), (Z.eqb_spec y z), (Z.ltb_spec x z), (Z.eqb_spec x z); try lia; try done.
  simpl. intros Hj%negb_true_iff Hk%negb_true_iff. apply negb_true_iff. destruct (string_ltb k i) eqn:Hi; [|done].
  destruct (string_ltb i j) eqn:Hij.
  - pose proof (key_ltb_trans (K := string) _ _ _ Hi Hij) as Hx. simpl in Hx. by rewrite Hk in Hx.
  - pose proof (key_ltb_total (K := string) i j Hij Hj) as ->. by rewrite Hk in Hi.
Qed.

(** Selected orders come in the order they arrived in. *)
Lemma due_orders_arrival test e : StronglySorted (arrived_before e) (due_orders test e).
Proof.
  unfold due_orders. set (keys := (fun x => (st_arrival x.2, x.1)) <$> _).
  assert (Forall (fun k => exists st, e_states e !! k.2 = Some st /\ st_arrival st = k.1) (sort_stable pair_leb keys)) as Hk.
  { rewrite sort_stable_perm. apply Forall_fmap, Forall_forall. intros [id st] Hx%list_elem_of_In. apply List.filter_In in Hx as [Hx _].
    apply list_elem_of_In, elem_of_map_to_list in Hx. simpl. eauto. }
  pose proof (sort_stable_sorted pair_leb pair_leb_total pair_leb_trans keys) as Hs.
  induction Hs as [|k ks Hs IH Hle]; [constructor|]. apply Forall_cons in Hk as [(s1 & H1 & H2) Hk]. constructor; [by apply IH|].
  apply Forall_fmap. rewrite Forall_forall in Hk, Hle |- *. intros k' Hin. destruct (Hk _ Hin) as (s2 & H3 & H4). exists s1, s2.
  split_and!; [done..|]. specialize (Hle _ Hin). unfold pair_leb in Hle. rewrite H2, H4.
  destruct (Z.ltb_spec k.1 k'.1), (Z.eqb_spec k.1 k'.1); try lia; done.
Qed.

(** Closing exactly the orders a test selects. *)
Lemma close_due_ok {X} test diag ev ts e :
  coherent_on X e ->
  exists e' rs, close_all (due_orders test e) diag ev ts e = Done e' /\ coherent_on X e' /\ same_session e e' /\
    (forall id, e_states e' !! id =
       match e_states e !! id with Some st => if test id st then None else Some st | None => None end) /\
    (forall id, found e' id = match e_states e !! id with Some st => if test id st then [] else found e id | None => [] end) /\
    reports (e_outputs e') = reports (e_outputs e) ++ rs /\ closing_reports e ev ts (due_orders test e) rs.
Proof.
  intros Hco. destruct (close_all_ok diag ev ts (due_orders test e) e Hco (NoDup_due_orders test e)) as (e' & rs & H1 & H2 & H3 & H4 & H5 & H6 & H7).
  { intros id Hid. apply elem_of_due_orders in Hid as (st & Hst & _). eauto. }
  exists e', rs. split_and!; try done.
  - intros id. rewrite H4. pose proof (elem_of_due_orders test e id) as Hin. destruct (e_states e !! id) as [st|].
    + destruct (test id st) eqn:Ht; [by rewrite bool_decide_true by (apply Hin; eauto)|].
      rewrite bool_decide_false; [done|]. intros Hx. apply Hin in Hx as (st' & [= <-] & Hx). congruence.
    + by destruct (bool_decide _).
  - intros id. rewrite H5. pose proof (elem_of_due_orders test e id) as Hin. pose proof (co_states _ Hco id) as Hat. unfold coherent_at in Hat.
    destruct (e_states e !! id) as [st|].
    + destruct (test id st) eqn:Ht; [by rewrite bool_decide_true by (apply Hin; eauto)|].
      rewrite bool_decide_false; [done|]. intros Hx. apply Hin in Hx as (st' & [= <-] & Hx). congruence.
    + rewrite Hat. by destruct (bool_decide _).
Qed.

(** ** Putting an order in *)

(** Engines with the same orders, states and book are coherent alike. *)
Lemma coherent_ext {X} e e' :
  coherent_on X e -> e_book e' = e_book e -> e_stops e' = e_stops e -> e_call_markets e' = e_call_markets e ->
  e_held_close e' = e_held_close e -> e_states e' = e_states e -> e_phase e' = e_phase e -> coherent_on X e'.
Proof.
  intros [Hw Hc Ht] Hb Hs Hm Hh Hst Hp. split; [by apply (book_ok_same e)| |by apply (fills_agree_same _ e)]. intros id. specialize (Hc id).
  unfold coherent_at, found in *. by rewrite Hb, Hs, Hm, Hh, Hst.
Qed.

(** An order put where nothing of its id is, with a state that tracks it. *)
Lemma coherent_insert e e' o st :
  coherent e -> e_states e !! order_id o = None -> tracks st o -> book_ok e' ->
  e_states e' = <[order_id o := st]> (e_states e) ->
  found e' (order_id o) = [o] -> (forall i, i <> order_id o -> found e' i = found e i) ->
  cum_qty st = 0 -> cum_filled (e_book e') = cum_filled (e_book e) -> coherent e'.
Proof.
  intros [Hw Hc Hta] Hn Ht Hw' Hs Hf Hfe Hz Hbk.
  assert (forall id, banked (e_book e') id = banked (e_book e) id) as Hbk' by (intros id; unfold banked; by rewrite Hbk). split; [done| |].
  - intros id. unfold coherent_at. rewrite Hs.
    destruct (decide (id = order_id o)) as [->|Hi]; [rewrite lookup_insert_eq; by exists o|].
    rewrite lookup_insert_ne by done. rewrite Hfe by done. apply Hc.
  - intros id s. rewrite Hs, Hbk', lookup_insert. case_decide as E; [|apply Hta]. intros [= <-] _. subst id.
    pose proof (Hc (order_id o)) as Hat. unfold coherent_at in Hat. rewrite Hn in Hat. unfold found in Hat.
    rewrite (banked_absent [] _ _ (bo_wf _ Hw)); [done|]. by destruct (order_lookup (e_book e) !! order_id o).
Qed.

Lemma coherent_absent {X} e id : coherent_on X e -> e_states e !! id = None ->
  found e id = [] /\ order_lookup (e_book e) !! id = None /\ filter (fun o => order_id o = id) (e_stops e) = [] /\
  e_call_markets e !! id = None /\ e_held_close e !! id = None.
Proof.
  intros [_ Hc _] Hn. specialize (Hc id). unfold coherent_at in Hc. rewrite Hn in Hc. split; [done|].
  unfold found in Hc. destruct (order_lookup (e_book e) !! id), (filter _ (e_stops e)), (e_call_markets e !! id), (e_held_close e !! id); done.
Qed.

Lemma acknowledge_frame o st e :
  e_book (acknowledge o st e) = e_book e /\ e_stops (acknowledge o st e) = e_stops e /\
  e_call_markets (acknowledge o st e) = e_call_markets e /\ e_held_close (acknowledge o st e) = e_held_close e /\
  e_phase (acknowledge o st e) = e_phase e /\ e_states (acknowledge o st e) = <[order_id o := st]> (e_states e).
Proof.
  split_and!; try done. unfold acknowledge, insert_state, on_desk, e_states. cbn [e_desk set_desk set_states states].
  rewrite send_report_states. done.
Qed.

Lemma add_order_stp o b : book_stp (add_order o b).2 = book_stp b.
Proof. unfold add_order. by destruct (side o). Qed.

(** Held, waiting or entered: an order that does not match is put in one place. *)
Lemma hold_order_ok o st e :
  coherent e -> e_states e !! order_id o = None -> tracks st o -> cum_qty st = 0 -> (e_phase e = Continuous -> time_in_force o = AtClose) ->
  coherent (hold_order o st e) /\ e_states (hold_order o st e) = <[order_id o := st]> (e_states e).
Proof.
  intros Hco Hn Ht Hz Hph. destruct (coherent_absent _ _ Hco Hn) as (Hf & Hb & Hs & Hm & Hh).
  destruct (acknowledge_frame o st e) as (F1 & F2 & F3 & F4 & F5 & F6). pose proof (co_book _ Hco) as Hw.
  unfold hold_order. set (e1 := acknowledge o st e) in *. clearbody e1. rewrite F5.
  destruct (bool_decide (time_in_force o = AtClose) && bool_decide (e_phase e <> ClosingCall)) eqn:Hac; [|destruct (bool_decide_reflect (order_type o = Market))].
  - split; [|done]. apply (coherent_insert e _ o st); [done..|by apply (book_ok_same e)|done| | |done|by simpl; rewrite F1].
    + unfold found. simpl. rewrite F1, F2, F3, F4. rewrite Hb, Hs, Hm, lookup_insert_eq. done.
    + intros i Hi. unfold found. simpl. rewrite F1, F2, F3, F4. by rewrite lookup_insert_ne.
  - split; [|done]. apply (coherent_insert e _ o st); [done..|by apply (book_ok_same e)|done| | |done|by simpl; rewrite F1].
    + unfold found. simpl. rewrite F1, F2, F3, F4. rewrite Hb, Hs, Hh, lookup_insert_eq. done.
    + intros i Hi. unfold found. simpl. rewrite F1, F2, F3, F4. by rewrite lookup_insert_ne.
  - pose proof (add_order_inv [] o (e_book e) (bo_wf _ Hw) (tk_ok _ _ Ht) Hb) as Hw'. pose proof (add_order_lookup o (e_book e)) as Hl.
    pose proof (add_order_stp o (e_book e)) as Hcl. pose proof (add_order_cum o (e_book e)) as Hcu. rewrite (bo_clean _ Hw) in Hcl.
    rewrite F1. destruct (add_order o (e_book e)) as [md b]. cbn [snd] in *. split; [|done].
    apply (coherent_insert e _ o st); [done..| |done| | |done|exact Hcu].
    + split; [done|done| |]; simpl; [intros i x; rewrite Hl; intros [[_ <-]|[_ Hx]]%lookup_insert_Some; [done|by apply (bo_priced _ Hw i)]|]. rewrite F5. intros Hp. rewrite (Hph Hp), Hp in Hac. done.
    + unfold found. simpl. rewrite F2, F3, F4, Hl. rewrite Hs, Hm, Hh, lookup_insert_eq. done.
    + intros i Hi. unfold found. simpl. rewrite F2, F3, F4, Hl. by rewrite lookup_insert_ne.
Qed.

Lemma park_order_ok o st e :
  coherent e -> e_states e !! order_id o = None -> tracks st o -> cum_qty st = 0 ->
  coherent (set_market (e_book (acknowledge o st e)) (park o (e_stops (acknowledge o st e))) (e_last (acknowledge o st e)) (acknowledge o st e)).
Proof.
  intros Hco Hn Ht Hz. destruct (coherent_absent _ _ Hco Hn) as (Hf & Hb & Hs & Hm & Hh).
  destruct (acknowledge_frame o st e) as (F1 & F2 & F3 & F4 & F5 & F6). pose proof (co_book _ Hco) as Hw.
  set (e1 := acknowledge o st e) in *. clearbody e1. apply (coherent_insert e _ o st); [done..|by apply (book_ok_same e)|done| | |done|by simpl; rewrite F1].
  - unfold found. simpl. rewrite F1, F2, F3, F4. unfold park. rewrite filter_app, Hb, Hs, Hm, Hh, filter_cons_True by done. done.
  - intros i Hi. unfold found. simpl. rewrite F1, F2, F3, F4. unfold park. rewrite filter_app, filter_cons_False by congruence.
    simpl. by rewrite filter_nil, app_nil_r.
Qed.

(** ** New orders *)

Lemma or_else_None {A} (x : option A) k : or_else x k = None <-> x = None /\ k tt = None.
Proof. destruct x; simpl; naive_solver. Qed.

Lemma parse_side order s ty tif : parse_order_enums order = Ok (s, ty, tif) -> n_side order = side_to_proto s.
Proof.
  unfold parse_order_enums. intros H.
  destruct (n_side order) as [|[|[]|]|]; try done; repeat case_match; by simplify_eq.
Qed.

(** What passes validation can be put on the book. *)
Lemma order_reason_None order e (tx : R) arr :
  request_ok order -> order_reason order e = None ->
  exists s ty tif mode_ explicit,
    parse_order_enums order = Ok (s, ty, tif) /\ parse_stp (n_stp_mode order) (e_stp_default e) = Ok (mode_, explicit) /\
    e_states e !! n_order_id order = None /\
    tracks (state_new order (quantity (order_of order s ty tif mode_ e)) tx arr) (order_of order s ty tif mode_ e) /\
    (is_limit_type ty = true -> 0 < n_price order) /\ (is_stop_type ty = true -> tif <> AtClose) /\ 0 < n_quantity order.
Proof.
  intros Hq H. unfold order_reason in H. rewrite !or_else_None in H. destruct H as (H1 & H2 & H3).
  unfold order_entry_reason in H1. destruct (parse_order_enums order) as [[[s ty] tif]|] eqn:Hp; [|done].
  destruct (Z.leb_spec (n_quantity order) 0); [done|]. destruct (is_limit_type ty && (n_price order <=? 0)) eqn:Hl; [done|].
  case_bool_decide as Hdup; [done|]. destruct (parse_stp _ _) as [[mode_ explicit]|] eqn:Hs; [|done].
  exists s, ty, tif, mode_, explicit.
  assert (as_u32 (n_quantity order) = n_quantity order) as Hu.
  { unfold as_u32. apply wrap32_small. unfold request_ok, is_u32, i32_max, u32_max in *. lia. }
  assert (0 < n_quantity order <= u32_max) as Hr by (unfold request_ok, i32_max, u32_max in *; lia).
  split_and!; [done|done|by apply eq_None_not_Some| | | |lia].
  - split; simpl; rewrite ?Hu; try done; try lia; [by eapply parse_side|].
    split; simpl; [by rewrite Hu|]. unfold as_u32, wrap32. apply Z.mod_pos_bound. done.
  - intros Hlim. rewrite Hlim in Hl. simpl in Hl. destruct (Z.leb_spec (n_price order) 0); [done|lia].
  - intros Hst ->. destruct (_ && explicit && _); [done|]. unfold entry_reason in H1. case_bool_decide; [done|]. destruct ty; try done; by destruct (auctions_enabled e).
Qed.

(** Rejecting changes only the desk's outputs and execution ids. *)
Lemma on_desk_coherent {X} f e : coherent_on X e -> states (f (e_desk e)) = states (e_desk e) -> coherent_on X (on_desk f e).
Proof. intros Hco Hs. by apply (coherent_ext e). Qed.

Lemma coherent_found {X} e id st o :
  coherent_on X e -> e_states e !! id = Some st -> o ∈ found e id -> found e id = [o].
Proof.
  intros [_ Hc _] Hs Ho. specialize (Hc id). unfold coherent_at in Hc. rewrite Hs in Hc. destruct Hc as (x & Hx & _).
  rewrite Hx in *. by apply list_elem_of_singleton in Ho as ->.
Qed.

Lemma found_hold o st e : coherent e -> e_states e !! order_id o = None -> tracks st o -> cum_qty st = 0 -> (e_phase e = Continuous -> time_in_force o = AtClose) ->
  found (hold_order o st e) (order_id o) = [o].
Proof.
  intros Hco Hn Ht Hz Hph. destruct (hold_order_ok o st e Hco Hn Ht Hz Hph) as [Hco' Hs].
  eapply coherent_found; [done|rewrite Hs; apply lookup_insert_eq|]. clear Hco' Hs.
  destruct (coherent_absent _ _ Hco Hn) as (Hf & Hb & Hps & Hm & Hh). destruct (acknowledge_frame o st e) as (F1 & F2 & F3 & F4 & F5 & F6).
  unfold hold_order. set (e1 := acknowledge o st e) in *. clearbody e1. unfold found.
  destruct (_ && _); [|case_bool_decide].
  - simpl. rewrite F1, F2, F3, Hb, Hps, Hm, lookup_insert_eq. left.
  - simpl. rewrite F1, F2, F4, Hb, Hps, Hh, lookup_insert_eq. left.
  - pose proof (add_order_lookup o (e_book e1)) as Hl. destruct (add_order o (e_book e1)) as [md b]. simpl in *. rewrite Hl, lookup_insert_eq. left.
Qed.

(** An acknowledged order has been reported. *)
Lemma acknowledge_reports o st e :
  exists r, reports (e_outputs (acknowledge o st e)) = reports (e_outputs e) ++ [(output_tx st, r)] /\ acknowledges o st r.
Proof.
  unfold acknowledge, insert_state, e_outputs, on_desk. cbn [e_desk set_desk set_states outputs].
  rewrite (proj2 (send_report_spec _ _ _ _ _ _ _)), reports_snoc. eexists. split; [reflexivity|].
  unfold acknowledges, build_report. destruct (next_id _). done.
Qed.

Lemma hold_order_reports o st e :
  exists r, reports (e_outputs (hold_order o st e)) = reports (e_outputs e) ++ [(output_tx st, r)] /\ acknowledges o st r.
Proof.
  destruct (acknowledge_reports o st e) as (r & Hr & Ha). exists r. split; [|done]. rewrite <- Hr. unfold hold_order.
  set (e1 := acknowledge o st e). clearbody e1. destruct (_ && _); [done|]. case_bool_decide; [done|]. destruct (add_order o (e_book e1)) as [md b].
  unfold e_outputs, on_desk, send_md, push, reports. simpl. rewrite omap_app. simpl. by rewrite app_nil_r.
Qed.

Lemma hold_order_waits o st e : is_stop_type (order_type o) = false -> (e_phase e = Continuous -> time_in_force o = AtClose) -> waits e (hold_order o st e) o.
Proof.
  intros Hst Hph. unfold waits, hold_order. destruct (acknowledge_frame o st e) as (F1 & F2 & F3 & F4 & F5 & F6).
  set (e1 := acknowledge o st e) in *. clearbody e1. rewrite F5.
  assert (bool_decide (time_in_force o = AtClose) && bool_decide (e_phase e <> ClosingCall) = false -> e_phase e <> Continuous) as Hc.
  { intros Hb Hc. rewrite Hc, (Hph Hc) in Hb. done. }
  destruct (order_type o); try done; destruct (_ && _); try (simpl; apply lookup_insert_eq); (split; [by apply Hc|]).
  - rewrite !bool_decide_true by done. simpl. apply lookup_insert_eq.
  - rewrite !bool_decide_false by done. pose proof (add_order_lookup o (e_book e1)) as Hl. destruct (add_order o (e_book e1)) as [md b]. simpl in *.
    rewrite Hl. apply lookup_insert_eq.
Qed.

Lemma accept_order_entered o st e :
  coherent e -> e_states e !! order_id o = None -> tracks st o -> cum_qty st = 0 ->
  (is_stop_type (order_type o) = true -> time_in_force o <> AtClose) -> order_entered e o st (accept_order o st e).
Proof.
  intros Hco Hn Ht Hcz Hauc. unfold accept_order. destruct (coherent_absent _ _ Hco Hn) as (Hf & Hb & Hps & Hm & Hh).
  assert (is_stop_type (order_type o) = false -> (e_phase e = Continuous -> time_in_force o = AtClose) -> order_entered e o st (Done (hold_order o st e))) as Hhold.
  { intros Hns Hph. destruct (hold_order_reports o st e) as (r & Hr & Ha).
    by apply (entered_waiting _ _ _ _ r); [by apply hold_order_ok|by apply hold_order_ok|by apply found_hold|by apply hold_order_waits|..]. }
  assert ((is_stop_type (order_type o) = true -> e_phase e = Continuous /\ time_in_force o <> AtClose) -> order_entered e o st (if bool_decide (e_phase e <> Continuous) || bool_decide (time_in_force o = AtClose)
    then Done (hold_order o st e) else match_order o st e)) as Hrest.
  { intros Hst. assert (e_phase e <> Continuous \/ time_in_force o = AtClose -> is_stop_type (order_type o) = false) as Hns.
    { intros Hor. destruct (is_stop_type (order_type o)); [|done]. destruct (Hst eq_refl). by destruct Hor. }
    destruct (bool_decide_reflect (e_phase e <> Continuous)) as [Hp|Hp]; cbn [orb]; [apply Hhold; [by apply Hns; left|done]|].
    case_bool_decide; [apply Hhold; [by apply Hns; right|done]|]. apply dec_stable in Hp. destruct (co_book _ Hco) as [? ? _ Hu].
    apply entered_matching; [done|split; [done|done|by apply Hu]|split; [apply (tk_ok _ _ Ht)|done]]. }
  destruct (is_stop_type (order_type o)) eqn:Hst; cbn [andb]; [|by apply Hrest].
  destruct (Z.eqb_spec (stop_price o) 0) as [E|E].
  { apply entered_refused; [|..|done|done]; [apply on_desk_coherent; [done|apply send_report_states]|].
    unfold e_states, on_desk. simpl. apply send_report_states. }
  destruct (fires_now e o) eqn:Hfn; cbn [andb negb].
  { apply Hrest. intros _. unfold fires_now in Hfn. apply andb_true_iff in Hfn as [Hfn _]. split; [by apply bool_decide_eq_true in Hfn|by apply Hauc]. }
  destruct (acknowledge_reports o st e) as (r & Hr & Ha).
  apply (entered_waiting _ _ _ _ r); [by apply park_order_ok|by apply acknowledge_frame| | |done|done];
    (destruct (acknowledge_frame o st e) as (F1 & F2 & F3 & F4 & F5 & F6); set (e1 := acknowledge o st e) in *; clearbody e1).
  - unfold found. simpl. rewrite F1, F2, F3, F4. unfold park. by rewrite filter_app, Hb, Hps, Hm, Hh, filter_cons_True by done.
  - unfold waits. destruct (order_type o); try done; simpl; unfold park; set_solver.
Qed.

(** ** Publishing the indicative *)

Lemma mapO_Done {A B} (f : A -> outcome B) (P : A -> B -> Prop) l :
  (forall x, x ∈ l -> exists y, f x = Done y /\ P x y) -> exists ys, mapO f l = Done ys /\ Forall2 P l ys.
Proof.
  induction l as [|x l IH]; intros H; [exists []; by split; [|constructor]|].
  destruct (H x ltac:(left)) as (y & Hy & HP). destruct IH as (ys & Hys & HF); [intros z Hz; apply H; by right|].
  exists (y :: ys). cbn [mapO]. rewrite Hy. cbn [obind]. rewrite Hys. by split; [|constructor].
Qed.

Lemma live_auction_order {X} e o :
  coherent_on X e -> o ∈ live_auction_orders e -> exists st, e_states e !! order_id o = Some st /\ tracks st o.
Proof.
  intros Hco Ho. assert (exists id, o ∈ found e id) as [id Hid].
  { unfold live_auction_orders in Ho. apply elem_of_app in Ho as [Ho|Ho]; apply list_elem_of_fmap in Ho as ([id x] & -> & Hx);
      apply elem_of_map_to_list in Hx; exists id; unfold found; rewrite Hx; set_solver. }
  pose proof (co_states _ Hco id) as Hat. unfold coherent_at in Hat. destruct (e_states e !! id) as [st|] eqn:Hs.
  - destruct Hat as (x & Hx & Hxid & Ht). rewrite Hx in Hid. apply list_elem_of_singleton in Hid as ->. exists st. by rewrite Hxid.
  - rewrite Hat in Hid. by apply not_elem_of_nil in Hid.
Qed.

(** The ids of the orders in an auction. *)
Definition live_ids e : list string := (map_to_list (order_lookup (e_book e))).*1 ++ (map_to_list (e_call_markets e)).*1.

Lemma elem_of_live_ids e id : id ∈ live_ids e <-> is_Some (order_lookup (e_book e) !! id) \/ is_Some (e_call_markets e !! id).
Proof.
  unfold live_ids. rewrite elem_of_app, !list_elem_of_fmap. split.
  - intros [([i o] & -> & H)|([i o] & -> & H)]; apply elem_of_map_to_list in H; [left|right]; by exists o.
  - intros [[o H]|[o H]]; apply elem_of_map_to_list in H; [left|right]; by exists (id, o).
Qed.

Lemma NoDup_live_ids {X} e : coherent_on X e -> NoDup (live_ids e).
Proof.
  intros Hco. apply NoDup_app. split_and!; [apply NoDup_fst_map_to_list| |apply NoDup_fst_map_to_list].
  intros id H1 H2. apply list_elem_of_fmap in H1 as ([i1 o1] & -> & H1). apply list_elem_of_fmap in H2 as ([i2 o2] & E & H2).
  simpl in E. subst i2. apply elem_of_map_to_list in H1, H2. pose proof (co_states _ Hco i1) as Hat. unfold coherent_at, found in Hat.
  simpl in Hat. rewrite H1, H2 in Hat. destruct (e_states e !! i1); [destruct Hat as (o3 & Hx & _)|done]. by destruct (filter _ (e_stops e)).
Qed.

Lemma live_auction_orders_size {X} e : coherent_on X e -> (length (live_auction_orders e) <= size (e_states e))%nat.
Proof.
  intros Hco. assert (length (live_auction_orders e) = length (live_ids e)) as ->
    by (unfold live_auction_orders, live_ids; by rewrite !length_app, !length_fmap).
  rewrite <- size_dom. unfold size, set_size. simpl. apply submseteq_length, NoDup_submseteq; [by eapply NoDup_live_ids|].
  intros id Hid. apply elem_of_elements, elem_of_dom. pose proof (co_states _ Hco id) as Hat. unfold coherent_at, found in Hat.
  destruct (e_states e !! id); [eauto|]. apply app_eq_nil in Hat as [H1 Hat]. apply app_eq_nil in Hat as [_ Hat]. apply app_eq_nil in Hat as [H2 _].
  apply elem_of_live_ids in Hid as [[o Ho]|[o Ho]]; by rewrite Ho in *.
Qed.

Lemma few_submap e e' : few e -> e_states e' ⊆ e_states e -> few e'.
Proof. unfold few. intros Hf Hs. apply map_subseteq_size in Hs. lia. Qed.

Lemma auction_orders_ok {X} e : coherent_on X e -> few e -> exists l, auction_orders e = Done l /\ auction_ok l.
Proof.
  intros Hco Hfew. unfold auction_orders.
  destruct (mapO_Done (auction_order e) (fun o a => 0 <= a_quantity a <= u32_max) (live_auction_orders e)) as (l & Hl & HF).
  { intros o Ho. destruct (live_auction_order e o Hco Ho) as (st & Hs & Ht). unfold auction_order. rewrite Hs. cbn [expect obind].
    eexists. split; [done|]. simpl. pose proof (tk_total _ _ Ht). pose proof (tk_cum _ _ Ht). pose proof (tk_fits _ _ Ht).
    destruct (tk_ok _ _ Ht) as [? _]. lia. }
  exists l. split; [done|]. assert (Forall (fun a => 0 <= a_quantity a <= u32_max) l) as Hall.
  { clear -HF. induction HF; constructor; auto. }
  split; [done|]. assert (sumZ a_quantity l <= Z.of_nat (length l) * u32_max) as Hsum.
  { clear -Hall. induction Hall as [|a l Ha _ IH]; [done|]. rewrite sumZ_cons. cbn [length]. rewrite Nat2Z.inj_succ. lia. }
  apply Forall2_length in HF. pose proof (live_auction_orders_size e Hco). unfold few in Hfew. unfold u32_max, u64_max in *. lia.
Qed.

Lemma coherent_unmoved {X} e e' : coherent_on X e -> unmoved e e' -> coherent_on X e'.
Proof.
  intros [Hw Hc Ht] [Hf Hs Hb _ _ (_ & _ & _ & Hp & _) _ _]. split; [by apply (book_ok_same e)| |by apply (fills_agree_same _ e)]. intros id. specialize (Hc id). unfold coherent_at in *. by rewrite Hs, Hf.
Qed.

Lemma publish_ok {X} at_ e : coherent_on X e -> few e -> exists e', publish_indicative at_ e = Done e' /\ unmoved e e'.
Proof.
  intros Hco Hfew. unfold publish_indicative. destruct (is_call (e_phase e)); [|exists e; by split; [|split]]. cbn [negb].
  destruct (auction_orders_ok e Hco Hfew) as (l & -> & Hok). cbn [obind].
  destruct (uncross_cases l (e_last e) Hok) as (r & -> & _). cbn [obind].
  case_bool_decide; [exists e; by split; [|split]|]. eexists. split; [done|]. split; try done.
  - unfold e_outputs, reports. simpl. rewrite omap_app. simpl. by rewrite app_nil_r.
  - by eexists.
Qed.

Lemma remember_unmoved outs e : unmoved e (remember_status outs e).
Proof.
  unfold remember_status. destruct (foldl _ _ outs) as [h t]. destruct (trim_history history_limit t h) as [h' t'].
  by split.
Qed.

Lemma unmoved_trans e1 e2 e3 : unmoved e1 e2 -> unmoved e2 e3 -> unmoved e1 e3.
Proof.
  intros [F1 S1 B1 K1 R1 X1 O1 [M1 H1]] [F2 S2 B2 K2 R2 X2 O2 [M2 H2]].
  split; [|congruence..|by eapply same_session_trans|by etrans|split; congruence]. intros id. by rewrite F2.
Qed.
End engines.
