(* ===== verification/EngineMatch.v ===== *)
(** * Matching on a coherent engine

    An order that is executed is loose: it has a report state and is nowhere yet,
    or not anymore. Executing the loose orders, running the cascade and reporting
    it all puts every unit back in its place: the engine is coherent again. *)

From S2P Require Import Prelude BTree Text Order OrderBook BookInvariant BookEffects Matcher Effects Pace MatchOrders Stops Executions Cascade.
From S2P Require Import Session SymbolConfig Auction AuctionPrice Proto Reports ExecutionReports Engine EngineInv.

(** ** Definitions *)

Definition of_id (id : string) (l : list Order) : list Order := filter (fun o => order_id o = id) l.

(** One order per id. *)
Lemma NoDup_by_filter (l : list Order) :
  (forall id, (length (filter (fun o => order_id o = id) l) <= 1)%nat) -> NoDup (order_id <$> l).
Proof.
  induction l as [|o l IH]; intros H; [constructor|]. rewrite fmap_cons. apply NoDup_cons. split.
  - intros Hin. apply list_elem_of_fmap in Hin as (x & Hx & Hin). specialize (H (order_id o)). rewrite filter_cons_True in H by done.
    simpl in H. assert (x ∈ filter (fun y => order_id y = order_id o) l) as Hf by (by apply list_elem_of_filter).
    destruct (filter _ l); [by apply not_elem_of_nil in Hf|simpl in H; lia].
  - apply IH. intros id. specialize (H id). rewrite filter_cons in H. case_decide; simpl in H; lia.
Qed.

Section loose.
Context {R I : Type} `{!ExecIds I}.
Implicit Types (e : Engine R I).

(** The orders of an id that matching can reach. *)
Definition active (loose : list Order) e (id : string) : list Order :=
  of_id id loose ++ option_list (order_lookup (e_book e) !! id) ++ of_id id (e_stops e).

(** The orders of an id that wait for an auction. *)
Definition aside e (id : string) : list Order := option_list (e_call_markets e !! id) ++ option_list (e_held_close e !! id).

Record coherent_with (loose : list Order) e : Prop := {
  cw_wf : wf_book (e_book e);
  cw_clean : book_stp (e_book e) = stp_outcome_default;
  cw_priced : priced (e_book e);
  cw_fills : fills_agree (fun _ => True) e;
  cw_states : forall id, match e_states e !! id with
    | Some st => exists o, active loose e id ++ aside e id = [o] /\ order_id o = id /\ tracks st o
    | None => active loose e id ++ aside e id = []
    end;
}.

(** Leaves that matching can reach. *)
Definition reachable_leaves (loose : list Order) e (id : string) : Z := qty (e_book e) id + waiting loose id + waiting (e_stops e) id.

(** An execution nothing has been recorded in. *)
Definition blank (exec : Execution) : Prop := ex_fills exec = [] /\ ex_stp exec = [] /\ ex_cancels exec = [].

(** The fields matching leaves alone. *)
Definition same_clock e e' : Prop :=
  e_symbol e' = e_symbol e /\ e_clock e' = e_clock e /\ e_schedule e' = e_schedule e /\ e_phase e' = e_phase e /\
  e_call_until e' = e_call_until e /\ e_last_seen e' = e_last_seen e.

(** The loose orders have been executed: the book is idle again, the stops that
    are left can still be executed, and all leaves are accounted for by fills,
    prevention and cancels. Every fill is a legal trade of loose, resting or
    stopped orders, and what rests has the terms of the order it was. *)
Definition settled (loose : list Order) e e' : Prop :=
  idle (e_book e') /\ stops_ok (e_book e') (e_stops e') /\ e_stops e' `sublist_of` e_stops e /\
  exists out fs es cs us rs sus out',
    executed (e_book e) (reachable_leaves loose e) out fs es cs us rs sus (e_book e') (reachable_leaves [] e') out' /\
    descends (loose ++ e_stops e) (e_book e) fs (e_book e').

(** No new states. *)
Definition shrinks e e' : Prop := forall id, e_states e !! id = None -> e_states e' !! id = None.

(** ** Loose orders *)

Lemma coherent_with_nil e : coherent e <-> coherent_with [] e /\ (e_phase e = Continuous -> uncrossed (e_book e)).
Proof.
  assert ((forall id, coherent_at e id) <-> forall id, match e_states e !! id with
    | Some st => exists o, active [] e id ++ aside e id = [o] /\ order_id o = id /\ tracks st o
    | None => active [] e id ++ aside e id = []
    end) as Heq.
  { split; intros Hs id; specialize (Hs id); unfold coherent_at, found, active, aside, of_id in *; simpl in *; by rewrite <- ?app_assoc in *. }
  split.
  - intros [[Hw Hc Hp Hu] Hs Ht]. split; [|done]. split; [done..|]. by apply Heq.
  - intros [[Hw Hc Hp Ht Hs] Hu]. split; [done|by apply Heq|done].
Qed.

Lemma waiting_of_id l id : waiting l id = sumZ quantity (of_id id l).
Proof.
  unfold waiting, of_id. induction l as [|o l IH]; [done|]. rewrite sumZ_cons, IH, filter_cons. unfold leaves_of.
  destruct (decide (order_id o = id)) as [E|E]; [by rewrite bool_decide_true, sumZ_cons|by rewrite bool_decide_false].
Qed.

Lemma qty_option b id : qty b id = sumZ quantity (option_list (order_lookup b !! id)).
Proof. unfold qty. destruct (order_lookup b !! id); simpl; lia. Qed.

Lemma reachable_active loose e id : reachable_leaves loose e id = sumZ quantity (active loose e id).
Proof. unfold reachable_leaves, active. rewrite !sumZ_app, !waiting_of_id, qty_option. lia. Qed.

Lemma elem_of_id id o l : o ∈ of_id id l <-> o ∈ l /\ order_id o = id.
Proof. unfold of_id. rewrite list_elem_of_filter. tauto. Qed.

Lemma of_id_sublist id l l' : l' `sublist_of` l -> of_id id l' `sublist_of` of_id id l.
Proof.
  unfold of_id. induction 1 as [|o l' l H IH|o l' l H IH]; [done| |]; rewrite !filter_cons; destruct (decide _); try done; by constructor.
Qed.

Lemma of_id_positive b l id : stops_ok b l -> Forall (fun o => 0 < quantity o) (of_id id l).
Proof.
  intros [H _]. apply Forall_forall. intros o Ho. apply elem_of_id in Ho as [Ho _]. rewrite Forall_forall in H. destruct (H o Ho) as [[? _] _]. simpl. lia.
Qed.

Lemma sum_positive_nil l : Forall (fun o => 0 < quantity o) l -> sumZ quantity l <= 0 -> l = [].
Proof.
  intros H Hs. destruct H as [|o l Ho H]; [done|]. rewrite sumZ_cons in Hs.
  assert (0 <= sumZ quantity l); [|lia]. apply sumZ_nonneg. eapply Forall_impl; [exact H|]. simpl. lia.
Qed.

Section one.
Context (loose : list Order) e (id : string) (Hco : coherent_with loose e).

(** An id is in one place at most. *)
Lemma active_cases :
  (active loose e id = [] /\ aside e id = [] /\ e_states e !! id = None) \/
  (exists o st, active loose e id = [o] /\ aside e id = [] /\ e_states e !! id = Some st /\ order_id o = id /\ tracks st o) \/
  (exists o st, active loose e id = [] /\ aside e id = [o] /\ e_states e !! id = Some st /\ order_id o = id /\ tracks st o).
Proof using Hco.
  pose proof (cw_states _ _ Hco id) as H. destruct (e_states e !! id) as [st|].
  - destruct H as (o & Ho & Hid & Ht). apply app_eq_unit in Ho as [[H1 H2]|[H1 H2]]; [right; right|right; left]; by exists o, st.
  - apply app_eq_nil in H as [H1 H2]. by left.
Qed.

Lemma active_short : (length (active loose e id) <= 1)%nat.
Proof using Hco. destruct active_cases as [[-> _]|[(o & st & -> & _)|(o & st & -> & _)]]; simpl; lia. Qed.

End one.

Lemma loose_stops_ok loose e : coherent_with loose e -> stops_ok (e_book e) (loose ++ e_stops e).
Proof.
  intros Hco. assert (forall id, (length (of_id id (loose ++ e_stops e)) <= 1)%nat) as Hone.
  { intros id. pose proof (active_short loose e id Hco) as H. unfold active in H. unfold of_id in *. rewrite filter_app. rewrite !length_app in *. lia. }
  split; [|by apply NoDup_by_filter].
  apply Forall_forall. intros o Ho. assert (o ∈ of_id (order_id o) (loose ++ e_stops e)) as Hf by (by apply elem_of_id).
  assert (o ∈ active loose e (order_id o)) as Ha.
  { unfold active. unfold of_id in *. rewrite filter_app in Hf. set_solver. }
  destruct (active_cases loose e (order_id o) Hco) as [[E _]|[(x & st & E & _ & _ & _ & Ht)|(x & st & E & _)]]; rewrite E in Ha; try by apply not_elem_of_nil in Ha.
  apply list_elem_of_singleton in Ha as <-. split; [apply Ht|]. destruct (order_lookup (e_book e) !! order_id o) eqn:Hb; [|done].
  exfalso. pose proof (active_short loose e (order_id o) Hco) as Hl. unfold active in Hl. rewrite Hb in Hl. unfold of_id in *.
  rewrite filter_app in Hf. rewrite !length_app in Hl. simpl in Hl. apply elem_of_app in Hf.
  destruct Hf as [Hf|Hf]; [destruct (filter _ loose)|destruct (filter _ (e_stops e))]; (by apply not_elem_of_nil in Hf) || (simpl in Hl; lia).
Qed.

(** ** Reporting an execution *)

Section report.
Context (loose : list Order) e (Hco : coherent_with loose e).
Context (b' : OrderBook) (parked : StopBook) (last : option Z) (exec0 exec : Execution) (sym : string) (ts : Timestamp).
Context (fs : list ExecutionReport) (es : list StpEvent) (cs : list string) (us rs sus : list MarketDataIncrementalUpdate).
Context (Hblank : blank exec0).
Context (Hx : executed (e_book e) (reachable_leaves loose e) exec0 fs es cs us rs sus b' (fun id => qty b' id + waiting parked id) exec).
Context (Hok : stops_ok b' parked) (Hsub : parked `sublist_of` e_stops e) (Hd : descends (loose ++ e_stops e) (e_book e) fs b').

Let e' := on_desk (report_execution exec sym ts) (set_market b' parked last e).

Lemma exec_paced : paced 0 (ex_fills exec) (ex_stp exec) (ex_cancels exec) (reachable_leaves loose e) (fun id => qty b' id + waiting parked id).
Proof using Hblank Hx.
  destruct Hblank as (B1 & B2 & B3). pose proof (x_paced _ _ _ _ _ _ _ _ _ _ _ _ Hx) as H. rewrite B1 in H.
  by rewrite (x_fills _ _ _ _ _ _ _ _ _ _ _ _ Hx), (x_stp _ _ _ _ _ _ _ _ _ _ _ _ Hx), (x_cancels _ _ _ _ _ _ _ _ _ _ _ _ Hx), B1, B2, B3.
Qed.

Lemma exec_banked id : 0 < qty b' id + waiting parked id -> banked b' id = banked (e_book e) id + filled_in id (ex_fills exec).
Proof using Hblank Hx.
  destruct Hblank as (B1 & _). rewrite (x_fills _ _ _ _ _ _ _ _ _ _ _ _ Hx), B1. apply (x_banked _ _ _ _ _ _ _ _ _ _ _ _ Hx).
Qed.

(** The book and the stops after it, at an id. *)
Lemma after_parts id :
  Forall (fun o => 0 < quantity o) (option_list (order_lookup b' !! id) ++ of_id id parked) /\
  qty b' id + waiting parked id = sumZ quantity (option_list (order_lookup b' !! id) ++ of_id id parked) /\
  (length (option_list (order_lookup b' !! id) ++ of_id id parked) <= 1)%nat.
Proof using Hx Hok Hco Hsub.
  pose proof (x_wf _ _ _ _ _ _ _ _ _ _ _ _ Hx) as Hwf. split_and!.
  - apply Forall_app. split; [|by eapply of_id_positive]. destruct (order_lookup b' !! id) as [o|] eqn:E; [|constructor].
    apply Forall_singleton. destruct (inv_lookup_elem _ _ _ _ Hwf E) as [Hin _]. destruct (inv_order_ok _ _ o Hwf Hin) as [? _]. simpl. lia.
  - by rewrite sumZ_app, waiting_of_id, qty_option.
  - rewrite length_app. pose proof (active_short loose e id Hco) as Hl. unfold active in Hl. rewrite !length_app in Hl.
    pose proof (sublist_length _ _ (of_id_sublist id _ _ Hsub)) as Hs. destruct (of_id id parked) as [|x l] eqn:E; [destruct (order_lookup b' !! id); simpl; lia|].
    assert (x ∈ of_id id parked) as Hx' by (rewrite E; left). apply elem_of_id in Hx' as [Hin <-]. destruct Hok as [H _].
    rewrite Forall_forall in H. destruct (H x Hin) as [_ ->]. simpl in *. lia.
Qed.

(** An order found after it descends from the active one. *)
Lemma after_descends id o :
  o ∈ option_list (order_lookup b' !! id) ++ of_id id parked ->
  exists x, x ∈ active loose e id /\ order_id o = id /\ trader_id o = trader_id x /\ side o = side x /\ order_ok o.
Proof using Hco Hblank Hx Hok Hd Hsub.
  pose proof (x_wf _ _ _ _ _ _ _ _ _ _ _ _ Hx) as Hwf. intros [Ho|Ho]%elem_of_app.
  - destruct (order_lookup b' !! id) as [o'|] eqn:E; [|by apply not_elem_of_nil in Ho]. apply list_elem_of_singleton in Ho as ->.
    destruct (inv_lookup_elem _ _ _ _ Hwf E) as [Hin Hid]. destruct (de_orders _ _ _ _ Hd id o' E) as (x & Hor & (_ & T & S & _)%same_terms_fields). exists x. split_and!; try done.
    + unfold active. destruct Hor as [->|[Hin' Hid']]; [set_solver|]. apply elem_of_app in Hin' as [?|?]; rewrite !elem_of_app, !elem_of_id; tauto.
    + by apply (inv_order_ok _ _ o' Hwf).
  - apply elem_of_id in Ho as [Hin Hid]. exists o. split_and!; try done.
    + unfold active. rewrite !elem_of_app, !elem_of_id. right; right. split; [|done]. eapply elem_of_submseteq; [exact Hin|by apply sublist_submseteq].
    + destruct Hok as [H _]. rewrite Forall_forall in H. by destruct (H o Hin).
Qed.

Lemma report_coherent_at id :
  match e_states e' !! id with
  | Some st => exists o, active [] e' id ++ aside e' id = [o] /\ order_id o = id /\ tracks st o
  | None => active [] e' id ++ aside e' id = []
  end /\ (e_states e !! id = None -> e_states e' !! id = None) /\
  (forall st, e_states e' !! id = Some st -> cum_qty st = banked b' id).
Proof using Hco Hblank Hx Hok Hsub Hd.
  destruct (after_parts id) as (Hpos & Hsum & Hlen). pose proof (after_descends id) as Hdesc.
  change (active [] e' id) with (option_list (order_lookup b' !! id) ++ of_id id parked). change (aside e' id) with (aside e id).
  set (l := option_list (order_lookup b' !! id) ++ of_id id parked) in *.
  assert (0 <= qty b' id + waiting parked id) as Hnn.
  { rewrite Hsum. apply sumZ_nonneg. eapply Forall_impl; [exact Hpos|]. simpl. lia. }
  pose proof (report_paced exec sym ts (e_desk e) _ _ id exec_paced Hnn) as Hrep. cbv zeta in Hrep.
  change (states (report_execution exec sym ts (e_desk e)) !! id) with (e_states e' !! id) in Hrep.
  change (states (e_desk e) !! id) with (e_states e !! id) in Hrep.
  destruct (active_cases loose e id Hco) as [(Ha & Has & Hn)|[(o & st & Ha & Has & Hst & Hid & Ht)|(o & st & Ha & Has & Hst & Hid & Ht)]].
  - rewrite Hn in Hrep |- *. rewrite Hrep, Has, app_nil_r. split; [|split; [done|by intros]]. destruct l as [|x l']; [done|]. exfalso.
    destruct (Hdesc x) as (y & Hy & _); [left|]. rewrite Ha in Hy. by apply not_elem_of_nil in Hy.
  - rewrite Hst in Hrep |- *. destruct Hrep as [_ Hrep]. rewrite Has, app_nil_r. pose proof (cw_fills _ _ Hco id st Hst Logic.I) as Hta.
    assert (reachable_leaves loose e id = quantity o) as Hb by (rewrite reachable_active, Ha; simpl; lia). rewrite Hb in Hrep.
    destruct Ht as [T1 T2 T3 T4 T5 [T6 T7]]. specialize (Hrep ltac:(lia) ltac:(by split)).
    destruct (Z.eqb_spec (qty b' id + waiting parked id) 0) as [Hz|Hz].
    + rewrite Hrep. split_and!; [apply sum_positive_nil; [done|lia]|done..].
    + destruct Hrep as (st' & -> & (S1 & S2 & _) & [L1 L2 L3] & Hcum). split_and!; [|done|]; cycle 1.
      { intros ? [= <-]. rewrite Hcum, exec_banked by lia. by rewrite Hta. }
      destruct l as [|x [|y l']]; simpl in Hlen; [|clear Hlen|lia].
      { rewrite Hsum in Hz. done. }
      destruct (Hdesc x) as (x0 & Hx0 & D1 & D2 & D3 & D4); [left|]. rewrite Ha in Hx0. apply list_elem_of_singleton in Hx0 as ->.
      exists x. split_and!; [done|done|]. rewrite sumZ_cons, sumZ_nil, Z.add_0_r in Hsum. rewrite Hsum in L1. split; try done; congruence.
  - rewrite Hst in Hrep |- *. destruct Hrep as [Hrep _]. rewrite reachable_active, Ha in Hrep. rewrite (Hrep eq_refl).
    assert (l = []) as Hl.
    { destruct l as [|x l']; [done|]. exfalso. destruct (Hdesc x) as (y & Hy & _); [left|]. rewrite Ha in Hy. by apply not_elem_of_nil in Hy. }
    rewrite Has, Hl. split_and!; [by exists o|done|]. intros ? [= <-]. rewrite (cw_fills _ _ Hco id st Hst Logic.I).
    unfold l in Hl. unfold active in Ha. apply app_eq_nil in Hl as [Hl _], Ha as [_ Ha]. apply app_eq_nil in Ha as [Ha _].
    rewrite !(banked_absent [] _ id); [done|apply (x_wf _ _ _ _ _ _ _ _ _ _ _ _ Hx)|by destruct (order_lookup b' !! id)|apply Hco|by destruct (order_lookup (e_book e) !! id)].
Qed.

Lemma report_coherent : coherent e' /\ shrinks e e'.
Proof using Hco Hblank Hx Hok Hsub Hd.
  split; [|intros id; apply report_coherent_at]. apply coherent_with_nil.
  split; [|intros _; by apply (x_uncrossed _ _ _ _ _ _ _ _ _ _ _ _ Hx)].
  split; [by apply (x_wf _ _ _ _ _ _ _ _ _ _ _ _ Hx)|by apply (x_clean _ _ _ _ _ _ _ _ _ _ _ _ Hx)|apply (de_priced _ _ _ _ Hd), Hco|intros id st Hs _; by apply report_coherent_at|intros id; apply report_coherent_at].
Qed.

End report.

(** ** Executions that run the cascade *)

Lemma same_clock_trans e1 e2 e3 : same_clock e1 e2 -> same_clock e2 e3 -> same_clock e1 e3.
Proof. intros (? & ? & ? & ? & ? & ?) (? & ? & ? & ? & ? & ?). unfold same_clock. split_and!; congruence. Qed.

Lemma shrinks_size e e' : shrinks e e' -> (size (e_states e') <= size (e_states e))%nat.
Proof.
  intros H. rewrite <- !size_dom. apply subseteq_size. intros id Hid. apply elem_of_dom in Hid as [st Hst]. apply elem_of_dom.
  destruct (e_states e !! id) eqn:E; [by eexists|]. by rewrite (H id E) in Hst.
Qed.

Lemma shrinks_trans e1 e2 e3 : shrinks e1 e2 -> shrinks e2 e3 -> shrinks e1 e3.
Proof. intros H1 H2 id Hid. auto. Qed.

Lemma coherent_with_ext loose e e' :
  e_book e' = e_book e -> e_stops e' = e_stops e -> e_call_markets e' = e_call_markets e -> e_held_close e' = e_held_close e ->
  e_states e' = e_states e -> coherent_with loose e -> coherent_with loose e'.
Proof.
  intros H1 H2 H3 H4 H5 [Hw Hc Hp Ht Hs]. split; [by rewrite H1..|by apply (fills_agree_same _ e)|]. intros id. specialize (Hs id). unfold active, aside in *. by rewrite H1, H2, H3, H4, H5.
Qed.

(** The parked stops can still be executed after the loose orders. *)
Lemma descended_stops_ok loose e fs b : coherent_with loose e -> descends loose (e_book e) fs b -> stops_ok b (e_stops e).
Proof.
  intros Hco Hd. destruct (loose_stops_ok _ _ Hco) as [H1 H2]. rewrite fmap_app in H2. apply NoDup_app in H2 as (_ & Hdis & H2).
  apply Forall_app in H1 as [_ H1]. split; [|done]. rewrite Forall_forall in H1 |- *. intros o Ho. destruct (H1 o Ho) as [Hok Hfr].
  split; [done|]. eapply descends_fresh; [exact Hd|done|]. intros Hin. apply (Hdis _ Hin). by apply list_elem_of_fmap_2.
Qed.

(** Matching reaches an id in one place at most. *)
Lemma reachable_apart loose e id : coherent_with loose e -> 0 < qty (e_book e) id + waiting loose id -> waiting (e_stops e) id = 0.
Proof.
  intros Hco Hp. pose proof (active_short loose e id Hco) as Hl. unfold active in Hl. rewrite !length_app in Hl.
  rewrite !waiting_of_id, qty_option in *. destruct (of_id id (e_stops e)); [done|]. simpl in Hl.
  destruct (of_id id loose); simpl in *; [|lia]. destruct (order_lookup (e_book e) !! id); simpl in *; lia.
Qed.

Lemma loose_nonneg loose e id : coherent_with loose e -> 0 <= waiting loose id.
Proof.
  intros Hco. destruct (loose_stops_ok _ _ Hco) as [H1 H2]. apply Forall_app in H1 as [H1 _]. rewrite fmap_app in H2. apply NoDup_app in H2 as [H2 _].
  by apply (waiting_nonneg (e_book e)).
Qed.

Lemma cascade_coherent loose e b exec0 exec fs es cs us rs sus ts :
  coherent_with loose e -> blank exec0 ->
  executed (e_book e) (fun id => qty (e_book e) id + waiting loose id) exec0 fs es cs us rs sus b (qty b) exec ->
  descends loose (e_book e) fs b ->
  exists e', cascade_and_report b exec ts e = Done e' /\ coherent e' /\ shrinks e e' /\ same_clock e e' /\ settled loose e e'.
Proof.
  intros Hco Hbl Hx Hd. pose proof (descended_stops_ok _ _ _ _ Hco Hd) as Hok. unfold cascade_and_report.
  destruct (run_stop_cascade_spec b (e_stops e) (e_last e) exec (executed_idle _ _ _ _ _ _ _ _ _ _ _ _ Hx) Hok)
    as (fs2 & es2 & cs2 & us2 & rs2 & sus2 & b' & parked' & last' & out' & -> & Hi & Hok' & Hsub & Hx2 & Hd2).
  cbn [obind]. eexists. split; [done|].
  assert (executed (e_book e) (reachable_leaves loose e) exec0 (fs ++ fs2) (es ++ es2) (cs ++ cs2) (us ++ us2) (rs ++ rs2) (sus ++ sus2)
    b' (fun id => qty b' id + waiting parked' id) out') as Hx'.
  { eapply executed_trans; [|exact Hx2]. apply executed_frame; [|by intros; apply (reachable_apart loose)|apply Hco| |done|exact Hx].
    - intros id. apply (waiting_nonneg b), Hok.
    - intros id. pose proof (loose_nonneg loose e id Hco). lia. }
  destruct (report_coherent loose e Hco b' parked' last' exec0 out' (e_symbol e) ts _ _ _ _ _ _ Hbl Hx' Hok' Hsub) as [Hc Hs].
  { by eapply descends_trans. }
  split_and!; [exact Hc|exact Hs|done|]. split_and!; [done..|]. eexists exec0, _, _, _, _, _, _, out'.
  split; [|by eapply descends_trans]. eapply executed_ext; [done| |exact Hx']. intros id. unfold reachable_leaves. change (waiting [] id) with 0. by rewrite Z.add_0_r.
Qed.

(** Executing one loose order, then the cascade. *)
Lemma execute_one_coherent o e exec0 :
  coherent_with [o] e -> blank exec0 -> uncrossed (e_book e) ->
  exists rests exec b, execute_into o (e_book e) exec0 = Done (rests, exec, b) /\
    forall ts e1, coherent_with [o] e1 -> e_book e1 = e_book e ->
    exists e', cascade_and_report b exec ts e1 = Done e' /\ coherent e' /\ shrinks e1 e' /\ same_clock e1 e' /\ settled [o] e1 e'.
Proof.
  intros Hco Hbl Hu. pose proof Hco as [Hw Hc _ _ _]. destruct (loose_stops_ok _ _ Hco) as [H1 _].
  apply Forall_app in H1 as [H1 _]. rewrite Forall_singleton in H1.
  destruct (execute_into_spec o (e_book e) exec0) as (fs & es & cs & us & rs & sus & rests & b & exec & Hrun & Hx & Hd); [by split; auto|done|].
  exists rests, exec, b. split; [done|]. intros ts e1 Hco1 Hb1. eapply cascade_coherent; [done|exact Hbl| |by rewrite Hb1].
  rewrite Hb1. eapply executed_ext; [|done|exact Hx]. intros id. unfold waiting. simpl. lia.
Qed.

(** A fresh order becomes loose when its state is recorded. *)
Lemma loose_insert o st e :
  coherent e -> e_states e !! order_id o = None -> tracks st o -> cum_qty st = 0 -> coherent_with [o] (insert_state (order_id o) st e).
Proof.
  intros Hco Hn Ht Hz. destruct (coherent_absent _ _ Hco Hn) as (_ & Hb & _). apply coherent_with_nil in Hco as [[Hw Hc Hpr Hta Hs] _].
  split; [done..| |].
  { intros id s. unfold e_states. simpl. rewrite lookup_insert. case_decide as E; [|apply Hta]. intros [= <-] _. subst id.
    by rewrite (banked_absent [] _ _ Hw Hb). }
  intros id. specialize (Hs id). unfold e_states in *. simpl. unfold active, aside, of_id in *. simpl. rewrite filter_cons. destruct (decide (order_id o = id)) as [<-|Hid].
  - rewrite lookup_insert_eq. rewrite Hn in Hs. exists o. simpl. split; [|done]. simpl in Hs. by rewrite Hs.
  - by rewrite lookup_insert_ne.
Qed.

Lemma match_order_coherent o st e :
  coherent e -> e_states e !! order_id o = None -> e_phase e = Continuous -> tracks st o -> cum_qty st = 0 ->
  exists e', match_order o st e = Done e' /\ coherent e' /\ shrinks (insert_state (order_id o) st e) e' /\ same_clock e e' /\ settled [o] e e'.
Proof.
  intros Hco Hn Hp Ht Hz. pose proof (loose_insert o st e Hco Hn Ht Hz) as Hl. unfold match_order.
  set (e1 := on_desk (emit _ _ _ _ _ _) (insert_state _ _ e)). set (exec0 := add_point _ _ _ _).
  assert (coherent_with [o] e1) as Hl1 by (by eapply coherent_with_ext; [..|exact Hl]).
  destruct (execute_one_coherent o e1 exec0 Hl1) as (rests & exec & b & Hrun & Hrep); [done|by apply (bo_uncrossed _ (co_book _ Hco))|]. rewrite Hrun. cbn [obind].
  set (e2 := match rests, e_states e1 !! order_id o with true, Some _ => _ | _, _ => _ end).
  assert (e_book e2 = e_book e1 /\ e_stops e2 = e_stops e1 /\ e_call_markets e2 = e_call_markets e1 /\ e_held_close e2 = e_held_close e1 /\
    e_states e2 = e_states e1 /\ e_phase e2 = e_phase e1 /\ same_clock e1 e2) as (F1 & F2 & F3 & F4 & F5 & F6 & F7).
  { unfold e2. destruct rests; [|done]. destruct (e_states e1 !! order_id o) as [s|]; [|done]. split_and!; try done.
    unfold e_states, on_desk. simpl. by rewrite send_report_states. }
  destruct (Hrep (timestamp_of (e_clock e)) e2) as (e' & Hc & Hco' & Hsh & Hcl & Hset); [by eapply coherent_with_ext; [..|exact Hl1]|done|].
  exists e'. split; [exact Hc|]. split; [done|]. split; [|split].
  - intros id Hid. apply Hsh. by rewrite F5.
  - eapply same_clock_trans; [|exact Hcl]. exact F7.
  - destruct Hset as (S1 & S2 & S3 & S4). unfold settled, reachable_leaves in *. by rewrite F1, F2 in *.
Qed.
End loose.
