(* ===== verification/EngineSamples.v ===== *)
(** * Sample engines

    Small coherent engines the witnesses of the engine theorems run on: one in
    an opening call with orders in the book, waiting for the auction and held
    for the close, and one in continuous trading with parked stops. *)

From S2P Require Import Prelude BTree Text Order OrderBook BookInvariant Samples Matcher MatchOrders Stops Executions Cascade.
From S2P Require Import Session SymbolConfig Auction AuctionPrice Proto Reports Engine EngineInv.

Local Open Scope string_scope.

(** ** Definitions *)

(** Connections and execution ids are numbers. *)
Definition sample_engine : Type := Engine Z Z.

Definition sample_state (o : Order) (tx arr : Z) : OrderState Z := replacement_state o arr 0 0 (client_order_id o) tx.

Definition hold (o : Order) (tx arr : Z) (e : sample_engine) : sample_engine := hold_order o (sample_state o tx arr) e.

Definition park_stop (o : Order) (tx arr : Z) (e : sample_engine) : sample_engine :=
  let e1 := acknowledge o (sample_state o tx arr) e in set_market (e_book e1) (park o (e_stops e1)) (e_last e1) e1.

Definition with_type (t : OrderType) (o : Order) : Order := with_order_type t o.

(** An opening call at 00:01:40 with an offer, a bid, a market order that waits
    and an order for the close. *)
Definition call_schedule : SessionSchedule := mkSessionSchedule (Some 0) (Some 3600) (Some 7200) 10800.
Definition market_wait : Order := with_type Market (sample "m1" "alice" Buy 0 6 0).
Definition bid_close : Order := with_tif AtClose (sample "c1" "dave" Buy 98 1 0).
Definition call_engine : sample_engine :=
  hold bid_close 14 4 (hold market_wait 11 3 (hold bid_low 14 2 (hold ask_plain 12 1
    (engine_new "FXP" (mkTime 100 0) 1 (Some call_schedule) StpNone default_rules)))).

(** Continuous trading that closes at 03:00:00, seen last at 00:01:40, now at
    05:00:00: a day order, one until a date far off and one until cancelled. *)
Definition with_date (t : TimeInForce) (d : string) (o : Order) : Order :=
  mkOrder (order_id o) (trader_id o) (symbol o) (price o) (quantity o) (display_quantity o) (side o) (order_type o) t
    (timestamp o) (stop_price o) d (account o) (client_order_id o) (order_stp o).
Definition stop_engine : sample_engine :=
  let e := park_stop (with_date Day "" stop_near) 16 3 (park_stop (with_date Gtd "2030-01-01" stop_next) 17 2 (park_stop stop_low 16 1
    (engine_new "FXP" (mkTime 100 0) 1 (Some (mkSessionSchedule None None None 10800)) StpNone default_rules))) in
  set_timers (mkTime 18000 0) None (mkTime 100 0) (e_next_arrival e) e.

(** The same offer and bid in continuous trading. *)
Definition open_engine : sample_engine :=
  set_phase_field Continuous None (hold bid_low 14 2 (hold ask_plain 12 1
    (engine_new "FXP" (mkTime 100 0) 1 (Some call_schedule) StpNone default_rules))).

(** A buy at 103, immediate or cancel. *)
Definition buy_request : NewOrderSingle :=
  mkNewOrder "b9" "erin" "FXP" 103 1 5 2 3 0 "" "acct" "cl9" 0 "" 0.

Close Scope string_scope.

(** ** Coherence *)

Lemma coherent_new {R I} `{!ExecIds I} sym now (i : I) sched stp rules : coherent (engine_new (R := R) sym now i sched stp rules).
Proof.
  split.
  - split; [apply wf_empty|done|by intros id o; simpl; rewrite lookup_empty|]. intros _ bp ap. done.
  - intros id. unfold coherent_at, found. simpl. by rewrite !lookup_empty.
  - intros id st. unfold e_states. simpl. by rewrite lookup_empty.
Qed.

Lemma sample_tracks o tx arr : order_ok o -> tracks (sample_state o tx arr) o.
Proof.
  intros Hok. destruct Hok as [Hq Hd]. assert (add32 0 (quantity o) = quantity o) as E by (rewrite add32_small; unfold is_u32; lia).
  split; simpl; rewrite ?E; try done; lia.
Qed.

Ltac sample_ok := vm_compute; intuition congruence.

Lemma call_engine_ok : coherent call_engine.
Proof.
  unfold call_engine, hold.
  apply hold_order_ok; [|reflexivity|apply sample_tracks; sample_ok|reflexivity|discriminate].
  apply hold_order_ok; [|reflexivity|apply sample_tracks; sample_ok|reflexivity|discriminate].
  apply hold_order_ok; [|reflexivity|apply sample_tracks; sample_ok|reflexivity|discriminate].
  apply hold_order_ok; [|reflexivity|apply sample_tracks; sample_ok|reflexivity|discriminate].
  apply coherent_new.
Qed.

Lemma stop_engine_ok : coherent stop_engine.
Proof.
  unfold stop_engine. set (e := park_stop _ _ _ _). apply (coherent_ext e); [|done..]. unfold e, park_stop.
  apply park_order_ok; [|reflexivity|apply sample_tracks; sample_ok|reflexivity].
  apply park_order_ok; [|reflexivity|apply sample_tracks; sample_ok|reflexivity].
  apply park_order_ok; [|reflexivity|apply sample_tracks; sample_ok|reflexivity].
  apply coherent_new.
Qed.

Lemma coherent_phase {R I} `{!ExecIds I} p ind (e : Engine R I) :
  coherent e -> (p = Continuous -> uncrossed (e_book e)) -> coherent (set_phase_field p ind e).
Proof. intros [[Hw Hc Hpr _] Hs Ht] Hu. split; [by split| |exact Ht]. intros id. exact (Hs id). Qed.

Lemma open_engine_ok : coherent open_engine.
Proof.
  apply coherent_phase.
  - apply hold_order_ok; [|reflexivity|apply sample_tracks; sample_ok|reflexivity|discriminate].
    apply hold_order_ok; [|reflexivity|apply sample_tracks; sample_ok|reflexivity|discriminate]. apply coherent_new.
  - intros _ bp ap Hb Ha. vm_compute in Hb, Ha. injection Hb as <-. injection Ha as <-. reflexivity.
Qed.

(** When no time has passed a tick only clears the outputs. *)
Lemma tick_still {R I} `{!ExecIds I} (e : Engine R I) :
  time_ltb (e_last_seen e) (e_clock e) = false -> tick e = Done (remember_status [] (fresh e)).
Proof.
  intros H. unfold tick, advance. cbn [advance_loop]. change (e_last_seen (fresh e)) with (e_last_seen e).
  change (e_clock (fresh e)) with (e_clock e). rewrite H. cbn [negb obind]. change (e_last_seen (fresh e)) with (e_last_seen e).
  change (e_clock (fresh e)) with (e_clock e). rewrite H. done.
Qed.

Lemma coherent_still {R I} `{!ExecIds I} (e : Engine R I) : coherent e -> coherent (remember_status [] (fresh e)).
Proof. intros Hco. eapply coherent_unmoved; [|apply remember_unmoved]. by apply (coherent_ext e). Qed.
