(* ===== verification/Corners.v ===== *)
(** * Corner cases of the engine

    Requests on which the engine does something its comments or the types of its
    messages do not suggest. *)

From S2P Require Import Prelude BTree Text Order OrderBook Samples Matcher Stops Session SymbolConfig Auction Proto Reports Engine.

Local Open Scope string_scope.

(** ** Definitions *)

Definition corner_start : Engine Z Z := engine_new "FXP" (mkTime 100 0) 1 None StpNone default_rules.

(** An offer at 100, good till cancelled. *)
Definition offer (id : string) (qty display : Z) : NewOrderSingle := mkNewOrder id "alice" "FXP" 100 2 qty 2 2 0 "" "" id 0 "" display.

Definition two_offers : OrderBook := book_of [sample "s1" "alice" Sell 100 i32_max 0; sample "s2" "bob" Sell 100 i32_max 0].

Definition iceberg_call : outcome (TradingPhase * list Z) :=
  let* e := new_order (offer "s1" 10 2) 1 corner_start in
  let* e := begin_opening_call 60 e in
  Done (e_phase e, (fun o => display_quantity o.2) <$> map_to_list (order_lookup (e_book e))).

(** A bid for 10 that fills 5, is moved to the close and enters its call; then its
    owner asks for a total of 8. *)
Definition at_second (s : Z) (e : Engine Z Z) : Engine Z Z := set_timers (mkTime s 0) (e_call_until e) (e_last_seen e) (e_next_arrival e) e.

Definition moved_to_close : outcome (Z * Z * list Z) :=
  let start := engine_new "FXP" (mkTime 4000 0) 1 (Some (mkSessionSchedule (Some 0) (Some 3600) (Some 7200) 10800)) StpNone default_rules in
  let* e := new_order (offer "s1" 5 0) 1 start in
  let* e := new_order (mkNewOrder "b1" "bob" "FXP" 100 1 10 2 2 0 "" "" "b1" 0 "" 0) 2 e in
  let* e := cancel_replace (mkCancelReplaceMsg "b1" "bob" "b2" "r1" 0 0 6 0 None 2) e in
  let* e := cancel_replace (mkCancelReplaceMsg "b2" "bob" "b3" "r2" 0 8 0 0 None 2) (at_second 8000 e) in
  let* st := expect (e_states e !! "b3") in
  Done (order_qty st, cum_qty st, (fun o => quantity o.2) <$> map_to_list (order_lookup (e_book e))).

Local Close Scope string_scope.

(** ** Theorems *)

(** The size of a level in a snapshot is a sum of [u32] quantities cast to [i32]:
    two offers of the largest quantity at one price are shown as -2. *)
Theorem snapshot_size_wraps : ask_levels (snapshot two_offers (mkTime 100 0)) = [mkBookEntry 100 (-2) 2].
Proof. vm_compute. reflexivity. Qed.

(** Icebergs are refused while auctions are scheduled, but one that already rests
    takes part in the call an operator starts. *)
Theorem iceberg_joins_call : iceberg_call = Done (OpeningCall, [2]).
Proof. vm_compute. reflexivity. Qed.

(** The fills of an order moved to the close are forgotten by the book it enters
    again: the request for a total of 8, of which 5 are filled, leaves 8 live and
    reports a total of 13. *)
Theorem moved_to_close_loses_fills : moved_to_close = Done (13, 5, [8]).
Proof. vm_compute. reflexivity. Qed.
