(* ===== verification/Canonical.v ===== *)
(** * The canonical bytes of events and of the engine

    [canonical_event] and [StateWriter] of reproducibility.rs, and
    [Engine::canonical_state] of engine/canonical.rs. A writer is the bytes it
    appends. [business] is what the canonical state is meant to tell apart: the
    engine without connections, message headers, execution ids, clock and
    diagnostics. *)

From S2P Require Import Prelude BTree Text Bytes Order OrderBook Stops Session SymbolConfig Auction Proto Reports EventLog Engine.
From S2P Require Import WireSamples Samples EngineInv EngineSamples.

(** ** Definitions *)

(** *** Events *)

Definition CANONICAL_VERSION : string := "fxp-business-v1".
Definition STATE_VERSION : string := "fxp-state-v1".

(** [m.header = None]. *)
Definition no_header : FXPHeader := mkHeader "" 0.

Definition report_bare (r : Report) : Report :=
  mkReport no_header (execution_id r) (rep_order_id r) (rep_symbol r) (execution_type r) (order_status r)
    (execution_price r) (executed_quantity r) (rep_timestamp r) (leaves_quantity r) (avg_px r) (cum_quantity r)
    (rep_account r) (rep_client_order_id r) (orig_order_id r) (reject_reason_text r) (rep_side r) (order_quantity r)
    (auction r) (rep_display_quantity r).

Definition trade_bare (t : TradeCapture) : TradeCapture :=
  mkTrade no_header (trade_id t) (tr_buy_order_id t) (tr_sell_order_id t) (tr_symbol t) (tr_price t) (tr_quantity t)
    (tr_timestamp t) (tr_aggressor_side t) (tr_seq t) (is_auction t).

(** *** [StateWriter] *)

Definition w_u64 (n : Z) : list Z := be_bytes 8 n.
Definition w_i64 (n : Z) : list Z := be_bytes 8 n.
Definition w_i128 (n : Z) : list Z := be_bytes 16 n.
Definition w_bytes (b : list Z) : list Z := w_u64 (Z.of_nat (length b)) ++ b.
Definition w_text (s : string) : list Z := w_bytes (bytes_of s).

(** A section: how many, then each. *)
Definition w_list {A : Type} (f : A -> list Z) (l : list A) : list Z := w_u64 (Z.of_nat (length l)) ++ (l ≫= f).

(** A flag, then the value. *)
Definition w_option {A : Type} (f : A -> list Z) (o : option A) : list Z :=
  match o with Some a => w_u64 1 ++ f a | None => w_u64 0 end.

(** [collect::<BTreeMap<_, _>>] of a hash map. *)
Definition bt_of_map {V : Type} (m : gmap string V) : list (string * V) :=
  foldr (fun e acc => bt_insert e.1 e.2 acc) [] (map_to_list m).

Definition w_map {V : Type} (f : V -> list Z) (m : gmap string V) : list Z :=
  w_list (fun e => w_text e.1 ++ f e.2) (bt_of_map m).

Section events.
Context {R : Type} `{!Wire Report, !Wire TradeCapture, !Wire SessionStatus, !Wire AuctionInfo}.

Definition event_frame (tag : Z) (payload : list Z) : list Z :=
  [tag] ++ be_bytes 8 (Z.of_nat (length payload)) ++ payload.

(** [canonical_event]. *)
Definition canonical_event (o : Output R) : option (list Z) :=
  match o with
  | OExecutionReport _ m => Some (event_frame 1 (encode_to_vec (report_bare m)))
  | OTrade m => Some (event_frame 2 (encode_to_vec (trade_bare m)))
  | OTradingSessionStatus m => Some (event_frame 3 (encode_to_vec m))
  | OAuctionInfo m => Some (event_frame 4 (encode_to_vec m))
  | _ => None
  end.
End events.

(** *** [Engine::canonical_state] *)

Definition tif_code (t : TimeInForce) : Z :=
  match t with Day => 1 | GTC => 2 | IOC => 3 | FOK => 4 | AtOpen => 5 | AtClose => 6 | Gtd => 7 end.

Definition w_time (t : Time) : list Z := w_i64 (seconds t) ++ w_i64 (nanos t).

Definition side_number (s : OrderSide) : Z := match s with Buy => 1 | Sell => 2 end.

Definition type_number (t : OrderType) : Z := match t with Market => 1 | Limit => 2 | Stop => 3 | StopLimit => 4 end.

Definition w_order (o : Order) : list Z :=
  w_text (order_id o) ++ w_text (trader_id o) ++ w_text (symbol o) ++ w_i64 (price o) ++ w_u64 (quantity o) ++
  w_u64 (display_quantity o) ++ w_u64 (side_number (side o)) ++ w_u64 (type_number (order_type o)) ++
  w_u64 (tif_code (time_in_force o)) ++ w_u64 (timestamp o) ++ w_i64 (stop_price o) ++ w_text (expire_date o) ++
  w_text (account o) ++ w_text (client_order_id o) ++ w_text (stp_mode_as_str (mode (order_stp o))) ++ w_text (group (order_stp o)).

Definition w_orders (m : gmap string Order) : list Z := w_map w_order m.

Definition w_levels (l : levels) : list Z := w_list (fun level => w_i64 level.1 ++ w_list w_order level.2) l.

Definition w_state {R : Type} (s : OrderState R) : list Z :=
  w_text (sender s) ++ w_u64 (tif_code (st_time_in_force s)) ++ w_text (st_expire_date s) ++ w_u64 (st_arrival s) ++
  w_i64 (st_side s) ++ w_u64 (order_qty s) ++ w_u64 (st_display_quantity s) ++ w_u64 (cum_qty s) ++ w_i128 (notional s) ++
  w_text (st_account s) ++ w_text (st_client_order_id s).

Definition w_auction (a : AuctionResult) : list Z := w_i64 (r_price a) ++ w_u64 (r_volume a) ++ w_i128 (r_imbalance a).

Definition w_rules (r : SymbolRules) : list Z :=
  w_u64 (price_scale r) ++ w_i64 (tick_size r) ++ w_u64 (lot_size r) ++ w_u64 (min_quantity r) ++ w_u64 (max_quantity r).

Definition schedule_text (s : option SessionSchedule) : string := match s with Some s => show_schedule s | None => ""%string end.

Section canonical.
Context {R I : Type} `{!Wire Report, !Wire TradeCapture, !Wire SessionStatus, !Wire AuctionInfo}.

(** The [unwrap] of a report's event. *)
Definition w_history (entry : string * Report) : list Z :=
  w_text entry.1 ++ w_bytes (default [] (canonical_event (OExecutionReport () entry.2))).

Definition canonical_state (e : Engine R I) : list Z :=
  w_text STATE_VERSION ++ w_text (e_symbol e) ++ w_levels (buy_orders (e_book e)) ++ w_levels (sell_orders (e_book e)) ++
  w_orders (order_lookup (e_book e)) ++ w_map w_u64 (cum_filled (e_book e)) ++ w_map w_u64 (displayed (e_book e)) ++
  w_map w_u64 (arrival (e_book e)) ++ w_u64 (next_arrival (e_book e)) ++ w_option w_text (last_added (e_book e)) ++
  w_list w_order (e_stops e) ++ w_orders (e_call_markets e) ++ w_orders (e_held_close e) ++ w_map w_state (e_states e) ++
  w_u64 (phase_code (e_phase e)) ++ w_option w_i64 (e_last e) ++ w_u64 (trade_seq (e_desk e)) ++ w_u64 (e_next_arrival e) ++
  w_time (e_last_seen e) ++ w_option w_time (e_call_until e) ++ w_option w_auction (e_last_indicative e) ++
  w_text (schedule_text (e_schedule e)) ++ w_text (stp_mode_as_str (e_stp_default e)) ++ w_rules (e_rules e) ++
  w_u64 0 ++ w_map w_history (e_status_history e) ++ w_list (fun t => w_text t.1 ++ w_text t.2) (e_terminal_history e).

End canonical.

(** *** What the canonical state stands for *)

(** An order's report state without the connection that owns it. *)
Definition unowned {R : Type} (s : OrderState R) : OrderState unit :=
  mkOrderState (sender s) (st_time_in_force s) (st_expire_date s) (st_arrival s) (st_side s) (order_qty s)
    (st_display_quantity s) (cum_qty s) (notional s) (st_account s) (st_client_order_id s) tt.

Definition bare_book (b : OrderBook) : OrderBook :=
  mkOrderBook "" broadcaster_new (buy_orders b) (sell_orders b) (order_lookup b) (cum_filled b) (arrival b) (next_arrival b)
    (displayed b) (last_added b) None stp_outcome_default.

Definition bare_entry (x : string * Report) : string * Report := (x.1, report_bare x.2).

Definition business {R I : Type} (e : Engine R I) : Engine unit unit :=
  mkEngine (e_symbol e) (bare_book (e_book e)) (e_stops e) (e_last e)
    (mkDesk tt (unowned <$> e_states e) (trade_seq (e_desk e)) None []) (mkTime 0 0) (e_schedule e) (e_call_until e)
    (e_last_seen e) (e_next_arrival e) (e_phase e) (e_call_markets e) (e_held_close e) (e_last_indicative e)
    (e_stp_default e) (e_rules e) (bare_entry <$> e_status_history e) (e_terminal_history e).

(** Machine ranges: what the types of the fields guarantee. *)
Definition is_u64 (z : Z) : Prop := 0 <= z < u64_modulus.
Definition is_i64 (z : Z) : Prop := -9223372036854775808 <= z < 9223372036854775808.
Definition is_i128 (z : Z) : Prop := - 2 ^ 127 <= z < 2 ^ 127.
Definition text_fits (s : string) : Prop := is_u64 (Z.of_nat (length (bytes_of s))).
Definition list_fits {A : Type} (ok : A -> Prop) (l : list A) : Prop := is_u64 (Z.of_nat (length l)) /\ Forall ok l.
Definition option_fits {A : Type} (ok : A -> Prop) (o : option A) : Prop := match o with Some a => ok a | None => True end.
Definition map_fits {V : Type} (ok : V -> Prop) (m : gmap string V) : Prop :=
  is_u64 (Z.of_nat (size m)) /\ map_Forall (fun k v => text_fits k /\ ok v) m.
Definition time_fits (t : Time) : Prop := is_i64 (seconds t) /\ is_i64 (nanos t).

Definition order_fits (o : Order) : Prop :=
  text_fits (order_id o) /\ text_fits (trader_id o) /\ text_fits (symbol o) /\ is_i64 (price o) /\ is_u64 (quantity o) /\
  is_u64 (display_quantity o) /\ is_u64 (timestamp o) /\ is_i64 (stop_price o) /\ text_fits (expire_date o) /\
  text_fits (account o) /\ text_fits (client_order_id o) /\ text_fits (group (order_stp o)).

Definition level_fits (level : Z * list Order) : Prop := is_i64 level.1 /\ list_fits order_fits level.2.

Definition state_fits {R : Type} (s : OrderState R) : Prop :=
  text_fits (sender s) /\ text_fits (st_expire_date s) /\ is_u64 (st_arrival s) /\ is_i64 (st_side s) /\ is_u64 (order_qty s) /\
  is_u64 (st_display_quantity s) /\ is_u64 (cum_qty s) /\ is_i128 (notional s) /\ text_fits (st_account s) /\
  text_fits (st_client_order_id s).

Definition auction_fits (a : AuctionResult) : Prop := is_i64 (r_price a) /\ is_u64 (r_volume a) /\ is_i128 (r_imbalance a).

Definition rules_fit (r : SymbolRules) : Prop :=
  is_u64 (price_scale r) /\ is_i64 (tick_size r) /\ is_u64 (lot_size r) /\ is_u64 (min_quantity r) /\ is_u64 (max_quantity r).

Section fits.
Context `{!Wire Report, !Wire TradeCapture, !Wire SessionStatus, !Wire AuctionInfo}.

Definition history_fits (x : string * Report) : Prop :=
  text_fits x.1 /\ is_u64 (Z.of_nat (length (event_frame 1 (encode_to_vec (report_bare x.2))))).

Record engine_fits {R I : Type} (e : Engine R I) : Prop := {
  ft_symbol : text_fits (e_symbol e);
  ft_buys : list_fits level_fits (buy_orders (e_book e));
  ft_sells : list_fits level_fits (sell_orders (e_book e));
  ft_lookup : map_fits order_fits (order_lookup (e_book e));
  ft_cum_filled : map_fits is_u64 (cum_filled (e_book e));
  ft_displayed : map_fits is_u64 (displayed (e_book e));
  ft_arrival : map_fits is_u64 (arrival (e_book e));
  ft_book_next : is_u64 (next_arrival (e_book e));
  ft_last_added : option_fits text_fits (last_added (e_book e));
  ft_stops : list_fits order_fits (e_stops e);
  ft_markets : map_fits order_fits (e_call_markets e);
  ft_held : map_fits order_fits (e_held_close e);
  ft_states : map_fits state_fits (e_states e);
  ft_last : option_fits is_i64 (e_last e);
  ft_trade_seq : is_u64 (trade_seq (e_desk e));
  ft_next : is_u64 (e_next_arrival e);
  ft_seen : time_fits (e_last_seen e);
  ft_until : option_fits time_fits (e_call_until e);
  ft_indicative : option_fits auction_fits (e_last_indicative e);
  ft_schedule : option_fits valid_schedule (e_schedule e) /\ text_fits (schedule_text (e_schedule e));
  ft_rules : rules_fit (e_rules e);
  ft_history : map_fits history_fits (e_status_history e);
  ft_terminal : list_fits (fun t => text_fits t.1 /\ text_fits t.2) (e_terminal_history e);
}.
End fits.

(** The interface of encodings that delimit themselves. *)
Class Delimited {A : Type} (enc : A -> list Z) (ok : A -> Prop) : Prop := delimited : self_delimiting ok enc.
#[export] Hint Mode Delimited - ! - : typeclass_instances.
#[export] Hint Opaque w_u64 w_i64 w_i128 w_bytes w_text w_list w_option w_map w_order w_time w_state w_auction w_rules w_history w_levels w_orders
  : typeclass_instances.

Lemma peeled {A : Type} (enc : A -> list Z) ok `{!Delimited enc ok} a b r s :
  ok a -> ok b -> enc a ++ r = enc b ++ s -> a = b /\ r = s.
Proof. apply delimited. Qed.

(** Take the first part off an equation of encodings. *)
Ltac in_range :=
  lazymatch goal with
  | H : ?P |- ?P => exact H
  | H : forall x, ?P x |- ?P ?x => exact (H x)
  | H : forall x, ?P (?f x) |- ?P (?f ?x) => exact (H x)
  end.

Ltac peel H :=
  lazymatch type of H with
  | ?f ?a ++ ?r = ?f ?b ++ ?s =>
    let E := fresh "E" in
    pose proof (peeled f _ a b r s) as E; cbv beta in E;
    destruct (E ltac:(in_range) ltac:(in_range) H) as [? ?]; clear E H;
    lazymatch goal with H' : r = s |- _ => rename H' into H end
  end.

(** ** Writers *)

Lemma signed_inj n a b : 0 < n -> - n <= a < n -> - n <= b < n -> a mod (2 * n) = b mod (2 * n) -> a = b.
Proof.
  intros Hn Ha Hb H. pose proof (Z.div_mod a (2 * n) ltac:(lia)) as Da. pose proof (Z.div_mod b (2 * n) ltac:(lia)) as Db.
  rewrite H in Da. assert (a - b = 2 * n * (a / (2 * n) - b / (2 * n))) as He by lia.
  assert (a / (2 * n) - b / (2 * n) = 0) by nia. nia.
Qed.

Lemma be_bytes_mod n z : be_bytes n z = be_bytes n (z mod 256 ^ Z.of_nat n).
Proof.
  apply (from_be_inj _ _ 0 0).
  - by rewrite !length_be.
  - apply be_bytes_ok.
  - apply be_bytes_ok.
  - rewrite !from_be_acc, Z.mod_mod; [done|]. apply Z.pow_nonzero; lia.
Qed.

Lemma be_signed n m : 0 < m -> 256 ^ Z.of_nat n = 2 * m -> self_delimiting (fun z => - m <= z < m) (be_bytes n).
Proof.
  intros Hm Hn a b r s Ha Hb H. rewrite (be_bytes_mod n a), (be_bytes_mod n b) in H.
  apply sd_be in H as [H ->]; [|apply Z.mod_pos_bound; lia..]. split; [|done]. rewrite Hn in H. by apply (signed_inj m).
Qed.

#[export] Instance w_u64_delimited : Delimited w_u64 is_u64.
Proof. intros a b r s Ha Hb H. by apply sd_be in H. Qed.

#[export] Instance w_i64_delimited : Delimited w_i64 is_i64.
Proof. apply (be_signed 8 9223372036854775808); done. Qed.

#[export] Instance w_i128_delimited : Delimited w_i128 is_i128.
Proof. apply (be_signed 16 (2 ^ 127)); done. Qed.

#[export] Instance w_bytes_delimited : Delimited w_bytes (fun b => is_u64 (Z.of_nat (length b))).
Proof.
  intros a b r s Ha Hb H. unfold w_bytes in H. rewrite <- !app_assoc in H. peel H. apply app_inj_length in H; [done|lia].
Qed.

#[export] Instance w_text_delimited : Delimited w_text text_fits.
Proof. intros a b r s Ha Hb H. unfold w_text in H. peel H. split; [by apply bytes_of_inj|done]. Qed.

Lemma bind_delimited {A : Type} (f : A -> list Z) ok : Delimited f ok -> forall l k r s,
  length l = length k -> Forall ok l -> Forall ok k -> (l ≫= f) ++ r = (k ≫= f) ++ s -> l = k /\ r = s.
Proof.
  intros Hf. induction l as [|x l IH]; intros [|y k] r s Hl Ha Hb H; try done.
  apply Forall_cons in Ha as [Hx Ha], Hb as [Hy Hb]. rewrite !bind_cons, <- !app_assoc in H. apply Hf in H as [-> H]; [|done..].
  apply IH in H as [-> ->]; [done| |done..]. simpl in Hl. lia.
Qed.

#[export] Instance w_list_delimited {A : Type} (f : A -> list Z) ok : Delimited f ok -> Delimited (w_list f) (list_fits ok).
Proof.
  intros Hf a b r s [Ha Fa] [Hb Fb] H. unfold w_list in H. rewrite <- !app_assoc in H. peel H.
  apply (bind_delimited f ok) in H; [done|done|lia|done|done].
Qed.

#[export] Instance w_option_delimited {A : Type} (f : A -> list Z) ok : Delimited f ok -> Delimited (w_option f) (option_fits ok).
Proof.
  intros Hf [a|] [b|] r s Ha Hb H; simpl in H; rewrite <- ?app_assoc in H; apply w_u64_delimited in H as [E H]; try done.
  apply Hf in H as [-> ->]; done.
Qed.

#[export] Instance pair_delimited {A B : Type} (f : A -> list Z) (g : B -> list Z) okA okB :
  Delimited f okA -> Delimited g okB -> Delimited (fun p => f p.1 ++ g p.2) (fun p => okA p.1 /\ okB p.2).
Proof.
  intros Hf Hg [a b] [a' b'] r s [Ha Hb] [Ha' Hb'] H. simpl in *. rewrite <- !app_assoc in H.
  apply Hf in H as [-> H]; [|done..]. apply Hg in H as [-> ->]; done.
Qed.

(** *** Maps *)

Lemma bt_of_map_get {V : Type} (m : gmap string V) k : bt_sorted (bt_of_map m) /\ bt_get k (bt_of_map m) = m !! k.
Proof.
  unfold bt_of_map. rewrite <- (list_to_map_to_list m) at 3. generalize (map_to_list m). intros l.
  induction l as [|[k' v] l [IHs IH]]; simpl; [split; [apply bt_sorted_nil|by rewrite lookup_empty]|].
  split; [by apply bt_sorted_insert|]. destruct (decide (k' = k)) as [->|Hne].
  - by rewrite lookup_insert_eq, bt_get_insert_eq.
  - rewrite lookup_insert_ne by done. by rewrite bt_get_insert_ne.
Qed.

Lemma bt_of_map_inj {V : Type} (m n : gmap string V) : bt_of_map m = bt_of_map n -> m = n.
Proof. intros H. apply map_eq. intros k. rewrite <- (proj2 (bt_of_map_get m k)), H. apply bt_of_map_get. Qed.

Lemma bt_of_map_elem {V : Type} (m : gmap string V) e : e ∈ bt_of_map m -> m !! e.1 = Some e.2.
Proof.
  destruct e as [k v]. destruct (bt_of_map_get m k) as [Hs Hg]. intros He. simpl. rewrite <- Hg. by apply bt_elem_get.
Qed.

Lemma bt_insert_length {V : Type} k (v : V) m : (length (bt_insert k v m) <= S (length m))%nat.
Proof. induction m as [|[k' v'] m IH]; simpl; [done|]. repeat case_match; simpl; lia. Qed.

Lemma bt_of_map_length {V : Type} (m : gmap string V) : (length (bt_of_map m) <= size m)%nat.
Proof.
  unfold bt_of_map. rewrite <- length_map_to_list. generalize (map_to_list m). intros l.
  induction l as [|[k v] l IH]; simpl; [done|]. pose proof (bt_insert_length k v (foldr (fun e acc => bt_insert e.1 e.2 acc) [] l)). lia.
Qed.

#[export] Instance w_map_delimited {V : Type} (f : V -> list Z) ok : Delimited f ok -> Delimited (w_map f) (map_fits ok).
Proof.
  intros Hf a b r s [Ha Fa] [Hb Fb] H.
  assert (forall m, is_u64 (Z.of_nat (size m)) -> map_Forall (fun k v => text_fits k /\ ok v) m ->
    list_fits (fun e => text_fits e.1 /\ ok e.2) (bt_of_map m)) as Hm.
  { intros m Hs Fm. split; [pose proof (bt_of_map_length m); unfold is_u64 in *; lia|].
    apply Forall_forall. intros e He. apply (Fm e.1 e.2), bt_of_map_elem, He. }
  unfold w_map in H. apply (peeled _ _ _ _ _ _ (Hm a Ha Fa) (Hm b Hb Fb)) in H as [H ->]. split; [by apply bt_of_map_inj|done].
Qed.

(** A map whose values are seen through a function. *)
Lemma bt_of_map_fmap {V W : Type} (g : V -> W) (m : gmap string V) : bt_of_map (g <$> m) = prod_map id g <$> bt_of_map m.
Proof.
  assert (forall l : list (string * V), bt_sorted l -> bt_sorted (prod_map id g <$> l)) as Hs.
  { intros l Hl. unfold bt_sorted in *. rewrite <- list_fmap_compose. done. }
  assert (forall (l : list (string * V)) k, bt_get k (prod_map id g <$> l) = g <$> bt_get k l) as Hg.
  { intros l k. induction l as [|[k' v] l IH]; [done|]. rewrite fmap_cons. change (prod_map id g (k', v)) with (k', g v).
    cbn [bt_get]. rewrite IH. repeat case_match; done. }
  apply bt_ext; [apply (bt_of_map_get (g <$> m) "")|apply Hs, (bt_of_map_get m "")|]. intros k.
  rewrite Hg, (proj2 (bt_of_map_get (g <$> m) k)), lookup_fmap. f_equal. symmetry. apply bt_of_map_get.
Qed.

Lemma w_map_fmap {V W : Type} (f : W -> list Z) (g : V -> W) (m : gmap string V) : w_map f (g <$> m) = w_map (fun v => f (g v)) m.
Proof.
  unfold w_map, w_list. rewrite bt_of_map_fmap, length_fmap. f_equal. generalize (bt_of_map m). intros l.
  induction l as [|e l IH]; [done|]. rewrite fmap_cons, !bind_cons, IH. done.
Qed.

(** *** Records *)

Lemma tif_code_inj a b : tif_code a = tif_code b -> a = b.
Proof. by destruct a, b. Qed.

Lemma side_number_inj a b : side_number a = side_number b -> a = b.
Proof. by destruct a, b. Qed.

Lemma type_number_inj a b : type_number a = type_number b -> a = b.
Proof. by destruct a, b. Qed.

Lemma phase_code_inj a b : phase_code a = phase_code b -> a = b.
Proof. by destruct a, b. Qed.

Lemma mode_text_inj a b : stp_mode_as_str a = stp_mode_as_str b -> a = b.
Proof. by destruct a, b. Qed.

Lemma schedule_text_inj a b :
  option_fits valid_schedule a -> option_fits valid_schedule b -> schedule_text a = schedule_text b -> a = b.
Proof.
  intros Ha Hb H. destruct a as [a|], b as [b|]; simpl in *; [|exfalso|exfalso|done].
  - apply (f_equal parse_schedule) in H. rewrite !parse_show_schedule in H by done. by apply Ok_inj in H as ->.
  - apply (f_equal parse_schedule) in H. rewrite parse_show_schedule in H by done. done.
  - apply (f_equal parse_schedule) in H. rewrite parse_show_schedule in H by done. done.
Qed.

(** Numbers of constructors are in range. *)
Lemma code_fits :
  (forall t, is_u64 (tif_code t)) /\ (forall s, is_u64 (side_number s)) /\ (forall t, is_u64 (type_number t)) /\
  (forall p, is_u64 (phase_code p)) /\ (forall m, text_fits (stp_mode_as_str m)) /\ is_u64 0 /\ text_fits STATE_VERSION.
Proof. repeat split; try (by destruct t) || (by destruct s) || (by destruct p) || (by destruct m) || done. Qed.

#[export] Instance w_time_delimited : Delimited w_time time_fits.
Proof. intros [a b] [c d] r s Ha Hb H. apply (pair_delimited w_i64 w_i64 is_i64 is_i64 _ _ (a, b) (c, d)) in H as [[= -> ->] ->]; done. Qed.

(** Peel all the parts of a record's encoding. *)
Ltac peel_all H := repeat rewrite <- app_assoc in H; destruct code_fits as (? & ? & ? & ? & ? & ? & ?); repeat peel H.

#[export] Instance w_order_delimited : Delimited w_order order_fits.
Proof.
  intros a b r s Ha Hb H. unfold w_order, order_fits in *. destruct_and!. peel_all H.
  destruct a as [? ? ? ? ? ? sa ta fa ? ? ? ? ? [ma ga]], b as [? ? ? ? ? ? sb tb fb ? ? ? ? ? [mb gb]]. simpl in *.
  rewrite (side_number_inj sa sb), (type_number_inj ta tb), (tif_code_inj fa fb), (mode_text_inj ma mb) by done. by simplify_eq.
Qed.

#[export] Instance w_state_delimited : Delimited (w_state (R := unit)) state_fits.
Proof.
  intros a b r s Ha Hb H. unfold w_state, state_fits in *. destruct_and!. peel_all H.
  destruct a as [? fa ? ? ? ? ? ? ? ? ? []], b as [? fb ? ? ? ? ? ? ? ? ? []]. simpl in *.
  rewrite (tif_code_inj fa fb) by done. by simplify_eq.
Qed.

#[export] Instance w_auction_delimited : Delimited w_auction auction_fits.
Proof.
  intros [a1 a2 a3] [b1 b2 b3] r s Ha Hb H. unfold w_auction, auction_fits in *. destruct_and!. peel_all H. simpl in *. by simplify_eq.
Qed.

#[export] Instance w_rules_delimited : Delimited w_rules rules_fit.
Proof.
  intros [a1 a2 a3 a4 a5] [b1 b2 b3 b4 b5] r s Ha Hb H. unfold w_rules, rules_fit in *. destruct_and!. peel_all H. simpl in *. by simplify_eq.
Qed.

#[export] Instance w_levels_delimited : Delimited w_levels (list_fits level_fits).
Proof. exact (w_list_delimited _ level_fits _). Qed.

#[export] Instance w_orders_delimited : Delimited w_orders (map_fits order_fits).
Proof. exact (w_map_delimited w_order order_fits _). Qed.

Lemma map_fits_fmap {V W : Type} (okV : V -> Prop) (okW : W -> Prop) (g : V -> W) m :
  (forall v, okV v -> okW (g v)) -> map_fits okV m -> map_fits okW (g <$> m).
Proof.
  intros Hg [Hs Hm]. split; [by rewrite map_size_fmap|]. intros k w Hk. apply lookup_fmap_Some in Hk as (v & <- & Hv).
  destruct (Hm k v Hv). auto.
Qed.

Section state.
Context `{!Wire Report, !Wire TradeCapture, !Wire SessionStatus, !Wire AuctionInfo, !WireLaws Report}.

(** What a report's event determines. *)
Lemma report_event_inj a b : event_frame 1 (encode_to_vec (report_bare a)) = event_frame 1 (encode_to_vec (report_bare b)) -> report_bare a = report_bare b.
Proof using WireLaws0.
  unfold event_frame. intros H. apply (f_equal (drop 9)) in H.
  assert (forall p, drop 9 ([1] ++ be_bytes 8 (Z.of_nat (length p)) ++ p) = p) as Hd.
  { intros p. apply (drop_app_length' ([1] ++ be_bytes 8 (Z.of_nat (length p)))). by rewrite length_app, length_be. }
  rewrite !Hd in H. apply (f_equal (wire_decode (A := Report))) in H. rewrite !wire_roundtrip in H. congruence.
Qed.

Lemma w_history_bare x y r s :
  history_fits x -> history_fits y -> w_history x ++ r = w_history y ++ s -> bare_entry x = bare_entry y /\ r = s.
Proof using WireLaws0.
  assert (forall z, w_history z = w_text z.1 ++ w_bytes (event_frame 1 (encode_to_vec (report_bare z.2)))) as Hw by done.
  intros [Hx Fx] [Hy Fy] H. rewrite !Hw, <- !app_assoc in H.
  remember (event_frame 1 (encode_to_vec (report_bare x.2))) as fx eqn:Ex.
  remember (event_frame 1 (encode_to_vec (report_bare y.2))) as fy eqn:Ey.
  peel H. peel H. split; [|done]. unfold bare_entry. f_equal; [done|]. apply report_event_inj. congruence.
Qed.

Lemma business_bytes {R I : Type} (e : Engine R I) : canonical_state (business e) = canonical_state e.
Proof.
  unfold canonical_state. cbn [e_symbol e_book e_stops e_last e_desk e_clock e_schedule e_call_until e_last_seen e_next_arrival
    e_phase e_call_markets e_held_close e_last_indicative e_stp_default e_rules e_status_history e_terminal_history business
    bare_book buy_orders sell_orders order_lookup cum_filled arrival next_arrival displayed last_added trade_seq].
  change (e_states (business e)) with (unowned <$> e_states e). rewrite (w_map_fmap w_state unowned), (w_map_fmap w_history bare_entry). reflexivity.
Qed.

Lemma business_fits {R I : Type} (e : Engine R I) : engine_fits e -> engine_fits (business e).
Proof.
  intros []. constructor; try assumption.
  - apply (map_fits_fmap state_fits state_fits unowned); [|done]. by intros [].
  - apply (map_fits_fmap history_fits history_fits bare_entry); [|done]. by intros [? []].
Qed.

#[export] Instance w_history_delimited : Delimited w_history (fun x => history_fits x /\ bare_entry x = x).
Proof using WireLaws0. intros a b r s [Ha Ea] [Hb Eb] H. destruct (w_history_bare a b r s Ha Hb H) as [E Er]. split; [congruence|exact Er]. Qed.


Lemma fmap_idem {V W : Type} (f : V -> W) (g : W -> W) (m : gmap string V) : (forall v, g (f v) = f v) -> g <$> (f <$> m) = f <$> m.
Proof. intros H. rewrite <- map_fmap_compose. apply map_fmap_ext. intros k v _. apply H. Qed.

Lemma business_idem {R I : Type} (e : Engine R I) : business (business e) = business e.
Proof.
  assert (unowned <$> e_states (business e) = unowned <$> e_states e) as Hs by (by apply fmap_idem).
  assert (bare_entry <$> e_status_history (business e) = bare_entry <$> e_status_history e) as Hh by (by apply fmap_idem).
  unfold business at 1. rewrite Hs, Hh. reflexivity.
Qed.

(** Engines as [business] makes them. *)
Lemma canonical_inj (e f : Engine unit unit) :
  engine_fits e -> engine_fits f -> business e = e -> business f = f -> canonical_state e = canonical_state f -> e = f.
Proof using WireLaws0.
  intros He Hf Be Bf H. destruct He, Hf.
  assert (forall g : Engine unit unit, business g = g -> map_fits history_fits (e_status_history g) ->
    map_fits (fun x => history_fits x /\ bare_entry x = x) (e_status_history g)) as Hh.
  { intros g Hg Fg. rewrite <- Hg. change (e_status_history (business g)) with (bare_entry <$> e_status_history g).
    apply (map_fits_fmap history_fits); [|exact Fg]. intros x Hx. split; [exact Hx|reflexivity]. }
  pose proof (Hh e Be ltac:(assumption)) as Fe. pose proof (Hh f Bf ltac:(assumption)) as Ff. clear Hh. 
  destruct ft_schedule0 as [Se Te], ft_schedule1 as [Sf Tf].
  unfold canonical_state in H. rewrite <- (app_nil_r (w_list _ (e_terminal_history e))), <- (app_nil_r (w_list _ (e_terminal_history f))) in H.
  peel_all H. rewrite <- Be, <- Bf. clear Be Bf.
  assert (e_phase e = e_phase f) as Hp by (by apply phase_code_inj).
  assert (e_schedule e = e_schedule f) as Hs by (by apply schedule_text_inj).
  assert (e_stp_default e = e_stp_default f) as Hm by (by apply mode_text_inj).
  unfold business, bare_book.
  repeat match goal with E : ?x = ?y |- context [?x] => rewrite E; clear E end. reflexivity.
Qed.

(** C11: The canonical state of an engine is exactly its business state: two
    engines have the same canonical bytes if and only if they agree on the book
    with its priorities and indices, the parked, auction and held orders, the
    report state of every live order, the session, the counters, the rules and
    the status history. Connections, message headers and clocks do not show.
    [protobuf] encoding is only assumed to be decodable. *)
Theorem canonical_state_exact {R1 I1 R2 I2 : Type} (e : Engine R1 I1) (f : Engine R2 I2) :
  engine_fits e -> engine_fits f -> canonical_state e = canonical_state f <-> business e = business f.
Proof using WireLaws0.
  intros He Hf. rewrite <- (business_bytes e), <- (business_bytes f). split; [|by intros ->].
  apply canonical_inj; [by apply business_fits|by apply business_fits| |]; apply business_idem.
Qed.

End state.

(** ** A concrete pair *)


(** The maps of a concrete engine, checked entry by entry. *)
Lemma map_fits_list {V : Type} (ok : V -> Prop) (m : gmap string V) :
  is_u64 (Z.of_nat (length (map_to_list m))) -> Forall (fun e => text_fits e.1 /\ ok e.2) (map_to_list m) -> map_fits ok m.
Proof.
  intros Hs Hm. split; [by rewrite <- length_map_to_list|]. apply map_Forall_to_list. eapply Forall_impl; [exact Hm|]. by intros [].
Qed.

Ltac concrete_map m :=
  apply map_fits_list; let l := eval vm_compute in (map_to_list m) in
  replace (map_to_list m) with l by (vm_compute; reflexivity).

Ltac concrete_range := solve [vm_compute; first [discriminate|reflexivity]].

Ltac concrete_list l := let k := eval vm_compute in l in replace l with k by (vm_compute; reflexivity).

Ltac concrete_fits :=
  repeat match goal with
  | |- map_fits _ ?m => concrete_map m
  | |- list_fits _ ?l => split
  | |- Forall _ ?l => concrete_list l; repeat constructor
  | |- option_fits _ ?o => concrete_list o; cbn [option_fits]
  | |- True => exact I
  | |- _ => progress (repeat split)
  | |- _ => concrete_range
  end.

(** The two orders of [open_engine], from other connections. *)
Definition moved_engine : Engine Z Z :=
  set_phase_field Continuous None (hold bid_low 31 2 (hold ask_plain 32 1
    (engine_new "FXP" (mkTime 100 0) 1 (Some call_schedule) StpNone default_rules))).

Lemma canonical_state_exact_witness :
  let w := wire_of Report in let t := wire_of TradeCapture in let s := wire_of SessionStatus in let a := wire_of AuctionInfo in
  canonical_state open_engine = canonical_state moved_engine <-> business open_engine = business moved_engine.
Proof.
  intros w t s a. pose proof (wire_of_laws Report) as laws.
  apply canonical_state_exact; constructor; concrete_fits.
Defined.
