(* ===== verification/EngineOwners.v ===== *)
(** * Owners are only addresses

    Renaming the connections that own the live orders, before or after an
    operation, gives the same engine and the same outputs: the engine never
    looks at a connection. Replay depends on it, since the connections of a
    recorded run are gone. *)

From S2P Require Import Prelude BTree Text Order OrderBook Matcher Stops Session SymbolConfig Auction Proto Reports Engine.

(** ** Definitions *)

Definition outcome_map {A B : Type} (g : A -> B) (o : outcome A) : outcome B :=
  match o with Done a => Done (g a) | Panicked => Panicked | OutOfFuel => OutOfFuel end.

Section maps.
Context {R S I : Type} (f : R -> S).

Definition state_map (st : OrderState R) : OrderState S :=
  mkOrderState (sender st) (st_time_in_force st) (st_expire_date st) (st_arrival st) (st_side st) (order_qty st)
    (st_display_quantity st) (cum_qty st) (notional st) (st_account st) (st_client_order_id st) (f (output_tx st)).

Definition output_map (o : Output R) : Output S :=
  match o with
  | OTradingSessionStatus m => OTradingSessionStatus m
  | OAuctionInfo m => OAuctionInfo m
  | OExecutionReport to m => OExecutionReport (f to) m
  | OMarketData m => OMarketData m
  | OTrade m => OTrade m
  | OSnapshot to m => OSnapshot (f to) m
  | OMassCancelCount n => OMassCancelCount n
  end.

Definition desk_map (d : Desk R I) : Desk S I :=
  mkDesk (ids d) (state_map <$> states d) (trade_seq d) (diagnostics d) (output_map <$> outputs d).

Definition engine_map (e : Engine R I) : Engine S I :=
  mkEngine (e_symbol e) (e_book e) (e_stops e) (e_last e) (desk_map (e_desk e)) (e_clock e) (e_schedule e) (e_call_until e)
    (e_last_seen e) (e_next_arrival e) (e_phase e) (e_call_markets e) (e_held_close e) (e_last_indicative e)
    (e_stp_default e) (e_rules e) (e_status_history e) (e_terminal_history e).

Definition cancel_map (m : CancelMsg R) : CancelMsg S :=
  mkCancelMsg (c_order_id m) (c_sender m) (c_client_cancel_id m) (f (c_output_tx m)).

Definition replace_map (m : CancelReplaceMsg R) : CancelReplaceMsg S :=
  mkCancelReplaceMsg (cr_order_id m) (cr_sender m) (cr_new_order_id m) (cr_client_replace_id m) (cr_new_price m)
    (cr_new_quantity m) (cr_new_time_in_force m) (cr_new_stop_price m) (cr_new_display_quantity m) (f (cr_output_tx m)).

Definition msg_map (m : SymbolMsg R) : SymbolMsg S :=
  match m with
  | MOrder order tx => MOrder order (f tx)
  | MCancel m => MCancel (cancel_map m)
  | MCancelReplace m => MCancelReplace (replace_map m)
  end.
End maps.

#[local] Arguments desk_map : simpl never.
#[local] Arguments engine_map : simpl never.
#[local] Arguments states : simpl never.

Create Rewrite HintDb owners.

(** ** Generic lemmas *)

Lemma obind_natural {A B C D : Type} (g : A -> B) (h : C -> D) (m : outcome A) (m' : outcome B) k k' :
  m' = outcome_map g m -> (forall x, k' (g x) = outcome_map h (k x)) -> obind m' k' = outcome_map h (obind m k).
Proof. intros -> Hk. destruct m; simpl; [apply Hk|done|done]. Qed.

Lemma obind_shared {A C D : Type} (h : C -> D) (m : outcome A) k k' :
  (forall x, k' x = outcome_map h (k x)) -> obind m k' = outcome_map h (obind m k).
Proof. intros Hk. destruct m; simpl; [apply Hk|done|done]. Qed.

Lemma foldl_natural {A B C : Type} (g : A -> B) (h : C -> A -> A) (h' : C -> B -> B) l : forall a,
  (forall c a, h' c (g a) = g (h c a)) -> foldl (fun b c => h' c b) (g a) l = g (foldl (fun a c => h c a) a l).
Proof. induction l as [|c l IH]; intros a H; simpl; [done|]. rewrite H. by apply IH. Qed.

Lemma filter_natural {A B C : Type} (g : A -> B) (test : B -> bool) (test' : A -> bool) (h : B -> C) (h' : A -> C) l :
  (forall x, test (g x) = test' x) -> (forall x, h (g x) = h' x) -> h <$> List.filter test (g <$> l) = h' <$> List.filter test' l.
Proof.
  intros Ht Hh. induction l as [|x l IH]; [done|]. rewrite fmap_cons. cbn [List.filter]. rewrite Ht.
  destruct (test' x); [|done]. rewrite !fmap_cons, Hh. by f_equal.
Qed.

Section owners.
Context {R S I : Type} `{!ExecIds I} (f : R -> S).

Abbreviation sm := (state_map f).
Abbreviation dm := (desk_map (I := I) f).
Abbreviation em := (engine_map (I := I) f).

(** ** The desk *)

Lemma push_natural o d : push (output_map f o) (dm d) = dm (push o d).
Proof. unfold push, desk_map, outputs. by rewrite fmap_app. Qed.

Lemma emit_natural kind id role cp qty cause d : emit kind id role cp qty cause (dm d) = dm (emit kind id role cp qty cause d).
Proof. unfold emit, desk_map, outputs. by rewrite length_fmap. Qed.

Lemma states_delete id d : set_states (delete id (states (dm d))) (dm d) = dm (set_states (delete id (states d)) d).
Proof. unfold set_states, desk_map, states. by rewrite fmap_delete. Qed.

Lemma states_insert id st d : set_states (<[id := sm st]> (states (dm d))) (dm d) = dm (set_states (<[id := st]> (states d)) d).
Proof. unfold set_states, desk_map, states. by rewrite fmap_insert. Qed.

Lemma states_lookup id d : states (dm d) !! id = sm <$> states d !! id.
Proof. apply lookup_fmap. Qed.

Lemma build_report_natural id sym st ev ts d :
  build_report id sym (sm <$> st) ev ts (dm d) = prod_map (fun r => r) dm (build_report id sym st ev ts d).
Proof. unfold build_report. simpl. destruct (next_id (ids d)) as [x i]. destruct st; done. Qed.

Lemma send_report_natural to id sym st ev ts d :
  send_report (f to) id sym (sm <$> st) ev ts (dm d) = dm (send_report to id sym st ev ts d).
Proof.
  unfold send_report. rewrite build_report_natural. destruct (build_report id sym st ev ts d) as [r d']. simpl.
  apply (push_natural (OExecutionReport to r)).
Qed.

Lemma send_report_some to id sym st ev ts d :
  send_report (f to) id sym (Some (sm st)) ev ts (dm d) = dm (send_report to id sym (Some st) ev ts d).
Proof. apply (send_report_natural to id sym (Some st)). Qed.

Lemma send_reject_natural to id sym req reason ts d :
  send_reject (f to) id sym req reason ts (dm d) = dm (send_reject to id sym req reason ts d).
Proof. apply (send_report_natural to id sym None). Qed.

Lemma send_replace_reports_natural to id new_id sym st ts d :
  send_replace_reports (f to) id new_id sym (sm st) ts (dm d) = dm (send_replace_reports to id new_id sym st ts d).
Proof. unfold send_replace_reports. change (leaves (sm st)) with (leaves st). by rewrite !send_report_some. Qed.

Lemma send_md_natural inc ts d : send_md inc ts (dm d) = dm (send_md inc ts d).
Proof. apply (push_natural (OMarketData _)). Qed.

Lemma send_trade_natural sym px qty agg print ts d : send_trade sym px qty agg print ts (dm d) = dm (send_trade sym px qty agg print ts d).
Proof. unfold send_trade. apply (push_natural (OTrade _) (set_trade_seq _ d)). Qed.

Lemma apply_fill_natural id sym px qty ts d :
  apply_fill id sym px qty ts (dm d) = prod_map (fmap (prod_map (fun r => r) f)) dm (apply_fill id sym px qty ts d).
Proof.
  unfold apply_fill. rewrite states_lookup. destruct (states d !! id) as [st|]; simpl; [|done].
  change (set_fill (sm st) qty px) with (sm (set_fill st qty px)). change (leaves (sm (set_fill st qty px))) with (leaves (set_fill st qty px)).
  pose proof (build_report_natural id sym (Some (set_fill st qty px))
    (mkReportEvent ExecFilled (if leaves (set_fill st qty px) =? 0 then OrderFilled else OrderPartiallyFilled) px qty
      (leaves (set_fill st qty px)) None "" "") ts d) as Hb. cbn [fmap option_fmap option_map] in Hb. rewrite Hb. clear Hb.
  destruct (build_report _ _ _ _ _ d) as [r d']. cbn [prod_map fst snd]. f_equal.
  destruct (leaves (set_fill st qty px) =? 0); [apply states_delete|apply states_insert].
Qed.

Lemma report_stp_natural sym ev ts d : report_stp sym ev ts (dm d) = dm (report_stp sym ev ts d).
Proof.
  unfold report_stp. rewrite states_lookup. destruct (states d !! ev_order_id ev) as [st|]; simpl; [|done].
  destruct (action ev) as [|by_]; [rewrite states_delete; apply send_report_some|].
  change (set_order_qty (sm st) (saturating_sub (order_qty st) by_)) with (sm (set_order_qty st (saturating_sub (order_qty st) by_))).
  rewrite states_insert. apply send_report_some.
Qed.

Lemma report_stp_event_natural sym ts ev d : report_stp_event sym ts ev (dm d) = dm (report_stp_event sym ts ev d).
Proof. unfold report_stp_event. by rewrite emit_natural, report_stp_natural. Qed.

Lemma report_trigger_natural t d : report_trigger t (dm d) = dm (report_trigger t d).
Proof. apply emit_natural. Qed.

Lemma report_fill_side_natural sym ts x id d : report_fill_side sym ts x id (dm d) = dm (report_fill_side sym ts x id d).
Proof.
  unfold report_fill_side. rewrite apply_fill_natural. destruct (apply_fill _ _ _ _ _ d) as [[[r tx]|] d']; simpl; [|done].
  rewrite emit_natural. apply (push_natural (OExecutionReport tx r)).
Qed.

Lemma report_fills_natural sym ts fills : forall i triggers refreshes stp d,
  report_fills i fills triggers refreshes stp sym ts (dm d) = prod_map (fun x => x) dm (report_fills i fills triggers refreshes stp sym ts d).
Proof.
  induction fills as [|x fills IH]; intros i triggers refreshes stp d; cbn [report_fills]; [done|].
  destruct (take_while _ triggers) as [now triggers']. destruct (take_while _ stp) as [nows stp']. destruct (take_while _ refreshes) as [nowr refreshes'].
  rewrite (foldl_natural dm report_trigger), (foldl_natural dm (report_stp_event sym ts)), !report_fill_side_natural, send_trade_natural
    by (intros; first [apply report_trigger_natural|apply report_stp_event_natural]).
  rewrite (foldl_natural dm (fun (r : nat * string * Z) d => emit "iceberg_refresh" r.1.2 "" "" r.2
    "displayed slice exhausted; reserve replenished at back of queue" d)) by (intros; apply emit_natural). apply IH.
Qed.

Lemma report_cancel_natural sym ts id d : report_cancel sym ts id (dm d) = dm (report_cancel sym ts id d).
Proof.
  unfold report_cancel. rewrite states_lookup. destruct (states d !! id) as [st|]; simpl; [|done].
  rewrite states_delete, emit_natural. apply send_report_some.
Qed.

Lemma report_execution_natural exec sym ts d : report_execution exec sym ts (dm d) = dm (report_execution exec sym ts d).
Proof.
  unfold report_execution. rewrite report_fills_natural. destruct (report_fills _ _ _ _ _ _ _ d) as [[triggers stp] d']. cbn [prod_map fst snd].
  rewrite (foldl_natural dm report_trigger), (foldl_natural dm (report_stp_event sym ts)), (foldl_natural dm (report_cancel sym ts))
    by (intros; first [apply report_trigger_natural|apply report_stp_event_natural|apply report_cancel_natural]).
  apply (foldl_natural dm (fun inc d => send_md inc ts d)). intros. apply send_md_natural.
Qed.

(** ** The engine: fields and updates *)

Lemma e_symbol_same e : e_symbol (em e) = e_symbol e.
Proof. done. Qed.
Lemma e_book_same e : e_book (em e) = e_book e.
Proof. done. Qed.
Lemma e_stops_same e : e_stops (em e) = e_stops e.
Proof. done. Qed.
Lemma e_last_same e : e_last (em e) = e_last e.
Proof. done. Qed.
Lemma e_clock_same e : e_clock (em e) = e_clock e.
Proof. done. Qed.
Lemma e_schedule_same e : e_schedule (em e) = e_schedule e.
Proof. done. Qed.
Lemma e_call_until_same e : e_call_until (em e) = e_call_until e.
Proof. done. Qed.
Lemma e_last_seen_same e : e_last_seen (em e) = e_last_seen e.
Proof. done. Qed.
Lemma e_next_arrival_same e : e_next_arrival (em e) = e_next_arrival e.
Proof. done. Qed.
Lemma e_phase_same e : e_phase (em e) = e_phase e.
Proof. done. Qed.
Lemma e_call_markets_same e : e_call_markets (em e) = e_call_markets e.
Proof. done. Qed.
Lemma e_held_close_same e : e_held_close (em e) = e_held_close e.
Proof. done. Qed.
Lemma e_last_indicative_same e : e_last_indicative (em e) = e_last_indicative e.
Proof. done. Qed.
Lemma e_stp_default_same e : e_stp_default (em e) = e_stp_default e.
Proof. done. Qed.
Lemma e_rules_same e : e_rules (em e) = e_rules e.
Proof. done. Qed.
Lemma e_status_history_same e : e_status_history (em e) = e_status_history e.
Proof. done. Qed.
Lemma e_terminal_history_same e : e_terminal_history (em e) = e_terminal_history e.
Proof. done. Qed.

Lemma on_desk_natural g g' e : (forall d, g' (dm d) = dm (g d)) -> on_desk g' (em e) = em (on_desk g e).
Proof. intros H. unfold on_desk. change (e_desk (em e)) with (dm (e_desk e)). rewrite H. done. Qed.

Lemma set_desk_natural d e : set_desk (dm d) (em e) = em (set_desk d e).
Proof. done. Qed.

Lemma set_market_natural b parked last e : set_market b parked last (em e) = em (set_market b parked last e).
Proof. done. Qed.

Lemma set_book_natural b e : set_book b (em e) = em (set_book b e).
Proof. done. Qed.

Lemma set_held_natural markets held e : set_held markets held (em e) = em (set_held markets held e).
Proof. done. Qed.

Lemma set_phase_field_natural p ind e : set_phase_field p ind (em e) = em (set_phase_field p ind e).
Proof. done. Qed.

Lemma set_timers_natural clock until seen next e : set_timers clock until seen next (em e) = em (set_timers clock until seen next e).
Proof. done. Qed.

Lemma set_history_natural h t e : set_history h t (em e) = em (set_history h t e).
Proof. done. Qed.

Lemma fresh_natural e : fresh (em e) = em (fresh e).
Proof. done. Qed.

Lemma e_states_natural id e : e_states (em e) !! id = sm <$> e_states e !! id.
Proof. apply lookup_fmap. Qed.

Lemma on_push o e : on_desk (push (output_map f o)) (em e) = em (on_desk (push o) e).
Proof. apply on_desk_natural. intros. apply push_natural. Qed.

Lemma on_push_count n e : on_desk (push (OMassCancelCount n)) (em e) = em (on_desk (push (OMassCancelCount n)) e).
Proof. apply (on_push (OMassCancelCount n)). Qed.

Lemma on_push_status m e : on_desk (push (OTradingSessionStatus m)) (em e) = em (on_desk (push (OTradingSessionStatus m)) e).
Proof. apply (on_push (OTradingSessionStatus m)). Qed.

Lemma on_push_snapshot to m e : on_desk (push (OSnapshot (f to) m)) (em e) = em (on_desk (push (OSnapshot to m)) e).
Proof. apply (on_push (OSnapshot to m)). Qed.

Lemma on_send_report to id sym st ev ts e :
  on_desk (send_report (f to) id sym (sm <$> st) ev ts) (em e) = em (on_desk (send_report to id sym st ev ts) e).
Proof. apply on_desk_natural. intros. apply send_report_natural. Qed.

Lemma on_send_report_some to id sym st ev ts e :
  on_desk (send_report (f to) id sym (Some (sm st)) ev ts) (em e) = em (on_desk (send_report to id sym (Some st) ev ts) e).
Proof. apply on_desk_natural. intros. apply send_report_some. Qed.

Lemma on_send_reject to id sym req reason ts e :
  on_desk (send_reject (f to) id sym req reason ts) (em e) = em (on_desk (send_reject to id sym req reason ts) e).
Proof. apply on_desk_natural. intros. apply send_reject_natural. Qed.

Lemma on_send_replace to id new_id sym st ts e :
  on_desk (send_replace_reports (f to) id new_id sym (sm st) ts) (em e) = em (on_desk (send_replace_reports to id new_id sym st ts) e).
Proof. apply on_desk_natural. intros. apply send_replace_reports_natural. Qed.

Lemma on_send_md inc ts e : on_desk (send_md inc ts) (em e) = em (on_desk (send_md inc ts) e).
Proof. apply on_desk_natural. intros. apply send_md_natural. Qed.

Lemma on_send_trade sym px qty agg print ts e :
  on_desk (send_trade sym px qty agg print ts) (em e) = em (on_desk (send_trade sym px qty agg print ts) e).
Proof. apply on_desk_natural. intros. apply send_trade_natural. Qed.

Lemma on_emit kind id role cp qty cause e :
  on_desk (emit kind id role cp qty cause) (em e) = em (on_desk (emit kind id role cp qty cause) e).
Proof. apply on_desk_natural. intros. apply emit_natural. Qed.

Lemma on_report_execution exec sym ts e : on_desk (report_execution exec sym ts) (em e) = em (on_desk (report_execution exec sym ts) e).
Proof. apply on_desk_natural. intros. apply report_execution_natural. Qed.

Lemma on_delete id e :
  on_desk (fun d => set_states (delete id (states d)) d) (em e) = em (on_desk (fun d => set_states (delete id (states d)) d) e).
Proof. apply on_desk_natural. intros. apply states_delete. Qed.

Lemma on_insert id st e :
  on_desk (fun d => set_states (<[id := sm st]> (states d)) d) (em e) = em (on_desk (fun d => set_states (<[id := st]> (states d)) d) e).
Proof. apply on_desk_natural. intros. apply states_insert. Qed.


Hint Rewrite e_symbol_same e_book_same e_stops_same e_last_same e_clock_same e_schedule_same e_call_until_same e_last_seen_same e_next_arrival_same e_phase_same e_call_markets_same e_held_close_same e_last_indicative_same e_stp_default_same e_rules_same e_status_history_same e_terminal_history_same : owners.
Hint Rewrite set_market_natural set_book_natural set_held_natural set_phase_field_natural set_timers_natural set_history_natural
  set_desk_natural fresh_natural e_states_natural : owners.
Hint Rewrite on_push on_push_count on_push_status on_push_snapshot on_send_report on_send_report_some on_send_reject on_send_replace on_send_md on_send_trade on_emit
  on_report_execution on_delete on_insert : owners.

Ltac owners := cbv zeta; autorewrite with owners.

(** ** Phases, auctions and expiry *)

Lemma auctions_enabled_natural e : auctions_enabled (em e) = auctions_enabled e.
Proof. done. Qed.

Lemma set_phase_natural p at_ e : set_phase p at_ (em e) = em (set_phase p at_ e).
Proof.
  unfold set_phase. owners. destruct (bool_decide (e_phase e = p)); [done|]. by owners.
Qed.

Lemma auction_orders_natural e : auction_orders (em e) = auction_orders e.
Proof.
  unfold auction_orders. change (live_auction_orders (em e)) with (live_auction_orders e). generalize (live_auction_orders e). intros l.
  assert (forall o, auction_order (em e) o = auction_order e o) as Ho.
  { intros o. unfold auction_order. owners. destruct (e_states e !! order_id o); done. }
  induction l as [|o l IH]; simpl; [done|]. by rewrite Ho, IH.
Qed.

Lemma publish_indicative_natural at_ e : publish_indicative at_ (em e) = outcome_map em (publish_indicative at_ e).
Proof.
  unfold publish_indicative. owners. destruct (negb _); [done|]. rewrite auction_orders_natural. apply obind_shared. intros orders.
  apply obind_shared. intros res. destruct (bool_decide _); [done|]. simpl. f_equal.
  apply (on_push (OAuctionInfo (auction_info res at_ e)) (set_phase_field (e_phase e) (Some res) e)).
Qed.

Lemma auction_fill_side_natural id other qty px at_ md e :
  auction_fill_side id other qty px at_ md (em e) = outcome_map (prod_map (fun x => x) em) (auction_fill_side id other qty px at_ md e).
Proof.
  unfold auction_fill_side. apply (obind_natural (prod_map (fun x => x) em)).
  - owners. destruct (order_lookup (e_book e) !! id).
    + apply obind_shared. intros [u b]. done.
    + apply obind_shared. intros o. done.
  - intros [md' e']. cbn [prod_map fst snd]. owners. change (e_desk (em e')) with (dm (e_desk e')). rewrite apply_fill_natural.
    destruct (apply_fill _ _ _ _ _ (e_desk e')) as [[[r tx]|] d]; cbn [prod_map fst snd fmap option_fmap option_map]; [|done].
    rewrite emit_natural. simpl. f_equal. f_equal. rewrite <- set_desk_natural. f_equal. apply (push_natural (OExecutionReport tx _)).
Qed.

Lemma auction_fills_natural px at_ fills : forall md e,
  auction_fills fills px at_ md (em e) = outcome_map (prod_map (fun x => x) em) (auction_fills fills px at_ md e).
Proof.
  induction fills as [|x fills IH]; intros md e; cbn [auction_fills]; [done|].
  eapply obind_natural; [apply auction_fill_side_natural|]. intros [md1 e1]. cbn [prod_map fst snd].
  eapply obind_natural; [apply auction_fill_side_natural|]. intros [md2 e2]. cbn [prod_map fst snd]. owners. apply IH.
Qed.

Lemma run_auction_natural at_ e : run_auction at_ (em e) = outcome_map (prod_map (fun x => x) em) (run_auction at_ e).
Proof.
  unfold run_auction. rewrite auction_orders_natural. owners. do 3 (apply obind_shared; intros ?).
  eapply obind_natural; [apply auction_fills_natural|]. intros [md e']. cbn [prod_map fst snd]. cbv zeta.
  rewrite (on_desk_natural (fun d => foldl (fun d u => send_md u (timestamp_of at_) d) d md))
    by (intros; apply (foldl_natural dm (fun u d => send_md u (timestamp_of at_) d)); intros; apply send_md_natural).
  destruct (_ =? 0); done.
Qed.

Lemma remove_live_natural id e : remove_live id (em e) = outcome_map (prod_map (fun x => x) em) (remove_live id e).
Proof.
  unfold remove_live. owners. destruct (cancel_order id (e_book e)) as [[u|] b]; [done|]. owners.
  destruct (e_call_markets _ !! id); [done|]. destruct (e_held_close _ !! id); [done|].
  destruct (e_states (set_book b e) !! id) as [st|]; simpl; [|done]. owners. change (sender (sm st)) with (sender st).
  by destruct (stop_cancel_for id (sender st) _) as [[]].
Qed.

Lemma close_order_natural id diag ev ts e : close_order id diag ev ts (em e) = outcome_map em (close_order id diag ev ts e).
Proof.
  unfold close_order. eapply obind_natural; [apply remove_live_natural|]. intros [md e']. cbn [prod_map fst snd]. owners.
  destruct (e_states e' !! id) as [st|]; simpl; [|done]. f_equal. change (output_tx (sm st)) with (f (output_tx st)).
  destruct diag; owners; destruct md; owners; done.
Qed.

Lemma finish_orders_natural expired at_ due : forall e,
  finish_orders due expired at_ (em e) = outcome_map em (finish_orders due expired at_ e).
Proof.
  induction due as [|id due IH]; intros e; cbn [finish_orders]; [done|].
  eapply obind_natural; [|exact IH]. unfold finish_order. destruct expired; apply close_order_natural.
Qed.

Lemma due_orders_natural (test : string -> OrderState S -> bool) (test' : string -> OrderState R -> bool) e :
  (forall id st, test id (sm st) = test' id st) -> due_orders test (em e) = due_orders test' e.
Proof.
  intros Ht. unfold due_orders. change (e_states (em e)) with (sm <$> e_states e). rewrite map_to_list_fmap.
  do 2 f_equal. apply filter_natural; [intros []; apply Ht|by intros []].
Qed.

Lemma expire_natural at_ day_over e : expire at_ day_over (em e) = outcome_map em (expire at_ day_over e).
Proof. unfold expire. rewrite (due_orders_natural _ (fun _ st => is_due at_ day_over st)) by done. apply finish_orders_natural. Qed.

Lemma cancel_remainders_natural tif at_ e : cancel_remainders tif at_ (em e) = outcome_map em (cancel_remainders tif at_ e).
Proof.
  unfold cancel_remainders. owners.
  rewrite (due_orders_natural _ (fun id st => bool_decide (st_time_in_force st = tif) || bool_decide (is_Some (e_call_markets e !! id)))) by done.
  apply finish_orders_natural.
Qed.

(** ** Session boundaries and the clock *)

Lemma cascade_and_report_natural b exec ts e : cascade_and_report b exec ts (em e) = outcome_map em (cascade_and_report b exec ts e).
Proof.
  unfold cascade_and_report. owners. apply obind_shared. intros [[[b' parked] last] exec']. owners. done.
Qed.

Lemma open_market_natural at_ e : open_market at_ (em e) = outcome_map em (open_market at_ e).
Proof.
  unfold open_market. eapply obind_natural; [apply run_auction_natural|]. intros [px e1]. cbn [prod_map fst snd].
  eapply obind_natural; [apply cancel_remainders_natural|]. intros e2. cbv zeta. rewrite set_phase_natural.
  destruct px as [px|]; [|done]. owners. destruct (drain_triggered_stops _ px) as [fired parked]. owners.
  change (logging (em ?x)) with (logging x). apply obind_shared. intros [b exec]. apply cascade_and_report_natural.
Qed.

Lemma held_in_order_natural e : held_in_order (em e) = held_in_order e.
Proof.
  unfold held_in_order. owners. cbv zeta. destruct (_ <=? 1)%nat; [done|].
  assert (forall l : list Order, mapO (fun o => let* st := expect (e_states (em e) !! order_id o) in Done (st_arrival st, o)) l =
    mapO (fun o => let* st := expect (e_states e !! order_id o) in Done (st_arrival st, o)) l) as Hl.
  { intros l. induction l as [|o l IH]; simpl; [done|]. rewrite e_states_natural, IH. by destruct (e_states e !! order_id o). }
  by rewrite Hl.
Qed.

Lemma enter_held_natural at_ o e : enter_held at_ o (em e) = em (enter_held at_ o e).
Proof.
  unfold enter_held. owners. destruct (bool_decide _); [done|]. destruct (add_order o (e_book e)) as [md b]. owners. done.
Qed.

Lemma session_boundary_natural kind at_ e : session_boundary kind at_ (em e) = outcome_map em (session_boundary kind at_ e).
Proof.
  destruct kind; cbn [session_boundary].
  - by rewrite set_phase_natural.
  - apply open_market_natural.
  - cbv zeta. rewrite set_phase_natural, held_in_order_natural. apply obind_shared. intros held. owners. simpl. f_equal.
    apply (foldl_natural em (fun o e => enter_held at_ o e)). intros. apply enter_held_natural.
  - eapply obind_natural; [apply run_auction_natural|]. intros [px e1]. cbn [prod_map fst snd].
    eapply obind_natural; [apply cancel_remainders_natural|]. intros e2. rewrite set_phase_natural. apply expire_natural.
Qed.

Lemma next_expiry_natural cursor e : next_expiry cursor (em e) = next_expiry cursor e.
Proof.
  unfold next_expiry. change (e_states (em e)) with (sm <$> e_states e). rewrite map_to_list_fmap. do 2 f_equal.
  induction (map_to_list (e_states e)) as [|[id st] l IH]; [done|]. cbn. by rewrite <- IH.
Qed.

Lemma advance_loop_natural fuel : forall cursor e, advance_loop fuel cursor (em e) = outcome_map em (advance_loop fuel cursor e).
Proof.
  induction fuel as [|fuel IH]; intros cursor e; cbn [advance_loop]; [done|]. owners. destruct (negb _); [done|].
  apply obind_shared. intros scheduled. rewrite next_expiry_natural.
  destruct (minimumZ _) as [s|]; [|done]. destruct (time_ltb _ _); [done|].
  eapply obind_natural; [apply expire_natural|]. intros e1. eapply (obind_natural em em).
  - owners. repeat case_match; first [apply session_boundary_natural|done].
  - intros e2. eapply obind_natural; [apply publish_indicative_natural|]. intros e3. apply IH.
Qed.

Lemma advance_natural e : advance (em e) = outcome_map em (advance e).
Proof.
  unfold advance. change (advance_fuel (em e)) with (advance_fuel e). owners. eapply obind_natural; [apply advance_loop_natural|].
  intros e'. owners. by destruct (time_ltb _ _).
Qed.

Lemma remember_status_natural outs e : remember_status (output_map f <$> outs) (em e) = em (remember_status outs e).
Proof.
  unfold remember_status. owners.
  assert (forall p, foldl (fun '(h, t) o => remember_output o h t) p (output_map f <$> outs) =
    foldl (fun '(h, t) o => remember_output o h t) p outs) as Hf.
  { induction outs as [|o outs IH]; intros [h t]; [done|]. rewrite fmap_cons. cbn [foldl]. rewrite IH. by destruct o. }
  rewrite Hf. destruct (foldl _ _ _) as [h t]. destruct (trim_history _ _ _) as [h' t']. done.
Qed.

Lemma remember_outputs e : remember_status (outputs (e_desk (em e))) (em e) = em (remember_status (outputs (e_desk e)) e).
Proof. apply remember_status_natural. Qed.

Lemma tick_natural e : tick (em e) = outcome_map em (tick e).
Proof.
  unfold tick. rewrite fresh_natural. eapply obind_natural; [apply advance_natural|]. intros e'. by rewrite remember_outputs.
Qed.

(** ** Requests *)

Lemma cancel_all_natural ev ts targets : forall e, cancel_all targets ev ts (em e) = outcome_map em (cancel_all targets ev ts e).
Proof.
  induction targets as [|id targets IH]; intros e; cbn [cancel_all]; [done|]. eapply obind_natural; [apply close_order_natural|exact IH].
Qed.

Lemma mass_cancel_natural m e : mass_cancel m (em e) = outcome_map em (mass_cancel m e).
Proof.
  unfold mass_cancel. eapply obind_natural; [apply tick_natural|]. intros e1. owners.
  assert (mass_targets m (em e1) = mass_targets m e1) as -> by (by apply due_orders_natural).
  eapply obind_natural; [apply cancel_all_natural|]. intros e2. owners.
  eapply obind_natural; [apply publish_indicative_natural|]. intros e3. by rewrite remember_outputs.
Qed.

Lemma subscribe_natural owner e : engine_subscribe (f owner) (em e) = outcome_map em (engine_subscribe owner e).
Proof.
  unfold engine_subscribe. eapply obind_natural; [apply tick_natural|]. intros e1. owners.
  apply publish_indicative_natural.
Qed.

Lemma begin_opening_call_natural secs e : begin_opening_call secs (em e) = outcome_map em (begin_opening_call secs e).
Proof.
  unfold begin_opening_call. eapply obind_natural; [apply tick_natural|]. intros e1. owners. destruct (_ || _); [done|]. owners.
  rewrite set_phase_natural. eapply obind_natural; [apply publish_indicative_natural|]. intros e2. by rewrite remember_outputs.
Qed.

Lemma bind_status_owner_natural id who outs e :
  bind_status_owner id who (output_map f <$> outs) (em e) = em (bind_status_owner id who outs e).
Proof.
  unfold bind_status_owner.
  assert (accepted id (output_map f <$> outs) = accepted id outs) as ->.
  { unfold accepted. change (output_map f <$> outs) with (map (output_map f) outs). rewrite <- List.map_rev.
    generalize (rev outs). intros l. change (map (output_map f) l) with (output_map f <$> l).
    match goal with |- match ?x with _ => _ end = match ?y with _ => _ end => assert (x = y) as ->; [|done] end.
    induction l as [|o l IH]; [done|]. rewrite fmap_cons. destruct o as [| |to r| | | |]; cbn; try exact IH.
    destruct (bool_decide _); [f_equal|]; exact IH. }
  destruct (accepted id outs); [|done]. owners. done.
Qed.

Lemma replace_reason_natural m e : replace_reason (replace_map f m) (em e) = replace_reason m e.
Proof.
  assert (replace_entry_reason (replace_map f m) (em e) = replace_entry_reason m e) as H1.
  { unfold replace_entry_reason. owners. change (cr_order_id (replace_map f m)) with (cr_order_id m).
    change (cr_new_order_id (replace_map f m)) with (cr_new_order_id m).
    assert (forall o : option (OrderState R), is_Some (sm <$> o) <-> is_Some o) as Hs by (intros; apply fmap_is_Some).
    rewrite (bool_decide_ext _ _ (Hs (e_states e !! cr_new_order_id m))). by destruct (e_states e !! cr_order_id m). }
  unfold replace_reason. rewrite H1. change (replace_value_reason (replace_map f m) (em e)) with (replace_value_reason m e).
  destruct (or_else _ _); [done|]. rewrite e_states_natural. by destruct (e_states e !! _).
Qed.

Lemma replace_reject_natural m reason e : replace_reject (replace_map f m) reason (em e) = em (replace_reject m reason e).
Proof. unfold replace_reject. owners. apply on_send_reject. Qed.

Lemma preflight_cancel_natural m e : preflight_cancel (cancel_map f m) (em e) = outcome_map em (preflight_cancel m e).
Proof.
  unfold preflight_cancel. owners. change (c_order_id (cancel_map f m)) with (c_order_id m).
  destruct (e_states e !! c_order_id m) as [st|]; simpl; [|done]. destruct (bool_decide _).
  - simpl. f_equal. apply on_send_reject.
  - eapply obind_natural; [apply remove_live_natural|]. intros [md e1]. cbn [prod_map fst snd]. rewrite e_states_natural.
    destruct (e_states e1 !! c_order_id m) as [st1|]; simpl; [|done]. f_equal. owners. reflexivity.
Qed.

Lemma replace_call_market_natural m old e :
  replace_call_market (replace_map f m) old (em e) = outcome_map em (replace_call_market m old e).
Proof.
  unfold replace_call_market. owners. change (cr_order_id (replace_map f m)) with (cr_order_id m).
  destruct (e_states e !! cr_order_id m) as [st|]; simpl; [|done].
  destruct ((_ >? 0) && _); [simpl; f_equal; apply replace_reject_natural|].
  apply obind_shared. intros tif. cbn [cr_new_quantity replace_map cr_client_replace_id cr_output_tx cr_new_order_id cum_qty state_map].
  set (q := if cr_new_quantity m >? 0 then _ else _).
  change (replaced_state (sm st) q ?t ?c (f ?x) ?a) with (sm (replaced_state st q t c x a)). owners.
  change (replacement_market old (replace_map f m) q ?t ?c) with (replacement_market old m q t c).
  simpl. f_equal. destruct (_ && _); owners; done.
Qed.

Lemma preflight_natural m e : preflight (msg_map f m) (em e) = outcome_map (prod_map (fun x => x) em) (preflight m e).
Proof.
  destruct m as [order tx|c|c]; cbn [preflight msg_map]; [done| |].
  - owners. change (c_order_id (cancel_map f c)) with (c_order_id c). destruct (_ || _); [|done].
    eapply obind_natural; [apply preflight_cancel_natural|done].
  - rewrite replace_reason_natural. apply obind_shared. intros [r|]; [simpl; by rewrite replace_reject_natural|]. owners.
    change (cr_order_id (replace_map f c)) with (cr_order_id c). destruct (e_call_markets e !! cr_order_id c) as [old|]; [|done].
    eapply obind_natural; [apply replace_call_market_natural|done].
Qed.

Lemma process_cancel_natural m e : process_cancel (cancel_map f m) (em e) = em (process_cancel m e).
Proof.
  unfold process_cancel. owners. change (c_order_id (cancel_map f m)) with (c_order_id m). change (c_sender (cancel_map f m)) with (c_sender m).
  change (cancel_event (cancel_map f m)) with (cancel_event m). change (c_output_tx (cancel_map f m)) with (f (c_output_tx m)).
  change (c_client_cancel_id (cancel_map f m)) with (c_client_cancel_id m).
  destruct (cancel_order_for _ _ _) as [[u|[]] b]; [| |by owners..].
  - owners. done.
  - destruct (stop_cancel_for _ _ _) as [[u|r] parked]; owners; done.
Qed.

Lemma fire_replacement_natural o e : fire_replacement o (em e) = outcome_map em (fire_replacement o e).
Proof.
  unfold fire_replacement. owners. destruct (stop_cancel_for _ _ _) as [[x|r] parked]; [|done]. owners.
  change (logging (em ?x)) with (logging x). apply obind_shared. intros [[rests exec] b]. apply cascade_and_report_natural.
Qed.

Lemma replace_stop_natural m tif arr e : replace_stop (replace_map f m) tif arr (em e) = outcome_map em (replace_stop m tif arr e).
Proof.
  unfold replace_stop. owners. cbn [replace_map cr_order_id cr_sender cr_new_order_id cr_client_replace_id cr_new_price cr_new_quantity
    cr_new_stop_price cr_output_tx].
  destruct (stop_replace_for _ _ _ _ _ _) as [[o|r] parked]; [|simpl; by rewrite replace_reject_natural].
  change (replacement_state o arr 0 0 (cr_client_replace_id m) (f (cr_output_tx m)))
    with (sm (replacement_state o arr 0 0 (cr_client_replace_id m) (cr_output_tx m))). owners.
  change (fires_now (em ?x) o) with (fires_now x o). destruct (fires_now _ o); [apply fire_replacement_natural|done].
Qed.

Lemma replace_resting_natural m tif arr e :
  replace_resting (replace_map f m) tif arr (em e) = outcome_map em (replace_resting m tif arr e).
Proof.
  unfold replace_resting. owners. cbn [replace_map cr_order_id cr_sender cr_new_order_id cr_client_replace_id cr_new_price cr_new_quantity
    cr_new_display_quantity cr_output_tx].
  destruct (replace_order _ _ _ _ _) as [[[o inc]|r] b]; [|exact (f_equal Done (replace_reject_natural m _ (set_book b e)))]. owners.
  assert (match sm <$> e_states (set_book b e) !! cr_order_id m with Some s => (cum_qty s, notional s) | None => (0, 0) end =
    match e_states (set_book b e) !! cr_order_id m with Some s => (cum_qty s, notional s) | None => (0, 0) end) as ->
    by (by destruct (e_states (set_book b e) !! cr_order_id m)).
  destruct (match e_states (set_book b e) !! cr_order_id m with Some s => _ | None => _ end) as [cum ntl].
  change (replacement_state o arr cum ntl (cr_client_replace_id m) (f (cr_output_tx m)))
    with (sm (replacement_state o arr cum ntl (cr_client_replace_id m) (cr_output_tx m))). owners.
  destruct (_ && _).
  - owners. apply obind_shared. intros orig. owners. done.
  - destruct (bool_decide _); owners; [done|]. apply obind_shared. intros [exec b']. apply obind_shared. intros [[[b2 parked] last] exec2].
    owners. done.
Qed.

Lemma process_replace_natural m arr e : process_replace (replace_map f m) arr (em e) = outcome_map em (process_replace m arr e).
Proof.
  unfold process_replace. owners. cbn [replace_map cr_new_time_in_force cr_order_id cr_sender].
  destruct (parse_replace_time_in_force _) as [tif|r]; [|simpl; by rewrite replace_reject_natural].
  match goal with |- match ?x with _ => _ end = outcome_map em (match ?y with _ => _ end) =>
    assert (x = y) as -> by (destruct (bool_decide _); [|done]; by destruct (e_states e !! _)) end.
  destruct (if bool_decide (tif = Some Gtd) then _ else _) as [r|]; [simpl; by rewrite replace_reject_natural|].
  destruct (stop_contains _ _); [apply replace_stop_natural|apply replace_resting_natural].
Qed.

Lemma order_reason_natural order e : order_reason order (em e) = order_reason order e.
Proof.
  unfold order_reason. owners. change (auctions_enabled (em e)) with (auctions_enabled e).
  change (order_value_reason order ?p (em e)) with (order_value_reason order p e).
  assert (forall parsed stp, order_entry_reason order parsed stp (em e) = order_entry_reason order parsed stp e) as H; [|by rewrite H].
  intros parsed stp. unfold order_entry_reason. owners. change (auctions_enabled (em e)) with (auctions_enabled e).
  assert (is_Some (sm <$> e_states e !! n_order_id order) <-> is_Some (e_states e !! n_order_id order)) as Hs by apply fmap_is_Some.
  by rewrite (bool_decide_ext _ _ Hs).
Qed.

Lemma acknowledge_natural o st e : acknowledge o (sm st) (em e) = em (acknowledge o st e).
Proof.
  unfold acknowledge, insert_state. owners. change (output_tx (sm st)) with (f (output_tx st)).
  change (accept_event (sm st)) with (accept_event st). owners. done.
Qed.

Lemma hold_order_natural o st e : hold_order o (sm st) (em e) = em (hold_order o st e).
Proof.
  unfold hold_order. cbv zeta. rewrite acknowledge_natural. owners. destruct (_ && _); [done|]. destruct (bool_decide _); [done|].
  destruct (add_order o _) as [md b]. owners. done.
Qed.

Lemma match_order_natural o st e : match_order o (sm st) (em e) = outcome_map em (match_order o st e).
Proof.
  unfold match_order, insert_state. owners. change (logging (em ?x)) with (logging x). apply obind_shared. intros [[rests exec] b].
  match goal with |- cascade_and_report b exec _ ?x = outcome_map em (cascade_and_report b exec _ ?y) => assert (x = em y) as -> end.
  { destruct rests; [|done]. set (e1 := on_desk _ _). destruct (e_states e1 !! order_id o) as [st'|]; [|done]. simpl.
    change (output_tx (sm st')) with (f (output_tx st')). change (accept_event (sm st')) with (accept_event st'). owners. done. }
  apply cascade_and_report_natural.
Qed.

Lemma accept_order_natural o st e : accept_order o (sm st) (em e) = outcome_map em (accept_order o st e).
Proof.
  unfold accept_order. owners. change (output_tx (sm st)) with (f (output_tx st)). change (fires_now (em e) o) with (fires_now e o).
  destruct (_ && (_ =? 0)); [simpl; f_equal; apply on_send_report_some|]. destruct (_ && negb _).
  - rewrite acknowledge_natural. owners. done.
  - destruct (_ || _); [simpl; by rewrite hold_order_natural|]. apply match_order_natural.
Qed.

Lemma process_order_natural order tx arr e : process_order order (f tx) arr (em e) = outcome_map em (process_order order tx arr e).
Proof.
  unfold process_order. rewrite order_reason_natural. owners.
  change (state_new order ?q (f tx) arr) with (sm (state_new order q tx arr)).
  destruct (order_reason order e); [simpl; f_equal; apply on_send_report_some|].
  apply obind_shared. intros [[s ty] tif]. apply obind_shared. intros [mode_ explicit]. cbv zeta.
  change (order_of order s ty tif mode_ (em e)) with (order_of order s ty tif mode_ e). apply accept_order_natural.
Qed.

Lemma process_natural m e : process (msg_map f m) (em e) = outcome_map em (process m e).
Proof.
  unfold process. eapply obind_natural; [apply tick_natural|]. intros e1. owners.
  eapply obind_natural; [apply preflight_natural|]. intros [done_ e2]. cbn [prod_map fst snd].
  eapply (obind_natural em em).
  - destruct done_; [done|]. destruct m as [order tx|c|c]; cbn [msg_map].
    + apply process_order_natural.
    + simpl. by rewrite process_cancel_natural.
    + apply process_replace_natural.
  - intros e3. owners. apply publish_indicative_natural.
Qed.

Lemma new_order_natural order tx e : new_order order (f tx) (em e) = outcome_map em (new_order order tx e).
Proof.
  unfold new_order. eapply obind_natural; [apply (process_natural (MOrder order tx))|]. intros e1. cbv zeta.
  change (outputs (e_desk (em e1))) with (output_map f <$> outputs (e_desk e1)). by rewrite bind_status_owner_natural, remember_status_natural.
Qed.

Lemma cancel_natural m e : cancel (cancel_map f m) (em e) = outcome_map em (cancel m e).
Proof.
  unfold cancel. eapply obind_natural; [apply (process_natural (MCancel m))|]. intros e1. by rewrite remember_outputs.
Qed.

Lemma cancel_replace_natural m e : cancel_replace (replace_map f m) (em e) = outcome_map em (cancel_replace m e).
Proof.
  unfold cancel_replace. eapply obind_natural; [apply (process_natural (MCancelReplace m))|]. intros e1. cbv zeta.
  change (outputs (e_desk (em e1))) with (output_map f <$> outputs (e_desk e1)).
  change (cr_new_order_id (replace_map f m)) with (cr_new_order_id m). change (cr_sender (replace_map f m)) with (cr_sender m).
  by rewrite bind_status_owner_natural, remember_status_natural.
Qed.
End owners.
