(* ===== verification/Digest.v ===== *)
(** * Digests of a run: reproducibility.rs

    The streams of business events, per symbol and over all, and the summary of
    a run. SHA-256 is a library: a parameter, whose incremental hasher is the
    bytes fed to it so far. *)

From Stdlib Require Import Ascii.
From S2P Require Import Prelude BTree Text Bytes Json Order Proto Reports EventLog Engine Canonical EngineOwners.

(** ** Definitions *)

(** [Sha256::digest]. *)
Class Sha256 := sha256_digest : list Z -> list Z.

(** What FIPS 180-4 fixes: 32 bytes. *)
Class Sha256Laws `{!Sha256} : Prop := {
  sha256_length b : length (sha256_digest b) = 32%nat;
  sha256_bytes b : Forall is_byte (sha256_digest b);
}.

(** [digest_hex]: two lowercase digits a byte. *)
Fixpoint digest_hex (bytes : list Z) : string :=
  match bytes with
  | [] => ""
  | b :: bytes => String (hex_char (b / 16)) (String (hex_char (b mod 16)) (digest_hex bytes))
  end.

Record EventDigest : Type := mkEventDigest { ed_count : Z; ed_sha256 : string }.

Record RunSummary : Type := mkRunSummary {
  rs_global : EventDigest;
  rs_symbols : list (string * EventDigest);
  rs_final_state : string;
}.

(** [Stream]: the count and what the hasher has been fed. *)
Record Stream : Type := mkStream { st_count : Z; st_fed : list Z }.

Definition stream_default : Stream := mkStream 0 (bytes_of CANONICAL_VERSION ++ [0]).

Definition stream_push (bytes : list Z) (s : Stream) : Stream := mkStream (add64 (st_count s) 1) (st_fed s ++ bytes).

(** [BusinessDigest]. *)
Record BusinessDigest : Type := mkBusinessDigest { bd_global : Stream; bd_symbols : list (string * Stream) }.

Definition digest_default : BusinessDigest := mkBusinessDigest stream_default [].

Section digest.
Context `{!Sha256} {R : Type} `{!Wire Report, !Wire TradeCapture, !Wire SessionStatus, !Wire AuctionInfo}.

(** [sha256]. *)
Definition sha256 (bytes : list Z) : string := digest_hex (sha256_digest bytes).

Definition stream_result (s : Stream) : EventDigest := mkEventDigest (st_count s) (sha256 (st_fed s)).

(** [BusinessDigest::observe]; the entry is made before the loop. *)
Definition observe (sym : string) (outs : list (Output R)) (d : BusinessDigest) : BusinessDigest :=
  let stream := default stream_default (bt_get sym (bd_symbols d)) in
  let '(global, stream) :=
    foldl (fun '(global, stream) o =>
             match canonical_event o with
             | Some bytes => (stream_push bytes global, stream_push bytes stream)
             | None => (global, stream)
             end) (bd_global d, stream) outs in
  mkBusinessDigest global (bt_insert sym stream (bd_symbols d)).

(** [BusinessDigest::summary]. *)
Definition digest_summary (state : list Z) (d : BusinessDigest) : RunSummary :=
  mkRunSummary (stream_result (bd_global d)) (prod_map id stream_result <$> bd_symbols d) (sha256 state).

End digest.

(** [RunSummary::json]. *)
Definition digest_json (d : EventDigest) : Json :=
  json_object [("count", json_number (ed_count d)); ("sha256", JString (ed_sha256 d))]%string.

Definition summary_json (s : RunSummary) : Json :=
  json_object
    [("canonical_version", JString CANONICAL_VERSION); ("state_version", JString STATE_VERSION); ("global", digest_json (rs_global s));
     ("symbols", json_object (prod_map id digest_json <$> rs_symbols s)); ("final_state_sha256", JString (rs_final_state s))]%string.

(** [require]. *)
Definition require_text (key expected : string) (j : Json) : result unit string :=
  match json_get key j with
  | Err e => Err e
  | Ok v =>
    match json_text v with
    | Err e => Err e
    | Ok found =>
      if bool_decide (found <> expected)
      then Err ("bundle " ++ key ++ " mismatch: expected " ++ expected ++ ", found " ++ found)%string else Ok tt
    end
  end.

(** The hash check of [validate_expected]. *)
Definition is_lower_hex (c : ascii) : bool :=
  let b := Z.of_N (N_of_ascii c) in between 48 b 57 || between 97 b 102.

Definition check_hash (s : string) : result unit string :=
  if ((String.length s =? 64)%nat && all_chars is_lower_hex s)%bool then Ok tt else Err "invalid SHA-256 value"%string.

(** [?] on a result. *)
Definition rbind {A B E : Type} (m : result A E) (k : A -> result B E) : result B E :=
  match m with Ok a => k a | Err e => Err e end.

Notation "'try*' x ':=' m 'in' k" := (rbind m (fun x => k)) (at level 10, x name, m at level 100, k at level 200) : fxp_scope.

Definition check_digest (j : Json) : result unit string :=
  try* count := json_get "count" j in
  try* _u := match count with
             | JNumber n => if bool_decide (is_Some (parse_u64 n)) then Ok tt else Err "invalid event count"%string
             | _ => Err "invalid event count"%string
             end in
  try* h := json_get "sha256" j in
  try* t := json_text h in
  check_hash t.

Fixpoint check_digests (m : list (string * Json)) : result unit string :=
  match m with
  | [] => Ok tt
  | (_, d) :: m => try* _u := check_digest d in check_digests m
  end.

(** [validate_expected]. *)
Definition validate_expected (j : Json) : result unit string :=
  try* _a := require_text "canonical_version" CANONICAL_VERSION j in
  try* _b := require_text "state_version" STATE_VERSION j in
  try* g := json_get "global" j in
  try* _c := check_digest g in
  try* syms := json_get "symbols" j in
  match syms with
  | JObject m =>
    try* _d := check_digests m in
    try* h := json_get "final_state_sha256" j in
    try* t := json_text h in
    check_hash t
  | _ => Err "invalid expected symbols"%string
  end.
