(* ===== verification/Trace.v ===== *)
(** * The inspection trace: reproducibility/trace.rs

    [Collector::capture] turns one input, what the engine answered and its
    diagnostics into rows of JSON: the command, then the diagnostics and the
    business events in order, each with the owner it belongs to. *)

From S2P Require Import Prelude BTree Text Bytes Json Order Proto Reports EventLog Engine Canonical Digest.

#[local] Open Scope string_scope.
#[local] Open Scope Z_scope.
#[local] Open Scope list_scope.

(** ** Definitions *)

Definition TRACE_VERSION : string := "fxp-trace-v1".

(** [text]: the empty string unless the key has a string. *)
Definition trace_text (key : string) (j : Json) : string :=
  match json_get key j with Ok v => match json_text v with Ok s => s | Err _ => ""%string end | Err _ => ""%string end.

(** [number]. *)
Definition trace_number (key : string) (j : Json) : Z :=
  match json_get key j with Ok (JNumber s) => default 0 (parse_u64 s) | _ => 0 end.

(** [m.insert] on an object under construction. *)
Definition put (k : string) (v : Json) (j : Json) : Json :=
  match j with JObject m => JObject (bt_insert k v m) | _ => j end.

Definition text_fields (l : list (string * string)) : list (string * Json) := prod_map id JString <$> l.
Definition number_fields (l : list (string * Z)) : list (string * Json) := prod_map id json_number <$> l.

Section command.
Context `{!Wire NewOrderSingle, !Wire OrderCancelRequest, !Wire OrderCancelReplaceRequest, !Wire OrderMassCancelRequest, !Wire SessionControl}.

(** The fields of [command], in the order they are inserted. *)
Definition command_fields (i : Input) : list (string * Json) :=
  match i with
  | INew o =>
    text_fields [("kind", "new"); ("order_id", n_order_id o); ("owner", n_sender o); ("client_order_id", n_client_order_id o);
                 ("expire_date", n_expire_date o); ("account", n_account o); ("stp_group", n_stp_group o)] ++
    number_fields [("price", n_price o); ("quantity", n_quantity o); ("side", n_side o); ("order_type", n_order_type o);
                   ("time_in_force", n_time_in_force o); ("stop_price", n_stop_price o);
                   ("display_quantity", n_display_quantity o); ("stp_mode", n_stp_mode o)]
  | ICancel o =>
    text_fields [("kind", "cancel"); ("order_id", oc_order_id o); ("owner", oc_sender o); ("client_order_id", oc_client_cancel_id o)]
  | IReplace o =>
    text_fields [("kind", "replace"); ("order_id", or_order_id o); ("new_order_id", or_new_order_id o); ("owner", or_sender o);
                 ("client_order_id", or_client_replace_id o)] ++
    number_fields [("new_price", or_new_price o); ("new_quantity", or_new_quantity o); ("new_stop_price", or_new_stop_price o);
                   ("new_time_in_force", or_new_time_in_force o)] ++
    [("new_display_quantity", match or_new_display_quantity o with Some n => json_number n | None => JNull end)]
  | IMassCancel o =>
    text_fields [("kind", "mass_cancel"); ("owner", om_sender o); ("client_order_id", om_client_request_id o)] ++
    number_fields [("side", om_side o); ("reason", om_reason o)]
  | ITick => text_fields [("kind", "tick")]
  | ISubscribe => text_fields [("kind", "subscribe")]
  | ISessionControl o => text_fields [("kind", "session_control")] ++ number_fields [("opening_call_seconds", sc_opening_call_seconds o)]
  end.

(** [command]. *)
Definition command (i : Input) : Json := json_object (command_fields i ++ [("protobuf_hex", JString (digest_hex (input_encode i).2))]).
End command.

Record Collector : Type := mkCollector {
  cl_rows : list Json;
  cl_command_time : option Time;
  cl_phases : list (string * Z);
  cl_identities : gmap (string * string) (string * string);
}.

Definition collector_default : Collector := mkCollector [] None [] ∅.

Definition push_row (r : Json) (c : Collector) : Collector := mkCollector (cl_rows c ++ [r]) (cl_command_time c) (cl_phases c) (cl_identities c).
Definition set_identity (k v : string * string) (c : Collector) : Collector :=
  mkCollector (cl_rows c) (cl_command_time c) (cl_phases c) (<[k := v]> (cl_identities c)).
Definition set_phase_of (sym : string) (p : Z) (c : Collector) : Collector :=
  mkCollector (cl_rows c) (cl_command_time c) (bt_insert sym p (cl_phases c)) (cl_identities c).

Definition time_json (s n : Z) : Json := json_object [("seconds", json_number s); ("nanos", json_number n)]%string.

(** [row]. *)
Definition trace_row (seq index : Z) (sym kind id : string) (data : Json) (canonical : option (list Z)) (c : Collector) : Json :=
  let '(owner, client) := default ("", "")%string (cl_identities c !! (sym, id)) in
  json_object
    [("global_seq", json_number seq);
     ("command_time", match cl_command_time c with Some t => time_json (seconds t) (nanos t) | None => JNull end);
     ("event_index", json_number index); ("symbol", JString sym); ("kind", JString kind); ("order_id", JString id);
     ("owner", JString owner); ("client_order_id", JString client); ("data", data);
     ("canonical_hex", match canonical with Some b => JString (digest_hex b) | None => JNull end)]%string.

(** Rows of diagnostics: those that only give context are not rows, and an
    acceptance that has its own report is not one either. *)
Definition is_context (d : Diagnostic) : bool :=
  bool_decide (dg_kind d = "fill_context"%string) || bool_decide (dg_kind d = "cancel_context"%string)
  || bool_decide (dg_kind d = "stp_context"%string).

Definition is_accept (d : Diagnostic) : bool := bool_decide (dg_kind d = "order_accepted"%string).

Definition diagnostic_data (d : Diagnostic) : Json :=
  let data := json_object [("cause", JString (dg_cause d))]%string in
  let data := if bool_decide (dg_kind d = "iceberg_refresh"%string) then put "quantity" (json_number (dg_quantity d)) data else data in
  if is_accept d then put "leaves_quantity" (json_number (dg_quantity d)) (put "order_quantity" (json_number (dg_quantity d)) data) else data.

(** [find] on the diagnostics of a position. *)
Definition find_context (kind id : string) (ds : list Diagnostic) : option Diagnostic :=
  List.find (fun d => bool_decide (dg_kind d = kind) && bool_decide (dg_order_id d = id)) ds.

Definition report_kind (r : Report) : string :=
  if execution_type r =? exec_type_code ExecNew then "accepted"
  else if execution_type r =? exec_type_code ExecFilled then "fill"
  else if execution_type r =? exec_type_code ExecRejected then "rejected"
  else if execution_type r =? exec_type_code ExecReplaced then "replaced"
  else if execution_type r =? exec_type_code ExecExpired then "expired"
  else if execution_type r =? exec_type_code ExecCanceled then "canceled"
  else if execution_type r =? exec_type_code ExecRestated then "restated"
  else "execution_report".

(** Why a report was sent. *)
Definition report_cause (input : Input) (ds : list Diagnostic) (r : Report) : string :=
  let kind := report_kind r in
  if bool_decide (reject_reason_text r <> ""%string) then reject_reason_text r
  else if bool_decide (kind = "expired"%string) then "expiry"
  else match find_context "cancel_context" (rep_order_id r) ds with
       | Some d => dg_cause d
       | None =>
         if bool_decide (kind = "canceled"%string) then
           match input with
           | ICancel c => if bool_decide (oc_order_id c = rep_order_id r) then "user"%string else "cause not recorded"%string
           | _ => "cause not recorded"%string
           end
         else ""%string
       end.

Definition report_data (cmd : Json) (input : Input) (ds : list Diagnostic) (r : Report) : Json :=
  let kind := report_kind r in
  let context := find_context "fill_context" (rep_order_id r) ds in
  json_object
    [("execution_id", JString (execution_id r)); ("orig_order_id", JString (orig_order_id r));
     ("new_order_id", JString (if bool_decide (kind = "replaced"%string) then trace_text "new_order_id" cmd else ""));
     ("client_order_id", JString (rep_client_order_id r)); ("price", json_number (execution_price r));
     ("quantity", json_number (executed_quantity r)); ("leaves_quantity", json_number (leaves_quantity r));
     ("order_quantity", json_number (order_quantity r)); ("cause", JString (report_cause input ds r));
     ("role", JString (match context with Some d => dg_role d | None => if auction r then "auction" else "not recorded" end));
     ("counterparty", JString (match context with Some d => dg_counterparty d | None => "" end));
     ("auction", JBool (auction r))]%string.

Section capture.
Context {R : Type} `{!Wire Report, !Wire TradeCapture, !Wire SessionStatus, !Wire AuctionInfo}.
Context `{!Wire NewOrderSingle, !Wire OrderCancelRequest, !Wire OrderCancelReplaceRequest, !Wire OrderMassCancelRequest, !Wire SessionControl}.

(** A business event: its kind, order, data and time. *)
Definition event_parts (cmd : Json) (input : Input) (ds : list Diagnostic) (o : Output R) : option (string * string * Json * Timestamp) :=
  match o with
  | OExecutionReport _ r => Some (report_kind r, rep_order_id r, report_data cmd input ds r, rep_timestamp r)
  | OTrade t =>
    Some ("trade", ""%string,
          json_object [("trade_id", JString (trade_id t)); ("price", json_number (tr_price t)); ("quantity", json_number (tr_quantity t));
                       ("auction", JBool (is_auction t))], tr_timestamp t)%string
  | OTradingSessionStatus m => Some ("phase", ""%string, json_object [("phase", json_number (ss_phase m))], ss_timestamp m)%string
  | OAuctionInfo m =>
    Some ("auction", ""%string,
          json_object [("price", json_number (indicative_price m)); ("quantity", json_number (indicative_volume m))], ai_timestamp m)%string
  | _ => None
  end.

Definition has_new_report (id : string) (outs : list (Output R)) : bool :=
  existsb (fun o => match o with
                    | OExecutionReport _ r => bool_decide (rep_order_id r = id) && (execution_type r =? exec_type_code ExecNew)
                    | _ => false
                    end) outs.

(** The rows of the diagnostics at one position, with the next index. *)
Definition diagnostic_rows (seq : Z) (sym : string) (outs : list (Output R)) (ds : list Diagnostic) (c : Collector) (index : Z)
    : Collector * Z :=
  foldl (fun '(c, index) d =>
           if is_context d || (is_accept d && has_new_report (dg_order_id d) outs) then (c, index)
           else (push_row (trace_row seq index sym (if is_accept d then "accepted" else dg_kind d) (dg_order_id d) (diagnostic_data d) None c) c,
                 add64 index 1)) (c, index) ds.

(** The row of the output at one position. *)
Definition event_row (seq : Z) (sym owner : string) (cmd : Json) (input : Input) (ds : list Diagnostic) (o : Output R) (c : Collector) (index : Z)
    : Collector * Z :=
  match canonical_event o, event_parts cmd input ds o with
  | Some canonical, Some (kind, id, data, at_) =>
    let c := match o with OTradingSessionStatus m => set_phase_of sym (ss_phase m) c | _ => c end in
    let data := match bt_get sym (cl_phases c) with
                | Some p => if bool_decide (kind = "accepted"%string) then put "session_phase" (json_number p) data else data
                | None => data
                end in
    let data := match find_context "stp_context" id ds with Some d => put "opposing_order" (JString (dg_counterparty d)) data | None => data end in
    let data := put "business_time" (time_json (ts_seconds at_) (ts_nanos at_)) data in
    let row := trace_row seq index sym kind id data (Some canonical) c in
    let row := match o with
               | OExecutionReport _ r =>
                 let row := put "client_order_id" (JString (rep_client_order_id r)) row in
                 if bool_decide (kind = "rejected"%string) then put "owner" (JString owner) row else row
               | _ => row
               end in
    (push_row row c, add64 index 1)
  | _, _ => (c, index)
  end.

(** What the whole command has in common. *)
Record Command : Type := mkCommand { cm_json : Json; cm_input : Input; cm_candidate : string; cm_replace_at : option nat }.

Definition is_replace (i : Input) : bool := match i with IReplace _ => true | _ => false end.

(** [position] of the report that the replaced order is gone. *)
Fixpoint replaced_position (id : string) (outs : list (Output R)) : option nat :=
  match outs with
  | [] => None
  | o :: outs =>
    if match o with
       | OExecutionReport _ r => bool_decide (rep_order_id r = id) && (execution_type r =? exec_type_code ExecReplaced)
       | _ => false
       end
    then Some O else S <$> replaced_position id outs
  end.

Definition capture_command (input : Input) (outs : list (Output R)) : Command :=
  let cmd := command input in
  let id := trace_text "order_id" cmd in
  mkCommand cmd input (if is_replace input then trace_text "new_order_id" cmd else id)
    (if is_replace input then replaced_position id outs else None).

(** One position of the loop: identities, diagnostics, then the output there. *)
Definition capture_at (seq : Z) (sym : string) (k : Command) (outs : list (Output R)) (diagnostics : list Diagnostic) (i : nat)
    (c : Collector) (index : Z) : Collector * Z :=
  let owner := trace_text "owner" (cm_json k) in
  let client := trace_text "client_order_id" (cm_json k) in
  let c := if bool_decide (cm_replace_at k = Some i) then set_identity (sym, cm_candidate k) (owner, client) c else c in
  let ds := List.filter (fun d => (output_index d =? i)%nat) diagnostics in
  let c := if existsb (fun d => is_accept d && bool_decide (dg_order_id d = cm_candidate k)) ds
           then set_identity (sym, cm_candidate k) (owner, client) c else c in
  let '(c, index) := diagnostic_rows seq sym outs ds c index in
  match outs !! i with
  | Some o => event_row seq sym owner (cm_json k) (cm_input k) ds o c index
  | None => (c, index)
  end.

(** Orders that are over at the end of the command, by their last report. *)
Definition ends_order (r : Report) : bool :=
  (order_status r =? order_status_code OrderFilled) || (order_status r =? order_status_code OrderCanceled)
  || (order_status r =? order_status_code OrderExpired) || (order_status r =? order_status_code OrderReplaced).

Definition terminal_orders (outs : list (Output R)) : list (string * bool) :=
  foldl (fun m o => match o with
                    | OExecutionReport _ r =>
                      if execution_type r =? exec_type_code ExecRejected then m else bt_insert (rep_order_id r) (ends_order r) m
                    | _ => m
                    end) [] outs.

Definition forget_terminal (sym : string) (outs : list (Output R)) (c : Collector) : Collector :=
  mkCollector (cl_rows c) (cl_command_time c) (cl_phases c)
    (foldl (fun m (x : string * bool) => if x.2 then delete (sym, x.1) m else m) (cl_identities c) (terminal_orders outs)).

(** [Collector::capture]. *)
Definition capture (seq : Z) (sym : string) (at_ : Time) (input : Input) (outs : list (Output R)) (diagnostics : list Diagnostic) (c : Collector)
    : Collector :=
  let c := mkCollector (cl_rows c) (Some at_) (cl_phases c) (cl_identities c) in
  let k := capture_command input outs in
  let received := trace_row seq 0 sym "command_received" (trace_text "order_id" (cm_json k)) (cm_json k) None c in
  let received := put "client_order_id" (JString (trace_text "client_order_id" (cm_json k)))
                    (put "owner" (JString (trace_text "owner" (cm_json k))) received) in
  let '(c, _) := foldl (fun '(c, index) i => capture_at seq sym k outs diagnostics i c index) (push_row received c, 1) (List.seq 0 (S (length outs))) in
  forget_terminal sym outs c.
End capture.
