(* ===== verification/Recording.v ===== *)
(** * Recorded run bundles: [Recording] of reproducibility.rs

    A bundle is a directory of files. The file system keeps, for every file,
    what has been written and how much of it is durable, and for the directory
    the entries a crash may fall back to. A write of several steps is the list
    of its operations, so that it can be stopped after any of them. *)

From S2P Require Import Prelude BTree Text Bytes Json Order Session SymbolConfig Proto Reports EventLog Canonical Digest Trace.

(** ** Definitions *)

(** *** Files *)

Record File : Type := mkFile { f_written : list Z; f_durable : nat }.

(** Entries name files by number; [fs_durable] is the directory that is on disk. *)
Record Fs : Type := mkFs { fs_files : list File; fs_dir : gmap string nat; fs_durable : gmap string nat }.

Definition fs_empty : Fs := mkFs [] ∅ ∅.

Inductive FsOp : Type :=
| CreateNew (name : string)
| WriteAll (name : string) (bytes : list Z)
| SyncFile (name : string)
| Rename (from to : string)
| SyncDir.

Definition fs_lookup (name : string) (fs : Fs) : option File := n ← fs_dir fs !! name; fs_files fs !! n.

Definition fs_read (name : string) (fs : Fs) : option (list Z) := f_written <$> fs_lookup name fs.

Definition fs_update (name : string) (g : File -> File) (fs : Fs) : option Fs :=
  match fs_dir fs !! name with
  | Some n => Some (mkFs (alter g n (fs_files fs)) (fs_dir fs) (fs_durable fs))
  | None => None
  end.

(** One operation; [None] is an error of the operating system. *)
Definition fs_step (op : FsOp) (fs : Fs) : option Fs :=
  match op with
  | CreateNew name =>
    match fs_dir fs !! name with
    | Some _ => None
    | None => Some (mkFs (fs_files fs ++ [mkFile [] 0]) (<[name := length (fs_files fs)]> (fs_dir fs)) (fs_durable fs))
    end
  | WriteAll name bytes => fs_update name (fun f => mkFile (f_written f ++ bytes) (f_durable f)) fs
  | SyncFile name => fs_update name (fun f => mkFile (f_written f) (length (f_written f))) fs
  | Rename from to =>
    match fs_dir fs !! from with
    | Some n => Some (mkFs (fs_files fs) (<[to := n]> (delete from (fs_dir fs))) (fs_durable fs))
    | None => None
    end
  | SyncDir => Some (mkFs (fs_files fs) (fs_dir fs) (fs_dir fs))
  end.

(** The operations one after the other, [budget] of them at most: where an error
    or a crash stops them. *)
Fixpoint fs_run (budget : nat) (ops : list FsOp) (fs : Fs) : bool * Fs :=
  match ops with
  | [] => (true, fs)
  | op :: ops =>
    match budget with
    | O => (false, fs)
    | S budget => match fs_step op fs with Some fs => fs_run budget ops fs | None => (false, fs) end
    end
  end.

(** What may be found after a crash: for every name the entry that was on disk or
    the last one, and of every file the durable part and some of the rest. *)
Definition crashed (fs : Fs) (name : string) (found : option (list Z)) : Prop :=
  exists entry, (entry = fs_dir fs !! name \/ entry = fs_durable fs !! name) /\
    match entry with
    | None => found = None
    | Some n => exists f k, fs_files fs !! n = Some f /\ (f_durable f <= k)%nat /\ found = Some (take k (f_written f))
    end.

(** *** [Recording] *)

(** [atomic_write]. *)
Definition tmp_name (name : string) : string := ("." ++ name ++ ".tmp")%string.

Definition atomic_write (name : string) (bytes : list Z) : list FsOp :=
  [CreateNew (tmp_name name); WriteAll (tmp_name name) bytes; SyncFile (tmp_name name); Rename (tmp_name name) name; SyncDir].

(** [wall_time]: seconds and nine digits of nanoseconds. *)
Fixpoint print_padded (width : nat) (n : Z) : string :=
  match width with O => "" | S w => String (digit_char (n / 10 ^ Z.of_nat w mod 10)) (print_padded w n) end.

Definition wall_time (secs subsec_nanos : Z) : string := (print_dec secs ++ "." ++ print_padded 9 subsec_nanos)%string.

(** What the build fixes: version, commit and the protocol schema. *)
Class Build := { fxp_version : string; git_sha : string; schema_bytes : list Z }.

Definition BUNDLE_VERSION : string := "fxp-run-v1".

Record Recording : Type := mkRecording { rc_fs : Fs; rc_manifest : Json; rc_finished : bool; rc_trace_failed : bool }.

Section recording.
Context `{!Sha256, !Build}.

#[local] Open Scope string_scope.
#[local] Open Scope Z_scope.
#[local] Open Scope list_scope.

Definition manifest_of (schedule : option SessionSchedule) (stp : StpMode) (config : SymbolConfig) (meta : Json) (now : string) : Json :=
  json_object
    [("bundle_format", JString BUNDLE_VERSION); ("canonical_version", JString CANONICAL_VERSION); ("state_version", JString STATE_VERSION);
     ("fxp_version", JString fxp_version); ("git_sha", JString git_sha); ("proto_schema_sha256", JString (sha256 schema_bytes));
     ("replay_version", JString REPLAY_VERSION); ("symbol_config_file", JString "symbols.csv");
     ("symbol_config_sha256", JString (sha256 (bytes_of (canonical config))));
     ("session_schedule", match schedule with Some s => JString (show_schedule s) | None => JNull end);
     ("stp_default", JString (stp_mode_as_str stp)); ("meta", meta); ("start_time", JString now); ("end_time", JNull);
     ("complete", JBool false); ("commands_sha256", JNull); ("trace_version", JString TRACE_VERSION); ("trace_sha256", JNull)].

(** [Recording::create]; [existing] is whether the directory is there already. *)
Definition recording_create (existing : bool) (budget : nat) (schedule : option SessionSchedule) (stp : StpMode) (config : SymbolConfig)
    (meta now : string) : outcome (result Recording string) :=
  if 4194304 <? Z.of_nat (String.length meta) then Done (Err "FXP_RUN_META_JSON exceeds 4 MiB size limit")
  else
    let* parsed := json_parse meta in
    match parsed with
    | Err e => Done (Err e)
    | Ok (JObject m) =>
      if existing then Done (Err "File exists")
      else
        let manifest := manifest_of schedule stp config (JObject m) now in
        let* check := json_parse (json_encode manifest) in
        match check with
        | Err e => Done (Err e)
        | Ok _ =>
          let ops := [CreateNew ".recording.lock"; CreateNew "events.jsonl"] ++ atomic_write "symbols.csv" (bytes_of (canonical config))
                     ++ atomic_write "manifest.json" (bytes_of (json_encode manifest)) in
          match fs_run budget ops fs_empty with
          | (true, fs) => Done (Ok (mkRecording fs manifest false false))
          | (false, _) => Done (Err "write failed")
          end
        end
    | Ok _ => Done (Err "FXP_RUN_META_JSON must be a JSON object")
    end.

(** [append_trace]; the disk may take only the first bytes. *)
Definition trace_bytes (rows : list Json) : list Z := rows ≫= (fun row => bytes_of (json_encode row) ++ [10]).

Definition append_trace (rows : list Json) (disk : DiskWrite) (r : Recording) : result unit string * Recording :=
  if rc_trace_failed r then (Err "recorded trace failed", r)
  else
    let '(ok, bytes) := match disk with Synced => (true, trace_bytes rows) | Torn n => (false, take n (trace_bytes rows)) end in
    match fs_step (WriteAll "events.jsonl" bytes) (rc_fs r) with
    | Some fs => (if ok then Ok tt else Err "write failed", mkRecording fs (rc_manifest r) (rc_finished r) (negb ok))
    | None => (Err "write failed", mkRecording (rc_fs r) (rc_manifest r) (rc_finished r) true)
    end.

(** The manifest of a finished run. *)
Definition finished_manifest (hash trace_hash now : string) (manifest : Json) : Json :=
  put "complete" (JBool true) (put "end_time" (JString now) (put "trace_sha256" (JString trace_hash)
    (put "commands_sha256" (JString hash) manifest))).

Definition expected_ops (summary : RunSummary) : list FsOp :=
  [SyncFile "events.jsonl"] ++ atomic_write "expected.json" (bytes_of (json_encode (summary_json summary))).

Definition publish_ops (manifest : Json) : list FsOp := atomic_write "manifest.json" (bytes_of (json_encode manifest)).

(** [Recording::finish]; [log] is the content of commands.log. *)
Definition recording_finish (budget : nat) (log : list Z) (summary : RunSummary) (now : string) (r : Recording)
    : result unit string * Recording :=
  if rc_finished r then (Ok tt, r)
  else if rc_trace_failed r then (Err "recorded trace failed; bundle remains incomplete", r)
  else
    match fs_read "events.jsonl" (rc_fs r) with
    | None => (Err "No such file or directory", r)
    | Some trace =>
      match fs_run budget (expected_ops summary) (rc_fs r) with
      | (false, fs) => (Err "write failed", mkRecording fs (rc_manifest r) false false)
      | (true, fs) =>
        let manifest := finished_manifest (sha256 log) (sha256 trace) now (rc_manifest r) in
        match fs_run (budget - length (expected_ops summary)) (publish_ops manifest) fs with
        | (false, fs) => (Err "write failed", mkRecording fs manifest false false)
        | (true, fs) => (Ok tt, mkRecording fs manifest true false)
        end
      end
    end.
End recording.
