(* ===== verification/Journal.v ===== *)
(** * The journal: [Journal] of event_log.rs

    Every input is appended to the log and made durable, then executed on the
    engine of its symbol, which is made on first use. The engines share one clock
    and one counter of execution ids; both are handed to the engine that runs and
    the counter is taken back. *)

From S2P Require Import Prelude BTree Text Bytes Json Order OrderBook Matcher Stops Session SymbolConfig Auction Proto Reports EventLog Engine.
From S2P Require Import Canonical Digest Trace Recording.

(** ** Definitions *)

Record Journal (R : Type) : Type := mkJournal {
  j_log : EventLog;
  j_digest : BusinessDigest;
  j_inspection : option Collector;
  j_recording : option Recording;
  j_engines : gmap string (Engine R Z);
  j_ids : Z;
  j_schedule : option SessionSchedule;
  j_stp_default : StpMode;
  j_detached : R;
  j_config : SymbolConfig;
}.
Arguments mkJournal {R}.
Arguments j_log {R}.
Arguments j_digest {R}.
Arguments j_inspection {R}.
Arguments j_recording {R}.
Arguments j_engines {R}.
Arguments j_ids {R}.
Arguments j_schedule {R}.
Arguments j_stp_default {R}.
Arguments j_detached {R}.
Arguments j_config {R}.

(** A journal before its first input. *)
Definition journal_new {R : Type} (log : EventLog) (inspection : option Collector) (recording : option Recording)
    (schedule : option SessionSchedule) (stp : StpMode) (detached : R) (config : SymbolConfig) : Journal R :=
  mkJournal log digest_default inspection recording ∅ 1 schedule stp detached config.

(** [take_diagnostics]. *)
Definition take_diagnostics {R I : Type} (e : Engine R I) : list Diagnostic * Engine R I :=
  let d := e_desk e in
  (default [] (diagnostics d), set_desk (mkDesk (ids d) (states d) (trade_seq d) ((fun _ => []) <$> diagnostics d) (outputs d)) e).

(** The engine with the shared clock and counter. *)
Definition with_shared {R : Type} (at_ : Time) (i : Z) (e : Engine R Z) : Engine R Z :=
  on_desk (set_ids i) (set_timers at_ (e_call_until e) (e_last_seen e) (e_next_arrival e) e).

(** The engine of a symbol, made on first use. *)
Definition engine_for {R : Type} (sym : string) (at_ : Time) (j : Journal R) : Engine R Z :=
  match j_engines j !! sym with
  | Some e => e
  | None =>
    let e := engine_new sym at_ (j_ids j) (j_schedule j) (j_stp_default j) (config_get (j_config j) sym) in
    match j_inspection j with Some _ => with_diagnostics e | None => e end
  end.

(** The [match] on the input. *)
Definition dispatch {R : Type} (input : Input) (owner : R) (e : Engine R Z) : outcome (Engine R Z) :=
  match input with
  | INew order => new_order order owner e
  | ICancel m => cancel (mkCancelMsg (oc_order_id m) (oc_sender m) (oc_client_cancel_id m) owner) e
  | IReplace m =>
    cancel_replace (mkCancelReplaceMsg (or_order_id m) (or_sender m) (or_new_order_id m) (or_client_replace_id m) (or_new_price m)
      (or_new_quantity m) (or_new_time_in_force m) (or_new_stop_price m) (or_new_display_quantity m) owner) e
  | ITick => tick e
  | ISubscribe => engine_subscribe owner e
  | IMassCancel m => mass_cancel (mkMassCancelMsg (om_sender m) (om_side m) (om_reason m)) e
  | ISessionControl m => begin_opening_call (sc_opening_call_seconds m) e
  end.

Section journal.
Context `{!Sha256, !Build} {R : Type}.
Context `{!Wire Report, !Wire TradeCapture, !Wire SessionStatus, !Wire AuctionInfo}.
Context `{!Wire NewOrderSingle, !Wire OrderCancelRequest, !Wire OrderCancelReplaceRequest, !Wire OrderMassCancelRequest, !Wire SessionControl}.
Context `{!Wire LogRecord}.
Implicit Types (j : Journal R).

(** [Journal::execute]: the outputs leave the engine. *)
Definition execute (sym : string) (at_ : Time) (input : Input) (owner : R) j : outcome (list (Output R) * Journal R) :=
  let* e := dispatch input owner (with_shared at_ (j_ids j) (engine_for sym at_ j)) in
  let outs := outputs (e_desk e) in
  let '(diags, e) := take_diagnostics (fresh e) in
  let seq := match j_recording j with Some _ => next_seq (j_log j) - 1 | None => next_seq (j_log j) end in
  Done (outs, mkJournal (j_log j) (observe sym outs (j_digest j)) (capture seq sym at_ input outs diags <$> j_inspection j) (j_recording j)
                (<[sym := e]> (j_engines j)) (ids (e_desk e)) (j_schedule j) (j_stp_default j) (j_detached j) (j_config j)).

(** Replay of records: [Input::decode], then [execute] for no connection. *)
Definition execute_record (r : LogRecord) j : outcome (result (list (Output R) * Journal R) string) :=
  match input_decode r with
  | Err e => Done (Err e)
  | Ok input => let* x := execute (lr_symbol r) (mkTime (lr_seconds r) (lr_nanos r)) input (j_detached j) j in Done (Ok x)
  end.

Fixpoint execute_records (rs : list LogRecord) j : outcome (result (Journal R) string) :=
  match rs with
  | [] => Done (Ok j)
  | r :: rs =>
    let* x := execute_record r j in
    match x with
    | Err e => Done (Err e)
    | Ok (_, j) => execute_records rs j
    end
  end.

(** [Journal::open_configured] on the bytes of the log. *)
Definition journal_open (schedule : option SessionSchedule) (stp : StpMode) (detached : R) (config : SymbolConfig) (file : list Z)
    : outcome (result (Journal R) string) :=
  let* opened := open_log schedule stp config file in
  match opened with
  | Err e => Done (Err e)
  | Ok (log, records) => execute_records records (journal_new log None None schedule stp detached config)
  end.

Definition set_log (log : EventLog) j : Journal R :=
  mkJournal log (j_digest j) (j_inspection j) (j_recording j) (j_engines j) (j_ids j) (j_schedule j) (j_stp_default j) (j_detached j) (j_config j).

Definition set_recording (inspection : option Collector) (recording : option Recording) j : Journal R :=
  mkJournal (j_log j) (j_digest j) inspection recording (j_engines j) (j_ids j) (j_schedule j) (j_stp_default j) (j_detached j) (j_config j).

(** [Journal::record]; the log of a new bundle is empty. *)
Definition journal_record (existing : bool) (budget : nat) (schedule : option SessionSchedule) (stp : StpMode) (detached : R)
    (config : SymbolConfig) (meta now : string) : outcome (result (Journal R) string) :=
  let* created := recording_create existing budget schedule stp config meta now in
  match created with
  | Err e => Done (Err e)
  | Ok recording =>
    let* opened := journal_open schedule stp detached config [] in
    match opened with
    | Err e => Done (Err e)
    | Ok j => Done (Ok (set_recording (Some collector_default) (Some recording) j))
    end
  end.

(** [symbols] and [Journal::canonical_state]. *)
Definition journal_state j : list Z :=
  w_text STATE_VERSION ++ w_u64 (j_ids j) ++ w_list (fun x => w_text x.1 ++ w_bytes (canonical_state x.2)) (bt_of_map (j_engines j)).

(** [Journal::summary]. *)
Definition journal_summary j : RunSummary := digest_summary (journal_state j) (j_digest j).

(** [Journal::apply]; the two disks are those of the log and of the trace. *)
Definition apply (sym : string) (at_ : Time) (input : Input) (owner : R) (disk trace : DiskWrite) j
    : outcome (result (list (Output R)) string * Journal R) :=
  if match j_recording j with Some r => rc_finished r | None => false end
  then Done (Err "recorded run is finalized"%string, j)
  else
    let '(kind, payload) := input_encode input in
    match log_append sym at_ kind payload disk (j_log j) with
    | (Err e, log) => Done (Err e, set_log log j)
    | (Ok _, log) =>
      let* (outs, j) := execute sym at_ input owner (set_log log j) in
      match j_recording j, j_inspection j with
      | Some r, Some c =>
        match append_trace (cl_rows c) trace r with
        | (Err e, r) => Done (Err e, set_recording (Some c) (Some r) j)
        | (Ok _, r) =>
          Done (Ok outs, set_recording (Some (mkCollector [] (cl_command_time c) (cl_phases c) (cl_identities c))) (Some r) j)
        end
      | _, _ => Done (Ok outs, j)
      end
    end.

(** [Journal::finish], after the log is synced. *)
Definition journal_finish (budget : nat) (now : string) j : result unit string * Journal R :=
  let summary := journal_summary j in
  match j_recording j with
  | None => (Ok tt, j)
  | Some r =>
    let '(res, r) := recording_finish budget (log_file (j_log j)) summary now r in
    (res, set_recording (j_inspection j) (Some r) j)
  end.

(** The loop of [replay_observed]: records are executed as they are read, and the
    sequence number advances afterwards. *)
Fixpoint replay_records (fuel : nat) (complete : bool) (file : list Z) j : outcome (result (Journal R) string) :=
  match fuel with
  | O => OutOfFuel
  | S fuel =>
    if is_nil file then Done (Ok j)
    else
      match read_frame file with
      | None => Done (if complete then Err "corrupt completed event log"%string else Ok j)
      | Some (r, rest) =>
        if negb (lr_seq r =? next_seq (j_log j)) then Done (Err "event log sequence gap"%string)
        else
          let* x := execute_record r j in
          match x with
          | Err e => Done (Err e)
          | Ok (_, j) =>
            if u64_max <=? next_seq (j_log j) then Done (Err "event sequence exhausted"%string)
            else replay_records fuel complete rest (set_log (mkEventLog (log_file (j_log j)) (next_seq (j_log j) + 1) false) j)
          end
      end
  end.

(** [replay_inspected]: read only. *)
Definition journal_replay (schedule : option SessionSchedule) (stp : StpMode) (detached : R) (config : SymbolConfig) (complete inspect : bool)
    (file : list Z) : outcome (result (Journal R) string) :=
  match read_exact_or_tail 8 file with
  | None => Done (Err "failed to fill whole buffer"%string)
  | Some (magic, rest) =>
    if bool_decide (magic <> MAGIC) then Done (Err "invalid event log magic/version"%string)
    else
      match read_frame rest with
      | None => Done (Err "missing event-log header"%string)
      | Some (header, rest) =>
        if bool_decide (header <> config_record schedule stp config)
        then Done (Err "event log configuration/replay version mismatch"%string)
        else
          replay_records (S (length rest)) complete rest
            (journal_new (mkEventLog file 1 false) (if inspect then Some collector_default else None) None schedule stp detached config)
      end
  end.
End journal.
