(* ===== verification/JournalOwners.v ===== *)
(** * The journal does not look at connections either

    Digest, trace and journal commute with renaming the connections, as the
    engine does. *)

From S2P Require Import Prelude BTree Text Bytes Json Order OrderBook Matcher Stops Session SymbolConfig Auction Proto Reports EventLog Engine.
From S2P Require Import Canonical EngineOwners Digest Trace Recording Journal.

(** ** Definitions *)

Definition journal_map {R S : Type} (f : R -> S) (j : Journal R) : Journal S :=
  mkJournal (j_log j) (j_digest j) (j_inspection j) (j_recording j) (engine_map f <$> j_engines j) (j_ids j) (j_schedule j)
    (j_stp_default j) (f (j_detached j)) (j_config j).

Section owners.
Context `{!Sha256, !Build} {R S : Type} (f : R -> S).
Context `{!Wire Report, !Wire TradeCapture, !Wire SessionStatus, !Wire AuctionInfo}.
Context `{!Wire NewOrderSingle, !Wire OrderCancelRequest, !Wire OrderCancelReplaceRequest, !Wire OrderMassCancelRequest, !Wire SessionControl}.
Context `{!Wire LogRecord}.

Abbreviation om := (output_map f).

(** ** Digest and trace *)

Lemma canonical_event_natural o : canonical_event (om o) = canonical_event o.
Proof. by destruct o. Qed.

Lemma fold_outputs {A : Type} (g : A -> Output S -> A) (g' : A -> Output R -> A) (outs : list (Output R)) a :
  (forall a o, g a (om o) = g' a o) -> foldl g a (om <$> outs) = foldl g' a outs.
Proof. intros Hg. revert a. induction outs as [|o outs IH]; intros a; [done|]. rewrite fmap_cons. cbn [foldl]. by rewrite Hg. Qed.

Lemma observe_natural sym outs d : observe sym (om <$> outs) d = observe sym outs d.
Proof.
  unfold observe. rewrite (fold_outputs _ (fun '(global, stream) o => match canonical_event o with
    | Some bytes => (stream_push bytes global, stream_push bytes stream) | None => (global, stream) end)); [done|].
  intros [global stream] o. by rewrite canonical_event_natural.
Qed.

Lemma has_new_report_natural id outs : has_new_report id (om <$> outs) = has_new_report id outs.
Proof. induction outs as [|o outs IH]; [done|]. rewrite fmap_cons. unfold has_new_report in *. cbn [existsb]. rewrite IH. by destruct o. Qed.

Lemma event_row_natural seq sym owner cmd input ds o c index :
  event_row seq sym owner cmd input ds (om o) c index = event_row seq sym owner cmd input ds o c index.
Proof. unfold event_row. rewrite canonical_event_natural. by destruct o. Qed.

Lemma replaced_position_natural id outs : replaced_position id (om <$> outs) = replaced_position id outs.
Proof. induction outs as [|o outs IH]; [done|]. rewrite fmap_cons. cbn [replaced_position]. rewrite IH. by destruct o. Qed.

Lemma capture_command_natural input outs : capture_command input (om <$> outs) = capture_command input outs.
Proof. unfold capture_command. by rewrite replaced_position_natural. Qed.

Lemma diagnostic_rows_natural seq sym outs ds c index :
  diagnostic_rows seq sym (om <$> outs) ds c index = diagnostic_rows seq sym outs ds c index.
Proof.
  unfold diagnostic_rows. revert c index. induction ds as [|d ds IH]; intros c index; [done|]. cbn [foldl].
  rewrite has_new_report_natural. destruct (is_context d || _); apply IH.
Qed.

Lemma capture_at_natural seq sym k outs diags i c index :
  capture_at seq sym k (om <$> outs) diags i c index = capture_at seq sym k outs diags i c index.
Proof.
  unfold capture_at. rewrite diagnostic_rows_natural, list_lookup_fmap. destruct (diagnostic_rows _ _ _ _ _ _) as [c' index'].
  destruct (outs !! i); [apply event_row_natural|done].
Qed.

Lemma terminal_orders_natural outs : terminal_orders (om <$> outs) = terminal_orders outs.
Proof. unfold terminal_orders. apply fold_outputs. intros m o. by destruct o. Qed.

Lemma capture_natural seq sym at_ input outs diags c : capture seq sym at_ input (om <$> outs) diags c = capture seq sym at_ input outs diags c.
Proof.
  unfold capture. rewrite capture_command_natural, length_fmap. cbv zeta.
  match goal with |- (let '(c, _) := foldl _ ?a ?l in _) = _ => generalize a; generalize l end. intros l p.
  assert (foldl (fun '(c, index) i => capture_at seq sym (capture_command input outs) (om <$> outs) diags i c index) p l =
    foldl (fun '(c, index) i => capture_at seq sym (capture_command input outs) outs diags i c index) p l) as ->.
  { revert p. induction l as [|i l IH]; intros [c' index]; [done|]. cbn [foldl]. rewrite capture_at_natural. apply IH. }
  destruct (foldl _ p l) as [c' index]. unfold forget_terminal. by rewrite terminal_orders_natural.
Qed.

(** ** The journal *)

Lemma dispatch_natural input owner e : dispatch input (f owner) (engine_map f e) = outcome_map (engine_map f) (dispatch input owner e).
Proof.
  destruct input as [m|m|m| | |m|m]; cbn [dispatch].
  - apply new_order_natural.
  - apply (cancel_natural f (mkCancelMsg _ _ _ owner)).
  - apply (cancel_replace_natural f (mkCancelReplaceMsg _ _ _ _ _ _ _ _ _ owner)).
  - apply tick_natural.
  - apply subscribe_natural.
  - apply mass_cancel_natural.
  - apply begin_opening_call_natural.
Qed.

Lemma engine_for_natural sym at_ j : engine_for sym at_ (journal_map f j) = engine_map f (engine_for sym at_ j).
Proof.
  unfold engine_for. cbn [journal_map j_engines j_ids j_schedule j_stp_default j_config j_inspection].
  rewrite lookup_fmap. destruct (j_engines j !! sym); [done|]. cbn [fmap option_fmap option_map].
  assert (forall st : option SessionSchedule, engine_new sym at_ (j_ids j) st (j_stp_default j) (config_get (j_config j) sym) =
    engine_map f (engine_new sym at_ (j_ids j) st (j_stp_default j) (config_get (j_config j) sym))) as Hn.
  { intros st. unfold engine_new, engine_map, desk_map. simpl. by rewrite fmap_empty. }
  rewrite Hn. by destruct (j_inspection j).
Qed.

Lemma take_diagnostics_natural {I : Type} (e : Engine R I) :
  take_diagnostics (engine_map f e) = prod_map (fun x => x) (engine_map f) (take_diagnostics e).
Proof. done. Qed.

Lemma execute_natural sym at_ input owner j :
  execute sym at_ input (f owner) (journal_map f j) =
  outcome_map (prod_map (fmap om) (journal_map f)) (execute sym at_ input owner j).
Proof.
  unfold execute. rewrite engine_for_natural. eapply obind_natural.
  { exact (dispatch_natural input owner (with_shared at_ (j_ids j) (engine_for sym at_ j))). }
  intros e. cbv zeta. change (outputs (e_desk (engine_map f e))) with (om <$> outputs (e_desk e)).
  change (fresh (engine_map f e)) with (engine_map f (fresh e)). rewrite take_diagnostics_natural.
  destruct (take_diagnostics (fresh e)) as [diags e']. cbn [prod_map fst snd outcome_map]. f_equal. f_equal.
  unfold journal_map. cbn [j_log j_digest j_inspection j_recording j_engines j_ids j_schedule j_stp_default j_detached j_config].
  rewrite observe_natural, fmap_insert. f_equal. destruct (j_inspection j) as [c|]; [|done]. simpl. by rewrite capture_natural.
Qed.

Lemma execute_record_natural r j :
  execute_record r (journal_map f j) =
  outcome_map (fun x => match x with Ok (outs, j) => Ok (om <$> outs, journal_map f j) | Err e => Err e end) (execute_record r j).
Proof.
  unfold execute_record. destruct (input_decode r) as [input|e]; [|done]. eapply obind_natural; [|].
  { exact (execute_natural (lr_symbol r) (mkTime (lr_seconds r) (lr_nanos r)) input (j_detached j) j). }
  by intros [outs j'].
Qed.
End owners.
