(* ===== verification/JournalRecovery.v ===== *)
(** * Crash recovery of the journal

    Opening a journal on the file of an earlier one, after any sequence of
    inputs, failed writes and reopenings, gives the earlier journal: the same
    engines, execution ids and digest, with the orders of the lost connections
    detached. *)

From S2P Require Import Prelude BTree Text Bytes Json Order OrderBook Matcher Stops Session SymbolConfig Auction Proto Reports EventLog Engine.
From S2P Require Import WireSamples LogRecovery Canonical EngineOwners Digest Trace Recording Journal JournalOwners.

Section recovery.
Context `{!Sha256, !Build} {R : Type}.
Context `{!Wire Report, !Wire TradeCapture, !Wire SessionStatus, !Wire AuctionInfo}.
Context `{!Wire NewOrderSingle, !Wire OrderCancelRequest, !Wire OrderCancelReplaceRequest, !Wire OrderMassCancelRequest, !Wire SessionControl}.
Context `{!WireLaws NewOrderSingle, !WireLaws OrderCancelRequest, !WireLaws OrderCancelReplaceRequest, !WireLaws OrderMassCancelRequest, !WireLaws SessionControl}.
Context `{!Wire LogRecord, !WireLaws LogRecord}.
Context (schedule : option SessionSchedule) (stp : StpMode) (detached : R) (config : SymbolConfig).
Implicit Types (j : Journal R).

(** ** Definitions *)

(** Inputs as the server makes them: for the symbol of their message, at a time
    whose nanoseconds are nanoseconds. *)
Definition input_for (sym : string) (at_ : Time) (input : Input) : Prop :=
  match input_symbol input with Some s => s = sym | None => True end /\ 0 <= nanos at_ < 1000000000.

(** The journal without its connections. *)
Definition forget j : Journal R := journal_map (fun _ => detached) j.

(** The input whose write failed, if this is where the log failed. *)
Definition lost_input (sym : string) (at_ : Time) (input : Input) (before after : EventLog) (lost : option (string * Time * Input)) :=
  if log_failed after && negb (log_failed before) then Some (sym, at_, input) else lost.

(** Lives of a journal: opened on a new file, any inputs with any behaviour of the
    disk, and reopened on its file after a crash. The last component is the input
    that was being written when the log failed. *)
Inductive journal_run : Journal R -> option (string * Time * Input) -> Prop :=
| run_open j : journal_open schedule stp detached config [] = Done (Ok j) -> journal_run j None
| run_apply j lost sym at_ input owner disk trace res j' :
    journal_run j lost -> input_for sym at_ input -> apply sym at_ input owner disk trace j = Done (res, j') ->
    journal_run j' (lost_input sym at_ input (j_log j) (j_log j') lost)
| run_reopen j lost j' :
    journal_run j lost -> journal_open schedule stp detached config (log_file (j_log j)) = Done (Ok j') -> journal_run j' None.

Definition record_of (seq : Z) (sym : string) (at_ : Time) (input : Input) : LogRecord :=
  mkLogRecord seq (seconds at_) (nanos at_) sym (input_encode input).1 (input_encode input).2.

(** What a log says about its journal: replaying its records gives the journal
    without connections, whatever log the replay carries. *)
Record tracked j (rs : list LogRecord) : Prop := {
  tr_plain : j_inspection j = None /\ j_recording j = None;
  tr_config : j_schedule j = schedule /\ j_stp_default j = stp /\ j_detached j = detached /\ j_config j = config;
  tr_replay L : execute_records rs (journal_new L None None schedule stp detached config) = Done (Ok (set_log L (forget j)));
}.

Definition lost_record (log : EventLog) (lost : option (string * Time * Input)) : option LogRecord :=
  match lost with Some (sym, at_, input) => Some (record_of (next_seq log) sym at_ input) | None => None end.

Definition invariant j (lost : option (string * Time * Input)) : Prop :=
  (exists rs, tracked j rs /\ recorded schedule stp config (j_log j) rs (lost_record (j_log j) lost)) /\
  match lost with Some (sym, at_, input) => input_for sym at_ input | None => True end.

(** What opening the file gives: the journal, or, with nothing cut off the
    file, the journal after the input whose write had failed. *)
Definition reopens j (lost : option (string * Time * Input)) (log' : EventLog) : Prop :=
  log_failed log' = false /\ log_file log' `prefix_of` log_file (j_log j) /\
  (next_seq log' = next_seq (j_log j) /\
   journal_open schedule stp detached config (log_file (j_log j)) = Done (Ok (set_log log' (forget j))) \/
   exists sym at_ input, lost = Some (sym, at_, input) /\ next_seq log' = next_seq (j_log j) + 1 /\ log_file log' = log_file (j_log j) /\
     journal_open schedule stp detached config (log_file (j_log j)) =
       let* (_, j') := execute sym at_ input detached (set_log log' (forget j)) in Done (Ok j')).

(** ** Lemmas *)

Lemma input_roundtrip seq sym at_ input : input_for sym at_ input -> input_decode (record_of seq sym at_ input) = Ok input.
Proof using WireLaws0 WireLaws1 WireLaws2 WireLaws3 WireLaws4.
  intros [Hs Hn]. unfold input_decode, record_of. cbn [lr_kind lr_payload lr_symbol lr_nanos].
  replace ((0 <=? nanos at_) && (nanos at_ <? 1000000000)) with true by lia.
  destruct input; cbn [input_encode fst snd input_symbol] in *; simpl; unfold decoded; rewrite ?wire_roundtrip; subst;
    rewrite orb_false_r; case_bool_decide; congruence.
Qed.

Lemma execute_set_log sym at_ input owner j L :
  j_inspection j = None -> execute sym at_ input owner (set_log L j) = outcome_map (prod_map (fun x => x) (set_log L)) (execute sym at_ input owner j).
Proof.
  intros Hi. unfold execute. change (engine_for sym at_ (set_log L j)) with (engine_for sym at_ j). change (j_ids (set_log L j)) with (j_ids j).
  apply obind_shared. intros e. destruct (take_diagnostics (fresh e)) as [diags e'].
  cbn [outcome_map prod_map fst snd]. unfold set_log. cbn [j_log j_digest j_inspection j_recording j_engines j_ids j_schedule j_stp_default j_detached j_config].
  rewrite Hi. cbn [fmap option_fmap option_map]. reflexivity.
Qed.

(** What executing leaves alone. *)
Lemma execute_keeps sym at_ input owner j outs j' :
  execute sym at_ input owner j = Done (outs, j') ->
  j_log j' = j_log j /\ j_recording j' = j_recording j /\ (j_inspection j = None -> j_inspection j' = None) /\
  j_schedule j' = j_schedule j /\ j_stp_default j' = j_stp_default j /\ j_detached j' = j_detached j /\ j_config j' = j_config j.
Proof.
  unfold execute. destruct (dispatch _ _ _) as [e| |]; [|done|done]. cbn [obind]. destruct (take_diagnostics (fresh e)) as [diags e'].
  intros [= _ <-]. cbn. split_and!; try done. by intros ->.
Qed.

Lemma execute_records_snoc rs r : forall j,
  execute_records (rs ++ [r]) j =
  let* x := execute_records rs j in
  match x with Err e => Done (Err e) | Ok j => execute_records [r] j end.
Proof.
  induction rs as [|r0 rs IH]; intros j; [done|]. cbn [app execute_records].
  destruct (execute_record r0 j) as [[[outs j']|e]| |]; cbn [obind]; [apply IH|done|done|done].
Qed.

(** One more record. *)
Lemma tracked_execute j rs sym at_ input owner outs j' seq :
  tracked j rs -> input_for sym at_ input -> execute sym at_ input owner j = Done (outs, j') -> tracked j' (rs ++ [record_of seq sym at_ input]).
Proof using WireLaws0 WireLaws1 WireLaws2 WireLaws3 WireLaws4.
  intros [[Hi Hr] (Hs & Ht & Hd & Hc) Hrep] Hin He. destruct (execute_keeps _ _ _ _ _ _ _ He) as (_ & K1 & K2 & K3 & K4 & K5 & K6).
  split; [split; [auto|congruence]|split_and!; congruence|]. intros L. rewrite execute_records_snoc, Hrep. cbn [obind execute_records].
  unfold execute_record. rewrite input_roundtrip by done. cbn [lr_symbol lr_seconds lr_nanos record_of].
  replace (mkTime (Reports.seconds at_) (Reports.nanos at_)) with at_ by (by destruct at_).
  pose proof (execute_natural (fun _ => detached) sym at_ input owner j) as Hn. rewrite He in Hn. cbv beta in Hn.
  change (j_detached (set_log L (forget j))) with detached. rewrite execute_set_log by exact Hi.
  unfold forget at 1. rewrite Hn. done.
Qed.

Lemma tracked_set_log j rs L : tracked j rs -> tracked (set_log L j) rs.
Proof. intros [Hp Hc Hr]. split; [done|done|]. intros L'. by rewrite Hr. Qed.

Lemma recorded_failed log rs lost : recorded schedule stp config log rs lost -> log_failed log = bool_decide (is_Some lost).
Proof using WireLaws5.
  intros Hr. pose proof (recorded_holds _ _ _ _ _ _ Hr) as Hh. destruct lost as [r|].
  - destruct Hh as (log0 & h & bss & b & n & _ & _ & _ & _ & _ & -> & _). done.
  - destruct Hh as (h & bss & Hh). by rewrite (ho_live _ _ _ _ _ _ _ Hh).
Qed.

Lemma engine_map_const {I : Type} (e : Engine R I) : engine_map (fun _ => detached) (engine_map (fun _ => detached) e) = engine_map (fun _ => detached) e.
Proof.
  unfold engine_map, desk_map. cbn. rewrite <- map_fmap_compose, <- list_fmap_compose. do 2 f_equal.
  apply list_fmap_ext. intros _ o _. by destruct o.
Qed.

Lemma forget_idem j : j_detached j = detached -> forget (forget j) = forget j.
Proof.
  intros Hd. unfold forget, journal_map. cbn. f_equal. rewrite <- map_fmap_compose. apply map_fmap_ext. intros k e _. apply engine_map_const.
Qed.

Lemma tracked_forget j rs L : tracked j rs -> tracked (set_log L (forget j)) rs.
Proof.
  intros [Hp (Hs & Ht & Hd & Hc) Hr]. split; [done|done|]. intros L'. rewrite Hr. f_equal. f_equal.
  change (forget (set_log L (forget j))) with (set_log L (forget (forget j))). by rewrite forget_idem.
Qed.

Lemma invariant_new j : journal_open schedule stp detached config [] = Done (Ok j) -> invariant j None.
Proof using WireLaws5.
  unfold journal_open. destruct (frame (config_record schedule stp config)) as [h|e] eqn:Hh.
  - rewrite (open_log_new _ _ _ _ Hh). cbn [obind execute_records]. intros [= <-]. split; [|done]. exists []. split.
    + split; [done|done|]. intros L. unfold forget, journal_map. cbn. by rewrite fmap_empty.
    + apply recorded_new. by apply open_log_new.
  - unfold open_log. cbn [is_nil]. rewrite Hh. done.
Qed.

(** The log moves on: refused, torn, or written. *)
Lemma invariant_apply j lost sym at_ input owner disk trace res j' :
  invariant j lost -> input_for sym at_ input -> apply sym at_ input owner disk trace j = Done (res, j') ->
  invariant j' (lost_input sym at_ input (j_log j) (j_log j') lost).
Proof using WireLaws0 WireLaws1 WireLaws2 WireLaws3 WireLaws4 WireLaws5.
  intros [(rs & Ht & Hr) Hl] Hin Ha. destruct (tr_plain _ _ Ht) as [Hi Hrec]. pose proof (recorded_failed _ _ _ Hr) as Hf.
  unfold apply in Ha. rewrite Hrec in Ha. destruct (input_encode input) as [kind payload] eqn:Hk.
  destruct (log_append sym at_ kind payload disk (j_log j)) as [[[]|e] log'] eqn:Hla.
  - assert (log_failed (j_log j) = false /\ disk = Synced) as [Hlive ->].
    { unfold log_append in Hla. destruct (log_failed (j_log j)); [done|]. destruct (frame _); [|done]. destruct (_ <=? _); [done|]. by destruct disk. }
    destruct lost as [[[]]|]; [by rewrite Hf in Hlive|]. simpl in Hr.
    destruct (execute sym at_ input owner (set_log log' j)) as [[outs j1]| |] eqn:He; [|done|done]. cbn [obind] in Ha.
    destruct (execute_keeps _ _ _ _ _ _ _ He) as (K0 & K1 & K2 & _). rewrite K1 in Ha. cbn [set_log j_recording] in Ha. rewrite Hrec in Ha.
    injection Ha as _ <-. pose proof (recorded_append _ _ _ _ _ _ _ _ _ _ Hr Hla) as Hr'.
    assert (lost_input sym at_ input (j_log j) (j_log j1) None = None) as ->.
    { unfold lost_input. rewrite K0. cbn [set_log j_log]. by rewrite (recorded_failed _ _ _ Hr'). }
    split; [|done]. eexists. split; [|rewrite K0; exact Hr'].
    assert (mkLogRecord (next_seq (j_log j)) (Reports.seconds at_) (Reports.nanos at_) sym kind payload = record_of (next_seq (j_log j)) sym at_ input) as ->
      by (unfold record_of; by rewrite Hk).
    eapply tracked_execute; [by apply tracked_set_log|done|exact He].
  - injection Ha as _ <-. cbn [set_log j_log]. destruct (log_failed (j_log j)) eqn:Hlive.
    { unfold log_append in Hla. rewrite Hlive in Hla. injection Hla as _ <-. unfold lost_input. rewrite Hlive. simpl. split; [|done].
      exists rs. split; [by apply tracked_set_log|done]. }
    destruct lost as [[[]]|]; [done|]. simpl in Hr. destruct (recorded_holds _ _ _ _ _ _ Hr) as (h & bss & Hh).
    destruct (log_append_cases _ _ _ _ _ _ _ _ _ _ _ _ _ _ Hh Hla) as [[-> _]|(b & Hb & Hlt & Hd)].
    { unfold lost_input. rewrite Hlive. simpl. split; [|done]. exists rs. split; [by apply tracked_set_log|done]. }
    destruct disk as [|n]; [by destruct Hd|]. destruct Hd as [_ ->]. unfold lost_input. rewrite Hlive. simpl.
    split; [|done]. exists rs. split; [by apply tracked_set_log|]. cbn [set_log j_log lost_record].
    assert (record_of (next_seq (mkEventLog (log_file (j_log j) ++ take n b) (next_seq (j_log j)) true)) sym at_ input =
      mkLogRecord (next_seq (j_log j)) (Reports.seconds at_) (Reports.nanos at_) sym kind payload) as ->
      by (unfold record_of; by rewrite Hk).
    by eapply recorded_torn.
Qed.

Lemma invariant_reopens j lost :
  invariant j lost ->
  exists log', reopens j lost log' /\
    forall j', journal_open schedule stp detached config (log_file (j_log j)) = Done (Ok j') -> invariant j' None.
Proof using WireLaws0 WireLaws1 WireLaws2 WireLaws3 WireLaws4 WireLaws5.
  intros [(rs & Ht & Hr) Hl]. destruct (log_reopens _ _ _ _ _ _ Hr) as (log' & rs' & Ho & Hr' & Hs & Hpre & Hcase).
  assert (journal_open schedule stp detached config (log_file (j_log j)) =
    execute_records rs' (journal_new log' None None schedule stp detached config)) as Hopen by (unfold journal_open; by rewrite Ho).
  pose proof (recorded_failed _ _ _ Hr') as Hf. exists log'. unfold reopens. rewrite Hopen.
  destruct Hcase as [[-> Hn]|(r & Hlost & -> & Hfile)].
  - rewrite (tr_replay _ _ Ht log'). split; [split_and!; [done|done|by left]|]. intros j' [= <-]. split; [|done]. exists rs.
    split; [by apply tracked_forget|done].
  - destruct lost as [[[sym at_] input]|]; [|done]. simpl in Hlost. injection Hlost as <-. rewrite execute_records_snoc, (tr_replay _ _ Ht log').
    cbn [obind execute_records]. unfold execute_record. rewrite input_roundtrip by done. cbn [lr_symbol lr_seconds lr_nanos record_of].
    replace (mkTime (Reports.seconds at_) (Reports.nanos at_)) with at_ by (by destruct at_).
    change (j_detached (set_log log' (forget j))) with detached. split.
    + split_and!; [done|done|right]. exists sym, at_, input. split; [done|]. destruct (recorded_holds _ _ _ _ _ _ Hr) as (log0 & h & bss & b & n & _ & Hh & _ & _ & _ & Hlog & _).
      split; [rewrite Hs, Hlog; simpl; rewrite (ho_seq _ _ _ _ _ _ _ Hh), length_app; simpl; lia|]. split; [done|].
      by destruct (execute sym at_ input detached (set_log log' (forget j))) as [[outs j1]| |].
    + intros j'. destruct (execute sym at_ input detached (set_log log' (forget j))) as [[outs j1]| |] eqn:He; [|done|done].
      cbn [obind]. intros [= <-]. split; [|done]. exists (rs ++ [record_of (next_seq (j_log j)) sym at_ input]).
      destruct (execute_keeps _ _ _ _ _ _ _ He) as (K0 & _). split; [|rewrite K0; exact Hr'].
      eapply tracked_execute; [by apply tracked_forget|done|exact He].
Qed.

Lemma run_invariant j lost : journal_run j lost -> invariant j lost.
Proof using WireLaws0 WireLaws1 WireLaws2 WireLaws3 WireLaws4 WireLaws5.
  induction 1 as [j Ho|j lost sym at_ input owner disk trace res j' _ IH Hin Ha|j lost j' _ IH Ho].
  - by apply invariant_new.
  - by eapply invariant_apply.
  - destruct (invariant_reopens _ _ IH) as (log' & _ & Hinv). by apply Hinv.
Qed.

(** ** Theorem *)

(** C18: Write-ahead recovery. After any life of a journal (inputs for any
    symbols, writes that fail after any number of bytes, crashes and
    reopenings), opening its file gives the journal back: every engine with its
    book, orders, session and status history, the execution id counter, the
    digest and the next sequence number, and only the owning connections are
    replaced by the detached one. The one exception is a journal whose last
    write failed: if the record of that input is whole in the file, so that
    nothing is cut off it, opening does what executing the input on the
    recovered journal does, and the sequence number is one further. *)
Theorem journal_recovers j lost : journal_run j lost -> exists log', reopens j lost log'.
Proof using WireLaws0 WireLaws1 WireLaws2 WireLaws3 WireLaws4 WireLaws5.
  intros Hrun. destruct (invariant_reopens _ _ (run_invariant _ _ Hrun)) as (log' & Hre & _). by exists log'.
Qed.
End recovery.

(** ** Witness *)

#[local] Existing Instance wire_of.
#[local] Existing Instance wire_of_laws.

(** A hash and a build to run with. *)
#[local] Instance sample_sha : Sha256 := fun b => replicate 32 (Z.of_nat (length b) mod 256).
#[local] Instance sample_build : Build := {| fxp_version := "0"; git_sha := "0"; schema_bytes := [] |}.

Definition sample_order (id who : string) (side qty : Z) : Input :=
  INew (mkNewOrder id who "FXP" 100 side qty 2 2 0 "" "" id 0 "" 0).

Definition journal0 : Journal Z :=
  match journal_open None StpNone 0 [] [] with Done (Ok j) => j | _ => journal_new (mkEventLog [] 0 true) None None None StpNone 0 [] end.

Definition after (sym : string) (at_ : Time) (input : Input) (owner : Z) (disk : DiskWrite) (j : Journal Z) : Journal Z :=
  match apply sym at_ input owner disk Synced j with Done (_, j) => j | _ => j end.

(** A bid from connection 7, an offer from connection 8 that trades with it, and a
    tick whose write fails. *)
Definition journal1 : Journal Z := after "FXP" (mkTime 100 0) (sample_order "b1" "alice" 1 5) 7 Synced journal0.
Definition journal2 : Journal Z := after "FXP" (mkTime 101 0) (sample_order "s1" "bob" 2 3) 8 Synced journal1.
Definition journal3 : Journal Z := after "FXP" (mkTime 102 0) ITick 0 (Torn 30) journal2.

Definition apply_result (sym : string) (at_ : Time) (input : Input) (owner : Z) (disk : DiskWrite) (j : Journal Z) : result (list (Output Z)) string :=
  match apply sym at_ input owner disk Synced j with Done (r, _) => r | _ => Err "stuck"%string end.

Lemma after_ok sym at_ input owner disk j :
  (match apply sym at_ input owner disk Synced j with Done _ => true | _ => false end) = true ->
  apply sym at_ input owner disk Synced j = Done (apply_result sym at_ input owner disk j, after sym at_ input owner disk j).
Proof. unfold apply_result, after. by destruct (apply _ _ _ _ _ _ j) as [[r j']| |]. Qed.

Lemma journal_recovers_witness : exists log', reopens None StpNone 0 [] journal3 (Some ("FXP"%string, mkTime 102 0, ITick)) log'.
Proof.
  apply (journal_recovers None StpNone 0 [] journal3 (Some ("FXP"%string, mkTime 102 0, ITick))).
  refine (run_apply _ _ _ _ journal2 None "FXP" (mkTime 102 0) ITick 0 (Torn 30) Synced _ journal3 _ _ (after_ok _ _ _ _ _ _ _));
    [|split; [exact I|vm_compute; split; [discriminate|reflexivity]]|vm_compute; reflexivity].
  refine (run_apply _ _ _ _ journal1 None "FXP" (mkTime 101 0) (sample_order "s1" "bob" 2 3) 8 Synced Synced _ journal2 _ _ (after_ok _ _ _ _ _ _ _));
    [|split; [reflexivity|vm_compute; split; [discriminate|reflexivity]]|vm_compute; reflexivity].
  refine (run_apply _ _ _ _ journal0 None "FXP" (mkTime 100 0) (sample_order "b1" "alice" 1 5) 7 Synced Synced _ journal1 _ _ (after_ok _ _ _ _ _ _ _));
    [|split; [reflexivity|vm_compute; split; [discriminate|reflexivity]]|vm_compute; reflexivity].
  apply run_open. vm_compute. reflexivity.
Defined.
