(* ===== verification/Bundle.v ===== *)
(** * Inspection of run bundles: [inspect_bundle] of reproducibility.rs

    A bundle is read without being written: its manifest, configuration, expected
    summary and trace are checked, its commands are replayed and the replay is
    compared with what was recorded. Files are the bytes of each name; the
    budgets of the offline tools are not set here. *)

From S2P Require Import Prelude BTree Text Bytes Json Order Session SymbolConfig Proto Reports EventLog Engine Canonical Digest Trace Recording Journal.

#[local] Open Scope string_scope.
#[local] Open Scope Z_scope.
#[local] Open Scope list_scope.

(** ** Definitions *)

(** The regular files of a directory. *)
Definition Files : Type := string -> option (list Z).

(** [read_bundle_file], with the error of a missing file named. *)
Definition missing {A : Type} (name : string) : result A string := Err ("incomplete bundle: " ++ name ++ " missing")%string.

Definition read_string (bytes : list Z) : result string string :=
  if valid_utf8 bytes then Ok (string_of bytes) else Err "stream did not contain valid UTF-8".

Definition read_bundle_file (name : string) (dir : Files) : result string string :=
  match dir name with Some bytes => read_string bytes | None => missing name end.

(** [BufRead::lines]: a line ends with a line feed, after which a carriage return
    before it is dropped; the last line need not end. *)
Definition strip_return (l : list Z) : list Z :=
  match last l with Some 13 => take (length l - 1) l | _ => l end.

Fixpoint read_lines (line rest : list Z) : list (list Z) :=
  match rest with
  | [] => if is_nil line then [] else [line]
  | b :: rest => if b =? 10 then strip_return line :: read_lines [] rest else read_lines (line ++ [b]) rest
  end.

(** [map_err(invalid)]: the error as a message. *)
Definition or_invalid {A E : Type} (message : string) (r : result A E) : result A string :=
  match r with Ok a => Ok a | Err _ => Err message end.

(** The results of a fallible function, up to the first error. *)
Fixpoint collect {A B : Type} (f : A -> outcome (result B string)) (l : list A) : outcome (result (list B) string) :=
  match l with
  | [] => Done (Ok [])
  | a :: l =>
    let* x := f a in
    match x with
    | Err e => Done (Err e)
    | Ok b => let* y := collect f l in Done (match y with Ok bs => Ok (b :: bs) | Err e => Err e end)
    end
  end.

Definition parse_text (text : result string string) : outcome (result Json string) :=
  match text with Ok t => json_parse t | Err e => Done (Err e) end.

Definition parse_line (line : list Z) : outcome (result Json string) := parse_text (read_string line).

(** The fields a row must have. *)
Definition check_text (row : Json) (key : string) : result unit string :=
  try* v := json_get key row in try* _t := json_text v in Ok tt.

Definition check_position (row : Json) (key : string) : result unit string :=
  try* v := json_get key row in
  match v with
  | JNumber n => if bool_decide (is_Some (parse_u64 n)) then Ok tt else Err "invalid trace position"
  | _ => Err "invalid trace position"
  end.

Fixpoint check_all {A : Type} (f : A -> result unit string) (l : list A) : result unit string :=
  match l with [] => Ok tt | a :: l => try* _u := f a in check_all f l end.

Definition check_row (row : Json) : result unit string :=
  try* _a := check_all (check_text row) ["symbol"; "kind"; "order_id"; "owner"; "client_order_id"] in
  try* _b := check_all (check_position row) ["global_seq"; "event_index"] in
  try* _c := json_get "data" row in
  try* _d := json_get "canonical_hex" row in
  Ok tt.

(** [compatible_trace]: the additive keys may be missing in what was recorded. *)
Definition drop_additive (expected actual : Json) : Json :=
  match json_get "data" expected, actual with
  | Ok (JObject ed), JObject am =>
    match bt_get "data" am with
    | Some (JObject ad) =>
      let drop := fun (key : string) ad => if bool_decide (is_Some (bt_get key ed)) then ad else bt_remove key ad in
      JObject (bt_insert "data" (JObject (drop "session_phase" (drop "opposing_order" ad))) am)
    | _ => actual
    end
  | _, _ => actual
  end.

Definition compatible_trace (expected actual : list Json) : bool :=
  (length expected =? length actual)%nat && forallb (fun '(e, a) => json_eqb e (drop_additive e a)) (zip expected actual).

Record Inspection : Type := mkInspection {
  in_complete : bool;
  in_diverged : bool;
  in_summary : RunSummary;
  in_expected : option Json;
  in_final_state : list Z;
  in_rows : list Json;
  in_expected_rows : option (list Json);
  in_config : SymbolConfig;
}.

(** [ReplayResult]. *)
Record ReplayResult : Type := mkReplayResult { rr_verified : bool; rr_summary : RunSummary; rr_final_state : list Z }.

(** What the manifest says. *)
Record Settings : Type := mkSettings { se_schedule : option SessionSchedule; se_stp : StpMode; se_complete : bool }.

Section inspect.
Context `{!Sha256, !Build}.
Context `{!Wire Report, !Wire TradeCapture, !Wire SessionStatus, !Wire AuctionInfo}.
Context `{!Wire NewOrderSingle, !Wire OrderCancelRequest, !Wire OrderCancelReplaceRequest, !Wire OrderMassCancelRequest, !Wire SessionControl}.
Context `{!Wire LogRecord}.

(** [hash_file]. *)
Definition hash_file (name : string) (dir : Files) : result string string :=
  match dir name with Some bytes => Ok (sha256 bytes) | None => missing name end.

(** The versions and the configuration the manifest must name. *)
Definition check_versions (manifest : Json) : result unit string :=
  try* _a := require_text "bundle_format" BUNDLE_VERSION manifest in
  try* _b := require_text "symbol_config_file" "symbols.csv" manifest in
  try* _c := require_text "replay_version" REPLAY_VERSION manifest in
  try* _d := require_text "canonical_version" CANONICAL_VERSION manifest in
  try* _e := require_text "state_version" STATE_VERSION manifest in
  require_text "proto_schema_sha256" (sha256 schema_bytes) manifest.

Definition read_config (manifest : Json) (dir : Files) : result SymbolConfig string :=
  try* symbols := read_bundle_file "symbols.csv" dir in
  try* _u := require_text "symbol_config_sha256" (sha256 (bytes_of symbols)) manifest in
  or_invalid "invalid symbol configuration" (parse_config symbols).

Definition read_settings (manifest : Json) : result Settings string :=
  try* s := json_get "session_schedule" manifest in
  try* schedule := match s with JNull => Ok None | j => try* t := json_text j in try* s := or_invalid "invalid session schedule" (parse_schedule t) in Ok (Some s) end in
  try* m := json_get "stp_default" manifest in
  try* t := json_text m in
  try* stp := or_invalid "invalid self-trade prevention mode" (stp_mode_parse t) in
  try* c := json_get "complete" manifest in
  match c with JBool b => Ok (mkSettings schedule stp b) | _ => Err "invalid complete marker" end.

(** [expected.json] of a complete bundle. *)
Definition read_expected (complete : bool) (manifest : Json) (dir : Files) : outcome (result (option Json) string) :=
  if complete then
    match (try* h := hash_file "commands.log" dir in require_text "commands_sha256" h manifest) with
    | Err e => Done (Err e)
    | Ok _ =>
      let* j := parse_text (read_bundle_file "expected.json" dir) in
      Done (try* j := j in try* _u := validate_expected j in Ok (Some j))
    end
  else Done (Ok None).

(** The recorded trace of a complete bundle. *)
Definition read_trace (complete : bool) (manifest : Json) (dir : Files) : outcome (result (option (list Json)) string) :=
  let has := fun key => match json_get key manifest with Ok _ => true | Err _ => false end in
  if negb (Bool.eqb (has "trace_version") (has "trace_sha256"))
  then Done (Err "incomplete trace metadata: version and hash must be declared together")
  else
    match json_get "trace_version" manifest with
    | Err _ => Done (Ok None)
    | Ok version =>
      match json_text version with
      | Err e => Done (Err e)
      | Ok v =>
        if bool_decide (v <> TRACE_VERSION) then Done (Err "unknown trace version")
        else if complete then
          match (try* h := hash_file "events.jsonl" dir in require_text "trace_sha256" h manifest) with
          | Err e => Done (Err e)
          | Ok _ =>
            let* rows := collect parse_line (read_lines [] (default [] (dir "events.jsonl"))) in
            Done (try* rows := rows in try* _u := check_all check_row rows in Ok (Some rows))
          end
        else Done (Ok None)
      end
    end.

(** The replay of the commands and its comparison with what was recorded. *)
Definition compare_replay (config : SymbolConfig) (s : Settings) (expected : option Json) (expected_rows : option (list Json)) (dir : Files)
    : outcome (result Inspection string) :=
  match dir "commands.log" with
  | None => Done (missing "commands.log")
  | Some log =>
    let* replayed := journal_replay (se_schedule s) (se_stp s) tt config (se_complete s) true log in
    Done (try* j := replayed in
          let summary := journal_summary j in
          let rows := match j_inspection j with Some c => cl_rows c | None => [] end in
          let diverged := match expected with Some e => negb (json_eqb e (summary_json summary)) | None => false end
                          || match expected_rows with Some r => negb (compatible_trace r rows) | None => false end in
          Ok (mkInspection (se_complete s) diverged summary expected (journal_state j) rows expected_rows config))
  end.

(** [inspect_bundle]; a bundle that is no directory has no files. *)
Definition inspect_bundle (dir : option Files) : outcome (result Inspection string) :=
  match dir with
  | None => Done (Err "bundle directory not found")
  | Some dir =>
    let* manifest := parse_text (read_bundle_file "manifest.json" dir) in
    match (try* manifest := manifest in
           try* _u := check_versions manifest in
           try* config := read_config manifest dir in
           try* s := read_settings manifest in
           Ok (manifest, config, s)) with
    | Err e => Done (Err e)
    | Ok (manifest, config, s) =>
      let* expected := read_expected (se_complete s) manifest dir in
      match expected with
      | Err e => Done (Err e)
      | Ok expected =>
        let* expected_rows := read_trace (se_complete s) manifest dir in
        match expected_rows with
        | Err e => Done (Err e)
        | Ok expected_rows => compare_replay config s expected expected_rows dir
        end
      end
    end
  end.

(** [replay_bundle]. *)
Definition replay_bundle (dir : option Files) : outcome (result ReplayResult string) :=
  let* run := inspect_bundle dir in
  Done (try* run := run in
        if in_diverged run then Err "bundle verification failed: business events or final state differ"
        else Ok (mkReplayResult (in_complete run) (in_summary run) (in_final_state run))).
End inspect.
