(* ===== verification/TraceRows.v ===== *)
(** * Rows of the trace

    A capture only appends rows, and what it appends does not depend on the rows
    before; the rows are objects of strings, numbers and objects, so each is
    written as one line of JSON, and have the fields an inspection asks for. *)

From Stdlib Require Import Ascii.
From S2P Require Import Prelude BTree Text Bytes Json JsonSpec JsonText Order Proto Reports EventLog Engine Canonical Digest Trace Bundle.

(** ** Definitions *)

(** The collector with rows in front of its own. *)
Definition rows_shift (pre : list Json) (c : Collector) : Collector :=
  mkCollector (pre ++ cl_rows c) (cl_command_time c) (cl_phases c) (cl_identities c).

(** The collector after its rows have been written. *)
Definition rows_clear (c : Collector) : Collector := mkCollector [] (cl_command_time c) (cl_phases c) (cl_identities c).

Definition is_count (n : Z) : Prop := 0 <= n <= u64_max.

(** The fields every row has. *)
Definition text_keys : list string := ["symbol"; "kind"; "order_id"; "owner"; "client_order_id"].
Definition count_keys : list string := ["global_seq"; "event_index"].
Definition other_keys : list string := ["data"; "canonical_hex"].

(** Rows as they are read back. *)
Record row_ok (row : Json) : Prop := {
  ro_shape : json_shape 64 0 row;
  ro_object : exists m, row = JObject m;
  ro_texts key : key ∈ text_keys -> exists s, json_get key row = Ok (JString s);
  ro_counts key : key ∈ count_keys -> exists n, is_count n /\ json_get key row = Ok (json_number n);
  ro_others key : key ∈ other_keys -> exists v, json_get key row = Ok v;
}.

Definition rows_ok (c : Collector) : Prop := Forall row_ok (cl_rows c).

Lemma rows_shift_clear c : rows_shift (cl_rows c) (rows_clear c) = c.
Proof. destruct c. unfold rows_shift. simpl. by rewrite app_nil_r. Qed.

Lemma rows_shift_app a b c : rows_shift a (rows_shift b c) = rows_shift (a ++ b) c.
Proof. unfold rows_shift. simpl. by rewrite app_assoc. Qed.

(** ** Shapes *)

Lemma shape_put limit d k v j : json_shape limit d j -> json_shape limit (S d) v -> json_shape limit d (put k v j).
Proof. intros Hj Hv. destruct j; try done. by apply shape_insert. Qed.

Lemma shape_texts limit d l : (S d <= limit)%nat -> Forall (fun e => json_shape limit (S d) e.2) (text_fields l).
Proof. intros Hd. apply Forall_fmap, Forall_true. intros x. by constructor. Qed.

Lemma shape_numbers limit d l : (S d <= limit)%nat -> Forall (fun e => json_shape limit (S d) e.2) (number_fields l).
Proof. intros Hd. apply Forall_fmap, Forall_true. intros x. by apply shape_number. Qed.

(** Objects with their fields spelled out. *)
Ltac shape_fields :=
  apply shape_object; [lia|]; repeat first [apply Forall_nil_2|apply Forall_cons_2]; cbn [snd];
  try first [apply sh_string; lia|apply shape_number; lia|apply sh_null; lia|apply sh_bool; lia].

#[export] Hint Resolve shape_put shape_number : shape.
#[export] Hint Extern 2 (_ <= _)%nat => lia : shape.

Lemma shape_time limit d s n : (S d <= limit)%nat -> json_shape limit d (time_json s n).
Proof. intros Hd. unfold time_json. shape_fields. Qed.

(** ** Fields *)

Lemma add64_count a b : is_count (add64 a b).
Proof. unfold is_count, add64, wrap64. pose proof (Z.mod_pos_bound (a + b) u64_modulus). unfold u64_modulus, u64_max in *. lia. Qed.

Lemma parse_u64_print n : is_count n -> parse_u64 (print_dec n) = Some n.
Proof.
  intros Hn. destruct (parse_print u64_max n Hn) as (Hd & _ & Hp). unfold parse_u64. destruct (print_dec n) as [|c s]; [done|].
  cbn [all_chars] in Hd. apply andb_true_iff in Hd as [Hc _]. destruct (Ascii.eqb_spec c "+"%char); [by subst|done].
Qed.

Lemma json_get_put k k' v limit d j : json_shape limit d j -> (exists m, j = JObject m) ->
  json_get k' (put k v j) = if decide (k = k') then Ok v else json_get k' j.
Proof.
  intros Hj [m ->]. inversion Hj; subst. cbn [put json_get]. case_decide; subst; [by rewrite bt_get_insert_eq|by rewrite bt_get_insert_ne].
Qed.

Lemma row_checked row : row_ok row -> check_row row = Ok tt.
Proof.
  intros [_ _ Ht Hn Hv]. assert (forall l, l ⊆ text_keys -> check_all (check_text row) l = Ok tt) as H1.
  { induction l as [|key l IH]; intros Hl; [done|]. cbn [check_all]. destruct (Ht key) as [s Hs]; [set_solver|]. unfold check_text. rewrite Hs. apply IH. set_solver. }
  assert (forall l, l ⊆ count_keys -> check_all (check_position row) l = Ok tt) as H2.
  { induction l as [|key l IH]; intros Hl; [done|]. cbn [check_all]. destruct (Hn key) as (n & Hc & Hs); [set_solver|]. unfold check_position. rewrite Hs.
    cbn [rbind json_number]. rewrite parse_u64_print by done. rewrite bool_decide_true by eauto. apply IH. set_solver. }
  unfold check_row. fold text_keys count_keys. rewrite H1, H2 by done. cbn [rbind]. destruct (Hv "data"%string) as [v ->]; [set_solver|].
  destruct (Hv "canonical_hex"%string) as [v' ->]; [set_solver|]. done.
Qed.

Lemma row_put k v row : k ∈ text_keys -> row_ok row -> row_ok (put k (JString v) row).
Proof.
  intros Hk [Hs [m ->] Ht Hn Hv]. assert (forall key, json_get key (put k (JString v) (JObject m)) = if decide (k = key) then Ok (JString v) else json_get key (JObject m)) as Hg.
  { intros key. by eapply json_get_put; [exact Hs|eexists]. }
  split; [by apply shape_put; [|constructor; lia]|by eexists|..]; intros key; rewrite Hg; case_decide; subst; eauto.
  all: unfold text_keys, count_keys, other_keys in *; rewrite list_elem_of_In in *; cbn [In] in *; intros H; exfalso; destruct_or? H; destruct_or? Hk; congruence.
Qed.

Section rows.
Context {R : Type} `{!Wire Report, !Wire TradeCapture, !Wire SessionStatus, !Wire AuctionInfo}.
Context `{!Wire NewOrderSingle, !Wire OrderCancelRequest, !Wire OrderCancelReplaceRequest, !Wire OrderMassCancelRequest, !Wire SessionControl}.

Lemma shape_command limit d i : (S d <= limit)%nat -> json_shape limit d (command i).
Proof.
  intros Hd. unfold command. apply shape_object; [lia|]. apply Forall_app. split; [|repeat constructor; lia].
  destruct i; cbn [command_fields]; rewrite ?Forall_app; split_and?; try (by apply shape_texts); try (by apply shape_numbers).
  repeat constructor. simpl. case_match; [by apply shape_number|by constructor].
Qed.

Lemma shape_row seq index sym kind id data canonical c : json_shape 64 1 data -> json_shape 64 0 (trace_row seq index sym kind id data canonical c).
Proof.
  intros Hd. unfold trace_row. destruct (default _ _) as [owner client]. shape_fields; [|done|].
  - destruct (cl_command_time c); [apply shape_time; lia|constructor; lia].
  - destruct canonical; constructor; lia.
Qed.

Lemma row_trace seq index sym kind id data canonical c :
  is_count seq -> is_count index -> json_shape 64 1 data -> row_ok (trace_row seq index sym kind id data canonical c).
Proof.
  intros Hs Hi Hd. split; [by apply shape_row|..]; unfold trace_row; destruct (default _ _) as [owner client]; [by eexists|..];
    unfold text_keys, count_keys, other_keys; intros key; rewrite list_elem_of_In; cbn [In]; intros H.
  - destruct_or? H; subst; by eexists.
  - destruct_or? H; subst; eexists; [split; [exact Hs|done]|split; [exact Hi|done]].
  - destruct_or? H; subst; by eexists.
Qed.

Lemma shape_diagnostic d : json_shape 64 1 (diagnostic_data d).
Proof. unfold diagnostic_data. assert (json_shape 64 1 (json_object [("cause", JString (dg_cause d))]%string)) by shape_fields. repeat case_match; auto 6 with shape. Qed.

Lemma shape_report cmd input ds r : json_shape 64 1 (report_data cmd input ds r).
Proof. unfold report_data. shape_fields. Qed.

Lemma shape_parts cmd input ds (o : Output R) kind id data at_ : event_parts cmd input ds o = Some (kind, id, data, at_) -> json_shape 64 1 data.
Proof. destruct o; cbn [event_parts]; intros H; try done; injection H as <- <- <- <-; first [apply shape_report|shape_fields]. Qed.

(** ** Diagnostics and events *)

Lemma diagnostic_rows_shift pre seq sym (outs : list (Output R)) ds : forall c index,
  diagnostic_rows seq sym outs ds (rows_shift pre c) index = prod_map (rows_shift pre) (fun x => x) (diagnostic_rows seq sym outs ds c index).
Proof.
  unfold diagnostic_rows. induction ds as [|d ds IH]; intros c index; [done|]. cbn [foldl].
  destruct (is_context d || _); [apply IH|]. rewrite <- IH. f_equal. f_equal. unfold push_row, rows_shift. cbn [cl_rows cl_command_time cl_phases cl_identities].
  by rewrite app_assoc.
Qed.

Lemma diagnostic_rows_ok seq sym (outs : list (Output R)) ds : is_count seq -> forall c index, is_count index ->
  rows_ok c -> rows_ok (diagnostic_rows seq sym outs ds c index).1 /\ is_count (diagnostic_rows seq sym outs ds c index).2.
Proof.
  intros Hs. unfold diagnostic_rows. induction ds as [|d ds IH]; intros c index Hi Hc; [done|]. cbn [foldl].
  destruct (is_context d || _); [by apply IH|]. apply IH; [apply add64_count|]. apply Forall_app. split; [done|]. constructor; [|constructor].
  apply row_trace; [done..|apply shape_diagnostic].
Qed.

Lemma event_row_shift pre seq sym owner cmd input ds (o : Output R) c index :
  event_row seq sym owner cmd input ds o (rows_shift pre c) index = prod_map (rows_shift pre) (fun x => x) (event_row seq sym owner cmd input ds o c index).
Proof.
  unfold event_row. destruct (canonical_event o) as [b|]; [|done]. destruct (event_parts cmd input ds o) as [[[[kind id] data] at_]|]; [|done].
  set (c' := match o with OTradingSessionStatus m => _ | _ => c end).
  assert (match o with OTradingSessionStatus m => set_phase_of sym (ss_phase m) (rows_shift pre c) | _ => rows_shift pre c end = rows_shift pre c') as ->
    by (by destruct o). cbv zeta. unfold push_row, rows_shift, prod_map. cbn [cl_rows cl_command_time cl_phases cl_identities fst snd].
  by rewrite app_assoc.
Qed.

Lemma event_row_ok seq sym owner cmd input ds (o : Output R) c index : is_count seq -> is_count index ->
  rows_ok c -> rows_ok (event_row seq sym owner cmd input ds o c index).1 /\ is_count (event_row seq sym owner cmd input ds o c index).2.
Proof.
  intros Hs Hi Hc. unfold event_row. destruct (canonical_event o) as [b|]; [|done].
  destruct (event_parts cmd input ds o) as [[[[kind id] data] at_]|] eqn:Hp; [|done]. apply shape_parts in Hp. split; [|apply add64_count]. apply Forall_app. split; [by destruct o|].
  constructor; [|constructor]. cbv zeta. match goal with |- context [trace_row _ _ _ _ _ ?d _ _] => assert (json_shape 64 1 d) as Hd; [|revert Hd; generalize d] end.
  { pose proof (shape_time 64 2 (ts_seconds at_) (ts_nanos at_) ltac:(lia)). repeat case_match; auto 6 with shape. }
  intros j Hj. pose proof (fun c => row_trace seq index sym kind id j (Some b) c Hs Hi Hj). destruct o; try done.
  case_match; repeat apply row_put; try done; unfold text_keys; set_solver.
Qed.

(** ** Captures *)

Lemma capture_at_shift pre seq sym k (outs : list (Output R)) diags i c index :
  capture_at seq sym k outs diags i (rows_shift pre c) index = prod_map (rows_shift pre) (fun x => x) (capture_at seq sym k outs diags i c index).
Proof.
  unfold capture_at. cbv zeta.
  match goal with |- (let '(_, _) := diagnostic_rows _ _ _ _ ?c1 _ in _) = prod_map _ _ (let '(_, _) := diagnostic_rows _ _ _ _ ?c2 _ in _) =>
    assert (c1 = rows_shift pre c2) as -> by (by repeat case_match); generalize c2 end.
  intros c'. rewrite diagnostic_rows_shift. destruct (diagnostic_rows _ _ _ _ _ _) as [c'' index']. cbn [prod_map fst snd].
  destruct (outs !! i); [apply event_row_shift|done].
Qed.

Lemma capture_at_ok seq sym k (outs : list (Output R)) diags i c index : is_count seq -> is_count index ->
  rows_ok c -> rows_ok (capture_at seq sym k outs diags i c index).1 /\ is_count (capture_at seq sym k outs diags i c index).2.
Proof.
  intros Hs Hi Hc. unfold capture_at. cbv zeta.
  match goal with |- context [diagnostic_rows _ _ _ ?d ?c1 _] => assert (rows_ok c1) as Hc1 by (by repeat case_match);
    pose proof (diagnostic_rows_ok seq sym outs d Hs c1 index Hi Hc1) as [Hd Hi'] end.
  destruct (diagnostic_rows _ _ _ _ _ _) as [c'' index']. destruct (outs !! i); [by apply event_row_ok|done].
Qed.

Lemma fold_shift {A B : Type} (g : Collector -> A -> B -> Collector * A) pre (l : list B) :
  (forall c a i, g (rows_shift pre c) a i = prod_map (rows_shift pre) (fun x => x) (g c a i)) ->
  forall c a, foldl (fun '(c, a) i => g c a i) (rows_shift pre c, a) l =
    prod_map (rows_shift pre) (fun x => x) (foldl (fun '(c, a) i => g c a i) (c, a) l).
Proof. intros Hg. induction l as [|i l IH]; intros c a; [done|]. cbn [foldl]. rewrite Hg. destruct (g c a i) as [c' a']. apply IH. Qed.

Lemma fold_ok {B : Type} (g : Collector -> Z -> B -> Collector * Z) (l : list B) :
  (forall c a i, is_count a -> rows_ok c -> rows_ok (g c a i).1 /\ is_count (g c a i).2) ->
  forall c a, is_count a -> rows_ok c -> rows_ok (foldl (fun '(c, a) i => g c a i) (c, a) l).1.
Proof.
  intros Hg. induction l as [|i l IH]; intros c a Ha Hc; [done|]. cbn [foldl]. pose proof (Hg c a i Ha Hc) as [Hc' Ha']. destruct (g c a i) as [c' a'].
  by apply IH.
Qed.

(** A capture appends its rows. *)
Lemma capture_shift pre seq sym at_ input (outs : list (Output R)) diags c :
  capture seq sym at_ input outs diags (rows_shift pre c) = rows_shift pre (capture seq sym at_ input outs diags c).
Proof.
  unfold capture. cbv zeta. set (k := capture_command input outs). set (received := put "client_order_id" _ _).
  set (c0 := push_row received (mkCollector (cl_rows c) (Some at_) (cl_phases c) (cl_identities c))).
  match goal with |- (let '(_, _) := foldl _ (?x, 1) _ in _) = _ => assert (x = rows_shift pre c0) as -> end.
  { unfold push_row, rows_shift. simpl. by rewrite app_assoc. }
  rewrite (fold_shift (fun c index i => capture_at seq sym k outs diags i c index)) by (intros; apply capture_at_shift).
  by destruct (foldl _ _ _) as [c' index].
Qed.

Lemma capture_ok seq sym at_ input (outs : list (Output R)) diags c :
  is_count seq -> rows_ok c -> rows_ok (capture seq sym at_ input outs diags c).
Proof.
  intros Hs Hc. unfold capture. cbv zeta. set (k := capture_command input outs). set (received := put "client_order_id" _ _).
  assert (row_ok received) as Hr.
  { repeat apply row_put; [unfold text_keys; set_solver..|]. apply row_trace; [done|by unfold is_count, u64_max|]. apply shape_command. lia. }
  pose proof (fold_ok (fun c index i => capture_at seq sym k outs diags i c index) (List.seq 0 (S (length outs)))
    (fun c a i => capture_at_ok seq sym k outs diags i c a Hs)
    (push_row received (mkCollector (cl_rows c) (Some at_) (cl_phases c) (cl_identities c))) 1) as Hf.
  destruct (foldl _ _ _) as [c' index]. apply Hf; [by unfold is_count, u64_max|]. apply Forall_app. split; [done|constructor; [done|constructor]].
Qed.
End rows.
