(* ===== verification/BundleFiles.v ===== *)
(** * Files of a bundle across crashes

    What can be found of each file after a crash, for the operations a recording
    uses: an atomic write either has happened or has not, a synced file is all
    there, and no operation disturbs the other names. *)

From S2P Require Import Prelude BTree Text Bytes Json Order Session SymbolConfig Proto Reports EventLog Canonical Digest Trace Recording.

(** ** Definitions *)

(** Entries name files that exist. *)
Definition fs_wf (fs : Fs) : Prop :=
  forall name n, fs_dir fs !! name = Some n \/ fs_durable fs !! name = Some n -> (n < length (fs_files fs))%nat.

(** Every crash finds these bytes. *)
Definition settled (name : string) (bytes : list Z) (fs : Fs) : Prop := forall found, crashed fs name found -> found = Some bytes.

(** The name is on disk, and these bytes have been written to its file. *)
Definition written (name : string) (bytes : list Z) (fs : Fs) : Prop :=
  fs_durable fs !! name = fs_dir fs !! name /\ fs_read name fs = Some bytes.

(** Crashes of the second find nothing new of a name. *)
Definition keeps (name : string) (fs fs' : Fs) : Prop := forall found, crashed fs' name found -> crashed fs name found.

(** ** Crashes *)

Lemma keeps_refl name fs : keeps name fs fs.
Proof. by intros found. Qed.

Lemma keeps_trans name fs1 fs2 fs3 : keeps name fs1 fs2 -> keeps name fs2 fs3 -> keeps name fs1 fs3.
Proof. intros H1 H2 found H. by apply H1, H2. Qed.

Lemma settled_keeps name bytes fs fs' : settled name bytes fs -> keeps name fs fs' -> settled name bytes fs'.
Proof. intros Hs Hk found H. by apply Hs, Hk. Qed.

(** What a reader finds is one of the possibilities. *)
Lemma read_crashed name fs : fs_wf fs -> crashed fs name (fs_read name fs).
Proof.
  intros Hwf. exists (fs_dir fs !! name). split; [by left|]. unfold fs_read, fs_lookup. destruct (fs_dir fs !! name) as [n|] eqn:Hn; [|done].
  destruct (lookup_lt_is_Some_2 (fs_files fs) n) as [f Hf]; [by eapply Hwf; left|]. simpl. rewrite Hf. exists f, (Nat.max (f_durable f) (length (f_written f))).
  split; [done|]. split; [lia|]. simpl. by rewrite take_ge by lia.
Qed.

(** ** One operation *)

Lemma step_wf op fs fs' : fs_wf fs -> fs_step op fs = Some fs' -> fs_wf fs'.
Proof.
  intros Hwf. destruct op as [name|name bytes|name|from to|]; cbn [fs_step]; unfold fs_update.
  - destruct (fs_dir fs !! name) eqn:Hn; [done|]. intros [= <-] x n. simpl. rewrite length_app. simpl.
    rewrite lookup_insert_Some. intros [[[_ <-]|[_ H]]|H]; [lia| |]; (assert (n < length (fs_files fs))%nat by (eapply Hwf; eauto)); lia.
  - destruct (fs_dir fs !! name); [|done]. intros [= <-] x m. simpl. rewrite length_alter. apply Hwf.
  - destruct (fs_dir fs !! name); [|done]. intros [= <-] x m. simpl. rewrite length_alter. apply Hwf.
  - destruct (fs_dir fs !! from) eqn:Hn; [|done]. intros [= <-] x m. simpl. rewrite lookup_insert_Some, lookup_delete_Some.
    intros [[[_ <-]|[_ [_ H]]]|H]; eauto.
  - intros [= <-] x m. simpl. intros [H|H]; eauto.
Qed.

Lemma step_dir_keeps name fs dir durable :
  (dir !! name = fs_dir fs !! name \/ dir !! name = fs_durable fs !! name) ->
  (durable !! name = fs_dir fs !! name \/ durable !! name = fs_durable fs !! name) -> keeps name fs (mkFs (fs_files fs) dir durable).
Proof.
  intros Hd Hu found (entry & He & Hf). exists entry. split; [|done]. simpl in He. destruct He as [->| ->]; done.
Qed.

(** Changing a file that no entry of a name refers to. *)
Lemma alter_keeps name g n fs : fs_dir fs !! name <> Some n -> fs_durable fs !! name <> Some n ->
  keeps name fs (mkFs (alter g n (fs_files fs)) (fs_dir fs) (fs_durable fs)).
Proof.
  intros Hd Hu found (entry & He & Hf). exists entry. split; [done|]. simpl in *. destruct entry as [m|]; [|done].
  rewrite list_lookup_alter_ne in Hf by (intros ->; destruct He; congruence). done.
Qed.

(** Syncing leaves fewer possibilities. *)
Lemma sync_keeps name x fs fs' : fs_step (SyncFile x) fs = Some fs' -> keeps name fs fs'.
Proof.
  cbn [fs_step]. unfold fs_update. destruct (fs_dir fs !! x) as [n|]; [|done]. intros [= <-] found (entry & He & Hf). exists entry. split; [done|].
  simpl in *. destruct entry as [m|]; [|done]. destruct Hf as (f & k & Hf & Hk & ->). destruct (decide (m = n)) as [->|Hne].
  - rewrite list_lookup_alter_eq in Hf. destruct (fs_files fs !! n) as [f0|] eqn:Hf0; [|done]. simpl in Hf. injection Hf as <-. simpl in *.
    exists f0, (Nat.max k (f_durable f0)). split; [done|]. split; [lia|]. by rewrite !take_ge by lia.
  - rewrite list_lookup_alter_ne in Hf by done. eauto.
Qed.

Lemma sync_settles name bytes fs fs' : written name bytes fs -> fs_step (SyncFile name) fs = Some fs' -> settled name bytes fs'.
Proof.
  intros [Hd Hr]. cbn [fs_step]. unfold fs_update. unfold fs_read, fs_lookup in Hr. destruct (fs_dir fs !! name) as [n|] eqn:Hn; [|done].
  simpl in Hr. intros [= <-] found (entry & He & Hf). simpl in He. rewrite Hd, Hn in He. destruct He as [->| ->].
  all: destruct Hf as (f & k & Hf & Hk & ->); simpl in Hf; rewrite list_lookup_alter_eq in Hf; destruct (fs_files fs !! n) as [f0|]; [|done];
    simpl in *; injection Hf as <-; simpl in *; injection Hr as <-; by rewrite take_ge by lia.
Qed.

(** ** Atomic writes *)

Lemma tmp_name_ne name : tmp_name name <> name.
Proof.
  unfold tmp_name. intros H. apply (f_equal String.length) in H.
  assert (forall s t : string, String.length (s ++ t) = String.length s + String.length t)%nat as Hl.
  { intros s t. induction s as [|c s IH]; [done|]. change (S (String.length (s ++ t)) = S (String.length s + String.length t))%nat. by rewrite IH. }
  rewrite !Hl in H. cbn [String.length] in H. lia.
Qed.

(** However far an atomic write gets, a crash finds of its name what it found
    before, or the new bytes; and only the new bytes once it is over. The other
    names are as they were. *)
Record written_atomically (name : string) (bytes : list Z) (ok : bool) (fs fs' : Fs) : Prop := {
  at_wf : fs_wf fs';
  at_new found : crashed fs' name found -> found = Some bytes \/ crashed fs name found;
  at_done : ok = true -> settled name bytes fs';
  at_others x : x <> name -> x <> tmp_name name -> keeps x fs fs';
}.

Section atomic.
Context (name : string) (bytes : list Z) (fs : Fs) (Hwf : fs_wf fs).

Abbreviation n := (length (fs_files fs)).
Abbreviation tmp := (tmp_name name).

(** The states an atomic write goes through. *)
Definition at_created : Fs := mkFs (fs_files fs ++ [mkFile [] 0]) (<[tmp := n]> (fs_dir fs)) (fs_durable fs).
Definition at_filled (k : nat) : Fs := mkFs (fs_files fs ++ [mkFile bytes k]) (<[tmp := n]> (fs_dir fs)) (fs_durable fs).
Definition at_renamed (dir : gmap string nat) : Fs :=
  mkFs (fs_files fs ++ [mkFile bytes (length bytes)]) (<[name := n]> (delete tmp (<[tmp := n]> (fs_dir fs)))) dir.

Lemma alter_last g f : alter g n (fs_files fs ++ [f]) = fs_files fs ++ [g f].
Proof. rewrite <- (Nat.add_0_r n), alter_app_r. done. Qed.

Lemma step_write : fs_step (WriteAll tmp bytes) at_created = Some (at_filled 0).
Proof. unfold at_created. cbn [fs_step]. unfold fs_update. cbn [fs_dir fs_files fs_durable]. rewrite lookup_insert_eq, alter_last. done. Qed.

Lemma step_sync : fs_step (SyncFile tmp) (at_filled 0) = Some (at_filled (length bytes)).
Proof. unfold at_filled. cbn [fs_step]. unfold fs_update. cbn [fs_dir fs_files fs_durable]. rewrite lookup_insert_eq, alter_last. done. Qed.

Lemma step_rename : fs_step (Rename tmp name) (at_filled (length bytes)) = Some (at_renamed (fs_durable fs)).
Proof. unfold at_filled. cbn [fs_step fs_dir fs_files fs_durable]. by rewrite lookup_insert_eq. Qed.

Lemma atomic_steps b ok fs' : fs_run b (atomic_write name bytes) fs = (ok, fs') ->
  ok = false /\ (fs' = fs \/ fs' = at_created \/ fs' = at_filled 0 \/ fs' = at_filled (length bytes) \/ fs' = at_renamed (fs_durable fs)) \/
  ok = true /\ fs' = at_renamed (fs_dir (at_renamed ∅)).
Proof using Type.
  unfold atomic_write. destruct b as [|b]; cbn [fs_run]; [intros H; injection H as <- <-; left; auto 9|]. cbn [fs_step].
  destruct (fs_dir fs !! tmp) eqn:Ht; [intros H; injection H as <- <-; left; auto 9|]. fold at_created.
  destruct b as [|b]; cbn [fs_run]; [intros H; injection H as <- <-; left; auto 9|]. rewrite step_write.
  destruct b as [|b]; cbn [fs_run]; [intros H; injection H as <- <-; left; auto 9|]. rewrite step_sync.
  destruct b as [|b]; cbn [fs_run]; [intros H; injection H as <- <-; left; auto 9|]. rewrite step_rename.
  destruct b as [|b]; cbn [fs_run]; [intros H; injection H as <- <-; left; auto 9|]. cbn [fs_step]. destruct b; intros H; injection H as <- <-; by right.
Qed.

(** A crash of any of these states, seen through one entry. *)
Lemma appended_keeps x f dir durable :
  (forall m, dir !! x = Some m -> fs_dir fs !! x = Some m \/ fs_durable fs !! x = Some m) ->
  (dir !! x = None -> fs_dir fs !! x = None \/ fs_durable fs !! x = None) ->
  (forall m, durable !! x = Some m -> fs_dir fs !! x = Some m \/ fs_durable fs !! x = Some m) ->
  (durable !! x = None -> fs_dir fs !! x = None \/ fs_durable fs !! x = None) ->
  keeps x fs (mkFs (fs_files fs ++ [f]) dir durable).
Proof using Hwf.
  intros H1 H2 H3 H4 found (entry & He & Hf). assert (entry = fs_dir fs !! x \/ entry = fs_durable fs !! x) as He'.
  { simpl in He. destruct He; subst entry; [destruct (dir !! x) as [m|] eqn:E|destruct (durable !! x) as [m|] eqn:E]; [edestruct H1|edestruct H2|edestruct H3|edestruct H4]; eauto. }
  exists entry. split; [done|]. destruct entry as [m|]; [|done]. simpl in Hf. rewrite lookup_app_l in Hf; [done|]. apply (Hwf x). destruct He' as [->| ->]; auto.
Qed.

Lemma created_keeps x f : x <> tmp -> keeps x fs (mkFs (fs_files fs ++ [f]) (<[tmp := n]> (fs_dir fs)) (fs_durable fs)).
Proof using Hwf. intros Hx. apply appended_keeps; rewrite ?lookup_insert_ne by done; auto. Qed.

Lemma renamed_keeps x dir : x <> tmp -> x <> name -> (dir !! x = fs_dir fs !! x \/ dir !! x = fs_durable fs !! x) -> keeps x fs (at_renamed dir).
Proof using Hwf.
  intros H1 H2 Hd. apply appended_keeps; rewrite ?lookup_insert_ne, ?lookup_delete_ne, ?lookup_insert_ne by done; auto.
  all: destruct Hd as [-> | ->]; auto.
Qed.

Lemma renamed_found found : crashed (at_renamed (fs_durable fs)) name found -> found = Some bytes \/ crashed fs name found.
Proof using Hwf.
  intros (entry & He & Hf). simpl in He. rewrite lookup_insert_eq in He. destruct He as [->| ->].
  - left. simpl in Hf. destruct Hf as (f & k & Hf & Hk & ->). rewrite lookup_app_r, Nat.sub_diag in Hf by lia. injection Hf as <-. simpl in *.
    by rewrite take_ge by lia.
  - right. exists (fs_durable fs !! name). split; [by right|]. destruct (fs_durable fs !! name) as [m|] eqn:E; [|done]. simpl in Hf.
    rewrite lookup_app_l in Hf; [done|]. apply (Hwf name). auto.
Qed.

Lemma renamed_settled : settled name bytes (at_renamed (fs_dir (at_renamed ∅))).
Proof using Type.
  intros found (entry & He & Hf). assert (entry = Some n) as -> by (simpl in He; rewrite lookup_insert_eq in He; by destruct He).
  simpl in Hf. destruct Hf as (f & k & Hf & Hk & ->). rewrite lookup_app_r, Nat.sub_diag in Hf by lia. injection Hf as <-. simpl in *.
  by rewrite take_ge by lia.
Qed.

Lemma states_wf dir durable f :
  (forall x m, dir !! x = Some m -> m = n \/ fs_dir fs !! x = Some m \/ fs_durable fs !! x = Some m) ->
  (forall x m, durable !! x = Some m -> m = n \/ fs_dir fs !! x = Some m \/ fs_durable fs !! x = Some m) ->
  fs_wf (mkFs (fs_files fs ++ [f]) dir durable).
Proof using Hwf.
  intros H1 H2 x m. simpl. rewrite length_app. simpl. intros [H|H]; [apply H1 in H|apply H2 in H].
  all: destruct H as [->|H]; [lia|]; assert (m < n)%nat by (eapply Hwf; exact H); lia.
Qed.

Lemma renamed_wf dir : (forall x m, dir !! x = Some m -> m = n \/ fs_dir fs !! x = Some m \/ fs_durable fs !! x = Some m) -> fs_wf (at_renamed dir).
Proof using Hwf.
  intros Hd. apply states_wf; [|done]. intros x m. rewrite lookup_insert_Some, lookup_delete_Some, lookup_insert_Some.
  intros [[_ <-]|(_ & _ & [[_ <-]|[_ H]])]; auto.
Qed.

Lemma atomic_partial b ok fs' : fs_run b (atomic_write name bytes) fs = (ok, fs') -> written_atomically name bytes ok fs fs'.
Proof using Hwf.
  pose proof (tmp_name_ne name) as Hne. intros [[-> H]|[-> ->]]%atomic_steps.
  - assert (forall f, fs_wf (mkFs (fs_files fs ++ [f]) (<[tmp := n]> (fs_dir fs)) (fs_durable fs))) as Hw.
    { intros f. apply states_wf; [|auto]. intros x m. rewrite lookup_insert_Some. intros [[_ <-]|[_ H']]; auto. }
    destruct H as [->|H]; [split; [done|auto|done|by intros x _ _ found]|].
    assert ((exists f, fs' = mkFs (fs_files fs ++ [f]) (<[tmp := n]> (fs_dir fs)) (fs_durable fs)) \/ fs' = at_renamed (fs_durable fs)) as [[f ->]| ->]
      by (destruct H as [->|[->|[->| ->]]]; [left; by eexists..|by right]).
    + split; [apply Hw|intros found Hf; right; revert found Hf; by apply created_keeps|done|intros x _ Hx; by apply created_keeps].
    + split; [by apply renamed_wf; auto|apply renamed_found|done|intros x Hx Hx'; apply renamed_keeps; auto].
  - split; [| |intros _; apply renamed_settled|].
    + apply renamed_wf. simpl. intros x m. rewrite lookup_insert_Some, lookup_delete_Some, lookup_insert_Some. intros [[_ <-]|(_ & _ & [[_ <-]|[_ H]])]; auto.
    + intros found Hf. left. by apply renamed_settled.
    + intros x Hx Hx'. apply renamed_keeps; [done..|]. simpl. left. by rewrite lookup_insert_ne, lookup_delete_ne, lookup_insert_ne.
Qed.
End atomic.

(** ** The files of a recording *)

(** The directory of a bundle that is being recorded. *)
Definition bundle_dir : gmap string nat :=
  Eval vm_compute in list_to_map [(".recording.lock", 0%nat); ("events.jsonl", 1%nat); ("symbols.csv", 2%nat); ("manifest.json", 3%nat)]%string.

(** Its files: [k] bytes of the trace are durable. *)
Definition bundle_fs (trace : list Z) (k : nat) (symbols manifest : list Z) : Fs :=
  mkFs [mkFile [] 0; mkFile trace k; mkFile symbols (length symbols); mkFile manifest (length manifest)] bundle_dir bundle_dir.

Lemma fs_run_enough ops : forall b fs fs', fs_run b ops fs = (true, fs') -> fs_run (length ops) ops fs = (true, fs').
Proof.
  induction ops as [|op ops IH]; intros [|b] fs fs' H; try done. cbn [fs_run length] in *. destruct (fs_step op fs) as [fs1|]; [|done]. eauto.
Qed.

Lemma create_fs b symbols manifest fs :
  fs_run b ([CreateNew ".recording.lock"; CreateNew "events.jsonl"]%string ++ atomic_write "symbols.csv" symbols ++ atomic_write "manifest.json" manifest)
    fs_empty = (true, fs) ->
  fs = bundle_fs [] 0 symbols manifest.
Proof. intros H%fs_run_enough. vm_compute in H. injection H as <-. vm_compute. reflexivity. Qed.

Lemma bundle_read trace k symbols manifest : fs_read "events.jsonl" (bundle_fs trace k symbols manifest) = Some trace.
Proof. reflexivity. Qed.

Lemma bundle_append trace k symbols manifest bytes :
  fs_step (WriteAll "events.jsonl" bytes) (bundle_fs trace k symbols manifest) = Some (bundle_fs (trace ++ bytes) k symbols manifest).
Proof. reflexivity. Qed.

Section bundle.
Context (trace : list Z) (k : nat) (symbols manifest : list Z).

Abbreviation fs := (bundle_fs trace k symbols manifest).

Lemma bundle_wf : fs_wf fs.
Proof.
  intros name n H. assert (bundle_dir !! name = Some n) as Hn by (by destruct H). apply elem_of_map_to_list, list_elem_of_In in Hn.
  assert (forallb (fun x => (x.2 <? 4)%nat) (map_to_list bundle_dir) = true) as Hall by (vm_compute; reflexivity).
  rewrite forallb_forall in Hall. apply Hall in Hn. by apply Nat.ltb_lt in Hn.
Qed.

Lemma bundle_written : written "events.jsonl" trace fs.
Proof. done. Qed.

Lemma settled_entry name n bytes dir durable files :
  dir !! name = Some n -> durable !! name = Some n -> files !! n = Some (mkFile bytes (length bytes)) -> settled name bytes (mkFs files dir durable).
Proof.
  intros H1 H2 Hf found (entry & He & H). simpl in He. rewrite H1, H2 in He. assert (entry = Some n) as -> by (by destruct He).
  destruct H as (f & j & Hf' & Hk & ->). simpl in Hf'. rewrite Hf in Hf'. injection Hf' as <-. simpl in *. by rewrite take_ge by lia.
Qed.

Lemma bundle_symbols : settled "symbols.csv" symbols fs.
Proof. by apply (settled_entry _ 2). Qed.

Lemma bundle_manifest : settled "manifest.json" manifest fs.
Proof. by apply (settled_entry _ 3). Qed.
End bundle.

(** What a crash during or after [finish] can find: the recorded files with the
    old manifest, or all of them with the new one. *)
Lemma finish_found `{!Sha256} budget log summary now trace k symbols r res r' found :
  rc_fs r = bundle_fs trace k symbols (bytes_of (json_encode (rc_manifest r))) -> rc_finished r = false ->
  recording_finish budget log summary now r = (res, r') -> (forall name, crashed (rc_fs r') name (found name)) ->
  found "symbols.csv"%string = Some symbols /\
  (found "manifest.json"%string = Some (bytes_of (json_encode (rc_manifest r))) /\ res <> Ok tt \/
   rc_trace_failed r = false /\
   found "manifest.json"%string = Some (bytes_of (json_encode (finished_manifest (sha256 log) (sha256 trace) now (rc_manifest r)))) /\
   found "expected.json"%string = Some (bytes_of (json_encode (summary_json summary))) /\ found "events.jsonl"%string = Some trace).
Proof.
  intros Hfs Hfin. unfold recording_finish. rewrite Hfin, Hfs, bundle_read. set (m := bytes_of (json_encode (rc_manifest r))) in *.
  pose proof (bundle_symbols trace k symbols m) as Hsym. pose proof (bundle_manifest trace k symbols m) as Hman.
  destruct (rc_trace_failed r) eqn:Htf.
  { intros [= <- <-] Hf. rewrite Hfs in Hf. split; [by apply Hsym|]. left. split; [by apply Hman|done]. }
  cbn [expected_ops app]. destruct budget as [|b].
  { cbn [fs_run]. intros [= <- <-] Hf. split; [by apply Hsym|]. left. split; [by apply Hman|done]. }
  cbn [fs_run]. destruct (fs_step (SyncFile "events.jsonl") _) as [fs1|] eqn:Hs; [|discriminate].
  pose proof (step_wf _ _ _ (bundle_wf trace k symbols m) Hs) as Hwf1. pose proof (sync_settles _ _ _ _ (bundle_written trace k symbols m) Hs) as Hev.
  pose proof (settled_keeps _ _ _ _ Hsym (sync_keeps _ _ _ _ Hs)) as Hsym1. pose proof (settled_keeps _ _ _ _ Hman (sync_keeps _ _ _ _ Hs)) as Hman1.
  destruct (fs_run b _ fs1) as [ok fs2] eqn:He. pose proof (atomic_partial _ _ _ Hwf1 _ _ _ He) as [Hwf2 _ Hexp Ho].
  pose proof (settled_keeps _ _ _ _ Hsym1 (Ho "symbols.csv"%string ltac:(done) ltac:(done))) as Hsym2. pose proof (settled_keeps _ _ _ _ Hman1 (Ho "manifest.json"%string ltac:(done) ltac:(done))) as Hman2.
  pose proof (settled_keeps _ _ _ _ Hev (Ho "events.jsonl"%string ltac:(done) ltac:(done))) as Hev2.
  destruct ok.
  - specialize (Hexp eq_refl). unfold publish_ops. destruct (fs_run _ _ fs2) as [ok fs3] eqn:Hp. pose proof (atomic_partial _ _ _ Hwf2 _ _ _ Hp) as [_ Hnew Hdone Ho'].
    pose proof (settled_keeps _ _ _ _ Hsym2 (Ho' "symbols.csv"%string ltac:(done) ltac:(done))) as Hsym3. pose proof (settled_keeps _ _ _ _ Hev2 (Ho' "events.jsonl"%string ltac:(done) ltac:(done))) as Hev3.
    pose proof (settled_keeps _ _ _ _ Hexp (Ho' "expected.json"%string ltac:(done) ltac:(done))) as Hexp3.
    intros Hr Hf. assert (rc_fs r' = fs3 /\ (ok = false -> res <> Ok tt)) as [Hr' Hres] by (destruct ok; by injection Hr as <- <-). rewrite Hr' in Hf.
    split; [by apply Hsym3|]. destruct ok; [right; split_and!; [done|by apply (Hdone eq_refl)|by apply Hexp3|by apply Hev3]|].
    destruct (Hnew _ (Hf _)) as [->|Hold]; [right; split_and!; [done|done|by apply Hexp3|by apply Hev3]|]. left. split; [by apply Hman2|auto].
  - intros [= <- <-] Hf. split; [by apply Hsym2|]. left. split; [by apply Hman2|done].
Qed.
