(* ===== verification/ReplayMirror.v ===== *)
(** * Replaying a recorded run

    While a run is recorded, the offline replay of its log so far is the run
    itself without connections, with all the rows written so far in front of the
    rows of its collector. *)

From S2P Require Import Prelude BTree Text Bytes Json JsonSpec JsonText Order OrderBook Matcher Stops Session SymbolConfig Auction Proto Reports EventLog Engine.
From S2P Require Import LogRecovery Canonical EngineOwners Digest Trace Recording Journal JournalOwners JournalRecovery Bundle TraceRows BundleFiles.

Section mirror.
Context `{!Sha256, !Build} {R : Type}.
Context `{!Wire Report, !Wire TradeCapture, !Wire SessionStatus, !Wire AuctionInfo}.
Context `{!Wire NewOrderSingle, !Wire OrderCancelRequest, !Wire OrderCancelReplaceRequest, !Wire OrderMassCancelRequest, !Wire SessionControl}.
Context `{!WireLaws NewOrderSingle, !WireLaws OrderCancelRequest, !WireLaws OrderCancelReplaceRequest, !WireLaws OrderMassCancelRequest, !WireLaws SessionControl}.
Context `{!Wire LogRecord, !WireLaws LogRecord}.
Context (schedule : option SessionSchedule) (stp : StpMode) (detached : R) (config : SymbolConfig).

(** ** Definitions *)

(** The replay of records that have been read. *)
Fixpoint replay_list (rs : list LogRecord) (j : Journal unit) : outcome (result (Journal unit) string) :=
  match rs with
  | [] => Done (Ok j)
  | r :: rs =>
    if negb (lr_seq r =? next_seq (j_log j)) then Done (Err "event log sequence gap"%string)
    else
      let* x := execute_record r j in
      match x with
      | Err e => Done (Err e)
      | Ok (_, j) =>
        if u64_max <=? next_seq (j_log j) then Done (Err "event sequence exhausted"%string)
        else replay_list rs (set_log (mkEventLog (log_file (j_log j)) (next_seq (j_log j) + 1) false) j)
      end
  end.

(** The journal an inspection starts from. *)
Definition replay_start (file : list Z) : Journal unit :=
  journal_new (mkEventLog file 1 false) (Some collector_default) None schedule stp tt config.

(** The replay of a run that has written these rows. *)
Definition mirrored (file : list Z) (rows : list Json) (j : Journal R) : Journal unit :=
  set_log (mkEventLog file (next_seq (j_log j)) false)
    (set_recording (rows_shift rows <$> j_inspection j) None (journal_map (fun _ => tt) j)).

(** ** Records *)

Lemma replay_frames rs : forall bss fuel complete j,
  Forall2 framed rs bss -> (length (concat bss) < fuel)%nat -> replay_records fuel complete (concat bss) j = replay_list rs j.
Proof using WireLaws5.
  induction rs as [|r rs IH]; intros bss fuel complete j Hf Hl.
  - apply Forall2_nil_inv_l in Hf as ->. destruct fuel; [simpl in Hl; lia|done].
  - apply Forall2_cons_inv_l in Hf as (b & bss' & Hb & Hf & ->). destruct fuel as [|fuel]; [lia|]. cbn [replay_records concat].
    pose proof (length_frame _ _ Hb) as Hlen. simpl concat in Hl. rewrite length_app in Hl.
    destruct (is_nil (b ++ concat bss')) eqn:Hn.
    { apply is_nil_true in Hn. apply app_eq_nil in Hn as [-> _]. simpl in Hlen. lia. }
    rewrite (read_frame_app _ _ _ Hb). cbn [replay_list]. destruct (negb _); [done|]. destruct (execute_record r j) as [[[outs j']|e]| |]; try done.
    cbn [obind]. destruct (_ <=? _); [done|]. apply IH; [done|lia].
Qed.

Lemma replay_list_snoc rs r : forall j,
  replay_list (rs ++ [r]) j = let* x := replay_list rs j in match x with Err e => Done (Err e) | Ok j => replay_list [r] j end.
Proof.
  induction rs as [|r0 rs IH]; intros j; [done|]. cbn [app replay_list]. destruct (negb _); [done|].
  destruct (execute_record r0 j) as [[[outs j']|e]| |]; try done. cbn [obind]. destruct (_ <=? _); [done|]. apply IH.
Qed.

(** The offline replay of a log, header included. *)
Lemma journal_replay_frames log rs h bss complete :
  holds schedule stp config log rs h bss ->
  journal_replay schedule stp tt config complete true (log_file log) = replay_list rs (replay_start (log_file log)).
Proof using WireLaws5.
  intros [Hh Hf Hn Hs Hfile Hl]. unfold journal_replay. rewrite Hfile at 1. rewrite read_exact_app by reflexivity.
  rewrite bool_decide_false by (intros Hx; by apply Hx). rewrite (read_frame_app _ _ _ Hh).
  rewrite bool_decide_false by (intros Hx; by apply Hx). apply (replay_frames rs bss); [done|lia].
Qed.

(** ** One input *)

Lemma execute_mirror {T : Type} sym at_ input (owner : T) (j : Journal T) L rows rec :
  match rec with Some _ => next_seq L - 1 | None => next_seq L end = match j_recording j with Some _ => next_seq (j_log j) - 1 | None => next_seq (j_log j) end ->
  execute sym at_ input owner (set_log L (set_recording (rows_shift rows <$> j_inspection j) rec j)) =
  outcome_map (prod_map (fun x => x) (fun j' => set_log L (set_recording (rows_shift rows <$> j_inspection j') rec j'))) (execute sym at_ input owner j).
Proof.
  intros Hseq. unfold execute.
  assert (engine_for sym at_ (set_log L (set_recording (rows_shift rows <$> j_inspection j) rec j)) = engine_for sym at_ j) as ->.
  { unfold engine_for. cbn [set_log set_recording j_engines j_ids j_schedule j_stp_default j_config j_inspection].
    destruct (j_engines j !! sym); [done|]. by destruct (j_inspection j). }
  change (j_ids (set_log L (set_recording (rows_shift rows <$> j_inspection j) rec j))) with (j_ids j). apply obind_shared. intros e.
  destruct (take_diagnostics (fresh e)) as [diags e']. cbn [set_log set_recording j_log j_digest j_inspection j_recording j_engines j_ids j_schedule j_stp_default j_detached j_config outcome_map prod_map fst snd].
  rewrite Hseq. do 2 f_equal. unfold set_log, set_recording. cbn [j_log j_digest j_inspection j_recording j_engines j_ids j_schedule j_stp_default j_detached j_config].
  f_equal. destruct (j_inspection j) as [c|]; [|done]. cbn [fmap option_fmap option_map]. by rewrite capture_shift.
Qed.

(** One more input, with its record. *)
Lemma mirrored_step file rows rs sym at_ input (owner : R) j log' outs j1 r :
  j_recording j = Some r -> input_for sym at_ input -> next_seq log' = next_seq (j_log j) + 1 -> next_seq (j_log j) < u64_max ->
  execute sym at_ input owner (set_log log' j) = Done (outs, j1) ->
  replay_list rs (replay_start file) = Done (Ok (mirrored file rows j)) ->
  replay_list (rs ++ [record_of (next_seq (j_log j)) sym at_ input]) (replay_start file) = Done (Ok (mirrored file rows j1)).
Proof using WireLaws0 WireLaws1 WireLaws2 WireLaws3 WireLaws4.
  intros Hr Hin Hseq Hlt He Hrep. rewrite replay_list_snoc, Hrep. cbn [obind replay_list]. cbn [record_of lr_seq].
  change (next_seq (j_log (mirrored file rows j))) with (next_seq (j_log j)). rewrite Z.eqb_refl. cbn [negb].
  unfold execute_record. rewrite input_roundtrip by done. cbn [lr_symbol lr_seconds lr_nanos record_of].
  replace (mkTime (Reports.seconds at_) (Reports.nanos at_)) with at_ by (by destruct at_).
  change (j_detached (mirrored file rows j)) with tt.
  pose proof (execute_natural (fun _ => tt) sym at_ input owner (set_log log' j)) as Hn. rewrite He in Hn. cbv beta in Hn. cbn [outcome_map prod_map fst snd] in Hn.
  pose proof (execute_mirror sym at_ input tt (journal_map (fun _ => tt) (set_log log' j)) (mkEventLog file (next_seq (j_log j)) false) rows None) as Hm.
  cbn [journal_map set_log j_recording j_log next_seq] in Hm. rewrite Hr, Hseq in Hm. specialize (Hm ltac:(lia)).
  change (execute sym at_ input tt (mirrored file rows j) = outcome_map (prod_map (fun x => x) (fun j' : Journal unit =>
    set_log (mkEventLog file (next_seq (j_log j)) false) (set_recording (rows_shift rows <$> j_inspection j') None j')))
    (execute sym at_ input tt (journal_map (fun _ => tt) (set_log log' j)))) in Hm.
  rewrite Hm, Hn. cbn [outcome_map prod_map fst snd obind]. cbn [set_log j_log next_seq].
  destruct (Z.leb_spec u64_max (next_seq (j_log j))); [lia|]. destruct (execute_keeps _ _ _ _ _ _ _ He) as (K0 & _).
  unfold mirrored. rewrite K0. cbn [set_log j_log]. rewrite Hseq. done.
Qed.

(** ** Recorded runs *)

(** A run that is being recorded: any inputs, with any behaviour of the disks. *)
Inductive recorded_run (meta start : string) : Journal R -> Prop :=
| rr_start existing budget j :
    journal_record existing budget schedule stp detached config meta start = Done (Ok j) -> recorded_run meta start j
| rr_apply j sym at_ input owner disk trace res j' :
    recorded_run meta start j -> input_for sym at_ input -> apply sym at_ input owner disk trace j = Done (res, j') ->
    recorded_run meta start j'.

Definition digest_counts (d : BusinessDigest) : Prop :=
  is_count (st_count (bd_global d)) /\ Forall (fun e => is_count (st_count e.2)) (bd_symbols d).

(** The rows written so far are those of the replay, unless the trace failed. *)
Definition replayable (j : Journal R) (r : Recording) (trace : list Z) (rs : list LogRecord) : Prop :=
  rc_trace_failed r = false ->
  exists rows c, trace = trace_bytes rows /\ Forall row_ok rows /\ j_inspection j = Some c /\ cl_rows c = [] /\
    forall file, replay_list rs (replay_start file) = Done (Ok (mirrored file rows j)).

Record recording_inv (meta start : string) (j : Journal R) (r : Recording) (trace : list Z) : Prop := {
  rg_recording : j_recording j = Some r;
  rg_files : rc_fs r = bundle_fs trace 0 (bytes_of (canonical config)) (bytes_of (json_encode (rc_manifest r)));
  rg_manifest : exists m, json_parse meta = Done (Ok (JObject m)) /\ rc_manifest r = manifest_of schedule stp config (JObject m) start;
  rg_parsed : exists j', json_parse (json_encode (rc_manifest r)) = Done (Ok j');
  rg_open : rc_finished r = false;
  rg_counts : digest_counts (j_digest j);
  rg_inspected : is_Some (j_inspection j);
  rg_replay : log_failed (j_log j) = false ->
    exists h rs bss, holds schedule stp config (j_log j) rs h bss /\ replayable j r trace rs;
}.

Lemma trace_bytes_app a b : trace_bytes (a ++ b) = trace_bytes a ++ trace_bytes b.
Proof. apply bind_app. Qed.

Lemma observe_counts sym (outs : list (Output R)) d : digest_counts d -> digest_counts (observe sym outs d).
Proof.
  intros [Hg Hs]. unfold observe. set (s := default stream_default (bt_get sym (bd_symbols d))).
  assert (is_count (st_count s)) as Hc.
  { unfold s. destruct (bt_get sym (bd_symbols d)) as [s'|] eqn:E; [|by unfold is_count, u64_max]. apply bt_get_Some_elem in E.
    rewrite Forall_forall in Hs. by apply (Hs (sym, s')). }
  assert (forall g s, is_count (st_count g) -> is_count (st_count s) ->
    let x := foldl (fun '(global, stream) o => match canonical_event o with Some b => (stream_push b global, stream_push b stream) | None => (global, stream) end) (g, s) outs in
    is_count (st_count x.1) /\ is_count (st_count x.2)) as Hfold.
  { induction outs as [|o outs IH]; intros g s' H1 H2; [done|]. cbn [foldl]. destruct (canonical_event o); apply IH; try done; apply add64_count. }
  specialize (Hfold (bd_global d) s Hg Hc). destruct (foldl _ _ outs) as [g' s']. destruct Hfold as [H1 H2]. split; [done|].
  rewrite Forall_forall in *. cbn [bd_symbols]. intros e [->|He]%bt_insert_elem; auto.
Qed.

Lemma recording_start meta start existing budget j :
  journal_record existing budget schedule stp detached config meta start = Done (Ok j) -> exists r, recording_inv meta start j r [].
Proof using WireLaws5.
  unfold journal_record, recording_create. destruct (_ <? _); [done|]. destruct (json_parse meta) as [[[|b|n|s|l|m]|e]| |] eqn:Hm; try done.
  cbn [obind]. destruct existing; [done|]. set (M := manifest_of schedule stp config (JObject m) start). destruct (json_parse (json_encode M)) as [[M'|e]| |] eqn:HM; try done.
  cbn [obind]. destruct (fs_run _ _ _) as [ok fs] eqn:Hrun. destruct ok; [|done]. apply create_fs in Hrun as ->. cbn [obind].
  unfold journal_open. destruct (frame (config_record schedule stp config)) as [h|e] eqn:Hh.
  2: { unfold open_log. cbn [is_nil]. rewrite Hh. done. }
  rewrite (open_log_new _ _ _ _ Hh). cbn [obind execute_records]. intros [= <-]. eexists. split; [done|done|by exists m|by exists M'|done| |by eexists|].
  { by split; [unfold is_count, u64_max|constructor]. }
  intros _. exists h, [], []. split; [by split; [done|constructor|done|done|simpl; by rewrite app_nil_r|done]|].
  intros _. exists [], collector_default. split_and!; [done|constructor|done|done|]. intros file. unfold mirrored, journal_map, replay_start. simpl. by rewrite fmap_empty.
Qed.

(** What executing does to the digest and the collector. *)
Lemma execute_parts sym at_ input (owner : R) j outs j1 :
  execute sym at_ input owner j = Done (outs, j1) ->
  j_digest j1 = observe sym outs (j_digest j) /\
  exists diags, j_inspection j1 =
    capture (match j_recording j with Some _ => next_seq (j_log j) - 1 | None => next_seq (j_log j) end) sym at_ input outs diags <$> j_inspection j.
Proof.
  unfold execute. destruct (dispatch _ _ _) as [e| |]; [|done|done]. cbn [obind]. destruct (take_diagnostics (fresh e)) as [diags e'].
  intros [= <- <-]. split; [done|]. by exists diags.
Qed.

(** A log that has not failed has not been torn. *)
Lemma append_refused (j : Journal R) sym at_ kind payload disk e log' h rs bss :
  holds schedule stp config (j_log j) rs h bss -> log_append sym at_ kind payload disk (j_log j) = (Err e, log') -> log_failed log' = false -> log' = j_log j.
Proof.
  intros Hh Hla Hf. destruct (log_append_cases _ _ _ _ _ _ _ _ _ _ _ _ _ _ Hh Hla) as [[-> _]|(b & _ & _ & Hd)]; [done|].
  destruct disk; [by destruct Hd|]. by destruct Hd as [_ ->].
Qed.

Lemma log_failed_stays sym at_ kind payload disk log res log' : log_append sym at_ kind payload disk log = (res, log') -> log_failed log' = false -> log_failed log = false.
Proof. unfold log_append. destruct (log_failed log) eqn:E; [|done]. intros [= <- <-]. by rewrite E. Qed.

(** The records of a journal whose log took one more. *)
Lemma append_accepted (j : Journal R) sym at_ input disk log' kind payload h rs bss :
  input_encode input = (kind, payload) -> holds schedule stp config (j_log j) rs h bss -> log_append sym at_ kind payload disk (j_log j) = (Ok tt, log') ->
  next_seq log' = next_seq (j_log j) + 1 /\ 1 <= next_seq (j_log j) < u64_max /\
  exists b, holds schedule stp config log' (rs ++ [record_of (next_seq (j_log j)) sym at_ input]) h (bss ++ [b]).
Proof.
  intros Hk Hh Hla. destruct (log_append_cases _ _ _ _ _ _ _ _ _ _ _ _ _ _ Hh Hla) as [[_ H']|(b & _ & Hlt & Hd)]; [done|].
  destruct disk; [|by destruct Hd]. destruct Hd as [_ Hh']. unfold record_of. rewrite Hk. pose proof (ho_seq _ _ _ _ _ _ _ Hh) as Hs.
  pose proof (ho_seq _ _ _ _ _ _ _ Hh') as Hs'. rewrite length_app in Hs'. simpl in Hs'. split; [lia|]. split; [lia|]. by exists b.
Qed.

(** The trace took the rows of an input. *)
Lemma replayable_step (j j1 : Journal R) r r' sym at_ input owner outs c1 trace log' h rs bss rs' :
  j_recording j = Some r -> rc_trace_failed r = false -> input_for sym at_ input -> holds schedule stp config (j_log j) rs h bss ->
  next_seq log' = next_seq (j_log j) + 1 -> next_seq (j_log j) < u64_max ->
  execute sym at_ input owner (set_log log' j) = Done (outs, j1) -> j_inspection j1 = Some c1 ->
  rs' = rs ++ [record_of (next_seq (j_log j)) sym at_ input] -> replayable j r trace rs ->
  replayable (set_recording (Some (rows_clear c1)) (Some r') j1) r' (trace ++ trace_bytes (cl_rows c1)) rs'.
Proof using WireLaws0 WireLaws1 WireLaws2 WireLaws3 WireLaws4.
  intros Hr Hok Hin Hh Hseq Hlt He Hc1 -> Hrep _. destruct (Hrep Hok) as (rows & c & -> & Hrows & Hc & Hnil & Hrun).
  destruct (execute_parts _ _ _ _ _ _ _ He) as [_ [diags Hi]]. cbn [set_log j_recording j_log j_inspection] in Hi. rewrite Hr, Hc, Hc1 in Hi.
  cbn [fmap option_fmap option_map] in Hi. injection Hi as ->. pose proof (ho_seq _ _ _ _ _ _ _ Hh) as Hs.
  exists (rows ++ cl_rows (capture (next_seq log' - 1) sym at_ input outs diags c)), (rows_clear (capture (next_seq log' - 1) sym at_ input outs diags c)).
  split_and!; [by rewrite trace_bytes_app| |done|done|].
  - apply Forall_app. split; [done|]. apply capture_ok; [unfold is_count; lia|]. unfold rows_ok. by rewrite Hnil.
  - intros file. rewrite (mirrored_step file rows rs sym at_ input owner j log' outs j1 r) by done. do 2 f_equal. unfold mirrored, set_recording, set_log, journal_map.
    cbn [j_log j_digest j_inspection j_recording j_engines j_ids j_schedule j_stp_default j_detached j_config]. rewrite Hc1. cbn [fmap option_fmap option_map].
    by rewrite <- rows_shift_app, rows_shift_clear.
Qed.

Lemma recording_apply meta start j r trace sym at_ input owner disk tdisk res j' :
  recording_inv meta start j r trace -> input_for sym at_ input -> apply sym at_ input owner disk tdisk j = Done (res, j') ->
  exists r' trace', recording_inv meta start j' r' trace'.
Proof using WireLaws0 WireLaws1 WireLaws2 WireLaws3 WireLaws4.
  intros [Hr Hfs Hman Hparsed Hopen Hcnt [c0 Hc0] Hrep] Hin Ha. unfold apply in Ha. rewrite Hr, Hopen in Ha. destruct (input_encode input) as [kind payload] eqn:Hk.
  destruct (log_append sym at_ kind payload disk (j_log j)) as [[[]|e] log'] eqn:Hla.
  2: { injection Ha as _ <-. exists r, trace. split; try done. intros Hlive. destruct (Hrep (log_failed_stays _ _ _ _ _ _ _ _ Hla Hlive)) as (h & rs & bss & Hh & Hre).
       rewrite (append_refused _ _ _ _ _ _ _ _ _ _ _ Hh Hla Hlive). exists h, rs, bss. split; [done|]. by destruct j. }
  destruct (execute sym at_ input owner (set_log log' j)) as [[outs j1]| |] eqn:He; [|done|done]. cbn [obind] in Ha.
  destruct (execute_keeps _ _ _ _ _ _ _ He) as (K0 & K1 & _). destruct (execute_parts _ _ _ _ _ _ _ He) as [Hdig [diags Hi]].
  cbn [set_log j_log j_recording j_inspection j_digest] in *. rewrite Hc0 in Hi. cbn [fmap option_fmap option_map] in Hi. set (c1 := capture _ _ _ _ _ _ c0) in *.
  rewrite K1, Hr, Hi in Ha. pose proof (observe_counts sym outs _ Hcnt) as Hcnt'. rewrite <- Hdig in Hcnt'.
  assert (forall r' trace' res', append_trace (cl_rows c1) tdisk r = (res', r') ->
    rc_fs r' = bundle_fs trace' 0 (bytes_of (canonical config)) (bytes_of (json_encode (rc_manifest r'))) -> rc_manifest r' = rc_manifest r -> rc_finished r' = false ->
    (rc_trace_failed r' = false -> rc_trace_failed r = false /\ trace' = trace ++ trace_bytes (cl_rows c1)) ->
    recording_inv meta start (set_recording (Some (if rc_trace_failed r' then c1 else rows_clear c1)) (Some r') j1) r' trace') as Hdone.
  { intros r' trace' res' _ Hf Hm Hfin Htr. split; try done; rewrite ?Hm; try done. cbn [set_recording j_log]. rewrite K0. intros Hlive.
    destruct (Hrep (log_failed_stays _ _ _ _ _ _ _ _ Hla Hlive)) as (h & rs & bss & Hh & Hre).
    destruct (append_accepted _ _ _ _ _ _ _ _ _ _ _ Hk Hh Hla) as (Hseq & Hlt & b & Hh'). exists h, (rs ++ [record_of (next_seq (j_log j)) sym at_ input]), (bss ++ [b]).
    split; [done|]. intros Hok. destruct (Htr Hok) as [Hok' ->]. rewrite Hok.
    eapply replayable_step; [exact Hr|exact Hok'|exact Hin|exact Hh|exact Hseq|lia|exact He|exact Hi|done|exact Hre|exact Hok]. }
  unfold append_trace in Ha, Hdone. destruct (rc_trace_failed r) eqn:Htf.
  { injection Ha as _ <-. exists r, trace. specialize (Hdone r trace _ eq_refl). rewrite Htf in Hdone. by apply Hdone. }
  destruct tdisk as [|n]; rewrite Hfs, bundle_append in Ha, Hdone; injection Ha as _ <-; eexists _, _; (eapply (Hdone _ _ _ eq_refl); [done|done|done|]).
  - done.
  - done.
Qed.

Lemma recorded_inv meta start j : recorded_run meta start j -> exists r trace, recording_inv meta start j r trace.
Proof using WireLaws0 WireLaws1 WireLaws2 WireLaws3 WireLaws4 WireLaws5.
  induction 1 as [existing budget j Hj|j sym at_ input owner disk trace res j' _ (r & t & IH) Hin Ha].
  - destruct (recording_start _ _ _ _ _ Hj) as [r Hr]. eauto.
  - by eapply recording_apply.
Qed.
End mirror.
