(* ===== verification/BundleSpec.v ===== *)
(** * A recorded run verifies, across crashes

    Inspecting the bundle of a finished run gives the run back: complete, not
    diverged, with its summary and its final state. If the finish is interrupted
    by a crash at any operation, the bundle either is not complete or is the
    whole bundle. *)

From Stdlib Require Import Ascii.
From S2P Require Import Prelude BTree Text Bytes Json JsonSpec JsonText Order OrderBook Matcher Stops Session SymbolConfig Auction Proto Reports EventLog Engine.
From S2P Require Import WireSamples LogRecovery Canonical EngineOwners Digest Trace Recording Journal JournalOwners JournalRecovery Bundle TraceRows BundleFiles ReplayMirror.

(** ** Lines *)

Lemma read_lines_line line l rest : Forall visible_byte l -> read_lines line (l ++ 10 :: rest) = strip_return (line ++ l) :: read_lines [] rest.
Proof.
  intros Hl. revert line. induction Hl as [|b l Hb _ IH]; intros line; [simpl; by rewrite app_nil_r|]. cbn [app read_lines].
  destruct (Z.eqb_spec b 10); [unfold visible_byte in Hb; lia|]. by rewrite IH, <- app_assoc.
Qed.

Lemma strip_return_visible l : Forall visible_byte l -> strip_return l = l.
Proof.
  intros Hl. unfold strip_return. destruct (last l) as [b|] eqn:E; [|done]. apply last_Some_elem_of in E. rewrite Forall_forall in Hl.
  apply Hl in E. unfold visible_byte in E. destruct b; try done. repeat (case_match; try done); lia.
Qed.

Lemma read_trace_lines rows : Forall row_ok rows -> read_lines [] (trace_bytes rows) = (fun row => bytes_of (json_encode row)) <$> rows.
Proof.
  induction 1 as [|row rows Hr _ IH]; [done|]. change (trace_bytes (row :: rows)) with ((bytes_of (json_encode row) ++ [10]) ++ trace_bytes rows).
  pose proof (encode_visible _ _ _ (ro_shape _ Hr)) as Hv. rewrite <- app_assoc. cbn [app]. rewrite read_lines_line by done. rewrite IH. cbn [app].
  by rewrite strip_return_visible.
Qed.

Lemma trace_utf8 rows : valid_utf8 (trace_bytes rows) = true -> Forall (fun row => valid_utf8 (bytes_of (json_encode row)) = true) rows.
Proof.
  induction rows as [|row rows IH]; [constructor|]. change (trace_bytes (row :: rows)) with ((bytes_of (json_encode row) ++ [10]) ++ trace_bytes rows).
  rewrite <- app_assoc. cbn [app]. rewrite utf8_ascii_split by (by unfold ascii_byte). intros [H1 H2]%andb_true_iff. constructor; auto.
Qed.

Lemma parse_encoded j : json_ok 64 0 j -> parse_text (read_string (bytes_of (json_encode j))) = Done (Ok j).
Proof. intros Hj. unfold read_string. rewrite (ok_text 64 0) by done. cbn [parse_text]. rewrite string_of_bytes_of. by apply parse_written. Qed.

Lemma collect_rows rows : Forall row_ok rows -> valid_utf8 (trace_bytes rows) = true ->
  collect parse_line (read_lines [] (trace_bytes rows)) = Done (Ok rows) /\ check_all check_row rows = Ok tt.
Proof.
  intros Hr Hv. rewrite read_trace_lines by done. apply trace_utf8 in Hv. induction Hr as [|row rows Hr _ IH]; [done|]. apply Forall_cons in Hv as [Hv Hvs].
  destruct (IH Hvs) as [IH1 IH2]. rewrite fmap_cons. cbn [collect]. unfold parse_line at 1.
  rewrite parse_encoded by (by apply shape_text; [apply ro_shape|]). cbn [obind]. rewrite IH1. cbn [obind check_all]. rewrite row_checked by done. done.
Qed.

(** ** Comparison *)

Lemma insert_same k v (m : list (string * Json)) : bt_sorted m -> bt_get k m = Some v -> bt_insert k v m = m.
Proof.
  intros Hs Hg. apply bt_ext; [by apply bt_sorted_insert|done|]. intros k'. destruct (decide (k = k')) as [->|Hne]; [by rewrite bt_get_insert_eq|by rewrite bt_get_insert_ne].
Qed.

Lemma drop_additive_same row : json_shape 64 0 row -> drop_additive row row = row.
Proof.
  intros Hr. unfold drop_additive. destruct row as [| | | | |m]; try done. cbn [json_get]. destruct (bt_get "data" m) as [v|] eqn:Hd; [|done]. destruct v as [| | | | |ad]; try done.
  inversion Hr as [| | | | |? _ Hs Hm]; subst. assert (bt_sorted ad) as Hsd.
  { rewrite Forall_forall in Hm. apply bt_get_Some_elem in Hd. specialize (Hm _ Hd). by inversion Hm. }
  assert (forall key : string, (if bool_decide (is_Some (bt_get key ad)) then ad else bt_remove key ad) = ad) as Hrm.
  { intros key. case_bool_decide as Hk; [done|]. apply bt_get_None_remove; [done|]. by destruct (bt_get key ad); [destruct Hk; eauto|]. }
  cbv zeta. rewrite !Hrm. by rewrite insert_same.
Qed.

Lemma compatible_refl rows : Forall row_ok rows -> compatible_trace rows rows = true.
Proof.
  intros Hr. unfold compatible_trace. rewrite Nat.eqb_refl. simpl. induction Hr as [|row rows Hr _ IH]; [done|]. simpl.
  rewrite drop_additive_same by apply Hr. by rewrite json_eqb_refl.
Qed.

(** ** Texts *)

Lemma print_dec_ascii n : all_chars ascii_char (print_dec n) = true.
Proof.
  assert (forall m, 0 <= m -> all_chars ascii_char (print_nat m) = true) as Hn.
  { intros m Hm. apply digits_ascii. destruct (print_fuel_spec (S (Z.to_nat (Z.log2 m))) m) as (_ & H & _); [by apply print_fuel_enough|lia|done]. }
  unfold print_dec. destruct (Z.ltb_spec n 0); [|by apply Hn]. cbn [all_chars]. rewrite Hn by lia. done.
Qed.

Lemma print_padded_ascii w n : all_chars ascii_char (print_padded w n) = true.
Proof.
  induction w as [|w IH]; [done|]. cbn [print_padded all_chars]. rewrite IH, andb_true_r. apply digit_ascii.
  destruct (digit_char_spec (n / 10 ^ Z.of_nat w mod 10)) as [H _]; [apply Z.mod_pos_bound; lia|done].
Qed.

Lemma wall_time_utf8 s n : valid_utf8 (bytes_of (wall_time s n)) = true.
Proof. apply ascii_utf8. unfold wall_time. rewrite !all_chars_app, print_dec_ascii, print_padded_ascii. done. Qed.

Lemma show_time_ascii t : 0 <= t < day -> all_chars ascii_char (show_time t) = true.
Proof.
  intros Ht. unfold show_time, day in *. apply all_chars_join; [done|].
  repeat constructor; apply digits_ascii, print2_spec; Z.div_mod_to_equations; lia.
Qed.

Lemma show_schedule_utf8 s : valid_schedule s -> valid_utf8 (bytes_of (show_schedule s)) = true.
Proof.
  intros [Hc Hs]. apply ascii_utf8. unfold show_schedule. apply all_chars_join; [done|].
  assert (forall key t, all_chars ascii_char key = true -> 0 <= t < day -> all_chars ascii_char (show_entry key t) = true) as He.
  { intros key t Hk Ht. unfold show_entry. rewrite all_chars_app, Hk. cbn [all_chars]. by rewrite show_time_ascii. }
  destruct (open_call s), (open s), (close_call s); try done; repeat constructor; apply He; try done; lia.
Qed.

Lemma canonical_utf8 c : Forall entry_ok c -> valid_utf8 (bytes_of (canonical c)) = true.
Proof.
  intros Hc. apply ascii_utf8. induction Hc as [|e c He _ IH]; [done|]. cbn [canonical foldr]. rewrite all_chars_app. cbn [all_chars]. fold (canonical c).
  rewrite IH, (all_chars_impl plain); [done| |by apply rules_line_plain].
  intros ch. unfold plain, ascii_char. rewrite andb_true_iff, !N.ltb_lt. lia.
Qed.

Lemma digest_hex_chars p l : (forall d, 0 <= d < 16 -> p (hex_char d) = true) -> Forall is_byte l -> all_chars p (digest_hex l) = true.
Proof.
  intros Hp. induction 1 as [|b l Hb _ IH]; [done|]. cbn [digest_hex all_chars]. unfold is_byte in Hb.
  rewrite !Hp, IH by (Z.div_mod_to_equations; lia). done.
Qed.

Lemma digest_hex_length l : String.length (digest_hex l) = (2 * length l)%nat.
Proof. induction l as [|b l IH]; [done|]. cbn [digest_hex String.length length]. rewrite IH. lia. Qed.

Lemma hex_char_cases (p : ascii -> bool) :
  forallb p (hex_char <$> (Z.of_nat <$> List.seq 0 16)) = true -> forall d, 0 <= d < 16 -> p (hex_char d) = true.
Proof.
  intros H d Hd. rewrite forallb_forall in H. apply H. rewrite <- list_elem_of_In. apply list_elem_of_fmap. exists d. split; [done|].
  apply list_elem_of_fmap. exists (Z.to_nat d). split; [lia|]. apply list_elem_of_In, in_seq. lia.
Qed.

(** ** Hashes and the expected summary *)

(** The version and the commit of a build are text. *)
Class BuildLaws `{!Build} : Prop := {
  version_text : valid_utf8 (bytes_of fxp_version) = true;
  commit_text : valid_utf8 (bytes_of git_sha) = true;
}.

Section verify.
Context {sha : Sha256} {sha_laws : Sha256Laws} {build : Build} {build_laws : BuildLaws} {R : Type}.

Lemma sha256_utf8 b : valid_utf8 (bytes_of (sha256 b)) = true.
Proof using sha_laws.
  apply ascii_utf8, digest_hex_chars; [|apply sha256_bytes]. apply hex_char_cases. vm_compute. reflexivity.
Qed.

Lemma check_sha256 b : check_hash (sha256 b) = Ok tt.
Proof using sha_laws.
  unfold check_hash, sha256. rewrite digest_hex_length, sha256_length. cbn [Nat.eqb Nat.mul Nat.add].
  rewrite digest_hex_chars; [done| |apply sha256_bytes]. apply hex_char_cases. vm_compute. reflexivity.
Qed.

Lemma check_digest_stream s : is_count (st_count s) -> check_digest (digest_json (stream_result s)) = Ok tt.
Proof using sha_laws.
  intros Hs. unfold check_digest. change (json_get "count" (digest_json (stream_result s))) with (@Ok _ string (json_number (st_count s))).
  change (json_get "sha256" (digest_json (stream_result s))) with (@Ok _ string (JString (sha256 (st_fed s)))). cbn [rbind json_number json_text].
  rewrite parse_u64_print by done. rewrite bool_decide_true by eauto. cbn [rbind]. apply check_sha256.
Qed.

Lemma object_values (P : Json -> Prop) fields : Forall (fun e => P e.2) fields ->
  exists m, json_object fields = JObject m /\ Forall (fun e => P e.2) m.
Proof.
  intros Hf. eexists. split; [done|]. assert (forall m, Forall (fun e : string * Json => P e.2) m ->
    Forall (fun e => P e.2) (foldl (fun m (e : string * Json) => bt_insert e.1 e.2 m) m fields)) as Hfold; [|apply Hfold; constructor].
  induction Hf as [|e fields He _ IH]; intros m Hm; [done|]. simpl. apply IH. rewrite Forall_forall in *. intros x [->|Hx]%bt_insert_elem; auto.
Qed.

Lemma validate_summary state d : digest_counts d -> validate_expected (summary_json (digest_summary state d)) = Ok tt.
Proof using sha_laws.
  intros [Hg Hs]. unfold validate_expected. set (s := digest_summary state d). set (j := summary_json s).
  assert (require_text "canonical_version" CANONICAL_VERSION j = Ok tt /\ require_text "state_version" STATE_VERSION j = Ok tt) as [-> ->] by done.
  change (json_get "global" j) with (@Ok _ string (digest_json (stream_result (bd_global d)))).
  change (json_get "symbols" j) with (@Ok _ string (json_object (prod_map id digest_json <$> rs_symbols s))).
  change (json_get "final_state_sha256" j) with (@Ok _ string (JString (sha256 state))). cbn [rbind]. rewrite check_digest_stream by done. cbn [rbind].
  destruct (object_values (fun v => check_digest v = Ok tt) (prod_map id digest_json <$> rs_symbols s)) as (m & -> & Hm).
  { apply Forall_fmap. unfold s. cbn [rs_symbols digest_summary]. apply Forall_fmap. eapply Forall_impl; [exact Hs|].
    intros [k v] Hv. cbn. by apply check_digest_stream. }
  assert (check_digests m = Ok tt) as ->; [|cbn [rbind json_text]; apply check_sha256].
  induction Hm as [|[k v] m Hv _ IH]; [done|]. cbn [check_digests]. simpl in Hv. rewrite Hv. done.
Qed.

Lemma summary_shape s : json_shape 64 0 (summary_json s).
Proof.
  assert (forall d e, (d < 64)%nat -> json_shape 64 d (digest_json e)) as Hd by (intros d e H'; unfold digest_json; shape_fields).
  unfold summary_json. shape_fields; [apply Hd; lia|]. apply shape_object; [lia|]. apply Forall_fmap, Forall_true. intros [k e]. apply Hd. lia.
Qed.

(** ** The manifest *)

Context (schedule : option SessionSchedule) (stp : StpMode) (config : SymbolConfig).
Context (Hschedule : match schedule with Some s => valid_schedule s | None => True end) (Hsorted : bt_sorted config) (Hentries : Forall entry_ok config).

Lemma manifest_ok m start : json_ok 64 0 (JObject m) -> valid_utf8 (bytes_of start) = true -> json_ok 65 0 (manifest_of schedule stp config (JObject m) start).
Proof using sha_laws build_laws Hschedule.
  intros Hm Hs. unfold manifest_of. apply ok_object; [lia|]. assert (forall s, valid_utf8 (bytes_of s) = true -> json_ok 65 1 (JString s)) as Ht by (intros; constructor; [lia|done]).
  repeat first [apply Forall_nil_2|apply Forall_cons_2; [split; [reflexivity|cbn [snd]]|]]; try (apply Ht; first [reflexivity|apply sha256_utf8|done]).
  all: try (constructor; lia).
  - apply Ht, version_text.
  - apply Ht, commit_text.
  - destruct schedule; [apply Ht; by apply show_schedule_utf8|constructor; lia].
  - apply Ht. by destruct stp.
  - eapply ok_deeper; [|exact Hm]. lia.
Qed.

Lemma finished_ok h th now M : json_ok 64 0 M -> (exists m, M = JObject m) -> valid_utf8 (bytes_of now) = true ->
  json_ok 64 0 (finished_manifest (sha256 h) (sha256 th) now M).
Proof using sha_laws.
  intros HM [m ->] Hn. unfold finished_manifest. cbn [put]. repeat (apply ok_insert; [reflexivity| |]); [done|..]; constructor; try lia; try apply sha256_utf8; done.
Qed.

Lemma require_ok key s j : json_get key j = Ok (JString s) -> require_text key s j = Ok tt.
Proof. intros Hj. unfold require_text. rewrite Hj. cbn [json_text]. rewrite bool_decide_false by (intros Hx; by apply Hx). done. Qed.

Lemma stp_text : stp_mode_parse (stp_mode_as_str stp) = Ok stp.
Proof. by destruct stp. Qed.

(** The settings of a manifest with a marker. *)
Lemma settings_of M complete :
  json_get "session_schedule" M = Ok (match schedule with Some s => JString (show_schedule s) | None => JNull end) ->
  json_get "stp_default" M = Ok (JString (stp_mode_as_str stp)) -> json_get "complete" M = Ok (JBool complete) ->
  read_settings M = Ok (mkSettings schedule stp complete).
Proof using Hschedule.
  intros H1 H2 H3. unfold read_settings. rewrite H1, H2, H3. cbn [rbind json_text]. rewrite stp_text. cbn [or_invalid].
  destruct schedule as [s|]; [|done]. cbn [rbind json_text]. rewrite parse_show_schedule by done. done.
Qed.

Lemma read_symbols M (dir : Files) :
  dir "symbols.csv"%string = Some (bytes_of (canonical config)) -> json_get "symbol_config_sha256" M = Ok (JString (sha256 (bytes_of (canonical config)))) ->
  read_config M dir = Ok config.
Proof using Hsorted Hentries.
  intros Hd Hm. unfold read_config, read_bundle_file. rewrite Hd. unfold read_string. rewrite canonical_utf8 by done. cbn [rbind].
  rewrite string_of_bytes_of, (require_ok _ _ _ Hm). cbn [rbind]. rewrite parse_canonical by done. done.
Qed.

(** ** Inspection *)

Context `{!Wire Report, !Wire TradeCapture, !Wire SessionStatus, !Wire AuctionInfo}.
Context `{!Wire NewOrderSingle, !Wire OrderCancelRequest, !Wire OrderCancelReplaceRequest, !Wire OrderMassCancelRequest, !Wire SessionControl}.
Context `{!WireLaws NewOrderSingle, !WireLaws OrderCancelRequest, !WireLaws OrderCancelReplaceRequest, !WireLaws OrderMassCancelRequest, !WireLaws SessionControl}.
Context `{!Wire LogRecord, !WireLaws LogRecord}.

Lemma canonical_owners {S T : Type} (f : S -> T) (e : Engine S Z) : canonical_state (engine_map f e) = canonical_state e.
Proof.
  rewrite <- (business_bytes (engine_map f e)), <- (business_bytes e). f_equal. unfold business.
  change (e_states (engine_map f e)) with (state_map f <$> e_states e). rewrite <- map_fmap_compose. reflexivity.
Qed.

Lemma mirrored_state file rows (j : Journal R) : journal_state (mirrored file rows j) = journal_state j.
Proof.
  unfold journal_state. change (j_engines (mirrored file rows j)) with (engine_map (fun _ => tt) <$> j_engines j). change (j_ids (mirrored file rows j)) with (j_ids j).
  rewrite bt_of_map_fmap. unfold w_list. rewrite length_fmap. do 3 f_equal. generalize (bt_of_map (j_engines j)). intros l.
  induction l as [|[sym e] l IH]; [done|]. rewrite fmap_cons, !bind_cons, IH. cbn [prod_map fst snd id]. by rewrite canonical_owners.
Qed.

(** A bundle whose manifest is the one of the start is not complete. *)
Lemma inspect_incomplete dir m start i :
  json_ok 64 0 (manifest_of schedule stp config (JObject m) start) ->
  dir "manifest.json"%string = Some (bytes_of (json_encode (manifest_of schedule stp config (JObject m) start))) ->
  inspect_bundle (Some dir) = Done (Ok i) -> in_complete i = false.
Proof using Hschedule.
  intros HM Hd. unfold inspect_bundle, read_bundle_file. rewrite Hd, parse_encoded by done. cbn [obind rbind].
  destruct (check_versions _); [|done]. cbn [rbind]. destruct (read_config _ dir) as [config'|]; [|done]. cbn [rbind].
  rewrite (settings_of _ false) by reflexivity. cbn [rbind se_complete read_expected obind]. destruct (read_trace _ _ dir) as [[rows|]| |]; try done. cbn [obind].
  unfold compare_replay. destruct (dir "commands.log"%string); [|done]. cbn [se_schedule se_stp se_complete].
  destruct (journal_replay _ _ _ _ _ _ _) as [[j|]| |]; try done. cbn [obind rbind]. by intros [= <-].
Qed.

(** The files of a finished run. *)
Record bundle_of (dir : Files) (M : Json) (log trace : list Z) (summary : RunSummary) : Prop := {
  bu_symbols : dir "symbols.csv"%string = Some (bytes_of (canonical config));
  bu_manifest : dir "manifest.json"%string = Some (bytes_of (json_encode M));
  bu_expected : dir "expected.json"%string = Some (bytes_of (json_encode (summary_json summary)));
  bu_trace : dir "events.jsonl"%string = Some trace;
  bu_log : dir "commands.log"%string = Some log;
}.

(** Such a bundle verifies. *)
Lemma inspect_complete dir m start now (j : Journal R) rows c rs :
  let M := manifest_of schedule stp config (JObject m) start in
  let M' := finished_manifest (sha256 (log_file (j_log j))) (sha256 (trace_bytes rows)) now M in
  json_ok 64 0 M -> valid_utf8 (bytes_of now) = true -> bundle_of dir M' (log_file (j_log j)) (trace_bytes rows) (journal_summary j) ->
  valid_utf8 (trace_bytes rows) = true -> valid_utf8 (bytes_of (json_encode (summary_json (journal_summary j)))) = true ->
  digest_counts (j_digest j) -> Forall row_ok rows -> j_inspection j = Some c -> cl_rows c = [] ->
  (exists h bss, holds schedule stp config (j_log j) rs h bss) ->
  replay_list rs (replay_start schedule stp config (log_file (j_log j))) = Done (Ok (mirrored (log_file (j_log j)) rows j)) ->
  inspect_bundle (Some dir) = Done (Ok (mkInspection true false (journal_summary j) (Some (summary_json (journal_summary j))) (journal_state j) rows (Some rows) config)).
Proof using sha_laws Hschedule Hsorted Hentries WireLaws5.
  intros M M' HM Hn [Bs Bm Be Bt Bl] Hv1 Hv2 Hcnt Hrows Hc Hnil (h & bss & Hh) Hrep.
  assert (json_ok 64 0 M') as HM' by (apply finished_ok; [done|by eexists|done]).
  unfold inspect_bundle. unfold read_bundle_file at 1. rewrite Bm, parse_encoded by done. cbn [obind rbind].
  assert (check_versions M' = Ok tt) as -> by (unfold check_versions; rewrite !require_ok by reflexivity; done).
  rewrite (read_symbols _ _ Bs) by reflexivity. rewrite (settings_of _ true) by reflexivity. cbn [rbind se_complete].
  unfold read_expected, hash_file, read_bundle_file. rewrite Bl, Be. cbn [rbind]. rewrite require_ok by reflexivity.
  rewrite parse_encoded by (apply shape_text; [apply summary_shape|done]). cbn [obind rbind]. assert (validate_expected (summary_json (journal_summary j)) = Ok tt) as -> by (by apply validate_summary). cbn [rbind].
  destruct (collect_rows rows Hrows Hv1) as [Hcol Hchk].
  assert (read_trace true M' dir = Done (Ok (Some rows))) as ->.
  { unfold read_trace. change (json_get "trace_version" M') with (@Ok _ string (JString TRACE_VERSION)).
    change (json_get "trace_sha256" M') with (@Ok _ string (JString (sha256 (trace_bytes rows)))). cbn [negb Bool.eqb json_text].
    rewrite bool_decide_false by (intros Hx; by apply Hx). unfold hash_file. rewrite Bt. cbn [rbind]. rewrite require_ok by reflexivity.
    change (default [] (Some (trace_bytes rows))) with (trace_bytes rows). rewrite Hcol. cbn [obind rbind]. rewrite Hchk. done. }
  cbn [obind]. unfold compare_replay. rewrite Bl. cbn [se_schedule se_stp se_complete]. rewrite (journal_replay_frames _ _ _ _ _ _ _ _ Hh), Hrep. cbn [obind rbind].
  change (journal_summary (mirrored (log_file (j_log j)) rows j)) with (digest_summary (journal_state (mirrored (log_file (j_log j)) rows j)) (j_digest j)).
  rewrite mirrored_state. fold (journal_summary j). unfold mirrored. cbn [set_log set_recording j_inspection]. rewrite Hc. cbn [fmap option_fmap option_map rows_shift cl_rows].
  rewrite Hnil, app_nil_r, json_eqb_refl, compatible_refl by done. done.
Qed.
End verify.

(** ** Theorem *)

(** A configuration and a schedule the core was started with. *)
Definition configured (schedule : option SessionSchedule) (config : SymbolConfig) : Prop :=
  (exists text, parse_config text = Ok config) /\ match schedule with Some s => exists v, parse_schedule v = Ok s | None => True end.

(** The directory of a bundle: its files as they are found, and the log, which
    every append syncs. *)
Definition with_log (log : list Z) (found : Files) : Files :=
  fun name => if bool_decide (name = "commands.log"%string) then Some log else found name.

Definition crash_view (r : Recording) (found : Files) : Prop := forall name, crashed (rc_fs r) name (found name).

Section theorem.
Context {sha : Sha256} {sha_laws : Sha256Laws} {build : Build} {build_laws : BuildLaws} {R : Type}.
Context `{!Wire Report, !Wire TradeCapture, !Wire SessionStatus, !Wire AuctionInfo}.
Context `{!Wire NewOrderSingle, !Wire OrderCancelRequest, !Wire OrderCancelReplaceRequest, !Wire OrderMassCancelRequest, !Wire SessionControl}.
Context `{!WireLaws NewOrderSingle, !WireLaws OrderCancelRequest, !WireLaws OrderCancelReplaceRequest, !WireLaws OrderMassCancelRequest, !WireLaws SessionControl}.
Context `{!Wire LogRecord, !WireLaws LogRecord}.

(** What has been written is text, as everything made of strings is. *)
Definition text_recorded (j : Journal R) : Prop :=
  valid_utf8 (bytes_of (json_encode (summary_json (journal_summary j)))) = true /\
  forall r trace, j_recording j = Some r -> fs_read "events.jsonl" (rc_fs r) = Some trace -> valid_utf8 trace = true.

(** An inspection that gives a run back. *)
Definition gives_back (j : Journal R) (i : Inspection) : Prop :=
  in_complete i = true /\ in_diverged i = false /\ in_summary i = journal_summary j /\ in_final_state i = journal_state j.

Lemma inspected_after_crash schedule stp detached config meta s n s' n' (j j' : Journal R) budget res r' found :
  configured schedule config -> recorded_run schedule stp detached config meta (wall_time s n) j -> log_failed (j_log j) = false -> text_recorded j ->
  journal_finish budget (wall_time s' n') j = (res, j') -> j_recording j' = Some r' -> crash_view r' found ->
  let dir := with_log (log_file (j_log j)) found in
  exists M, parse_text (read_bundle_file "manifest.json" dir) = Done (Ok M) /\
    (json_get "complete" M = Ok (JBool false) /\ res <> Ok tt /\ (forall i, inspect_bundle (Some dir) = Done (Ok i) -> in_complete i = false) \/
     json_get "complete" M = Ok (JBool true) /\ exists i, inspect_bundle (Some dir) = Done (Ok i) /\ gives_back j i).
Proof using sha_laws build_laws WireLaws0 WireLaws1 WireLaws2 WireLaws3 WireLaws4 WireLaws5.
  intros [[text Hcfg] Hsch] Hrun Hlive [Htext Htrace] Hfin Hr' Hview dir. apply parse_config_ok in Hcfg as [Hsorted Hentries].
  assert (match schedule with Some s => valid_schedule s | None => True end) as Hvalid.
  { destruct schedule as [sc|]; [|done]. destruct Hsch as [v Hv]. by eapply parse_schedule_valid. }
  destruct (recorded_inv _ _ _ _ _ _ _ Hrun) as (r & trace & [Hr Hfs (m & Hmeta & HM) [M' Hparsed] Hopen Hcnt _ Hrep]).
  destruct (Hrep Hlive) as (h & rs & bss & Hh & Hreplay). unfold journal_finish in Hfin. rewrite Hr in Hfin.
  destruct (recording_finish _ _ _ _ r) as [res1 r1] eqn:Hf. injection Hfin as -> <-. cbn [set_recording j_recording] in Hr'. injection Hr' as ->.
  assert (json_ok 64 0 (rc_manifest r)) as Hok.
  { destruct (json_parse_returns meta) as (x & Hx & Hxok). rewrite Hmeta in Hx. injection Hx as <-. rewrite HM in Hparsed |- *.
    eapply (parse_deep 65); [lia| |exact Hparsed]. apply manifest_ok; [done|by apply Hxok|apply wall_time_utf8]. }
  rewrite HM in Hok. destruct (finish_found _ _ _ _ _ _ _ _ _ _ _ Hfs Hopen Hf Hview) as [Hsym [[Hman Hres]|(Htf & Hman & Hexp & Hev)]]; rewrite HM in Hman.
  - eexists. split; [unfold read_bundle_file; change (dir "manifest.json"%string) with (found "manifest.json"%string); rewrite Hman; by apply parse_encoded|]. left.
    split; [reflexivity|]. split; [done|]. intros i Hi. eapply (inspect_incomplete schedule stp config Hvalid dir m); [exact Hok|exact Hman|exact Hi].
  - eexists. split; [unfold read_bundle_file; change (dir "manifest.json"%string) with (found "manifest.json"%string); rewrite Hman; apply parse_encoded, finished_ok;
      [done|by eexists|apply wall_time_utf8]|]. right. split; [reflexivity|]. destruct (Hreplay Htf) as (rows & c & -> & Hrows & Hc & Hnil & Hall). eexists. split.
    + eapply (inspect_complete schedule stp config Hvalid Hsorted Hentries dir m (wall_time s n) (wall_time s' n') j rows c rs); try done.
      * apply wall_time_utf8.
      * apply (Htrace r); [done|]. by rewrite Hfs, bundle_read.
      * by exists h, bss.
    + done.
Qed.

(** A recorded run verifies. After any inputs for any symbols, if the run is
    finished without an error then replaying its bundle, read at once or after
    any crash, is verified and gives the summary and the final state of the run:
    the manifest, the configuration, the hashes, every row of the trace and every
    digest agree with the replay of the log. *)
Theorem recording_verifies schedule stp detached config meta s n s' n' (j j' : Journal R) budget r' found :
  configured schedule config -> recorded_run schedule stp detached config meta (wall_time s n) j -> log_failed (j_log j) = false -> text_recorded j ->
  journal_finish budget (wall_time s' n') j = (Ok tt, j') -> j_recording j' = Some r' -> crash_view r' found ->
  replay_bundle (Some (with_log (log_file (j_log j)) found)) = Done (Ok (mkReplayResult true (journal_summary j) (journal_state j))).
Proof using sha_laws build_laws WireLaws0 WireLaws1 WireLaws2 WireLaws3 WireLaws4 WireLaws5.
  intros Hc Hrun Hlive Ht Hfin Hr Hv. destruct (inspected_after_crash _ _ _ _ _ _ _ _ _ _ _ _ _ _ _ Hc Hrun Hlive Ht Hfin Hr Hv) as (M & _ & [(_ & H & _)|(_ & i & Hi & G1 & G2 & G3 & G4)]); [done|].
  unfold replay_bundle. rewrite Hi. cbn [obind rbind]. by rewrite G1, G2, G3, G4.
Qed.

(** C4: No crash makes a recording lie. If finishing stops at any file operation
    and a crash then loses any writes that were not synced, what is found of the
    bundle has a manifest that can be read, and that manifest says either that
    the recording is not complete, in which case finishing had not succeeded and
    the bundle never inspects as complete, or that it is complete, in which case
    the inspection of the bundle succeeds and gives the run back: not diverged,
    with its summary and its final state. *)
Theorem recording_crash_safe schedule stp detached config meta s n s' n' (j j' : Journal R) budget res r' found :
  configured schedule config -> recorded_run schedule stp detached config meta (wall_time s n) j -> log_failed (j_log j) = false -> text_recorded j ->
  journal_finish budget (wall_time s' n') j = (res, j') -> j_recording j' = Some r' -> crash_view r' found ->
  let dir := with_log (log_file (j_log j)) found in
  exists M, parse_text (read_bundle_file "manifest.json" dir) = Done (Ok M) /\
    (json_get "complete" M = Ok (JBool false) /\ res <> Ok tt /\ (forall i, inspect_bundle (Some dir) = Done (Ok i) -> in_complete i = false) \/
     json_get "complete" M = Ok (JBool true) /\ exists i, inspect_bundle (Some dir) = Done (Ok i) /\ gives_back j i).
Proof using sha_laws build_laws WireLaws0 WireLaws1 WireLaws2 WireLaws3 WireLaws4 WireLaws5. apply inspected_after_crash. Qed.
End theorem.

(** ** Witnesses *)

#[local] Existing Instance wire_of.
#[local] Existing Instance wire_of_laws.
#[local] Existing Instance sample_sha.
#[local] Existing Instance sample_build.

#[local] Instance sample_sha_laws : Sha256Laws.
Proof.
  split; intros b; unfold sha256_digest, sample_sha; [apply length_replicate|]. apply Forall_replicate. unfold is_byte. apply Z.mod_pos_bound. lia.
Qed.

#[local] Instance sample_build_laws : BuildLaws.
Proof. by split. Qed.

(** A recorded run of one order. *)
Definition recording0 : Journal Z :=
  match journal_record false 100 None StpNone 0 [] "{}" (wall_time 5 6) with Done (Ok j) => j | _ => journal0 end.
Definition recording1 : Journal Z := after "FXP" (mkTime 100 0) (sample_order "b1" "alice" 1 5) 7 Synced recording0.

Definition finished (budget : nat) : Journal Z := (journal_finish budget (wall_time 7 8) recording1).2.

Definition files_of (j : Journal Z) : Recording := match j_recording j with Some r => r | None => mkRecording fs_empty JNull false false end.

Lemma files_of_ok j : (match j_recording j with Some _ => true | None => false end) = true -> j_recording j = Some (files_of j).
Proof. unfold files_of. by destruct (j_recording j). Qed.

Lemma finish_ok budget now (j : Journal Z) : (match (journal_finish budget now j).1 with Ok _ => true | Err _ => false end) = true ->
  journal_finish budget now j = (Ok tt, (journal_finish budget now j).2).
Proof. by destruct (journal_finish budget now j) as [[[]|e] j']. Qed.

Definition read_files (j : Journal Z) : Files := fun name => fs_read name (rc_fs (files_of j)).

Lemma recording1_run : recorded_run None StpNone 0 [] "{}" (wall_time 5 6) recording1.
Proof.
  refine (rr_apply _ _ _ _ _ _ recording0 "FXP" (mkTime 100 0) (sample_order "b1" "alice" 1 5) 7 Synced Synced _ recording1 _ _ (after_ok _ _ _ _ _ _ _));
    [|split; [reflexivity|vm_compute; split; [discriminate|reflexivity]]|vm_compute; reflexivity].
  apply (rr_start _ _ _ _ _ _ false 100). vm_compute. reflexivity.
Qed.

Lemma recording1_text : text_recorded recording1.
Proof.
  split; [vm_compute; reflexivity|]. intros r trace Hr Ht.
  assert (match j_recording recording1 with Some r => match fs_read "events.jsonl" (rc_fs r) with Some t => valid_utf8 t | None => true end | None => true end = true) as Hall
    by (vm_compute; reflexivity).
  rewrite Hr, Ht in Hall. exact Hall.
Qed.

(** Names that exist point to files. *)
Definition wf_check (fs : Fs) : bool :=
  forallb (fun e => (e.2 <? length (fs_files fs))%nat) (map_to_list (fs_dir fs) ++ map_to_list (fs_durable fs)).

Lemma wf_checked fs : wf_check fs = true -> fs_wf fs.
Proof.
  unfold wf_check. rewrite forallb_forall. intros Hall name n Hn. apply Nat.ltb_lt. apply (Hall (name, n)). apply in_or_app.
  destruct Hn as [Hn|Hn]; apply elem_of_map_to_list, list_elem_of_In in Hn; auto.
Qed.

Lemma read_view j : wf_check (rc_fs (files_of j)) = true -> crash_view (files_of j) (read_files j).
Proof. intros Hwf name. by apply read_crashed, wf_checked. Qed.

(** Read after it is finished. *)
Lemma recording_verifies_witness :
  replay_bundle (Some (with_log (log_file (j_log recording1)) (read_files (finished 100)))) =
  Done (Ok (mkReplayResult true (journal_summary recording1) (journal_state recording1))).
Proof.
  refine (recording_verifies None StpNone 0 [] "{}" 5 6 7 8 recording1 (finished 100) 100 (files_of (finished 100)) (read_files (finished 100))
    _ recording1_run _ recording1_text (finish_ok _ _ _ _) (files_of_ok _ _) (read_view _ _)).
  - split; [by exists ""%string|exact I].
  - vm_compute. reflexivity.
  - vm_compute. reflexivity.
  - vm_compute. reflexivity.
  - vm_compute. reflexivity.
Defined.

(** Stopped before the new manifest is written. *)
Lemma recording_crash_safe_witness :
  let dir := with_log (log_file (j_log recording1)) (read_files (finished 6)) in
  exists M, parse_text (read_bundle_file "manifest.json" dir) = Done (Ok M) /\
    (json_get "complete" M = Ok (JBool false) /\ (journal_finish 6 (wall_time 7 8) recording1).1 <> Ok tt /\
       (forall i, inspect_bundle (Some dir) = Done (Ok i) -> in_complete i = false) \/
     json_get "complete" M = Ok (JBool true) /\ exists i, inspect_bundle (Some dir) = Done (Ok i) /\ gives_back recording1 i).
Proof.
  refine (recording_crash_safe None StpNone 0 [] "{}" 5 6 7 8 recording1 (finished 6) 6 (journal_finish 6 (wall_time 7 8) recording1).1
    (files_of (finished 6)) (read_files (finished 6))
    _ recording1_run _ recording1_text (surjective_pairing _) (files_of_ok _ _) (read_view _ _)).
  - split; [by exists ""%string|exact I].
  - vm_compute. reflexivity.
  - vm_compute. reflexivity.
  - vm_compute. reflexivity.
Defined.
