(* ===== verification/EngineOps.v ===== *)
(** * Requests on a coherent engine

    What cancels, mass cancels, expiry and new orders do to a coherent engine:
    they return, keep it coherent, touch exactly the orders they name and report
    to exactly the connections concerned. *)

From S2P Require Import Prelude BTree Text Order OrderBook BookInvariant Samples Matcher MatchOrders Stops Executions Cascade.
From S2P Require Import Session SymbolConfig Auction AuctionPrice Proto Reports Engine EngineInv EngineSamples.

Section operations.
Context {R I : Type} `{!ExecIds I}.
Implicit Types (e : Engine R I).

(** ** Definitions *)

(** Which orders a mass cancel names, and the event it reports. *)
Definition mass_selects (m : MassCancelMsg) (st : OrderState R) : bool :=
  bool_decide (sender st = mc_sender m) && ((mc_side m =? 0) || (st_side st =? mc_side m)).

Definition mass_event (m : MassCancelMsg) : ReportEvent :=
  mkReportEvent ExecCanceled OrderCanceled 0 0 0 None "" (mass_cancel_reason (mc_reason m)).

(** The orders a test selects are gone, the others untouched. *)
Record removed (test : OrderState R -> bool) e e' : Prop := {
  rm_states : forall id, e_states e' !! id =
    match e_states e !! id with Some st => if test st then None else Some st | None => None end;
  rm_found : forall id, found e' id =
    match e_states e !! id with Some st => if test st then [] else found e id | None => [] end;
}.

(** The outcome of a cancel request: the order of the sender leaves, or the
    request is refused and nothing changes. *)
Inductive cancel_outcome (m : CancelMsg R) e e' : Report -> Prop :=
| cancel_done st r :
    e_states e !! c_order_id m = Some st -> sender st = c_sender m ->
    e_states e' = delete (c_order_id m) (e_states e) -> found e' (c_order_id m) = [] ->
    (forall i, i <> c_order_id m -> found e' i = found e i) ->
    report_on (I := I) (c_order_id m) (e_symbol e) (Some st) (cancel_event m) (timestamp_of (e_clock e)) r ->
    cancel_outcome m e e' r
| cancel_refused reject r :
    match e_states e !! c_order_id m with
    | Some st => sender st <> c_sender m /\ reject = NotOwner
    | None => reject = UnknownOrder
    end ->
    e_states e' = e_states e -> (forall i, found e' i = found e i) ->
    report_on (I := I) (R := R) (c_order_id m) (e_symbol e) None
      (reject_event (c_order_id m) (c_client_cancel_id m) (reject_reason reject)) (timestamp_of (e_clock e)) r ->
    cancel_outcome m e e' r.

(** [told rs e e']: only reports were sent. *)
Record told (rs : list (R * Report)) e e' : Prop := {
  to_found : forall id, found e' id = found e id;
  to_states : e_states e' = e_states e;
  to_book : e_book e' = e_book e;
  to_reports : reports (e_outputs e') = reports (e_outputs e) ++ rs;
  to_session : same_session e e';
}.

(** ** Frames *)

(** Pushing anything but a report. *)
Lemma push_unmoved o e : reports [o] = [] -> unmoved e (on_desk (push o) e).
Proof.
  intros Ho. split; try done; [|by eexists]. unfold e_outputs, on_desk. simpl. unfold reports in *. by rewrite omap_app, Ho, app_nil_r.
Qed.

Lemma removed_few test e e' : removed test e e' -> few e -> few e'.
Proof.
  intros Hr Hf. apply (few_submap e); [done|]. apply map_subseteq_spec. intros id st Hs. rewrite (rm_states _ _ _ Hr) in Hs.
  destruct (e_states e !! id) as [st'|]; [|done]. by destruct (test st').
Qed.

Lemma removed_unmoved test e e' e'' : removed test e e' -> unmoved e' e'' -> removed test e e''.
Proof. intros [Hs Hf] [Hf' Hs' _ _ _ _ _]. split; intros id; [by rewrite Hs'|by rewrite Hf']. Qed.

Lemma removed_gone test e e' id :
  removed test e e' -> (exists st, e_states e !! id = Some st /\ test st = true) -> e_states e' !! id = None /\ found e' id = [].
Proof. intros [Hs Hf] (st & Hst & Ht). by rewrite Hs, Hf, Hst, Ht. Qed.

Lemma removed_kept test e e' id :
  coherent e -> removed test e e' -> ~ (exists st, e_states e !! id = Some st /\ test st = true) ->
  e_states e' !! id = e_states e !! id /\ found e' id = found e id.
Proof.
  intros Hco [Hs Hf] Hno. rewrite Hs, Hf. destruct (e_states e !! id) as [st|] eqn:Hst.
  - destruct (test st) eqn:Ht; [|done]. exfalso. apply Hno. eauto.
  - pose proof (co_states _ Hco id) as Hat. unfold coherent_at in Hat. rewrite Hst in Hat. by rewrite Hat.
Qed.

Lemma mass_selects_spec m st :
  mass_selects m st = true <-> sender st = mc_sender m /\ (mc_side m = 0 \/ st_side st = mc_side m).
Proof. unfold mass_selects. by rewrite andb_true_iff, orb_true_iff, bool_decide_eq_true, !Z.eqb_eq. Qed.

(** ** Mass cancel and expiry *)


(** ** Cancel requests *)

Lemma send_reject_told to id req reason e :
  exists r, report_on (I := I) (R := R) id (e_symbol e) None (reject_event id req reason) (timestamp_of (e_clock e)) r /\
    told [(to, r)] e (on_desk (send_reject to id (e_symbol e) req reason (timestamp_of (e_clock e))) e).
Proof.
  eexists. split; [exists (e_desk e); reflexivity|]. unfold send_reject.
  split; try done.
  - unfold e_states, on_desk. simpl. apply send_report_spec.
  - unfold e_outputs, on_desk. simpl. by rewrite (proj2 (send_report_spec _ _ _ _ _ _ _)), reports_snoc.
Qed.

Lemma coherent_told {X} rs e e' : coherent_on X e -> told rs e e' -> coherent_on X e'.
Proof.
  intros [Hw Hc Hta] [Hf Hs Hb _ (_ & _ & _ & Hp & _)]. split; [by apply (book_ok_same e)| |by apply (fills_agree_same _ e)].
  intros id. specialize (Hc id). unfold coherent_at in *. by rewrite Hs, Hf.
Qed.

Lemma stop_cancel_for_refused id owner parked :
  match filter (fun o => order_id o = id) parked with
  | [] => stop_cancel_for id owner parked = (Err UnknownOrder, parked)
  | o :: _ => trader_id o <> owner -> stop_cancel_for id owner parked = (Err NotOwner, parked)
  end.
Proof.
  unfold stop_cancel_for, position_for. pose proof (position_spec id parked) as Hp. destruct (position id parked) as [i|].
  - destruct Hp as (o & Hi & Hid & Hpre). rewrite <- (take_drop_middle _ _ _ Hi), filter_app, Hpre, filter_cons_True by done.
    simpl. rewrite (take_drop_middle _ _ _ Hi), Hi. intros Hne. by rewrite bool_decide_true.
  - by rewrite Hp.
Qed.

(** The [Cancel] arm takes the order out the way [remove_live] does. *)
Lemma process_cancel_owned m e st :
  coherent e -> e_states e !! c_order_id m = Some st -> sender st = c_sender m ->
  e_call_markets e !! c_order_id m = None -> e_held_close e !! c_order_id m = None ->
  exists md e1, remove_live (c_order_id m) e = Done (md, e1) /\ process_cancel m e =
    let e2 := on_desk (fun d => set_states (delete (c_order_id m) (states d)) d) e1 in
    let e3 := on_desk (send_report (c_output_tx m) (c_order_id m) (e_symbol e2) (Some st) (cancel_event m) (timestamp_of (e_clock e))) e2 in
    match md with Some u => on_desk (send_md u (timestamp_of (e_clock e))) e3 | None => e3 end.
Proof.
  intros Hco Hst Hown Hm Hh. pose proof (co_states _ Hco (c_order_id m)) as Hat. unfold coherent_at in Hat. rewrite Hst in Hat.
  destruct Hat as (o & Hf & Hid & Ht). unfold found in Hf. rewrite Hm, Hh in Hf. simpl in Hf. rewrite app_nil_r in Hf.
  unfold process_cancel, remove_live, cancel_order_for, check_owner.
  destruct (order_lookup (e_book e) !! c_order_id m) as [ob|] eqn:Hb.
  - simpl in Hf. injection Hf as -> _. rewrite bool_decide_false by (intros H; apply H; by rewrite <- (tk_sender _ _ Ht)).
    assert (exists u b', cancel_order (c_order_id m) (e_book e) = (Some u, b')) as (u & b' & ->) by (unfold cancel_order; rewrite Hb; eauto).
    eexists _, _. split; [done|]. cbn beta iota zeta.
    change (e_states (set_book b' e)) with (e_states e). by rewrite Hst.
  - assert (cancel_order (c_order_id m) (e_book e) = (None, e_book e)) as -> by (unfold cancel_order; by rewrite Hb).
    cbn beta iota zeta. change (e_call_markets (set_book (e_book e) e)) with (e_call_markets e).
    change (e_held_close (set_book (e_book e) e)) with (e_held_close e).
    change (e_states (set_book (e_book e) e)) with (e_states e). change (e_stops (set_book (e_book e) e)) with (e_stops e).
    rewrite Hm, Hh, Hst. cbn [expect obind]. simpl in Hf.
    destruct (stop_cancel_for_only _ (c_sender m) _ _ Hf) as (parked' & Hc & _); [by rewrite <- Hown, (tk_sender _ _ Ht)|].
    rewrite Hown, Hc. eexists _, _. split; [done|]. cbn beta iota zeta.
    change (e_states (set_market (e_book e) parked' (e_last e) e)) with (e_states e). by rewrite Hst.
Qed.

(** Any other cancel that reaches it is refused. *)
Lemma process_cancel_refused m e :
  coherent e -> e_call_markets e !! c_order_id m = None -> e_held_close e !! c_order_id m = None ->
  (forall st, e_states e !! c_order_id m = Some st -> sender st <> c_sender m) ->
  exists e1, unmoved e e1 /\ e_desk e1 = e_desk e /\ process_cancel m e =
    on_desk (send_reject (c_output_tx m) (c_order_id m) (e_symbol e1) (c_client_cancel_id m)
      (reject_reason (match e_states e !! c_order_id m with Some _ => NotOwner | None => UnknownOrder end)) (timestamp_of (e_clock e1))) e1.
Proof.
  intros Hco Hm Hh Hne. pose proof (co_states _ Hco (c_order_id m)) as Hat. unfold coherent_at, found in Hat. rewrite Hm, Hh in Hat.
  simpl in Hat. rewrite app_nil_r in Hat. unfold process_cancel, cancel_order_for, check_owner.
  pose proof (stop_cancel_for_refused (c_order_id m) (c_sender m) (e_stops e)) as Hstop.
  destruct (e_states e !! c_order_id m) as [st|] eqn:Hst.
  - destruct Hat as (o & Hf & Hid & Ht). specialize (Hne st eq_refl). rewrite (tk_sender _ _ Ht) in Hne.
    destruct (order_lookup (e_book e) !! c_order_id m) as [ob|] eqn:Hb.
    + simpl in Hf. injection Hf as -> _. rewrite bool_decide_true by done. by exists (set_book (e_book e) e).
    + simpl in Hf. rewrite Hf in Hstop. rewrite (Hstop Hne). by exists (set_market (e_book e) (e_stops e) (e_last e) e).
  - apply app_eq_nil in Hat as [Hb Hs]. destruct (order_lookup (e_book e) !! c_order_id m); [done|].
    rewrite Hs in Hstop. rewrite Hstop. by exists (set_market (e_book e) (e_stops e) (e_last e) e).
Qed.

(** The two ways a cancel ends, as steps to [e']. *)
Definition cancel_result (m : CancelMsg R) e e' : Prop :=
  exists r, coherent e' /\ e_states e' ⊆ e_states e /\ same_session e e' /\
    reports (e_outputs e') = reports (e_outputs e) ++ [(c_output_tx m, r)] /\ cancel_outcome m e e' r.

Lemma cancel_gone m e md e1 st :
  coherent e -> e_states e !! c_order_id m = Some st -> sender st = c_sender m -> remove_live (c_order_id m) e = Done (md, e1) ->
  let e2 := on_desk (fun d => set_states (delete (c_order_id m) (states d)) d) e1 in
  let e3 := on_desk (send_report (c_output_tx m) (c_order_id m) (e_symbol e2) (Some st) (cancel_event m) (timestamp_of (e_clock e))) e2 in
  cancel_result m e (match md with Some u => on_desk (send_md u (timestamp_of (e_clock e))) e3 | None => e3 end).
Proof.
  intros Hco Hst Hown Hrm.
  destruct (removal_reported (c_output_tx m) (c_order_id m) false (cancel_event m) (timestamp_of (e_clock e)) e md e1 st Hco Hst Hrm)
    as (_ & r & H1 & H2 & H3 & H4 & H5 & H6 & H7).
  exists r. split_and!; [done| |done|done|]; [rewrite H2; apply delete_subseteq|]. by apply (cancel_done m e _ st).
Qed.

Lemma cancel_kept m e e1 :
  coherent e -> unmoved e e1 -> (forall st, e_states e !! c_order_id m = Some st -> sender st <> c_sender m) ->
  let rej := match e_states e !! c_order_id m with Some _ => NotOwner | None => UnknownOrder end in
  cancel_result m e (on_desk (send_reject (c_output_tx m) (c_order_id m) (e_symbol e1) (c_client_cancel_id m) (reject_reason rej)
    (timestamp_of (e_clock e1))) e1).
Proof.
  intros Hco Hu Hne rej. destruct (send_reject_told (c_output_tx m) (c_order_id m) (c_client_cancel_id m) (reject_reason rej) e1) as (r & Hon & Ht).
  set (e2 := on_desk _ e1) in *. pose proof (um_session _ _ Hu) as (Hsy & Hcl & Hsess). rewrite Hsy, Hcl in Hon.
  pose proof (to_states _ _ _ Ht) as Hs2. rewrite (um_states _ _ Hu) in Hs2.
  exists r. split_and!; [|by rewrite Hs2| | |].
  - eapply coherent_told; [by eapply coherent_unmoved|exact Ht].
  - eapply same_session_trans; [apply Hu|apply Ht].
  - by rewrite (to_reports _ _ _ Ht), (um_reports _ _ Hu).
  - apply (cancel_refused m e _ rej); [|done| |done].
    + unfold rej. destruct (e_states e !! c_order_id m) as [st|]; [split; [by apply Hne|done]|done].
    + intros i. by rewrite (to_found _ _ _ Ht), (um_found _ _ Hu).
Qed.

Lemma unmoved_refl e : unmoved e e.
Proof. by split. Qed.

Lemma cancel_step m e :
  coherent e ->
  exists e', (let* (done_, e) := preflight (MCancel m) e in if done_ then Done e else Done (process_cancel m e)) = Done e' /\ cancel_result m e e'.
Proof.
  intros Hco. cbn [preflight]. destruct (bool_decide (is_Some (e_call_markets e !! c_order_id m)) || bool_decide (is_Some (e_held_close e !! c_order_id m))) eqn:Hheld.
  - pose proof (co_states _ Hco (c_order_id m)) as Hat. unfold coherent_at in Hat. unfold preflight_cancel.
    destruct (e_states e !! c_order_id m) as [st|] eqn:Hst; cycle 1.
    { unfold found in Hat. apply app_eq_nil in Hat as [_ Hat]. apply app_eq_nil in Hat as [_ Hat]. apply app_eq_nil in Hat as [H1 H2].
      destruct (e_call_markets e !! c_order_id m), (e_held_close e !! c_order_id m); done. }
    cbn [expect obind]. destruct (bool_decide_reflect (sender st <> c_sender m)) as [Hown|Hown]; cbn [obind].
    + cbn [obind]. eexists. split; [done|]. pose proof (cancel_kept m e e Hco (unmoved_refl e)) as Hk. rewrite Hst in Hk. apply Hk. by intros ? [= <-].
    + apply dec_stable in Hown. destruct (remove_live_ok _ _ _ Hco Hst) as (md & e1 & Hrm & _ & _ & _ & Hd & _ & Hmd).
      rewrite Hrm. cbn [obind]. unfold e_states at 1. rewrite Hd. fold (e_states e). rewrite Hst. cbn [expect obind].
      eexists. split; [done|]. pose proof (cancel_gone m e md e1 st Hco Hst Hown Hrm) as Hg.
      assert (md = None) as ->; [|exact Hg]. rewrite Hmd. unfold cancel_order. destruct (order_lookup (e_book e) !! c_order_id m) eqn:Hb; [|done].
      exfalso. destruct Hat as (x & Hf & _). unfold found in Hf. rewrite Hb in Hf. simpl in Hf. injection Hf as _ Hf.
      apply app_eq_nil in Hf as [_ Hf]. apply app_eq_nil in Hf as [H1 H2].
      destruct (e_call_markets e !! c_order_id m), (e_held_close e !! c_order_id m); done.
  - apply orb_false_iff in Hheld as [Hm Hh]. apply bool_decide_eq_false, eq_None_not_Some in Hm, Hh. cbn [obind].
    eexists. split; [done|]. destruct (e_states e !! c_order_id m) as [st|] eqn:Hst; [destruct (decide (sender st = c_sender m)) as [Hown|Hown]|].
    + destruct (process_cancel_owned m e st Hco Hst Hown Hm Hh) as (md & e1 & Hrm & ->). by apply (cancel_gone m e md e1 st).
    + destruct (process_cancel_refused m e Hco Hm Hh) as (e1 & Hu & _ & ->); [by rewrite Hst; intros ? [= <-]|].
      apply cancel_kept; [done..|]. by rewrite Hst; intros ? [= <-].
    + destruct (process_cancel_refused m e Hco Hm Hh) as (e1 & Hu & _ & ->); [by rewrite Hst|].
      apply cancel_kept; [done..|]. by rewrite Hst.
Qed.

Lemma set_timers_unmoved e next : unmoved e (set_timers (e_clock e) (e_call_until e) (e_last_seen e) next e).
Proof. by split. Qed.

Lemma cancel_outcome_ext m e0 e e' e'' r :
  unmoved e0 e -> unmoved e' e'' -> cancel_outcome m e e' r -> cancel_outcome m e0 e'' r.
Proof.
  intros [F1 S1 _ _ _ (Y1 & C1 & _) _] [F2 S2 _ _ _ _ _] [st r' H1 H2 H3 H4 H5 H6|rej r' H1 H2 H3 H4].
  - apply (cancel_done m e0 e'' st); [by rewrite <- S1|done|by rewrite S2, <- S1|by rewrite F2| |by rewrite <- Y1, <- C1].
    intros i Hi. by rewrite F2, <- F1, H5.
  - apply (cancel_refused m e0 e'' rej); [by rewrite <- S1|by rewrite S2, <- S1| |by rewrite <- Y1, <- C1].
    intros i. by rewrite F2, <- F1, H3.
Qed.

(** C23: A cancel request on a coherent engine returns, keeps it coherent and
    answers the requester with exactly one report. The order leaves, from
    wherever it waits, if and only if the requester is its owner; a request for
    an unknown order or another owner's is refused with its own reason and
    changes no order. *)
Theorem cancel_exact m e e1 :
  tick e = Done e1 -> coherent e1 -> few e1 ->
  exists e' r, cancel m e = Done e' /\ coherent e' /\
    reports (e_outputs e') = reports (e_outputs e1) ++ [(c_output_tx m, r)] /\ cancel_outcome m e1 e' r.
Proof.
  intros Ht Hco Hfew. unfold cancel, process. rewrite Ht. cbn [obind]. pose proof (set_timers_unmoved e1 (add64 (e_next_arrival e1) 1)) as Hu.
  set (e2 := set_timers _ _ _ _ e1) in *. destruct (cancel_step m e2 (coherent_unmoved _ _ Hco Hu)) as (e3 & Hrun & r & Hco3 & Hsub & Hses & Hr & Ho).
  destruct (preflight (MCancel m) e2) as [[done_ e2']| |]; [|done|done]. cbn [obind] in *.
  rewrite (um_states _ _ Hu) in Hsub. destruct (publish_ok (e_clock e3) e3 Hco3 (few_submap _ _ Hfew Hsub)) as (e4 & Hp & Hu4).
  assert ((let* e5 := (if done_ then Done e2' else Done (process_cancel m e2')) in publish_indicative (e_clock e5) e5) = Done e4) as ->
    by (rewrite Hrun; exact Hp).
  cbn [obind]. pose proof (unmoved_trans _ _ _ Hu4 (remember_unmoved (outputs (e_desk e4)) e4)) as Hu5.
  eexists _, r. split; [done|]. split_and!.
  - by eapply coherent_unmoved.
  - by rewrite (um_reports _ _ Hu5), Hr, (um_reports _ _ Hu).
  - by eapply cancel_outcome_ext.
Qed.
End operations.

(** ** Witnesses *)


Lemma cancel_exact_witness :
  exists e' r, cancel (mkCancelMsg "m1" "alice" "x1" 11) call_engine = Done e' /\ coherent e' /\
    reports (e_outputs e') = [(11, r)] /\ order_status r = order_status_code OrderCanceled.
Proof.
  destruct (cancel_exact (mkCancelMsg "m1" "alice" "x1" 11) call_engine (remember_status [] (fresh call_engine)))
    as (e' & r & Hrun & Hco & Hr & Ho).
  - apply tick_still. reflexivity.
  - apply coherent_still, call_engine_ok.
  - vm_compute. congruence.
  - exists e', r. split_and!; [exact Hrun|exact Hco|exact Hr|].
    destruct Ho as [st r' _ _ _ _ _ (d & ->)|rej r' Hs _ _ _]; [by unfold build_report; destruct (next_id (ids d))|].
    exfalso. destruct Hs as [Hs _]. apply Hs. reflexivity.
Defined.
