(* ===== verification/EngineEntry.v ===== *)
(** * New orders

    A new order request on a coherent engine always returns: it is refused with
    a reason and changes nothing, or put in exactly one place, or matched, in
    which case the book ends idle and every unit of every order it touched is
    accounted for. *)

From S2P Require Import Prelude BTree Text Order OrderBook BookInvariant Samples BookEffects Matcher Effects MatchOrders Stops Executions Cascade.
From S2P Require Import Session SymbolConfig Auction AuctionPrice Proto Reports Engine EngineInv EngineMatch EngineSamples EngineOps.

Section entry.
Context {R I : Type} `{!ExecIds I}.
Implicit Types (e : Engine R I).

(** ** Definitions *)

(** The engine once the request has its arrival number. *)
Definition stamped e : Engine R I :=
  set_timers (e_clock e) (e_call_until e) (e_last_seen e) (add64 (e_next_arrival e) 1) e.

(** The codes of the protocol. *)
Definition side_wire (s : OrderSide) : Z := match s with Buy => 1 | Sell => 2 end.
Definition type_wire (t : OrderType) : Z := match t with Market => 1 | Limit => 2 | Stop => 3 | StopLimit => 4 end.
Definition tif_wire (t : TimeInForce) : Z :=
  match t with Day => 1 | GTC => 2 | IOC => 3 | FOK => 4 | AtOpen => 5 | AtClose => 6 | Gtd => 7 end.
Definition stp_wire (m : StpMode) : Z :=
  match m with StpNone => 1 | CancelNewest => 2 | CancelOldest => 3 | CancelBoth => 4 | DecrementAndCancel => 5 end.

(** The order that a request asks for, field by field. *)
Record requested (order : NewOrderSingle) e (o : Order) : Prop := {
  rq_id : order_id o = n_order_id order;
  rq_owner : trader_id o = n_sender order;
  rq_symbol : symbol o = e_symbol e;
  rq_side : n_side order = side_wire (side o);
  rq_type : n_order_type order = type_wire (order_type o);
  rq_tif : n_time_in_force order = tif_wire (time_in_force o);
  rq_price : price o = n_price order;
  rq_limit : has_limit (order_type o) = true -> 0 < price o;
  rq_quantity : quantity o = n_quantity order;
  rq_positive : 0 < quantity o;
  rq_display : display_quantity o = as_u32 (n_display_quantity order);
  rq_stop : stop_price o = n_stop_price order;
  rq_expires : expire_date o = n_expire_date order;
  rq_account : account o = n_account order;
  rq_client : client_order_id o = n_client_order_id order;
  rq_time : timestamp o = as_millis (e_clock e);
  rq_group : group (order_stp o) = n_stp_group order;
  rq_stp : n_stp_mode order = stp_wire (mode (order_stp o)) \/ n_stp_mode order = 0 /\ mode (order_stp o) = e_stp_default e;
  rq_fresh : e_states e !! order_id o = None;
}.

(** The report state a request starts with. *)
Record state_for (order : NewOrderSingle) (tx : R) (st : OrderState R) : Prop := {
  sf_sender : sender st = n_sender order;
  sf_side : st_side st = n_side order;
  sf_quantity : order_qty st = n_quantity order;
  sf_filled : cum_qty st = 0;
  sf_account : st_account st = n_account order;
  sf_client : st_client_order_id st = n_client_order_id order;
  sf_expires : st_expire_date st = n_expire_date order;
  sf_tif : n_time_in_force order = tif_wire (st_time_in_force st);
  sf_tx : output_tx st = tx;
}.

(** What becomes of a new order. *)
Inductive order_handled (order : NewOrderSingle) (tx : R) e e' : Prop :=
| handled_refused reason r :
    order_reason order e = Some reason \/ order_reason order e = None /\ reason = "stop_price is required"%string /\ n_stop_price order = 0 ->
    coherent e' -> e_states e' = e_states e -> (forall i, found e' i = found e i) ->
    reports (e_outputs e') = reports (e_outputs e) ++ [(tx, r)] ->
    reject_reason_text r = reason -> execution_type r = exec_type_code ExecRejected ->
    order_handled order tx e e'
| handled_waiting o st r :
    order_reason order e = None -> requested order e o -> state_for order tx st ->
    coherent e' -> e_states e' = <[order_id o := st]> (e_states e) -> found e' (order_id o) = [o] -> waits e e' o ->
    reports (e_outputs e') = reports (e_outputs e) ++ [(tx, r)] -> acknowledges o st r ->
    order_handled order tx e e'
| handled_matched o :
    order_reason order e = None -> requested order e o -> e_phase e = Continuous ->
    coherent e' -> settled [o] e e' -> order_handled order tx e e'.

(** ** The request *)

Lemma send_report_told to id st ev ts e :
  told [(to, (build_report id (e_symbol e) st ev ts (e_desk e)).1)] e (on_desk (send_report to id (e_symbol e) st ev ts) e).
Proof.
  split; try done.
  - unfold e_states, on_desk. simpl. apply send_report_spec.
  - unfold e_outputs, on_desk. simpl. by rewrite (proj2 (send_report_spec _ _ _ _ _ _ _)), reports_snoc.
Qed.

Lemma build_report_fields id sym st ev ts (d : Desk R I) :
  reject_reason_text (build_report id sym st ev ts d).1 = ev_reject_reason ev /\
  execution_type (build_report id sym st ev ts d).1 = exec_type_code (ev_type ev).
Proof. unfold build_report. by destruct (next_id (ids d)). Qed.

Lemma handled_refuse order tx e id st ts reason :
  coherent e ->
  order_reason order e = Some reason \/ order_reason order e = None /\ reason = "stop_price is required"%string /\ n_stop_price order = 0 ->
  order_handled order tx e
    (on_desk (send_report tx id (e_symbol e) st (mkReportEvent ExecRejected OrderRejected 0 0 0 None "" reason) ts) e).
Proof.
  intros Hco Hr. set (ev := mkReportEvent _ _ _ _ _ _ _ _). pose proof (send_report_told tx id st ev ts e) as Ht.
  pose proof (build_report_fields id (e_symbol e) st ev ts (e_desk e)) as [H1 H2].
  eapply handled_refused; [exact Hr|by eapply coherent_told|apply Ht|apply Ht|apply Ht|exact H1|exact H2].
Qed.

Lemma parse_enums_wire order s ty tif : parse_order_enums order = Ok (s, ty, tif) ->
  n_side order = side_wire s /\ n_order_type order = type_wire ty /\ n_time_in_force order = tif_wire tif.
Proof.
  unfold parse_order_enums. cbv zeta.
  destruct (match n_side order with 1 => _ | _ => _ end) as [s'|] eqn:E1; [|done].
  destruct (match n_order_type order with 1 => _ | _ => _ end) as [ty'|] eqn:E2; [|done].
  destruct (match n_time_in_force order with 1 => _ | _ => _ end) as [tif'|] eqn:E3; [|done]. intros [= <- <- <-].
  split_and!; [revert E1|revert E2|revert E3]; repeat (case_match; try done); by intros [= <-].
Qed.

Lemma parse_stp_wire v dflt m x : parse_stp v dflt = Ok (m, x) -> v = stp_wire m \/ v = 0 /\ m = dflt.
Proof. unfold parse_stp. repeat (case_match; try done); intros [= <- _]; auto. Qed.

(** The order and the state the engine makes of an accepted request. *)
Lemma order_of_requested order tx arr e s ty tif mode_ explicit :
  request_ok order -> parse_order_enums order = Ok (s, ty, tif) -> parse_stp (n_stp_mode order) (e_stp_default e) = Ok (mode_, explicit) ->
  e_states e !! n_order_id order = None -> (is_limit_type ty = true -> 0 < n_price order) -> 0 < n_quantity order ->
  requested order e (order_of order s ty tif mode_ e) /\ state_for order tx (state_new order (quantity (order_of order s ty tif mode_ e)) tx arr).
Proof.
  intros Hq Hp Hs Hn Hl Hpos. destruct (parse_enums_wire _ _ _ _ Hp) as (P1 & P2 & P3). pose proof (parse_stp_wire _ _ _ _ Hs) as P4.
  assert (as_u32 (n_quantity order) = n_quantity order) as Hu.
  { unfold as_u32. apply wrap32_small. unfold request_ok, is_u32, i32_max, u32_max in *. lia. }
  split; split; simpl; rewrite ?Hu, ?Hp; try done.
Qed.

Lemma process_order_handled order tx arr e :
  request_ok order -> coherent e ->
  exists e', process_order order tx arr e = Done e' /\ order_handled order tx e e' /\
    coherent e' /\ (size (e_states e') <= S (size (e_states e)))%nat.
Proof.
  intros Hq Hco. unfold process_order. destruct (order_reason order e) as [reason|] eqn:Hr.
  { pose proof (send_report_told tx (n_order_id order) (Some (state_new order (Z.max (n_quantity order) 0) tx arr))
      (mkReportEvent ExecRejected OrderRejected 0 0 0 None "" reason) (timestamp_of (e_clock e)) e) as Ht.
    eexists. split; [done|]. split; [by apply handled_refuse; [|left]|]. split; [by eapply coherent_told|].
    rewrite (to_states _ _ _ Ht). lia. }
  destruct (order_reason_None order e tx arr Hq Hr) as (s & ty & tif & mode_ & explicit & Hp & Hstp & Hn & Ht & Hlim & Hauc & Hpos).
  destruct (order_of_requested order tx arr e s ty tif mode_ explicit Hq Hp Hstp Hn Hlim Hpos) as [Hreq Hsf].
  rewrite Hp, Hstp. cbn [result_ok expect obind]. set (o := order_of _ _ _ _ _ _) in *. set (st := state_new _ _ _ _) in *.
  destruct (is_stop_type (order_type o) && (stop_price o =? 0)) eqn:Hz.
  { unfold accept_order. rewrite Hz.
    pose proof (send_report_told (output_tx st) (order_id o) (Some st)
      (mkReportEvent ExecRejected OrderRejected 0 0 0 None "" "stop_price is required") (timestamp_of (e_clock e)) e) as Htd.
    eexists. split; [done|]. split; [|split; [by eapply coherent_told|rewrite (to_states _ _ _ Htd); lia]].
    apply handled_refuse; [done|]. right. apply andb_true_iff in Hz as [_ Hz]. apply Z.eqb_eq in Hz. done. }
  pose proof (accept_order_entered o st e Hco Hn Ht eq_refl Hauc) as Hent. inversion Hent as [e1 _ _ H1 H2 He|e1 r Hco' Hs Hf Hw Hr' Ha He|Hph Hidle Hex Hm].
  - by rewrite H1, H2 in Hz.
  - exists e1. split; [done|]. split; [by apply (handled_waiting order tx e e1 o st r)|]. split; [done|]. rewrite Hs, map_size_insert_None by done. lia.
  - destruct (match_order_coherent o st e Hco Hn Hph Ht eq_refl) as (e2 & Hrun & Hco2 & Hsh & _ & Hset). exists e2. split; [done|].
    split; [by apply (handled_matched order tx e e2 o)|]. split; [done|]. pose proof (shrinks_size _ _ Hsh) as Hle.
    unfold e_states in Hle at 2. simpl in Hle. by rewrite map_size_insert_None in Hle by done.
Qed.

Lemma settled_unmoved loose e e1 e2 : settled loose e e1 -> unmoved e1 e2 -> settled loose e e2.
Proof. intros (S1 & S2 & S3 & S4) [_ _ B K _ _ _ _]. unfold settled, reachable_leaves in *. by rewrite B, K. Qed.

Lemma order_handled_unmoved order tx e e1 e2 :
  order_handled order tx e e1 -> unmoved e1 e2 -> coherent e1 -> order_handled order tx e e2.
Proof.
  intros H Hu Hco. pose proof (coherent_unmoved _ _ Hco Hu) as Hco2. pose proof Hu as [F S B K Rp _ _ [Hm Hh]].
  destruct H as [reason r H1 H2 H3 H4 H5 H6 H7|o st r H1 H2 H3 H4 H5 H6 H7 H8 H9|o H1 H2 H3 H4 H5].
  - apply (handled_refused order tx e e2 reason r); [done|done|congruence| |congruence|done|done]. intros i. by rewrite F.
  - apply (handled_waiting order tx e e2 o st r); [done..|congruence|by rewrite F| |congruence|done]. unfold waits in *. by rewrite B, K, Hm, Hh.
  - apply (handled_matched order tx e e2 o); [done..|]. by eapply settled_unmoved.
Qed.

End entry.

(** ** Witness *)

