(* ===== verification/EngineReplace.v ===== *)
(** * Replacements

    A cancel-replace request on a coherent engine always returns and keeps it
    coherent: it is refused and changes nothing, or the order moves to its new
    id with the total the request asks for, waits or matches. One case is set
    apart: a partly filled order that a replacement moves to the close loses
    count of its fills. *)

From S2P Require Import Prelude BTree Text Order OrderBook BookInvariant Samples BookEffects BookOps Matcher Effects MatchOrders Stops Executions Cascade.
From S2P Require Import Session SymbolConfig Auction AuctionPrice Proto Reports ExecutionReports Engine EngineInv EngineMatch EngineSamples EngineOps EngineEntry.

Section replace.
Context {R I : Type} `{!ExecIds I}.
Implicit Types (e : Engine R I) (m : CancelReplaceMsg R).

(** ** Definitions *)

(** The quantity of a request is an [i32]. *)
Definition replace_request_ok m : Prop := - i32_max - 1 <= cr_new_quantity m <= i32_max.

(** The total a replacement asks for. *)
Definition replaced_total m (st : OrderState R) : Z := if cr_new_quantity m >? 0 then cr_new_quantity m else order_qty st.

(** The time in force an order has after the replacement. *)
Definition replaced_tif m (o : Order) : TimeInForce :=
  match parse_replace_time_in_force (cr_new_time_in_force m) with Ok (Some t) => t | _ => time_in_force o end.

(** The replacement takes a partly filled order off the book to hold it for the
    close: the book's count of its fills is lost. *)
Definition strands m e : bool :=
  match order_lookup (e_book e) !! cr_order_id m with
  | Some o => (banked (e_book e) (cr_order_id m) >? 0) && bool_decide (replaced_tif m o = AtClose) && bool_decide (e_phase e <> ClosingCall)
  | None => false
  end.

(** The order of an id becomes [o], with state [st]. *)
Record moved (id : string) (o : Order) (st : OrderState R) e e' : Prop := {
  mv_states : e_states e' = <[order_id o := st]> (delete id (e_states e));
  mv_old : id <> order_id o -> found e' id = [];
  mv_new : found e' (order_id o) = [o];
  mv_found : forall i, i <> id -> i <> order_id o -> found e' i = found e i;
  mv_banked : forall i, i <> id -> i <> order_id o -> banked (e_book e') i = banked (e_book e) i;
  mv_filled : banked (e_book e') (order_id o) = cum_qty st;
}.

(** What becomes of a replacement: refused, waiting in its new place, or matched
    from there. *)
Definition replacement m (st : OrderState R) (o : Order) (st' : OrderState R) e : Prop :=
  e_states e !! cr_order_id m = Some st /\ sender st = cr_sender m /\ order_id o = cr_new_order_id m /\ tracks st' o /\
  cum_qty st' = cum_qty st /\ order_qty st' = replaced_total m st.

Inductive replace_handled m e e' : Prop :=
| replace_refused r :
    coherent e' -> e_states e' = e_states e -> (forall i, found e' i = found e i) ->
    reports (e_outputs e') = reports (e_outputs e) ++ [(cr_output_tx m, r)] -> execution_type r = exec_type_code ExecRejected ->
    replace_handled m e e'
| replace_waiting st o st' :
    replacement m st o st' e -> coherent e' -> moved (cr_order_id m) o st' e e' -> replace_handled m e e'
| replace_matched st o st' loose e1 :
    replacement m st o st' e -> e_phase e = Continuous -> loose = [] \/ loose = [o] -> coherent_with loose e1 ->
    e_states e1 = <[order_id o := st']> (delete (cr_order_id m) (e_states e)) ->
    coherent e' -> settled loose e1 e' -> replace_handled m e e'.

(** ** Replacing on the book *)

(** An accepted replacement: the order moves to its new id and takes its fills
    along. *)
Record book_moved (id nid : string) (ch : OrderReplace) (o o' : Order) (b b' : OrderBook) : Prop := {
  bm_old : order_lookup b !! id = Some o;
  bm_free : nid = id \/ order_lookup b !! nid = None;
  bm_new : exists left, o' = replacement_of o nid ch left /\
    (new_total_qty ch = 0 /\ left = quantity o \/ banked b id < new_total_qty ch /\ left = new_total_qty ch - banked b id);
  bm_ok : order_ok o';
  bm_wf : wf_book b';
  bm_stp : book_stp b' = book_stp b;
  bm_lookup : order_lookup b' = <[nid := o']> (delete id (order_lookup b));
  bm_filled : banked b' nid = banked b id;
  bm_banked : forall i, i <> id -> i <> nid -> banked b' i = banked b i;
  bm_priced : priced b -> priced b';
}.

Lemma replace_order_moved id nid ch owner b :
  wf_book b -> replace_ok ch ->
  match replace_order id nid ch owner b with
  | (Err _, b') => b' = b
  | (Ok (o', _), b') => exists o, trader_id o = owner /\ book_moved id nid ch o o' b b'
  end.
Proof.
  intros Hwf Hch. pose proof (replace_order_inv id nid ch owner b Hwf Hch) as Hwf'.
  destruct (replace_order_cases b id nid ch owner Hwf Hch) as [| | | |o left Hl Ho Hfree Hleft repl c a filled]; try done.
  cbn [snd] in Hwf'. set (b' := if filled >? 0 then _ else _) in *. exists o. split; [done|].
  pose proof (replacement_ok b id o nid ch left Hwf Hch Hl Hleft) as Hok.
  assert (order_lookup b' = order_lookup a.2 /\ book_stp b' = book_stp a.2) as [Hlk Hst] by (unfold b'; by destruct (filled >? 0)).
  assert (forall i, banked b' i = if decide (nid = i) then filled else banked c.2 i) as Hbk.
  { assert (forall i, banked a.2 i = banked c.2 i) as Ha by (intros i; unfold banked, a; by rewrite add_order_cum).
    intros i. unfold b'. destruct (Z.gtb_spec filled 0) as [Hf|Hf].
    - unfold banked at 1. simpl. rewrite lookup_insert. case_decide; [done|]. apply Ha.
    - rewrite Ha. case_decide; [|done]. subst i. unfold c. rewrite (banked_absent [] _ nid);
        [|by apply cancel_order_inv|by apply replacement_fresh]. destruct (banked_bounds _ _ _ _ Hwf Hl). unfold banked in *. lia. }
  split; try done.
  - by exists left.
  - rewrite Hst. unfold a, c. by rewrite add_order_stp, cancel_order_stp.
  - rewrite Hlk. unfold a, c. by rewrite add_order_lookup, cancel_order_lookup.
  - by rewrite Hbk, decide_True.
  - intros i Hi Hn. rewrite Hbk, decide_False by done. by apply cancel_order_banked.
  - intros Hp i x. rewrite Hlk. unfold a, c. rewrite add_order_lookup, cancel_order_lookup. intros [[_ <-]|[_ Hx]]%lookup_insert_Some; [exact (Hp id o Hl)|].
    apply lookup_delete_Some in Hx as [_ Hx]. by apply (Hp i).
Qed.

(** ** Moving an order to another id *)

Lemma moved_placed id o st0 st e e' :
  coherent e -> e_states e !! id = Some st0 -> order_id o = id \/ e_states e !! order_id o = None ->
  tracks st o -> moved id o st e e' -> (forall i, coherent_at e' i) /\ fills_agree (fun _ => True) e'.
Proof.
  intros [_ Hc Hta] Hid Hfree Ht [M1 M2 M3 M4 M5 M6]. split.
  - intros i. unfold coherent_at. rewrite M1. destruct (decide (i = order_id o)) as [->|Hi].
    { rewrite lookup_insert_eq. by exists o. }
    rewrite lookup_insert_ne by done. destruct (decide (i = id)) as [->|Hi2].
    { rewrite lookup_delete_eq. by apply M2. }
    rewrite lookup_delete_ne, M4 by done. apply Hc.
  - intros i s. rewrite M1. destruct (decide (i = order_id o)) as [->|Hi].
    { rewrite lookup_insert_eq. intros [= <-]. done. }
    rewrite lookup_insert_ne by done. intros [Hi2 Hs]%lookup_delete_Some. rewrite M5 by done. by apply Hta.
Qed.

Lemma placed_with e : wf_book (e_book e) -> book_stp (e_book e) = stp_outcome_default -> priced (e_book e) -> (forall i, coherent_at e i) /\ fills_agree (fun _ => True) e -> coherent_with [] e.
Proof.
  intros Hw Hc Hp [Hs Ht]. split; [done..|]. intros id. specialize (Hs id). unfold coherent_at, found, active, aside, of_id in *. simpl in *.
  by rewrite <- ?app_assoc in *.
Qed.

(** The states after a replacement was reported. *)
Lemma replaced_states to id nid sym st ts e :
  e_states (on_desk (fun d => set_states (<[nid := st]> (states d)) d)
    (on_desk (send_replace_reports to id nid sym st ts) (on_desk (fun d => set_states (delete id (states d)) d) e))) =
  <[nid := st]> (delete id (e_states e)).
Proof. unfold e_states, on_desk, send_replace_reports. simpl. by rewrite !send_report_states. Qed.

Lemma replace_reject_told m reason e :
  exists r, told [(cr_output_tx m, r)] e (replace_reject m reason e) /\ reject_reason_text r = reason /\ execution_type r = exec_type_code ExecRejected.
Proof.
  unfold replace_reject, send_reject. set (ev := reject_event _ _ _).
  exists (build_report (cr_order_id m) (e_symbol e) None ev (timestamp_of (e_clock e)) (e_desk e)).1. split; [apply send_report_told|].
  destruct (build_report_fields (R := R) (cr_order_id m) (e_symbol e) None ev (timestamp_of (e_clock e)) (e_desk e)) as [-> ->]. done.
Qed.

(** ** Where the order is *)

Lemma found_one e id o :
  coherent e -> o ∈ found e id ->
  exists st, e_states e !! id = Some st /\ found e id = [o] /\ order_id o = id /\ tracks st o /\ cum_qty st = banked (e_book e) id.
Proof.
  intros [_ Hc Hta] Ho. specialize (Hc id). specialize (Hta id). unfold coherent_at in Hc. destruct (e_states e !! id) as [st|].
  - destruct Hc as (x & Hx & Hid & Ht). rewrite Hx in Ho. apply list_elem_of_singleton in Ho as ->. exists st. split_and!; try done. by apply Hta.
  - rewrite Hc in Ho. by apply not_elem_of_nil in Ho.
Qed.

Lemma found_market e id o :
  coherent e -> e_call_markets e !! id = Some o ->
  order_lookup (e_book e) !! id = None /\ filter (fun x => order_id x = id) (e_stops e) = [] /\ e_held_close e !! id = None.
Proof.
  intros Hco Hm. destruct (found_one e id o Hco) as (st & _ & Hf & _); [unfold found; rewrite Hm; set_solver|].
  unfold found in Hf. rewrite Hm in Hf. destruct (order_lookup (e_book e) !! id), (filter _ (e_stops e)) as [|x l], (e_held_close e !! id); try done;
    simpl in Hf; (discriminate || by destruct l).
Qed.

Lemma found_book e id o :
  coherent e -> order_lookup (e_book e) !! id = Some o ->
  filter (fun x => order_id x = id) (e_stops e) = [] /\ e_call_markets e !! id = None /\ e_held_close e !! id = None.
Proof.
  intros Hco Hb. destruct (found_one e id o Hco) as (st & _ & Hf & _); [unfold found; rewrite Hb; set_solver|].
  unfold found in Hf. rewrite Hb in Hf. destruct (filter _ (e_stops e)) as [|x l], (e_call_markets e !! id), (e_held_close e !! id); try done.
Qed.

Lemma found_stop e id o :
  coherent e -> o ∈ e_stops e -> order_id o = id ->
  filter (fun x => order_id x = id) (e_stops e) = [o] /\ order_lookup (e_book e) !! id = None /\ e_call_markets e !! id = None /\ e_held_close e !! id = None.
Proof.
  intros Hco Ho Hid. assert (o ∈ filter (fun x => order_id x = id) (e_stops e)) as Hin by (by apply list_elem_of_filter).
  destruct (found_one e id o Hco) as (st & _ & Hf & _); [unfold found; set_solver|]. unfold found in Hf.
  destruct (filter _ (e_stops e)) as [|x l] eqn:E; [by apply not_elem_of_nil in Hin|].
  destruct (order_lookup (e_book e) !! id); [by destruct l|]. simpl in Hf. injection Hf as -> Hf.
  destruct l; [|done]. destruct (e_call_markets e !! id), (e_held_close e !! id); done.
Qed.

(** ** Validation *)

Lemma replace_reason_done m e :
  exists r, replace_reason m e = Done r /\
    (r = None -> exists st tif, e_states e !! cr_order_id m = Some st /\ sender st = cr_sender m /\
       (cr_new_order_id m = cr_order_id m \/ e_states e !! cr_new_order_id m = None) /\
       parse_replace_time_in_force (cr_new_time_in_force m) = Ok tif).
Proof.
  unfold replace_reason. destruct (or_else _ _) as [r|] eqn:Hr; [by exists (Some r)|]. apply or_else_None in Hr as [Hr _].
  unfold replace_entry_reason in Hr. case_bool_decide; [done|]. destruct (e_states e !! cr_order_id m) as [st|]; [|done].
  case_bool_decide as Hs; [done|]. case_bool_decide; [done|].
  destruct (bool_decide (cr_new_order_id m <> cr_order_id m) && _) eqn:Hd; [done|].
  destruct (parse_replace_time_in_force _) as [tif|]; [|done]. cbn [expect obind]. eexists. split; [done|]. intros _. exists st, tif.
  split_and!; try done. apply andb_false_iff in Hd as [Hd|Hd]; apply bool_decide_eq_false in Hd; [left; by apply dec_stable|right; by apply eq_None_not_Some].
Qed.

Lemma request_quantity m : replace_request_ok m -> 0 < cr_new_quantity m -> as_u32 (cr_new_quantity m) = cr_new_quantity m /\ cr_new_quantity m <= u32_max.
Proof.
  unfold replace_request_ok, i32_max, u32_max. intros H1 H2. split; [|lia]. unfold as_u32. apply wrap32_small. unfold is_u32, u32_max. lia.
Qed.

(** The states never grow in number. *)
Lemma moved_size id o st0 st e e' :
  e_states e !! id = Some st0 -> moved id o st e e' -> (size (e_states e') <= size (e_states e))%nat.
Proof.
  intros Hid Hm. rewrite (mv_states _ _ _ _ _ Hm). pose proof (map_size_delete_Some id (e_states e) (ex_intro _ _ Hid)) as Hd.
  rewrite map_size_insert. assert (0 < size (e_states e))%nat; [|destruct (delete id (e_states e) !! order_id o); simpl; lia]. destruct (size (e_states e)) eqn:E; [|lia]. apply map_size_empty_inv in E. by rewrite E, lookup_empty in Hid.
Qed.

(** ** The three kinds of replacement *)

(** The request is handled, no orders are added and the session does not move. *)
Definition replace_result m e e' : Prop := replace_handled m e e' /\ (size (e_states e') <= size (e_states e))%nat /\ same_clock e e'.

Lemma replace_reject_result m reason e : coherent e -> replace_result m e (replace_reject m reason e).
Proof.
  intros Hco. destruct (replace_reject_told m reason e) as (r & Ht & Hr & Hx). split; [|split].
  - apply (replace_refused m e _ r); [by eapply coherent_told|apply Ht|apply Ht|apply Ht|done].
  - by rewrite (to_states _ _ _ Ht).
  - destruct (to_session _ _ _ Ht) as (? & ? & ? & ? & ? & ? & ?). by split_and!.
Qed.

Lemma replace_call_market_handled m old e :
  coherent e -> replace_request_ok m -> e_call_markets e !! cr_order_id m = Some old ->
  (exists st tif, e_states e !! cr_order_id m = Some st /\ sender st = cr_sender m /\
     (cr_new_order_id m = cr_order_id m \/ e_states e !! cr_new_order_id m = None) /\
     parse_replace_time_in_force (cr_new_time_in_force m) = Ok tif) ->
  exists e', replace_call_market m old e = Done e' /\ replace_result m e e'.
Proof.
  intros Hco Hq Hm (st & ptif & Hst & Hs & Hfree & Hp). unfold replace_call_market. rewrite Hst. cbn [expect obind].
  destruct ((cr_new_quantity m >? 0) && _) eqn:Hlow; [eexists; split; [done|by apply replace_reject_result]|].
  rewrite Hp. cbn [result_ok expect obind]. set (q := if cr_new_quantity m >? 0 then _ else _). set (tif := default _ ptif).
  destruct (found_market _ _ _ Hco Hm) as (Hb & Hps & Hh).
  destruct (found_one e (cr_order_id m) old Hco) as (st1 & Hst1 & Hf & Hid & Ht & Hcum); [unfold found; rewrite Hm; set_solver|].
  assert (st1 = st) as -> by congruence. clear Hst1.
  set (o := replacement_market old m q tif (e_clock e)).
  set (st' := replaced_state st q tif (cr_client_replace_id m) (cr_output_tx m) (e_next_arrival _)).
  destruct Ht as [T1 T2 T3 T4 T5 [T6 T7]].
  assert (0 < q /\ cum_qty st + q = replaced_total m st /\ replaced_total m st <= u32_max) as (Q1 & Q2 & Q3).
  { unfold q, replaced_total. destruct (Z.gtb_spec (cr_new_quantity m) 0) as [Hpos|]; [|lia].
    destruct (request_quantity m Hq Hpos) as [Hu Hmax]. rewrite Hu in *. simpl in Hlow. destruct (Z.leb_spec (cr_new_quantity m) (cum_qty st)); [done|].
    rewrite sub32_small by (unfold is_u32; lia). lia. }
  assert (tracks st' o) as Ht'.
  { split; simpl; try done; try lia; [by rewrite add32_small by lia|rewrite add32_small by lia; lia|]. split; simpl; lia. }
  set (e1 := on_desk _ (on_desk _ _)) in *.
  assert (e_states e1 = <[cr_new_order_id m := st']> (delete (cr_order_id m) (e_states e))) as Hs1 by (etransitivity; [apply replaced_states|done]).
  set (late := bool_decide (tif = AtClose) && bool_decide (e_phase e1 <> ClosingCall)). set (e2 := if late then _ else _). exists e2. split; [done|].
  assert (moved (cr_order_id m) o st' e e2) as Hmv.
  { assert (e_book e2 = e_book e) as Hbk by (unfold e2; by destruct late).
    assert (forall i, found e2 i = option_list (order_lookup (e_book e) !! i) ++ filter (fun x => order_id x = i) (e_stops e) ++
      option_list (e_call_markets e2 !! i) ++ option_list (e_held_close e2 !! i)) as Hfe by (intros i; unfold e2; by destruct late).
    assert (cr_new_order_id m <> cr_order_id m -> found e (cr_new_order_id m) = []) as Hfr.
    { intros Hne. destruct Hfree as [|Hn]; [done|]. by apply (coherent_absent _ _ Hco). }
    split.
    - unfold e2. by destruct late.
    - intros Hne. rewrite Hfe, Hb, Hps. unfold e2. simpl in Hne. destruct late; simpl; rewrite ?lookup_delete_eq, ?lookup_insert_ne, ?lookup_delete_eq, ?Hh by done; done.
    - rewrite Hfe. simpl. assert (order_lookup (e_book e) !! cr_new_order_id m = None /\ filter (fun x => order_id x = cr_new_order_id m) (e_stops e) = [] /\
        delete (cr_order_id m) (e_call_markets e) !! cr_new_order_id m = None /\ e_held_close e !! cr_new_order_id m = None) as (N1 & N2 & N3 & N4).
      { destruct Hfree as [->|Hn]; [by rewrite lookup_delete_eq|]. destruct (coherent_absent _ _ Hco Hn) as (_ & ? & ? & Hnm & ?).
        split_and!; try done. rewrite lookup_delete. by case_decide. }
      rewrite N1, N2. unfold e2. destruct late; simpl; [by rewrite N3, lookup_insert_eq|by rewrite N4, lookup_insert_eq].
    - intros i Hi Hn. rewrite Hfe. unfold found. simpl in Hn. unfold e2. destruct late; simpl; by rewrite ?lookup_insert_ne, ?lookup_delete_ne by done.
    - intros i _ _. by rewrite Hbk.
    - rewrite Hbk. simpl. rewrite (banked_absent [] _ _ (bo_wf _ (co_book _ Hco))); [rewrite Hcum, (banked_absent [] _ _ (bo_wf _ (co_book _ Hco))); done|].
      destruct Hfree as [->|Hn]; [done|]. by apply (coherent_absent _ _ Hco). }
  split; [|split; [by eapply moved_size|by unfold e2; destruct late]].
  apply (replace_waiting m e e2 st o st'); [|..|done].
  - split_and!; try done. simpl. rewrite add32_small by lia. done.
  - destruct (moved_placed (cr_order_id m) o st st' e e2 Hco Hst Hfree Ht' Hmv) as [Hat Hta]. split; [|done|done].
    apply (book_ok_same e); [..|apply Hco]; unfold e2; by destruct late.
Qed.

Lemma stop_replace_for_moved id nid ch owner in_use parked o :
  filter (fun x => order_id x = id) parked = [o] -> nid = id \/ filter (fun x => order_id x = nid) parked = [] ->
  match stop_replace_for id nid ch owner in_use parked with
  | (Err _, _) => True
  | (Ok o', parked') => o' = stop_replacement o nid ch /\ filter (fun x => order_id x = nid) parked' = [o'] /\
      (id <> nid -> filter (fun x => order_id x = id) parked' = []) /\
      forall i, i <> id -> i <> nid -> filter (fun x => order_id x = i) parked' = filter (fun x => order_id x = i) parked
  end.
Proof.
  intros Hf Hfree. unfold stop_replace_for, position_for. pose proof (position_spec id parked) as Hp.
  destruct (position id parked) as [i|]; [|done]. destruct Hp as (x & Hi & Hid & Hpre). rewrite Hi. case_bool_decide; [done|].
  destruct (_ && _); [done|]. rewrite <- (take_drop_middle _ _ _ Hi), filter_app, Hpre, filter_cons_True in Hf by done.
  simpl in Hf. injection Hf as -> Hpost. unfold park.
  assert (forall j, filter (fun x => order_id x = j) (delete i parked) =
    filter (fun x => order_id x = j) (take i parked) ++ filter (fun x => order_id x = j) (drop (S i) parked)) as Hdel.
  { intros j. by rewrite delete_take_drop, filter_app. }
  assert (forall j, j <> id -> filter (fun x => order_id x = j) (delete i parked) = filter (fun x => order_id x = j) parked) as Hoth.
  { intros j Hj. rewrite Hdel. rewrite <- (take_drop_middle _ _ _ Hi) at 3. by rewrite filter_app, filter_cons_False by congruence. }
  assert (filter (fun x => order_id x = id) (delete i parked) = []) as Hgone by (by rewrite Hdel, Hpre, Hpost).
  rewrite Hi. split; [done|]. split_and!.
  - rewrite filter_app, filter_cons_True by done. destruct Hfree as [->|Hn]; [by rewrite Hgone|].
    destruct (decide (nid = id)) as [->|Hne]; [by rewrite Hgone|]. by rewrite Hoth, Hn by done.
  - intros Hne. rewrite filter_app, filter_cons_False by (simpl; congruence). by rewrite Hgone.
  - intros j Hj1 Hj2. rewrite filter_app, filter_cons_False by (simpl; congruence). by rewrite Hoth, filter_nil, app_nil_r.
Qed.

(** A parked stop that is taken out is loose. *)
Lemma loose_stop e o :
  coherent_with [] e -> filter (fun x => order_id x = order_id o) (e_stops e) = [o] ->
  exists parked, stop_cancel_for (order_id o) (trader_id o) (e_stops e) = (Ok o, parked) /\
    coherent_with [o] (set_market (e_book e) parked (e_last e) e).
Proof.
  intros [Hw Hc Hpr Hta Hs] Hf. destruct (stop_cancel_for_only _ (trader_id o) _ _ Hf eq_refl) as (parked & Hrun & Hnone & Helse).
  exists parked. split; [done|]. split; [done..|]. intros id. specialize (Hs id). change (e_states (set_market _ _ _ e)) with (e_states e).
  unfold active, aside, of_id in *. simpl in *. rewrite filter_cons. destruct (decide (order_id o = id)) as [<-|Hne].
  - rewrite filter_nil. rewrite Hf in Hs. rewrite Hnone, app_nil_r. destruct (e_states e !! order_id o) as [st|].
    + destruct Hs as (x & Hx & Hid & Ht). exists x. split; [|done]. rewrite <- Hx. simpl. destruct (order_lookup (e_book e) !! order_id o); [done|]. done.
    + by destruct (order_lookup (e_book e) !! order_id o).
  - by rewrite Helse by done.
Qed.

Lemma fire_replacement_coherent e o :
  coherent_with [] e -> uncrossed (e_book e) -> filter (fun x => order_id x = order_id o) (e_stops e) = [o] ->
  exists e1 e', fire_replacement o e = Done e' /\ coherent_with [o] e1 /\ e_states e1 = e_states e /\ coherent e' /\ shrinks e e' /\ same_clock e e' /\ settled [o] e1 e'.
Proof.
  intros Hco Hu Hf. destruct (loose_stop e o Hco Hf) as (parked & Hrun & Hl). unfold fire_replacement. rewrite Hrun. cbn beta iota zeta.
  set (e1 := set_market _ parked _ e) in *. set (exec0 := add_triggered _ _ _).
  destruct (execute_one_coherent o e1 exec0 Hl) as (rests & exec & b & Hx & Hrep); [done|done|]. rewrite Hx. cbn [obind].
  destruct (Hrep (timestamp_of (e_clock e1)) e1 Hl eq_refl) as (e' & Hc & Hco' & Hsh & Hcl & Hset). exists e1, e'. by split_and!.
Qed.

Lemma replace_stop_handled m tif arr e :
  coherent e -> replace_request_ok m -> stop_contains (cr_order_id m) (e_stops e) = true ->
  (exists st, e_states e !! cr_order_id m = Some st /\ sender st = cr_sender m /\
     (cr_new_order_id m = cr_order_id m \/ e_states e !! cr_new_order_id m = None)) ->
  exists e', replace_stop m tif arr e = Done e' /\ replace_result m e e'.
Proof.
  intros Hco Hq Hin (st & Hst & Hs & Hfree). unfold stop_contains in Hin. apply existsb_exists in Hin as (o & Ho & Hid).
  apply list_elem_of_In in Ho. apply bool_decide_eq_true in Hid. destruct (found_stop e _ o Hco Ho Hid) as (Hf & Hb & Hm & Hh).
  destruct (found_one e (cr_order_id m) o Hco) as (st1 & Hst1 & _ & _ & Ht & Hcum); [unfold found; rewrite Hf; set_solver|].
  assert (st1 = st) as -> by congruence. clear Hst1. destruct Ht as [T1 T2 T3 T4 T5 [T6 T7]].
  rewrite (banked_absent [] _ _ (bo_wf _ (co_book _ Hco)) Hb) in Hcum. unfold replace_stop. set (ch := mkStopReplace _ _ _ _ _ _).
  pose proof (stop_replace_for_moved (cr_order_id m) (cr_new_order_id m) ch (cr_sender m)
    (bool_decide (is_Some (order_lookup (e_book e) !! cr_new_order_id m))) (e_stops e) o Hf) as Hrep.
  destruct (stop_replace_for _ _ _ _ _ _) as [[o'|r] parked]; [|eexists; split; [done|by apply replace_reject_result]].
  destruct Hrep as (Eo & P1 & P2 & P3); [destruct Hfree as [?|Hn]; [by left|right; by apply (coherent_absent _ _ Hco)]|].
  set (st' := replacement_state o' arr 0 0 _ _).
  assert (0 < quantity o' /\ quantity o' = replaced_total m st /\ replaced_total m st <= u32_max) as (Q1 & Q2 & Q3).
  { subst o'. unfold replaced_total. simpl. destruct (Z.gtb_spec (cr_new_quantity m) 0) as [Hpos|Hneg].
    - destruct (request_quantity m Hq Hpos) as [_ Hmax]. rewrite (Z.max_l (cr_new_quantity m) 0) by lia.
      destruct (Z.gtb_spec (cr_new_quantity m) 0); lia.
    - rewrite (Z.max_r (cr_new_quantity m) 0) by lia. simpl. lia. }
  assert (order_id o' = cr_new_order_id m) as Eid by (by subst o').
  assert (tracks st' o') as Ht'.
  { split; simpl; try done; try lia; rewrite ?add32_small by lia; try lia. split; [lia|subst o'; simpl; lia]. }
  set (e1 := on_desk _ (on_desk _ _)) in *.
  assert (e_states e1 = <[order_id o' := st']> (delete (cr_order_id m) (e_states e))) as Hs1.
  { rewrite Eid. etransitivity; [apply replaced_states|done]. }
  assert (moved (cr_order_id m) o' st' e e1) as Hmv.
  { assert (forall i, found e1 i = option_list (order_lookup (e_book e) !! i) ++ filter (fun x => order_id x = i) parked ++
      option_list (e_call_markets e !! i) ++ option_list (e_held_close e !! i)) as Hfe by done.
    assert (cr_new_order_id m = cr_order_id m \/ (order_lookup (e_book e) !! cr_new_order_id m = None /\
      e_call_markets e !! cr_new_order_id m = None /\ e_held_close e !! cr_new_order_id m = None)) as Hfree'.
    { destruct Hfree as [?|Hn]; [by left|right]. by destruct (coherent_absent _ _ Hco Hn) as (_ & ? & _ & ? & ?). }
    rewrite <- Eid in *. split; [done|..].
    - intros Hne. by rewrite Hfe, Hb, Hm, Hh, P2.
    - rewrite Hfe, P1. destruct Hfree' as [->|(-> & -> & ->)]; [by rewrite Hb, Hm, Hh|done].
    - intros i Hi Hn. rewrite Hfe, P3 by done. done.
    - done.
    - change (banked (e_book e) (order_id o') = 0). apply (banked_absent [] _ _ (bo_wf _ (co_book _ Hco))). destruct Hfree' as [->|(? & _)]; done. }
  assert (order_id o' = cr_order_id m \/ e_states e !! order_id o' = None) as Hfree1 by (by rewrite Eid).
  pose proof (moved_placed (cr_order_id m) o' st st' e e1 Hco Hst Hfree1 Ht' Hmv) as Hpl.
  assert (replacement m st o' st' e) as Hrp.
  { split_and!; try done. simpl. rewrite add32_small by lia. lia. }
  pose proof (moved_size _ _ _ _ _ _ Hst Hmv) as Hsz.
  destruct (fires_now e1 o') eqn:Hfire.
  - unfold fires_now in Hfire. apply andb_true_iff in Hfire as [Hph _]. apply bool_decide_eq_true in Hph. change (e_phase e = Continuous) in Hph.
    destruct (fire_replacement_coherent e1 o') as (e2 & e' & Hrun & Hl & Hs2 & Hco' & Hsh & Hcl & Hset).
    { apply placed_with; [apply Hco..|done]. }
    { by apply (bo_uncrossed _ (co_book _ Hco)). }
    { by rewrite Eid. }
    exists e'. split; [exact Hrun|]. split; [|split].
    + apply (replace_matched m e e' st o' st' [o'] e2); try done; [by right|by rewrite Hs2].
    + pose proof (shrinks_size _ _ Hsh). lia.
    + exact Hcl.
  - exists e1. split; [done|]. split; [|split; [done|done]]. apply (replace_waiting m e e1 st o' st'); [done| |done].
    destruct Hpl as [Hat Hta]. split; [|done|done]. by apply (book_ok_same e); [..|apply Hco].
Qed.

(** What a resting order becomes, and its state. *)
Lemma resting_replacement m tif arr st o o' b' e :
  coherent e -> replace_request_ok m -> e_states e !! cr_order_id m = Some st -> sender st = cr_sender m ->
  let ch := mkOrderReplace (cr_new_price m) (Z.max (cr_new_quantity m) 0) (as_u32 <$> cr_new_display_quantity m) tif
              (cr_client_replace_id m) (as_millis (e_clock e)) in
  book_moved (cr_order_id m) (cr_new_order_id m) ch o o' (e_book e) b' ->
  let st' := replacement_state o' arr (cum_qty st) (notional st) (cr_client_replace_id m) (cr_output_tx m) in
  replacement m st o' st' e.
Proof.
  intros Hco Hq Hst Hs ch Hbm st'. destruct (bm_new _ _ _ _ _ _ _ Hbm) as (left & Eo & Hleft).
  destruct (found_one e (cr_order_id m) o Hco) as (st1 & Hst1 & _ & _ & Ht & Hcum); [unfold found; rewrite (bm_old _ _ _ _ _ _ _ Hbm); set_solver|].
  assert (st1 = st) as -> by congruence. destruct Ht as [T1 T2 T3 T4 T5 [T6 T7]].
  assert (cum_qty st + quantity o' = replaced_total m st /\ replaced_total m st <= u32_max) as [Q2 Q3].
  { unfold replaced_total. rewrite Eo. change (quantity (replacement_of _ _ _ _)) with left. simpl in Hleft. destruct (Z.gtb_spec (cr_new_quantity m) 0) as [Hpos|Hneg].
    - destruct (request_quantity m Hq Hpos) as [_ Hmax]. lia.
    - destruct Hleft as [[_ ->]|[Hlt ->]]; [lia|]. pose proof (proj1 (banked_bounds _ _ _ _ (bo_wf _ (co_book _ Hco)) (bm_old _ _ _ _ _ _ _ Hbm))). lia. }
  pose proof (bm_ok _ _ _ _ _ _ _ Hbm) as Hok. destruct Hok as [K1 K2].
  assert (add32 (cum_qty st) (quantity o') = cum_qty st + quantity o') as Ha by (apply add32_small; lia).
  split_and!; [done|done|by subst o'| |done|simpl; by rewrite Ha].
  split; simpl; rewrite ?Ha; try done; lia.
Qed.

Lemma replace_ok_request m tif now : replace_request_ok m ->
  replace_ok (mkOrderReplace (cr_new_price m) (Z.max (cr_new_quantity m) 0) (as_u32 <$> cr_new_display_quantity m) tif (cr_client_replace_id m) now).
Proof.
  unfold replace_request_ok, replace_ok, is_u32, i32_max, u32_max. intros H. simpl. split; [lia|].
  destruct (cr_new_display_quantity m) as [d|]; simpl; [|lia]. unfold as_u32, wrap32. by apply Z.mod_pos_bound.
Qed.

(** The book with the replacement in it, the state moved: the engine before it
    matches. *)
Lemma resting_moved m ch st st' o o' b' e e1 :
  coherent e -> e_states e !! cr_order_id m = Some st -> cr_new_order_id m = cr_order_id m \/ e_states e !! cr_new_order_id m = None ->
  book_moved (cr_order_id m) (cr_new_order_id m) ch o o' (e_book e) b' -> order_id o' = cr_new_order_id m -> cum_qty st' = cum_qty st ->
  e_states e1 = <[cr_new_order_id m := st']> (delete (cr_order_id m) (e_states e)) ->
  e_book e1 = b' -> e_stops e1 = e_stops e -> e_call_markets e1 = e_call_markets e -> e_held_close e1 = e_held_close e ->
  moved (cr_order_id m) o' st' e e1.
Proof.
  intros Hco Hst Hfree [B1 B2 B3 B4 B5 B6 B7 B8 B9 _] Eid Hcum Hs Hb Hps Hm Hh. destruct (found_book e _ o Hco B1) as (F1 & F2 & F3).
  assert (filter (fun x => order_id x = cr_new_order_id m) (e_stops e) = [] /\ e_call_markets e !! cr_new_order_id m = None /\
    e_held_close e !! cr_new_order_id m = None) as (N1 & N2 & N3).
  { destruct Hfree as [->|Hn]; [done|]. by destruct (coherent_absent _ _ Hco Hn) as (_ & _ & ? & ? & ?). }
  rewrite <- Eid in *. split; [done|..]; unfold found; rewrite ?Hb, ?Hps, ?Hm, ?Hh, ?B7.
  - intros Hne. by rewrite lookup_insert_ne, lookup_delete_eq, F1, F2, F3.
  - by rewrite lookup_insert_eq, N1, N2, N3.
  - intros i Hi Hn. by rewrite lookup_insert_ne, lookup_delete_ne.
  - done.
  - rewrite B8, Hcum. symmetry. by apply Hco.
Qed.

(** Taken off the book again and held for the close: possible without loss while
    nothing of the order is filled. *)
Lemma held_moved id o st e e1 e2 :
  moved id o st e e1 -> wf_book (e_book e1) -> cum_qty st = 0 -> order_lookup (e_book e1) !! order_id o = Some o ->
  e_states e2 = e_states e1 -> e_book e2 = (cancel_order (order_id o) (e_book e1)).2 -> e_stops e2 = e_stops e1 ->
  e_call_markets e2 = e_call_markets e1 -> e_held_close e2 = <[order_id o := o]> (e_held_close e1) -> moved id o st e e2.
Proof.
  intros [M1 M2 M3 M4 M5 M6] Hw Hz Hl Hs Hb Hps Hm Hh.
  assert (forall i, i <> order_id o -> found e2 i = found e1 i) as Hf.
  { intros i Hi. unfold found. rewrite Hb, Hps, Hm, Hh, lookup_insert_ne, cancel_order_other by done. done. }
  split.
  - by rewrite Hs.
  - intros Hne. rewrite Hf by done. by apply M2.
  - unfold found in *. rewrite Hl in M3. simpl in M3. injection M3 as M3. apply app_eq_nil in M3 as [N1 M3]. apply app_eq_nil in M3 as [N2 _].
    rewrite Hb, Hps, Hm, Hh, lookup_insert_eq, cancel_order_lookup, lookup_delete_eq, N1, N2. done.
  - intros i Hi Hn. rewrite Hf by done. by apply M4.
  - intros i Hi Hn. rewrite Hb, cancel_order_banked by done. by apply M5.
  - rewrite Hb, Hz. apply (banked_absent []); [by apply cancel_order_inv|]. by rewrite cancel_order_lookup, lookup_delete_eq.
Qed.

Lemma cancel_priced id b : priced b -> priced (cancel_order id b).2.
Proof. intros Hp i o. rewrite cancel_order_lookup. intros [_ Ho]%lookup_delete_Some. by apply (Hp i). Qed.

Lemma set_book_same e : set_book (e_book e) e = e.
Proof. by destruct e. Qed.

Lemma uncrossed_sub b b' :
  wf_book b -> wf_book b' -> (forall id x, order_lookup b' !! id = Some x -> order_lookup b !! id = Some x) -> uncrossed b -> uncrossed b'.
Proof. intros Hw Hw' Hsub Hu. rewrite uncrossed_orders in Hu |- * by done. intros x y Hx Hy. apply Hu; by apply Hsub. Qed.

(** Matching the book a replacement may have crossed. *)
Lemma rematch_coherent e inc ts :
  coherent_with [] e ->
  exists e', (let* (exec, b) := match_into (e_book e) execution_default in
    let* (b, parked, last, exec) := run_stop_cascade b (e_stops e) (e_last e) exec in
    Done (on_desk (report_execution exec (e_symbol e) ts) (on_desk (send_md inc ts) (set_market b parked last e)))) = Done e' /\
    coherent e' /\ shrinks e e' /\ same_clock e e' /\ settled [] e e'.
Proof.
  intros Hco. destruct (match_into_spec (e_book e) execution_default (cw_wf _ _ Hco)) as (fs & es & us & sus & b & exec & -> & Hx & Hlin & Hfo).
  cbn [obind]. set (e0 := on_desk (send_md inc ts) e).
  assert (coherent_with [] e0) as Hco0 by (by eapply coherent_with_ext; [..|exact Hco]).
  destruct (cascade_coherent [] e0 b execution_default exec fs es [] us [] sus ts Hco0) as (e' & Hrun & Hco' & Hsh & Hcl & Hset); [done| | |].
  - eapply executed_ext; [|done|exact Hx]. intros id. unfold waiting. simpl. lia.
  - by apply lineage_descends.
  - exists e'. split; [|done]. unfold cascade_and_report in Hrun. change (e_stops e0) with (e_stops e) in Hrun. change (e_last e0) with (e_last e) in Hrun.
    destruct (run_stop_cascade b (e_stops e) (e_last e) exec) as [[[[b2 parked] last] exec2]| |]; [|done..]. exact Hrun.
Qed.

Lemma replace_resting_handled m tif arr e :
  coherent e -> replace_request_ok m -> parse_replace_time_in_force (cr_new_time_in_force m) = Ok tif -> strands m e = false ->
  (exists st, e_states e !! cr_order_id m = Some st /\ sender st = cr_sender m /\
     (cr_new_order_id m = cr_order_id m \/ e_states e !! cr_new_order_id m = None)) ->
  exists e', replace_resting m tif arr e = Done e' /\ replace_result m e e'.
Proof.
  intros Hco Hq Hp Hstr (st & Hst & Hs & Hfree). unfold replace_resting. set (ch := mkOrderReplace _ _ _ _ _ _).
  pose proof (bo_wf _ (co_book _ Hco)) as Hw.
  pose proof (replace_order_moved (cr_order_id m) (cr_new_order_id m) ch (cr_sender m) _ Hw (replace_ok_request m tif _ Hq)) as Hrep.
  destruct (replace_order _ _ _ _ _) as [[[o' inc]|r] b']; cycle 1.
  { subst b'. eexists. split; [done|]. rewrite set_book_same. by apply replace_reject_result. }
  destruct Hrep as (o & Ho & Hbm). change (e_states (set_book b' e)) with (e_states e). rewrite Hst, (bm_old _ _ _ _ _ _ _ Hbm).
  set (st' := replacement_state o' arr _ _ _ _). pose proof (resting_replacement m tif arr st o o' b' e Hco Hq Hst Hs Hbm) as Hrp. fold st' in Hrp.
  destruct Hrp as (R1 & R2 & Eid & Ht' & R5 & R6). set (e1 := on_desk _ (on_desk _ _)) in *.
  assert (e_states e1 = <[cr_new_order_id m := st']> (delete (cr_order_id m) (e_states e))) as Hs1 by (etransitivity; [apply replaced_states|done]).
  pose proof (resting_moved m ch st st' o o' b' e e1 Hco Hst Hfree Hbm Eid R5 Hs1 eq_refl eq_refl eq_refl eq_refl) as Hmv.
  assert (order_id o' = cr_order_id m \/ e_states e !! order_id o' = None) as Hfree' by (by rewrite Eid).
  pose proof (moved_placed _ _ _ _ _ _ Hco Hst Hfree' Ht' Hmv) as Hpl.
  assert (replacement m st o' st' e) as Hrp by done. pose proof (moved_size _ _ _ _ _ _ Hst Hmv) as Hsz.
  assert (forall e2, moved (cr_order_id m) o' st' e e2 -> book_ok e2 -> same_clock e e2 -> replace_result m e e2) as Hwait.
  { intros e2 Hmv2 Hb2 Hcl. destruct (moved_placed _ _ _ _ _ _ Hco Hst Hfree' Ht' Hmv2) as [Hat Hta].
    split; [|split; [by eapply moved_size|done]]. by apply (replace_waiting m e e2 st o' st'). }
  pose proof (bm_priced _ _ _ _ _ _ _ Hbm (bo_priced _ (co_book _ Hco))) as Hpr'.
  assert (book_stp b' = stp_outcome_default) as Hcl' by (rewrite (bm_stp _ _ _ _ _ _ _ Hbm); apply Hco).
  destruct (bool_decide (time_in_force o' = AtClose) && _) eqn:Hlate; [|destruct (bool_decide_reflect (e_phase e1 <> Continuous)) as [Hph|Hph]].
  - cbn [expect obind]. eexists. split; [done|]. apply andb_true_iff in Hlate as [Htif Hnc]. apply bool_decide_eq_true in Htif, Hnc.
    change (e_phase e <> ClosingCall) in Hnc. apply Hwait; [|split; [|simpl; by rewrite cancel_order_stp|by apply cancel_priced|]|done].
    + eapply (held_moved _ _ _ e e1); try done; [apply Hbm| |by simpl; rewrite (bm_lookup _ _ _ _ _ _ _ Hbm), Eid, lookup_insert_eq].
      rewrite R5, (co_fills _ Hco _ _ Hst Logic.I). unfold strands, replaced_tif in Hstr. rewrite (bm_old _ _ _ _ _ _ _ Hbm), Hp in Hstr.
      destruct (bm_new _ _ _ _ _ _ _ Hbm) as (left & Eo & _). rewrite Eo in Htif. simpl in Htif.
      rewrite !bool_decide_true, !andb_true_r in Hstr by (done || by destruct tif).
      pose proof (proj1 (banked_bounds _ _ _ _ Hw (bm_old _ _ _ _ _ _ _ Hbm))). destruct (Z.gtb_spec (banked (e_book e) (cr_order_id m)) 0); [done|lia].
    + apply cancel_order_inv, Hbm.
    + intros Hc. change (e_phase e = Continuous) in Hc. eapply (uncrossed_sub (e_book e)); [done|apply cancel_order_inv, Hbm| |by apply (bo_uncrossed _ (co_book _ Hco))].
      simpl. rewrite cancel_order_lookup, (bm_lookup _ _ _ _ _ _ _ Hbm), Eid. intros i x Hx. apply lookup_delete_Some in Hx as [Hi Hx].
      rewrite lookup_insert_ne in Hx by done. by apply lookup_delete_Some in Hx as [_ Hx].
  - eexists. split; [done|]. apply Hwait; [destruct Hmv; by split|split; [apply Hbm|done|exact Hpr'|by intros]|done].
  - destruct (rematch_coherent e1 inc (timestamp_of (e_clock e))) as (e' & Hrun & Hco' & Hsh & Hcl & Hset).
    { apply placed_with; [apply Hbm|done|apply Hpr'|done]. }
    exists e'. split; [exact Hrun|]. split; [|split; [pose proof (shrinks_size _ _ Hsh); lia|exact Hcl]].
    apply (replace_matched m e e' st o' st' [] e1); try done; [by apply dec_stable in Hph|by left| |by rewrite Eid].
    apply placed_with; [apply Hbm|done|apply Hpr'|done].
Qed.

(** ** The request *)

Lemma replace_step m arr e :
  coherent e -> replace_request_ok m -> strands m e = false ->
  exists e', (let* (done_, e) := preflight (MCancelReplace m) e in if done_ then Done e else process_replace m arr e) = Done e' /\ replace_result m e e'.
Proof.
  intros Hco Hq Hstr. cbn [preflight]. destruct (replace_reason_done m e) as (r & -> & Hr). cbn [obind]. destruct r as [r|].
  { eexists. split; [done|]. by apply replace_reject_result. }
  specialize (Hr eq_refl). destruct (e_call_markets e !! cr_order_id m) as [old|] eqn:Hm.
  { destruct (replace_call_market_handled m old e Hco Hq Hm Hr) as (e' & -> & He). by exists e'. }
  destruct Hr as (st & tif & Hst & Hs & Hfree & Hp). cbn [obind]. unfold process_replace. rewrite Hp.
  destruct (if bool_decide (tif = Some Gtd) then _ else _); [eexists; split; [done|by apply replace_reject_result]|].
  destruct (stop_contains _ _) eqn:Hin; [apply replace_stop_handled|apply replace_resting_handled]; eauto.
Qed.

Lemma moved_unmoved id o st e e1 e2 : moved id o st e e1 -> unmoved e1 e2 -> moved id o st e e2.
Proof.
  intros [M1 M2 M3 M4 M5 M6] [F S B _ _ _ _]. split.
  - by rewrite S.
  - by rewrite F.
  - by rewrite F.
  - intros i ? ?. by rewrite F, M4.
  - by rewrite B.
  - by rewrite B.
Qed.

Lemma replace_handled_unmoved m e e1 e2 : replace_handled m e e1 -> unmoved e1 e2 -> replace_handled m e e2.
Proof.
  intros H Hu. pose proof Hu as [F S B K Rp _ _]. destruct H as [r H1 H2 H3 H4 H5|st o st' H1 H2 H3|st o st' loose e0 H1 H2 H3 H4 H5 H6 H7].
  - apply (replace_refused m e e2 r); [by eapply coherent_unmoved|congruence|intros i; by rewrite F|congruence|done].
  - apply (replace_waiting m e e2 st o st'); [done|by eapply coherent_unmoved|by eapply moved_unmoved].
  - apply (replace_matched m e e2 st o st' loose e0); [done..|by eapply coherent_unmoved|by eapply settled_unmoved].
Qed.

Lemma replace_handled_coherent m e e' : replace_handled m e e' -> coherent e'.
Proof. by intros []. Qed.


End replace.

(** ** Witness *)

(** The bid is raised to the offer, with twice the total. *)
Definition raise_request : CancelReplaceMsg Z := mkCancelReplaceMsg "b1" "dave" "b2" "r1" 103 6 0 0 None 14.

