(* ===== verification/EngineAuction.v ===== *)
(** * Auctions on a coherent engine

    [run_auction] and the session boundaries that run it: the auction always
    returns, every order gives exactly what the allocation takes, and what is
    left of the book does not cross. *)

From S2P Require Import Prelude BTree Text Order OrderBook BookInvariant Samples BookEffects BookOps Matcher Effects Pace MatchOrders Stops Executions Cascade.
From S2P Require Import Session SymbolConfig Auction AuctionPrice AuctionAlloc Proto Reports ExecutionReports Engine EngineInv EngineMatch EngineSamples EngineOps.

(** ** Definitions *)

(** What the fills of an auction take from an id. *)
Definition need (fills : list AuctionFill) (i : string) : Z := traded Buy i fills + traded Sell i fills.

Lemma Forall2_in_l {A B} (P : A -> B -> Prop) l k x : Forall2 P l k -> x ∈ l -> exists y, y ∈ k /\ P x y.
Proof.
  induction 1 as [|a b l k H _ IH]; intros Hx; [by apply not_elem_of_nil in Hx|].
  apply elem_of_cons in Hx as [->|Hx]; [exists b; split; [left|done]|]. destruct (IH Hx) as (y & ? & ?). exists y. split; [by right|done].
Qed.

Lemma Forall2_in_r {A B} (P : A -> B -> Prop) l k y : Forall2 P l k -> y ∈ k -> exists x, x ∈ l /\ P x y.
Proof. intros H Hy. apply Forall2_flip in H. apply (Forall2_in_l _ _ _ _ H Hy). Qed.

Section auction.
Context {R I : Type} `{!ExecIds I}.
Implicit Types (e : Engine R I).

(** What an auction can take from an id: a resting order or a market order that
    waits for it. *)
Definition avail e (id : string) : Z := qty (e_book e) id + default 0 (quantity <$> e_call_markets e !! id).

(** From [e] to [e'] the ids gave what [take] says, and nothing else moved. *)
Record drained (take : string -> Z) e e' : Prop := {
  dr_avail : forall i, avail e' i = avail e i - take i;
  dr_lineage : lineage (e_book e) (e_book e');
  dr_markets : forall i, is_Some (e_call_markets e' !! i) -> is_Some (e_call_markets e !! i);
  dr_stops : e_stops e' = e_stops e;
  dr_held : e_held_close e' = e_held_close e;
  dr_states : shrinks e e';
  dr_session : same_session e e';
}.

(** ** One side of a fill *)

Lemma drained_trans t1 t2 e1 e2 e3 : drained t1 e1 e2 -> drained t2 e2 e3 -> drained (fun i => t1 i + t2 i) e1 e3.
Proof.
  intros [A1 L1 M1 S1 H1 T1 C1] [A2 L2 M2 S2 H2 T2 C2]. split; [|by eapply lineage_trans|auto|congruence|congruence|by eapply shrinks_trans|by eapply same_session_trans].
  intros i. rewrite A2, A1. lia.
Qed.

Lemma drained_ext t t' e e' : (forall i, t i = t' i) -> drained t e e' -> drained t' e e'.
Proof. intros H [A L M S Hh T C]. split; try done. intros i. by rewrite <- H. Qed.

(** A fill on the book. *)
Lemma auction_fill_book b id o x :
  wf_book b -> order_lookup b !! id = Some o -> 0 < x <= quantity o ->
  exists u b', apply_auction_fill id x b = Done (u, b') /\ wf_book b' /\ book_stp b' = book_stp b /\ lineage b b' /\
    order_lookup b' = (if quantity o =? x then delete id (order_lookup b) else <[id := with_quantity (quantity o - x) o]> (order_lookup b)) /\
    (quantity o <> x -> banked b' id = banked b id + x) /\ (forall i, i <> id -> banked b' i = banked b i).
Proof.
  intros Hwf Hl Hx. destruct (inv_lookup_elem _ _ _ _ Hwf Hl) as [Ho Hid]. simpl in Ho. subst id.
  destruct (apply_auction_fill_spec _ _ _ Hwf Ho Hx) as (l1 & l2 & Hg & Heq).
  pose proof (apply_auction_fill_inv _ _ _ _ _ Hwf Ho Hx Heq) as Hwf'. set (l' := if _ =? 0 then _ else _) in *.
  set (b' := set_levels _ _ _) in *.
  assert (order_lookup b' = if quantity o =? x then delete (order_id o) (order_lookup b) else <[order_id o := with_quantity (quantity o - x) o]> (order_lookup b)) as Hlk.
  { unfold b', sync_visible_fill, sync_fill. simpl. rewrite Hl. destruct (Z.eqb_spec (quantity o - x) 0), (Z.eqb_spec (quantity o) x); try lia; by destruct (side o). }
  assert (book_stp b' = book_stp b) as Hst.
  { unfold b', sync_visible_fill, sync_fill. simpl. rewrite Hl. by destruct (quantity o - x =? 0), (side o). }
  destruct (banked_bounds _ _ _ _ Hwf Hl) as [B1 B2].
  assert (cum_filled b' = if quantity o =? x then delete (order_id o) (cum_filled b) else <[order_id o := add32 (banked b (order_id o)) x]> (cum_filled b)) as Hcu.
  { unfold b', sync_visible_fill, sync_fill. simpl. rewrite Hl. destruct (Z.eqb_spec (quantity o - x) 0), (Z.eqb_spec (quantity o) x); try lia; by destruct (side o). }
  eexists _, b'. split; [exact Heq|]. split_and!; try done.
  - intros i y. rewrite Hlk. destruct (Z.eqb_spec (quantity o) x) as [E|E].
    + intros [_ Hy]%lookup_delete_Some. exists y. by rewrite with_quantity_same.
    + intros [[<- <-]|[_ Hy]]%lookup_insert_Some; [by exists o|]. exists y. by rewrite with_quantity_same.
  - intros Hne. unfold banked at 1. rewrite Hcu. destruct (Z.eqb_spec (quantity o) x); [done|]. rewrite lookup_insert_eq. simpl. rewrite add32_small; lia.
  - intros i Hi. unfold banked. rewrite Hcu. destruct (quantity o =? x); by rewrite ?lookup_delete_ne, ?lookup_insert_ne.
Qed.

Lemma apply_fill_states id sym px q ts (d : Desk R I) :
  states (apply_fill id sym px q ts d).2 =
  match states d !! id with
  | None => states d
  | Some st => if leaves (set_fill st q px) =? 0 then delete id (states d) else <[id := set_fill st q px]> (states d)
  end.
Proof. unfold apply_fill. destruct (states d !! id) as [st|]; [|done]. unfold build_report. by destruct (next_id (ids d)). Qed.

(** The state of a filled order. *)
Lemma tracks_filled (st : OrderState R) o x px :
  tracks st o -> 0 < x < quantity o -> tracks (set_fill st x px) (with_quantity (quantity o - x) o).
Proof.
  intros [T1 T2 T3 T4 T5 [T6 T7]] Hx. assert (add32 (cum_qty st) x = cum_qty st + x) as Ha by (apply add32_small; lia).
  split; simpl; rewrite ?Ha; try done; try lia. split; simpl; lia.
Qed.

Lemma leaves_filled (st : OrderState R) o x px :
  tracks st o -> 0 < x <= quantity o -> leaves (set_fill st x px) = quantity o - x.
Proof.
  intros [T1 T2 T3 T4 T5 [T6 T7]] Hx. assert (add32 (cum_qty st) x = cum_qty st + x) as Ha by (apply add32_small; lia).
  unfold leaves, saturating_sub. simpl. rewrite Ha. destruct (Z.leb_spec (cum_qty st + x) (order_qty st)); lia.
Qed.

(** An order filled in place. *)
Lemma coherent_filled {X} e e' id o st x px :
  coherent_on X e -> found e id = [o] -> e_states e !! id = Some st -> 0 < x <= quantity o -> book_ok e' ->
  e_states e' = (if quantity o =? x then delete id (e_states e) else <[id := set_fill st x px]> (e_states e)) ->
  found e' id = (if quantity o =? x then [] else [with_quantity (quantity o - x) o]) ->
  (forall i, i <> id -> found e' i = found e i) ->
  (quantity o <> x -> X id -> banked (e_book e') id = banked (e_book e) id + x) ->
  (forall i, i <> id -> banked (e_book e') i = banked (e_book e) i) ->
  coherent_on X e' /\ shrinks e e'.
Proof.
  intros [Hb Hc Hta] Hf Hst Hx Hb' Hs Hf' Hfe Hbk Hbe.
  pose proof (Hc id) as Hat. unfold coherent_at in Hat. rewrite Hst, Hf in Hat. destruct Hat as (y & [= <-] & Hid & Ht).
  split; [split; [done| |]|].
  - intros i. unfold coherent_at. rewrite Hs. destruct (decide (i = id)) as [->|Hi].
    + rewrite Hf'. destruct (Z.eqb_spec (quantity o) x); rewrite ?lookup_delete_eq, ?lookup_insert_eq; [done|].
      eexists. split_and!; [done|done|]. apply tracks_filled; [done|lia].
    + rewrite Hfe by done. destruct (quantity o =? x); rewrite ?lookup_delete_ne, ?lookup_insert_ne by done; apply Hc.
  - intros i s. rewrite Hs. destruct (decide (i = id)) as [->|Hi].
    + destruct (Z.eqb_spec (quantity o) x) as [|Hne]; rewrite ?lookup_delete_eq, ?lookup_insert_eq; [done|]. intros [= <-] HX.
      rewrite Hbk by done. rewrite <- (Hta _ _ Hst HX). destruct Ht as [_ _ T3 T4 T5 _]. simpl. rewrite add32_small; lia.
    + intros Hsi HX. rewrite Hbe by done. apply Hta; [|done]. by destruct (quantity o =? x); rewrite ?lookup_delete_ne, ?lookup_insert_ne in Hsi by done.
  - intros i Hi. rewrite Hs. assert (i <> id) by congruence. by destruct (quantity o =? x); rewrite ?lookup_delete_ne, ?lookup_insert_ne.
Qed.

(** Where an order an auction can take from is. *)
Lemma avail_found {X} e id :
  coherent_on X e -> 0 < avail e id ->
  exists o st, found e id = [o] /\ e_states e !! id = Some st /\ tracks st o /\ avail e id = quantity o /\
    filter (fun o => order_id o = id) (e_stops e) = [] /\ e_held_close e !! id = None /\
    (order_lookup (e_book e) !! id = Some o /\ e_call_markets e !! id = None \/
     order_lookup (e_book e) !! id = None /\ e_call_markets e !! id = Some o).
Proof.
  intros [Hb Hc Hta] Hp. specialize (Hc id). unfold coherent_at, found in *. unfold avail, qty in *.
  destruct (e_states e !! id) as [st|] eqn:Hst.
  - destruct Hc as (o & Ho & Hid & Ht). exists o, st. rewrite Ho.
    destruct (order_lookup (e_book e) !! id) as [x|]; simpl in *.
    + injection Ho as -> Ho. destruct (filter _ (e_stops e)), (e_call_markets e !! id), (e_held_close e !! id); try done. simpl. split_and!; try done; [lia|by left].
    + destruct (e_call_markets e !! id) as [x|]; simpl in *; [|lia]. destruct (filter _ (e_stops e)) as [|y l]; [|by destruct l].
      simpl in Ho. injection Ho as -> Ho. destruct (e_held_close e !! id); [done|]. split_and!; try done. by right.
  - apply app_eq_nil in Hc as [H1 Hc]. apply app_eq_nil in Hc as [_ Hc]. apply app_eq_nil in Hc as [H2 _].
    destruct (order_lookup (e_book e) !! id); [done|]. destruct (e_call_markets e !! id); [done|]. simpl in Hp. lia.
Qed.

(** Reporting one side of an auction fill. *)
Definition auction_report (id other : string) (x px : Z) (at_ : Time) e : Desk R I :=
  let '(sent, d) := apply_fill id (e_symbol e) px x (timestamp_of at_) (e_desk e) in
  match sent with
  | None => d
  | Some (r, tx) =>
    push (OExecutionReport tx (mkReport (header r) (execution_id r) (rep_order_id r) (rep_symbol r) (execution_type r) (order_status r)
               (execution_price r) (executed_quantity r) (rep_timestamp r) (leaves_quantity r) (avg_px r) (cum_quantity r)
               (rep_account r) (rep_client_order_id r) (orig_order_id r) (reject_reason_text r) (rep_side r)
               (order_quantity r) true (rep_display_quantity r))) (emit "fill_context" id "auction" other 0 "" d)
  end.

Lemma auction_report_states id other x px at_ e :
  states (auction_report id other x px at_ e) =
  match e_states e !! id with
  | None => e_states e
  | Some st => if leaves (set_fill st x px) =? 0 then delete id (e_states e) else <[id := set_fill st x px]> (e_states e)
  end.
Proof.
  unfold auction_report. pose proof (apply_fill_states id (e_symbol e) px x (timestamp_of at_) (e_desk e)) as H.
  destruct (apply_fill _ _ _ _ _ _) as [[[r tx]|] d]; exact H.
Qed.

Lemma auction_fill_side_eq id other x px at_ md e :
  auction_fill_side id other x px at_ md e =
  let* (md, e) :=
    match order_lookup (e_book e) !! id with
    | Some _ => let* (u, b) := apply_auction_fill id x (e_book e) in Done (md ++ [u], set_book b e)
    | None =>
      let* o := expect (e_call_markets e !! id) in
      let left := sub32 (quantity o) x in
      Done (md, set_held (if left =? 0 then delete id (e_call_markets e)
                          else <[id := with_quantity left o]> (e_call_markets e)) (e_held_close e) e)
    end in
  Done (md, set_desk (auction_report id other x px at_ e) e).
Proof.
  unfold auction_fill_side, auction_report. destruct (match order_lookup (e_book e) !! id with Some _ => _ | None => _ end) as [[md1 e1]| |]; [|done..].
  cbn [obind]. destruct (apply_fill _ _ _ _ _ _) as [[[r tx]|] d]; done.
Qed.

Section side.
Context {X : string -> Prop} (id other : string) (x px : Z) (at_ : Time) (md : list MarketDataIncrementalUpdate) (e : Engine R I).
Context (o : Order) (st : OrderState R).
Context (Hco : coherent_on X e) (Hf : found e id = [o]) (Hst : e_states e !! id = Some st) (Ht : tracks st o) (Hx : 0 < x <= quantity o).
Context (Hps : filter (fun o => order_id o = id) (e_stops e) = []) (Hh : e_held_close e !! id = None).

Definition side_filled : Prop :=
  exists md' e', auction_fill_side id other x px at_ md e = Done (md', e') /\ coherent_on X e' /\
    drained (fun i => if bool_decide (i = id) then x else 0) e e'.

Lemma filled_states e1 :
  e_desk e1 = e_desk e ->
  e_states (set_desk (auction_report id other x px at_ e1) e1) =
  (if quantity o =? x then delete id (e_states e) else <[id := set_fill st x px]> (e_states e)).
Proof using Hst Ht Hx.
  intros Hd. etransitivity; [apply auction_report_states|]. replace (e_states e1) with (e_states e) by (unfold e_states; by rewrite Hd).
  rewrite Hst, (leaves_filled _ _ _ _ Ht Hx). by destruct (Z.eqb_spec (quantity o - x) 0), (Z.eqb_spec (quantity o) x); try lia.
Qed.

(** An order that rests. *)
Lemma resting_side_ok : order_lookup (e_book e) !! id = Some o -> e_call_markets e !! id = None -> side_filled.
Proof using Hco Hf Hst Ht Hx Hps Hh.
  intros Hb Hm. unfold side_filled. rewrite auction_fill_side_eq, Hb. pose proof (co_book _ Hco) as [Hw Hcl Hpr Hu].
  destruct (auction_fill_book _ _ _ _ Hw Hb Hx) as (u & b' & -> & Hw' & Hst' & Hlin & Hlk & Hbk & Hbo). cbn [obind].
  set (e' := set_desk _ _). exists (md ++ [u]), e'. split; [done|].
  assert (book_ok e') as Hbok.
  { split; [done|by change (book_stp b' = stp_outcome_default); rewrite Hst'|by eapply lineage_priced|].
    intros Hp. by apply (uncrossed_lineage (e_book e)); auto. }
  assert (forall i, found e' i = option_list (order_lookup b' !! i) ++ filter (fun o => order_id o = i) (e_stops e) ++
    option_list (e_call_markets e !! i) ++ option_list (e_held_close e !! i)) as Hfe by done.
  destruct (coherent_filled e e' id o st x px Hco Hf Hst Hx Hbok) as [Hco' Hsh].
  - by apply filled_states.
  - rewrite Hfe, Hlk, Hps, Hm, Hh. destruct (quantity o =? x); by rewrite ?lookup_delete_eq, ?lookup_insert_eq.
  - intros i Hi. rewrite Hfe, Hlk. unfold found. destruct (quantity o =? x); by rewrite ?lookup_delete_ne, ?lookup_insert_ne.
  - intros Hne _. by apply Hbk.
  - done.
  - split; [done|]. split; try done. intros i. unfold avail, qty. change (e_book e') with b'. change (e_call_markets e') with (e_call_markets e).
    rewrite Hlk. case_bool_decide as E.
    + subst i. rewrite Hb, Hm. simpl. destruct (Z.eqb_spec (quantity o) x); rewrite ?lookup_delete_eq, ?lookup_insert_eq; simpl; lia.
    + destruct (quantity o =? x); rewrite ?lookup_delete_ne, ?lookup_insert_ne by done; lia.
Qed.

(** A market order that waits for the auction. *)
Lemma market_side_ok : order_lookup (e_book e) !! id = None -> e_call_markets e !! id = Some o -> ~ X id -> side_filled.
Proof using Hco Hf Hst Ht Hx Hps Hh.
  intros Hb Hm HX. unfold side_filled. rewrite auction_fill_side_eq, Hb, Hm. cbn [expect obind]. destruct (tk_ok _ _ Ht) as [Hq _].
  rewrite sub32_small by (unfold is_u32; lia). set (ms := if _ =? 0 then _ else _). set (e' := set_desk _ _). exists md, e'. split; [done|].
  assert (forall i, found e' i = option_list (order_lookup (e_book e) !! i) ++ filter (fun o => order_id o = i) (e_stops e) ++
    option_list (ms !! i) ++ option_list (e_held_close e !! i)) as Hfe by done.
  assert (ms !! id = if quantity o =? x then None else Some (with_quantity (quantity o - x) o)) as Hms.
  { unfold ms. destruct (Z.eqb_spec (quantity o - x) 0), (Z.eqb_spec (quantity o) x); try lia; by rewrite ?lookup_delete_eq, ?lookup_insert_eq. }
  assert (forall i, i <> id -> ms !! i = e_call_markets e !! i) as Hmo.
  { intros i Hi. unfold ms. destruct (_ =? 0); by rewrite ?lookup_delete_ne, ?lookup_insert_ne. }
  destruct (coherent_filled e e' id o st x px Hco Hf Hst Hx (book_ok_same e e' eq_refl eq_refl (co_book _ Hco))) as [Hco' Hsh].
  - by apply filled_states.
  - rewrite Hfe, Hb, Hps, Hms, Hh. by destruct (quantity o =? x).
  - intros i Hi. rewrite Hfe, Hmo by done. done.
  - done.
  - done.
  - split; [done|]. split; try done; [|apply lineage_refl|].
    + intros i. unfold avail, qty. change (e_book e') with (e_book e). change (e_call_markets e') with ms. case_bool_decide as E.
      * subst i. rewrite Hb, Hms, Hm. simpl. destruct (Z.eqb_spec (quantity o) x); simpl; lia.
      * rewrite Hmo by done. lia.
    + intros i. change (e_call_markets e') with ms. destruct (decide (i = id)) as [->|Hi]; [by rewrite Hm|by rewrite Hmo].
Qed.
End side.

Lemma auction_fill_side_ok {X : string -> Prop} id other x px at_ md e :
  coherent_on X e -> 0 < x <= avail e id -> (is_Some (e_call_markets e !! id) -> ~ X id) ->
  exists md' e', auction_fill_side id other x px at_ md e = Done (md', e') /\ coherent_on X e' /\
    drained (fun i => if bool_decide (i = id) then x else 0) e e'.
Proof.
  intros Hco Hx HX. destruct (avail_found e id Hco) as (o & st & Hf & Hst & Ht & Ha & Hps & Hh & Hwhere); [lia|].
  rewrite Ha in Hx. destruct Hwhere as [[Hb Hm]|[Hb Hm]].
  - by apply (resting_side_ok id other x px at_ md e o st).
  - apply (market_side_ok id other x px at_ md e o st); try done. apply HX. by exists o.
Qed.

(** ** All fills *)

Definition fill_fit (f : AuctionFill) : Prop := 0 < af_quantity f /\ af_buy_id f <> af_sell_id f.

Lemma need_cons f fills i :
  need (f :: fills) i = (if bool_decide (i = af_buy_id f) then af_quantity f else 0) + (if bool_decide (i = af_sell_id f) then af_quantity f else 0) + need fills i.
Proof.
  assert (forall a, bool_decide (i = a) = bool_decide (a = i)) as H by (intros a; by apply bool_decide_ext).
  unfold need, traded. rewrite !sumZ_cons. cbn [fill_id]. rewrite !H. lia.
Qed.

Lemma need_nonneg fills i : Forall fill_fit fills -> 0 <= need fills i.
Proof. induction 1 as [|f fills [Hq _] _ IH]; [done|]. rewrite need_cons. repeat case_bool_decide; lia. Qed.

Lemma drained_same e e' :
  e_book e' = e_book e -> e_call_markets e' = e_call_markets e -> e_stops e' = e_stops e -> e_held_close e' = e_held_close e ->
  e_states e' = e_states e -> same_session e e' -> drained (fun _ => 0) e e'.
Proof.
  intros H1 H2 H3 H4 H5 H6. split; try done.
  - intros i. unfold avail. rewrite H1, H2. lia.
  - apply lineage_same. by rewrite H1.
  - by rewrite H2.
  - intros i. by rewrite H5.
Qed.

Lemma auction_fills_ok {X : string -> Prop} px at_ fills : forall md e,
  coherent_on X e -> Forall fill_fit fills -> (forall i, need fills i <= avail e i) -> (forall i, is_Some (e_call_markets e !! i) -> ~ X i) ->
  exists md' e', auction_fills fills px at_ md e = Done (md', e') /\ coherent_on X e' /\ drained (need fills) e e'.
Proof.
  induction fills as [|f fills IH]; intros md e Hco Hfit Hneed HX.
  { exists md, e. split; [done|]. split; [done|]. by apply drained_same. }
  apply Forall_cons in Hfit as [[Hq Hne] Hfit]. assert (forall i, 0 <= need fills i) as Hnn by (intros i; by apply need_nonneg).
  pose proof (fun i => need_cons f fills i) as Hn. cbn [auction_fills].
  destruct (auction_fill_side_ok (af_buy_id f) (af_sell_id f) (af_quantity f) px at_ md e Hco) as (md1 & e1 & -> & Hco1 & D1); [|by apply HX|].
  { pose proof (Hneed (af_buy_id f)) as H. rewrite Hn, bool_decide_true in H by done. specialize (Hnn (af_buy_id f)). destruct (bool_decide (_ = af_sell_id f)); lia. }
  cbn [obind]. assert (forall i, is_Some (e_call_markets e1 !! i) -> ~ X i) as HX1 by (intros i Hi; by apply HX, (dr_markets _ _ _ D1)).
  destruct (auction_fill_side_ok (af_sell_id f) (af_buy_id f) (af_quantity f) px at_ md1 e1 Hco1) as (md2 & e2 & -> & Hco2 & D2); [|by apply HX1|].
  { rewrite (dr_avail _ _ _ D1), (bool_decide_false (af_sell_id f = af_buy_id f)) by congruence. pose proof (Hneed (af_sell_id f)) as H.
    rewrite Hn, (bool_decide_true (af_sell_id f = af_sell_id f)) in H by done. specialize (Hnn (af_sell_id f)). destruct (bool_decide (_ = af_buy_id f)); lia. }
  cbn [obind]. pose proof (drained_trans _ _ _ _ _ D1 D2) as D12. set (e3 := on_desk _ e2).
  assert (drained (fun _ => 0) e2 e3) as D3 by (by apply drained_same). pose proof (drained_trans _ _ _ _ _ D12 D3) as D.
  destruct (IH md2 e3) as (md' & e' & Hrun & Hco' & D').
  - by apply (coherent_ext e2).
  - done.
  - intros i. rewrite (dr_avail _ _ _ D). specialize (Hneed i). rewrite Hn in Hneed. lia.
  - intros i Hi. by apply HX, (dr_markets _ _ _ D).
  - exists md', e'. split; [exact Hrun|]. split; [done|]. eapply drained_ext; [|exact (drained_trans _ _ _ _ _ D D')].
    intros i. rewrite Hn. lia.
Qed.

(** ** The auction *)

(** An order as the auction sees it. *)
Definition seen_as (o : Order) (a : AuctionOrder) : Prop :=
  a_id a = order_id o /\ a_side a = side o /\ a_quantity a = quantity o /\
  limit_price a = if bool_decide (order_type o = Market) then None else Some (price o).

Lemma seen_as_ids os l : Forall2 seen_as os l -> a_id <$> l = order_id <$> os.
Proof. induction 1 as [|o a os l (H & _) _ IH]; [done|]. rewrite !fmap_cons. by rewrite H, IH. Qed.

Lemma auction_orders_seen {X} e : coherent_on X e -> few e ->
  exists l, auction_orders e = Done l /\ auction_ok l /\ Forall2 seen_as (live_auction_orders e) l.
Proof.
  intros Hco Hfew. destruct (auction_orders_ok e Hco Hfew) as (l & Hl & Hok). exists l. split_and!; [done|done|].
  destruct (mapO_Done (auction_order e) seen_as (live_auction_orders e)) as (l' & Hl' & HF).
  { intros o Ho. destruct (live_auction_order e o Hco Ho) as (st & Hs & _). unfold auction_order. rewrite Hs. cbn [expect obind]. by eexists. }
  unfold auction_orders in Hl. rewrite Hl in Hl'. by injection Hl' as <-.
Qed.

Lemma found_id {X} e id o : coherent_on X e -> o ∈ found e id -> order_id o = id.
Proof.
  intros Hco Hf. pose proof (co_states _ Hco id) as Hat. unfold coherent_at in Hat. destruct (e_states e !! id).
  - destruct Hat as (x & Hx & Hxid & _). rewrite Hx in Hf. by apply list_elem_of_singleton in Hf as ->.
  - rewrite Hat in Hf. by apply not_elem_of_nil in Hf.
Qed.

Lemma elem_of_live {X} e o :
  coherent_on X e -> o ∈ live_auction_orders e <-> order_lookup (e_book e) !! order_id o = Some o \/ e_call_markets e !! order_id o = Some o.
Proof.
  intros Hco. unfold live_auction_orders. rewrite elem_of_app, !list_elem_of_fmap. split.
  - intros [([id x] & -> & Hx)|([id x] & -> & Hx)]; apply elem_of_map_to_list in Hx; [left|right];
      simpl; (rewrite (found_id e id x Hco); [done|unfold found; rewrite Hx; set_solver]).
  - intros [Hx|Hx]; apply elem_of_map_to_list in Hx; [left|right]; by exists (order_id o, o).
Qed.

Lemma live_avail {X} e o : coherent_on X e -> o ∈ live_auction_orders e -> avail e (order_id o) = quantity o.
Proof.
  intros Hco Ho. destruct (live_auction_order e o Hco Ho) as (st & Hst & Ht). destruct (tk_ok _ _ Ht) as [Hq _].
  apply (elem_of_live e o Hco) in Ho. assert (0 < avail e (order_id o)) as Hp.
  { unfold avail. pose proof (qty_nonneg _ _ (order_id o) (bo_wf _ (co_book _ Hco))) as Hn. destruct Ho as [Hb|Hm]; [|rewrite Hm; simpl; lia].
    unfold qty. rewrite Hb. pose proof (co_states _ Hco (order_id o)) as Hat. unfold coherent_at, found in Hat. rewrite Hb, Hst in Hat.
    destruct Hat as (y & Hy & _). simpl in Hy. injection Hy as _ Hy. apply app_eq_nil in Hy as [_ Hy]. apply app_eq_nil in Hy as [Hy _].
    destruct (e_call_markets e !! order_id o); [done|]. simpl. lia. }
  destruct (avail_found e _ Hco Hp) as (y & st' & _ & _ & _ & -> & _ & _ & [[Hb Hm]|[Hb Hm]]); destruct Ho; congruence.
Qed.

Lemma live_order_ids {X} e : coherent_on X e -> order_id <$> live_auction_orders e = live_ids e.
Proof.
  intros Hco. unfold live_auction_orders, live_ids. rewrite fmap_app, <- !list_fmap_compose. f_equal; apply list_fmap_ext; intros i [id o] Hx;
    apply list_elem_of_lookup_2, elem_of_map_to_list in Hx; simpl; apply (found_id e id o Hco); unfold found; rewrite Hx; set_solver.
Qed.

Section run.
Context {X : string -> Prop} (e : Engine R I) (Hco : coherent_on X e).
Context (l : list AuctionOrder) (Hok : auction_ok l) (Hseen : Forall2 seen_as (live_auction_orders e) l).
Context (r : AuctionResult) (Hr : uncross l (e_last e) = Done r) (fills : list AuctionFill) (Hf : allocate l r = Done fills).

Lemma seen_ids : NoDup (a_id <$> l).
Proof using Hco Hseen.
  assert (a_id <$> l = order_id <$> live_auction_orders e) as ->.
  { by apply seen_as_ids. }
  rewrite (live_order_ids e Hco). by eapply NoDup_live_ids.
Qed.

Lemma seen_order a : a ∈ l -> exists o, o ∈ live_auction_orders e /\ seen_as o a.
Proof using Hseen.
  intros Ha. destruct (Forall2_in_r _ _ _ _ Hseen Ha) as (o & ? & ?). by exists o.
Qed.

Lemma order_seen o : o ∈ live_auction_orders e -> exists a, a ∈ l /\ seen_as o a.
Proof using Hseen.
  intros Ho. destruct (Forall2_in_l _ _ _ _ Hseen Ho) as (a & ? & ?). by exists a.
Qed.

(** What one side of an id trades: nothing unless it is there, and never more than
    it has. *)
Lemma side_traded s i : traded s i fills = 0 \/ exists a, a ∈ l /\ a_id a = i /\ a_side a = s /\ 0 <= traded s i fills <= a_quantity a.
Proof using Hco Hok Hseen Hr Hf.
  destruct (allocate_spec l (e_last e) r Hok seen_ids Hr) as (fills' & Hf' & _ & Hall & Hq). rewrite Hf in Hf'. injection Hf' as <-.
  destruct (Hq s) as (Hin & _ & Htr). destruct (decide (Exists (fun f => fill_id s f = i) fills)) as [Hex|Hno].
  - right. apply Exists_exists in Hex as (f & Hff & Hid). rewrite Forall_forall in Hall. destruct (Hall f Hff) as [_ _ (b & Hb & Eb) (a & Ha & Ea)].
    assert (exists o, o ∈ queue l (r_price r) s /\ a_id o = i) as (o & Ho & Eo) by (destruct s; simpl in Hid; [exists b|exists a]; by subst).
    exists o. apply list_elem_of_split in Ho as Hsp. destruct Hsp as (q1 & q2 & Hsp). specialize (Htr q1 o q2 Hsp). rewrite Eo in Htr.
    apply Hin in Ho as (Ho & Hw & Hpos). split_and!; [done|done| |lia|lia]. unfold willing, on_side in Hw. by propify.
  - left. unfold traded. apply sumZ_zero, Forall_forall. intros f Hff. rewrite bool_decide_false; [done|]. intros E. apply Hno, Exists_exists. by exists f.
Qed.

Lemma need_fits i : need fills i <= avail e i.
Proof using Hco Hok Hseen Hr Hf.
  assert (forall a, a ∈ l -> a_quantity a = avail e (a_id a)) as Hav.
  { intros a Ha. destruct (seen_order a Ha) as (o & Ho & (E1 & _ & E3 & _)). by rewrite E3, E1, (live_avail e o Hco Ho). }
  assert (0 <= avail e i) as Hn.
  { unfold avail. pose proof (qty_nonneg _ _ i (bo_wf _ (co_book _ Hco))). destruct (e_call_markets e !! i) as [o|] eqn:Hm; simpl; [|lia].
    assert (o ∈ found e i) as Hfi by (unfold found; rewrite Hm; set_solver). pose proof (found_id e i o Hco Hfi) as Hid.
    destruct (live_auction_order e o Hco) as (st & _ & Ht); [apply (elem_of_live e o Hco); right; by rewrite Hid|]. destruct (tk_ok _ _ Ht). lia. }
  unfold need. destruct (side_traded Buy i) as [->|(a & Ha & Ea & Sa & Hta)], (side_traded Sell i) as [->|(b & Hb & Eb & Sb & Htb)]; rewrite ?Z.add_0_r; [done|..].
  - pose proof (Hav b Hb) as H. rewrite Eb in H. lia.
  - pose proof (Hav a Ha) as H. rewrite Ea in H. lia.
  - exfalso. assert (a = b) as -> by (eapply NoDup_fmap_inj_elem; [exact seen_ids|done|done|congruence]). congruence.
Qed.

Lemma fills_fit : Forall fill_fit fills.
Proof using Hco Hok Hseen Hr Hf.
  destruct (allocate_spec l (e_last e) r Hok seen_ids Hr) as (fills' & Hf' & _ & Hall & Hq). rewrite Hf in Hf'. injection Hf' as <-.
  eapply Forall_impl; [exact Hall|]. intros f [_ Hpos (b & Hb & Eb) (s & Hs & Es)]. split; [done|]. intros E.
  destruct (Hq Buy) as (HB & _). destruct (Hq Sell) as (HS & _). apply HB in Hb as (Hb & Wb & _). apply HS in Hs as (Hs & Ws & _).
  assert (b = s) as -> by (eapply NoDup_fmap_inj_elem; [exact seen_ids|done|done|congruence]).
  unfold willing, on_side in *. propify. congruence.
Qed.

(** What the auction leaves on the book does not cross. *)
Lemma drained_uncrossed {Y} e' : drained (need fills) e e' -> coherent_on Y e' -> uncrossed (e_book e').
Proof using Hco Hok Hseen Hr Hf.
  intros D Hco'. pose proof (bo_wf _ (co_book _ Hco')) as Hw. apply uncrossed_orders; [done|]. intros x y Hx Hy Sx Sy.
  assert (forall x, order_lookup (e_book e') !! order_id x = Some x -> exists a, a ∈ l /\ a_id a = order_id x /\ a_side a = side x /\
    limit_price a = Some (price x) /\ need fills (order_id x) < a_quantity a) as Hrest.
  { clear x y Hx Hy Sx Sy. intros x Hx. destruct (dr_lineage _ _ _ D _ _ Hx) as (x0 & Hx0 & Ex).
    assert (order_id x0 = order_id x) as Eid by (by rewrite Ex). assert (x0 ∈ live_auction_orders e) as Hlive by (apply (elem_of_live e x0 Hco); left; by rewrite Eid).
    destruct (order_seen x0 Hlive) as (a & Ha & (E1 & E2 & E3 & E4)). exists a. split_and!; [done|congruence|by rewrite E2, Ex| |].
    - rewrite E4, Ex, bool_decide_false; [done|]. exact (bo_priced _ (co_book _ Hco) _ _ Hx0).
    - pose proof (dr_avail _ _ _ D (order_id x)) as Hd. rewrite <- Eid, (live_avail e x0 Hco Hlive), Eid in Hd. rewrite E3.
      rewrite (live_avail e' x Hco') in Hd by (apply (elem_of_live e' x Hco'); by left). destruct (inv_lookup_elem _ _ _ _ Hw Hx) as [Hin _].
      destruct (inv_order_ok _ _ _ Hw Hin) as [Hq _]. lia. }
  destruct (Hrest x Hx) as (a & Ha & E1 & E2 & E3 & E4), (Hrest y Hy) as (b & Hb & F1 & F2 & F3 & F4).
  destruct (allocate_spec l (e_last e) r Hok seen_ids Hr) as (fills' & Hf' & _ & Hall & Hq). rewrite Hf in Hf'. injection Hf' as <-.
  pose proof (fun s i => traded_nonneg _ _ _ s i _ Hall) as Hnn. unfold need in E4, F4.
  apply (allocate_uncrosses l (e_last e) r fills a b); try done; [exact seen_ids|congruence|rewrite E1|congruence|rewrite F1].
  - pose proof (Hnn Sell (order_id x)). lia.
  - pose proof (Hnn Buy (order_id y)). lia.
Qed.

End run.

Lemma coherent_weaken (X Y : string -> Prop) e : (forall i, Y i -> X i) -> coherent_on X e -> coherent_on Y e.
Proof. intros H [Hb Hc Hf]. split; [done|done|]. intros id st Hs HY. apply Hf; auto. Qed.

(** What an auction does: every id gives exactly what the allocation of the
    clearing result takes, the last price is the clearing price, and the book is
    left uncrossed. *)
Record auctioned e e' : Prop := {
  au_fills : exists l r fills, auction_orders e = Done l /\ uncross l (e_last e) = Done r /\ allocate l r = Done fills /\
    (forall i, avail e' i = avail e i - need fills i) /\ e_last e' = (if r_volume r =? 0 then e_last e else Some (r_price r));
  au_uncrossed : uncrossed (e_book e');
  au_lineage : lineage (e_book e) (e_book e');
  au_stops : e_stops e' = e_stops e;
  au_held : e_held_close e' = e_held_close e;
  au_markets : forall i, is_Some (e_call_markets e' !! i) -> is_Some (e_call_markets e !! i);
  au_states : shrinks e e';
  au_clock : same_clock e e';
}.

Lemma run_auction_ok at_ e :
  coherent e -> few e ->
  exists px e', run_auction at_ e = Done (px, e') /\ coherent_on (fun i => e_call_markets e !! i = None) e' /\ auctioned e e'.
Proof.
  intros Hco Hfew. unfold run_auction. destruct (auction_orders_seen e Hco Hfew) as (l & Hl & Hok & Hseen). rewrite Hl. cbn [obind].
  destruct (uncross_cases l (e_last e) Hok) as (r & Hr & _). rewrite Hr. cbn [obind].
  destruct (allocate_spec l (e_last e) r Hok (seen_ids e Hco l Hseen) Hr) as (fills & Hf & _). rewrite Hf. cbn [obind].
  destruct (auction_fills_ok (r_price r) at_ fills [] e (coherent_weaken (fun _ => True) (fun i => e_call_markets e !! i = None) e (fun _ _ => Logic.I) Hco)) as (md & e1 & Hrun & Hco1 & D).
  - by apply (fills_fit e Hco l Hok Hseen r Hr).
  - intros i. by apply (need_fits e Hco l Hok Hseen r Hr).
  - by intros i [o ->].
  - rewrite Hrun. cbn [obind]. set (e2 := on_desk _ e1).
    assert (e_states e2 = e_states e1) as Hs2 by (unfold e_states, e2, on_desk; simpl; by apply foldl_states).
    assert (coherent_on (fun i => e_call_markets e !! i = None) e2) as Hco2 by (by apply (coherent_ext e1)).
    assert (forall last e3, e3 = set_market (e_book e2) (e_stops e2) last e2 -> last = (if r_volume r =? 0 then e_last e else Some (r_price r)) ->
      coherent_on (fun i => e_call_markets e !! i = None) e3 /\ auctioned e e3) as Hend.
    { intros last e3 -> Hlast. split; [by apply (coherent_ext e2)|]. destruct D as [A L M S Hh T (C1 & C2 & C3 & C4 & C5 & C6 & C7)] eqn:ED. split; try done.
      - exists l, r, fills. by split_and!.
      - apply (drained_uncrossed e Hco l Hok Hseen r Hr fills Hf e1 D Hco1).
      - intros i. change (e_states (set_market _ _ _ e2)) with (e_states e2). rewrite Hs2. apply T. }
    destruct (r_volume r =? 0); eexists _, _; (split; [done|]).
    + apply (Hend (e_last e2)); [by destruct e2|]. apply (dr_session _ _ _ D).
    + by apply (Hend (Some (r_price r))).
Qed.

(** ** What the auction leaves *)

Lemma remove_live_book id e md e' : remove_live id e = Done (md, e') -> e_book e' = (cancel_order id (e_book e)).2.
Proof.
  unfold remove_live. destruct (cancel_order id (e_book e)) as [[u|] b]; [by intros [= <- <-]|]. simpl.
  destruct (e_call_markets e !! id); [by intros [= <- <-]|]. destruct (e_held_close e !! id); [by intros [= <- <-]|].
  unfold e_states. simpl. destruct (states (e_desk e) !! id); [|done]. cbn [expect obind].
  destruct (stop_cancel_for _ _ _) as [[? | ?] ?]; [by intros [= <- <-]|done].
Qed.

Lemma cancel_order_lineage id b : lineage b (cancel_order id b).2.
Proof.
  intros i o. rewrite cancel_order_lookup, lookup_delete_Some. intros [_ H]. exists o. split; [done|]. by destruct o.
Qed.

Lemma close_order_lineage id diag ev ts e e' : close_order id diag ev ts e = Done e' -> lineage (e_book e) (e_book e').
Proof.
  unfold close_order. destruct (remove_live id e) as [[md e1]| |] eqn:Hr; [|done..]. cbn [obind].
  destruct (e_states e1 !! id); [|done]. cbn [expect obind]. intros [= <-].
  match goal with |- lineage _ (e_book ?x) => assert (e_book x = e_book e1) as -> by (by destruct md, diag) end.
  rewrite (remove_live_book _ _ _ _ Hr). apply cancel_order_lineage.
Qed.

Lemma close_all_lineage due diag ev ts : forall e e', close_all due diag ev ts e = Done e' -> lineage (e_book e) (e_book e').
Proof.
  induction due as [|id due IH]; intros e e'; cbn [close_all]; [intros [= <-]; apply lineage_refl|].
  destruct (close_order id diag (ev id) ts e) as [e1| |] eqn:Hc; [|done..]. cbn [obind]. intros H.
  eapply lineage_trans; [by eapply close_order_lineage|by apply IH].
Qed.

Lemma lineage_uncrossed b b' : wf_book b -> wf_book b' -> lineage b b' -> uncrossed b -> uncrossed b'.
Proof.
  intros Hw Hw' L. rewrite !uncrossed_orders by done. intros H x y Hx Hy Sx Sy.
  destruct (L _ _ Hx) as (x0 & Hx0 & Ex). destruct (L _ _ Hy) as (y0 & Hy0 & Ey).
  assert (side x = side x0 /\ price x = price x0 /\ order_id x = order_id x0) as (X1 & X2 & X3) by (by rewrite Ex).
  assert (side y = side y0 /\ price y = price y0 /\ order_id y = order_id y0) as (Y1 & Y2 & Y3) by (by rewrite Ey).
  rewrite X2, Y2. apply H; congruence.
Qed.

(** A market order the auction filled completely is gone. *)
Lemma auctioned_out {X} e e' i :
  coherent e -> coherent_on X e' -> auctioned e e' -> is_Some (e_call_markets e !! i) -> e_call_markets e' !! i = None -> e_states e' !! i = None.
Proof.
  intros Hco Hco' A [o Ho] Hn. pose proof (co_states _ Hco' i) as H'. pose proof (co_states _ Hco i) as H. unfold coherent_at, found in H, H'.
  rewrite Ho in H. assert (order_lookup (e_book e) !! i = None /\ filter (fun o => order_id o = i) (e_stops e) = [] /\ e_held_close e !! i = None) as (B & S & Hh).
  { destruct (e_states e !! i).
    - destruct H as (o' & H & _). destruct (order_lookup (e_book e) !! i); [by destruct (filter _ (e_stops e))|].
      destruct (filter _ (e_stops e)) as [|? [|? ?]]; [|done|done]. by destruct (e_held_close e !! i).
    - by destruct (order_lookup (e_book e) !! i), (filter _ (e_stops e)). }
  destruct (e_states e' !! i); [|done]. destruct H' as (o' & H' & _). exfalso.
  rewrite (au_stops _ _ A), (au_held _ _ A), S, Hn, Hh in H'. destruct (order_lookup (e_book e') !! i) eqn:Hb; [|done].
  apply (au_lineage _ _ A) in Hb as (ob & Hb & _). congruence.
Qed.

(** The auction and the cancelling of what it leaves of the market orders: the
    engine is coherent again and the book uncrossed. *)
Lemma auction_and_cancel at_ tif e :
  coherent e -> few e ->
  exists px e1 e2, run_auction at_ e = Done (px, e1) /\ auctioned e e1 /\ cancel_remainders tif at_ e1 = Done e2 /\
    coherent e2 /\ uncrossed (e_book e2) /\ shrinks e e2 /\ same_clock e e2 /\
    forall id st, e_states e2 !! id = Some st -> e_states e1 !! id = Some st /\ found e2 id = found e1 id /\
      st_time_in_force st <> tif /\ e_call_markets e1 !! id = None.
Proof.
  intros Hco Hfew. destruct (run_auction_ok at_ e Hco Hfew) as (px & e1 & Hrun & Hco1 & A). exists px, e1.
  set (test := fun (id : string) (st : OrderState R) => bool_decide (st_time_in_force st = tif) || bool_decide (is_Some (e_call_markets e1 !! id))).
  destruct (close_due_ok test true (finish_event false) (timestamp_of at_) e1 Hco1) as (e2 & rs & Hc & Hco2 & Hses & Hst & Hfo & _).
  assert (forall id st, e_states e2 !! id = Some st -> e_states e1 !! id = Some st /\ found e2 id = found e1 id /\
    st_time_in_force st <> tif /\ e_call_markets e1 !! id = None) as Hleft.
  { intros id st. rewrite Hst, Hfo. destruct (e_states e1 !! id) as [st1|]; [|done]. unfold test.
    case_bool_decide as E1; [done|]. case_bool_decide as E2; [done|]. intros [= <-]. split_and!; [done..|]. by apply eq_None_not_Some. }
  exists e2. split_and!; [exact Hrun|done| | | | | |exact Hleft].
  - unfold cancel_remainders. rewrite finish_orders_close. exact Hc.
  - destruct Hco2 as [Hb Hs Hf]. split; [done|done|]. intros id st Hid _. apply Hf; [done|]. apply Hleft in Hid as (Hs1 & _ & _ & Hn).
    destruct (e_call_markets e !! id) eqn:Hm; [|done]. exfalso. pose proof (auctioned_out e e1 id Hco Hco1 A ltac:(eauto) Hn). congruence.
  - eapply (lineage_uncrossed (e_book e1)); [apply Hco1|apply Hco2|by eapply close_all_lineage|apply A].
  - intros id Hid. rewrite Hst. apply (au_states _ _ A) in Hid. by rewrite Hid.
  - eapply same_clock_trans; [apply A|]. destruct Hses as (? & ? & ? & ? & ? & ? & ?). by split_and!.
Qed.

(** C10: An auction on a coherent engine always returns. Every order gives exactly
    what the allocation at the clearing price takes from it and keeps the rest,
    the clearing price becomes the last price, and no order that is left crosses
    another. Cancelling the remainders then leaves the engine coherent: the
    orders that remain are those of another time in force, none waits for an
    auction as a market order, and their states and places are unchanged. *)
Theorem auction_settles at_ tif e :
  coherent e -> few e ->
  exists px e1 e2, run_auction at_ e = Done (px, e1) /\ auctioned e e1 /\ cancel_remainders tif at_ e1 = Done e2 /\
    coherent e2 /\ uncrossed (e_book e2) /\
    forall id st, e_states e2 !! id = Some st -> e_states e1 !! id = Some st /\ found e2 id = found e1 id /\
      st_time_in_force st <> tif /\ e_call_markets e1 !! id = None.
Proof.
  intros Hco Hfew. destruct (auction_and_cancel at_ tif e Hco Hfew) as (px & e1 & e2 & H1 & H2 & H3 & H4 & H5 & _ & _ & H6).
  exists px, e1, e2. by split_and!.
Qed.

End auction.

(** ** Witness *)

(** The call of an offer, a bid, a waiting market order and an order for the close. *)
Lemma auction_settles_witness :
  exists px e1 e2, run_auction (mkTime 3600 0) call_engine = Done (px, e1) /\ px = Some 101 /\ auctioned call_engine e1 /\
    cancel_remainders AtOpen (mkTime 3600 0) e1 = Done e2 /\ coherent e2 /\ uncrossed (e_book e2).
Proof.
  destruct (auction_settles (mkTime 3600 0) AtOpen call_engine) as (px & e1 & e2 & Hrun & Ha & Hc & Hco & Hu & _).
  - apply call_engine_ok.
  - vm_compute. congruence.
  - exists px, e1, e2. split_and!; [exact Hrun| |exact Ha|exact Hc|exact Hco|exact Hu].
    assert ((let* (px, _) := run_auction (mkTime 3600 0) call_engine in Done px) = Done (Some 101)) as E by (vm_compute; reflexivity).
    rewrite Hrun in E. by injection E as ->.
Defined.
