(* ===== verification/EngineSession.v ===== *)
(** * The trading day of a coherent engine

    The session boundaries, from the opening call to the close: each returns and
    leaves the engine coherent. The stops an opening price fires are executed as
    loose orders, the orders held for the close enter its call. *)

From S2P Require Import Prelude BTree Text Order OrderBook BookInvariant Samples BookEffects Matcher Effects Pace MatchOrders Stops Executions Cascade.
From S2P Require Import Session SymbolConfig Auction AuctionPrice AuctionAlloc Proto Reports ExecutionReports Engine EngineInv EngineMatch EngineAuction.

Section sessions.
Context {R I : Type} `{!ExecIds I}.
Implicit Types (e : Engine R I).

(** ** The stops an auction fires *)

Lemma execute_stops_spec log stops : forall b out,
  idle b -> stops_ok b stops ->
  exists fs es cs us rs sus b' out', execute_stops log stops b out = Done (b', out') /\
    executed b (fun id => qty b id + waiting stops id) out fs es cs us rs sus b' (qty b') out' /\ descends stops b fs b'.
Proof.
  induction stops as [|stop stops IH]; intros b out Hidle Hok; cbn [execute_stops].
  { exists [], [], [], [], [], [], b, out. split; [done|]. split; [|apply descends_refl].
    eapply executed_ext; [| |by apply (executed_refl b (qty b))]; [|done]. intros id. unfold waiting. simpl. lia. }
  set (out1 := add_triggered _ _ _).
  destruct (execute_first b stop stops out1 Hidle Hok) as (fs & es & cs & us & rs & sus & rests & b1 & out2 & -> & Hx & Hok1 & Hd). cbn [obind].
  destruct (IH b1 out2) as (fs2 & es2 & cs2 & us2 & rs2 & sus2 & b2 & out3 & -> & Hx2 & Hd2); [by eapply executed_idle|done|].
  eexists _, _, _, _, _, _, _, _. split; [done|]. split.
  - eapply executed_trans; [|exact Hx2]. apply executed_triggered in Hx. destruct Hx. by split.
  - by eapply (descends_trans [stop]).
Qed.

Lemma of_id_app id l l' : of_id id (l ++ l') = of_id id l ++ of_id id l'.
Proof. apply filter_app. Qed.

(** The fired stops become loose. *)
Lemma loose_fired e px fired parked :
  coherent_with [] e -> drain_triggered_stops (e_stops e) px = (fired, parked) -> coherent_with fired (set_market (e_book e) parked (e_last e) e).
Proof.
  intros [Hw Hc Hpr Hta Hs] Hdr. apply drain_perm in Hdr as [Hp _]. split; [done..|]. intros id. specialize (Hs id).
  change (e_states (set_market _ _ _ e)) with (e_states e). change (aside (set_market _ _ _ e) id) with (aside e id).
  assert (active [] e id ≡ₚ active fired (set_market (e_book e) parked (e_last e) e) id) as Hact.
  { unfold active. simpl. unfold of_id. rewrite <- Hp, filter_app. by rewrite Permutation_app_swap_app. }
  destruct (e_states e !! id) as [st|].
  - destruct Hs as (o & Ho & Hid & Ht). exists o. split; [|done]. symmetry in Hact. apply (Permutation_app_tail (aside e id)) in Hact.
    rewrite Ho in Hact. by apply Permutation_singleton_r in Hact.
  - symmetry in Hact. apply (Permutation_app_tail (aside e id)) in Hact. rewrite Hs in Hact. by apply Permutation_nil_r in Hact.
Qed.

Lemma fire_stops_coherent px ts e fired parked :
  coherent e -> e_phase e = Continuous -> drain_triggered_stops (e_stops e) px = (fired, parked) ->
  let e1 := set_market (e_book e) parked (e_last e) e in
  exists b exec e', execute_stops (logging e1) fired (e_book e1) execution_default = Done (b, exec) /\
    cascade_and_report b exec ts e1 = Done e' /\ coherent e' /\ shrinks e e' /\ same_clock e e'.
Proof.
  intros Hco Hph Hdr e1. pose proof (bo_uncrossed _ (co_book _ Hco) Hph) as Hu. apply coherent_with_nil in Hco as [Hco _].
  pose proof (loose_fired e px fired parked Hco Hdr) as Hl. pose proof (loose_stops_ok _ _ Hl) as Hok.
  destruct (execute_stops_spec (logging e1) fired (e_book e1) execution_default) as (fs & es & cs & us & rs & sus & b & exec & Hrun & Hx & Hd).
  - split; [apply Hl|apply Hl|exact Hu].
  - destruct Hok as [H1 H2]. rewrite fmap_app in H2. apply Forall_app in H1 as [H1 _]. by apply NoDup_app in H2 as [H2 _].
  - destruct (cascade_coherent fired e1 b execution_default exec _ _ _ _ _ _ ts Hl ltac:(done) Hx Hd) as (e' & Hc & Hco' & Hs & Hcl & _).
    exists b, exec, e'. by split_and!.
Qed.

(** ** The boundaries *)

Lemma set_phase_coherent p at_ e :
  coherent e -> (p = Continuous -> uncrossed (e_book e)) -> coherent (set_phase p at_ e).
Proof.
  intros Hco Hu. unfold set_phase. case_bool_decide; [done|]. destruct Hco as [[Hw Hc Hp _] Hs Hf]. by split.
Qed.

(** What a boundary leaves alone. *)
Definition same_timers e e' : Prop :=
  e_symbol e' = e_symbol e /\ e_clock e' = e_clock e /\ e_schedule e' = e_schedule e /\
  e_call_until e' = e_call_until e /\ e_last_seen e' = e_last_seen e.

Lemma set_phase_same p at_ e : e_states (set_phase p at_ e) = e_states e /\ e_phase (set_phase p at_ e) = p /\ same_timers e (set_phase p at_ e).
Proof. unfold set_phase. by case_bool_decide. Qed.

Lemma same_clock_timers e e' : same_clock e e' -> same_timers e e'.
Proof. by intros (? & ? & ? & ? & ? & ?). Qed.

Lemma same_timers_trans e1 e2 e3 : same_timers e1 e2 -> same_timers e2 e3 -> same_timers e1 e3.
Proof. intros (? & ? & ? & ? & ?) (? & ? & ? & ? & ?). unfold same_timers. split_and!; congruence. Qed.

Lemma open_market_coherent at_ e :
  coherent e -> few e -> exists e', open_market at_ e = Done e' /\ coherent e' /\ e_phase e' = Continuous /\ shrinks e e' /\ same_timers e e'.
Proof.
  intros Hco Hfew. unfold open_market.
  destruct (auction_and_cancel at_ AtOpen e Hco Hfew) as (px & e1 & e2 & -> & _ & Hc & Hco2 & Hu & Hsh & Hcl & _). cbn [obind]. rewrite Hc. cbn [obind].
  set (e3 := set_phase Continuous at_ e2). assert (coherent e3) as Hco3 by (by apply set_phase_coherent).
  destruct (set_phase_same Continuous at_ e2) as (Hst & Hph & Hti). apply same_clock_timers in Hcl.
  assert (same_timers e e3) as Ht by (by eapply same_timers_trans).
  assert (shrinks e e3) as Hs3 by (intros i Hi; unfold e3; rewrite Hst; auto).
  destruct px as [px|]; [|by exists e3]. destruct (drain_triggered_stops (e_stops e3) px) as [fired parked] eqn:Hdr.
  destruct (fire_stops_coherent px (timestamp_of at_) e3 fired parked Hco3 Hph Hdr) as (b & exec & e' & Hrun & Hcr & Hco' & Hs & Hcl').
  rewrite Hrun. cbn [obind]. rewrite Hcr. exists e'. split_and!; [done|done| |by eapply shrinks_trans|].
  - destruct Hcl' as (_ & _ & _ & E & _). by rewrite E.
  - eapply same_timers_trans; [exact Ht|by apply same_clock_timers].
Qed.

(** ** Entering the closing call *)

Lemma of_id_values (m : gmap string Order) id :
  (forall i o, m !! i = Some o -> order_id o = i) -> of_id id ((map_to_list m).*2) ≡ₚ option_list (m !! id).
Proof.
  induction m as [|i o m Hi IH] using map_ind; intros Hkey; [done|].
  assert (order_id o = i) as Ho by (apply (Hkey i); by rewrite lookup_insert_eq). unfold of_id in *.
  rewrite map_to_list_insert, fmap_cons by done. simpl.
  assert (filter (fun o => order_id o = id) ((map_to_list m).*2) ≡ₚ option_list (m !! id)) as IH'; [apply IH|].
  - intros j x Hj. apply Hkey. rewrite lookup_insert_ne; [done|]. intros <-. by rewrite Hi in Hj.
  - rewrite filter_cons. destruct (decide (order_id o = id)) as [E|E].
    + rewrite IH', <- E, Ho, lookup_insert_eq, Hi. done.
    + rewrite IH', lookup_insert_ne by congruence. done.
Qed.

Lemma held_id e i o : coherent e -> e_held_close e !! i = Some o -> order_id o = i /\ is_Some (e_states e !! i).
Proof.
  intros Hco Ho. assert (o ∈ found e i) as Hin by (unfold found; rewrite Ho; set_solver). split; [by apply (found_id e i o Hco)|].
  pose proof (co_states _ Hco i) as H. unfold coherent_at in H. destruct (e_states e !! i); [done|]. rewrite H in Hin. set_solver.
Qed.

(** The held orders become loose when the table is emptied. *)
Lemma loose_held e :
  coherent e -> coherent_with ((map_to_list (e_held_close e)).*2) (set_held (e_call_markets e) ∅ e).
Proof.
  intros Hco. assert (forall i o, e_held_close e !! i = Some o -> order_id o = i) as Hkey by (intros i o Ho; by apply (held_id e)).
  apply coherent_with_nil in Hco as [[Hw Hc Hpr Hta Hs] _]. split; [done..|]. intros id. specialize (Hs id).
  change (e_states (set_held _ _ e)) with (e_states e).
  assert (active ((map_to_list (e_held_close e)).*2) (set_held (e_call_markets e) ∅ e) id ++ aside (set_held (e_call_markets e) ∅ e) id
    ≡ₚ active [] e id ++ aside e id) as Hp.
  { unfold active, aside. simpl. rewrite lookup_empty, (of_id_values _ id Hkey). simpl. rewrite app_nil_r.
    generalize (option_list (e_held_close e !! id)) (option_list (order_lookup (e_book e) !! id)) (of_id id (e_stops e)) (option_list (e_call_markets e !! id)).
    intros h b s m. solve_Permutation. }
  destruct (e_states e !! id) as [st|].
  - destruct Hs as (o & Ho & Hid & Ht). exists o. split; [|done]. rewrite Ho in Hp. by apply Permutation_singleton_r in Hp.
  - rewrite Hs in Hp. by apply Permutation_nil_r in Hp.
Qed.

Lemma coherent_with_perm l l' e : l ≡ₚ l' -> coherent_with l e -> coherent_with l' e.
Proof.
  intros Hp [Hw Hc Hpr Hta Hs]. split; [done..|]. intros id. specialize (Hs id).
  assert (active l e id ++ aside e id ≡ₚ active l' e id ++ aside e id) as Ha by (unfold active, of_id; by rewrite Hp).
  destruct (e_states e !! id) as [st|].
  - destruct Hs as (o & Ho & Hid & Ht). exists o. split; [|done]. rewrite Ho in Ha. symmetry in Ha. by apply Permutation_singleton_r in Ha.
  - rewrite Hs in Ha. symmetry in Ha. by apply Permutation_nil_r in Ha.
Qed.

(** An order of the closing call leaves the loose ones. *)
Lemma enter_held_coherent at_ o l e :
  coherent_with (o :: l) e ->
  coherent_with l (enter_held at_ o e) /\ e_states (enter_held at_ o e) = e_states e /\ same_clock e (enter_held at_ o e).
Proof.
  intros Hco. destruct (loose_stops_ok _ _ Hco) as [[Hok Hfr]%Forall_inv _]. destruct Hco as [Hw Hc Hpr Hta Hs].
  assert (of_id (order_id o) l = [] /\ of_id (order_id o) (e_stops e) = [] /\ aside e (order_id o) = [] /\ (exists st, e_states e !! order_id o = Some st /\ tracks st o))
    as (H1 & H2 & H3 & st & H4 & H5).
  { specialize (Hs (order_id o)). unfold active, of_id in *. rewrite filter_cons_True, Hfr in Hs by done. destruct (e_states e !! order_id o) as [st|]; [|done].
    destruct Hs as (x & Hx & _ & Ht). simpl in Hx. injection Hx as -> Hx. apply app_eq_nil in Hx as [[-> ->]%app_eq_nil ->]. eauto 10. }
  unfold enter_held. case_bool_decide as Hm.
  - split; [|done]. split; [done..|]. intros id. specialize (Hs id). change (e_states (set_held _ _ e)) with (e_states e).
    unfold active, aside, of_id in *. simpl. destruct (decide (id = order_id o)) as [->|Hne].
    + rewrite H4, Hfr, H1, H2, lookup_insert_eq. apply app_eq_nil in H3 as [_ ->]. by exists o.
    + by rewrite filter_cons_False, lookup_insert_ne in * by done.
  - pose proof (add_order_inv [] o (e_book e) Hw Hok Hfr) as Hw'. pose proof (add_order_lookup o (e_book e)) as Hl.
    pose proof (add_order_stp o (e_book e)) as Hcl. pose proof (add_order_cum o (e_book e)) as Hcu.
    destruct (add_order o (e_book e)) as [md b]. cbn [snd] in *. split; [|done]. split; [done|by simpl; rewrite Hcl| | |].
    + simpl. intros i x. rewrite Hl. intros [[_ <-]|[_ Hx]]%lookup_insert_Some; [done|by apply (Hpr i)].
    + intros i s. simpl. unfold banked. rewrite Hcu. apply Hta.
    + intros id. specialize (Hs id). change (e_states (on_desk _ _)) with (e_states e).
      unfold active, aside, of_id in *. simpl. rewrite Hl. destruct (decide (id = order_id o)) as [->|Hne].
      * rewrite H4, H1, H2, lookup_insert_eq. simpl in *. rewrite H3. by exists o.
      * by rewrite filter_cons_False, lookup_insert_ne in * by done.
Qed.

Lemma enter_all_coherent at_ l : forall e,
  coherent_with l e -> let e' := foldl (fun e o => enter_held at_ o e) e l in
  coherent_with [] e' /\ e_states e' = e_states e /\ same_clock e e'.
Proof.
  induction l as [|o l IH]; intros e Hco; [done|]. simpl. destruct (enter_held_coherent at_ o l e Hco) as (Hc & Hs & Hcl).
  destruct (IH _ Hc) as (Hc' & Hs' & Hcl'). split_and!; [done|congruence|by eapply same_clock_trans].
Qed.

Lemma held_in_order_done e : coherent e -> exists l, held_in_order e = Done l /\ l ≡ₚ (map_to_list (e_held_close e)).*2.
Proof.
  intros Hco. unfold held_in_order. destruct (_ <=? 1)%nat; [by eexists|].
  destruct (mapO_Done (fun o => let* st := expect (e_states e !! order_id o) in Done (st_arrival st, o)) (fun o x => x.2 = o) ((map_to_list (e_held_close e)).*2)) as (l & -> & HF).
  { intros o Ho. apply list_elem_of_fmap in Ho as ([i x] & -> & Hx%elem_of_map_to_list). simpl. destruct (held_id e i x Hco Hx) as [-> [st ->]].
    by eexists. }
  cbn [obind]. eexists. split; [done|]. rewrite sort_stable_perm.
  assert (l.*2 = (map_to_list (e_held_close e)).*2) as ->; [|done].
  induction HF as [|x y l1 l2 H _ IH]; [done|]. rewrite fmap_cons. by rewrite H, IH.
Qed.

(** ** Every boundary *)

Lemma shrinks_refl e : shrinks e e.
Proof. by intros id. Qed.

Lemma expire_coherent at_ over e :
  coherent e -> exists e', expire at_ over e = Done e' /\ coherent e' /\ shrinks e e' /\ same_clock e e'.
Proof.
  intros Hco. unfold expire. rewrite finish_orders_close. cbn [negb].
  destruct (close_due_ok (fun _ st => is_due at_ over st) false (finish_event true) (timestamp_of at_) e Hco) as (e' & rs & -> & Hco' & Hses & Hst & _).
  exists e'. split_and!; [done|done| |].
  - intros i Hi. by rewrite Hst, Hi.
  - destruct Hses as (? & ? & ? & ? & ? & ? & ?). by split_and!.
Qed.

Lemma session_boundary_coherent kind at_ e :
  coherent e -> few e -> exists e', session_boundary kind at_ e = Done e' /\ coherent e' /\ shrinks e e' /\ same_timers e e'.
Proof.
  intros Hco Hfew. destruct kind; cbn [session_boundary].
  - eexists. split; [done|]. destruct (set_phase_same OpeningCall at_ e) as (Hs & _ & Ht). split_and!; [by apply set_phase_coherent| |done].
    intros i. by rewrite Hs.
  - destruct (open_market_coherent at_ e Hco Hfew) as (e' & ? & ? & _ & ? & ?). by exists e'.
  - destruct (set_phase_same ClosingCall at_ e) as (Hs & Hph & Ht). assert (coherent (set_phase ClosingCall at_ e)) as Hco1 by (by apply set_phase_coherent).
    set (e1 := set_phase ClosingCall at_ e) in *. destruct (held_in_order_done e1 Hco1) as (l & -> & Hp). cbn [obind].
    destruct (enter_all_coherent at_ l (set_held (e_call_markets e1) ∅ e1)) as (Hc & Hst & Hcl).
    { eapply coherent_with_perm; [symmetry; exact Hp|by apply loose_held]. }
    eexists. split; [done|]. split_and!.
    + apply coherent_with_nil. split; [exact Hc|]. intros Hx. destruct Hcl as (_ & _ & _ & E & _). rewrite E in Hx. change (e_phase e1 = Continuous) in Hx. congruence.
    + intros i Hi. rewrite Hst. change (e_states e1 !! i = None). by rewrite Hs.
    + eapply same_timers_trans; [exact Ht|]. by apply same_clock_timers in Hcl.
  - destruct (auction_and_cancel at_ AtClose e Hco Hfew) as (px & e1 & e2 & -> & _ & Hc & Hco2 & _ & Hsh & Hcl & _). cbn [obind]. rewrite Hc. cbn [obind].
    destruct (set_phase_same Closed at_ e2) as (Hs & _ & Ht).
    destruct (expire_coherent at_ true (set_phase Closed at_ e2)) as (e' & -> & Hco' & Hsh' & Hcl'); [by apply set_phase_coherent|].
    exists e'. split_and!; [done|done| |].
    + intros i Hi. apply Hsh'. rewrite Hs. auto.
    + eapply same_timers_trans; [by apply same_clock_timers|]. eapply same_timers_trans; [done|by apply same_clock_timers].
Qed.

End sessions.
