(* ===== verification/EngineClock.v ===== *)
(** * The clock of an engine without auctions

    Every request first advances the engine to the time on its clock. Without
    auctions, in continuous trading, that is expiry only: [advance] returns and
    removes exactly the orders whose day or date is over, each with one Expired
    report, however many boundaries lie in between. *)

From S2P Require Import Prelude BTree Text Order OrderBook BookInvariant Samples Matcher MatchOrders Stops Executions Cascade.
From S2P Require Import Session SymbolConfig Auction AuctionPrice Proto Reports Engine EngineInv EngineSamples EngineOps.

Section clock.
Context {R I : Type} `{!ExecIds I}.
Implicit Types (e : Engine R I).

(** ** Definitions *)

(** No auction is scheduled or called. *)
Record plain e : Prop := {
  pl_call : e_call_until e = None;
  pl_schedule : match e_schedule e with Some s => valid_schedule s /\ is_full s = false | None => True end;
  pl_phase : is_call (e_phase e) = false;
}.

(** Whether the market closes after [from] and not after [upto]. *)
Definition closes e (from upto : Z) : bool :=
  match e_schedule e with Some s => occurrence from (close s) <=? upto | None => false end.

(** The last second of a good-till-date order. *)
Definition gtd_expiry (st : OrderState R) : option Z :=
  if bool_decide (st_time_in_force st = Gtd) then result_ok (expiry_instant (st_expire_date st)) else None.

(** Live good-till-date orders are not past their date at [at_]. *)
Definition dated (at_ : Time) e : Prop :=
  forall id st t, e_states e !! id = Some st -> gtd_expiry st = Some t -> seconds at_ < t.

(** What expires on the way from one instant to another. *)
Definition lapses e (from upto : Time) (st : OrderState R) : bool := is_due upto (closes e (seconds from) (seconds upto)) st.

(** The same in words: a Day order when a close of the schedule has passed, a
    good-till-date order when its date has. *)
Definition lapsed e (from upto : Time) (st : OrderState R) : Prop :=
  st_time_in_force st = Day /\ (exists s x, e_schedule e = Some s /\ seconds from < x <= seconds upto /\ x mod day = close s) \/
  st_time_in_force st = Gtd /\ exists t, expiry_instant (st_expire_date st) = Ok t /\ t <= seconds upto.

(** One Expired report per order, to its own connection. *)
Definition expired_reports e (due : list string) (rs : list (R * Report)) : Prop :=
  Forall2 (fun id x => exists st ts, e_states e !! id = Some st /\ x.1 = output_tx st /\
    report_on (I := I) id (e_symbol e) (Some st) (finish_event true id) ts x.2) due rs.

(** ** Instants *)

Lemma time_leb_whole s at_ : 0 <= nanos at_ -> time_leb (mkTime s 0) at_ = (s <=? seconds at_).
Proof. intros Hn. unfold time_leb, time_ltb. simpl. repeat compare_step; done. Qed.

Lemma is_due_spec at_ over (st : OrderState R) :
  0 <= nanos at_ ->
  is_due at_ over st = (over && bool_decide (st_time_in_force st = Day)) ||
    match gtd_expiry st with Some t => t <=? seconds at_ | None => false end.
Proof.
  intros Hn. unfold is_due, gtd_expiry. f_equal. destruct (bool_decide (st_time_in_force st = Gtd)); [|done]. simpl.
  destruct (expiry_instant (st_expire_date st)); simpl; [by apply time_leb_whole|done].
Qed.

Lemma next_boundary_plain s after :
  valid_schedule s -> is_full s = false -> next_boundary s after = Done (occurrence after (close s), BClose).
Proof. destruct s as [[] [] [] c]; unfold valid_schedule; simpl; intros [? ?]; done. Qed.

Lemma closes_split e from mid upto :
  plain e -> from < mid <= upto -> closes e from upto = closes e from mid || closes e mid upto.
Proof.
  intros Hp Hm. unfold closes. pose proof (pl_schedule _ Hp) as Hs. destruct (e_schedule e) as [s|]; [|done].
  destruct Hs as [[Hc _] _]. destruct (occurrence_spec from (close s) Hc) as (H1 & H2 & H3), (occurrence_spec mid (close s) Hc) as (H4 & H5 & H6).
  specialize (H3 (occurrence mid (close s)) ltac:(lia) H5).
  destruct (Z.leb_spec (occurrence from (close s)) mid); cbn [orb]; [apply Z.leb_le; lia|].
  specialize (H6 (occurrence from (close s)) ltac:(lia) H2). repeat compare_step; done.
Qed.

Lemma closes_upto e from upto : plain e -> upto <= from -> closes e from upto = false.
Proof.
  intros Hp Hm. unfold closes. pose proof (pl_schedule _ Hp) as Hs. destruct (e_schedule e) as [s|]; [|done].
  destruct Hs as [[Hc _] _]. destruct (occurrence_spec from (close s) Hc) as (H1 & _). apply Z.leb_gt. lia.
Qed.

(** The next date on which an order expires. *)
Lemma next_expiry_spec cursor e :
  0 <= nanos cursor -> dated cursor e ->
  match next_expiry cursor e with
  | Some s => seconds cursor < s /\ forall id st t, e_states e !! id = Some st -> gtd_expiry st = Some t -> s <= t
  | None => forall id st, e_states e !! id = Some st -> gtd_expiry st = None
  end.
Proof.
  intros Hn Hd. unfold next_expiry. set (l := List.filter _ _).
  assert (forall t, t ∈ l <-> exists id st, e_states e !! id = Some st /\ gtd_expiry st = Some t) as Hl.
  { intros t. unfold l. rewrite list_elem_of_In, filter_In, <- list_elem_of_In, list_elem_of_omap. split.
    - intros [([id st] & Hx & Ht) _]. apply elem_of_map_to_list in Hx. by exists id, st.
    - intros (id & st & Hs & Ht). split; [exists (id, st); split; [by apply elem_of_map_to_list|done]|].
      specialize (Hd id st t Hs Ht). unfold time_ltb. simpl. by compare_step. }
  destruct l as [|x l'] eqn:E.
  - intros id st Hs. destruct (gtd_expiry st) as [t|] eqn:Ht; [|done]. exfalso. apply (not_elem_of_nil t), Hl. eauto.
  - destruct (minimum_spec (fun z : Z => z) (x :: l')) as (v & Hv & (a & Ha & <-) & Hmin); [done|].
    rewrite list_fmap_id in Hv. rewrite Hv. split.
    + apply Hl in Ha as (id & st & Hs & Ht). by apply (Hd id st).
    + intros id st t Hs Ht. apply Hmin, Hl. eauto.
Qed.

(** ** One pass *)

Lemma removed_trans test1 test2 test e e1 e2 :
  removed test1 e e1 -> removed test2 e1 e2 -> (forall id st, e_states e !! id = Some st -> test st = test1 st || test2 st) ->
  removed test e e2.
Proof.
  intros [S1 F1] [S2 F2] Ht. split; intros id.
  - rewrite S2, S1. destruct (e_states e !! id) as [st|] eqn:Hs; [|done]. rewrite (Ht id st Hs). by destruct (test1 st).
  - rewrite F2, F1, S1. destruct (e_states e !! id) as [st|] eqn:Hs; [|done]. rewrite (Ht id st Hs). by destruct (test1 st).
Qed.

Lemma removed_none test e : coherent e -> (forall id st, e_states e !! id = Some st -> test st = false) -> removed test e e.
Proof.
  intros Hco Ht. split; intros id.
  - destruct (e_states e !! id) as [st|] eqn:Hs; [by rewrite (Ht id st Hs)|done].
  - pose proof (co_states _ Hco id) as Hat. unfold coherent_at in Hat. destruct (e_states e !! id) as [st|] eqn:Hs; [by rewrite (Ht id st Hs)|done].
Qed.

(** [expire]: exactly the orders that are due. *)
Lemma expire_exact at_ over e :
  coherent e ->
  exists e' rs, expire at_ over e = Done e' /\ coherent e' /\ same_session e e' /\ removed (is_due at_ over) e e' /\
    reports (e_outputs e') = reports (e_outputs e) ++ rs /\
    expired_reports e (due_orders (fun _ st => is_due at_ over st) e) rs.
Proof.
  intros Hco. unfold expire. rewrite finish_orders_close. cbn [negb].
  destruct (close_due_ok (fun _ st => is_due at_ over st) false (finish_event true) (timestamp_of at_) e Hco)
    as (e' & rs & Hc & Hco' & Hses & Hs & Hf & Hr & Hcl).
  exists e', rs. split_and!; [done..|by split|done|]. eapply Forall2_impl; [exact Hcl|]. intros id x (st & H1 & H2 & H3). eauto.
Qed.

Lemma plain_session e e' : plain e -> same_session e e' -> plain e'.
Proof. intros [H1 H2 H3] (_ & _ & Hs & Hp & _ & Hc & _). split; by rewrite ?Hc, ?Hs, ?Hp. Qed.

Lemma closes_session e e' from upto : same_session e e' -> closes e' from upto = closes e from upto.
Proof. intros (_ & _ & Hs & _). unfold closes. by rewrite Hs. Qed.

(** One pass of the loop: nothing is due until the clock's time, or the engine
    expires what the next instant ends and goes on from there. *)
Inductive passed fuel (cursor : Time) e : outcome (Engine R I) -> Prop :=
| pass_idle : (forall id st, e_states e !! id = Some st -> lapses e cursor (e_clock e) st = false) -> passed fuel cursor e (Done e)
| pass_expire s e1 :
    seconds cursor < s <= seconds (e_clock e) -> expire (mkTime s 0) (closes e (seconds cursor) s) e = Done e1 ->
    passed fuel cursor e (advance_loop fuel (mkTime s 0) e1).

(** The next boundary is the next close. *)
Lemma scheduled_plain cursor e :
  plain e ->
  exists sched,
    (match e_schedule e with None => Done None | Some s => let* b := next_boundary s (seconds cursor) in Done (Some b) end) = Done sched /\
    match sched with
    | Some (t, k) => k = BClose /\ seconds cursor < t /\ forall u, closes e (seconds cursor) u = (t <=? u)
    | None => forall u, closes e (seconds cursor) u = false
    end.
Proof.
  intros Hp. pose proof (pl_schedule _ Hp) as Hs. unfold closes. destruct (e_schedule e) as [s|]; [|by eexists].
  destruct Hs as [Hv Hf]. rewrite next_boundary_plain by done. eexists. split; [done|]. split; [done|].
  destruct (occurrence_spec (seconds cursor) (close s) (proj1 Hv)) as (? & _). split; [lia|done].
Qed.

(** Nothing lapses before the next boundary and the next expiry. *)
Lemma nothing_lapses cursor e (sched : option Z) :
  0 <= nanos (e_clock e) -> 0 <= nanos cursor -> dated cursor e ->
  (forall u, closes e (seconds cursor) u = match sched with Some t => t <=? u | None => false end) ->
  (forall t, t ∈ option_list sched ++ option_list (next_expiry cursor e) -> seconds (e_clock e) < t) ->
  forall id st, e_states e !! id = Some st -> lapses e cursor (e_clock e) st = false.
Proof.
  intros Hnc Hn Hd Hcl Hall id st Hst. unfold lapses. rewrite is_due_spec by done. apply orb_false_iff. split.
  - apply andb_false_iff. left. rewrite Hcl. destruct sched as [t|]; [|done]. apply Z.leb_gt, Hall. left.
  - destruct (gtd_expiry st) as [t|] eqn:Ht; [|done]. pose proof (next_expiry_spec cursor e Hn Hd) as Hexp.
    destruct (next_expiry cursor e) as [y|]; [|by rewrite (Hexp id st Hst) in Ht]. destruct Hexp as [_ He].
    specialize (He id st t Hst Ht). specialize (Hall y ltac:(apply elem_of_app; right; left)). apply Z.leb_gt. lia.
Qed.

Lemma minimumZ_Some l v : minimumZ l = Some v -> v ∈ l /\ forall x, x ∈ l -> v <= x.
Proof.
  intros H. assert (l <> []) as Hne by (intros ->; done). destruct (minimum_spec (fun z : Z => z) l Hne) as (w & Hw & (a & Ha & Haw) & Hle).
  rewrite list_fmap_id, H in Hw. injection Hw as <-. subst a. done.
Qed.

Lemma advance_pass fuel cursor e :
  coherent e -> plain e -> 0 <= nanos cursor -> 0 <= nanos (e_clock e) -> dated cursor e -> time_ltb cursor (e_clock e) = true ->
  passed fuel cursor e (advance_loop (S fuel) cursor e).
Proof.
  intros Hco Hp Hn Hnc Hd Hlt. cbn [advance_loop]. rewrite Hlt. cbn [negb]. rewrite (pl_call _ Hp). simpl option_list at 3. rewrite app_nil_r.
  destruct (scheduled_plain cursor e Hp) as (sched & -> & Hsched). cbn [obind].
  assert (match e_schedule e with Some sc => is_full sc | None => false end = false) as ->
    by (pose proof (pl_schedule _ Hp); destruct (e_schedule e); naive_solver).
  assert (forall u, closes e (seconds cursor) u = match fst <$> sched with Some t => t <=? u | None => false end) as Hcl
    by (destruct sched as [[t k]|]; simpl; [by destruct Hsched as (_ & _ & ?)|done]).
  pose proof (nothing_lapses cursor e (fst <$> sched) Hnc Hn Hd Hcl) as Hidle. pose proof (next_expiry_spec cursor e Hn Hd) as Hexp.
  set (x := next_expiry cursor e) in *. clearbody x. cbn [negb andb].
  destruct (minimumZ (option_list (fst <$> sched) ++ option_list x)) as [s|] eqn:Hmin; cycle 1.
  { apply pass_idle, Hidle. intros t Ht. destruct (option_list (fst <$> sched) ++ option_list x); [by apply not_elem_of_nil in Ht|done]. }
  apply minimumZ_Some in Hmin as [Hin Hle].
  assert (seconds cursor < s) as Hgt.
  { apply elem_of_app in Hin as [Ha|Ha].
    - destruct sched as [[t k]|]; [|by apply not_elem_of_nil in Ha]. apply list_elem_of_singleton in Ha as ->. by destruct Hsched as (_ & ? & _).
    - destruct x as [t|]; [|by apply not_elem_of_nil in Ha]. apply list_elem_of_singleton in Ha as ->. by apply Hexp. }
  pose proof (time_leb_whole s (e_clock e) Hnc) as Hw. unfold time_leb in Hw.
  destruct (time_ltb (e_clock e) (mkTime s 0)); cbn [negb] in Hw; symmetry in Hw.
  { apply Z.leb_gt in Hw. apply pass_idle, Hidle. intros t Ht. specialize (Hle t Ht). lia. }
  apply Z.leb_le in Hw. set (boundary := match sched with Some (t, k) => if t =? s then Some k else None | None => None end).
  assert (bool_decide (boundary = Some BClose) = closes e (seconds cursor) s) as ->.
  { unfold boundary. rewrite Hcl. destruct sched as [[t k]|]; simpl; [|done]. destruct Hsched as (-> & _).
    specialize (Hle t ltac:(left)). destruct (Z.eqb_spec t s), (Z.leb_spec t s); simpl; try lia; done. }
  destruct (expire_exact (mkTime s 0) (closes e (seconds cursor) s) e Hco) as (e1 & rs & Hrun & Hco1 & Hses & _).
  rewrite Hrun. cbn [obind]. rewrite bool_decide_false by done.
  assert ((match boundary with Some _ | _ => Done e1 end) = Done e1) as -> by (by destruct boundary). cbn [obind].
  unfold publish_indicative. rewrite (pl_phase _ (plain_session _ _ Hp Hses)). cbn [negb obind]. by apply pass_expire.
Qed.

(** ** The loop *)

(** What [advance] does to an engine on its way from [cursor]. *)
Definition expired_until (cursor : Time) e e' : Prop :=
  coherent e' /\ same_session e e' /\ removed (lapses e cursor (e_clock e)) e e' /\
  exists due rs, reports (e_outputs e') = reports (e_outputs e) ++ rs /\ NoDup due /\
    (forall id, id ∈ due <-> exists st, e_states e !! id = Some st /\ lapses e cursor (e_clock e) st = true) /\
    expired_reports e due rs.

Lemma expired_until_refl cursor e :
  coherent e -> (forall id st, e_states e !! id = Some st -> lapses e cursor (e_clock e) st = false) -> expired_until cursor e e.
Proof.
  intros Hco Hn. split_and!; [done|done|by apply removed_none|]. exists [], []. rewrite app_nil_r. split_and!; [done|constructor| |constructor].
  intros id. split; [intros H; by apply not_elem_of_nil in H|]. intros (st & Hs & Ht). by rewrite (Hn id st Hs) in Ht.
Qed.

Lemma lapses_split e cursor s st t :
  plain e -> 0 <= nanos (e_clock e) -> seconds cursor < s <= seconds (e_clock e) -> t = mkTime s 0 ->
  lapses e cursor (e_clock e) st = is_due t (closes e (seconds cursor) s) st || lapses e t (e_clock e) st.
Proof.
  intros Hp Hn Hs ->. unfold lapses. rewrite !is_due_spec by (simpl; lia). simpl. rewrite (closes_split e _ s) by done.
  destruct (gtd_expiry st) as [x|]; [|by rewrite !orb_false_r; destruct (closes e _ s), (closes e s _), (bool_decide (st_time_in_force st = Day))].
  destruct (Z.leb_spec x s).
  - assert ((x <=? seconds (e_clock e)) = true) as -> by (apply Z.leb_le; lia). by rewrite !orb_true_r.
  - by destruct (closes e _ s), (closes e s _), (bool_decide (st_time_in_force st = Day)), (x <=? seconds (e_clock e)).
Qed.

Lemma expired_until_trans cursor s e e1 e2 rs :
  plain e -> 0 <= nanos (e_clock e) -> seconds cursor < s <= seconds (e_clock e) ->
  let due := due_orders (fun _ st => is_due (mkTime s 0) (closes e (seconds cursor) s) st) e in
  same_session e e1 -> removed (is_due (mkTime s 0) (closes e (seconds cursor) s)) e e1 ->
  reports (e_outputs e1) = reports (e_outputs e) ++ rs -> expired_reports e due rs ->
  expired_until (mkTime s 0) e1 e2 -> expired_until cursor e e2.
Proof.
  intros Hp Hn Hs due Hses Hrm Hr Hx (Hco2 & Hses2 & Hrm2 & due2 & rs2 & Hr2 & Hnd2 & Hin2 & Hx2).
  assert (e_clock e1 = e_clock e /\ e_symbol e1 = e_symbol e) as [Hck Hsy] by (split; apply Hses).
  assert (forall st, lapses e1 (mkTime s 0) (e_clock e1) st = lapses e (mkTime s 0) (e_clock e) st) as Hl.
  { intros st. unfold lapses. by rewrite (closes_session _ _ _ _ Hses), Hck. }
  assert (forall id, id ∈ due <-> exists st, e_states e !! id = Some st /\ is_due (mkTime s 0) (closes e (seconds cursor) s) st = true) as Hin
    by (intros id; exact (elem_of_due_orders (fun _ st => is_due (mkTime s 0) (closes e (seconds cursor) s) st) e id)).
  split_and!; [done| | |].
  - by eapply same_session_trans.
  - eapply removed_trans; [exact Hrm|exact Hrm2|]. intros id st _. rewrite Hl. by apply lapses_split.
  - exists (due ++ due2), (rs ++ rs2). split_and!.
    + by rewrite Hr2, Hr, app_assoc.
    + apply NoDup_app. split_and!; [apply NoDup_due_orders| |done]. intros id H1 H2.
      apply Hin in H1 as (st & Hst & Hdue). apply Hin2 in H2 as (st' & Hst' & _). rewrite (rm_states _ _ _ Hrm), Hst, Hdue in Hst'. done.
    + intros id. rewrite elem_of_app, Hin, Hin2. split.
      * intros [(st & Hst & Hd)|(st & Hst & Hd)].
        -- exists st. split; [done|]. rewrite (lapses_split e cursor s st _ Hp Hn Hs eq_refl), Hd. done.
        -- rewrite (rm_states _ _ _ Hrm) in Hst. destruct (e_states e !! id) as [st'|] eqn:Hst'; [|done].
           destruct (is_due _ _ st'); [done|]. injection Hst as ->. exists st. split; [done|].
           rewrite (lapses_split e cursor s st _ Hp Hn Hs eq_refl), <- Hl, Hd. apply orb_true_r.
      * intros (st & Hst & Hd). rewrite (lapses_split e cursor s st _ Hp Hn Hs eq_refl) in Hd.
        destruct (is_due (mkTime s 0) (closes e (seconds cursor) s) st) eqn:Hdue; [left; eauto|right].
        exists st. rewrite (rm_states _ _ _ Hrm), Hst, Hdue, Hl. done.
    + apply Forall2_app; [done|]. eapply Forall2_impl; [exact Hx2|]. intros id x (st & ts & H1 & H2 & H3). exists st, ts.
      rewrite Hsy in H3. split_and!; [|done|done]. rewrite (rm_states _ _ _ Hrm) in H1. destruct (e_states e !! id) as [st'|]; [|done]. by destruct (is_due _ _ st').
Qed.

Lemma dated_expired s over e e1 :
  removed (is_due (mkTime s 0) over) e e1 -> dated (mkTime s 0) e1.
Proof.
  intros Hrm id st t Hst Ht. rewrite (rm_states _ _ _ Hrm) in Hst. destruct (e_states e !! id) as [st'|]; [|done].
  destruct (is_due (mkTime s 0) over st') eqn:Hdue; [done|]. injection Hst as ->. rewrite is_due_spec in Hdue by (simpl; lia).
  rewrite Ht in Hdue. apply orb_false_iff in Hdue as [_ Hdue]. apply Z.leb_gt in Hdue. done.
Qed.

Lemma advance_loop_plain fuel : forall cursor e,
  coherent e -> plain e -> 0 <= nanos cursor -> 0 <= nanos (e_clock e) -> dated cursor e ->
  (Z.to_nat (seconds (e_clock e) - seconds cursor) < fuel)%nat ->
  exists e', advance_loop fuel cursor e = Done e' /\ expired_until cursor e e'.
Proof.
  induction fuel as [|fuel IH]; intros cursor e Hco Hp Hn Hnc Hd Hf; [lia|].
  destruct (time_ltb cursor (e_clock e)) eqn:Hlt; cycle 1.
  { exists e. split; [cbn [advance_loop]; by rewrite Hlt|]. apply expired_until_refl; [done|]. intros id st Hst.
    assert (seconds (e_clock e) <= seconds cursor) as Hle.
    { unfold time_ltb in Hlt. apply orb_false_iff in Hlt as [Hlt _]. by apply Z.ltb_ge in Hlt. }
    unfold lapses. rewrite is_due_spec, closes_upto by done. simpl. destruct (gtd_expiry st) as [t|] eqn:Ht; [|done].
    specialize (Hd id st t Hst Ht). apply Z.leb_gt. lia. }
  destruct (advance_pass fuel cursor e Hco Hp Hn Hnc Hd Hlt) as [Hidle|s e1 Hs Hrun].
  - exists e. split; [done|]. by apply expired_until_refl.
  - destruct (expire_exact (mkTime s 0) (closes e (seconds cursor) s) e Hco) as (e1' & rs & Hrun' & Hco1 & Hses & Hrm & Hr & Hx).
    rewrite Hrun in Hrun'. injection Hrun' as <-. assert (e_clock e1 = e_clock e) as Hck by apply Hses.
    destruct (IH (mkTime s 0) e1) as (e2 & Hrun2 & H2); [done|by eapply plain_session|simpl; lia|by rewrite Hck|by eapply dated_expired|rewrite Hck; simpl; lia|].
    exists e2. split; [done|]. by eapply expired_until_trans.
Qed.

(** ** The tick *)

Lemma fresh_same e : same_session e (fresh e) /\ (forall id, found (fresh e) id = found e id) /\ e_states (fresh e) = e_states e.
Proof. done. Qed.

Lemma coherent_fresh e : coherent e -> coherent (fresh e).
Proof. intros Hco. by apply (coherent_ext e). Qed.

Lemma expired_dated cursor e e' at_ :
  0 <= nanos (e_clock e) -> dated cursor e -> removed (lapses e cursor (e_clock e)) e e' ->
  at_ = cursor \/ at_ = e_clock e -> dated at_ e'.
Proof.
  intros Hn Hd Hrm Hat id st t Hst Ht. rewrite (rm_states _ _ _ Hrm) in Hst. destruct (e_states e !! id) as [st'|] eqn:Hst'; [|done].
  destruct (lapses e cursor (e_clock e) st') eqn:Hl; [done|]. injection Hst as ->.
  destruct Hat as [-> | ->]; [by apply (Hd id st)|]. unfold lapses in Hl. rewrite is_due_spec, Ht in Hl by done.
  apply orb_false_iff in Hl as [_ Hl]. by apply Z.leb_gt in Hl.
Qed.

Lemma dated_forallb at_ e :
  forallb (fun x => match gtd_expiry x.2 with Some t => seconds at_ <? t | None => true end) (map_to_list (e_states e)) = true -> dated at_ e.
Proof.
  intros Hall id st t Hst Ht. rewrite forallb_forall in Hall. specialize (Hall (id, st)).
  rewrite <- list_elem_of_In, elem_of_map_to_list in Hall. specialize (Hall Hst). cbn [snd] in Hall. rewrite Ht in Hall.
  by apply Z.ltb_lt in Hall.
Qed.

Lemma lapses_lapsed e from upto st : plain e -> 0 <= nanos upto -> lapses e from upto st = true <-> lapsed e from upto st.
Proof.
  intros Hp Hn. unfold lapses, lapsed. rewrite is_due_spec, orb_true_iff, andb_true_iff, bool_decide_eq_true by done.
  assert (closes e (seconds from) (seconds upto) = true <-> exists s x, e_schedule e = Some s /\ seconds from < x <= seconds upto /\ x mod day = close s) as ->.
  { unfold closes. pose proof (pl_schedule _ Hp) as Hs. destruct (e_schedule e) as [s|]; [|naive_solver]. destruct Hs as [[Hc _] _].
    destruct (occurrence_spec (seconds from) (close s) Hc) as (H1 & H2 & H3). rewrite Z.leb_le. split.
    - intros Hle. exists s, (occurrence (seconds from) (close s)). split_and!; [done|lia|lia|done].
    - intros (s' & x & [= <-] & Hx & Hm). specialize (H3 x ltac:(lia) Hm). lia. }
  assert (match gtd_expiry st with Some t => t <=? seconds upto | None => false end = true <->
    st_time_in_force st = Gtd /\ exists t, expiry_instant (st_expire_date st) = Ok t /\ t <= seconds upto) as ->; [|tauto].
  unfold gtd_expiry. case_bool_decide; [|naive_solver]. destruct (expiry_instant (st_expire_date st)); simpl; [|naive_solver].
  rewrite Z.leb_le. naive_solver.
Qed.

Lemma tick_plain e :
  coherent e -> plain e -> 0 <= nanos (e_last_seen e) -> 0 <= nanos (e_clock e) -> dated (e_last_seen e) e ->
  exists e', tick e = Done e' /\ coherent e' /\ dated (e_last_seen e') e' /\
    removed (lapses e (e_last_seen e) (e_clock e)) e e' /\
    exists due, NoDup due /\
      (forall id, id ∈ due <-> exists st, e_states e !! id = Some st /\ lapses e (e_last_seen e) (e_clock e) st = true) /\
      expired_reports e due (reports (e_outputs e')).
Proof.
  intros Hco Hp Hn Hnc Hd. unfold tick, advance. pose proof (coherent_fresh e Hco) as Hco0.
  destruct (advance_loop_plain (S (advance_fuel (fresh e))) (e_last_seen e) (fresh e)) as (e1 & Hrun & Hco1 & Hses & Hrm & due & rs & Hr & Hnd & Hin & Hx);
    [done|by destruct Hp|done..|unfold advance_fuel; simpl; lia|].
  change (e_last_seen (fresh e)) with (e_last_seen e). rewrite Hrun. cbn [obind].
  set (e2 := if time_ltb (e_last_seen e1) (e_clock e1) then _ else e1).
  assert (e_last_seen e1 = e_last_seen e /\ e_clock e1 = e_clock e) as [Hls Hck] by (split; apply Hses).
  assert (e_last_seen e2 = e_last_seen e \/ e_last_seen e2 = e_clock e) as Hseen.
  { unfold e2. destruct (time_ltb (e_last_seen e1) (e_clock e1)); simpl; [right|left]; congruence. }
  assert (forall id, found e2 id = found e1 id) as Hf2 by (intros id; unfold e2; by destruct (time_ltb _ _)).
  assert (e_states e2 = e_states e1) as Hs2 by (unfold e2; by destruct (time_ltb _ _)).
  assert (coherent e2) as Hco2 by (unfold e2; destruct (time_ltb _ _); [by apply (coherent_ext e1)|done]).
  assert (removed (lapses e (e_last_seen e) (e_clock e)) e e2) as Hrm2.
  { split; intros id; [rewrite Hs2; apply (rm_states _ _ _ Hrm)|rewrite Hf2; apply (rm_found _ _ _ Hrm)]. }
  pose proof (remember_unmoved (outputs (e_desk e2)) e2) as Hu. eexists. split; [done|]. set (e3 := remember_status _ e2) in *. split_and!.
  - by eapply coherent_unmoved.
  - destruct (um_session _ _ Hu) as (_ & _ & _ & _ & _ & _ & ->). eapply (expired_dated (e_last_seen e) e); [done|done|by eapply removed_unmoved|done].
  - by eapply removed_unmoved.
  - exists due. split_and!; [done|done|]. rewrite (um_reports _ _ Hu).
    assert (reports (e_outputs e2) = rs) as ->; [|done]. assert (e_outputs e2 = e_outputs e1) as -> by (unfold e2; by destruct (time_ltb _ _)).
    by rewrite Hr.
Qed.

(** C16: Bringing an engine up to its clock when no auction is scheduled or
    called, and no live order was past its date when it was last seen: it always
    returns and keeps the engine coherent, however long it was idle. Exactly the
    Day orders, if a close of the schedule has passed in between, and the
    good-till-date orders whose date has passed are removed from every place
    they may wait in, each with one Expired report to its own connection; every
    other order and state is as it was, and afterwards no live order is past its
    date. *)
Theorem tick_expires e :
  coherent e -> plain e -> 0 <= nanos (e_last_seen e) -> 0 <= nanos (e_clock e) -> dated (e_last_seen e) e ->
  exists e' gone, tick e = Done e' /\ coherent e' /\ dated (e_last_seen e') e' /\ NoDup gone /\
    (forall id, id ∈ gone <-> exists st, e_states e !! id = Some st /\ lapsed e (e_last_seen e) (e_clock e) st) /\
    (forall id, id ∈ gone -> e_states e' !! id = None /\ found e' id = []) /\
    (forall id, id ∉ gone -> e_states e' !! id = e_states e !! id /\ found e' id = found e id) /\
    expired_reports e gone (reports (e_outputs e')).
Proof.
  intros Hco Hp Hn Hnc Hd. destruct (tick_plain e Hco Hp Hn Hnc Hd) as (e' & Hrun & Hco' & Hd' & Hrm & gone & Hnd & Hin & Hx).
  exists e', gone. split_and!; [done..| | | |done].
  - intros id. rewrite Hin. split; intros (st & Hst & Hl); exists st; (split; [done|]); by apply (lapses_lapsed e (e_last_seen e) (e_clock e) st Hp Hnc).
  - intros id Hg. by apply (removed_gone _ e _ id Hrm), Hin.
  - intros id Hg. apply (removed_kept _ e _ id Hco Hrm). intros Hl. by apply Hg, Hin.
Qed.
End clock.

(** ** Witness *)

Lemma tick_expires_witness :
  exists e' gone, tick stop_engine = Done e' /\ coherent e' /\ "t1"%string ∈ gone /\ e_states e' !! "t1"%string = None /\
    expired_reports stop_engine gone (reports (e_outputs e')).
Proof.
  destruct (tick_expires stop_engine) as (e' & gone & Hrun & Hco & _ & _ & Hin & Hg & _ & Hx).
  - apply stop_engine_ok.
  - split; vm_compute; [reflexivity|repeat split; congruence|reflexivity].
  - vm_compute. congruence.
  - vm_compute. congruence.
  - apply dated_forallb. vm_compute. reflexivity.
  - assert ("t1"%string ∈ gone) as Ht.
    { apply Hin. exists (sample_state (with_date Day "" stop_near) 16 3). split; [vm_compute; reflexivity|]. apply lapses_lapsed.
      - split; vm_compute; [reflexivity|repeat split; congruence|reflexivity].
      - vm_compute. congruence.
      - vm_compute. reflexivity. }
    exists e', gone. split_and!; [exact Hrun|exact Hco|exact Ht|apply (Hg _ Ht)|exact Hx].
Defined.
