(* ===== verification/EngineRun.v ===== *)
(** * Any sequence of inputs

    The clock catches up, the requests are handled: from a healthy engine every
    input of the journal's format returns and leaves a healthy engine, whatever
    the schedule, the phase and the time that has passed. The only request left
    out is a replacement that takes a partly filled order off the book to hold it
    for the close. *)

From S2P Require Import Prelude BTree Text Order OrderBook BookInvariant BookEffects Matcher MatchOrders Stops Executions Cascade Session SymbolConfig.
From S2P Require Import Auction AuctionPrice Proto Reports ExecutionReports EventLog Engine EngineInv EngineMatch EngineSamples EngineOps EngineEntry EngineReplace.
From S2P Require Import EngineAuction EngineSession EngineClock WireSamples Canonical Digest Trace Recording Journal JournalRecovery.

(** ** Definitions *)

Section run.
Context {R I : Type} `{!ExecIds I}.
Implicit Types (e : Engine R I).

(** An engine between two inputs. *)
Record healthy e : Prop := {
  hy_coherent : coherent e;
  hy_schedule : match e_schedule e with Some s => valid_schedule s | None => True end;
  hy_seen : 0 <= nanos (e_last_seen e);
}.

(** What the clock leaves alone; an operator's call may end. *)
Definition caught_up e e' : Prop :=
  e_symbol e' = e_symbol e /\ e_clock e' = e_clock e /\ e_schedule e' = e_schedule e /\ e_last_seen e' = e_last_seen e.

(** ** The clock *)

(** The passes left when the cursor is at [from]. *)
Definition passes (from : Z) e : nat :=
  match e_call_until e with
  | Some u => S (Z.to_nat (seconds (e_clock e) - Z.min from (seconds u)))
  | None => Z.to_nat (seconds (e_clock e) - from)
  end.

Lemma caught_up_trans e1 e2 e3 : caught_up e1 e2 -> caught_up e2 e3 -> caught_up e1 e3.
Proof. intros (? & ? & ? & ?) (? & ? & ? & ?). unfold caught_up. split_and!; congruence. Qed.

Lemma same_timers_caught e e' : same_timers e e' -> caught_up e e'.
Proof. by intros (? & ? & ? & ? & ?). Qed.

Lemma few_shrinks e e' : few e -> shrinks e e' -> few e'.
Proof. intros Hf Hs%shrinks_size. unfold few in *. lia. Qed.

(** The next instant: after the cursor, or the end of the operator's call. *)
Lemma next_instant cursor e (sched : option (Z * Boundary)) s :
  0 <= nanos cursor -> (forall t k, sched = Some (t, k) -> seconds cursor < t) ->
  minimumZ (option_list (fst <$> sched) ++ option_list (next_expiry cursor e) ++ option_list (seconds <$> e_call_until e)) = Some s ->
  (seconds cursor < s \/ seconds <$> e_call_until e = Some s) /\ forall u, e_call_until e = Some u -> s <= seconds u.
Proof.
  intros Hn Hs H. apply minimumZ_Some in H as [Hin Hle]. split; [|intros u Hu; apply Hle; rewrite Hu; set_solver].
  rewrite !elem_of_app in Hin. destruct Hin as [Hin|[Hin|Hin]].
  - left. destruct sched as [[t k]|]; [|set_solver]. apply list_elem_of_singleton in Hin as ->. by apply (Hs t k).
  - left. unfold next_expiry in Hin. destruct (minimumZ _) as [v|] eqn:Hv; [|set_solver]. apply list_elem_of_singleton in Hin as ->.
    apply minimumZ_Some in Hv as [Hv _]. rewrite list_elem_of_In, filter_In in Hv. destruct Hv as [_ Hv]. unfold time_ltb in Hv. simpl in Hv.
    apply orb_true_iff in Hv as [Hv|Hv]; [by apply Z.ltb_lt in Hv|]. apply andb_true_iff in Hv as [_ Hv]. apply Z.ltb_lt in Hv. lia.
  - right. destruct (seconds <$> e_call_until e) as [u|]; [|set_solver]. by apply list_elem_of_singleton in Hin as ->.
Qed.

Lemma scheduled_done cursor e :
  match e_schedule e with Some s => valid_schedule s | None => True end ->
  exists sched, (match e_schedule e with None => Done None | Some s => let* b := next_boundary s (seconds cursor) in Done (Some b) end) = Done sched /\
    forall t k, sched = Some (t, k) -> seconds cursor < t.
Proof.
  destruct (e_schedule e) as [s|]; intros Hv; [|by eexists].
  destruct (next_boundary_spec s (seconds cursor) (valid_boundaries s Hv)) as (at_ & kind & -> & Hat & _). cbn [obind]. eexists. split; [done|].
  intros t k [= <- _]. lia.
Qed.

(** What one pass does at its instant: the boundary that is due there, if any. *)
Lemma boundary_coherent kind at_ (due : bool) e :
  coherent e -> few e ->
  exists e', (match kind with Some k => if due then session_boundary k at_ e else Done e | None => Done e end) = Done e' /\
    coherent e' /\ shrinks e e' /\ same_timers e e'.
Proof.
  intros Hco Hfew. pose proof (shrinks_refl e). destruct kind as [k|]; [|by exists e]. destruct due; [|by exists e]. by apply session_boundary_coherent.
Qed.

Lemma advance_loop_coherent fuel : forall cursor e,
  coherent e -> few e -> match e_schedule e with Some s => valid_schedule s | None => True end ->
  0 <= nanos cursor -> 0 <= nanos (e_clock e) -> (passes (seconds cursor) e < fuel)%nat ->
  exists e', advance_loop fuel cursor e = Done e' /\ coherent e' /\ shrinks e e' /\ caught_up e e'.
Proof.
  induction fuel as [|fuel IH]; intros cursor e Hco Hfew Hsch Hn Hnc Hf; [lia|]. cbn [advance_loop]. pose proof (shrinks_refl e).
  destruct (negb (time_ltb cursor (e_clock e))) eqn:Hlt; [by exists e|].
  destruct (scheduled_done cursor e Hsch) as (sched & -> & Hs). cbn [obind].
  destruct (minimumZ _) as [s|] eqn:Hmin; [|by exists e]. apply next_instant in Hmin as [Hinst Hu]; [|done..].
  pose proof (time_leb_whole s (e_clock e) Hnc) as Hw. unfold time_leb in Hw.
  destruct (time_ltb (e_clock e) (mkTime s 0)); [by exists e|]. cbn [negb] in Hw. symmetry in Hw. apply Z.leb_le in Hw.
  set (boundary := match sched with Some (t, k) => if t =? s then Some k else None | None => None end).
  set (full := match e_schedule e with Some sc => is_full sc | None => false end).
  destruct (expire_coherent (mkTime s 0) (negb full && bool_decide (boundary = Some BClose)) e Hco) as (e1 & -> & Hco1 & Hs1 & Hcl1). cbn [obind].
  pose proof (few_shrinks _ _ Hfew Hs1) as Hfew1. apply same_clock_timers in Hcl1 as (S1 & S2 & S3 & S4 & S5).
  assert (exists e2, (if bool_decide (seconds <$> e_call_until e = Some s)
      then session_boundary BOpen (mkTime s 0) (set_timers (e_clock e1) None (e_last_seen e1) (e_next_arrival e1) e1)
      else match boundary with Some k => if full then session_boundary k (mkTime s 0) e1 else Done e1 | None => Done e1 end) = Done e2 /\
    coherent e2 /\ shrinks e1 e2 /\ caught_up e1 e2 /\ (passes s e2 < fuel)%nat) as (e2 & -> & Hco2 & Hs2 & Hcl2 & Hf2).
  { unfold passes in *. case_bool_decide as Hop.
    - destruct (session_boundary_coherent BOpen (mkTime s 0) (set_timers (e_clock e1) None (e_last_seen e1) (e_next_arrival e1) e1)) as (e2 & Hr & Hc & Hsh & T1 & T2 & T3 & T4 & T5);
        [by apply (coherent_ext e1)|done|].
      exists e2. simpl in *. split_and!; [done|done|done|done|]. rewrite T4, T2, S2. simpl.
      destruct (e_call_until e) as [u|]; [|done]. injection Hop as <-. lia.
    - destruct (boundary_coherent boundary (mkTime s 0) full e1 Hco1 Hfew1) as (e2 & Hr & Hc & Hsh & T1 & T2 & T3 & T4 & T5).
      exists e2. split_and!; [done|done|done|done|]. rewrite T4, T2, S4, S2. destruct Hinst as [Hgt|]; [|done].
      destruct (e_call_until e) as [u|]; [|lia]. specialize (Hu u eq_refl). assert (s <> seconds u) by (intros ->; done). lia. }
  cbn [obind]. assert (caught_up e e2) as Hc02 by (eapply caught_up_trans; [|exact Hcl2]; done).
  destruct (publish_ok (mkTime s 0) e2 Hco2) as (e3 & -> & Hum); [exact (few_shrinks _ _ Hfew1 Hs2)|]. cbn [obind].
  pose proof (coherent_unmoved _ _ Hco2 Hum) as Hco3. destruct Hum as [_ Hst _ _ _ (U1 & U2 & U3 & U4 & U5 & U6 & U7) _].
  assert (caught_up e e3) as Hc03 by (eapply caught_up_trans; [exact Hc02|by split_and!]).
  assert (shrinks e e3) as Hs3 by (intros i Hi; rewrite Hst; auto).
  destruct (IH (mkTime s 0) e3) as (e' & Hrun & Hco' & Hs' & Hc'); [done|exact (few_shrinks _ _ Hfew Hs3)| |done| | |].
  - destruct Hc03 as (_ & _ & -> & _). done.
  - destruct Hc03 as (_ & -> & _). done.
  - unfold passes in *. by rewrite U2, U6.
  - exists e'. split_and!; [done|done|by eapply shrinks_trans|by eapply caught_up_trans].
Qed.

Lemma healthy_moved e e' : healthy e -> coherent e' -> e_schedule e' = e_schedule e -> e_last_seen e' = e_last_seen e -> healthy e'.
Proof. intros [_ Hs Hn] Hco E1 E2. split; [done|by rewrite E1|by rewrite E2]. Qed.

Lemma healthy_unmoved e e' : healthy e -> unmoved e e' -> healthy e'.
Proof.
  intros He Hu. pose proof (coherent_unmoved _ _ (hy_coherent _ He) Hu) as Hco. destruct (um_session _ _ Hu) as (_ & _ & ? & _ & _ & _ & ?).
  by apply (healthy_moved e).
Qed.

(** The clock catches up, whatever has happened since the last input. *)
Lemma tick_healthy e :
  healthy e -> few e -> 0 <= nanos (e_clock e) ->
  exists e', tick e = Done e' /\ healthy e' /\ shrinks e e' /\ e_clock e' = e_clock e.
Proof.
  intros [Hco Hsch Hn] Hfew Hnc. unfold tick, advance.
  destruct (advance_loop_coherent (S (advance_fuel (fresh e))) (e_last_seen e) (fresh e)) as (e1 & Hrun & Hco1 & Hsh & E1 & E2 & E3 & E4);
    [by apply coherent_fresh|done..| |].
  { unfold passes, advance_fuel. simpl. destruct (e_call_until e); simpl; lia. }
  change (e_last_seen (fresh e)) with (e_last_seen e). rewrite Hrun. cbn [obind]. eexists. split; [done|].
  set (e2 := if time_ltb (e_last_seen e1) (e_clock e1) then _ else e1).
  assert (healthy e2 /\ e_states e2 = e_states e1 /\ e_clock e2 = e_clock e) as (H2 & Hs2 & Hc2).
  { change (e_clock (fresh e)) with (e_clock e) in *. change (e_schedule (fresh e)) with (e_schedule e) in *.
    change (e_last_seen (fresh e)) with (e_last_seen e) in *. unfold e2. destruct (time_ltb _ _).
    - split; [|done]. split; simpl; [by apply (coherent_ext e1)|by rewrite E3|by rewrite E2].
    - split; [|done]. split; [done|by rewrite E3|by rewrite E4]. }
  pose proof (remember_unmoved (outputs (e_desk e2)) e2) as Hu. split_and!; [by eapply healthy_unmoved| |].
  - intros i Hi. rewrite (um_states _ _ Hu), Hs2. by apply Hsh.
  - destruct (um_session _ _ Hu) as (_ & E & _). congruence.
Qed.

(** ** The requests *)

Definition grows e e' : Prop := (size (e_states e') <= S (size (e_states e)))%nat.

Lemma grows_tick e e1 e2 : shrinks e e1 -> grows e1 e2 -> grows e e2.
Proof. intros H%shrinks_size. unfold grows. lia. Qed.

Lemma grows_unmoved e e1 e2 : grows e e1 -> unmoved e1 e2 -> grows e e2.
Proof. unfold grows. intros H Hu. by rewrite (um_states _ _ Hu). Qed.

Lemma process_order_clock order tx arr e e' : process_order order tx arr e = Done e' -> request_ok order -> coherent e -> same_clock e e'.
Proof.
  intros Hrun Hq Hco. unfold process_order in Hrun. destruct (order_reason order e) as [reason|] eqn:Hr; [by injection Hrun as <-|].
  destruct (order_reason_None order e tx arr Hq Hr) as (s & ty & tif & mode_ & explicit & Hp & Hstp & Hn & Ht & _).
  rewrite Hp, Hstp in Hrun. cbn [result_ok expect obind] in Hrun. set (o := order_of _ _ _ _ _ _) in *. set (st := state_new _ _ _ _) in *.
  unfold accept_order in Hrun. destruct (_ && (stop_price o =? 0)); [by injection Hrun as <-|]. destruct (_ && negb _); [by injection Hrun as <-|].
  destruct (bool_decide (e_phase e <> Continuous) || bool_decide (time_in_force o = AtClose)) eqn:Hph.
  - injection Hrun as <-. unfold hold_order. destruct (_ && _); [done|]. destruct (bool_decide (order_type o = Market)); [done|].
    by destruct (add_order _ _).
  - apply orb_false_iff in Hph as [Hph _]. apply bool_decide_eq_false, dec_stable in Hph.
    destruct (match_order_coherent o st e Hco Hn Hph Ht eq_refl) as (e2 & Hrun2 & _ & _ & Hcl & _). rewrite Hrun in Hrun2. by injection Hrun2 as <-.
Qed.

Lemma stamped_unmoved e : unmoved e (stamped e).
Proof. apply set_timers_unmoved. Qed.

Lemma bind_unmoved id who outs e : unmoved e (bind_status_owner id who outs e).
Proof. unfold bind_status_owner. destruct (accepted id outs); by split. Qed.

Section requests.
Context e e1 (Htick : tick e = Done e1) (Hy : healthy e1) (Hsz : Z.of_nat (size (e_states e1)) < u32_max).

Lemma tick_few : few e1.
Proof using Hsz. unfold few. lia. Qed.

Lemma new_order_healthy order tx :
  request_ok order -> exists e', new_order order tx e = Done e' /\ healthy e' /\ grows e1 e'.
Proof using Htick Hy Hsz.
  intros Hq. unfold new_order, process. rewrite Htick. cbn [obind preflight]. fold (stamped e1).
  pose proof (healthy_unmoved _ _ Hy (stamped_unmoved e1)) as Hy1.
  destruct (process_order_handled order tx (add64 (e_next_arrival e1) 1) (stamped e1) Hq (hy_coherent _ Hy1)) as (e2 & Hrun & _ & Hco2 & Hle).
  pose proof (process_order_clock _ _ _ _ _ Hrun Hq (hy_coherent _ Hy1)) as (_ & _ & E3 & _ & _ & E6).
  rewrite Hrun. cbn [obind]. change (e_states (stamped e1)) with (e_states e1) in Hle.
  destruct (publish_ok (e_clock e2) e2 Hco2) as (e3 & -> & Hu); [unfold few; lia|]. cbn [obind]. eexists. split; [done|].
  assert (healthy e2) as Hy2 by (by apply (healthy_moved (stamped e1))).
  set (e4 := remember_status _ _). assert (unmoved e2 e4) as Hu4.
  { eapply unmoved_trans; [exact Hu|]. eapply unmoved_trans; [apply bind_unmoved|apply remember_unmoved]. }
  split; [by eapply healthy_unmoved|]. by eapply grows_unmoved.
Qed.

Lemma cancel_replace_healthy m :
  replace_request_ok m -> strands m e1 = false -> exists e', cancel_replace m e = Done e' /\ healthy e' /\ grows e1 e'.
Proof using Htick Hy Hsz.
  intros Hq Hstr. unfold cancel_replace, process. rewrite Htick. cbn [obind]. fold (stamped e1).
  pose proof (healthy_unmoved _ _ Hy (stamped_unmoved e1)) as Hy1.
  destruct (replace_step m (add64 (e_next_arrival e1) 1) (stamped e1) (hy_coherent _ Hy1) Hq Hstr) as (e2 & Hrun & Hh & Hle & _ & _ & E3 & _ & _ & E6).
  pose proof (replace_handled_coherent _ _ _ Hh) as Hco2. change (e_states (stamped e1)) with (e_states e1) in Hle.
  destruct (publish_ok (e_clock e2) e2 Hco2) as (e3 & Hpub & Hu); [unfold few; lia|].
  destruct (preflight _ _) as [[done_ e4]| |]; [|done..]. cbn [obind] in *. rewrite Hrun. cbn [obind]. rewrite Hpub. cbn [obind].
  eexists. split; [done|]. assert (healthy e2) as Hy2 by (by apply (healthy_moved (stamped e1))).
  set (e5 := remember_status _ _). assert (unmoved e2 e5) as Hu5.
  { eapply unmoved_trans; [exact Hu|]. eapply unmoved_trans; [apply bind_unmoved|apply remember_unmoved]. }
  split; [exact (healthy_unmoved _ _ Hy2 Hu5)|]. eapply grows_unmoved; [|done]. unfold grows. lia.
Qed.

Lemma cancel_healthy m : exists e', cancel m e = Done e' /\ healthy e' /\ grows e1 e'.
Proof using Htick Hy Hsz.
  unfold cancel, process. rewrite Htick. cbn [obind]. fold (stamped e1). pose proof (healthy_unmoved _ _ Hy (stamped_unmoved e1)) as Hy1.
  destruct (cancel_step m (stamped e1) (hy_coherent _ Hy1)) as (e2 & Hrun & r & Hco2 & Hsub & (_ & _ & E3 & _ & _ & _ & E7) & _).
  assert (healthy e2) as Hy2 by (by apply (healthy_moved (stamped e1))). change (e_states (stamped e1)) with (e_states e1) in Hsub.
  destruct (publish_ok (e_clock e2) e2 Hco2 (few_submap _ _ tick_few Hsub)) as (e3 & Hpub & Hu).
  destruct (preflight _ _) as [[done_ e4]| |]; [|done..]. cbn [obind] in *. rewrite Hrun. cbn [obind]. rewrite Hpub. cbn [obind].
  eexists. split; [done|]. set (e5 := remember_status _ _).
  assert (unmoved e2 e5) as Hu5 by (eapply unmoved_trans; [exact Hu|apply remember_unmoved]).
  split; [exact (healthy_unmoved _ _ Hy2 Hu5)|]. eapply grows_unmoved; [|done]. unfold grows. apply map_subseteq_size in Hsub. lia.
Qed.

Lemma mass_cancel_healthy m : exists e', mass_cancel m e = Done e' /\ healthy e' /\ grows e1 e'.
Proof using Htick Hy Hsz.
  unfold mass_cancel. rewrite Htick. cbn [obind]. rewrite cancel_all_close. fold (mass_event m).
  change (mass_targets m e1) with (due_orders (fun _ => mass_selects m) e1).
  destruct (close_due_ok (fun _ => mass_selects m) false (fun _ => mass_event m) (timestamp_of (e_clock e1)) e1 (hy_coherent _ Hy))
    as (e2 & rs & -> & Hco2 & (_ & _ & E3 & _ & _ & _ & E7) & Hs & _). cbn [obind].
  assert (shrinks e1 e2) as Hsh by (intros i Hi; by rewrite Hs, Hi). assert (healthy e2) as Hy2 by (by apply (healthy_moved e1)).
  match goal with |- context [on_desk (push (OMassCancelCount ?x)) e2] => set (n := x); pose proof (push_unmoved (OMassCancelCount n) e2 eq_refl) as Hu end.
  set (e3 := on_desk (push (OMassCancelCount n)) e2) in *. pose proof (healthy_unmoved _ _ Hy2 Hu) as Hy3.
  destruct (publish_ok (e_clock e3) e3 (hy_coherent _ Hy3)) as (e4 & -> & Hu4).
  { exact (few_shrinks _ _ tick_few Hsh). }
  cbn [obind]. eexists. split; [done|]. set (e5 := remember_status _ _).
  assert (unmoved e2 e5) as Hu5 by (eapply unmoved_trans; [exact Hu|]; eapply unmoved_trans; [exact Hu4|apply remember_unmoved]).
  split; [exact (healthy_unmoved _ _ Hy2 Hu5)|]. eapply grows_unmoved; [|done]. apply shrinks_size in Hsh. unfold grows. lia.
Qed.

Lemma subscribe_healthy owner : exists e', engine_subscribe owner e = Done e' /\ healthy e' /\ grows e1 e'.
Proof using Htick Hy Hsz.
  unfold engine_subscribe. rewrite Htick. cbn [obind]. set (e2 := set_phase_field _ _ _).
  assert (healthy e2) as Hy2 by (apply (healthy_moved e1); [done| |done|done]; by apply (coherent_ext e1); [apply Hy|..]).
  destruct (publish_ok (e_clock (on_desk (push (OTradingSessionStatus (mkSessionStatus (e_symbol e1) (phase_code (e_phase e1)) (timestamp_of (e_clock e1)))))
    (on_desk (push (OSnapshot owner (snapshot (e_book e1) (e_clock e1)))) e1))) e2 (hy_coherent _ Hy2) tick_few) as (e3 & Hpub & Hu).
  exists e3. split; [exact Hpub|]. split; [by eapply healthy_unmoved|]. eapply grows_unmoved; [|done]. unfold grows.
  change (e_states e2) with (e_states e1). lia.
Qed.

Lemma opening_call_healthy secs : exists e', begin_opening_call secs e = Done e' /\ healthy e' /\ grows e1 e'.
Proof using Htick Hy Hsz.
  unfold begin_opening_call. rewrite Htick. cbn [obind]. destruct (_ || _); [exists e1; split_and!; [done|done|unfold grows; lia]|].
  set (e2 := set_timers _ (Some _) _ _ e1). assert (coherent e2) as Hco2 by (by apply (coherent_ext e1); [apply Hy|..]).
  destruct (set_phase_same OpeningCall (e_clock e2) e2) as (Hs3 & _ & _ & _ & E3 & _ & E5).
  assert (coherent (set_phase OpeningCall (e_clock e2) e2)) as Hco3 by (by apply set_phase_coherent).
  set (e3 := set_phase OpeningCall (e_clock e2) e2) in *. assert (healthy e3) as Hy3 by (by apply (healthy_moved e1)).
  change (e_states e2) with (e_states e1) in Hs3.
  destruct (publish_ok (e_clock e2) e3 Hco3) as (e4 & -> & Hu); [unfold few; rewrite Hs3; apply tick_few|]. cbn [obind]. eexists. split; [done|].
  set (e5 := remember_status _ _). assert (unmoved e3 e5) as Hu5 by (eapply unmoved_trans; [exact Hu|apply remember_unmoved]).
  split; [exact (healthy_unmoved _ _ Hy3 Hu5)|]. eapply grows_unmoved; [|done]. unfold grows. rewrite Hs3. lia.
Qed.

End requests.
End run.

(** ** The journal *)

(** The message of a replacement input. *)
Definition replace_msg {R : Type} (m : OrderCancelReplaceRequest) (owner : R) : CancelReplaceMsg R :=
  mkCancelReplaceMsg (or_order_id m) (or_sender m) (or_new_order_id m) (or_client_replace_id m) (or_new_price m)
    (or_new_quantity m) (or_new_time_in_force m) (or_new_stop_price m) (or_new_display_quantity m) owner.

(** The quantities of an input are [i32]s. *)
Definition input_ok (input : Input) : Prop :=
  match input with
  | INew order => request_ok order
  | IReplace m => - i32_max - 1 <= or_new_quantity m <= i32_max
  | _ => True
  end.

(** The input is a replacement that takes a partly filled order off the book. *)
Definition input_strands {R : Type} (input : Input) (owner : R) (e : Engine R Z) : bool :=
  match input with
  | IReplace m => match tick e with Done e1 => strands (replace_msg m owner) e1 | _ => false end
  | _ => false
  end.

Lemma dispatch_healthy {R : Type} input (owner : R) (e : Engine R Z) :
  healthy e -> Z.of_nat (size (e_states e)) < u32_max -> 0 <= nanos (e_clock e) -> input_ok input -> input_strands input owner e = false ->
  exists e', dispatch input owner e = Done e' /\ healthy e' /\ grows e e'.
Proof.
  intros Hy Hsz Hn Hin Hstr. destruct (tick_healthy e Hy) as (e1 & Ht & Hy1 & Hsh & _); [unfold few; lia|done|].
  assert (Z.of_nat (size (e_states e1)) < u32_max) as Hsz1 by (apply shrinks_size in Hsh; lia).
  assert (forall r, (exists e', r = Done e' /\ healthy e' /\ grows e1 e') -> exists e', r = Done e' /\ healthy e' /\ grows e e') as Hend.
  { intros r (e' & ? & ? & ?). exists e'. split_and!; [done|done|by eapply grows_tick]. }
  apply Hend. destruct input as [m|m|m| | |m|m]; cbn [dispatch input_ok input_strands] in *.
  - by apply new_order_healthy.
  - by apply cancel_healthy.
  - rewrite Ht in Hstr. by apply cancel_replace_healthy.
  - exists e1. split_and!; [done|done|unfold grows; lia].
  - by apply subscribe_healthy.
  - by apply mass_cancel_healthy.
  - by apply opening_call_healthy.
Qed.

(** One input, and how the disks behave when it is written. *)
Record Arrival (R : Type) : Type := mkArrival {
  av_symbol : string;
  av_at : Time;
  av_input : Input;
  av_owner : R;
  av_disk : DiskWrite;
  av_trace : DiskWrite;
}.
Arguments mkArrival {R}.
Arguments av_symbol {R}.
Arguments av_at {R}.
Arguments av_input {R}.
Arguments av_owner {R}.
Arguments av_disk {R}.
Arguments av_trace {R}.

Definition arrival_ok {R : Type} (c : Arrival R) : Prop := input_ok (av_input c) /\ 0 <= nanos (av_at c).

Section journals.
Context `{!Sha256, !Build} {R : Type}.
Context `{!Wire Report, !Wire TradeCapture, !Wire SessionStatus, !Wire AuctionInfo}.
Context `{!Wire NewOrderSingle, !Wire OrderCancelRequest, !Wire OrderCancelReplaceRequest, !Wire OrderMassCancelRequest, !Wire SessionControl}.
Context `{!Wire LogRecord}.
Implicit Types (j : Journal R) (c : Arrival R).

Definition apply_arrival c j : outcome (result (list (Output R)) string * Journal R) :=
  apply (av_symbol c) (av_at c) (av_input c) (av_owner c) (av_disk c) (av_trace c) j.

Fixpoint apply_all (cs : list (Arrival R)) j : outcome (list (result (list (Output R)) string) * Journal R) :=
  match cs with
  | [] => Done ([], j)
  | c :: cs => let* (res, j) := apply_arrival c j in let* (rs, j) := apply_all cs j in Done (res :: rs, j)
  end.

(** The engine a command runs on. *)
Definition engine_of c j : Engine R Z := with_shared (av_at c) (j_ids j) (engine_for (av_symbol c) (av_at c) j).

Definition arrival_strands c j : bool := input_strands (av_input c) (av_owner c) (engine_of c j).

Fixpoint none_strands (cs : list (Arrival R)) j : bool :=
  match cs with
  | [] => true
  | c :: cs => negb (arrival_strands c j) && match apply_arrival c j with Done (_, j) => none_strands cs j | _ => true end
  end.

(** A journal of healthy engines. *)
Record journal_sound j : Prop := {
  js_engines : map_Forall (fun _ e => healthy e) (j_engines j);
  js_schedule : match j_schedule j with Some s => valid_schedule s | None => True end;
}.

(** At most [n] live orders each. *)
Definition journal_within (n : nat) j : Prop := map_Forall (fun _ e => (size (e_states e) <= n)%nat) (j_engines j).

Lemma healthy_with_shared at_ i (e : Engine R Z) : healthy e -> healthy (with_shared at_ i e).
Proof. intros Hy. apply (healthy_moved e); [done| |done|done]. by apply (coherent_ext e); [apply Hy|..]. Qed.

Lemma engine_for_new sym at_ j :
  j_engines j !! sym = None -> journal_sound j -> 0 <= nanos at_ -> healthy (engine_for sym at_ j) /\ size (e_states (engine_for sym at_ j)) = 0%nat.
Proof.
  intros E [_ Hs] Hn. unfold engine_for. rewrite E. set (e := engine_new _ _ _ _ _ _).
  assert (healthy e) as Hy by (split; [apply coherent_new|done|done]). assert (size (e_states e) = 0%nat) as Hz by apply map_size_empty.
  destruct (j_inspection j); [|done]. split; [|done]. apply (healthy_moved e); [done| |done|done].
  destruct (hy_coherent _ Hy) as [[Hw Hc Hp Hu] Hst Hf]. split; [|done|done]. split; [by apply book_inv_set_refresh_log|done..].
Qed.

Lemma engine_of_healthy c j : journal_sound j -> arrival_ok c -> healthy (engine_of c j).
Proof.
  intros Hj [_ Hn]. apply healthy_with_shared. destruct (j_engines j !! av_symbol c) as [e|] eqn:E.
  - unfold engine_for. rewrite E. by apply (js_engines _ Hj _ _ E).
  - by apply engine_for_new.
Qed.

Lemma engine_of_within n c j : journal_sound j -> journal_within n j -> arrival_ok c -> (size (e_states (engine_of c j)) <= n)%nat.
Proof.
  intros Hj Hw [_ Hn]. change (e_states (engine_of c j)) with (e_states (engine_for (av_symbol c) (av_at c) j)).
  destruct (j_engines j !! av_symbol c) as [e|] eqn:E.
  - unfold engine_for. rewrite E. by apply (Hw _ _ E).
  - destruct (engine_for_new _ (av_at c) j E Hj Hn) as [_ ->]. lia.
Qed.

(** One command: it returns, and only the engine of its symbol changes. *)
Lemma apply_sound c j :
  journal_sound j -> arrival_ok c -> Z.of_nat (size (e_states (engine_of c j))) < u32_max -> arrival_strands c j = false ->
  exists res j', apply_arrival c j = Done (res, j') /\ journal_sound j' /\
    forall sym e, j_engines j' !! sym = Some e -> j_engines j !! sym = Some e \/ sym = av_symbol c /\ grows (engine_of c j) e.
Proof.
  intros Hj Hc Hn Hstr. pose proof (engine_of_healthy c j Hj Hc) as Hy. destruct Hj as [He Hs].
  set (good := fun j' => journal_sound j' /\ forall sym e, j_engines j' !! sym = Some e -> j_engines j !! sym = Some e \/ sym = av_symbol c /\ grows (engine_of c j) e).
  assert (forall j', j_engines j' = j_engines j -> j_schedule j' = j_schedule j -> good j') as Hsame.
  { intros j' E1 E2. split; [split; [by rewrite E1|by rewrite E2]|]. intros sym e. rewrite E1. by left. }
  unfold apply_arrival, apply. destruct (match j_recording j with Some _ => _ | None => _ end); [by eexists _, _; split; [|apply Hsame]|].
  destruct (input_encode (av_input c)) as [kind payload]. destruct (log_append _ _ _ _ _ _) as [[[]|err] log]; [|by eexists _, _; split; [|apply Hsame]].
  unfold execute. change (with_shared (av_at c) (j_ids (set_log log j)) (engine_for (av_symbol c) (av_at c) (set_log log j))) with (engine_of c j).
  destruct (dispatch_healthy (av_input c) (av_owner c) (engine_of c j) Hy) as (e & -> & Hye & Hge); [done|apply Hc|apply Hc|exact Hstr|]. cbn [obind].
  destruct (take_diagnostics (fresh e)) as [diags e'] eqn:Hd. cbn [obind].
  assert (healthy e' /\ grows (engine_of c j) e') as [Hye' Hge'].
  { unfold take_diagnostics in Hd. injection Hd as _ <-. split; [|exact Hge].
    apply (healthy_moved e); [done| |done|done]. by apply (coherent_ext e); [apply Hye|..]. }
  assert (forall j', j_engines j' = <[av_symbol c := e']> (j_engines j) -> j_schedule j' = j_schedule j -> good j') as Hins.
  { intros j' E1 E2. split; [split; [|by rewrite E2]|].
    - rewrite E1. by apply map_Forall_insert_2.
    - intros sym x. rewrite E1. intros [[<- <-]|[_ Hx]]%lookup_insert_Some; [by right|by left]. }
  cbn [j_recording j_inspection set_log]. destruct (j_recording j) as [r|]; [|by eexists _, _; split; [|apply Hins]].
  destruct (j_inspection j) as [col|]; [|by eexists _, _; split; [|apply Hins]]. cbn [fmap option_fmap option_map].
  destruct (append_trace _ _ _) as [[[]|err] r']; by eexists _, _; split; [|apply Hins].
Qed.

Lemma apply_within n c j :
  journal_sound j -> journal_within n j -> arrival_ok c -> Z.of_nat n < u32_max -> arrival_strands c j = false ->
  exists res j', apply_arrival c j = Done (res, j') /\ journal_sound j' /\ journal_within (S n) j'.
Proof.
  intros Hj Hw Hc Hn Hstr. pose proof (engine_of_within n c j Hj Hw Hc) as Hsz.
  destruct (apply_sound c j Hj Hc) as (res & j' & Hrun & Hj' & He); [lia|done|]. exists res, j'. split_and!; [done|done|].
  intros sym e Hs. destruct (He _ _ Hs) as [Ho|[_ Hg]]; [pose proof (Hw _ _ Ho) as Hb; simpl in Hb; lia|unfold grows in Hg; lia].
Qed.

(** C3: The exchange never panics and never hangs. From a journal of healthy
    engines, for every sequence of new orders, cancels, replacements, mass
    cancels, subscriptions, ticks and operator calls, for any symbols, at any
    times, with any session schedule and any behaviour of the disks, every
    command returns a result and every engine stays healthy: each live order is
    in exactly one place with the report state that tracks it, the book is well
    formed and uncrossed in continuous trading. The commands are fewer than a
    u32 counts and none moves a partly filled order off the book to hold it for
    the close. *)
Theorem journal_never_panics cs : forall n j,
  journal_sound j -> journal_within n j -> Forall arrival_ok cs -> Z.of_nat (n + length cs) <= u32_max -> none_strands cs j = true ->
  exists rs j', apply_all cs j = Done (rs, j') /\ length rs = length cs /\ journal_sound j' /\ journal_within (n + length cs) j'.
Proof.
  induction cs as [|c cs IH]; intros n j Hj Hw Hok Hn Hs; cbn [apply_all length] in *.
  { exists [], j. by rewrite Nat.add_0_r. }
  apply Forall_cons in Hok as [Hc Hok]. cbn [none_strands] in Hs. apply andb_true_iff in Hs as [Hs1 Hs2]. apply negb_true_iff in Hs1.
  destruct (apply_within n c j Hj Hw Hc) as (res & j1 & Hrun & Hj1 & Hw1); [lia|done|]. rewrite Hrun in *. cbn [obind].
  destruct (IH (S n) j1 Hj1 Hw1 Hok) as (rs & j' & -> & Hl & Hj' & Hw'); [lia|done|]. cbn [obind]. exists (res :: rs), j'. simpl.
  split_and!; [done|lia|done|]. by rewrite Nat.add_succ_r.
Qed.
End journals.

(** ** Witness *)

#[local] Existing Instance wire_of.
#[local] Existing Instance sample_sha.
#[local] Existing Instance sample_build.

Definition new_arrival (secs owner : Z) (id who : string) (side price qty ty tif : Z) : Arrival Z :=
  mkArrival "FXP" (mkTime secs 5) (INew (mkNewOrder id who "FXP" price side qty ty tif 0 "" "" id 0 "" 0)) owner Synced Synced.

(** A day with auctions: orders for the opening call, a replacement in it, an
    order for the close; continuous trading with a write that fails; then an
    order long after the close. *)
Definition day_arrivals : list (Arrival Z) :=
  [new_arrival 100 7 "b1" "alice" 1 101 5 2 2; new_arrival 110 8 "s1" "bob" 2 100 3 2 2; new_arrival 120 9 "m1" "carol" 2 0 4 1 2;
   mkArrival "FXP" (mkTime 130 5) (IReplace (mkReplaceRequest "b1" "b2" "r1" "alice" "FXP" 102 6 0 0 None)) 7 Synced Synced;
   new_arrival 4000 7 "b3" "alice" 1 99 2 2 2; new_arrival 4010 8 "c1" "bob" 2 98 1 2 6;
   mkArrival "FXP" (mkTime 8000 5) ISubscribe 9 Synced Synced; mkArrival "FXP" (mkTime 20000 5) ITick 0 Synced Synced;
   mkArrival "FXP" (mkTime 100000 5) (IMassCancel (mkMassCancelRequest "alice" "FXP" 0 "x1" 1)) 7 (Torn 3) Synced;
   new_arrival 100001 7 "b4" "alice" 1 99 2 2 2].

Definition day_journal : Journal Z := journal_new (mkEventLog [] 1 false) None None (Some call_schedule) StpNone 0 [].

Lemma journal_never_panics_witness :
  exists rs j', apply_all day_arrivals day_journal = Done (rs, j') /\ length rs = 10%nat /\ journal_sound j'.
Proof.
  destruct (journal_never_panics day_arrivals 0 day_journal) as (rs & j' & Hrun & Hl & Hj & _).
  - split; [apply map_Forall_empty|unfold valid_schedule, day; simpl; lia].
  - apply map_Forall_empty.
  - repeat constructor; vm_compute; congruence.
  - vm_compute. congruence.
  - vm_compute. reflexivity.
  - exists rs, j'. split_and!; [exact Hrun|exact Hl|exact Hj].
Defined.
