(* ===== verification/Transport.v ===== *)
(** * Connections: core_auth.rs and the transport half of server.rs

    Frames on a connection, the bounded queues of a client, the market-data
    broadcast and the optional authentication of a connection. A connection is a
    number; [Net] holds the queues of every connection, because a symbol task and
    a handler that hold the same sender share them. *)

From Stdlib Require Import Ascii.
From S2P Require Import Prelude BTree Text Bytes Order Session SymbolConfig Proto Reports EventLog.

(** ** Definitions *)

(** *** Messages *)

Record OrderStatusRequest : Type := mkStatusRequest {
  sq_request_id : string; sq_sender : string; sq_order_id : string; sq_symbol : string; sq_side : Z;
}.

Record OrderStatusResponse : Type := mkStatusResponse {
  sr_request_id : string; sr_sender : string; sr_reports : list Report; sr_reject_reason : string; sr_complete : bool; sr_total_reports : Z;
}.

(** Its header is always absent. *)
Record OrderMassCancelReport : Type := mkMassCancelReport {
  mr_client_request_id : string; mr_sender : string; mr_symbol : string; mr_side : Z; mr_total_affected : Z; mr_reason : Z;
  mr_reject_reason : string; mr_timestamp : Timestamp;
}.

Record SessionControlReport : Type := mkControlReport {
  cp_request_id : string; cp_sender : string; cp_symbols_affected : Z; cp_reject_reason : string;
}.

(** [fxp_message::Payload]; the messages the core ignores are kept as their field
    number and bytes. *)
Inductive Payload : Type :=
| PNewOrder (m : NewOrderSingle)
| POrderCancel (m : OrderCancelRequest)
| POrderCancelReplace (m : OrderCancelReplaceRequest)
| POrderStatusRequest (m : OrderStatusRequest)
| POrderMassCancel (m : OrderMassCancelRequest)
| PSessionControl (m : SessionControl)
| PMarketDataRequest (symbols : list string)
| PExecutionReport (m : Report)
| PMarketDataSnapshot (m : Snapshot)
| PMarketDataIncremental (m : MdUpdate)
| PTradeCaptureReport (m : TradeCapture)
| PTradingSessionStatus (m : SessionStatus)
| PAuctionInfo (m : AuctionInfo)
| POrderMassCancelReport (m : OrderMassCancelReport)
| POrderStatusResponse (m : OrderStatusResponse)
| PSessionControlReport (m : SessionControlReport)
| POther (field : Z) (bytes : list Z).

(** [FxpMessage]: its payload. *)
Definition FxpMessage : Type := option Payload.

(** *** Frames *)

Definition MAX_FRAME_BYTES : Z := 1048576.

Inductive ReadError : Type := UnexpectedEof | InvalidData (text : string).

(** [AsyncReadExt::read_exact] on the bytes the peer sends before it closes. *)
Definition read_exact (n : nat) (stream : list Z) : result (list Z * list Z) ReadError :=
  match read_exact_or_tail n stream with Some x => Ok x | None => Err UnexpectedEof end.

(** [read_framed_message]: the body and the bytes after it. *)
Definition read_framed_message (stream : list Z) : result (list Z * list Z) ReadError :=
  match read_exact 4 stream with
  | Err e => Err e
  | Ok (len_buf, stream) =>
    let msg_len := from_be len_buf in
    if (msg_len =? 0) || (MAX_FRAME_BYTES <? msg_len)
    then Err (InvalidData ("Invalid FXP message length: " ++ print_dec msg_len))
    else read_exact (Z.to_nat msg_len) stream
  end.

Section frames.
Context `{!Wire FxpMessage}.

(** [frame_message]. *)
Definition frame_message (msg : FxpMessage) : list Z :=
  let encoded := encode_to_vec msg in be_bytes 4 (as_u32 (Z.of_nat (length encoded))) ++ encoded.
End frames.

(** *** The queues of a client *)

(** [ClientTx] with the receivers' ends: [tx_closed] when the writer is gone,
    [tx_slow] is the permit of the [Notify]. *)
Record ClientTx : Type := mkClientTx {
  tx_frames : list (list Z);
  tx_frame_capacity : nat;
  tx_md : list (list Z);
  tx_md_capacity : nat;
  tx_closed : bool;
  tx_slow : bool;
  tx_slow_reported : bool;
  tx_md_dropped : Z;
}.

(** [ClientTx::channel]. *)
Definition client_channel (frame_capacity md_capacity : nat) : ClientTx :=
  mkClientTx [] frame_capacity [] md_capacity false false false 0.

(** What dropping both receivers leaves. *)
Definition close_client (c : ClientTx) : ClientTx :=
  mkClientTx [] (tx_frame_capacity c) [] (tx_md_capacity c) true (tx_slow c) (tx_slow_reported c) (tx_md_dropped c).

(** [Notify::notify_one]. *)
Definition notify_slow (c : ClientTx) : ClientTx :=
  mkClientTx (tx_frames c) (tx_frame_capacity c) (tx_md c) (tx_md_capacity c) (tx_closed c) true (tx_slow_reported c) (tx_md_dropped c).

(** [ClientTx::try_send_frame]. *)
Definition try_send_frame (frame : list Z) (c : ClientTx) : ClientTx :=
  if tx_closed c then c
  else if (length (tx_frames c) <? tx_frame_capacity c)%nat then
    mkClientTx (tx_frames c ++ [frame]) (tx_frame_capacity c) (tx_md c) (tx_md_capacity c) (tx_closed c) (tx_slow c) (tx_slow_reported c) (tx_md_dropped c)
  else if tx_slow_reported c then c
  else
    notify_slow (mkClientTx (tx_frames c) (tx_frame_capacity c) (tx_md c) (tx_md_capacity c) (tx_closed c) (tx_slow c) true (tx_md_dropped c)).

(** The three outcomes of [Sender::try_send] on the market-data queue. *)
Inductive MdSent : Type := MdQueued | MdFull | MdClosed.

Definition md_outcome (c : ClientTx) : MdSent :=
  if tx_closed c then MdClosed else if (length (tx_md c) <? tx_md_capacity c)%nat then MdQueued else MdFull.

Definition push_md (frame : list Z) (c : ClientTx) : ClientTx :=
  mkClientTx (tx_frames c) (tx_frame_capacity c) (tx_md c ++ [frame]) (tx_md_capacity c) (tx_closed c) (tx_slow c) (tx_slow_reported c) (tx_md_dropped c).

Definition count_drop (c : ClientTx) : ClientTx :=
  mkClientTx (tx_frames c) (tx_frame_capacity c) (tx_md c) (tx_md_capacity c) (tx_closed c) (tx_slow c) (tx_slow_reported c) (add64 (tx_md_dropped c) 1).

(** *** All connections *)

(** The connections and [MD_DROPPED]. *)
Record Net : Type := mkNet { net_clients : gmap Z ClientTx; net_md_dropped : Z }.

Definition on_client (f : ClientTx -> ClientTx) (to : Z) (n : Net) : Net := mkNet (alter f to (net_clients n)) (net_md_dropped n).

Definition send_frame (frame : list Z) (to : Z) (n : Net) : Net := on_client (try_send_frame frame) to n.

(** [ClientTx::try_send_md]. *)
Definition try_send_md (frame : list Z) (to : Z) (n : Net) : bool * Net :=
  match net_clients n !! to with
  | None => (false, n)
  | Some c =>
    match md_outcome c with
    | MdQueued => (true, on_client (push_md frame) to n)
    | MdFull => (true, on_client count_drop to (mkNet (net_clients n) (add64 (net_md_dropped n) 1)))
    | MdClosed => (false, n)
    end
  end.

(** The first loop of [broadcast_md]: the positions whose receiver is gone. *)
Fixpoint broadcast_each (i : nat) (subscribers : list Z) (frame : list Z) (dead : list nat) (n : Net) : list nat * Net :=
  match subscribers with
  | [] => (dead, n)
  | tx :: subscribers =>
    let '(alive, n) := try_send_md frame tx n in
    broadcast_each (S i) subscribers frame (if alive then dead else dead ++ [i]) n
  end.

(** [broadcast_md]: the dead positions are removed from the last to the first. *)
Definition broadcast_md (subscribers : list Z) (frame : list Z) (n : Net) : list Z * Net :=
  let '(dead, n) := broadcast_each 0 subscribers frame [] n in
  (foldl (fun subscribers i => delete i subscribers) subscribers (rev dead), n).

(** The writer's choice: critical frames first. *)
Definition writer_next (c : ClientTx) : option (list Z * ClientTx) :=
  match tx_frames c with
  | frame :: frames =>
    Some (frame, mkClientTx frames (tx_frame_capacity c) (tx_md c) (tx_md_capacity c) (tx_closed c) (tx_slow c) (tx_slow_reported c) (tx_md_dropped c))
  | [] =>
    match tx_md c with
    | frame :: md =>
      Some (frame, mkClientTx [] (tx_frame_capacity c) md (tx_md_capacity c) (tx_closed c) (tx_slow c) (tx_slow_reported c) (tx_md_dropped c))
    | [] => None
    end
  end.

(** The writer's last act at shutdown: everything queued. *)
Definition writer_drain (c : ClientTx) : list (list Z) * ClientTx := (tx_frames c ++ tx_md c, close_client c).

(** *** Authentication of a connection: core_auth.rs *)

Definition AUTH_MAGIC : list Z := bytes_of "FXPAUTH1".
Definition MAX_TOKEN : Z := 1024.

(** [CoreAuth]: the token's bytes. *)
Definition CoreAuth : Type := option (list Z).

(** [CoreAuth::new]. *)
Definition auth_new (token : option string) : result CoreAuth string :=
  let token := match token with Some s => if bool_decide (s = ""%string) then None else Some (bytes_of s) | None => None end in
  match token with
  | Some t =>
    if MAX_TOKEN <? Z.of_nat (length t) then Err "FXP_CORE_AUTH_TOKEN exceeds 1024 bytes"%string
    else if Z.of_nat (length t) <? 24 then Err "FXP_CORE_AUTH_TOKEN must contain at least 24 bytes when set"%string
    else Ok (Some t)
  | None => Ok None
  end.

(** [std::env::var]: set, not set, or not UTF-8. *)
Inductive EnvVar : Type := EnvSet (value : string) | EnvNotPresent | EnvNotUnicode.

(** [CoreAuth::from_env]. *)
Definition auth_from_env (v : EnvVar) : result CoreAuth string :=
  match v with
  | EnvSet token => auth_new (Some token)
  | EnvNotPresent => auth_new None
  | EnvNotUnicode => Err "FXP_CORE_AUTH_TOKEN must be valid UTF-8"%string
  end.

Definition auth_enabled (auth : CoreAuth) : bool := bool_decide (is_Some auth).

(** The comparison of the constant_time_eq crate. *)
Class ConstantTimeEq := constant_time_eq : list Z -> list Z -> bool.

(** What it documents: equality. *)
Class ConstantTimeEqLaws `{!ConstantTimeEq} : Prop := constant_time_eq_spec a b : constant_time_eq a b = bool_decide (a = b).

Section auth.
Context `{!ConstantTimeEq}.

Definition denied : string := "core authentication failed".

(** [?] with [map_err(|_| denied())]. *)
Definition or_denied {A : Type} (m : result A ReadError) : result A string := match m with Ok a => Ok a | Err _ => Err denied end.

(** [CoreAuth::authenticate] on the bytes a peer sends: what is left of them and
    the bytes written back; [writable] is whether the acknowledgement can be
    written. *)
Definition authenticate (auth : CoreAuth) (stream : list Z) (writable : bool) : result (list Z * list Z) string :=
  match auth with
  | None => Ok (stream, [])
  | Some expected =>
    match or_denied (read_exact 8 stream) with
    | Err e => Err e
    | Ok (magic, stream) =>
      if bool_decide (magic <> AUTH_MAGIC) then Err denied
      else
        match or_denied (read_exact 2 stream) with
        | Err e => Err e
        | Ok (size, stream) =>
          let size := from_be size in
          if (size =? 0) || (MAX_TOKEN <? size) then Err denied
          else
            match or_denied (read_exact (Z.to_nat size) stream) with
            | Err e => Err e
            | Ok (token, stream) =>
              if negb (constant_time_eq expected token) then Err denied
              else if writable then Ok (stream, [1]) else Err denied
            end
        end
    end
  end.

(** [handle_authenticated_client]: the bytes that reach the message loop, if the
    connection does; [timely] is that neither the shutdown nor five seconds came
    first. *)
Definition admit_connection (auth : CoreAuth) (stream : list Z) (writable timely : bool) : option (list Z) :=
  if auth_enabled auth then
    if timely then match authenticate auth stream writable with Ok (stream, _) => Some stream | Err _ => None end else None
  else Some stream.
End auth.

(** *** Settings of the process *)

(** [next_accept_backoff]; durations in milliseconds. *)
Definition ACCEPT_BACKOFF_MIN : Z := 5.
Definition ACCEPT_BACKOFF_MAX : Z := 1000.
Definition next_accept_backoff (current : Z) : Z := Z.min (current * 2) ACCEPT_BACKOFF_MAX.

(** The delay before each attempt of a run of failing [accept]s. *)
Fixpoint accept_delays (n : nat) (backoff : Z) : list Z :=
  match n with O => [] | S n => backoff :: accept_delays n (next_accept_backoff backoff) end.

(** [read_optional_env]; the text of the standard library's error is not modelled. *)
Definition read_optional_env (name : string) (v : EnvVar) : result (option string) string :=
  match v with
  | EnvSet value => Ok (Some value)
  | EnvNotPresent => Ok None
  | EnvNotUnicode => Err ("invalid " ++ name ++ ": environment variable was not valid unicode")%string
  end.

(** [shutdown_timeout] in seconds; an error ends the process. *)
Definition shutdown_timeout (v : EnvVar) : result Z string :=
  match read_optional_env "FXP_SHUTDOWN_TIMEOUT_SEC" v with
  | Err e => Err e
  | Ok None => Ok 5
  | Ok (Some value) =>
    match parse_u64 value with
    | Some seconds => if 0 <? seconds then Ok seconds else Err "FXP_SHUTDOWN_TIMEOUT_SEC must be a positive integer"%string
    | None => Err "FXP_SHUTDOWN_TIMEOUT_SEC must be a positive integer"%string
    end
  end.

(** [parse_symbol_admission]. *)
Definition parse_allowed (value : string) : result (gset string) string :=
  let symbols := List.filter (fun s => negb (bool_decide (s = ""%string))) (trim <$> split_on ","%char value) in
  if is_nil symbols then Err "FXP_SYMBOLS must contain at least one nonempty symbol"%string else Ok (list_to_set symbols).

Definition parse_limit (value : string) : result Z string :=
  match parse_u64 value with
  | None => Err "FXP_MAX_SYMBOLS must be a positive integer"%string
  | Some limit => if limit =? 0 then Err "FXP_MAX_SYMBOLS must be greater than zero"%string else Ok limit
  end.

Definition transpose {A : Type} (m : option (result A string)) : result (option A) string :=
  match m with None => Ok None | Some (Ok a) => Ok (Some a) | Some (Err e) => Err e end.

Definition parse_symbol_admission (allowed_symbols max_symbols : option string)
    : result (option (gset string) * option Z) string :=
  match transpose (parse_allowed <$> allowed_symbols) with
  | Err e => Err e
  | Ok allowed =>
    match transpose (parse_limit <$> max_symbols) with
    | Err e => Err e
    | Ok limit => Ok (allowed, limit)
    end
  end.
