(* ===== verification/TransportSpec.v ===== *)
(** * The transport's promises

    Frames are read back as they were written, a broadcast reaches every live
    subscriber, critical frames are never lost silently, and only a peer that
    knows the token reaches the message loop. *)

From S2P Require Import Prelude BTree Text Bytes Order Session SymbolConfig Proto Reports EventLog LogRecovery WireSamples Transport.

(** ** Definitions *)

(** The queues are within their capacities. *)
Definition client_ok (c : ClientTx) : Prop :=
  (length (tx_frames c) <= tx_frame_capacity c)%nat /\ (length (tx_md c) <= tx_md_capacity c)%nat.

Definition net_ok (n : Net) : Prop := map_Forall (fun _ c => client_ok c) (net_clients n).

Definition open_client (n : Net) (tx : Z) : bool :=
  match net_clients n !! tx with Some c => negb (tx_closed c) | None => false end.

(** A market-data frame for one connection: queued, or counted as dropped. *)
Definition md_step (frame : list Z) (c : ClientTx) : ClientTx :=
  match md_outcome c with MdQueued => push_md frame c | MdFull => count_drop c | MdClosed => c end.

(** What happens to the queues of one connection, with the frames written to its
    socket. *)
Inductive ClientOp : Type := OpSend (frame : list Z) | OpMd (frame : list Z) | OpWrite | OpClose.

(** The connection, the critical frames handed to it and those written. *)
Record ClientLife : Type := mkLife { lf_client : ClientTx; lf_sent : list (list Z); lf_written : list (list Z) }.

Definition client_op (op : ClientOp) (l : ClientLife) : ClientLife :=
  let c := lf_client l in
  match op with
  | OpSend frame => mkLife (try_send_frame frame c) (lf_sent l ++ [frame]) (lf_written l)
  | OpMd frame => mkLife (md_step frame c) (lf_sent l) (lf_written l)
  | OpWrite =>
    match writer_next c with
    | Some (frame, c') => mkLife c' (lf_sent l) (if is_nil (tx_frames c) then lf_written l else lf_written l ++ [frame])
    | None => l
    end
  | OpClose => mkLife (close_client c) (lf_sent l) (lf_written l)
  end.

(** The critical frames of a connection: those queued and written were handed over
    in that order, and none is missing unless the handler is told or gone. *)
Record life_ok (l : ClientLife) : Prop := {
  lo_queues : client_ok (lf_client l);
  lo_order : sublist (lf_written l ++ tx_frames (lf_client l)) (lf_sent l);
  lo_all : tx_slow_reported (lf_client l) = false -> tx_closed (lf_client l) = false -> lf_written l ++ tx_frames (lf_client l) = lf_sent l;
  lo_told : tx_slow_reported (lf_client l) = true -> tx_slow (lf_client l) = true;
}.

(** What an empty buffer decodes to: the default message. *)
Class EmptyMessage `{!Wire FxpMessage} : Prop := decode_empty : wire_decode [] = Some None.

(** ** Queues *)

Lemma try_send_frame_ok frame c : client_ok c -> client_ok (try_send_frame frame c).
Proof.
  intros [H1 H2]. unfold try_send_frame. destruct (tx_closed c); [done|]. destruct (Nat.ltb_spec (length (tx_frames c)) (tx_frame_capacity c)).
  - split; simpl; [rewrite length_app; simpl; lia|done].
  - by destruct (tx_slow_reported c).
Qed.

Lemma push_md_ok frame c : md_outcome c = MdQueued -> client_ok c -> client_ok (push_md frame c).
Proof.
  unfold md_outcome. intros Hm [H1 H2]. destruct (tx_closed c); [done|]. destruct (Nat.ltb_spec (length (tx_md c)) (tx_md_capacity c)); [|done].
  split; simpl; [done|rewrite length_app; simpl; lia].
Qed.

Lemma writer_next_ok c frame c' : writer_next c = Some (frame, c') -> client_ok c -> client_ok c'.
Proof.
  unfold writer_next, client_ok. destruct (tx_frames c), (tx_md c); intros [= <- <-]; simpl; lia.
Qed.

Lemma on_client_ok f to n : (forall c, net_clients n !! to = Some c -> client_ok c -> client_ok (f c)) -> net_ok n -> net_ok (on_client f to n).
Proof.
  intros Hf Hn i c. unfold on_client. cbn [net_clients]. rewrite lookup_alter_Some.
  intros [(-> & c' & Hc & ->)|[_ Hc]]; [eapply Hf; [done|]|]; by eapply Hn.
Qed.

Lemma send_frame_ok frame to n : net_ok n -> net_ok (send_frame frame to n).
Proof. apply on_client_ok. intros c _. apply try_send_frame_ok. Qed.

Lemma try_send_md_ok frame to n : net_ok n -> net_ok (try_send_md frame to n).2.
Proof.
  intros Hn. unfold try_send_md. destruct (net_clients n !! to) as [c|] eqn:Hc; [|done]. destruct (md_outcome c) eqn:Hm; simpl.
  - apply on_client_ok; [|done]. intros c' Hc'. rewrite Hc in Hc'. injection Hc' as <-. by apply push_md_ok.
  - apply on_client_ok; [done|exact Hn].
  - done.
Qed.

Lemma try_send_md_open frame to n : (try_send_md frame to n).1 = open_client n to.
Proof.
  unfold try_send_md, open_client. destruct (net_clients n !! to) as [c|]; [|done]. unfold md_outcome.
  destruct (tx_closed c); [done|]. by destruct (_ <? _)%nat.
Qed.

Lemma try_send_md_keeps frame to n tx : open_client (try_send_md frame to n).2 tx = open_client n tx.
Proof.
  unfold try_send_md. destruct (net_clients n !! to) as [c|] eqn:Hc; [|done].
  assert (forall f m, net_clients m = net_clients n -> (forall c, tx_closed (f c) = tx_closed c) -> open_client (on_client f to m) tx = open_client n tx) as Hk.
  { intros f m Hm Hf. unfold open_client, on_client. cbn [net_clients]. rewrite Hm.
    destruct (decide (tx = to)) as [->|Hne]; [rewrite lookup_alter_eq, Hc; simpl; by rewrite Hf|by rewrite lookup_alter_ne]. }
  destruct (md_outcome c); simpl; [by apply Hk|by apply Hk|done].
Qed.

(** ** Broadcast *)

(** The positions of the subscribers that are gone. *)
Fixpoint dead_from (n : Net) (i : nat) (subscribers : list Z) : list nat :=
  match subscribers with
  | [] => []
  | tx :: subscribers => (if open_client n tx then [] else [i]) ++ dead_from n (S i) subscribers
  end.

Definition send_md_to (frame : list Z) (n : Net) (tx : Z) : Net := (try_send_md frame tx n).2.

Lemma dead_from_ext n n' subscribers : (forall tx, open_client n tx = open_client n' tx) -> forall i, dead_from n i subscribers = dead_from n' i subscribers.
Proof. intros H. induction subscribers as [|tx l IH]; intros i; [done|]. cbn [dead_from]. by rewrite H, IH. Qed.

Lemma broadcast_each_spec frame subscribers : forall i dead n,
  broadcast_each i subscribers frame dead n = (dead ++ dead_from n i subscribers, foldl (send_md_to frame) n subscribers).
Proof.
  induction subscribers as [|tx l IH]; intros i dead n; cbn [broadcast_each dead_from foldl]; [by rewrite app_nil_r|].
  pose proof (try_send_md_open frame tx n) as Ho. pose proof (try_send_md_keeps frame tx n) as Hk. unfold send_md_to at 2.
  destruct (try_send_md frame tx n) as [alive n'] eqn:Hs. cbn [fst snd] in *. rewrite IH. f_equal.
  rewrite Ho, (dead_from_ext n' n) by done. destruct (open_client n tx); [done|]. by rewrite <- app_assoc.
Qed.

Lemma remove_dead n subscribers : forall pre,
  foldl (fun l i => delete i l) (pre ++ subscribers) (rev (dead_from n (length pre) subscribers)) = pre ++ List.filter (open_client n) subscribers.
Proof.
  induction subscribers as [|tx l IH]; intros pre; [done|]. cbn [dead_from List.filter]. rewrite rev_app_distr, foldl_app.
  specialize (IH (pre ++ [tx])). rewrite length_app, Nat.add_1_r in IH. rewrite <- !app_assoc in IH. cbn [app] in IH. rewrite IH.
  destruct (open_client n tx); [done|]. cbn [rev app foldl]. rewrite delete_middle. done.
Qed.

Lemma broadcast_md_spec subscribers frame n :
  broadcast_md subscribers frame n = (List.filter (open_client n) subscribers, foldl (send_md_to frame) n subscribers).
Proof.
  unfold broadcast_md. rewrite broadcast_each_spec. cbn [app]. f_equal. apply (remove_dead n subscribers []).
Qed.

Lemma send_all_ok frame subscribers : forall n, net_ok n -> net_ok (foldl (send_md_to frame) n subscribers).
Proof. induction subscribers as [|tx l IH]; intros n Hn; [done|]. cbn [foldl]. by apply IH, try_send_md_ok. Qed.

Lemma send_md_clients frame n tx : net_clients (send_md_to frame n tx) = alter (md_step frame) tx (net_clients n).
Proof.
  unfold send_md_to, try_send_md. apply map_eq. intros i. destruct (net_clients n !! tx) as [c|] eqn:Hc.
  - destruct (decide (i = tx)) as [->|Hne].
    + rewrite lookup_alter_eq, Hc. simpl. unfold md_step. destruct (md_outcome c); simpl; [by rewrite lookup_alter_eq, Hc..|done].
    + rewrite lookup_alter_ne by done. destruct (md_outcome c); simpl; [by rewrite lookup_alter_ne..|done].
  - destruct (decide (i = tx)) as [->|Hne]; [by rewrite lookup_alter_eq, Hc|by rewrite lookup_alter_ne].
Qed.

Lemma send_all_clients frame subscribers c : forall n,
  NoDup subscribers ->
  net_clients (foldl (send_md_to frame) n subscribers) !! c =
  (if bool_decide (c ∈ subscribers) then md_step frame else fun x => x) <$> net_clients n !! c.
Proof.
  induction subscribers as [|tx l IH]; intros n Hnd; cbn [foldl].
  - rewrite bool_decide_false by (by intros H; apply not_elem_of_nil in H). by destruct (net_clients n !! c).
  - apply NoDup_cons in Hnd as [Htx Hnd]. rewrite IH, send_md_clients by done.
    destruct (decide (c = tx)) as [->|Hne].
    + rewrite lookup_alter_eq, bool_decide_false, bool_decide_true by (done || by left). by destruct (net_clients n !! tx).
    + rewrite lookup_alter_ne by done. by rewrite (bool_decide_ext (c ∈ tx :: l) (c ∈ l)) by set_solver.
Qed.

(** ** Lives *)

Lemma client_op_ok op l : life_ok l -> life_ok (client_op op l).
Proof.
  intros [Hq Ho Ha Ht]. destruct l as [c sent written]. cbn [lf_client lf_sent lf_written] in *.
  destruct op as [frame|frame| |]; cbn [client_op lf_client lf_sent lf_written].
  - split; cbn [lf_client lf_sent lf_written]; [by apply try_send_frame_ok| | |]; unfold try_send_frame; destruct (tx_closed c) eqn:Hc.
    + by apply sublist_inserts_r.
    + destruct (_ <? _)%nat; simpl; [rewrite app_assoc; by apply sublist_app|]. destruct (tx_slow_reported c); by apply sublist_inserts_r.
    + intros _ H. congruence.
    + destruct (_ <? _)%nat; simpl; [intros Hs _; rewrite app_assoc; by rewrite Ha|]. destruct (tx_slow_reported c) eqn:Hs; simpl; congruence.
    + done.
    + destruct (_ <? _)%nat; simpl; [done|]. destruct (tx_slow_reported c) eqn:Hs; [|done]. intros _. by apply Ht.
  - unfold md_step. destruct (md_outcome c) eqn:Hm; [|done..]. split; cbn [lf_client lf_sent lf_written]; [by apply push_md_ok|done..].
  - destruct (writer_next c) as [[frame c']|] eqn:Hw; [|done]. pose proof (writer_next_ok _ _ _ Hw Hq) as Hq'. unfold writer_next in Hw.
    destruct (tx_frames c) as [|f fs] eqn:Hf; cbn [is_nil].
    + destruct (tx_md c) eqn:Hm; [done|]. injection Hw as <- <-. split; cbn [lf_client lf_sent lf_written]; done.
    + injection Hw as <- <-. split; cbn [lf_client lf_sent lf_written tx_frames]; [done|by rewrite <- app_assoc|by rewrite <- app_assoc|done].
  - split; cbn [lf_client lf_sent lf_written close_client tx_frames]; [split; simpl; lia| |done|done].
    rewrite app_nil_r. etrans; [|exact Ho]. by apply sublist_inserts_r.
Qed.

(** ** Reading *)

Lemma read_exact_prefix n bytes rest : length bytes = n -> read_exact n (bytes ++ rest) = Ok (bytes, rest).
Proof. intros H. unfold read_exact. by rewrite read_exact_app. Qed.

Lemma read_exact_inv n stream bytes rest : read_exact n stream = Ok (bytes, rest) -> stream = bytes ++ rest /\ length bytes = n.
Proof.
  unfold read_exact, read_exact_or_tail. destruct (Nat.leb_spec n (length stream)); [|done]. intros [= <- <-].
  split; [by rewrite take_drop|rewrite length_take; lia].
Qed.

Lemma from_be_range l : Forall is_byte l -> 0 <= from_be l < 256 ^ Z.of_nat (length l).
Proof.
  unfold from_be. induction l as [|b l IH] using rev_ind; [simpl; lia|]. intros Hl. rewrite foldl_app. cbn [foldl].
  apply Forall_app in Hl as [Hl Hb]. rewrite Forall_singleton in Hb. specialize (IH Hl). unfold is_byte in Hb.
  rewrite length_app, Nat2Z.inj_add, Z.pow_add_r by lia. change (Z.of_nat (length [b])) with 1. rewrite Z.pow_1_r.
  revert IH. generalize (256 ^ Z.of_nat (length l)) (foldl (fun acc b => acc * 256 + b) 0 l). lia.
Qed.

Lemma be_from_be l : Forall is_byte l -> be_bytes (length l) (from_be l) = l.
Proof.
  intros Hl. pose proof (from_be_range l Hl).
  apply (from_be_inj _ _ 0 0); [by rewrite length_be|apply be_bytes_ok|done|]. by apply from_be_bytes.
Qed.

Lemma read_body body rest :
  body <> [] -> Z.of_nat (length body) <= MAX_FRAME_BYTES ->
  read_framed_message (be_bytes 4 (as_u32 (Z.of_nat (length body))) ++ body ++ rest) = Ok (body, rest).
Proof.
  intros Hne Hl. unfold read_framed_message. rewrite read_exact_prefix by apply length_be. unfold MAX_FRAME_BYTES in *.
  assert (0 < length body)%nat by (destruct body; [done|simpl; lia]). unfold as_u32, wrap32, u32_modulus. rewrite Z.mod_small by lia.
  rewrite from_be_bytes by (change (256 ^ Z.of_nat 4) with 4294967296; lia).
  destruct (Z.eqb_spec (Z.of_nat (length body)) 0); [lia|]. destruct (Z.ltb_spec 1048576 (Z.of_nat (length body))); [lia|]. cbn [orb].
  apply read_exact_prefix. lia.
Qed.

Section reading.
Context {wire : Wire FxpMessage} {wire_laws : WireLaws FxpMessage} {empty : EmptyMessage}.

Lemma encode_nonempty (p : Payload) : encode_to_vec (Some p : FxpMessage) <> [].
Proof using wire_laws empty.
  intros H. pose proof (wire_roundtrip (Some p : FxpMessage)) as Hr. rewrite H, decode_empty in Hr. done.
Qed.

Lemma read_frame_message (p : Payload) rest :
  Z.of_nat (length (encode_to_vec (Some p : FxpMessage))) <= MAX_FRAME_BYTES ->
  read_framed_message (frame_message (Some p) ++ rest) = Ok (encode_to_vec (Some p : FxpMessage), rest).
Proof using wire_laws empty.
  intros Hl. unfold frame_message. rewrite <- app_assoc. apply read_body; [apply encode_nonempty|exact Hl].
Qed.
End reading.

(** ** Authentication *)

Section auth.
Context {eq : ConstantTimeEq} {eq_laws : ConstantTimeEqLaws}.

Lemma authenticate_inv token stream writable rest written :
  Forall is_byte stream -> authenticate (Some (bytes_of token)) stream writable = Ok (rest, written) ->
  writable = true /\ stream = AUTH_MAGIC ++ be_bytes 2 (Z.of_nat (String.length token)) ++ bytes_of token ++ rest.
Proof using eq_laws.
  intros Hs. unfold authenticate.
  destruct (read_exact 8 stream) as [[magic s1]|] eqn:H1; [|done]. cbn [or_denied]. case_bool_decide as Hm; [done|].
  destruct (read_exact 2 s1) as [[size s2]|] eqn:H2; [|done]. cbn [or_denied]. cbv zeta. destruct (_ || _); [done|].
  destruct (read_exact (Z.to_nat (from_be size)) s2) as [[tok s3]|] eqn:H3; [|done]. cbn [or_denied].
  rewrite constant_time_eq_spec. case_bool_decide as Ht; [|done]. cbn [negb]. destruct writable; [|done]. intros [= <- <-]. split; [done|].
  apply read_exact_inv in H1 as [-> _], H2 as [-> L2], H3 as [-> L3]. assert (magic = AUTH_MAGIC) as -> by (by destruct (decide (magic = AUTH_MAGIC))). subst tok.
  rewrite length_bytes_of in L3. apply Forall_app in Hs as [_ Hs]. apply Forall_app in Hs as [Hs _].
  rewrite <- (be_from_be size Hs) at 1. rewrite L2. do 3 f_equal.
  pose proof (from_be_range size Hs). lia.
Qed.

Lemma authenticate_ok token rest :
  24 <= Z.of_nat (String.length token) <= 1024 ->
  authenticate (Some (bytes_of token)) (AUTH_MAGIC ++ be_bytes 2 (Z.of_nat (String.length token)) ++ bytes_of token ++ rest) true = Ok (rest, [1]).
Proof using eq_laws.
  intros Hl. unfold authenticate. rewrite read_exact_prefix by reflexivity. cbn [or_denied]. rewrite bool_decide_false by (intros Hx; by apply Hx).
  rewrite read_exact_prefix by apply length_be. cbn [or_denied]. cbv zeta. rewrite from_be_bytes by (simpl; lia). unfold MAX_TOKEN.
  destruct (Z.eqb_spec (Z.of_nat (String.length token)) 0); [lia|]. destruct (Z.ltb_spec 1024 (Z.of_nat (String.length token))); [lia|]. cbn [orb].
  rewrite read_exact_prefix by (rewrite length_bytes_of; lia). cbn [or_denied]. by rewrite constant_time_eq_spec, bool_decide_true.
Qed.
End auth.

(** ** Theorems *)

Section theorems.

(** C31: Critical reports are not dropped silently. Over any life of a connection
    (reports and market data sent to it, writes to its socket, its end) the
    queues stay within their capacities, the reports queued and written are
    reports handed to it in that order, and as long as it is not closed either
    none of them is missing or its handler has been told to disconnect. *)
Theorem critical_frames_kept frame_capacity md_capacity ops :
  life_ok (foldl (fun l op => client_op op l) (mkLife (client_channel frame_capacity md_capacity) [] []) ops).
Proof.
  assert (life_ok (mkLife (client_channel frame_capacity md_capacity) [] [])) as H.
  { split; simpl; [split; simpl; lia|done|done|done]. }
  revert H. generalize (mkLife (client_channel frame_capacity md_capacity) [] []). induction ops as [|op ops IH]; intros l Hl; [done|].
  cbn [foldl]. by apply IH, client_op_ok.
Qed.

(** A broadcast keeps exactly the subscribers whose connection is open, in
    their order, and gives each of them the frame once, at the end of its queue
    or as one dropped frame when the queue is full; no other connection
    changes. *)
Theorem broadcast_md_reaches subscribers frame n :
  NoDup subscribers ->
  (broadcast_md subscribers frame n).1 = List.filter (open_client n) subscribers /\
  forall c, net_clients (broadcast_md subscribers frame n).2 !! c =
    (if bool_decide (c ∈ subscribers) then md_step frame else fun x => x) <$> net_clients n !! c.
Proof.
  intros Hnd. rewrite broadcast_md_spec. split; [done|]. intros c. by apply send_all_clients.
Qed.

(** C33: With a token configured, a connection reaches the message loop exactly
    when it sends the magic, the token's length and the token in time and the
    acknowledgement can be written, and the loop reads what comes after them; a
    token that [CoreAuth::new] accepts can always be presented. *)
Theorem authentication_exact `{!ConstantTimeEq, !ConstantTimeEqLaws} token auth stream writable timely rest :
  token <> ""%string -> auth_new (Some token) = Ok auth -> Forall is_byte stream ->
  (admit_connection auth stream writable timely = Some rest <->
   timely = true /\ writable = true /\
   stream = AUTH_MAGIC ++ be_bytes 2 (Z.of_nat (String.length token)) ++ bytes_of token ++ rest).
Proof.
  intros Hne Hnew Hs. unfold auth_new in Hnew. rewrite bool_decide_false in Hnew by done.
  rewrite length_bytes_of in Hnew. unfold MAX_TOKEN in Hnew.
  destruct (Z.ltb_spec 1024 (Z.of_nat (String.length token))); [done|]. destruct (Z.ltb_spec (Z.of_nat (String.length token)) 24); [done|].
  injection Hnew as <-. unfold admit_connection. cbn [auth_enabled]. change (auth_enabled (Some (bytes_of token))) with true. cbv iota.
  split.
  - destruct timely; [|done]. destruct (authenticate _ stream writable) as [[s' w]|e] eqn:Ha; [|done]. intros [= ->]. split; [done|].
    by apply (authenticate_inv token stream writable rest w).
  - intros (-> & -> & ->). rewrite (authenticate_ok token rest) by lia. done.
Qed.
End theorems.

(** ** Witnesses *)

(** A subscriber that is open, one whose queue is full and one that is gone. *)
Definition sample_net : Net :=
  mkNet (list_to_map [(1, client_channel 1 1); (2, push_md [9] (client_channel 1 1)); (3, close_client (client_channel 1 1))]) 0.

Lemma broadcast_md_reaches_witness :
  (broadcast_md [3; 1; 2] [7] sample_net).1 = [1; 2] /\
  net_clients (broadcast_md [3; 1; 2] [7] sample_net).2 !! 1 = Some (push_md [7] (client_channel 1 1)) /\
  net_clients (broadcast_md [3; 1; 2] [7] sample_net).2 !! 2 = Some (count_drop (push_md [9] (client_channel 1 1))).
Proof.
  destruct (broadcast_md_reaches [3; 1; 2] [7] sample_net) as [H1 H2].
  - apply (bool_decide_unpack (NoDup [3; 1; 2])). vm_compute. exact I.
  - split_and!; [rewrite H1|rewrite H2..]; vm_compute; reflexivity.
Defined.

#[local] Instance sample_eq : ConstantTimeEq := fun a b => bool_decide (a = b).
#[local] Instance sample_eq_laws : ConstantTimeEqLaws.
Proof. done. Qed.

Definition sample_token : string := "correct-private-value-long".

Definition sample_hello : list Z := AUTH_MAGIC ++ be_bytes 2 26 ++ bytes_of sample_token ++ [5; 6].

Lemma authentication_exact_witness :
  admit_connection (Some (bytes_of sample_token)) sample_hello true true = Some [5; 6] /\
  admit_connection (Some (bytes_of sample_token)) [0; 0; 0; 32] true true <> Some [].
Proof.
  split.
  - apply (authentication_exact sample_token (Some (bytes_of sample_token)) sample_hello true true [5; 6]).
    + discriminate.
    + vm_compute. reflexivity.
    + apply (bool_decide_unpack (Forall is_byte sample_hello)). vm_compute. exact I.
    + split_and!; reflexivity.
  - intros H. apply (authentication_exact sample_token (Some (bytes_of sample_token)) [0; 0; 0; 32] true true []) in H.
    + destruct H as (_ & _ & H). discriminate H.
    + discriminate.
    + vm_compute. reflexivity.
    + apply (bool_decide_unpack (Forall is_byte [0; 0; 0; 32])). vm_compute. exact I.
Defined.
