(* ===== verification/Server.v ===== *)
(** * The core server: server.rs

    One handler per connection, one task per symbol and one waiting task per
    mass cancel or status request. They run interleaved: [server_step] is one
    move of any of them. A handler that fans a request out moves one symbol at a
    time. A full symbol channel only delays its sender, so the queues of the
    symbol tasks have no bound here; the wall clock stands still during one
    engine operation. *)

From S2P Require Import Prelude BTree Text Bytes Json Order OrderBook Matcher Stops Session SymbolConfig Auction Proto Reports EventLog Engine.
From S2P Require Import Canonical Digest Trace Recording Journal Transport.

(** ** Definitions *)

(** *** State *)

(** [SymbolMsg]; a oneshot channel is a number. *)
Inductive ServerMsg : Type :=
| SStatus (request : OrderStatusRequest) (reply : nat)
| SOrder (order : NewOrderSingle) (output_tx : Z)
| SSubscribe (tx : Z)
| SCancel (m : CancelMsg Z)
| SCancelReplace (m : CancelReplaceMsg Z)
| SMassCancel (request : OrderMassCancelRequest) (output_tx : Z) (reply : nat)
| SSessionControl (m : SessionControl).

(** The settings of [SymbolRouter]. *)
Record SymbolRouter : Type := mkRouter {
  rt_schedule : option SessionSchedule;
  rt_stp_default : StpMode;
  rt_allowed_symbols : option (gset string);
  rt_max_symbols : option Z;
  rt_symbol_config : SymbolConfig;
}.

(** [SymbolRouter::new]. *)
Definition router_new (schedule : option SessionSchedule) : SymbolRouter := mkRouter schedule StpNone None None [].

(** A spawned symbol task: not polled yet, or with the engine it owns when
    nothing is logged. *)
Inductive TaskState : Type := TaskSpawned | TaskLogged | TaskUnlogged (e : Engine Z Z).

Record SymbolTask : Type := mkTask { tk_queue : list ServerMsg; tk_subscribers : list Z; tk_state : TaskState }.

(** What a oneshot channel carries. *)
Inductive Answer : Type := ACount (n : Z) | AReports (reports : list Report).

(** The task that [order_status] or [mass_cancel] spawns. *)
Inductive Waiter : Type :=
| WStatus (request : OrderStatusRequest) (reject : string) (replies : list nat) (out : Z)
| WMassCancel (request : OrderMassCancelRequest) (reject : string) (replies : list nat) (out : Z).

(** Where the handler of a connection is: at the next frame, or with the symbols
    a request still goes to. *)
Inductive Handler : Type :=
| HReading
| HSubscribing (symbols : list string)
| HStatus (request : OrderStatusRequest) (symbols : list string) (replies : list nat)
| HMassCancel (request : OrderMassCancelRequest) (symbols : list string) (replies : list nat)
| HControl (request : SessionControl) (symbols : list string) (affected : Z).

Record Server : Type := mkServer {
  sv_router : SymbolRouter;
  sv_tasks : gmap string SymbolTask;
  sv_journal : option (Journal Z);
  sv_ids : Z;
  sv_net : Net;
  sv_handlers : gmap Z Handler;
  sv_answers : gmap nat Answer;
  sv_next_reply : nat;
  sv_waiters : list Waiter;
}.

Definition set_tasks (t : gmap string SymbolTask) (s : Server) : Server :=
  mkServer (sv_router s) t (sv_journal s) (sv_ids s) (sv_net s) (sv_handlers s) (sv_answers s) (sv_next_reply s) (sv_waiters s).

Definition set_net (n : Net) (s : Server) : Server :=
  mkServer (sv_router s) (sv_tasks s) (sv_journal s) (sv_ids s) n (sv_handlers s) (sv_answers s) (sv_next_reply s) (sv_waiters s).

Definition set_handler (c : Z) (h : Handler) (s : Server) : Server :=
  mkServer (sv_router s) (sv_tasks s) (sv_journal s) (sv_ids s) (sv_net s) (<[c := h]> (sv_handlers s)) (sv_answers s) (sv_next_reply s) (sv_waiters s).

Definition add_waiter (w : Waiter) (s : Server) : Server :=
  mkServer (sv_router s) (sv_tasks s) (sv_journal s) (sv_ids s) (sv_net s) (sv_handlers s) (sv_answers s) (sv_next_reply s) (sv_waiters s ++ [w]).

(** [oneshot::channel]. *)
Definition new_reply (s : Server) : nat * Server :=
  (sv_next_reply s,
   mkServer (sv_router s) (sv_tasks s) (sv_journal s) (sv_ids s) (sv_net s) (sv_handlers s) (sv_answers s) (S (sv_next_reply s)) (sv_waiters s)).

(** *** The router *)

(** [SymbolRouter::symbols]. *)
Definition router_symbols (s : Server) : list string := (bt_of_map (sv_tasks s)).*1.

(** [SymbolRouter::get_existing]. *)
Definition get_existing (sym : string) (s : Server) : bool := bool_decide (is_Some (sv_tasks s !! sym)).

Definition disallowed (sym : string) (s : Server) : bool :=
  match rt_allowed_symbols (sv_router s) with Some allowed => bool_decide (sym ∉ allowed) | None => false end.

Definition over_limit (s : Server) : bool :=
  match rt_max_symbols (sv_router s) with Some limit => limit <=? Z.of_nat (size (sv_tasks s)) | None => false end.

(** [SymbolRouter::create_symbol_locked]. *)
Definition create_symbol_locked (sym : string) (s : Server) : Server := set_tasks (<[sym := mkTask [] [] TaskSpawned]> (sv_tasks s)) s.

(** [SymbolRouter::get_or_admit]; the second look under the lock sees the same map. *)
Definition get_or_admit (sym : string) (s : Server) : result Server string :=
  if bool_decide (sym = ""%string) then Err "symbol must not be empty"%string
  else if get_existing sym s then Ok s
  else if disallowed sym s then Err "symbol is not allowed"%string
  else if over_limit s then Err "maximum symbol count reached"%string
  else Ok (create_symbol_locked sym s).

(** [SymbolRouter::restore_symbol]. *)
Definition restore_symbol (sym : string) (s : Server) : Server :=
  if get_existing sym s then s else create_symbol_locked sym s.

(** [Sender::send] to a symbol task. *)
Definition send_symbol (sym : string) (m : ServerMsg) (s : Server) : Server :=
  set_tasks (alter (fun t => mkTask (tk_queue t ++ [m]) (tk_subscribers t) (tk_state t)) sym (sv_tasks s)) s.

(** *** Symbol tasks *)

(** The first poll of [configured_order_book_task]. *)
Definition start_task (sym : string) (now : Time) (s : Server) : TaskState :=
  match sv_journal s with
  | Some _ => TaskLogged
  | None =>
    TaskUnlogged (engine_new sym now (sv_ids s) (rt_schedule (sv_router s)) (rt_stp_default (sv_router s)) (config_get (rt_symbol_config (sv_router s)) sym))
  end.

(** The input [persisted_input] writes for a message, and its owner unless it is
    the detached one. *)
Definition persisted_message (sym : string) (msg : option ServerMsg) : Input * option Z :=
  match msg with
  | None | Some (SStatus _ _) => (ITick, None)
  | Some (SOrder order tx) => (INew order, Some tx)
  | Some (SSubscribe tx) => (ISubscribe, Some tx)
  | Some (SCancel m) => (ICancel (mkCancelRequest (c_order_id m) (c_client_cancel_id m) (c_sender m) sym), Some (c_output_tx m))
  | Some (SCancelReplace m) =>
    (IReplace (mkReplaceRequest (cr_order_id m) (cr_new_order_id m) (cr_client_replace_id m) (cr_sender m) sym (cr_new_price m)
       (cr_new_quantity m) (cr_new_time_in_force m) (cr_new_stop_price m) (cr_new_display_quantity m)), Some (cr_output_tx m))
  | Some (SMassCancel r tx _) =>
    (IMassCancel (mkMassCancelRequest (om_sender r) sym (om_side r) (om_client_request_id r) (om_reason r)), Some tx)
  | Some (SSessionControl m) => (ISessionControl m, None)
  end.

(** The message on the task's own engine. *)
Definition unlogged_input (msg : option ServerMsg) (e : Engine Z Z) : outcome (Engine Z Z) :=
  match msg with
  | None | Some (SStatus _ _) => tick e
  | Some (SOrder order tx) => new_order order tx e
  | Some (SCancel m) => cancel m e
  | Some (SCancelReplace m) => cancel_replace m e
  | Some (SSubscribe tx) => engine_subscribe tx e
  | Some (SMassCancel r _ _) => mass_cancel (mkMassCancelMsg (om_sender r) (om_side r) (om_reason r)) e
  | Some (SSessionControl m) => begin_opening_call (sc_opening_call_seconds m) e
  end.

(** The answer to a status message, from the engine after its tick. *)
Definition status_answer (msg : option ServerMsg) (e : option (Engine Z Z)) (answers : gmap nat Answer) : gmap nat Answer :=
  match msg with
  | Some (SStatus r reply) =>
    <[reply := AReports (match e with Some e => query_status (sq_sender r) (sq_order_id r) (sq_side r) e | None => [] end)]> answers
  | _ => answers
  end.

(** The reply that is taken out of a mass cancel. *)
Definition mass_reply (msg : option ServerMsg) : option nat :=
  match msg with Some (SMassCancel _ _ reply) => Some reply | _ => None end.

(** Why [start_server] gives up. *)
Inductive StartError : Type :=
| InvalidSchedule (e : ScheduleError)
| InvalidStp (e : StpParseError)
| InvalidConfig (e : ConfigError)
| StartFailed (text : string).

(** The environment variables it reads; paths are never checked to be UTF-8. *)
Record Env : Type := mkEnv {
  env_schedule : EnvVar; env_stp_default : EnvVar; env_symbols : EnvVar; env_max_symbols : EnvVar; env_symbol_config : EnvVar;
  env_run_record : option string; env_event_log : option string; env_run_meta : EnvVar;
}.

(** What the delivery loop changes. *)
Record Delivery : Type := mkDelivery {
  dl_subscribers : list Z; dl_reply : option nat; dl_net : Net; dl_answers : gmap nat Answer;
}.

Section server.
Context `{!Sha256, !Build}.
Context `{!Wire Report, !Wire TradeCapture, !Wire SessionStatus, !Wire AuctionInfo}.
Context `{!Wire NewOrderSingle, !Wire OrderCancelRequest, !Wire OrderCancelReplaceRequest, !Wire OrderMassCancelRequest, !Wire SessionControl}.
Context `{!Wire LogRecord, !Wire FxpMessage}.

(** [persisted_input]; after an error the process exits and the journal is as it
    is left on the disk. *)
Definition persisted_input (sym : string) (now : Time) (msg : option ServerMsg) (disk trace : DiskWrite) (j : Journal Z)
    : outcome (result (list (Output Z) * Journal Z) (string * Journal Z)) :=
  let '(input, owner) := persisted_message sym msg in
  let* (res, j) := apply sym now input (default (j_detached j) owner) disk trace j in
  Done (match res with Ok outs => Ok (outs, j) | Err e => Err (e, j) end).

Definition broadcast (p : Payload) (d : Delivery) : Delivery :=
  let '(subscribers, n) := broadcast_md (dl_subscribers d) (frame_message (Some p)) (dl_net d) in
  mkDelivery subscribers (dl_reply d) n (dl_answers d).

(** One output of the loop at the end of an iteration. *)
Definition deliver (d : Delivery) (o : Output Z) : Delivery :=
  match o with
  | OMassCancelCount n =>
    match dl_reply d with
    | Some reply => mkDelivery (dl_subscribers d) None (dl_net d) (<[reply := ACount n]> (dl_answers d))
    | None => d
    end
  | OTradingSessionStatus m => broadcast (PTradingSessionStatus m) d
  | OAuctionInfo m => broadcast (PAuctionInfo m) d
  | OExecutionReport tx m =>
    mkDelivery (dl_subscribers d) (dl_reply d) (send_frame (frame_message (Some (PExecutionReport m))) tx (dl_net d)) (dl_answers d)
  | OSnapshot tx m =>
    let '(alive, n) := try_send_md (frame_message (Some (PMarketDataSnapshot m))) tx (dl_net d) in
    mkDelivery (if alive && bool_decide (tx ∉ dl_subscribers d) then dl_subscribers d ++ [tx] else dl_subscribers d) (dl_reply d) n (dl_answers d)
  | OMarketData m => broadcast (PMarketDataIncremental m) d
  | OTrade m => if is_nil (dl_subscribers d) then d else broadcast (PTradeCaptureReport m) d
  end.

(** The task, journal and counter after the engine ran, with the outputs. The
    counter of execution ids is shared by the tasks: the ids of one operation are
    taken in one step here, where tasks that run at the same time may interleave
    theirs, with the same ids in another distribution. *)
Definition run_input (sym : string) (now : Time) (msg : option ServerMsg) (disk trace : DiskWrite) (state : TaskState) (s : Server)
    : outcome (result (list (Output Z) * option (Engine Z Z) * TaskState * option (Journal Z) * Z) (string * Journal Z)) :=
  match sv_journal s, state with
  | Some j, _ =>
    let* res := persisted_input sym now msg disk trace j in
    Done (match res with Ok (outs, j) => Ok (outs, j_engines j !! sym, state, Some j, sv_ids s) | Err e => Err e end)
  | None, TaskUnlogged e =>
    let* e := unlogged_input msg (with_shared now (sv_ids s) e) in
    Done (Ok (outputs (e_desk e), Some e, TaskUnlogged (fresh e), None, ids (e_desk e)))
  | None, _ => Panicked
  end.

(** One iteration of [configured_order_book_task] on the message it received, or
    on the timer; [queue] is what stays queued. *)
Definition task_iteration (sym : string) (now : Time) (msg : option ServerMsg) (disk trace : DiskWrite) (queue : list ServerMsg) (t : SymbolTask) (s : Server)
    : outcome (result Server (string * Journal Z)) :=
  let* res := run_input sym now msg disk trace (tk_state t) s in
  Done match res with
       | Err e => Err e
       | Ok (outs, e, state, j, i) =>
         let d := foldl deliver (mkDelivery (tk_subscribers t) (mass_reply msg) (sv_net s) (status_answer msg e (sv_answers s))) outs in
         Ok (mkServer (sv_router s) (<[sym := mkTask queue (dl_subscribers d) state]> (sv_tasks s)) j i (dl_net d) (sv_handlers s)
               (dl_answers d) (sv_next_reply s) (sv_waiters s))
       end.

(** *** Handlers *)

Definition send_to (c : Z) (p : Payload) (s : Server) : Server := set_net (send_frame (frame_message (Some p)) c (sv_net s)) s.

(** [server_reject]. *)
Definition server_reject (order_id sym client_order_id orig_order_id : string) (side order_quantity : Z) (account reason : string) (now : Time) : Report :=
  mkReport (mkHeader PROTOCOL_VERSION 0) "" order_id sym (exec_type_code ExecRejected) (order_status_code OrderRejected) 0 0 (timestamp_of now)
    0 0 0 account client_order_id orig_order_id reason side order_quantity false 0.

Definition unknown_reason (sym : string) : string := if bool_decide (sym = ""%string) then "symbol must not be empty" else "unknown symbol".

(** [OrderSide::try_from] and [MassCancelReason::try_from]. *)
Definition known_side (code : Z) : bool := (0 <=? code) && (code <=? 2).
Definition known_reason (code : Z) : bool := (0 <=? code) && (code <=? 2).

(** The symbols a request goes to. *)
Definition scoped (sym : string) (all : list string) : list string := if bool_decide (sym = ""%string) then all else [sym].

(** The start of [order_status]. *)
Definition order_status_request (request : OrderStatusRequest) (c : Z) (s : Server) : Server :=
  if bool_decide (sq_sender request = ""%string) || negb (known_side (sq_side request))
  then add_waiter (WStatus request "invalid order status request" [] c) s
  else set_handler c (HStatus request (scoped (sq_symbol request) (router_symbols s)) []) s.

(** The start of the server's [mass_cancel]. *)
Definition mass_cancel_reject (request : OrderMassCancelRequest) : string :=
  if bool_decide (om_sender request = ""%string) then "mass cancel requires a sender"
  else if negb (known_side (om_side request)) then "unsupported side"
  else if negb (known_reason (om_reason request)) then "unsupported reason"
  else "".

Definition mass_cancel_request (request : OrderMassCancelRequest) (c : Z) (s : Server) : Server :=
  let reject := mass_cancel_reject request in
  if bool_decide (reject = ""%string) then set_handler c (HMassCancel request (scoped (om_symbol request) (router_symbols s)) []) s
  else add_waiter (WMassCancel request reject [] c) s.

(** The start of [session_control]. *)
Definition control_reject (request : SessionControl) : string :=
  if bool_decide (sc_sender request = ""%string) then "session control requires a sender"
  else if negb ((1 <=? sc_opening_call_seconds request) && (sc_opening_call_seconds request <=? 3600)) then "opening_call_seconds must be 1..=3600"
  else "".

(** [Vec::dedup]. *)
Fixpoint dedup (l : list string) : list string :=
  match l with
  | x :: (y :: _) as l' => if bool_decide (x = y) then dedup l' else x :: dedup l'
  | _ => l
  end.

Definition control_symbols (request : SessionControl) (s : Server) : list string :=
  dedup (sort_stable (fun a b => negb (string_ltb b a))
           (scoped (sc_symbol request) (router_symbols s ++ config_symbols (rt_symbol_config (sv_router s))))).

Definition control_report (request : SessionControl) (affected : Z) (reject : string) (c : Z) (s : Server) : Server :=
  send_to c (PSessionControlReport (mkControlReport (sc_request_id request) (sc_sender request) affected reject)) s.

Definition session_control_request (request : SessionControl) (c : Z) (s : Server) : Server :=
  let reject := control_reject request in
  if bool_decide (reject = ""%string) then set_handler c (HControl request (control_symbols request s) 0) s
  else control_report request 0 reject c s.

(** A request for one symbol's task, or the reject for a symbol without one. *)
Definition forward (sym : string) (m : ServerMsg) (reject : string -> Report) (c : Z) (s : Server) : Server :=
  if get_existing sym s then send_symbol sym m s else send_to c (PExecutionReport (reject (unknown_reason sym))) s.

(** The body of the read loop of [handle_tcp_client_with_shutdown]. *)
Definition handle_message (c : Z) (now : Time) (msg : option FxpMessage) (s : Server) : Server :=
  match msg with
  | Some (Some (PNewOrder order)) =>
    let sym := n_symbol order in
    match get_or_admit sym s with
    | Ok s => send_symbol sym (SOrder order c) s
    | Err reason =>
      send_to c (PExecutionReport (server_reject (n_order_id order) sym (n_client_order_id order) "" (n_side order) (n_quantity order) (n_account order) reason now)) s
    end
  | Some (Some (POrderCancel m)) =>
    forward (oc_symbol m) (SCancel (mkCancelMsg (oc_order_id m) (oc_sender m) (oc_client_cancel_id m) c))
      (fun reason => server_reject (oc_order_id m) (oc_symbol m) (oc_client_cancel_id m) (oc_order_id m) 0 0 "" reason now) c s
  | Some (Some (POrderCancelReplace m)) =>
    forward (or_symbol m)
      (SCancelReplace (mkCancelReplaceMsg (or_order_id m) (or_sender m) (or_new_order_id m) (or_client_replace_id m) (or_new_price m) (or_new_quantity m)
         (or_new_time_in_force m) (or_new_stop_price m) (or_new_display_quantity m) c))
      (fun reason => server_reject (or_order_id m) (or_symbol m) (or_client_replace_id m) (or_order_id m) 0 0 "" reason now) c s
  | Some (Some (POrderStatusRequest request)) => order_status_request request c s
  | Some (Some (POrderMassCancel request)) => mass_cancel_request request c s
  | Some (Some (PSessionControl request)) => session_control_request request c s
  | Some (Some (PMarketDataRequest symbols)) => set_handler c (HSubscribing symbols) s
  | Some (Some _) | Some None | None => s
  end.

(** The loop over the symbols of a market-data request. *)
Definition subscribe_step (c : Z) (symbols : list string) (s : Server) : Server :=
  match symbols with
  | [] => set_handler c HReading s
  | sym :: symbols => set_handler c (HSubscribing symbols) (if get_existing sym s then send_symbol sym (SSubscribe c) s else s)
  end.

(** The loop of [order_status], and the task it spawns. *)
Definition status_step (c : Z) (request : OrderStatusRequest) (symbols : list string) (replies : list nat) (s : Server) : Server :=
  match symbols with
  | [] => set_handler c HReading (add_waiter (WStatus request "" replies c) s)
  | sym :: symbols =>
    if get_existing sym s then
      let '(reply, s) := new_reply s in
      set_handler c (HStatus request symbols (replies ++ [reply])) (send_symbol sym (SStatus request reply) s)
    else set_handler c (HStatus request symbols replies) s
  end.

(** The loop of the server's [mass_cancel], and the task it spawns. *)
Definition mass_cancel_step (c : Z) (request : OrderMassCancelRequest) (symbols : list string) (replies : list nat) (s : Server) : Server :=
  match symbols with
  | [] => set_handler c HReading (add_waiter (WMassCancel request "" replies c) s)
  | sym :: symbols =>
    if get_existing sym s then
      let '(reply, s) := new_reply s in
      set_handler c (HMassCancel request symbols (replies ++ [reply])) (send_symbol sym (SMassCancel request c reply) s)
    else set_handler c HReading (add_waiter (WMassCancel request "unknown symbol" replies c) s)
  end.

(** The loop of [session_control], and its report. *)
Definition control_step (c : Z) (request : SessionControl) (symbols : list string) (affected : Z) (s : Server) : Server :=
  match symbols with
  | [] => set_handler c HReading (control_report request affected "" c s)
  | sym :: symbols =>
    match get_or_admit sym s with
    | Ok s => set_handler c (HControl request symbols (add32 affected 1)) (send_symbol sym (SSessionControl request) s)
    | Err _ => set_handler c (HControl request symbols affected) s
    end
  end.

(** The next move of a handler that is fanning a request out. *)
Definition handler_step (c : Z) (h : Handler) (s : Server) : Server :=
  match h with
  | HReading => s
  | HSubscribing symbols => subscribe_step c symbols s
  | HStatus request symbols replies => status_step c request symbols replies s
  | HMassCancel request symbols replies => mass_cancel_step c request symbols replies s
  | HControl request symbols affected => control_step c request symbols affected s
  end.

(** *** Waiting tasks *)

(** Waiting for every reply in turn. *)
Definition collect_answers (replies : list nat) (s : Server) : option (list Answer) := mapM (fun r => sv_answers s !! r) replies.

Definition answer_count (a : Answer) : Z := match a with ACount n => n | AReports _ => 0 end.

Definition answer_reports (a : Answer) : list Report := match a with AReports rs => rs | ACount _ => [] end.

(** The order of the reports of a status response. *)
Definition symbol_id_leb (a b : Report) : bool :=
  if bool_decide (rep_symbol a = rep_symbol b) then negb (string_ltb (rep_order_id b) (rep_order_id a)) else string_ltb (rep_symbol a) (rep_symbol b).

Definition with_reports (rs : list Report) (complete : bool) (r : OrderStatusResponse) : OrderStatusResponse :=
  mkStatusResponse (sr_request_id r) (sr_sender r) rs (sr_reject_reason r) complete (sr_total_reports r).

(** [Message::encoded_len]. *)
Definition encoded_len (m : FxpMessage) : Z := Z.of_nat (length (encode_to_vec m)).

Definition too_large (r : OrderStatusResponse) : bool := MAX_FRAME_BYTES <? encoded_len (Some (POrderStatusResponse r)).

(** The loop of [send_order_status]: the pages it sends and the response it ends
    with. *)
Fixpoint status_pages (reports : list Report) (r : OrderStatusResponse) : list OrderStatusResponse * OrderStatusResponse :=
  match reports with
  | [] => ([], r)
  | report :: reports =>
    let page := sr_reports r in
    let pushed := with_reports (page ++ [report]) true r in
    if (64 <? length (page ++ [report]))%nat || too_large pushed then
      let sent := if is_nil page then [] else [with_reports page false r] in
      let alone := with_reports [report] true r in
      if too_large alone then
        (sent, mkStatusResponse (sr_request_id r) (sr_sender r) [] "status report exceeds frame limit" true 0)
      else let '(pages, last) := status_pages reports alone in (sent ++ pages, last)
    else status_pages reports pushed
  end.

(** [send_order_status]. *)
Definition send_order_status (out : Z) (request : OrderStatusRequest) (reports : list Report) (reject : string) (n : Net) : Net :=
  let '(pages, last) :=
    status_pages reports (mkStatusResponse (sq_request_id request) (sq_sender request) [] reject true (as_u32 (Z.of_nat (length reports)))) in
  let n := foldl (fun n page => send_frame (frame_message (Some (POrderStatusResponse page))) out n) n pages in
  if encoded_len (Some (POrderStatusResponse last)) <=? MAX_FRAME_BYTES
  then send_frame (frame_message (Some (POrderStatusResponse last))) out n
  else on_client notify_slow out n.

(** The rest of the task [order_status] spawns. *)
Definition status_finish (request : OrderStatusRequest) (reject : string) (answers : list Answer) (out : Z) (n : Net) : Net :=
  let reports := sort_stable symbol_id_leb (concat (answer_reports <$> answers)) in
  let reject :=
    if is_nil reports && bool_decide (sq_order_id request <> ""%string) && bool_decide (reject = ""%string) then "Unknown order"%string else reject in
  send_order_status out request reports reject n.

(** The rest of the task [mass_cancel] spawns. *)
Definition mass_cancel_finish (request : OrderMassCancelRequest) (reject : string) (answers : list Answer) (out : Z) (now : Time) (n : Net) : Net :=
  let total := foldl (fun total a => add32 total (answer_count a)) 0 answers in
  let report := mkMassCancelReport (om_client_request_id request) (om_sender request) (om_symbol request) (om_side request) total (om_reason request)
                  reject (timestamp_of now) in
  send_frame (frame_message (Some (POrderMassCancelReport report))) out n.

(** A waiting task whose replies have come. *)
Definition waiter_finish (w : Waiter) (now : Time) (s : Server) : option Net :=
  match w with
  | WStatus request reject replies out =>
    (fun answers => status_finish request reject answers out (sv_net s)) <$> collect_answers replies s
  | WMassCancel request reject replies out =>
    (fun answers => mass_cancel_finish request reject answers out now (sv_net s)) <$> collect_answers replies s
  end.

Definition waiter_replies (w : Waiter) : list nat := match w with WStatus _ _ replies _ | WMassCancel _ _ replies _ => replies end.

Definition remove_waiter (i : nat) (s : Server) : Server :=
  mkServer (sv_router s) (sv_tasks s) (sv_journal s) (sv_ids s) (sv_net s) (sv_handlers s) (sv_answers s) (sv_next_reply s) (delete i (sv_waiters s)).

(** *** Connections *)

(** A new connection: [ClientTx::channel(8192, 4096)] and its handler. *)
Definition accept_connection (c : Z) (s : Server) : Server :=
  set_handler c HReading (set_net (mkNet (<[c := client_channel (Z.to_nat 8192) (Z.to_nat 4096)]> (net_clients (sv_net s))) (net_md_dropped (sv_net s))) s).

(** The handler returns and its guard drops the writer with the receivers. *)
Definition leave_connection (c : Z) (s : Server) : Server :=
  let s := set_net (on_client close_client c (sv_net s)) s in
  mkServer (sv_router s) (sv_tasks s) (sv_journal s) (sv_ids s) (sv_net s) (delete c (sv_handlers s)) (sv_answers s) (sv_next_reply s) (sv_waiters s).

(** The handler returns at shutdown and detaches the writer. *)
Definition detach_connection (c : Z) (s : Server) : Server :=
  mkServer (sv_router s) (sv_tasks s) (sv_journal s) (sv_ids s) (sv_net s) (delete c (sv_handlers s)) (sv_answers s) (sv_next_reply s) (sv_waiters s).

(** *** Moves *)

(** One move of the server, or the exit of the process after a failed write. A
    handler looks at its slow-consumer permit before it reads. *)
Inductive server_step : Server -> result Server (string * Journal Z) -> Prop :=
| step_accept c s : net_clients (sv_net s) !! c = None -> server_step s (Ok (accept_connection c s))
| step_receive c cl body now s :
    sv_handlers s !! c = Some HReading -> net_clients (sv_net s) !! c = Some cl -> tx_slow cl = false ->
    server_step s (Ok (handle_message c now (wire_decode body) s))
| step_handler c h s : sv_handlers s !! c = Some h -> server_step s (Ok (handler_step c h s))
| step_leave c s : sv_handlers s !! c = Some HReading -> server_step s (Ok (leave_connection c s))
| step_detach c s : sv_handlers s !! c = Some HReading -> server_step s (Ok (detach_connection c s))
| step_write c cl frame cl' s :
    net_clients (sv_net s) !! c = Some cl -> writer_next cl = Some (frame, cl') ->
    server_step s (Ok (set_net (on_client (fun _ => cl') c (sv_net s)) s))
| step_writer_exit c s : server_step s (Ok (set_net (on_client close_client c (sv_net s)) s))
| step_start sym t now s :
    sv_tasks s !! sym = Some t -> tk_state t = TaskSpawned -> 0 <= nanos now < 1000000000 ->
    server_step s (Ok (set_tasks (<[sym := mkTask (tk_queue t) (tk_subscribers t) (start_task sym now s)]> (sv_tasks s)) s))
| step_timer sym t now disk trace res s :
    sv_tasks s !! sym = Some t -> tk_state t <> TaskSpawned -> 0 <= nanos now < 1000000000 ->
    task_iteration sym now None disk trace (tk_queue t) t s = Done res -> server_step s res
| step_message sym t m queue now disk trace res s :
    sv_tasks s !! sym = Some t -> tk_state t <> TaskSpawned -> tk_queue t = m :: queue -> 0 <= nanos now < 1000000000 ->
    task_iteration sym now (Some m) disk trace queue t s = Done res -> server_step s res
| step_waiter i w now n s :
    sv_waiters s !! i = Some w -> waiter_finish w now s = Some n -> server_step s (Ok (remove_waiter i (set_net n s))).

Inductive server_run (s0 : Server) : Server -> Prop :=
| srun_start : server_run s0 s0
| srun_step s s' : server_run s0 s -> server_step s (Ok s') -> server_run s0 s'.

(** *** Start and shutdown *)

(** The server before its first connection. *)
Definition server_new (router : SymbolRouter) (j : option (Journal Z)) (detached : Z) : Server :=
  let s := mkServer router ∅ j 1 (mkNet {[ detached := close_client (client_channel 1 1) ]} 0) ∅ ∅ 0 [] in
  match j with
  | Some j => foldl (fun s sym => restore_symbol sym s) s (bt_of_map (j_engines j)).*1
  | None => s
  end.

(** [SymbolConfig::load_env], with the text [read_to_string] gives for a path. *)
Definition load_env (v : EnvVar) (read_file : string -> result string string) : result SymbolConfig StartError :=
  match v with
  | EnvSet path =>
    if bool_decide (path = ""%string) then Ok []
    else
      match read_file path with
      | Err e => Err (StartFailed e)
      | Ok text => match parse_config text with Ok c => Ok c | Err e => Err (InvalidConfig e) end
      end
  | EnvNotPresent => Ok []
  | EnvNotUnicode => Err (StartFailed "environment variable was not valid unicode")
  end.

(** The settings [start_server] reads before it opens anything. *)
Definition start_router (env : Env) (read_file : string -> result string string) : result SymbolRouter StartError :=
  match match env_schedule env with
        | EnvSet v => match parse_schedule v with Ok s => Ok (Some s) | Err e => Err (InvalidSchedule e) end
        | EnvNotPresent => Ok None
        | EnvNotUnicode => Err (StartFailed "environment variable was not valid unicode")
        end with
  | Err e => Err e
  | Ok schedule =>
    match stp_mode_parse (match env_stp_default env with EnvSet v => v | _ => ""%string end) with
    | Err e => Err (InvalidStp e)
    | Ok stp =>
      match read_optional_env "FXP_SYMBOLS" (env_symbols env), read_optional_env "FXP_MAX_SYMBOLS" (env_max_symbols env) with
      | Err e, _ | _, Err e => Err (StartFailed e)
      | Ok allowed, Ok limit =>
        match parse_symbol_admission allowed limit with
        | Err e => Err (StartFailed e)
        | Ok (allowed, limit) =>
          match load_env (env_symbol_config env) read_file with
          | Err e => Err e
          | Ok config => Ok (mkRouter schedule stp allowed limit config)
          end
        end
      end
    end
  end.

(** The journal [start_server] opens: a new recording, or the log at its path. *)
Definition start_journal (env : Env) (router : SymbolRouter) (existing : bool) (budget : nat) (log : list Z) (now : string) (detached : Z)
    : outcome (result (option (Journal Z)) StartError) :=
  let opened m := let* r := m in Done (match r with Ok j => Ok (Some j) | Err e => Err (StartFailed e) end) in
  match env_run_record env, env_event_log env with
  | Some _, Some _ => Done (Err (StartFailed "FXP_RUN_RECORD and FXP_EVENT_LOG are mutually exclusive"))
  | None, None => Done (Ok None)
  | Some path, None =>
    if bool_decide (path = ""%string) then Done (Err (StartFailed "FXP_RUN_RECORD/FXP_EVENT_LOG must be a nonempty path"))
    else
      match env_run_meta env with
      | EnvNotUnicode => Done (Err (StartFailed "invalid FXP_RUN_META_JSON: environment variable was not valid unicode"))
      | EnvSet _ | EnvNotPresent =>
        let meta := match env_run_meta env with EnvSet v => v | _ => "{}"%string end in
        opened (journal_record existing budget (rt_schedule router) (rt_stp_default router) detached (rt_symbol_config router) meta now)
      end
  | None, Some path =>
    if bool_decide (path = ""%string) then Done (Err (StartFailed "FXP_RUN_RECORD/FXP_EVENT_LOG must be a nonempty path"))
    else opened (journal_open (rt_schedule router) (rt_stp_default router) detached (rt_symbol_config router) log)
  end.

(** Every symbol of the log ticks once before the server listens. *)
Fixpoint tick_symbols (symbols : list string) (now : Time) (disk trace : string -> DiskWrite) (j : Journal Z) : outcome (result (Journal Z) (string * Journal Z)) :=
  match symbols with
  | [] => Done (Ok j)
  | sym :: symbols =>
    let* (res, j) := apply sym now ITick (j_detached j) (disk sym) (trace sym) j in
    match res with
    | Ok _ => tick_symbols symbols now disk trace j
    | Err e => Done (Err (e, j))
    end
  end.

(** [start_server] up to the listener. *)
Definition start_server (env : Env) (read_file : string -> result string string) (existing : bool) (budget : nat) (log : list Z) (now : Time)
    (started : string) (detached : Z) (disk trace : string -> DiskWrite) : outcome (result Server StartError) :=
  match start_router env read_file with
  | Err e => Done (Err e)
  | Ok router =>
    let* opened := start_journal env router existing budget log started detached in
    match opened with
    | Err e => Done (Err e)
    | Ok None => Done (Ok (server_new router None detached))
    | Ok (Some j) =>
      let* ticked := tick_symbols (bt_of_map (j_engines j)).*1 now disk trace j in
      match ticked with
      | Err (e, _) => Done (Err (StartFailed e))
      | Ok j => Done (Ok (server_new router (Some j) detached))
      end
    end
  end.

(** The symbol tasks end when their channels are closed and empty. *)
Definition symbols_drained (s : Server) : bool :=
  bool_decide (sv_handlers s = ∅) && forallb (fun t => is_nil (tk_queue t.2)) (map_to_list (sv_tasks s)).

(** The end of [run_server_with_router_and_auth] once the tasks have ended: what
    is written to each connection, and the journal. *)
Definition shutdown_drain (budget : nat) (now : string) (timed_out task_failed : bool) (s : Server)
    : result (gmap Z (list (list Z)) * option (Journal Z)) string :=
  if timed_out then Err "core shutdown timed out"%string
  else if task_failed then Err "core shutdown task failed; recording remains incomplete"%string
  else
    let written := (fun c => (writer_drain c).1) <$> net_clients (sv_net s) in
    match sv_journal s with
    | None => Ok (written, None)
    | Some j => match journal_finish budget now j with (Ok _, j) => Ok (written, Some j) | (Err e, _) => Err e end
    end.
End server.
