(* ===== verification/ServerSpec.v ===== *)
(** * The server's promises: state

    What stays true of the server whatever its handlers, symbol tasks and
    waiting tasks do: symbols are admitted, messages are with the task of their
    symbol, queues are within their bounds, subscribers are listed once, and every
    reply a waiting task needs has been given or is still queued. *)

From S2P Require Import Prelude BTree Text Bytes Json Order OrderBook Matcher Stops Session SymbolConfig Auction Proto Reports EventLog Engine EngineInv.
From S2P Require Import LogRecovery Canonical Digest Trace Recording Journal JournalRecovery Transport TransportSpec Server.

(** ** Definitions *)

(** The reply a message carries. *)
Definition msg_reply (m : ServerMsg) : option nat :=
  match m with SStatus _ r | SMassCancel _ _ r => Some r | _ => None end.

(** A message in the queue of a symbol's task. *)
Definition routed (sym : string) (m : ServerMsg) : Prop :=
  match m with SOrder order _ => n_symbol order = sym | _ => True end.

Definition is_mass (m : ServerMsg) : bool := match m with SMassCancel _ _ _ => true | _ => false end.

Definition is_count (a : Answer) : bool := match a with ACount _ => true | AReports _ => false end.

(** The replies a handler or a waiting task holds, and whether they are counts. *)
Definition handler_replies (h : Handler) : list (nat * bool) :=
  match h with
  | HStatus _ _ replies => (fun r => (r, false)) <$> replies
  | HMassCancel _ _ replies => (fun r => (r, true)) <$> replies
  | _ => []
  end.

Definition waiting_replies (w : Waiter) : list (nat * bool) :=
  match w with
  | WStatus _ _ replies _ => (fun r => (r, false)) <$> replies
  | WMassCancel _ _ replies _ => (fun r => (r, true)) <$> replies
  end.

(** A reply has been given, or the message that will give it is queued. *)
Definition coming (s : Server) (r : nat) (count : bool) : Prop :=
  (exists a, sv_answers s !! r = Some a /\ is_count a = count) \/
  (exists sym t m, sv_tasks s !! sym = Some t /\ m ∈ tk_queue t /\ msg_reply m = Some r /\ is_mass m = count).

(** [kind] says which replies are counts. *)
Record replies_ok (kind : nat -> bool) (s : Server) : Prop := {
  ro_queued sym t m r : sv_tasks s !! sym = Some t -> m ∈ tk_queue t -> msg_reply m = Some r -> (r < sv_next_reply s)%nat /\ is_mass m = kind r;
  ro_answered r a : sv_answers s !! r = Some a -> (r < sv_next_reply s)%nat /\ is_count a = kind r;
  ro_handlers c h r count : sv_handlers s !! c = Some h -> (r, count) ∈ handler_replies h -> kind r = count /\ coming s r count;
  ro_waiters w r count : w ∈ sv_waiters s -> (r, count) ∈ waiting_replies w -> kind r = count /\ coming s r count;
}.

(** The symbols of the log a server starts from are restored whatever the
    settings say; others are admitted. *)
Definition admitted (restored : gset string) (s : Server) : Prop :=
  (forall sym, is_Some (sv_tasks s !! sym) -> sym ∈ restored \/ sym <> ""%string /\ disallowed sym s = false) /\
  match rt_max_symbols (sv_router s) with Some limit => Z.of_nat (size (sv_tasks s)) <= Z.max limit (Z.of_nat (size restored)) | None => True end.

Record task_ok (logged : bool) (sym : string) (t : SymbolTask) : Prop := {
  tk_routed : Forall (routed sym) (tk_queue t);
  tk_listed : NoDup (tk_subscribers t);
  tk_mode : match tk_state t with TaskSpawned => True | TaskLogged => logged = true | TaskUnlogged _ => logged = false end;
}.

Record server_ok (restored : gset string) (kind : nat -> bool) (s : Server) : Prop := {
  so_admitted : admitted restored s;
  so_tasks : map_Forall (task_ok (bool_decide (is_Some (sv_journal s)))) (sv_tasks s);
  so_net : net_ok (sv_net s);
  so_replies : replies_ok kind s;
}.

Section spec.
Context `{!Sha256, !Build}.
Context `{!Wire Report, !Wire TradeCapture, !Wire SessionStatus, !Wire AuctionInfo}.
Context `{!Wire NewOrderSingle, !Wire OrderCancelRequest, !Wire OrderCancelReplaceRequest, !Wire OrderMassCancelRequest, !Wire SessionControl}.
Context `{!Wire LogRecord, !Wire FxpMessage}.

(** ** Delivery *)

Definition count_of (o : Output Z) : option Z := match o with OMassCancelCount n => Some n | _ => None end.

Lemma broadcast_delivery p d :
  NoDup (dl_subscribers d) -> net_ok (dl_net d) ->
  NoDup (dl_subscribers (broadcast p d)) /\ net_ok (dl_net (broadcast p d)) /\ dl_answers (broadcast p d) = dl_answers d /\ dl_reply (broadcast p d) = dl_reply d.
Proof.
  intros Hnd Hn. unfold broadcast. rewrite broadcast_md_spec. cbn [dl_subscribers dl_net dl_answers dl_reply].
  split_and!; [|by apply send_all_ok|done|done]. by apply NoDup_ListNoDup, List.NoDup_filter, NoDup_ListNoDup.
Qed.

(** The reply is given by the first count. *)
Definition replied (d : Delivery) (n : option Z) : gmap nat Answer :=
  match dl_reply d, n with Some r, Some n => <[r := ACount n]> (dl_answers d) | _, _ => dl_answers d end.

Record delivered (d d' : Delivery) (n : option Z) : Prop := {
  dv_listed : NoDup (dl_subscribers d) -> net_ok (dl_net d) -> NoDup (dl_subscribers d') /\ net_ok (dl_net d');
  dv_answers : dl_answers d' = replied d n;
  dv_reply : dl_reply d' = match n with Some _ => None | None => dl_reply d end;
}.

Lemma deliver_spec d o : delivered d (deliver d o) (count_of o).
Proof.
  assert (forall p, delivered d (broadcast p d) None) as Hb.
  { intros p. unfold replied, broadcast. rewrite broadcast_md_spec. split; unfold replied; cbn [dl_subscribers dl_net dl_answers dl_reply]; [|by destruct (dl_reply d)|done].
    intros Hnd Hn. split; [by apply NoDup_ListNoDup, List.NoDup_filter, NoDup_ListNoDup|by apply send_all_ok]. }
  destruct o as [m|m|to m|m|m|to m|n]; cbn [deliver count_of]; try apply Hb.
  - split; cbn [dl_subscribers dl_net dl_answers dl_reply]; [|unfold replied; by destruct (dl_reply d)|done].
    intros Hnd Hn. split; [done|by apply send_frame_ok].
  - destruct (is_nil _); [|apply Hb]. split; [done|unfold replied; by destruct (dl_reply d)|done].
  - pose proof (try_send_md_ok (frame_message (Some (PMarketDataSnapshot m))) to (dl_net d)) as Hn. destruct (try_send_md _ _ _) as [alive n].
    split; cbn [dl_subscribers dl_net dl_answers dl_reply]; [|unfold replied; by destruct (dl_reply d)|done].
    intros Hnd Hnet. split; [|by apply Hn]. destruct alive; [|done]. case_bool_decide as Hin; [|done]. cbn [andb]. apply NoDup_app. split_and!; [done| |apply NoDup_singleton].
    intros x Hx Hx'. apply list_elem_of_singleton in Hx' as ->. done.
  - unfold replied. destruct (dl_reply d) eqn:Hr; (split; unfold replied; rewrite ?Hr; cbn [dl_subscribers dl_net dl_answers dl_reply]; done).
Qed.

Lemma deliver_all outs : forall d, delivered d (foldl deliver d outs) (head (omap count_of outs)).
Proof.
  induction outs as [|o outs IH]; intros d.
  - split; [done|unfold replied; simpl; by destruct (dl_reply d)|done].
  - cbn [foldl]. destruct (deliver_spec d o) as [L1 A1 R1], (IH (deliver d o)) as [L2 A2 R2].
    assert (head (omap count_of (o :: outs)) = match count_of o with Some n => Some n | None => head (omap count_of outs) end) as -> by (simpl; by destruct (count_of o)).
    split.
    + intros Hnd Hn. destruct (L1 Hnd Hn). by apply L2.
    + rewrite A2. unfold replied in *. rewrite R1, A1. destruct (count_of o); [by destruct (dl_reply d)|]. by destruct (dl_reply d).
    + rewrite R2, R1. by destruct (count_of o), (head _).
Qed.

(** ** Inputs *)

Lemma publish_grows at_ (e e' : Engine Z Z) : publish_indicative at_ e = Done e' -> exists outs, e_outputs e' = e_outputs e ++ outs.
Proof.
  unfold publish_indicative. destruct (negb _); [intros [= ->]; exists []; by rewrite app_nil_r|].
  destruct (auction_orders e); try done. cbn [obind]. destruct (uncross _ _); try done. cbn [obind].
  case_bool_decide; intros [= <-]; [exists []; by rewrite app_nil_r|by eexists].
Qed.

Lemma remember_keeps_outputs outs (e : Engine Z Z) : e_outputs (remember_status outs e) = e_outputs e.
Proof. unfold remember_status. destruct (foldl _ _ outs) as [h t]. by destruct (trim_history history_limit t h) as [h' t']. Qed.

Lemma mass_cancel_counts m (e e' : Engine Z Z) : mass_cancel m e = Done e' -> is_Some (head (omap count_of (e_outputs e'))).
Proof.
  unfold mass_cancel. destruct (tick e) as [e1| |]; try done. cbn [obind]. destruct (cancel_all _ _ _ _) as [e2| |]; try done. cbn [obind].
  set (e3 := on_desk _ e2). destruct (publish_indicative (e_clock e3) e3) as [e4| |] eqn:Hp; try done. cbn [obind].
  intros [= <-]. destruct (publish_grows _ _ _ Hp) as (outs & Ho).
  rewrite remember_keeps_outputs, Ho. subst e3. unfold e_outputs at 1. cbn [on_desk set_desk e_desk push outputs].
  rewrite !omap_app, <- app_assoc. destruct (omap count_of _); simpl; eauto.
Qed.

Lemma apply_mass_counts sym at_ m owner disk trace j outs (j' : Journal Z) :
  apply sym at_ (IMassCancel m) owner disk trace j = Done (Ok outs, j') -> is_Some (head (omap count_of outs)).
Proof.
  unfold apply. destruct (match j_recording j with Some r => rc_finished r | None => false end); [done|]. cbn [input_encode].
  destruct (log_append _ _ _ _ _ _) as [[[]|] log]; [|done]. unfold execute. cbn [dispatch].
  destruct (mass_cancel _ _) as [e| |] eqn:Hm; try done. cbn [obind]. apply mass_cancel_counts in Hm.
  destruct (take_diagnostics (fresh e)) as [diags e']. cbn [obind j_recording j_inspection set_log].
  destruct (j_recording j), (j_inspection j); cbn [fmap option_fmap option_map]; try (intros [= <- _]; exact Hm).
  destruct (append_trace _ _ _) as [[u|err] r']; [|done]. intros [= <- _]. exact Hm.
Qed.

(** What an engine run does to the journal. *)
Definition applied (sym : string) (now : Time) (disk trace : DiskWrite) (j j' : option (Journal Z)) : Prop :=
  match j with
  | None => j' = None
  | Some j => exists input owner outs j1, input_for sym now input /\ apply sym now input owner disk trace j = Done (Ok outs, j1) /\ j' = Some j1
  end.

Lemma persisted_input_for sym now msg :
  match msg with Some m => routed sym m | None => True end -> 0 <= nanos now < 1000000000 -> input_for sym now (persisted_message sym msg).1.
Proof. intros Hr Hn. split; [|done]. by destruct msg as [[]|]. Qed.

Lemma run_input_spec sym now msg disk trace state s res :
  match msg with Some m => routed sym m | None => True end -> 0 <= nanos now < 1000000000 ->
  run_input sym now msg disk trace state s = Done res ->
  match res with
  | Ok (outs, e, state', j', i) =>
    applied sym now disk trace (sv_journal s) j' /\ (is_Some (mass_reply msg) -> is_Some (head (omap count_of outs))) /\
    (state' = state \/ sv_journal s = None /\ exists e', state' = TaskUnlogged e')
  | Err (e, j') => exists j input owner, sv_journal s = Some j /\ input_for sym now input /\ apply sym now input owner disk trace j = Done (Err e, j')
  end.
Proof.
  intros Hr Hn. pose proof (persisted_input_for sym now msg Hr Hn) as Hin. unfold run_input. destruct (sv_journal s) as [j|] eqn:Hj.
  - unfold persisted_input. destruct (persisted_message sym msg) as [input owner] eqn:Hm. cbn [fst] in Hin.
    destruct (apply _ _ _ _ _ _ _) as [[[outs|e] j1]| |] eqn:Ha; try done; cbn [obind]; intros [= <-].
    + split_and!; [by exists input, (default (j_detached j) owner), outs, j1| |by left]. destruct msg as [[]|]; try by intros [? ?]. injection Hm as <- <-. intros _. by eapply apply_mass_counts.
    + by exists j, input, (default (j_detached j) owner).
  - destruct state as [| |e]; try done. destruct (unlogged_input msg _) as [e1| |] eqn:Hu; try done. cbn [obind]. intros [= <-].
    split_and!; [done| |right; eauto]. destruct msg as [[]|]; try by intros [? ?]. intros _. by eapply mass_cancel_counts.
Qed.

(** ** Moves *)

Context (restored : gset string).
Implicit Types (kind : nat -> bool).
Abbreviation ok := (server_ok restored).

Lemma ok_set_net kind n s : ok kind s -> net_ok n -> ok kind (set_net n s).
Proof. intros [A T N [Q1 Q2 Q3 Q4]] Hn. by split. Qed.

Lemma ok_set_handler kind c h s :
  ok kind s -> (forall r count, (r, count) ∈ handler_replies h -> kind r = count /\ coming s r count) -> ok kind (set_handler c h s).
Proof.
  intros [A T N [Q1 Q2 Q3 Q4]] Hh. split; [done..|]. split; [done|done| |done]. intros c' h' r count. cbn [set_handler sv_handlers].
  rewrite lookup_insert_Some. intros [[_ <-]|[_ Hc]]; [by apply Hh|by eapply Q3].
Qed.

Lemma ok_add_waiter kind w s :
  ok kind s -> (forall r count, (r, count) ∈ waiting_replies w -> kind r = count /\ coming s r count) -> ok kind (add_waiter w s).
Proof.
  intros [A T N [Q1 Q2 Q3 Q4]] Hw. split; [done..|]. split; [done..|]. intros w' r count. cbn [add_waiter sv_waiters].
  rewrite elem_of_app, list_elem_of_singleton. intros [Hin| ->]; [by eapply Q4|by apply Hw].
Qed.

(** Replies that are coming keep coming when queues and answers grow. *)
Lemma coming_mono s s' r count :
  sv_answers s ⊆ sv_answers s' ->
  (forall sym t m, sv_tasks s !! sym = Some t -> m ∈ tk_queue t -> exists t', sv_tasks s' !! sym = Some t' /\ m ∈ tk_queue t') ->
  coming s r count -> coming s' r count.
Proof.
  intros Ha Hq [(a & Hr & Hc)|(sym & t & m & Ht & Hm & Hr & Hc)]; [left; exists a; split; [by eapply lookup_weaken|done]|].
  right. destruct (Hq _ _ _ Ht Hm) as (t' & Ht' & Hm'). by exists sym, t', m.
Qed.

Lemma ok_send_symbol kind sym m s :
  ok kind s -> routed sym m -> (forall r, msg_reply m = Some r -> (r < sv_next_reply s)%nat /\ is_mass m = kind r) -> ok kind (send_symbol sym m s).
Proof.
  intros [A T N [Q1 Q2 Q3 Q4]] Hr Hm.
  assert (forall r count, coming s r count -> coming (send_symbol sym m s) r count) as Hmono.
  { intros r count. apply coming_mono; [done|]. intros sym' t m' Ht Hin. cbn [send_symbol set_tasks sv_tasks].
    destruct (decide (sym' = sym)) as [->|Hne].
    - rewrite lookup_alter_eq, Ht. eexists. split; [done|]. cbn [tk_queue]. apply elem_of_app. by left.
    - rewrite lookup_alter_ne by done. eauto. }
  split; [|..|split]; try done.
  - destruct A as [A1 A2]. split; cbn [send_symbol set_tasks sv_tasks sv_router]; [|by rewrite <- size_dom, dom_alter_L, size_dom]. intros sym'. rewrite lookup_alter_is_Some. apply A1.
  - intros sym' t. cbn [send_symbol set_tasks sv_tasks sv_journal]. rewrite lookup_alter_Some. intros [(<- & t' & Ht & ->)|[_ Ht]]; [|by apply T].
    destruct (T _ _ Ht) as [K1 K2 K3]. split; [|done..]. cbn [tk_queue]. apply Forall_app. split; [done|by apply Forall_singleton].
  - intros sym' t m' r. cbn [send_symbol set_tasks sv_tasks sv_next_reply]. rewrite lookup_alter_Some. intros [(<- & t' & Ht & ->)|[_ Ht]]; [|exact (Q1 _ _ _ _ Ht)].
    cbn [tk_queue]. rewrite elem_of_app, list_elem_of_singleton. intros [Hin| ->]; [by eapply Q1|apply Hm].
  - intros c h r count Hc Hin. destruct (Q3 c h r count Hc Hin). auto.
  - intros w r count Hw Hin. destruct (Q4 w r count Hw Hin). auto.
Qed.

(** A new reply, of either kind. *)
Definition with_kind (r : nat) (count : bool) kind : nat -> bool := fun r' => if decide (r' = r) then count else kind r'.

Lemma coming_below kind s r count : replies_ok kind s -> coming s r count -> (r < sv_next_reply s)%nat.
Proof. intros [Q1 Q2 _ _] [(a & Ha & _)|(sym & t & m & Ht & Hm & Hr & _)]; [by eapply Q2|by eapply Q1]. Qed.

Lemma with_kind_below r r' count kind : (r' < r)%nat -> with_kind r count kind r' = kind r'.
Proof. intros Hlt. unfold with_kind. destruct (decide (r' = r)); [lia|done]. Qed.

Lemma ok_new_reply kind count s : ok kind s -> ok (with_kind (sv_next_reply s) count kind) (new_reply s).2.
Proof.
  intros [A T N Q]. pose proof Q as [Q1 Q2 Q3 Q4]. split; [done..|]. split; cbn [new_reply snd sv_tasks sv_answers sv_handlers sv_waiters sv_next_reply].
  - intros sym t m r Ht Hm Hr. destruct (Q1 sym t m r Ht Hm Hr). rewrite with_kind_below by done. split; [lia|done].
  - intros r a Ha. destruct (Q2 r a Ha). rewrite with_kind_below by done. split; [lia|done].
  - intros c h r k Hc Hin. destruct (Q3 c h r k Hc Hin) as [Hk Hcome]. rewrite with_kind_below by (by eapply coming_below). done.
  - intros w r k Hw Hin. destruct (Q4 w r k Hw Hin) as [Hk Hcome]. rewrite with_kind_below by (by eapply coming_below). done.
Qed.

(** A new task changes no queue and no reply. *)
Lemma create_parts kind sym s :
  ok kind s -> get_existing sym s = false ->
  map_Forall (task_ok (bool_decide (is_Some (sv_journal s)))) (sv_tasks (create_symbol_locked sym s)) /\
  (forall r count, coming s r count -> coming (create_symbol_locked sym s) r count) /\ replies_ok kind (create_symbol_locked sym s).
Proof.
  intros [_ T _ [Q1 Q2 Q3 Q4]] Hex. apply bool_decide_eq_false, eq_None_not_Some in Hex.
  assert (forall r count, coming s r count -> coming (create_symbol_locked sym s) r count) as Hmono.
  { intros r count. apply coming_mono; [done|]. intros sym' t m Ht Hm. exists t. split; [|done]. cbn [create_symbol_locked set_tasks sv_tasks].
    rewrite lookup_insert_ne by congruence. done. }
  split_and!; [|done|split; [|done|..]].
  - intros sym' t. cbn [create_symbol_locked set_tasks sv_tasks]. rewrite lookup_insert_Some. intros [[<- <-]|[_ Ht]]; [|by apply T].
    split; cbn [tk_queue tk_subscribers tk_state]; [constructor..|done].
  - intros sym' t m r. cbn [create_symbol_locked set_tasks sv_tasks sv_next_reply]. rewrite lookup_insert_Some. intros [[<- <-]|[_ Ht]]; [|exact (Q1 _ _ _ _ Ht)].
    cbn [tk_queue]. intros Hm. by apply not_elem_of_nil in Hm.
  - intros c h r count Hc Hin. destruct (Q3 c h r count Hc Hin). auto.
  - intros w r count Hw Hin. destruct (Q4 w r count Hw Hin). auto.
Qed.

Lemma ok_create kind sym s :
  ok kind s -> get_existing sym s = false -> sym <> ""%string -> disallowed sym s = false -> over_limit s = false -> ok kind (create_symbol_locked sym s).
Proof.
  intros Hok Hex Hne Hd Ho. destruct (create_parts kind sym s Hok Hex) as (Ht & _ & Hr). destruct Hok as [[A1 A2] _ N _]. split; [split|done..].
  - intros sym'. cbn [create_symbol_locked set_tasks sv_tasks]. rewrite lookup_insert_is_Some'. intros [->|Hs]; [by right|by apply A1].
  - cbn [create_symbol_locked set_tasks sv_tasks sv_router]. apply bool_decide_eq_false, eq_None_not_Some in Hex.
    rewrite map_size_insert_None by done. unfold over_limit in Ho. destruct (rt_max_symbols (sv_router s)); [|done]. lia.
Qed.

Lemma ok_get_or_admit kind sym s s' :
  ok kind s -> get_or_admit sym s = Ok s' ->
  ok kind s' /\ is_Some (sv_tasks s' !! sym) /\ sv_next_reply s' = sv_next_reply s /\ sv_handlers s' = sv_handlers s /\ forall r count, coming s r count -> coming s' r count.
Proof.
  intros Hok. unfold get_or_admit. case_bool_decide as Hne; [done|]. destruct (get_existing sym s) eqn:Hex.
  - intros [= <-]. split_and!; try done. by apply bool_decide_eq_true in Hex.
  - destruct (disallowed sym s) eqn:Hd; [done|]. destruct (over_limit s) eqn:Ho; [done|]. intros [= <-]. split_and!; try done.
    + by apply ok_create.
    + cbn [create_symbol_locked set_tasks sv_tasks]. rewrite lookup_insert_eq. eauto.
    + by apply (create_parts kind).
Qed.

Lemma ok_send_to kind c p s : ok kind s -> ok kind (send_to c p s).
Proof. intros Hok. apply ok_set_net; [done|]. apply send_frame_ok, Hok. Qed.

Lemma no_replies (P : nat -> bool -> Prop) h : handler_replies h = [] -> forall r count, (r, count) ∈ handler_replies h -> P r count.
Proof. intros -> r count Hx. by apply not_elem_of_nil in Hx. Qed.

Lemma ok_forward kind sym m reject c s : ok kind s -> routed sym m -> msg_reply m = None -> ok kind (forward sym m reject c s).
Proof. intros Hok Hr Hm. unfold forward. destruct (get_existing sym s); [apply ok_send_symbol; [done..|congruence]|by apply ok_send_to]. Qed.

Lemma ok_handle_message kind c now msg s : ok kind s -> ok kind (handle_message c now msg s).
Proof.
  intros Hok. destruct msg as [[p|]|]; [|done..]. destruct p; cbn [handle_message]; try done.
  - destruct (get_or_admit (n_symbol m) s) as [s'|reason] eqn:Ha; [|by apply ok_send_to].
    destruct (ok_get_or_admit _ _ _ _ Hok Ha) as [Hok' _]. by apply ok_send_symbol.
  - by apply ok_forward.
  - by apply ok_forward.
  - unfold order_status_request. destruct (_ || _); [apply ok_add_waiter|apply ok_set_handler]; try done; intros r count Hx; by apply not_elem_of_nil in Hx.
  - unfold mass_cancel_request. cbv zeta. case_bool_decide; [apply ok_set_handler|apply ok_add_waiter]; try done; intros r count Hx; by apply not_elem_of_nil in Hx.
  - unfold session_control_request. cbv zeta. case_bool_decide; [apply ok_set_handler; [done|by apply no_replies]|by apply ok_send_to].
  - apply ok_set_handler; [done|by apply no_replies].
Qed.

(** A message with a new reply for a symbol that exists. *)
Lemma ok_ask kind sym m count s :
  ok kind s -> get_existing sym s = true -> routed sym m -> msg_reply m = Some (sv_next_reply s) -> is_mass m = count ->
  exists kind', let s' := send_symbol sym m (new_reply s).2 in
    ok kind' s' /\ kind' (sv_next_reply s) = count /\ coming s' (sv_next_reply s) count /\
    forall r k, kind r = k -> coming s r k -> kind' r = k /\ coming s' r k.
Proof.
  intros Hok Hex Hr Hm Hc. exists (with_kind (sv_next_reply s) count kind). cbv zeta.
  assert (with_kind (sv_next_reply s) count kind (sv_next_reply s) = count) as Hk by (unfold with_kind; by rewrite decide_True).
  unfold get_existing in Hex. apply bool_decide_eq_true in Hex as [t Ht]. split_and!; [|done| |].
  - apply ok_send_symbol; [by apply ok_new_reply|done|]. intros r Hr'. rewrite Hm in Hr'. injection Hr' as <-. cbn [new_reply snd sv_next_reply]. split; [lia|congruence].
  - right. exists sym, (mkTask (tk_queue t ++ [m]) (tk_subscribers t) (tk_state t)), m. cbn [send_symbol set_tasks new_reply snd sv_tasks tk_queue].
    rewrite lookup_alter_eq, Ht. split_and!; [done| |done|done]. apply elem_of_app. right. by left.
  - intros r k Hkr Hcome. rewrite with_kind_below by (eapply coming_below; [apply Hok|done]). split; [done|]. revert Hcome. apply coming_mono; [done|].
    intros sym' t' m' Ht' Hm'. cbn [send_symbol set_tasks new_reply snd sv_tasks]. destruct (decide (sym' = sym)) as [->|Hne].
    + rewrite lookup_alter_eq, Ht'. eexists. split; [done|]. cbn [tk_queue]. apply elem_of_app. by left.
    + rewrite lookup_alter_ne by done. eauto.
Qed.

Lemma elem_of_replies (l : list nat) (b : bool) r (k : bool) : (r, k) ∈ ((fun r : nat => (r, b)) <$> l) <-> r ∈ l /\ k = b.
Proof. rewrite list_elem_of_fmap. split; [intros (x & [= -> ->] & Hx); done|intros [Hr ->]; by exists r]. Qed.

Lemma ok_handler_step kind c h s : ok kind s -> sv_handlers s !! c = Some h -> exists kind', ok kind' (handler_step c h s).
Proof.
  intros Hok Hc. pose proof (ro_handlers _ _ (so_replies _ _ _ Hok) c h) as Hh.
  destruct h as [|symbols|request symbols replies|request symbols replies|request symbols affected];
    cbn [handler_step]; unfold subscribe_step, status_step, mass_cancel_step, control_step.
  - by exists kind.
  - exists kind. destruct symbols as [|sym symbols]; (apply ok_set_handler; [|by apply no_replies]); [done|].
    destruct (get_existing sym s); [|done]. by apply ok_send_symbol.
  - destruct symbols as [|sym symbols].
    + exists kind. apply ok_set_handler; [|by apply no_replies]. apply ok_add_waiter; [done|]. intros r k Hin. by apply Hh.
    + destruct (get_existing sym s) eqn:Hex.
      * destruct (ok_ask kind sym (SStatus request (sv_next_reply s)) false s Hok Hex I eq_refl eq_refl) as (kind' & Hok' & Hk & Hcome & Hold).
        exists kind'. cbn [new_reply]. apply ok_set_handler; [exact Hok'|]. intros r k Hin. apply elem_of_replies in Hin as [Hin ->].
        apply elem_of_app in Hin as [Hin|Hin]; [|apply list_elem_of_singleton in Hin as ->; done].
        destruct (Hh r false Hc) as [H1 H2]; [by apply elem_of_replies|]. by apply Hold.
      * exists kind. apply ok_set_handler; [done|]. intros r k Hin. by apply Hh.
  - destruct symbols as [|sym symbols].
    + exists kind. apply ok_set_handler; [|by apply no_replies]. apply ok_add_waiter; [done|]. intros r k Hin. by apply Hh.
    + destruct (get_existing sym s) eqn:Hex.
      * destruct (ok_ask kind sym (SMassCancel request c (sv_next_reply s)) true s Hok Hex I eq_refl eq_refl) as (kind' & Hok' & Hk & Hcome & Hold).
        exists kind'. cbn [new_reply]. apply ok_set_handler; [exact Hok'|]. intros r k Hin. apply elem_of_replies in Hin as [Hin ->].
        apply elem_of_app in Hin as [Hin|Hin]; [|apply list_elem_of_singleton in Hin as ->; done].
        destruct (Hh r true Hc) as [H1 H2]; [by apply elem_of_replies|]. by apply Hold.
      * exists kind. apply ok_set_handler; [|by apply no_replies]. apply ok_add_waiter; [done|]. intros r k Hin. by apply Hh.
  - exists kind. destruct symbols as [|sym symbols]; [apply ok_set_handler; [by apply ok_send_to|by apply no_replies]|].
    destruct (get_or_admit sym s) as [s'|reason] eqn:Ha; (apply ok_set_handler; [|by apply no_replies]); [|done].
    apply ok_send_symbol; [|done..]. by apply (ok_get_or_admit _ _ _ _ Hok Ha).
Qed.

(** ** Symbol tasks *)

(** What an iteration does to the answers. *)
Lemma iteration_answers msg e outs d :
  (is_Some (mass_reply msg) -> is_Some (head (omap count_of outs))) -> forall answers,
  dl_answers d = status_answer msg e answers -> dl_reply d = mass_reply msg ->
  dl_answers (foldl deliver d outs) =
    match msg ≫= msg_reply with Some r => <[r := default (ACount 0) (dl_answers (foldl deliver d outs) !! r)]> answers | None => answers end /\
  forall m r, msg = Some m -> msg_reply m = Some r -> exists a, dl_answers (foldl deliver d outs) !! r = Some a /\ is_count a = is_mass m.
Proof.
  intros Hcount answers Ha Hr. destruct (deliver_all outs d) as [_ Hd _]. unfold replied in Hd. rewrite Hr in Hd.
  destruct msg as [m|]; [|simpl in *; split; [congruence|done]]. destruct m as [q rp| | | | |q tx rp| ]; cbn [status_answer mass_reply] in *; try (split; [simpl; congruence|by intros ? ? [= <-] ?]).
  - rewrite Hd, Ha. split; [simpl; by rewrite lookup_insert_eq|]. intros m r [= <-] [= <-]. eexists. by rewrite lookup_insert_eq.
  - destruct (Hcount ltac:(eauto)) as [n Hn]. rewrite Hn in Hd. rewrite Hd, Ha. split; [simpl; by rewrite lookup_insert_eq|].
    intros m r [= <-] [= <-]. eexists. by rewrite lookup_insert_eq.
Qed.

(** The message an iteration takes from the queue. *)
Definition taken (msg : option ServerMsg) (queue : list ServerMsg) (t : SymbolTask) : Prop :=
  match msg with None => queue = tk_queue t | Some m => tk_queue t = m :: queue end.

Lemma taken_in msg queue t m : taken msg queue t -> m ∈ queue -> m ∈ tk_queue t.
Proof. destruct msg; simpl; [intros -> Hm; by right|by intros ->]. Qed.

Lemma taken_cases msg queue t m : taken msg queue t -> m ∈ tk_queue t -> msg = Some m \/ m ∈ queue.
Proof. destruct msg as [m'|]; simpl; [intros -> Hm; apply elem_of_cons in Hm as [->|Hm]; auto|intros ->; auto]. Qed.

(** The replies after the answers of one message. *)
Lemma replies_iteration kind sym msg queue t subscribers state j i n answers s :
  replies_ok kind s -> sv_tasks s !! sym = Some t -> taken msg queue t ->
  answers = match msg ≫= msg_reply with Some r => <[r := default (ACount 0) (answers !! r)]> (sv_answers s) | None => sv_answers s end ->
  (forall m r, msg = Some m -> msg_reply m = Some r -> exists a, answers !! r = Some a /\ is_count a = is_mass m) ->
  replies_ok kind (mkServer (sv_router s) (<[sym := mkTask queue subscribers state]> (sv_tasks s)) j i n (sv_handlers s) answers (sv_next_reply s) (sv_waiters s)).
Proof.
  intros Q Ht Hq Ha Hm. pose proof Q as [Q1 Q2 Q3 Q4].
  assert (forall m, msg = Some m -> m ∈ tk_queue t) as Hin by (intros m ->; simpl in Hq; rewrite Hq; by left).
  assert (forall r a, answers !! r = Some a -> (r < sv_next_reply s)%nat /\ is_count a = kind r) as Hk.
  { intros r a Hr. destruct (msg ≫= msg_reply) as [r'|] eqn:Hmr; [|rewrite Ha in Hr; by eapply Q2].
    destruct msg as [m|]; [|done]. destruct (decide (r = r')) as [->|Hne].
    - destruct (Hm m r' eq_refl Hmr) as (a' & Ha' & Hc). destruct (Q1 _ _ _ _ Ht (Hin m eq_refl) Hmr). split; [done|]. congruence.
    - rewrite Ha, lookup_insert_ne in Hr by done. by eapply Q2. }
  set (s' := mkServer _ _ _ _ _ _ _ _ _).
  assert (forall r count, kind r = count -> coming s r count -> coming s' r count) as Hmono.
  { intros r count Hkr [(a & Hr & Hc)|(sym' & t' & m' & Ht' & Hm' & Hr & Hc)].
    - left. assert (is_Some (answers !! r)) as [a' Ha'].
      { rewrite Ha. destruct (msg ≫= msg_reply); [rewrite lookup_insert_is_Some'; right|]; eauto. }
      exists a'. split; [done|]. destruct (Hk r a' Ha'). congruence.
    - destruct (decide (sym' = sym)) as [->|Hne].
      + rewrite Ht in Ht'. injection Ht' as <-. destruct (taken_cases _ _ _ _ Hq Hm') as [->|Hm2].
        * left. destruct (Hm m' r eq_refl Hr) as (a & Ha' & Hca). exists a. split; [done|congruence].
        * right. exists sym, (mkTask queue subscribers state), m'. cbn [s' sv_tasks]. rewrite lookup_insert_eq. done.
      + right. exists sym', t', m'. cbn [s' sv_tasks]. rewrite lookup_insert_ne by done. done. }
  split; cbn [s' sv_tasks sv_answers sv_handlers sv_waiters sv_next_reply].
  - intros sym' t' m' r. rewrite lookup_insert_Some. intros [[<- <-]|[_ Ht']]; [|exact (Q1 _ _ _ _ Ht')].
    cbn [tk_queue]. intros Hm'. apply (Q1 _ _ _ _ Ht). by eapply taken_in.
  - done.
  - intros c h r count Hc Hr. destruct (Q3 c h r count Hc Hr). split; [done|]. by apply Hmono.
  - intros w r count Hw Hr. destruct (Q4 w r count Hw Hr). split; [done|]. by apply Hmono.
Qed.

Lemma ok_iteration kind sym now msg disk trace queue t s res :
  ok kind s -> sv_tasks s !! sym = Some t -> taken msg queue t -> 0 <= nanos now < 1000000000 ->
  task_iteration sym now msg disk trace queue t s = Done res ->
  match res with
  | Ok s' => ok kind s' /\ applied sym now disk trace (sv_journal s) (sv_journal s')
  | Err (e, j') => exists j input owner, sv_journal s = Some j /\ input_for sym now input /\ apply sym now input owner disk trace j = Done (Err e, j')
  end.
Proof.
  intros Hok Ht Hq Hn. pose proof Hok as [[A1 A2] T N Q]. destruct (T _ _ Ht) as [K1 K2 K3]. unfold task_iteration.
  destruct (run_input sym now msg disk trace (tk_state t) s) as [r| |] eqn:Hrun; try done. cbn [obind].
  assert (match msg with Some m => routed sym m | None => True end) as Hr.
  { destruct msg as [m|]; [|done]. simpl in Hq. rewrite Hq in K1. by apply Forall_cons in K1 as [? _]. }
  pose proof (run_input_spec _ _ _ _ _ _ _ _ Hr Hn Hrun) as Hspec.
  destruct r as [[[[[outs e] state] j] i]|[err j']]; intros [= <-]; [|done]. destruct Hspec as (Hap & Hcount & Hst). split; [|done].
  set (d := mkDelivery _ _ _ _). destruct (deliver_all outs d) as [L _ _]. destruct (L K2 N) as [L1 L2].
  destruct (iteration_answers msg e outs d Hcount (sv_answers s) eq_refl eq_refl) as [Ha Hm].
  assert (bool_decide (is_Some j) = bool_decide (is_Some (sv_journal s))) as Hj.
  { apply bool_decide_ext. destruct (sv_journal s); simpl in Hap; [destruct Hap as (? & ? & ? & ? & _ & _ & ->); split; eauto|by subst j]. }
  split; cbn [sv_tasks sv_journal sv_net sv_router].
  - split; cbn [sv_tasks sv_router].
    + intros sym'. rewrite lookup_insert_is_Some'. intros [<-|Hs]; apply A1; eauto.
    + rewrite map_size_insert_Some by (by rewrite Ht). done.
  - intros sym' t'. rewrite lookup_insert_Some. intros [[<- <-]|[_ Ht']]; [|rewrite Hj; by apply T]. split; cbn [tk_queue tk_subscribers tk_state]; [|done|].
    + destruct msg; simpl in Hq; [rewrite Hq in K1; by apply Forall_cons in K1 as [_ ?]|by subst queue].
    + rewrite Hj. destruct Hst as [->|[Hnone (e' & ->)]]; [done|]. rewrite Hnone. done.
  - done.
  - by apply (replies_iteration kind sym msg queue t).
Qed.

(** ** Runs *)

Lemma fold_send_ok pages out : forall n, net_ok n -> net_ok (foldl (fun n page => send_frame (frame_message (Some (POrderStatusResponse page))) out n) n pages).
Proof. induction pages as [|p pages IH]; intros n Hn; [done|]. cbn [foldl]. by apply IH, send_frame_ok. Qed.

Lemma waiter_finish_ok w now n s : net_ok (sv_net s) -> waiter_finish w now s = Some n -> net_ok n.
Proof.
  intros Hn. destruct w as [request reject replies out|request reject replies out]; cbn [waiter_finish];
    (destruct (collect_answers replies s) as [answers|]; [|done]); cbn [fmap option_fmap option_map]; intros [= <-].
  - unfold status_finish, send_order_status. destruct (status_pages _ _) as [pages last]. cbv zeta.
    pose proof (fold_send_ok pages out _ Hn). destruct (_ <=? _); [by apply send_frame_ok|]. apply on_client_ok; [|done]. by intros c _ [? ?].
  - by apply send_frame_ok.
Qed.

Lemma close_client_ok c : client_ok (close_client c).
Proof. split; simpl; lia. Qed.

(** What a move does to the journal. *)
Definition journal_moved (s : Server) (res : result Server (string * Journal Z)) : Prop :=
  match res with
  | Ok s' => sv_journal s' = sv_journal s \/ exists sym now disk trace, applied sym now disk trace (sv_journal s) (sv_journal s')
  | Err (e, j') => exists sym now disk trace j input owner,
      sv_journal s = Some j /\ input_for sym now input /\ apply sym now input owner disk trace j = Done (Err e, j')
  end.

Lemma step_iteration kind sym t now msg queue disk trace res s :
  ok kind s -> sv_tasks s !! sym = Some t -> taken msg queue t -> 0 <= nanos now < 1000000000 ->
  task_iteration sym now msg disk trace queue t s = Done res ->
  journal_moved s res /\ match res with Ok s' => ok kind s' | Err _ => True end.
Proof.
  intros Hok Ht Hq Hn Hi. pose proof (ok_iteration _ _ _ _ _ _ _ _ _ _ Hok Ht Hq Hn Hi) as Hres. destruct res as [s'|[e j']]; cbn [journal_moved].
  - destruct Hres as [Hok' Hap]. split; [|done]. right. by exists sym, now, disk, trace.
  - destruct Hres as (j & input & owner & Hres). split; [|done]. by exists sym, now, disk, trace, j, input, owner.
Qed.

Lemma router_journal kind s s' sym : ok kind s -> get_or_admit sym s = Ok s' -> sv_journal s' = sv_journal s.
Proof.
  intros _. unfold get_or_admit. case_bool_decide; [done|]. destruct (get_existing sym s); [by intros [= <-]|].
  destruct (disallowed sym s); [done|]. destruct (over_limit s); [done|]. by intros [= <-].
Qed.

Lemma handle_message_journal kind c now msg s : ok kind s -> sv_journal (handle_message c now msg s) = sv_journal s.
Proof.
  intros Hok. destruct msg as [[p|]|]; [|done..]. destruct p; cbn [handle_message]; try done.
  - destruct (get_or_admit (n_symbol m) s) eqn:Ha; [|done]. cbn [send_symbol set_tasks sv_journal]. by eapply router_journal.
  - unfold forward. by destruct (get_existing _ _).
  - unfold forward. by destruct (get_existing _ _).
  - unfold order_status_request. by destruct (_ || _).
  - unfold mass_cancel_request. cbv zeta. by case_bool_decide.
  - unfold session_control_request. cbv zeta. by case_bool_decide.
Qed.

Lemma handler_step_journal kind c h s : ok kind s -> sv_journal (handler_step c h s) = sv_journal s.
Proof.
  intros Hok. destruct h as [|symbols|request symbols replies|request symbols replies|request symbols affected];
    cbn [handler_step]; unfold subscribe_step, status_step, mass_cancel_step, control_step; [done|..];
    destruct symbols as [|sym symbols]; try done; try by (destruct (get_existing sym s)).
  destruct (get_or_admit sym s) eqn:Ha; [|done]. cbn [set_handler send_symbol set_tasks sv_journal]. by eapply router_journal.
Qed.

Lemma ok_start kind sym t now s :
  ok kind s -> sv_tasks s !! sym = Some t ->
  ok kind (set_tasks (<[sym := mkTask (tk_queue t) (tk_subscribers t) (start_task sym now s)]> (sv_tasks s)) s).
Proof.
  intros [[A1 A2] T N Q] Ht. destruct (T _ _ Ht) as [K1 K2 _]. split; cbn [set_tasks sv_tasks sv_router sv_journal sv_net]; [split; cbn [set_tasks sv_tasks sv_router]| |done|].
  - intros sym'. rewrite lookup_insert_is_Some'. intros [<-|Hs]; apply A1; eauto.
  - rewrite map_size_insert_Some by (by rewrite Ht). done.
  - intros sym' t'. rewrite lookup_insert_Some. intros [[<- <-]|[_ Ht']]; [|by apply T]. split; cbn [tk_queue tk_subscribers tk_state]; [done..|].
    unfold start_task. by destruct (sv_journal s).
  - apply (replies_iteration kind sym None (tk_queue t) t); [done..|]. by intros m r.
Qed.

Lemma ok_drop_handler kind c s : ok kind s -> ok kind (detach_connection c s).
Proof.
  intros [A T N [Q1 Q2 Q3 Q4]]. split; [done..|]. split; [done|done| |done]. intros c' h r count. cbn [detach_connection sv_handlers].
  rewrite lookup_delete_Some. intros [_ Hc]. by apply (Q3 c').
Qed.

Lemma ok_remove_waiter kind i n s : ok kind s -> net_ok n -> ok kind (remove_waiter i (set_net n s)).
Proof.
  intros [A T N [Q1 Q2 Q3 Q4]] Hn. split; [done..|]. split; [done..|]. intros w r count. cbn [remove_waiter set_net sv_waiters]. intros Hw. apply Q4.
  eapply elem_of_submseteq; [exact Hw|apply sublist_submseteq, sublist_delete].
Qed.

Lemma step_ok kind s res :
  ok kind s -> server_step s res -> journal_moved s res /\ match res with Ok s' => exists kind', ok kind' s' | Err _ => True end.
Proof.
  intros Hok Hstep. pose proof (so_net _ _ _ Hok) as Hnet. destruct Hstep as [c s|c cl body now s|c h s|c s|c s|c cl frame cl' s Hc Hw|c s|sym t now s|sym t now disk trace res s|sym t m queue now disk trace res s|i w now n s].
  - split; [by left|]. exists kind. apply ok_set_handler; [|by apply no_replies]. apply ok_set_net; [done|]. intros c' cl. cbn [net_clients].
    rewrite lookup_insert_Some. intros [[_ <-]|[_ Hc]]; [split; simpl; lia|by eapply Hnet].
  - split; [left; by eapply handle_message_journal|]. exists kind. by apply ok_handle_message.
  - split; [left; by eapply handler_step_journal|]. by eapply ok_handler_step.
  - split; [by left|]. exists kind. apply (ok_drop_handler _ _ (set_net _ s)), ok_set_net; [done|]. apply on_client_ok; [|done]. intros cl _ _. apply close_client_ok.
  - split; [by left|]. exists kind. by apply ok_drop_handler.
  - split; [by left|]. exists kind. apply ok_set_net; [done|]. apply on_client_ok; [|done]. intros cl2 Hc2 Hok2. rewrite Hc in Hc2. injection Hc2 as <-. by eapply writer_next_ok.
  - split; [by left|]. exists kind. apply ok_set_net; [done|]. apply on_client_ok; [|done]. intros cl _ _. apply close_client_ok.
  - split; [by left|]. exists kind. by apply ok_start.
  - destruct (step_iteration kind sym t now None (tk_queue t) disk trace res s) as [Hj Hr]; try done. split; [done|]. destruct res; eauto.
  - destruct (step_iteration kind sym t now (Some m) queue disk trace res s) as [Hj Hr]; try done. split; [done|]. destruct res; eauto.
  - split; [by left|]. exists kind. apply ok_remove_waiter; [done|]. by eapply waiter_finish_ok.
Qed.

Lemma run_ok s0 s : (exists kind, ok kind s0) -> server_run s0 s -> exists kind, ok kind s.
Proof.
  intros H1. induction 1 as [|s s' _ [kind IH] Hs]; [done|]. by destruct (step_ok _ _ _ IH Hs) as [_ ?].
Qed.
End spec.

(** ** Starts *)

(** The symbols of the journal a server starts from. *)
Definition restored_symbols (j : option (Journal Z)) : gset string := match j with Some j => dom (j_engines j) | None => ∅ end.

Lemma restore_ok restored sym kind s : server_ok restored kind s -> sym ∈ restored -> (dom (sv_tasks s) ⊆ restored) ->
  server_ok restored kind (restore_symbol sym s) /\ dom (sv_tasks (restore_symbol sym s)) ⊆ restored /\ sv_journal (restore_symbol sym s) = sv_journal s.
Proof.
  intros Hok Hin Hdom. unfold restore_symbol. destruct (get_existing sym s) eqn:Hex; [done|].
  assert (dom (sv_tasks (create_symbol_locked sym s)) ⊆ restored) as Hdom'.
  { cbn [create_symbol_locked set_tasks sv_tasks]. rewrite dom_insert_L. set_solver. }
  split_and!; [|done|done]. destruct (create_parts restored kind sym s Hok Hex) as (Ht & _ & Hr). destruct Hok as [_ _ N _]. split; [split|done..].
  - intros sym' Hs. left. apply Hdom'. by apply elem_of_dom.
  - destruct (rt_max_symbols _); [|done]. apply subseteq_size in Hdom'. rewrite size_dom in Hdom'. lia.
Qed.

Lemma server_new_ok router j detached : exists kind, server_ok (restored_symbols j) kind (server_new router j detached).
Proof.
  exists (fun _ => false). unfold server_new. set (s := mkServer _ _ _ _ _ _ _ _ _).
  assert (server_ok (restored_symbols j) (fun _ => false) s) as Hs.
  { split; [split| | |split]; cbn [s sv_tasks sv_router sv_journal sv_answers sv_handlers sv_waiters sv_net].
    - intros sym [t Ht]. by rewrite lookup_empty in Ht.
    - destruct (rt_max_symbols router); [|done]. rewrite map_size_empty. lia.
    - apply map_Forall_empty.
    - intros c cl. cbn [net_clients]. rewrite lookup_singleton_Some. intros [_ <-]. apply close_client_ok.
    - intros sym t m r Ht. by rewrite lookup_empty in Ht.
    - intros r a Ha. by rewrite lookup_empty in Ha.
    - intros c h r count Hc. by rewrite lookup_empty in Hc.
    - intros w r count Hw. by apply not_elem_of_nil in Hw. }
  destruct j as [j|]; [|done]. assert (dom (sv_tasks s) ⊆ restored_symbols (Some j)) as Hd by (cbn [s sv_tasks]; rewrite dom_empty_L; set_solver).
  assert (Forall (fun sym => sym ∈ restored_symbols (Some j)) (bt_of_map (j_engines j)).*1) as Hall.
  { apply Forall_forall. intros sym Hin. apply list_elem_of_fmap in Hin as ([k e] & -> & Hin). apply bt_of_map_elem in Hin. by eapply elem_of_dom_2. }
  revert Hs Hd. generalize s. induction Hall as [|sym l Hin _ IH]; intros s1 Hs Hd; [done|]. cbn [foldl].
  destruct (restore_ok _ sym _ _ Hs Hin Hd) as (H1 & H2 & _). by apply IH.
Qed.

(** ** Theorems *)

Section theorems.
Context `{!Sha256, !Build}.
Context `{!Wire Report, !Wire TradeCapture, !Wire SessionStatus, !Wire AuctionInfo}.
Context `{!Wire NewOrderSingle, !Wire OrderCancelRequest, !Wire OrderCancelReplaceRequest, !Wire OrderMassCancelRequest, !Wire SessionControl}.
Context `{!Wire LogRecord, !Wire FxpMessage}.

(** C14: The server's invariant. Whatever its handlers, symbol tasks, writers and
    waiting tasks do in any order: every symbol with a task was restored from the
    log or passed the admission settings, whose limit is kept; the orders in the
    queue of a task are for its symbol; no connection is subscribed twice; every
    output queue is within its capacity; and every reply a handler or a waiting
    task needs has been given, as the kind of answer it expects, or the message
    that will give it is queued. *)
Theorem server_invariant router j detached s :
  server_run (server_new router j detached) s -> exists kind, server_ok (restored_symbols j) kind s.
Proof. apply run_ok, server_new_ok. Qed.

(** C24: No request waits forever. When the symbol tasks have emptied their
    queues, every waiting mass cancel and status request can be answered, and a
    mass cancel is answered with the counts of the symbols it was sent to. *)
Theorem server_answers router j detached s :
  server_run (server_new router j detached) s -> (forall sym t, sv_tasks s !! sym = Some t -> tk_queue t = []) ->
  forall w, w ∈ sv_waiters s ->
    exists answers, collect_answers (waiter_replies w) s = Some answers /\
      Forall (fun a => is_count a = match w with WMassCancel _ _ _ _ => true | WStatus _ _ _ _ => false end) answers /\
      forall now, is_Some (waiter_finish w now s).
Proof.
  intros Hrun Hempty w Hw. destruct (run_ok _ _ _ (server_new_ok router j detached) Hrun) as [kind [_ _ _ [_ _ _ Q4]]].
  assert (forall r, r ∈ waiter_replies w -> exists a, sv_answers s !! r = Some a /\ is_count a = match w with WMassCancel _ _ _ _ => true | WStatus _ _ _ _ => false end) as Hr.
  { intros r Hr. destruct (Q4 w r (match w with WMassCancel _ _ _ _ => true | WStatus _ _ _ _ => false end) Hw) as [_ [Ha|(sym & t & m & Ht & Hm & _)]].
    - destruct w; by apply elem_of_replies.
    - done.
    - rewrite (Hempty _ _ Ht) in Hm. by apply not_elem_of_nil in Hm. }
  assert (forall answers, collect_answers (waiter_replies w) s = Some answers -> forall now, is_Some (waiter_finish w now s)) as Hfin.
  { intros answers Ha now. destruct w; cbn [waiter_finish waiter_replies] in *; rewrite Ha; by eexists. }
  assert (exists answers, collect_answers (waiter_replies w) s = Some answers /\
    Forall (fun a => is_count a = match w with WMassCancel _ _ _ _ => true | WStatus _ _ _ _ => false end) answers) as (answers & Ha & Hall); [|by eauto].
  clear Hfin. revert Hr. unfold collect_answers. induction (waiter_replies w) as [|r rs IH]; intros Hr; [by exists []|].
  destruct (Hr r) as (a & Ha & Hc); [by left|]. destruct IH as (answers & Hanswers & Hall); [intros r' Hr'; apply Hr; by right|].
  exists (a :: answers). split; [|by constructor]. cbn [mapM]. rewrite Ha. cbn [mbind option_bind]. rewrite Hanswers. done.
Qed.
End theorems.
