(* ===== verification/ServerMoves.v ===== *)
(** * Running the server

    The moves of the server as a function, and that what it computes is a run. *)

From S2P Require Import Prelude BTree Text Bytes Json Order OrderBook Matcher Stops Session SymbolConfig Auction Proto Reports EventLog Engine.
From S2P Require Import Canonical Digest Trace Recording Journal Transport Server.

(** ** Definitions *)

Inductive Move : Type :=
| MvAccept (c : Z)
| MvReceive (c : Z) (body : list Z) (now : Time)
| MvHandler (c : Z)
| MvLeave (c : Z)
| MvWrite (c : Z)
| MvStart (sym : string) (now : Time)
| MvTimer (sym : string) (now : Time)
| MvMessage (sym : string) (now : Time)
| MvWaiter (i : nat) (now : Time).

Section moves.
Context `{!Sha256, !Build}.
Context `{!Wire Report, !Wire TradeCapture, !Wire SessionStatus, !Wire AuctionInfo}.
Context `{!Wire NewOrderSingle, !Wire OrderCancelRequest, !Wire OrderCancelReplaceRequest, !Wire OrderMassCancelRequest, !Wire SessionControl}.
Context `{!Wire LogRecord, !Wire FxpMessage}.

Definition is_spawned (t : SymbolTask) : bool := match tk_state t with TaskSpawned => true | _ => false end.

Definition clock_ok (now : Time) : bool := (0 <=? nanos now) && (nanos now <? 1000000000).

Definition iterate (sym : string) (now : Time) (msg : option ServerMsg) (queue : list ServerMsg) (t : SymbolTask) (s : Server) : option Server :=
  if is_spawned t || negb (clock_ok now) then None
  else match task_iteration sym now msg Synced Synced queue t s with Done (Ok s) => Some s | _ => None end.

(** The server after a move, where it is possible; the disks work. *)
Definition move (m : Move) (s : Server) : option Server :=
  match m with
  | MvAccept c => match net_clients (sv_net s) !! c with None => Some (accept_connection c s) | Some _ => None end
  | MvReceive c body now =>
    match sv_handlers s !! c, net_clients (sv_net s) !! c with
    | Some HReading, Some cl => if tx_slow cl then None else Some (handle_message c now (wire_decode body) s)
    | _, _ => None
    end
  | MvHandler c => match sv_handlers s !! c with Some h => Some (handler_step c h s) | None => None end
  | MvLeave c => match sv_handlers s !! c with Some HReading => Some (leave_connection c s) | _ => None end
  | MvWrite c =>
    match net_clients (sv_net s) !! c with
    | Some cl => match writer_next cl with Some (_, cl') => Some (set_net (on_client (fun _ => cl') c (sv_net s)) s) | None => None end
    | None => None
    end
  | MvStart sym now =>
    match sv_tasks s !! sym with
    | Some t => if is_spawned t && clock_ok now then Some (set_tasks (<[sym := mkTask (tk_queue t) (tk_subscribers t) (start_task sym now s)]> (sv_tasks s)) s) else None
    | None => None
    end
  | MvTimer sym now => match sv_tasks s !! sym with Some t => iterate sym now None (tk_queue t) t s | None => None end
  | MvMessage sym now =>
    match sv_tasks s !! sym with
    | Some t => match tk_queue t with m :: queue => iterate sym now (Some m) queue t s | [] => None end
    | None => None
    end
  | MvWaiter i now =>
    match sv_waiters s !! i with
    | Some w => match waiter_finish w now s with Some n => Some (remove_waiter i (set_net n s)) | None => None end
    | None => None
    end
  end.

Fixpoint moves (ms : list Move) (s : Server) : option Server :=
  match ms with
  | [] => Some s
  | m :: ms => match move m s with Some s => moves ms s | None => None end
  end.

(** ** Lemmas *)

Lemma clock_ok_spec now : clock_ok now = true -> 0 <= nanos now < 1000000000.
Proof. unfold clock_ok. lia. Qed.

Lemma move_step m s s' : move m s = Some s' -> server_step s (Ok s').
Proof.
  destruct m as [c|c body now|c|c|c|sym now|sym now|sym now|i now]; cbn [move].
  - destruct (net_clients (sv_net s) !! c) eqn:Hc; [done|]. intros [= <-]. by apply step_accept.
  - destruct (sv_handlers s !! c) as [[]|] eqn:Hh; try done. destruct (net_clients (sv_net s) !! c) as [cl|] eqn:Hc; [|done].
    destruct (tx_slow cl) eqn:Hs; [done|]. intros [= <-]. by eapply step_receive.
  - destruct (sv_handlers s !! c) as [h|] eqn:Hh; [|done]. intros [= <-]. by apply step_handler.
  - destruct (sv_handlers s !! c) as [[]|] eqn:Hh; try done. intros [= <-]. by apply step_leave.
  - destruct (net_clients (sv_net s) !! c) as [cl|] eqn:Hc; [|done]. destruct (writer_next cl) as [[frame cl']|] eqn:Hw; [|done]. intros [= <-]. by eapply step_write.
  - destruct (sv_tasks s !! sym) as [t|] eqn:Ht; [|done]. destruct (is_spawned t) eqn:Hs; [|done]. destruct (clock_ok now) eqn:Hn; [|done].
    intros [= <-]. apply step_start; [done| |by apply clock_ok_spec]. unfold is_spawned in Hs. by destruct (tk_state t).
  - destruct (sv_tasks s !! sym) as [t|] eqn:Ht; [|done]. unfold iterate. destruct (is_spawned t) eqn:Hs; [done|]. destruct (clock_ok now) eqn:Hn; [|done]. cbn [orb negb].
    destruct (task_iteration _ _ _ _ _ _ _ _) as [[s1|e]| |] eqn:Hi; try done. intros [= <-]. eapply step_timer; [done| |by apply clock_ok_spec|done].
    intros Hx. unfold is_spawned in Hs. by rewrite Hx in Hs.
  - destruct (sv_tasks s !! sym) as [t|] eqn:Ht; [|done]. destruct (tk_queue t) as [|m queue] eqn:Hq; [done|]. unfold iterate.
    destruct (is_spawned t) eqn:Hs; [done|]. destruct (clock_ok now) eqn:Hn; [|done]. cbn [orb negb].
    destruct (task_iteration _ _ _ _ _ _ _ _) as [[s1|e]| |] eqn:Hi; try done. intros [= <-]. eapply step_message; [done| |done|by apply clock_ok_spec|done].
    intros Hx. unfold is_spawned in Hs. by rewrite Hx in Hs.
  - destruct (sv_waiters s !! i) as [w|] eqn:Hw; [|done]. destruct (waiter_finish w now s) as [n|] eqn:Hf; [|done]. intros [= <-]. by eapply step_waiter.
Qed.

Lemma moves_run s0 ms : forall s s', server_run s0 s -> moves ms s = Some s' -> server_run s0 s'.
Proof.
  induction ms as [|m ms IH]; intros s s' Hrun; cbn [moves]; [by intros [= <-]|]. destruct (move m s) as [s1|] eqn:Hm; [|done].
  apply IH. eapply srun_step; [exact Hrun|by apply (move_step m)].
Qed.
End moves.
