(* ===== verification/ServerStatus.v ===== *)
(** * Status responses: the pages of [send_order_status]

    The reports of a status request leave in frames that the reader on the other
    end accepts, in order and without a gap. *)

From S2P Require Import Prelude BTree Text Bytes Order Session SymbolConfig Proto Reports EventLog LogRecovery Transport TransportSpec Server.

(** ** Definitions *)

Section pages.
Context {wire : Wire FxpMessage} {wire_laws : WireLaws FxpMessage} {empty : EmptyMessage}.

(** What prost documents of a false flag: it is the default and takes no room. *)
Class FlagOmitted : Prop := flag_omitted reports r :
  encoded_len (Some (POrderStatusResponse (with_reports reports false r))) <= encoded_len (Some (POrderStatusResponse (with_reports reports true r))).

(** The fields every page repeats. *)
Definition same_request (r r' : OrderStatusResponse) : Prop :=
  sr_request_id r' = sr_request_id r /\ sr_sender r' = sr_sender r /\ sr_reject_reason r' = sr_reject_reason r /\ sr_total_reports r' = sr_total_reports r.

(** A page before the last: it says so, holds 1 to 64 reports and fits a frame. *)
Record page_ok (r p : OrderStatusResponse) : Prop := {
  pg_request : same_request r p;
  pg_more : sr_complete p = false;
  pg_count : (1 <= length (sr_reports p) <= 64)%nat;
  pg_fits : too_large p = false;
}.

(** The last page. *)
Record last_ok (r p : OrderStatusResponse) : Prop := {
  la_request : same_request r p;
  la_complete : sr_complete p = true;
  la_count : (length (sr_reports p) <= 64)%nat;
}.

Definition too_large_reject (r : OrderStatusResponse) : OrderStatusResponse :=
  mkStatusResponse (sr_request_id r) (sr_sender r) [] "status report exceeds frame limit" true 0.

Context {flag : FlagOmitted}.

(** ** Lemmas *)

Lemma with_reports_same reports b r : same_request r (with_reports reports b r).
Proof. done. Qed.

Lemma same_request_trans a b c : same_request a b -> same_request b c -> same_request a c.
Proof. intros (? & ? & ? & ?) (? & ? & ? & ?). split_and!; congruence. Qed.

Lemma page_fits reports r : too_large (with_reports reports true r) = false -> too_large (with_reports reports false r) = false.
Proof using flag. unfold too_large. rewrite !Z.ltb_ge. intros H. etrans; [apply flag_omitted|exact H]. Qed.

Lemma with_reports_eta r : sr_complete r = true -> with_reports (sr_reports r) true r = r.
Proof. destruct r; simpl. by intros ->. Qed.

Lemma pages_loop reports : forall r pages last,
  sr_complete r = true -> (length (sr_reports r) <= 64)%nat -> (sr_reports r <> [] -> too_large r = false) ->
  status_pages reports r = (pages, last) ->
  Forall (page_ok r) pages /\
  (last_ok r last /\ concat (sr_reports <$> pages) ++ sr_reports last = sr_reports r ++ reports /\
     (sr_reports r ++ reports <> [] -> sr_reports last <> [] /\ too_large last = false) \/
   exists before report after, reports = before ++ report :: after /\ too_large (with_reports [report] true r) = true /\
     concat (sr_reports <$> pages) = sr_reports r ++ before /\ last = too_large_reject r).
Proof using flag.
  induction reports as [|report reports IH]; intros r pages last Hc Hl Hf; cbn [status_pages].
  { intros [= <- <-]. split; [constructor|]. left. split; [by split|]. split; [by rewrite app_nil_r|]. rewrite app_nil_r. auto. }
  cbv zeta. assert (sr_reports r <> [] -> too_large (with_reports (sr_reports r) false r) = false) as Hsent.
  { intros Hne. apply page_fits. rewrite with_reports_eta by done. by apply Hf. }
  set (sent := if is_nil (sr_reports r) then [] else [with_reports (sr_reports r) false r]).
  assert (Forall (page_ok r) sent /\ concat (sr_reports <$> sent) = sr_reports r) as [Hs1 Hs2].
  { unfold sent. destruct (sr_reports r) as [|x l] eqn:E; cbn [is_nil]; [split; [constructor|done]|].
    split; [|simpl; by rewrite app_nil_r]. constructor; [|constructor]. split; [done|done|simpl in *; lia|]. apply Hsent. done. }
  destruct ((64 <? length (sr_reports r ++ [report]))%nat || too_large (with_reports (sr_reports r ++ [report]) true r)) eqn:Hover.
  - destruct (too_large (with_reports [report] true r)) eqn:Halone.
    + intros [= <- <-]. split; [done|]. right. exists [], report, reports. rewrite app_nil_r. done.
    + destruct (status_pages reports (with_reports [report] true r)) as [pages' last'] eqn:Hrec. intros [= <- <-].
      destruct (IH (with_reports [report] true r) pages' last') as [Hp Hcase]; [done|simpl; lia|done|done|].
      split; [apply Forall_app; split; [done|]; eapply Forall_impl; [exact Hp|]; intros p [P1 P2 P3 P4]; by split|].
      destruct Hcase as [([L1 L2 L3] & Hcat & Hlast)|(before & x & after & -> & Hx & Hcat & ->)].
      * left. split; [by split|]. rewrite fmap_app, concat_app, Hs2, <- app_assoc, Hcat. split; [done|]. intros _. by apply Hlast.
      * right. exists (report :: before), x, after. split_and!; [done|done| |done]. rewrite fmap_app, concat_app, Hs2, Hcat. done.
  - apply orb_false_iff in Hover as [Hlen Hfit]. apply Nat.ltb_ge in Hlen. intros Hrec.
    destruct (IH (with_reports (sr_reports r ++ [report]) true r) pages last) as [Hp Hcase]; [done|simpl; lia|done|done|].
    split; [eapply Forall_impl; [exact Hp|]; intros p [P1 P2 P3 P4]; by split|].
    destruct Hcase as [([L1 L2 L3] & Hcat & Hlast)|(before & x & after & -> & Hx & Hcat & ->)].
    + left. split; [by split|]. cbn [with_reports sr_reports] in *. rewrite <- app_assoc in Hcat, Hlast. split; [exact Hcat|exact Hlast].
    + right. exists (report :: before), x, after. cbn [with_reports sr_reports] in Hcat. rewrite <- app_assoc in Hcat. done.
Qed.

(** A page that fits is a frame the reader accepts. *)
Lemma page_readable p rest :
  too_large p = false -> read_framed_message (frame_message (Some (POrderStatusResponse p)) ++ rest) = Ok (encode_to_vec (Some (POrderStatusResponse p) : FxpMessage), rest).
Proof using wire_laws empty. unfold too_large, encoded_len. rewrite Z.ltb_ge. intros H. by apply read_frame_message. Qed.

(** ** Theorem *)

(** C30: A status response is complete and readable. If every report fits a frame
    alone, the pages and the last frame hold all the reports, each once and in
    order; every page but the last says that more follow, none holds more than 64
    reports, and all repeat the request and the total. Otherwise the frames end,
    after the reports before one that does not fit, with a reject. Every page,
    and the last frame of a response with reports, is a frame that the reader
    accepts. *)
Theorem status_pages_complete request reports reject pages last :
  let r := mkStatusResponse (sq_request_id request) (sq_sender request) [] reject true (as_u32 (Z.of_nat (length reports))) in
  status_pages reports r = (pages, last) ->
  Forall (page_ok r) pages /\
  Forall (fun p => forall rest, read_framed_message (frame_message (Some (POrderStatusResponse p)) ++ rest) =
                     Ok (encode_to_vec (Some (POrderStatusResponse p) : FxpMessage), rest)) (pages ++ if is_nil (sr_reports last) then [] else [last]) /\
  (last_ok r last /\ concat (sr_reports <$> pages) ++ sr_reports last = reports /\ (reports <> [] -> sr_reports last <> []) \/
   exists before report after, reports = before ++ report :: after /\ too_large (with_reports [report] true r) = true /\
     concat (sr_reports <$> pages) = before /\ last = too_large_reject r).
Proof using flag wire_laws empty.
  intros r Hp. destruct (pages_loop reports r pages last) as [Hpages Hcase]; [done|simpl; lia|done|done|]. split_and!; [done| |].
  - apply Forall_app. split.
    + eapply Forall_impl; [exact Hpages|]. intros p [_ _ _ Hfit] rest. by apply page_readable.
    + destruct (sr_reports last) as [|x l] eqn:E; cbn [is_nil]; [constructor|]. constructor; [|constructor]. intros rest. apply page_readable.
      destruct Hcase as [(_ & Hcat & Hlast)|(? & ? & ? & _ & _ & _ & ->)]; [|done]. apply Hlast. rewrite <- Hcat. by destruct (concat _).
  - destruct Hcase as [(Hl & Hcat & Hlast)|Hx]; [|by right]. left. split_and!; [done|exact Hcat|]. intros Hne. by apply Hlast.
Qed.
End pages.
