(* ===== verification/ServerSamples.v ===== *)
(** * A concrete encoding of the messages on a connection

    The server's theorems hold for any encoding with prost's laws. This is one:
    an empty buffer for the message without a payload, and a numbered payload in
    which the flag of a status response takes a byte more when it is set. *)

From S2P Require Import Prelude BTree Text Bytes Order Session SymbolConfig Proto Reports EventLog WireSamples Transport TransportSpec Server ServerStatus.

(** ** Definitions *)

#[export] Instance MdChange_eq_dec : EqDecision MdChange.
Proof. record_eq. Defined.
#[export] Instance MdUpdate_eq_dec : EqDecision MdUpdate.
Proof. record_eq. Defined.
#[export] Instance BookEntry_eq_dec : EqDecision BookEntry.
Proof. record_eq. Defined.
#[export] Instance Snapshot_eq_dec : EqDecision Snapshot.
Proof. record_eq. Defined.
#[export] Instance OrderStatusRequest_eq_dec : EqDecision OrderStatusRequest.
Proof. record_eq. Defined.
#[export] Instance OrderStatusResponse_eq_dec : EqDecision OrderStatusResponse.
Proof. record_eq. Defined.
#[export] Instance OrderMassCancelReport_eq_dec : EqDecision OrderMassCancelReport.
Proof. record_eq. Defined.
#[export] Instance SessionControlReport_eq_dec : EqDecision SessionControlReport.
Proof. record_eq. Defined.
#[export] Instance Payload_eq_dec : EqDecision Payload.
Proof. solve_decision. Defined.

#[export] Program Instance MdChange_countable : Countable MdChange :=
  inj_countable' (fun m => (md_update_type m, md_price m, md_quantity m, md_side_code m)) (fun '(a, b, c, d) => mkMdChange a b c d) _.
Next Obligation. by intros []. Qed.

#[export] Program Instance MdUpdate_countable : Countable MdUpdate :=
  inj_countable' (fun m => (md_header m, md_symbol m, md_changes m, md_timestamp m)) (fun '(a, b, c, d) => mkMdUpdate a b c d) _.
Next Obligation. by intros []. Qed.

#[export] Program Instance BookEntry_countable : Countable BookEntry :=
  inj_countable' (fun m => (entry_price m, entry_size m, entry_side m)) (fun '(a, b, c) => mkBookEntry a b c) _.
Next Obligation. by intros []. Qed.

#[export] Program Instance Snapshot_countable : Countable Snapshot :=
  inj_countable' (fun m => (sn_header m, sn_symbol m, bid_levels m, ask_levels m, bid_ask_spread m, total_volume m, sn_timestamp m))
    (fun '(a, b, c, d, e, f, g) => mkSnapshot a b c d e f g) _.
Next Obligation. by intros []. Qed.

#[export] Program Instance OrderStatusRequest_countable : Countable OrderStatusRequest :=
  inj_countable' (fun m => (sq_request_id m, sq_sender m, sq_order_id m, sq_symbol m, sq_side m)) (fun '(a, b, c, d, e) => mkStatusRequest a b c d e) _.
Next Obligation. by intros []. Qed.

#[export] Program Instance OrderStatusResponse_countable : Countable OrderStatusResponse :=
  inj_countable' (fun m => (sr_request_id m, sr_sender m, sr_reports m, sr_reject_reason m, sr_complete m, sr_total_reports m))
    (fun '(a, b, c, d, e, f) => mkStatusResponse a b c d e f) _.
Next Obligation. by intros []. Qed.

#[export] Program Instance OrderMassCancelReport_countable : Countable OrderMassCancelReport :=
  inj_countable' (fun m => (mr_client_request_id m, mr_sender m, mr_symbol m, mr_side m, mr_total_affected m, mr_reason m, mr_reject_reason m, mr_timestamp m))
    (fun '(a, b, c, d, e, f, g, h) => mkMassCancelReport a b c d e f g h) _.
Next Obligation. by intros []. Qed.

#[export] Program Instance SessionControlReport_countable : Countable SessionControlReport :=
  inj_countable' (fun m => (cp_request_id m, cp_sender m, cp_symbols_affected m, cp_reject_reason m)) (fun '(a, b, c, d) => mkControlReport a b c d) _.
Next Obligation. by intros []. Qed.

(** A payload as its field number and the number of its message. *)
Definition tagged {A : Type} `{Countable A} (tag : Z) (a : A) : Z * positive := (tag, encode a).

Definition payload_number (p : Payload) : Z * positive :=
  match p with
  | PNewOrder m => tagged 5 m
  | POrderCancel m => tagged 7 m
  | POrderCancelReplace m => tagged 15 m
  | POrderStatusRequest m => tagged 20 m
  | POrderMassCancel m => tagged 18 m
  | PSessionControl m => tagged 22 m
  | PMarketDataRequest m => tagged 11 m
  | PExecutionReport m => tagged 8 m
  | PMarketDataSnapshot m => tagged 9 m
  | PMarketDataIncremental m => tagged 10 m
  | PTradeCaptureReport m => tagged 12 m
  | PTradingSessionStatus m => tagged 16 m
  | PAuctionInfo m => tagged 17 m
  | POrderMassCancelReport m => tagged 19 m
  | POrderStatusResponse m => tagged 21 m
  | PSessionControlReport m => tagged 23 m
  | POther field bytes => tagged 0 (field, bytes)
  end.

Definition payload_of (x : Z * positive) : option Payload :=
  let '(tag, n) := x in
  if tag =? 5 then PNewOrder <$> decode n
  else if tag =? 7 then POrderCancel <$> decode n
  else if tag =? 15 then POrderCancelReplace <$> decode n
  else if tag =? 20 then POrderStatusRequest <$> decode n
  else if tag =? 18 then POrderMassCancel <$> decode n
  else if tag =? 22 then PSessionControl <$> decode n
  else if tag =? 11 then PMarketDataRequest <$> decode n
  else if tag =? 8 then PExecutionReport <$> decode n
  else if tag =? 9 then PMarketDataSnapshot <$> decode n
  else if tag =? 10 then PMarketDataIncremental <$> decode n
  else if tag =? 12 then PTradeCaptureReport <$> decode n
  else if tag =? 16 then PTradingSessionStatus <$> decode n
  else if tag =? 17 then PAuctionInfo <$> decode n
  else if tag =? 19 then POrderMassCancelReport <$> decode n
  else if tag =? 21 then POrderStatusResponse <$> decode n
  else if tag =? 23 then PSessionControlReport <$> decode n
  else (fun x => POther x.1 x.2) <$> decode n.

(** The flag apart from the rest of a status response. *)
Definition take_flag (p : Payload) : bool * Payload :=
  match p with
  | POrderStatusResponse m => (sr_complete m, POrderStatusResponse (with_reports (sr_reports m) false m))
  | p => (false, p)
  end.

Definition put_flag (flag : bool) (p : Payload) : Payload :=
  match p with POrderStatusResponse m => POrderStatusResponse (with_reports (sr_reports m) flag m) | p => p end.

#[export] Instance message_wire : Wire FxpMessage :=
  {| encode_to_vec m :=
       match m with
       | None => []
       | Some p =>
         let '(flag, p) := take_flag p in
         let '(tag, n) := payload_number p in
         (if flag then [1; 1] else [0]) ++ tag mod 256 :: pos_bits n
       end;
     wire_decode bytes :=
       match bytes with
       | [] => Some None
       | b :: bytes =>
         match (if b =? 1 then drop 1 bytes else bytes) with
         | tag :: bits => n ← bits_pos bits; p ← payload_of (tag, n); Some (Some (put_flag (b =? 1) p))
         | [] => None
         end
       end |}.

(** ** Laws *)

Lemma payload_roundtrip p : payload_of (payload_number p) = Some p.
Proof. destruct p; cbn [payload_number tagged payload_of]; cbn -[decode encode]; by rewrite decode_encode. Qed.

Lemma take_put_flag p : put_flag (take_flag p).1 (take_flag p).2 = p.
Proof. destruct p as [| | | | | | | | | | | | | |[]| |]; done. Qed.

Lemma payload_tag p : 0 <= (payload_number p).1 < 256.
Proof. destruct p; cbn; lia. Qed.

#[export] Instance message_laws : WireLaws FxpMessage.
Proof.
  assert (forall n, Forall is_byte (pos_bits n)) as Hb by (intros n; induction n; simpl; repeat constructor; done).
  split; intros [p|]; [|constructor| |done]; unfold encode_to_vec, wire_decode, message_wire.
  - destruct (take_flag p) as [flag q]. destruct (payload_number q) as [tag n]. apply Forall_app. split; [destruct flag; repeat constructor; done|].
    constructor; [|apply Hb]. unfold is_byte. apply Z.mod_pos_bound. lia.
  - pose proof (take_put_flag p) as Hp. destruct (take_flag p) as [flag q]. cbn [fst snd] in Hp. pose proof (payload_tag q) as Ht.
    pose proof (payload_roundtrip q) as Hr. destruct (payload_number q) as [tag n]. cbn [fst] in Ht. rewrite Z.mod_small by done.
    destruct flag; cbn [app Z.eqb Pos.eqb drop]; rewrite bits_pos_bits; cbn [mbind option_bind]; rewrite Hr; cbn [mbind option_bind]; by rewrite Hp.
Qed.

#[export] Instance message_empty : EmptyMessage.
Proof. done. Qed.

#[export] Instance message_flag : FlagOmitted.
Proof.
  intros reports r. unfold encoded_len, encode_to_vec, message_wire. cbn [take_flag with_reports sr_complete sr_reports].
  destruct (payload_number _) as [tag n]. rewrite !length_app. simpl. lia.
Qed.

(** ** Witness *)

(** 66 reports: a page of 64 and the last two. *)
Definition sample_reports : list Report := replicate 66 report_default.

Definition sample_request : OrderStatusRequest := mkStatusRequest "r1" "alice" "" "" 0.

Definition sample_pages : list OrderStatusResponse * OrderStatusResponse :=
  status_pages sample_reports
    (mkStatusResponse (sq_request_id sample_request) (sq_sender sample_request) [] "" true (as_u32 (Z.of_nat (length sample_reports)))).

Lemma sample_pages_eq :
  status_pages sample_reports
    (mkStatusResponse (sq_request_id sample_request) (sq_sender sample_request) [] "" true (as_u32 (Z.of_nat (length sample_reports)))) =
  (sample_pages.1, sample_pages.2).
Proof. exact (surjective_pairing _). Qed.

Lemma sample_report x before after : sample_reports = before ++ x :: after -> x = report_default.
Proof.
  intros Hr. assert (Forall (fun y => y = report_default) sample_reports) as Hall by (apply Forall_replicate; reflexivity).
  rewrite Hr in Hall. apply Forall_app in Hall as [_ Hall]. by apply Forall_cons in Hall as [? _].
Qed.

Lemma status_pages_complete_witness :
  length sample_pages.1 = 1%nat /\ concat (sr_reports <$> sample_pages.1) ++ sr_reports sample_pages.2 = sample_reports.
Proof.
  split; [vm_compute; reflexivity|].
  pose proof (status_pages_complete sample_request sample_reports "" sample_pages.1 sample_pages.2 sample_pages_eq) as (_ & _ & [(_ & H & _)|(before & x & after & Hr & Hx & _)]);
    [exact H|exfalso].
  rewrite (sample_report x before after Hr) in Hx. revert Hx.
  assert (too_large (with_reports [report_default] true (mkStatusResponse (sq_request_id sample_request) (sq_sender sample_request) [] "" true
    (as_u32 (Z.of_nat (length sample_reports))))) = false) as Hfit by (vm_compute; reflexivity).
  rewrite Hfit. discriminate.
Defined.
