(* ===== verification/ServerRecovery.v ===== *)
(** * The server's promises: its journal

    The whole program with a log: however the server starts, whatever its tasks
    do and wherever it stops, the log it leaves recovers its engines; and a run it
    records and shuts down verifies offline. *)

From S2P Require Import Prelude BTree Text Bytes Json JsonSpec JsonText Order OrderBook Matcher Stops Session SymbolConfig Auction Proto Reports EventLog Engine EngineInv.
From S2P Require Import LogRecovery WireSamples Canonical EngineOwners Digest Trace Recording Journal JournalOwners JournalRecovery Bundle TraceRows BundleFiles ReplayMirror BundleSpec.
From S2P Require Import Transport TransportSpec Server ServerSpec ServerMoves ServerStatus ServerSamples.

(** ** Lemmas *)

Section runs.
Context `{!Sha256, !Build}.
Context `{!Wire Report, !Wire TradeCapture, !Wire SessionStatus, !Wire AuctionInfo}.
Context `{!Wire NewOrderSingle, !Wire OrderCancelRequest, !Wire OrderCancelReplaceRequest, !Wire OrderMassCancelRequest, !Wire SessionControl}.
Context `{!Wire LogRecord, !Wire FxpMessage}.

(** An input that is acknowledged is on the disk. *)
Lemma apply_ok_live sym now input owner disk trace j outs (j' : Journal Z) :
  apply sym now input owner disk trace j = Done (Ok outs, j') -> log_failed (j_log j') = false.
Proof.
  unfold apply. destruct (match j_recording j with Some r => rc_finished r | None => false end); [done|]. destruct (input_encode input) as [k p].
  destruct (log_append sym now k p disk (j_log j)) as [[[]|e] log] eqn:Hl; [|done].
  assert (log_failed log = false) as Hf.
  { unfold log_append in Hl. destruct (log_failed (j_log j)); [done|]. destruct (frame _); [|done]. destruct (_ <=? _); [done|]. destruct disk; [|done]. by injection Hl as <-. }
  destruct (execute sym now input owner (set_log log j)) as [[outs1 j1]| |] eqn:He; [|done|done]. cbn [obind].
  destruct (execute_keeps _ _ _ _ _ _ _ He) as (K0 & _).
  destruct (j_recording j1) as [r|], (j_inspection j1) as [c|]; try (intros [= _ <-]; by rewrite K0).
  destruct (append_trace _ _ _) as [[u|err] r']; [|done]. intros [= _ <-]. cbn [set_recording j_log]. by rewrite K0.
Qed.

(** What holds of a journal and is kept by acknowledged inputs. *)
Definition kept (P : Journal Z -> Prop) : Prop :=
  forall j sym now input owner disk trace outs j',
    P j -> input_for sym now input -> apply sym now input owner disk trace j = Done (Ok outs, j') -> P j'.

Lemma ticks_kept P symbols now disk trace : kept P -> 0 <= nanos now < 1000000000 ->
  forall j j', P j -> tick_symbols symbols now disk trace j = Done (Ok j') -> P j'.
Proof.
  intros HP Hn. induction symbols as [|sym symbols IH]; intros j j' Hj; cbn [tick_symbols]; [by intros [= <-]|].
  destruct (apply _ _ _ _ _ _ _) as [[[outs|e] j1]| |] eqn:Ha; try done. cbn [obind]. apply IH. eapply HP; [exact Hj| |exact Ha]. by split.
Qed.

Lemma server_new_journal router j detached : sv_journal (server_new router j detached) = j.
Proof.
  unfold server_new. destruct j as [j|]; [|done]. set (s := mkServer _ _ _ _ _ _ _ _ _). assert (sv_journal s = Some j) as Hs by done. revert Hs. generalize s.
  induction (bt_of_map (j_engines j)).*1 as [|sym l IH]; intros s1 Hs; [done|]. cbn [foldl]. apply IH. unfold restore_symbol. by destruct (get_existing sym s1).
Qed.

Lemma run_kept P router j detached s :
  kept P -> P j -> server_run (server_new router (Some j) detached) s -> exists j', sv_journal s = Some j' /\ P j'.
Proof.
  intros HP Hj Hrun. induction Hrun as [|s s' Hrun IH Hs]; [exists j; by rewrite server_new_journal|].
  destruct IH as (j1 & Hj1 & HPj1). destruct (run_ok _ _ _ (server_new_ok router (Some j) detached) Hrun) as [kind Hok].
  destruct (step_ok _ _ _ _ Hok Hs) as [[Hm|(sym & now & disk & trace & Hm)] _]; [rewrite Hm; eauto|]. rewrite Hj1 in Hm.
  destruct Hm as (input & owner & outs & j2 & Hin & Ha & ->). exists j2. split; [done|]. by eapply HP.
Qed.

(** What starting with a journal comes to. *)
Lemma start_server_journal env read_file existing budget log now started detached disk trace s0 router :
  start_router env read_file = Ok router -> is_Some (env_run_record env) \/ is_Some (env_event_log env) ->
  start_server env read_file existing budget log now started detached disk trace = Done (Ok s0) ->
  exists j j', start_journal env router existing budget log started detached = Done (Ok (Some j)) /\
    tick_symbols (bt_of_map (j_engines j)).*1 now disk trace j = Done (Ok j') /\ s0 = server_new router (Some j') detached.
Proof.
  intros Hr Henv. unfold start_server. rewrite Hr. destruct (start_journal _ _ _ _ _ _ _) as [[[j|]|e]| |] eqn:Hj; try done; cbn [obind].
  - destruct (tick_symbols _ _ _ _ _) as [[j'|[e j']]| |] eqn:Ht; try done. cbn [obind]. intros [= <-]. by exists j, j'.
  - exfalso. unfold start_journal in Hj. destruct (env_run_record env), (env_event_log env); try done; try (by destruct Henv as [[? ?]|[? ?]]); case_bool_decide; try done.
    + destruct (env_run_meta env); try done; destruct (journal_record _ _ _ _ _ _ _ _) as [[]| |]; done.
    + destruct (journal_open _ _ _ _ _) as [[]| |]; done.
Qed.
End runs.

(** ** Theorems *)

Section theorems.
Context {sha : Sha256} {sha_laws : Sha256Laws} {build : Build} {build_laws : BuildLaws}.
Context `{!Wire Report, !Wire TradeCapture, !Wire SessionStatus, !Wire AuctionInfo}.
Context `{!Wire NewOrderSingle, !Wire OrderCancelRequest, !Wire OrderCancelReplaceRequest, !Wire OrderMassCancelRequest, !Wire SessionControl}.
Context `{!WireLaws NewOrderSingle, !WireLaws OrderCancelRequest, !WireLaws OrderCancelReplaceRequest, !WireLaws OrderMassCancelRequest, !WireLaws SessionControl}.
Context `{!Wire LogRecord, !WireLaws LogRecord, !Wire FxpMessage}.
Context (env : Env) (read_file : string -> result string string) (router : SymbolRouter) (detached : Z).
Context (Hrouter : start_router env read_file = Ok router).

Abbreviation run_of := (journal_run (rt_schedule router) (rt_stp_default router) detached (rt_symbol_config router)).
Abbreviation reopens_to := (reopens (rt_schedule router) (rt_stp_default router) detached (rt_symbol_config router)).
Abbreviation recorded_from meta start := (recorded_run (rt_schedule router) (rt_stp_default router) detached (rt_symbol_config router) meta start).

Lemma run_of_kept : kept (fun j => run_of j None).
Proof.
  intros j sym now input owner disk trace outs j' Hj Hin Ha. pose proof (run_apply _ _ _ _ _ _ _ _ _ _ _ _ _ _ Hj Hin Ha) as Hrun.
  unfold lost_input in Hrun. by rewrite (apply_ok_live _ _ _ _ _ _ _ _ _ Ha) in Hrun.
Qed.

Lemma recorded_kept meta start : kept (fun j => recorded_from meta start j /\ log_failed (j_log j) = false).
Proof.
  intros j sym now input owner disk trace outs j' [Hj _] Hin Ha. split; [by eapply rr_apply|by eapply apply_ok_live].
Qed.

Lemma record_live existing budget meta start j :
  journal_record existing budget (rt_schedule router) (rt_stp_default router) detached (rt_symbol_config router) meta start = Done (Ok j) ->
  log_failed (j_log j) = false.
Proof using WireLaws0 WireLaws1 WireLaws2 WireLaws3 WireLaws4 WireLaws5.
  unfold journal_record. destruct (recording_create _ _ _ _ _ _ _) as [[r|e]| |]; try done. cbn [obind].
  destruct (journal_open _ _ _ _ _) as [[j0|e]| |] eqn:Ho; try done. cbn [obind]. intros [= <-]. cbn [set_recording j_log].
  destruct (run_invariant _ _ _ _ _ _ (run_open _ _ _ _ _ Ho)) as [(rs & _ & Hr) _]. by rewrite (recorded_failed _ _ _ _ _ _ Hr).
Qed.

Lemma router_configured : configured (rt_schedule router) (rt_symbol_config router).
Proof using Hrouter.
  unfold start_router in Hrouter. match type of Hrouter with (match ?m with _ => _ end) = _ => destruct m as [schedule|] eqn:Hs; [|done] end.
  destruct (stp_mode_parse _) as [stp|]; [|done]. destruct (read_optional_env _ (env_symbols env)); [|done].
  destruct (read_optional_env _ (env_max_symbols env)); [|done].
  destruct (parse_symbol_admission _ _) as [[allowed limit]|]; [|done]. destruct (load_env _ _) as [config|] eqn:Hl; [|done].
  injection Hrouter as <-. cbn [rt_schedule rt_symbol_config]. split.
  - unfold load_env in Hl. destruct (env_symbol_config env) as [path| |]; [|injection Hl as <-; by exists ""%string|done].
    case_bool_decide; [injection Hl as <-; by exists ""%string|]. destruct (read_file path) as [text|]; [|done]. exists text. by destruct (parse_config text); [injection Hl as ->|].
  - destruct (env_schedule env) as [v| |]; [|by injection Hs as <-|done]. destruct (parse_schedule v) as [sc|] eqn:Hv; [|done]. injection Hs as <-. by exists v.
Qed.

(** C2: The running server recovers. Started on a new log or on the log of any
    earlier life, whatever connections, messages, timers and tasks do and in
    whatever order, the log on the disk opens to the engines of the running
    server, with the execution id counter, digests and sequence number and only
    the connections replaced; and when a write fails and the process exits, what
    it leaves opens to the journal before that input or after it. *)
Theorem server_recovers path existing budget log now started disk trace s0 s :
  env_run_record env = None -> env_event_log env = Some path ->
  log = [] \/ (exists j lost, run_of j lost /\ log = log_file (j_log j)) -> 0 <= nanos now < 1000000000 ->
  start_server env read_file existing budget log now started detached disk trace = Done (Ok s0) -> server_run s0 s ->
  (exists j log', sv_journal s = Some j /\ reopens_to j None log') /\
  forall e j', server_step s (Err (e, j')) -> exists lost log', reopens_to j' lost log'.
Proof using Hrouter WireLaws0 WireLaws1 WireLaws2 WireLaws3 WireLaws4 WireLaws5.
  intros Hrec Hlog Hfile Hn Hstart Hrun.
  destruct (start_server_journal _ _ _ _ _ _ _ _ _ _ _ _ Hrouter (or_intror (mk_is_Some _ _ Hlog)) Hstart) as (j0 & j1 & Hj0 & Htick & ->).
  assert (run_of j0 None) as Hrun0.
  { unfold start_journal in Hj0. rewrite Hrec, Hlog in Hj0. case_bool_decide; [done|]. destruct (journal_open _ _ _ _ _) as [[j|e]| |] eqn:Ho; try done.
    injection Hj0 as <-. destruct Hfile as [->|(j' & lost & Hj' & ->)]; [by apply run_open|by eapply run_reopen]. }
  destruct (run_kept _ _ _ _ _ run_of_kept (ticks_kept _ _ _ _ _ run_of_kept Hn _ _ Hrun0 Htick) Hrun) as (j & Hj & Hrunj). split.
  - exists j. destruct (invariant_reopens _ _ _ _ _ _ (run_invariant _ _ _ _ _ _ Hrunj)) as (log' & Hre & _). by exists log'.
  - intros e j' Hstep. destruct (run_ok _ _ _ (server_new_ok router (Some j1) detached) Hrun) as [kind Hok].
    destruct (step_ok _ _ _ _ Hok Hstep) as [(sym & at_ & d & t & j2 & input & owner & Hj2 & Hin & Ha) _]. rewrite Hj in Hj2. injection Hj2 as <-.
    destruct (invariant_reopens _ _ _ _ _ _ (run_invariant _ _ _ _ _ _ (run_apply _ _ _ _ _ _ _ _ _ _ _ _ _ _ Hrunj Hin Ha))) as (log' & Hre & _). eauto.
Qed.

(** What an inspection finds of a run that a server has recorded. *)
Lemma server_recording_inspected path existing budget budget' log now disk trace s0 s j j' a b c d written r' found :
  env_run_record env = Some path -> env_event_log env = None -> 0 <= nanos now < 1000000000 ->
  start_server env read_file existing budget log now (wall_time a b) detached disk trace = Done (Ok s0) -> server_run s0 s ->
  sv_journal s = Some j -> text_recorded j ->
  shutdown_drain budget' (wall_time c d) false false s = Ok (written, Some j') -> j_recording j' = Some r' -> crash_view r' found ->
  exists i, inspect_bundle (Some (with_log (log_file (j_log j)) found)) = Done (Ok i) /\ gives_back j i.
Proof using Hrouter sha_laws build_laws WireLaws0 WireLaws1 WireLaws2 WireLaws3 WireLaws4 WireLaws5.
  intros Hrec Hlog Hn Hstart Hrun Hj Htext Hdrain Hr' Hview.
  destruct (start_server_journal _ _ _ _ _ _ _ _ _ _ _ _ Hrouter (or_introl (mk_is_Some _ _ Hrec)) Hstart) as (j0 & j1 & Hj0 & Htick & ->).
  assert (exists meta, recorded_from meta (wall_time a b) j0 /\ log_failed (j_log j0) = false) as (meta & Hrun0).
  { unfold start_journal in Hj0. rewrite Hrec, Hlog in Hj0. case_bool_decide; [done|]. destruct (env_run_meta env) as [v| |]; [exists v|exists "{}"%string|done];
      (destruct (journal_record _ _ _ _ _ _ _ _) as [[j3|e]| |] eqn:Ho; try done; injection Hj0 as <-; split; [by eapply rr_start|by eapply record_live]). }
  destruct (run_kept _ _ _ _ _ (recorded_kept meta _) (ticks_kept _ _ _ _ _ (recorded_kept meta _) Hn _ _ Hrun0 Htick) Hrun) as (j2 & Hj2 & Hrunj & Hlive).
  rewrite Hj in Hj2. injection Hj2 as <-. unfold shutdown_drain in Hdrain. cbv zeta in Hdrain. rewrite Hj in Hdrain.
  destruct (journal_finish budget' (wall_time c d) j) as [[u|e] j3] eqn:Hfin; [|done]. destruct u. injection Hdrain as _ ->.
  destruct (inspected_after_crash _ _ _ _ _ _ _ _ _ _ _ _ _ _ _ router_configured Hrunj Hlive Htext Hfin Hr' Hview) as (M & _ & [(_ & Hx & _)|[_ H]]); [done|exact H].
Qed.

(** C5: A recorded server run verifies. A server started with recording on that
    runs in any way and shuts down without an error leaves a bundle whose offline
    replay, read at once or after any crash, is verified and gives the summary and
    the final state of the server's engines. *)
Theorem server_recording_verifies path existing budget budget' log now disk trace s0 s j j' a b c d written r' found :
  env_run_record env = Some path -> env_event_log env = None -> 0 <= nanos now < 1000000000 ->
  start_server env read_file existing budget log now (wall_time a b) detached disk trace = Done (Ok s0) -> server_run s0 s ->
  sv_journal s = Some j -> text_recorded j ->
  shutdown_drain budget' (wall_time c d) false false s = Ok (written, Some j') -> j_recording j' = Some r' -> crash_view r' found ->
  replay_bundle (Some (with_log (log_file (j_log j)) found)) = Done (Ok (mkReplayResult true (journal_summary j) (journal_state j))).
Proof using Hrouter sha_laws build_laws WireLaws0 WireLaws1 WireLaws2 WireLaws3 WireLaws4 WireLaws5.
  intros Hrec Hlog Hn Hstart Hrun Hj Htext Hdrain Hr' Hview.
  destruct (server_recording_inspected _ _ _ _ _ _ _ _ _ _ _ _ _ _ _ _ _ _ _ Hrec Hlog Hn Hstart Hrun Hj Htext Hdrain Hr' Hview) as (i & Hi & G1 & G2 & G3 & G4).
  unfold replay_bundle. rewrite Hi. cbn [obind rbind]. by rewrite G1, G2, G3, G4.
Qed.
End theorems.

(** ** Witnesses *)

#[local] Existing Instance wire_of.
#[local] Existing Instance wire_of_laws.
#[local] Existing Instance sample_sha.
#[local] Existing Instance sample_build.
#[local] Existing Instance sample_sha_laws.
#[local] Existing Instance sample_build_laws.

Definition sample_router : SymbolRouter := mkRouter None StpNone None None [].

Definition sample_env (record event_log : option string) : Env :=
  mkEnv EnvNotPresent EnvNotPresent EnvNotPresent EnvNotPresent EnvNotPresent record event_log EnvNotPresent.

Definition no_file (path : string) : result string string := Err "no such file"%string.

Definition body_of (p : Payload) : list Z := encode_to_vec (Some p : FxpMessage).

Definition order_body : list Z := match sample_order "b1" "alice" 1 5 with INew order => body_of (PNewOrder order) | _ => [] end.

Definition cancel_body : list Z := body_of (POrderMassCancel (mkMassCancelRequest "alice" "" 0 "x1" 1)).

(** Connection 1 is accepted and sends an order, whose symbol's task starts and
    handles it. *)
Definition order_moves : list Move :=
  [MvAccept 1; MvReceive 1 order_body (mkTime 100 0); MvStart "FXP" (mkTime 100 1); MvMessage "FXP" (mkTime 100 2)].

(** A mass cancel follows, and is asked of every symbol. *)
Definition cancel_moves : list Move :=
  order_moves ++ [MvReceive 1 cancel_body (mkTime 100 3); MvHandler 1; MvHandler 1; MvMessage "FXP" (mkTime 100 4)].

Section sample.
Context (env : Env).

Abbreviation started := (start_server env no_file false 100 [] (mkTime 99 0) (wall_time 5 6) 0 (fun _ => Synced) (fun _ => Synced)).

Definition server0 : Server := match started with Done (Ok s) => s | _ => server_new sample_router None 0 end.

Definition server4 : Server := default server0 (moves order_moves server0).

Lemma checked_start : match started with Done (Ok _) => true | _ => false end = true -> started = Done (Ok server0).
Proof. unfold server0. destruct started as [[s|e]| |]; [intros _; reflexivity|discriminate..]. Qed.

Lemma checked_moves ms s : match moves ms s with Some _ => true | None => false end = true -> server_run s (default s (moves ms s)).
Proof.
  destruct (moves ms s) as [s'|] eqn:Hm; [intros _|discriminate]. exact (moves_run s ms s s' (srun_start s) Hm).
Qed.
End sample.

Definition log_env : Env := sample_env None (Some "commands.log"%string).

Lemma server_recovers_witness :
  exists j log', sv_journal (server4 log_env) = Some j /\ reopens None StpNone 0 [] j None log'.
Proof.
  refine (proj1 (server_recovers log_env no_file sample_router 0 _ "commands.log" false 100 [] (mkTime 99 0) (wall_time 5 6) (fun _ => Synced) (fun _ => Synced)
    (server0 log_env) (server4 log_env) _ _ _ _ (checked_start log_env _) (checked_moves order_moves (server0 log_env) _))).
  - vm_compute. reflexivity.
  - reflexivity.
  - reflexivity.
  - left. reflexivity.
  - split; [discriminate|reflexivity].
  - vm_compute. reflexivity.
  - vm_compute. reflexivity.
Defined.

Definition record_env : Env := sample_env (Some "run"%string) None.

Definition journal_in (s : Server) : Journal Z := match sv_journal s with Some j => j | None => journal0 end.

Definition frames_in (r : result (gmap Z (list (list Z)) * option (Journal Z)) string) : gmap Z (list (list Z)) :=
  match r with Ok (written, _) => written | Err _ => ∅ end.

Definition finished_in (r : result (gmap Z (list (list Z)) * option (Journal Z)) string) : Journal Z :=
  match r with Ok (_, Some j) => j | _ => journal0 end.

Lemma journal_in_ok s : match sv_journal s with Some _ => true | None => false end = true -> sv_journal s = Some (journal_in s).
Proof. unfold journal_in. destruct (sv_journal s); [intros _; reflexivity|discriminate]. Qed.

Lemma drained_ok r : match r with Ok (_, Some _) => true | _ => false end = true -> r = Ok (frames_in r, Some (finished_in r)).
Proof. destruct r as [[written [j|]]|e]; [intros _; reflexivity|discriminate..]. Qed.

Definition server_journal : Journal Z := journal_in (server4 record_env).

Abbreviation drained := (shutdown_drain 100 (wall_time 7 8) false false (server4 record_env)).

Definition drained_journal : Journal Z := finished_in drained.

Definition text_check (j : Journal Z) : bool :=
  valid_utf8 (bytes_of (json_encode (summary_json (journal_summary j)))) &&
  match j_recording j with Some r => match fs_read "events.jsonl" (rc_fs r) with Some t => valid_utf8 t | None => true end | None => true end.

Lemma text_checked j : text_check j = true -> text_recorded j.
Proof.
  unfold text_check. intros H. apply andb_prop in H as [H1 H2]. split; [exact H1|]. intros r trace Hr Ht. rewrite Hr, Ht in H2. exact H2.
Qed.

Lemma server_recording_verifies_witness :
  replay_bundle (Some (with_log (log_file (j_log server_journal)) (read_files drained_journal))) =
  Done (Ok (mkReplayResult true (journal_summary server_journal) (journal_state server_journal))).
Proof.
  refine (server_recording_verifies record_env no_file sample_router 0 _ "run" false 100 100 [] (mkTime 99 0) (fun _ => Synced) (fun _ => Synced)
    (server0 record_env) (server4 record_env) server_journal drained_journal 5 6 7 8 (frames_in drained) (files_of drained_journal) (read_files drained_journal)
    _ _ _ (checked_start record_env _) (checked_moves order_moves (server0 record_env) _) (journal_in_ok _ _) (text_checked _ _) (drained_ok _ _) (files_of_ok _ _) (read_view _ _)).
  - vm_compute. reflexivity.
  - reflexivity.
  - reflexivity.
  - split; [discriminate|reflexivity].
  - vm_compute. reflexivity.
  - vm_compute. reflexivity.
  - vm_compute. reflexivity.
  - vm_compute. reflexivity.
  - vm_compute. reflexivity.
  - vm_compute. reflexivity.
  - vm_compute. reflexivity.
Defined.

(** A server without a log, after a mass cancel of one order. *)
Definition plain_server : Server := server_new sample_router None 0.

Definition cancelled_server : Server := default plain_server (moves cancel_moves plain_server).

Lemma server_invariant_witness : exists kind, server_ok ∅ kind cancelled_server.
Proof.
  refine (server_invariant sample_router None 0 cancelled_server (checked_moves cancel_moves plain_server _)). vm_compute. reflexivity.
Defined.

Definition queues_empty (s : Server) : bool := forallb (fun x => is_nil (tk_queue x.2)) (map_to_list (sv_tasks s)).

Lemma queues_checked s : queues_empty s = true -> forall sym t, sv_tasks s !! sym = Some t -> tk_queue t = [].
Proof.
  unfold queues_empty. rewrite forallb_forall. intros Hall sym t Ht. apply elem_of_map_to_list, list_elem_of_In, Hall, is_nil_true in Ht. exact Ht.
Qed.

Definition first_waiter (s : Server) : Waiter := default (WStatus (mkStatusRequest "" "" "" "" 0) "" [] 0) (head (sv_waiters s)).

Lemma first_waiter_in s : is_nil (sv_waiters s) = false -> first_waiter s ∈ sv_waiters s.
Proof. unfold first_waiter. destruct (sv_waiters s); [discriminate|]. intros _. simpl. by left. Qed.

Lemma server_answers_witness :
  waiter_replies (first_waiter cancelled_server) = [0%nat] /\
  exists answers, collect_answers [0%nat] cancelled_server = Some answers /\ Forall (fun a => is_count a = true) answers.
Proof.
  assert (waiter_replies (first_waiter cancelled_server) = [0%nat]) as Hw by (vm_compute; reflexivity). split; [exact Hw|].
  assert (match moves cancel_moves plain_server with Some _ => true | None => false end = true) as Hm by (vm_compute; reflexivity).
  assert (queues_empty cancelled_server = true) as Hq by (vm_compute; reflexivity).
  assert (is_nil (sv_waiters cancelled_server) = false) as Hf by (vm_compute; reflexivity).
  destruct (server_answers sample_router None 0 cancelled_server (checked_moves cancel_moves plain_server Hm)
    (queues_checked cancelled_server Hq) (first_waiter cancelled_server) (first_waiter_in cancelled_server Hf)) as (answers & Ha & Hall & _).
  exists answers. rewrite Hw in Ha. split; [exact Ha|].
  assert (match first_waiter cancelled_server with WMassCancel _ _ _ _ => true | WStatus _ _ _ _ => false end = true) as Hk by (vm_compute; reflexivity).
  rewrite Hk in Hall. exact Hall.
Defined.
