(* ===== verification/ServerRun.v ===== *)
(** * The server's tasks never panic

    The engines of a server, in its journal or in its tasks, stay healthy along
    every careful run (no engine full, no partly filled order moved to the close),
    so an iteration of a symbol task always returns: the task answers
    or the process exits with a reason, it never panics or hangs. *)

From S2P Require Import Prelude BTree Text Bytes Json Order OrderBook Matcher Stops Session SymbolConfig Auction Proto Reports EventLog Engine EngineInv EngineSamples EngineEntry EngineReplace.
From S2P Require Import WireSamples Canonical Digest Trace Recording Journal JournalRecovery EngineRun Transport TransportSpec Server ServerSpec ServerMoves ServerSamples ServerRecovery.

(** ** Definitions *)

(** The quantities of a message are [i32]s, as the fields of the protocol are. *)
Definition payload_fits (m : FxpMessage) : Prop :=
  match m with
  | Some (PNewOrder order) => request_ok order
  | Some (POrderCancelReplace m) => - i32_max - 1 <= or_new_quantity m <= i32_max
  | _ => True
  end.

Definition message_fits (m : ServerMsg) : Prop :=
  match m with SOrder order _ => request_ok order | SCancelReplace m => replace_request_ok m | _ => True end.

Record task_sound (t : SymbolTask) : Prop := {
  ts_queue : Forall message_fits (tk_queue t);
  ts_engine : match tk_state t with TaskUnlogged e => healthy e | _ => True end;
}.

(** Every engine of the server is healthy. *)
Record server_sound (s : Server) : Prop := {
  ss_tasks : map_Forall (fun _ => task_sound) (sv_tasks s);
  ss_journal : match sv_journal s with Some j => journal_sound j | None => True end;
  ss_schedule : match rt_schedule (sv_router s) with Some s => valid_schedule s | None => True end;
}.

(** The engine a task runs its next message on. *)
Definition task_engine (sym : string) (now : Time) (t : SymbolTask) (s : Server) : option (Engine Z Z) :=
  match sv_journal s, tk_state t with
  | Some j, _ => Some (with_shared now (j_ids j) (engine_for sym now j))
  | None, TaskUnlogged e => Some (with_shared now (sv_ids s) e)
  | None, _ => None
  end.

(** No engine is full, and the next message of no task takes a partly filled
    order off the book to hold it for the close. *)
Definition careful (s : Server) : Prop :=
  forall sym t now e, sv_tasks s !! sym = Some t -> task_engine sym now t s = Some e ->
    Z.of_nat (size (e_states e)) < u32_max /\
    forall m queue, tk_queue t = m :: queue -> input_strands (persisted_message sym (Some m)).1 0 e = false.

Section server_run.
Context `{!Sha256, !Build}.
Context `{!Wire Report, !Wire TradeCapture, !Wire SessionStatus, !Wire AuctionInfo}.
Context `{!Wire NewOrderSingle, !Wire OrderCancelRequest, !Wire OrderCancelReplaceRequest, !Wire OrderMassCancelRequest, !Wire SessionControl}.
Context `{!Wire LogRecord, !Wire FxpMessage}.

(** Runs that are careful all along. *)
Inductive careful_run (s0 : Server) : Server -> Prop :=
| crun_start : careful_run s0 s0
| crun_step s s' : careful_run s0 s -> careful s -> server_step s (Ok s') -> careful_run s0 s'.

(** The decoder gives [i32]s for the [int32] fields of the protocol. *)
Context (Hwire : forall body (m : FxpMessage), wire_decode body = Some m -> payload_fits m).

(** ** Moves that run no engine *)

Lemma sound_same s s' : server_sound s -> sv_tasks s' = sv_tasks s -> sv_journal s' = sv_journal s -> sv_router s' = sv_router s -> server_sound s'.
Proof. intros [T J R] E1 E2 E3. split; by rewrite ?E1, ?E2, ?E3. Qed.

Lemma sound_send sym m s : server_sound s -> message_fits m -> server_sound (send_symbol sym m s).
Proof.
  intros [T J R] Hm. split; [|done|done]. intros sym' t'. cbn [send_symbol set_tasks sv_tasks]. rewrite lookup_alter_Some.
  intros [(-> & t & Ht & ->)|[_ Ht]]; [|by eapply T]. destruct (T _ _ Ht) as [H1 H2]. split; [|done]. cbn [tk_queue]. apply Forall_app. split; [done|by constructor].
Qed.

Lemma sound_admit sym s s' : server_sound s -> get_or_admit sym s = Ok s' -> server_sound s'.
Proof.
  intros Hs. unfold get_or_admit. case_bool_decide; [done|]. destruct (get_existing sym s); [by intros [= <-]|].
  destruct (disallowed sym s); [done|]. destruct (over_limit s); [done|]. intros [= <-]. destruct Hs as [T J R]. split; [|done|done].
  cbn [create_symbol_locked set_tasks sv_tasks]. apply map_Forall_insert_2; [by split|done].
Qed.

Lemma sound_forward sym m reject c s : server_sound s -> message_fits m -> server_sound (forward sym m reject c s).
Proof. intros Hs Hm. unfold forward. destruct (get_existing sym s); [by apply sound_send|by apply (sound_same s)]. Qed.

Lemma sound_message c now body s : server_sound s -> server_sound (handle_message c now (wire_decode body) s).
Proof using Hwire.
  intros Hs. destruct (wire_decode body) as [[p|]|] eqn:Hd; [|done..]. apply Hwire in Hd. destruct p; cbn [handle_message payload_fits] in *; try (by apply (sound_same s)).
  - destruct (get_or_admit _ _) eqn:Ha; [|by apply (sound_same s)]. apply sound_send; [by eapply sound_admit|done].
  - by apply sound_forward.
  - by apply sound_forward.
  - unfold order_status_request. destruct (_ || _); by apply (sound_same s).
  - unfold mass_cancel_request. cbv zeta. case_bool_decide; by apply (sound_same s).
  - unfold session_control_request. cbv zeta. case_bool_decide; by apply (sound_same s).
Qed.

Lemma sound_handler c h s : server_sound s -> server_sound (handler_step c h s).
Proof.
  intros Hs. assert (forall h s, server_sound s -> server_sound (set_handler c h s)) as Hset by (intros h' s' H'; by apply (sound_same s')).
  destruct h as [|symbols|request symbols replies|request symbols replies|request symbols affected];
    cbn [handler_step]; unfold subscribe_step, status_step, mass_cancel_step, control_step; [done|..]; destruct symbols as [|sym symbols]; try (by apply (sound_same s)).
  - apply Hset. destruct (get_existing sym s); [by apply sound_send|done].
  - destruct (get_existing sym s); [|by apply Hset]. cbn [new_reply]. apply Hset, sound_send; [by apply (sound_same s)|done].
  - destruct (get_existing sym s); [|by apply (sound_same s)]. cbn [new_reply]. apply Hset, sound_send; [by apply (sound_same s)|done].
  - destruct (get_or_admit sym s) eqn:Ha; [|by apply Hset]. apply Hset, sound_send; [by eapply sound_admit|done].
Qed.

Lemma sound_start sym t now s :
  server_sound s -> sv_tasks s !! sym = Some t -> 0 <= nanos now ->
  server_sound (set_tasks (<[sym := mkTask (tk_queue t) (tk_subscribers t) (start_task sym now s)]> (sv_tasks s)) s).
Proof.
  intros [T J R] Ht Hn. split; [|done|done]. cbn [set_tasks sv_tasks]. apply map_Forall_insert_2; [|done]. split; [by apply (T _ _ Ht)|].
  cbn [tk_state]. unfold start_task. destruct (sv_journal s); [done|]. split; [apply coherent_new|done|done].
Qed.

(** ** Iterations *)

(** A task without a log does what a task with one does. *)
Lemma unlogged_dispatch sym msg e :
  unlogged_input msg e = dispatch (persisted_message sym msg).1 (default 0 (persisted_message sym msg).2) e.
Proof. by destruct msg as [[| |[]|[]| | |]|]. Qed.

Lemma strands_owner {R : Type} input (o o' : R) (e : Engine R Z) : input_strands input o e = input_strands input o' e.
Proof. by destruct input. Qed.

Lemma persisted_ok sym msg : match msg with Some m => message_fits m | None => True end -> input_ok (persisted_message sym msg).1.
Proof. by destruct msg as [[]|]. Qed.

Section iteration.
Context (s : Server) (sym : string) (t : SymbolTask) (msg : option ServerMsg) (queue : list ServerMsg) (now : Time).
Context (Hs : server_sound s) (Hc : careful s) (Ht : sv_tasks s !! sym = Some t) (Hq : taken msg queue t) (Hn : 0 <= nanos now < 1000000000).

Lemma taken_fits : match msg with Some m => message_fits m | None => True end /\ Forall message_fits queue.
Proof using Hs Ht Hq.
  pose proof (ts_queue _ (ss_tasks _ Hs _ _ Ht)) as Hall. unfold taken in Hq. destruct msg as [m|]; [|by subst queue]. rewrite Hq in Hall.
  by apply Forall_cons in Hall.
Qed.

Lemma taken_strands e owner : task_engine sym now t s = Some e -> input_strands (persisted_message sym msg).1 owner e = false.
Proof using Hc Ht Hq.
  intros He. rewrite (strands_owner _ _ 0). destruct msg as [m|]; [|done]. by apply (proj2 (Hc _ _ _ _ Ht He) m queue).
Qed.

Lemma unlogged_runs e :
  sv_journal s = None -> tk_state t = TaskUnlogged e -> exists e', unlogged_input msg (with_shared now (sv_ids s) e) = Done e' /\ healthy e'.
Proof using Hs Hc Ht Hq Hn.
  intros Hj He. pose proof (ts_engine _ (ss_tasks _ Hs _ _ Ht)) as Hy. rewrite He in Hy.
  assert (task_engine sym now t s = Some (with_shared now (sv_ids s) e)) as Hte by (unfold task_engine; by rewrite Hj, He).
  rewrite (unlogged_dispatch sym). destruct (dispatch_healthy (persisted_message sym msg).1 (default 0 (persisted_message sym msg).2) (with_shared now (sv_ids s) e)) as (e' & Hr & Hy' & _).
  - by apply healthy_with_shared.
  - by apply (Hc _ _ _ _ Ht Hte).
  - simpl. lia.
  - apply persisted_ok, taken_fits.
  - by apply taken_strands.
  - by exists e'.
Qed.

Lemma logged_runs j disk trace :
  sv_journal s = Some j ->
  exists res, persisted_input sym now msg disk trace j = Done res /\ match res with Ok (_, j') => journal_sound j' | Err _ => True end.
Proof using Hs Hc Ht Hq Hn.
  intros Hj. pose proof (ss_journal _ Hs) as Hjs. rewrite Hj in Hjs. unfold persisted_input.
  destruct (persisted_message sym msg) as [input owner] eqn:Hm.
  set (c := mkArrival sym now input (default (j_detached j) owner) disk trace).
  assert (task_engine sym now t s = Some (engine_of c j)) as Hte by (unfold task_engine; by rewrite Hj).
  destruct (apply_sound c j) as (res & j' & Hrun & Hj' & _); [done| |by apply (Hc _ _ _ _ Ht Hte)| |].
  - split; [|simpl; lia]. pose proof (persisted_ok sym msg (proj1 taken_fits)) as Hok. by rewrite Hm in Hok.
  - unfold arrival_strands. pose proof (taken_strands _ (default (j_detached j) owner) Hte) as Hst. by rewrite Hm in Hst.
  - unfold apply_arrival in Hrun. simpl in Hrun. rewrite Hrun. cbn [obind]. eexists. split; [done|]. by destruct res.
Qed.

(** An iteration returns, and leaves the engines healthy unless the process exits. *)
Lemma iteration_runs restored kind disk trace :
  server_ok restored kind s -> tk_state t <> TaskSpawned ->
  exists res, task_iteration sym now msg disk trace queue t s = Done res /\ match res with Ok s' => server_sound s' | Err _ => True end.
Proof using Hs Hc Ht Hq Hn.
  intros Hok Hst. pose proof (tk_mode _ _ _ (so_tasks _ _ _ Hok _ _ Ht)) as Hmode. destruct taken_fits as [_ Hfit].
  assert (forall state e d j i, match state with TaskUnlogged e => healthy e | _ => True end -> match j with Some j => journal_sound j | None => True end ->
    server_sound (mkServer (sv_router s) (<[sym := mkTask queue (dl_subscribers d) state]> (sv_tasks s)) j i (dl_net d) (sv_handlers s) e (sv_next_reply s) (sv_waiters s))) as Hend.
  { intros state e d j i H1 H2. split; [|done|apply Hs]. apply map_Forall_insert_2; [by split|apply Hs]. }
  unfold task_iteration, run_input. destruct (sv_journal s) as [j|] eqn:Hj.
  - destruct (logged_runs j disk trace Hj) as (res & -> & Hres). cbn [obind]. destruct res as [[outs j']|[e j']]; cbn [obind]; (eexists; split; [done|]); [|done].
    apply Hend; [|done]. apply (ts_engine _ (ss_tasks _ Hs _ _ Ht)).
  - destruct (tk_state t) as [| |e] eqn:He; [done|by rewrite bool_decide_false in Hmode by (by intros [? ?])|].
    destruct (unlogged_runs e Hj He) as (e' & -> & Hy). cbn [obind]. eexists. split; [done|]. apply Hend; [|done].
    apply (healthy_moved e'); [done| |done|done]. by apply (coherent_ext e'); [apply Hy|..].
Qed.

End iteration.

(** ** Runs *)

Lemma step_sound restored kind s s' :
  server_ok restored kind s -> server_sound s -> careful s -> server_step s (Ok s') -> server_sound s'.
Proof using Hwire.
  intros Hok Hs Hc Hstep. inversion Hstep as [c s1 _|c cl body now s1 _ _ _|c h s1 _|c s1 _|c s1 _|c cl frame cl' s1 _ _|c s1|sym t now s1 Ht _ Hn|
    sym t now disk trace res s1 Ht Hst Hn Hi|sym t m queue now disk trace res s1 Ht Hst Hq Hn Hi|i w now n s1 _ _]; subst; try (by apply (sound_same s)).
  - by apply sound_message.
  - by apply sound_handler.
  - apply sound_start; [done|done|lia].
  - destruct (iteration_runs s sym t None (tk_queue t) now Hs Hc Ht eq_refl Hn restored kind disk trace Hok Hst) as (res & Hr & Hres).
    rewrite Hi in Hr. by injection Hr as <-.
  - destruct (iteration_runs s sym t (Some m) queue now Hs Hc Ht Hq Hn restored kind disk trace Hok Hst) as (res & Hr & Hres).
    rewrite Hi in Hr. by injection Hr as <-.
Qed.

Lemma careful_server_run s0 s : careful_run s0 s -> server_run s0 s.
Proof. induction 1 as [|s s' _ IH _ Hs]; [apply srun_start|by eapply srun_step]. Qed.

Lemma restore_sound l : forall s, server_sound s -> server_sound (foldl (fun s sym => restore_symbol sym s) s l).
Proof.
  induction l as [|sym l IH]; intros s Hs; [done|]. cbn [foldl]. apply IH. unfold restore_symbol. destruct (get_existing sym s); [done|].
  destruct Hs as [T J R]. split; [|done|done]. cbn [create_symbol_locked set_tasks sv_tasks]. apply map_Forall_insert_2; [by split|done].
Qed.

Lemma new_sound router j detached :
  match rt_schedule router with Some s => valid_schedule s | None => True end -> match j with Some j => journal_sound j | None => True end ->
  server_sound (server_new router j detached).
Proof.
  intros Hr Hj. unfold server_new. set (s := mkServer _ _ _ _ _ _ _ _ _).
  assert (server_sound s) as Hs by (split; [apply map_Forall_empty|done|done]). destruct j; [by apply restore_sound|done].
Qed.

Lemma careful_sound router j detached s :
  match rt_schedule router with Some s => valid_schedule s | None => True end -> match j with Some j => journal_sound j | None => True end ->
  careful_run (server_new router j detached) s -> server_sound s.
Proof using Hwire.
  intros Hr Hj Hrun. induction Hrun as [|s s' Hrun IH Hc Hs]; [by apply new_sound|].
  destruct (run_ok _ _ _ (server_new_ok router j detached) (careful_server_run _ _ Hrun)) as [kind Hok]. by eapply step_sound.
Qed.

(** C1: No symbol task of the server panics or hangs. Whatever its connections
    send and its handlers, tasks, writers and timers do, in any order, with or
    without a log, with any valid session schedule and any behaviour of the disks:
    the engine of every symbol stays healthy, and a symbol task that takes its next
    message, or whose timer fires, always finishes the iteration with a state to
    go on from or with the error the process exits with. Two things are assumed of
    the run: no engine tracks as many orders as a u32 counts, and no task is about
    to take a replacement that moves a partly filled order off the book to hold it
    for the close, where the engine loses count of its fills. *)
Theorem server_never_panics router j detached s sym t msg queue now disk trace :
  match rt_schedule router with Some s => valid_schedule s | None => True end -> match j with Some j => journal_sound j | None => True end ->
  careful_run (server_new router j detached) s -> careful s ->
  sv_tasks s !! sym = Some t -> tk_state t <> TaskSpawned -> taken msg queue t -> 0 <= nanos now < 1000000000 ->
  server_sound s /\ exists res, task_iteration sym now msg disk trace queue t s = Done res /\ server_step s res.
Proof using Hwire.
  intros Hr Hj Hrun Hc Ht Hst Hq Hn. pose proof (careful_sound router j detached s Hr Hj Hrun) as Hs. split; [done|].
  destruct (run_ok _ _ _ (server_new_ok router j detached) (careful_server_run _ _ Hrun)) as [kind Hok].
  destruct (iteration_runs s sym t msg queue now Hs Hc Ht Hq Hn _ kind disk trace Hok Hst) as (res & Hi & _). exists res. split; [done|].
  unfold taken in Hq. destruct msg as [m|]; [by eapply step_message|]. subst queue. by eapply step_timer.
Qed.
End server_run.

(** ** Witness *)

#[local] Existing Instance wire_of.
#[local] Existing Instance sample_sha.
#[local] Existing Instance sample_build.

Definition quantity_fits (q : Z) : bool := (- i32_max - 1 <=? q) && (q <=? i32_max).

Definition plain_wire : Wire FxpMessage := _.

(** A decoder that refuses what does not fit its fields. *)
Definition fitting_decode (body : list Z) : option FxpMessage :=
  match @wire_decode FxpMessage plain_wire body with
  | Some (Some (PNewOrder order)) => if quantity_fits (n_quantity order) then Some (Some (PNewOrder order)) else None
  | Some (Some (POrderCancelReplace m)) => if quantity_fits (or_new_quantity m) then Some (Some (POrderCancelReplace m)) else None
  | m => m
  end.

#[local] Instance fitting_wire : Wire FxpMessage := {| encode_to_vec := @encode_to_vec FxpMessage plain_wire; wire_decode := fitting_decode |}.

Lemma fitting_wire_fits body (m : FxpMessage) : wire_decode body = Some m -> payload_fits m.
Proof.
  cbn [wire_decode fitting_wire]. unfold fitting_decode, quantity_fits. destruct (@wire_decode FxpMessage _ body) as [[p|]|]; [|by intros [= <-]|done].
  destruct p; try (by intros [= <-]); destruct (_ && _) eqn:Hq; try done; intros [= <-]; cbn [payload_fits]; unfold request_ok; lia.
Qed.

(** Nothing to replace is queued, and every engine has room. *)
Definition roomy (e : Engine Z Z) : bool := Z.of_nat (size (e_states e)) <? u32_max.

Definition careful_check (s : Server) : bool :=
  forallb (fun x => match tk_queue x.2 with SCancelReplace _ :: _ => false | _ => true end &&
                    match tk_state x.2 with TaskUnlogged e => roomy e | _ => true end) (map_to_list (sv_tasks s)) &&
  bool_decide (sv_journal s = None).

Lemma careful_checked s : careful_check s = true -> careful s.
Proof.
  unfold careful_check. rewrite andb_true_iff, forallb_forall, bool_decide_eq_true. intros [Hall Hj] sym t now e Ht He.
  specialize (Hall (sym, t)). rewrite <- list_elem_of_In, elem_of_map_to_list in Hall. specialize (Hall Ht). cbn [snd] in Hall.
  apply andb_true_iff in Hall as [Hq Hst]. unfold task_engine in He. rewrite Hj in He. destruct (tk_state t) as [| |e0]; try done. injection He as <-.
  unfold roomy in Hst. apply Z.ltb_lt in Hst. split; [exact Hst|]. intros m queue Hm. rewrite Hm in Hq. by destruct m.
Qed.

Fixpoint careful_moves (ms : list Move) (s : Server) : option Server :=
  match ms with
  | [] => Some s
  | m :: ms => if careful_check s then match move m s with Some s => careful_moves ms s | None => None end else None
  end.

Lemma careful_moves_run s0 ms : forall s s', careful_run s0 s -> careful_moves ms s = Some s' -> careful_run s0 s'.
Proof.
  induction ms as [|m ms IH]; intros s s' Hrun; cbn [careful_moves]; [by intros [= <-]|]. destruct (careful_check s) eqn:Hc; [|done].
  destruct (move m s) as [s1|] eqn:Hm; [|done]. apply IH. eapply crun_step; [exact Hrun|by apply careful_checked|by apply (move_step m)].
Qed.

(** A server with an opening call, where an order has been queued. *)
Definition call_server : Server := server_new (mkRouter (Some call_schedule) StpNone None None []) None 0.

Definition call_moves : list Move := [MvAccept 1; MvReceive 1 order_body (mkTime 100 0); MvStart "FXP" (mkTime 100 1)].

Definition queued_server : Server := default call_server (careful_moves call_moves call_server).

Definition queued_task : SymbolTask := default (mkTask [] [] TaskSpawned) (sv_tasks queued_server !! "FXP"%string).

Lemma server_never_panics_witness :
  server_sound queued_server /\
  exists m res, tk_queue queued_task = [m] /\ task_iteration "FXP" (mkTime 9000 0) (Some m) Synced Synced [] queued_task queued_server = Done res /\ server_step queued_server res.
Proof.
  assert (exists m, tk_queue queued_task = [m]) as [m Hm] by (eexists; vm_compute; reflexivity).
  destruct (server_never_panics fitting_wire_fits (mkRouter (Some call_schedule) StpNone None None []) None 0 queued_server "FXP" queued_task (Some m) [] (mkTime 9000 0) Synced Synced)
    as (Hs & res & Hi & Hstep).
  - unfold valid_schedule, day. simpl. lia.
  - exact I.
  - apply (careful_moves_run _ call_moves call_server); [apply crun_start|vm_compute; reflexivity].
  - apply careful_checked. vm_compute. reflexivity.
  - vm_compute. reflexivity.
  - vm_compute. discriminate.
  - exact Hm.
  - vm_compute. split; congruence.
  - split; [exact Hs|]. exists m, res. split_and!; [exact Hm|exact Hi|exact Hstep].
Defined.
