(* ===== verification/ReplayCli.v ===== *)
(** * The offline replay tool: replay_cli.rs

    [fxp-replay] reads run bundles and prints what happened in them: the options
    of its command line, the selection of an order's rows along its replacement
    chain, the rendering of rows, the first difference of two traces and the
    explanation of an order. Its commands are in ReplayTool. *)

From Stdlib Require Import Ascii.
From S2P Require Import Prelude BTree Text Bytes Json SymbolConfig Digest Trace Recording Bundle.

Local Open Scope string_scope.
Local Open Scope Z_scope.

(** ** Definitions *)

Definition nl : string := String newline "".

(** [USAGE]. *)
Definition USAGE : string :=
  "fxp-replay verify <bundle>" ++ nl ++
  "fxp-replay timeline <bundle> [--order ID | --client-order-id ID] [--owner OWNER] [--symbol SYMBOL] [--from SEQ] [--to SEQ] [--json]" ++ nl ++
  "fxp-replay explain <bundle> [--order ID] [--owner OWNER] [--symbol SYMBOL] [--json]" ++ nl ++
  "fxp-replay diff <bundleA> <bundleB> [--json]" ++ nl ++
  "fxp-replay export <bundle> --jsonl [timeline filters]" ++ nl ++
  "fxp-replay report <bundle> --html out.html [--json out.json] [--owner NAME] [--anonymize-owners] [--from SEQ --to SEQ] [--force]" ++ nl ++
  "All commands: [--max-events N] [--max-bytes N] [--max-wall-seconds SECONDS] [--max-memory-mb MiB]".

(** *** Options *)

Record Options : Type := mkOptions {
  o_command : string;
  o_paths : list string;
  o_order : option string;
  o_client : option string;
  o_owner : option string;
  o_symbol : option string;
  o_from : option Z;
  o_to : option Z;
  o_json : bool;
  o_jsonl : bool;
}.

Definition options_of (command : string) : Options := mkOptions command [] None None None None None None false false.

Definition set_json (o : Options) : Options :=
  mkOptions (o_command o) (o_paths o) (o_order o) (o_client o) (o_owner o) (o_symbol o) (o_from o) (o_to o) true (o_jsonl o).
Definition set_jsonl (o : Options) : Options :=
  mkOptions (o_command o) (o_paths o) (o_order o) (o_client o) (o_owner o) (o_symbol o) (o_from o) (o_to o) (o_json o) true.
Definition push_path (p : string) (o : Options) : Options :=
  mkOptions (o_command o) (o_paths o ++ [p])%list (o_order o) (o_client o) (o_owner o) (o_symbol o) (o_from o) (o_to o) (o_json o) (o_jsonl o).

(** An option with a value. *)
Definition set_value (arg value : string) (o : Options) : result Options string :=
  let '(mkOptions c p order client owner symbol from to j jl) := o in
  if String.eqb arg "--order" then Ok (mkOptions c p (Some value) client owner symbol from to j jl)
  else if String.eqb arg "--client-order-id" then Ok (mkOptions c p order (Some value) owner symbol from to j jl)
  else if String.eqb arg "--owner" then Ok (mkOptions c p order client (Some value) symbol from to j jl)
  else if String.eqb arg "--symbol" then Ok (mkOptions c p order client owner (Some value) from to j jl)
  else if String.eqb arg "--from" then
    match parse_u64 value with
    | Some n => Ok (mkOptions c p order client owner symbol (Some n) to j jl)
    | None => Err "--from requires an unsigned sequence"
    end
  else
    match parse_u64 value with
    | Some n => Ok (mkOptions c p order client owner symbol from (Some n) j jl)
    | None => Err "--to requires an unsigned sequence"
    end.

Definition value_options : list string := ["--order"; "--client-order-id"; "--owner"; "--symbol"; "--from"; "--to"].

Definition is_option (arg : string) : bool := String.prefix "-" arg.

(** The loop of [parse] over the arguments. *)
Fixpoint parse_args (args : list string) (seen : gset string) (o : Options) : result Options string :=
  match args with
  | [] => Ok o
  | arg :: args =>
    if is_option arg then
      if bool_decide (arg ∈ seen) then Err ("duplicate option " ++ arg)
      else
        let seen := {[ arg ]} ∪ seen in
        if String.eqb arg "--json" then parse_args args seen (set_json o)
        else if String.eqb arg "--jsonl" then parse_args args seen (set_jsonl o)
        else if negb (bool_decide (arg ∈ value_options)) then Err ("unknown option " ++ arg)
        else
          match args with
          | value :: args =>
            if String.prefix "--" value then Err ("missing value for " ++ arg)
            else if String.eqb value "" then Err "empty filter value"
            else match set_value arg value o with Ok o => parse_args args seen o | Err e => Err e end
          | [] => Err ("missing value for " ++ arg)
          end
    else parse_args args seen (push_path arg o)
  end.

(** The checks of [parse] on the options it has read. *)
Definition check_options (o : Options) : result Options string :=
  if negb (length (o_paths o) =? (if String.eqb (o_command o) "diff" then 2 else 1))%nat then Err USAGE
  else if bool_decide (is_Some (o_order o)) && bool_decide (is_Some (o_client o)) then Err "--order and --client-order-id are alternatives"
  else if match o_from o, o_to o with Some a, Some b => a >? b | _, _ => false end then Err "--from exceeds --to"
  else if String.eqb (o_command o) "export" && negb (o_jsonl o) then Err "export requires --jsonl"
  else if o_json o && o_jsonl o || o_jsonl o && negb (String.eqb (o_command o) "export") then Err "invalid output format"
  else if bool_decide (o_command o ∈ ["verify"; "diff"])
          && existsb (fun f => bool_decide (is_Some f)) [o_order o; o_client o; o_owner o; o_symbol o]
  then Err "filters are only supported by timeline, explain and export"
  else if bool_decide (o_command o ∈ ["verify"; "diff"; "explain"])
          && (bool_decide (is_Some (o_from o)) || bool_decide (is_Some (o_to o)))
  then Err "sequence filters are only supported by timeline and export"
  else if String.eqb (o_command o) "verify" && o_json o then Err "verify uses text output"
  else Ok o.

(** [parse]. *)
Definition parse_options (args : list string) : result Options string :=
  match args with
  | [] => Err USAGE
  | command :: args =>
    if negb (bool_decide (command ∈ ["verify"; "timeline"; "explain"; "diff"; "export"])) then Err USAGE
    else match parse_args args ∅ (options_of command) with Ok o => check_options o | Err e => Err e end
  end.

(** *** Numbers as text *)

(** [str::parse] to a signed integer between [lo] and [hi]. *)
Definition parse_signed (lo hi : Z) (s : string) : option Z :=
  match s with
  | String c s' =>
    if Ascii.eqb c "-" then
      if String.eqb s' "" || negb (all_chars is_digit s') then None
      else if lo <=? - digits_val 0 s' then Some (- digits_val 0 s') else None
    else parse_digits hi (if Ascii.eqb c "+" then s' else s)
  | EmptyString => None
  end.

Definition i128_max : Z := 2 ^ 127 - 1.

(** The digits of a string and what follows them. *)
Fixpoint take_digits (s : string) : string * string :=
  match s with
  | String c s' => if is_digit c then let '(d, r) := take_digits s' in (String c d, r) else ("", s)
  | EmptyString => ("", "")
  end.

(** Digits and decimal exponent of a JSON number. *)
Definition decimal_parts (n : string) : option (string * Z) :=
  let n := match n with String c n' => if Ascii.eqb c "-" then n' else n | EmptyString => n end in
  let '(whole, rest) := take_digits n in
  let '(fraction, rest) :=
    match rest with String c rest' => if Ascii.eqb c "." then take_digits rest' else ("", rest) | EmptyString => ("", rest) end in
  match rest with
  | EmptyString => Some (whole ++ fraction, - Z.of_nat (String.length fraction))
  | String c rest =>
    if Ascii.eqb c "e" || Ascii.eqb c "E" then
      let '(sign, rest) :=
        match rest with
        | String d rest' => if Ascii.eqb d "-" then (-1, rest') else if Ascii.eqb d "+" then (1, rest') else (1, rest)
        | EmptyString => (1, rest)
        end in
      if all_chars is_digit rest then Some (whole ++ fraction, sign * digits_val 0 rest - Z.of_nat (String.length fraction)) else None
    else None
  end.

(** [n.parse::<f64>().is_ok_and(|n| n == 0.0)]: a value of at most half the
    smallest double rounds to zero. *)
Definition rounds_to_zero (n : string) : bool :=
  match decimal_parts n with
  | Some (digits, e) =>
    let m := digits_val 0 digits in
    (m =? 0) || ((e <? 0) && (m * 2 ^ 1075 <=? 10 ^ (- e)))
  | None => false
  end.

(** [scaled_price]. *)
Definition scaled_price (raw : string) (scale : Z) : string :=
  match parse_signed (- i128_max - 1) i128_max raw with
  | None => raw
  | Some v =>
    if scale =? 0 then print_dec v
    else
      let unit := 10 ^ scale in
      (if v <? 0 then "-" else "") ++ print_dec (Z.abs v / unit) ++ "." ++ print_padded (Z.to_nat scale) (Z.abs v mod unit)
  end.

(** *** Names *)

Definition side_names : list string := ["ORDER_SIDE_UNSPECIFIED"; "BUY"; "SELL"].
Definition type_names : list string := ["ORDER_TYPE_UNSPECIFIED"; "MARKET"; "LIMIT"; "STOP"; "STOP_LIMIT"].
Definition tif_names : list string := ["TIME_IN_FORCE_UNSPECIFIED"; "DAY"; "GTC"; "IOC"; "FOK"; "AT_OPEN"; "AT_CLOSE"; "GTD"].
Definition stp_names : list string := ["UNSPECIFIED"; "NONE"; "CANCEL_NEWEST"; "CANCEL_OLDEST"; "CANCEL_BOTH"; "DECREMENT_AND_CANCEL"].
Definition phase_names : list string := ["TRADING_PHASE_UNSPECIFIED"; "CLOSED"; "OPENING_CALL"; "CONTINUOUS"; "CLOSING_CALL"].
Definition reason_names : list string := ["UNSPECIFIED"; "REQUEST"; "DISCONNECT"].

(** The variant names [{:?}] prints for a phase. *)
Definition phase_variants : list string := ["Unspecified"; "Closed"; "OpeningCall"; "Continuous"; "ClosingCall"].

(** [try_from] and [as_str_name] of an enumeration of the protocol. *)
Definition name_at (names : list string) (value : Z) : option string := if value <? 0 then None else names !! Z.to_nat value.

(** [enum_name]. *)
Definition enum_name (key : string) (value : Z) : option string :=
  if String.eqb key "side" then name_at side_names value
  else if String.eqb key "order_type" then name_at type_names value
  else if String.eqb key "time_in_force" || String.eqb key "new_time_in_force" then name_at tif_names value
  else if String.eqb key "stp_mode" then name_at stp_names value
  else if String.eqb key "phase" || String.eqb key "session_phase" then name_at phase_names value
  else if String.eqb key "reason" then name_at reason_names value
  else None.

(** *** Rows *)

(** [row.get("data")] with a fallback. *)
Definition row_data (row : Json) : Json := match json_get "data" row with Ok d => d | Err _ => JNull end.

Definition PRICE_FIELDS : list string := ["price"; "stop_price"; "new_price"; "new_stop_price"].

(** One field of a row as text, unless it is empty. *)
Definition field_text (scale : Z) (k : string) (v : Json) : option string :=
  match v with
  | JNull | JBool false => None
  | JBool true => Some k
  | JString s => if String.eqb s "" then None else Some (k ++ "=" ++ s)
  | JNumber n =>
    if rounds_to_zero n then None
    else if bool_decide (k ∈ PRICE_FIELDS) then Some (k ++ "=" ++ scaled_price n scale)
    else Some (k ++ "=" ++ default n (parse_signed (- i32_max - 1) i32_max n ≫= enum_name k))
  | other => Some (k ++ "=" ++ json_encode other)
  end.

(** [fields]. *)
Definition fields (data : Json) (skip : list string) (scale : Z) : list string :=
  match data with
  | JObject m => omap (fun e => if bool_decide (e.1 ∈ skip) then None else field_text scale e.1 e.2) m
  | _ => [json_encode data]
  end.

Definition labelled (key label : string) (row : Json) : list string :=
  let value := trace_text key row in if String.eqb value "" then [] else [label ++ value].

Definition is_true (key : string) (data : Json) : bool := match json_get key data with Ok (JBool true) => true | _ => false end.

Definition nonempty_field (key : string) (data : Json) : list string :=
  if String.eqb (trace_text key data) "" then [] else [key ++ "=" ++ trace_text key data].

(** The parts of [line] that depend on the kind of the row. *)
Definition kind_parts (kind : string) (row data : Json) (scale : Z) : list string :=
  if String.eqb kind "command_received" then
    let skip := (["protobuf_hex"; "kind"] ++
      List.filter (fun key => String.eqb (trace_text key data) (trace_text key row)) ["order_id"; "owner"; "client_order_id"])%list in
    let command := trace_text "kind" data in
    ((if String.eqb command "" then [] else [command]) ++ fields data skip scale)%list
  else if String.eqb kind "fill" then
    (("price=" ++ scaled_price (print_dec (trace_number "price" data)) scale ++ " quantity=" ++ print_dec (trace_number "quantity" data)
      ++ " leaves=" ++ print_dec (trace_number "leaves_quantity" data))
     :: (nonempty_field "role" data ++ nonempty_field "counterparty" data ++ (if is_true "auction" data then ["auction"] else []))%list)
  else if String.eqb kind "accepted" then
    ["quantity=" ++ print_dec (trace_number "order_quantity" data) ++ " leaves=" ++ print_dec (trace_number "leaves_quantity" data)]
  else if String.eqb kind "replaced" then ["new_order_id=" ++ trace_text "new_order_id" data]
  else if String.eqb kind "iceberg_refresh" then
    ["quantity=" ++ print_dec (trace_number "quantity" data) ++ " cause=" ++ trace_text "cause" data]
  else if bool_decide (kind ∈ ["rejected"; "canceled"; "expired"; "restated"; "stop_trigger"]) then
    ("cause=" ++ trace_text "cause" data) :: nonempty_field "opposing_order" data
  else fields data [] scale.

(** [line]. *)
Definition line (row : Json) (config : SymbolConfig) : string :=
  let data := row_data row in
  let scale := price_scale (config_get config (trace_text "symbol" row)) in
  let kind := trace_text "kind" row in
  let position := print_dec (trace_number "global_seq" row) ++ ":" ++ print_dec (trace_number "event_index" row) in
  join " " ([position; trace_text "symbol" row]
    ++ labelled "order_id" "" row ++ labelled "owner" "owner=" row ++ labelled "client_order_id" "client=" row
    ++ [kind] ++ kind_parts kind row data scale)%list.

(** *** Differences *)

(** [command_at]. *)
Definition command_at (rows : list Json) (seq : Z) : Json :=
  match List.find (fun r => (trace_number "global_seq" r =? seq) && String.eqb (trace_text "kind" r) "command_received") rows with
  | Some r => row_data r
  | None => JNull
  end.

Definition same_entry (a b : option Json) : bool :=
  match a, b with Some a, Some b => json_eqb a b | None, None => true | _, _ => false end.

(** [first_difference]. *)
Definition first_difference (a b : list Json) : option (option Json * option Json) :=
  match List.find (fun i => negb (same_entry (a !! i) (b !! i))) (seq 0 (Nat.max (length a) (length b))) with
  | Some i => Some (a !! i, b !! i)
  | None => None
  end.

(** [stats]. *)
Definition add_count (k : string) (m : list (string * Z)) : list (string * Z) := bt_insert k (default 0 (bt_get k m) + 1) m.

Definition is_new_command (row : Json) : bool :=
  String.eqb (trace_text "kind" row) "command_received" && String.eqb (trace_text "kind" (row_data row)) "new".

Definition is_kind (kind : string) (row : Json) : bool := String.eqb (trace_text "kind" row) kind.

Definition count_kind (test : Json -> bool) (rows : list Json) : Z := Z.of_nat (length (List.filter test rows)).

Definition counts_by (test : Json -> bool) (key : Json -> string) (rows : list Json) : list (string * Z) :=
  foldl (fun m row => add_count (key row) m) [] (List.filter test rows).

Definition count_map (m : list (string * Z)) : Json := json_object (prod_map id json_number <$> m).

Definition row_cause (row : Json) : string := trace_text "cause" (row_data row).

Definition stats (rows : list Json) : Json :=
  json_object [("orders", json_number (count_kind is_new_command rows)); ("fills", json_number (count_kind (is_kind "trade") rows));
               ("rejects_by_reason", count_map (counts_by (is_kind "rejected") row_cause rows))].

(** *** Notable orders *)

Record Notable : Type := mkNotable {
  no_symbol : string;
  no_order_id : string;
  no_owner : string;
  no_fills : Z;
  no_quantity : Z;
  no_outcomes : list (string * string * Z);
}.

(** [Notable::text]. *)
Fixpoint join_with (sep : string) (ws : list string) : string :=
  match ws with
  | [] => ""
  | [w] => w
  | w :: ws => w ++ sep ++ join_with sep ws
  end.

Definition notable_text (n : Notable) : string :=
  let parts := (print_dec (no_fills n) ++ " fills (" ++ print_dec (no_quantity n) ++ " units)")
    :: ((fun '(kind, cause, seq) => kind ++ ": " ++ cause ++ " (seq " ++ print_dec seq ++ ")") <$> no_outcomes n) in
  no_symbol n ++ " " ++ no_order_id n ++ " owner=" ++ no_owner n ++ ": " ++ join_with "; " parts.

(** [Notable::json]. *)
Definition notable_json (n : Notable) : Json :=
  json_object [("symbol", JString (no_symbol n)); ("order_id", JString (no_order_id n)); ("owner", JString (no_owner n));
    ("fills", json_number (no_fills n)); ("fill_quantity", json_number (no_quantity n));
    ("outcomes", JArray ((fun '(kind, cause, seq) =>
       json_object [("kind", JString kind); ("cause", JString cause); ("global_seq", json_number seq)]) <$> no_outcomes n))].

(** The identity of an order: symbol, order id and owner. *)
Definition OrderKey : Type := string * string * string.

Definition row_key (row : Json) : OrderKey := (trace_text "symbol" row, trace_text "order_id" row, trace_text "owner" row).

Definition tell_notable (kind : string) (row : Json) (n : Notable) : Notable :=
  let data := row_data row in
  if String.eqb kind "fill" then
    mkNotable (no_symbol n) (no_order_id n) (no_owner n) (no_fills n + 1) (add64 (no_quantity n) (trace_number "quantity" data)) (no_outcomes n)
  else
    mkNotable (no_symbol n) (no_order_id n) (no_owner n) (no_fills n) (no_quantity n)
      (no_outcomes n ++ [(kind, trace_text "cause" data, trace_number "global_seq" row)])%list.

Definition is_notable (kind : string) : bool := bool_decide (kind ∈ ["fill"; "rejected"; "canceled"; "expired"]).

(** One row of [notable_orders]: the orders so far, and where the live ones are. *)
Definition notable_step (acc : list Notable * gmap OrderKey nat) (row : Json) : list Notable * gmap OrderKey nat :=
  let '(orders, live) := acc in
  let kind := trace_text "kind" row in
  let '(sym, id, owner) := row_key row in
  if String.eqb kind "accepted" then (orders, delete (sym, id, owner) live)
  else if negb (is_notable kind) || String.eqb id "" then (orders, live)
  else
    let '(orders, live, i) :=
      match live !! (sym, id, owner) with
      | Some i => (orders, live, i)
      | None => ((orders ++ [mkNotable sym id owner 0 0 []])%list, <[(sym, id, owner) := length orders]> live, length orders)
      end in
    (alter (tell_notable kind row) i orders, live).

(** [notable_orders]. *)
Definition notable_orders (rows : list Json) : list Notable := (foldl notable_step ([], ∅) rows).1.

(** *** Explanations *)

(** [Ord] on the keys of the causes. *)
#[export] Program Instance OrdKey_pair {A B : Type} `{!OrdKey A, !OrdKey B} : OrdKey (A * B) :=
  {| key_ltb := fun x y => key_ltb x.1 y.1 || (negb (key_ltb y.1 x.1) && key_ltb x.2 y.2) |}.
Next Obligation. intros. simpl. by rewrite !key_ltb_irrefl. Qed.
Next Obligation.
  intros A B HA HB [a1 b1] [a2 b2] [a3 b3]. simpl. rewrite !orb_true_iff, !andb_true_iff, !negb_true_iff.
  intros [H1|[H1 H1']] [H2|[H2 H2']].
  - left. by eapply key_ltb_trans.
  - left. destruct (key_ltb a2 a3) eqn:E; [by eapply key_ltb_trans|]. by rewrite (key_ltb_total a2 a3 E H2) in H1.
  - left. destruct (key_ltb a1 a2) eqn:E; [by eapply key_ltb_trans|]. by rewrite (key_ltb_total a1 a2 E H1).
  - destruct (key_ltb a1 a3) eqn:E; [by left|right]. split; [|by eapply key_ltb_trans].
    destruct (key_ltb a1 a2) eqn:E1; [|destruct (key_ltb a2 a3) eqn:E2].
    + destruct (key_ltb a2 a3) eqn:E2; [by rewrite (key_ltb_trans _ _ _ E1 E2) in E|]. by rewrite <- (key_ltb_total a2 a3 E2 H2), E1 in E.
    + by rewrite (key_ltb_total a1 a2 E1 H1), E2 in E.
    + by rewrite (key_ltb_total a1 a2 E1 H1), (key_ltb_total a2 a3 E2 H2), key_ltb_irrefl.
Qed.
Next Obligation.
  intros A B HA HB [a1 b1] [a2 b2]. simpl. rewrite !orb_false_iff, !andb_false_iff, !negb_false_iff.
  intros [H1 H1'] [H2 H2']. assert (a1 = a2) as -> by (by apply key_ltb_total). f_equal. rewrite !key_ltb_irrefl in *.
  destruct H1' as [?|H1']; [done|]. destruct H2' as [?|H2']; [done|]. by apply key_ltb_total.
Qed.

Definition is_outcome (kind : string) : bool := bool_decide (kind ∈ ["rejected"; "canceled"; "expired"; "replaced"; "restated"]).

(** The commands by sequence number. *)
Definition command_table (rows : list Json) : list (Z * Json) :=
  foldl (fun m row => match json_get "data" row with Ok d => bt_insert (trace_number "global_seq" row) d m | Err _ => m end) []
    (List.filter (is_kind "command_received") rows).

(** The entry of a row among the causes. *)
Definition cause_key (commands : list (Z * Json)) (row data : Json) : string * string * string :=
  let kind := trace_text "kind" row in
  let cause := (if String.eqb kind "replaced" then "new order " ++ trace_text "new_order_id" data else trace_text "cause" data)
    ++ (if String.eqb (trace_text "opposing_order" data) "" then "" else "; opposing order " ++ trace_text "opposing_order" data) in
  let kind := if String.eqb kind "rejected"
              then trace_text "kind" (default JNull (bt_get (trace_number "global_seq" row) commands)) ++ " rejected" else kind in
  (trace_text "symbol" row ++ " " ++ trace_text "order_id" row ++ " owner=" ++ trace_text "owner" row, kind, cause).

Definition Causes : Type := list (string * string * string * (Z * Z)).

Definition add_cause (commands : list (Z * Json)) (row data : Json) (causes : Causes) : Causes :=
  let k := cause_key commands row data in
  let '(seq, count) := default (trace_number "global_seq" row, 0) (bt_get k causes) in
  bt_insert k (seq, count + 1) causes.

Record Tally : Type := mkTally { ty_fills : Z; ty_quantity : Z; ty_refreshes : Z; ty_triggers : Z; ty_causes : Causes }.

(** One row of the first loop of [explanation]. *)
Definition tally_row (commands : list (Z * Json)) (t : Tally) (row data : Json) : Tally :=
  let '(mkTally f q r g c) := t in
  let kind := trace_text "kind" row in
  if String.eqb kind "fill" then mkTally (f + 1) (add64 q (trace_number "quantity" data)) r g c
  else if String.eqb kind "iceberg_refresh" then mkTally f q (r + 1) g c
  else if String.eqb kind "stop_trigger" then mkTally f q r (g + 1) c
  else if is_outcome kind then mkTally f q r g (add_cause commands row data c)
  else t.

(** [row.get("data").unwrap()]. *)
Definition data_of (row : Json) : outcome Json := match json_get "data" row with Ok d => Done d | Err _ => Panicked end.

Fixpoint tally_rows (commands : list (Z * Json)) (rows : list Json) (t : Tally) : outcome Tally :=
  match rows with
  | [] => Done t
  | row :: rows => let* data := data_of row in tally_rows commands rows (tally_row commands t row data)
  end.

(** One row of its second loop. *)
Definition phase_line (row data : Json) : string :=
  (if is_kind "accepted" row then
     match json_get "session_phase" data with
     | Ok phase =>
       "Accepted in session phase " ++ default (json_encode phase) (name_at phase_variants (as_i32 (trace_number "session_phase" data)))
       ++ " (seq " ++ print_dec (trace_number "global_seq" row) ++ ")." ++ nl
     | Err _ => ""
     end
   else "")
  ++ (if is_kind "fill" row && is_true "auction" data then
        "Auction fill at price " ++ print_dec (trace_number "price" data) ++ " (seq " ++ print_dec (trace_number "global_seq" row) ++ ")." ++ nl
      else "").

Fixpoint phase_lines (rows : list Json) : outcome string :=
  match rows with
  | [] => Done ""
  | row :: rows => let* data := data_of row in let* rest := phase_lines rows in Done (phase_line row data ++ rest)
  end.

Definition cause_line (c : string * string * string * (Z * Z)) : string :=
  let '(id, kind, cause, (seq, count)) := c in
  id ++ ": " ++ kind ++ ": " ++ cause ++ " (first seq " ++ print_dec seq ++ ", count " ++ print_dec count ++ ")." ++ nl.

(** [explanation]. *)
Definition explanation (rows : list Json) (order : string) : outcome string :=
  let* t := tally_rows (command_table rows) rows (mkTally 0 0 0 0 []) in
  let* phases := phase_lines rows in
  let causes := sort_stable (fun a b : string * string * string * (Z * Z) => a.2.1 <=? b.2.1) (ty_causes t) in
  Done (order ++ ": " ++ print_dec (ty_fills t) ++ " fill reports, " ++ print_dec (ty_quantity t) ++ " units; "
    ++ print_dec (ty_triggers t) ++ " stop triggers; " ++ print_dec (ty_refreshes t) ++ " iceberg refreshes." ++ nl
    ++ phases ++ foldr (fun c rest => cause_line c ++ rest) "" causes
    ++ (if (ty_fills t =? 0) && (ty_triggers t =? 0) && (ty_refreshes t =? 0) && negb (existsb (fun r => is_outcome (trace_text "kind" r)) rows)
        then "No terminal cause recorded in this scope." ++ nl else "")).

Section rows.
Context `{!Sha256}.

(** *** Redaction *)

Definition redact_field (scoped : bool) (row : Json) (field : string) : Json :=
  match row with
  | JObject m =>
    match bt_get "data" m with
    | Some (JObject data) =>
      match bt_get field data with
      | Some (JString other) =>
        if String.eqb other "" || scoped then row
        else JObject (bt_insert "data" (JObject (bt_insert field (JString ("anon:" ++ String.substring 0 12 (sha256 (bytes_of other)))) data)) m)
      | _ => row
      end
    | _ => row
    end
  | _ => row
  end.

(** [redact]. *)
Definition redact (row : Json) (owner : option string) : Json :=
  let scoped := match owner with Some owner => String.eqb (trace_text "owner" row) owner | None => false end in
  foldl (redact_field scoped) row ["counterparty"; "opposing_order"].

(** [divergence]. *)
Definition divergence (a b : list Json) : Json :=
  match first_difference a b with
  | None =>
    json_object [("global_seq", JNull); ("symbol", JNull); ("input", JNull); ("expected_event", JNull); ("actual_event", JNull);
      ("detail", JString "no event-level difference; aggregate or final-state mismatch")]
  | Some (expected, actual) =>
    let row := match actual with Some r => r | None => default JNull expected end in
    let seq := trace_number "global_seq" row in
    let shown := fun e => match e with Some j => redact j None | None => JNull end in
    json_object [("global_seq", json_number seq); ("symbol", JString (trace_text "symbol" row)); ("input", command_at b seq);
      ("expected_input", command_at a seq); ("expected_event", shown expected); ("actual_event", shown actual)]
  end.

(** *** Selection *)

Definition matches (filter_ : option string) (value : string) : bool := match filter_ with Some v => String.eqb value v | None => false end.

(** The orders the filters name. *)
Definition named (o : Options) (row : Json) : bool :=
  negb (String.eqb (trace_text "order_id" row) "")
  && (matches (o_order o) (trace_text "order_id" row) || matches (o_client o) (trace_text "client_order_id" row)).

Definition named_ids (o : Options) (rows : list Json) : gset OrderKey := list_to_set (row_key <$> List.filter (named o) rows).

(** The order a replaced one became. *)
Definition next_key (row : Json) : OrderKey := let '(sym, _, owner) := row_key row in (sym, trace_text "new_order_id" (row_data row), owner).

Definition link (ids : gset OrderKey) (row : Json) : gset OrderKey :=
  let a := row_key row in
  let b := next_key row in
  if bool_decide (a ∈ ids) || bool_decide (b ∈ ids)
  then let ids := {[ a ]} ∪ ids in if String.eqb b.1.2 "" then ids else {[ b ]} ∪ ids
  else ids.

(** The loop that follows replacements until nothing is added. *)
Fixpoint link_loop (fuel : nat) (replaced : list Json) (ids : gset OrderKey) : outcome (gset OrderKey) :=
  match fuel with
  | O => OutOfFuel
  | S fuel =>
    let ids' := foldl link ids replaced in
    if (size ids' =? size ids)%nat then Done ids' else link_loop fuel replaced ids'
  end.

(** Every pass but the last adds one of at most two orders of each row. *)
Definition linked_ids (o : Options) (rows : list Json) : outcome (gset OrderKey) :=
  let replaced := List.filter (is_kind "replaced") rows in
  link_loop (S (2 * length replaced)) replaced (named_ids o rows).

Definition unless (filter_ : option string) (value : string) : bool := match filter_ with Some v => String.eqb value v | None => true end.

(** The final filter of [selected]. *)
Definition kept_row (o : Options) (ids : gset OrderKey) (r : Json) : bool :=
  unless (o_symbol o) (trace_text "symbol" r) && unless (o_owner o) (trace_text "owner" r)
  && match o_from o with Some v => v <=? trace_number "global_seq" r | None => true end
  && match o_to o with Some v => trace_number "global_seq" r <=? v | None => true end
  && (bool_decide (o_order o = None) && bool_decide (o_client o = None)
      || matches (o_client o) (trace_text "client_order_id" r) || bool_decide (row_key r ∈ ids)).

(** [selected]. *)
Definition selected (rows : list Json) (o : Options) : outcome (list Json) :=
  let* ids := linked_ids o rows in
  Done ((fun r => redact r (o_owner o)) <$> List.filter (kept_row o ids) rows).
End rows.
