(* ===== verification/ReplayCliSpec.v ===== *)
(** * Selection, redaction and summaries of the replay tool

    The rows a filter selects are those of the orders it names and of the orders
    these became or came from, however long the chain of replacements; other
    parties are hidden in them; the list of notable orders counts every fill. *)

From S2P Require Import Prelude BTree Text Bytes Json JsonText Digest Trace Bundle ReplayCli.

Local Open Scope string_scope.
Local Open Scope Z_scope.

(** ** Definitions *)

(** The orders tied to those of [base] by the replacements. *)
Inductive linked (replaced : list Json) (base : gset OrderKey) : OrderKey -> Prop :=
| linked_base k : k ∈ base -> linked replaced base k
| linked_back r : r ∈ replaced -> linked replaced base (next_key r) -> linked replaced base (row_key r)
| linked_on r : r ∈ replaced -> linked replaced base (row_key r) -> (next_key r).1.2 <> "" -> linked replaced base (next_key r).

(** A row that the filters ask for. *)
Definition in_scope (o : Options) (rows : list Json) (r : Json) : Prop :=
  (forall s, o_symbol o = Some s -> trace_text "symbol" r = s) /\
  (forall s, o_owner o = Some s -> trace_text "owner" r = s) /\
  (forall n, o_from o = Some n -> n <= trace_number "global_seq" r) /\
  (forall n, o_to o = Some n -> trace_number "global_seq" r <= n) /\
  (o_order o = None /\ o_client o = None
   \/ o_client o = Some (trace_text "client_order_id" r)
   \/ linked (List.filter (is_kind "replaced") rows) (named_ids o rows) (row_key r)).

(** The names a row gives away of other parties. *)
Definition party_fields : list string := ["counterparty"; "opposing_order"].

(** A row that counts for [notable_orders]. *)
Definition counted (row : Json) : bool := is_notable (trace_text "kind" row) && negb (String.eqb (trace_text "order_id" row) "").

Definition notable_key (n : Notable) : OrderKey := (no_symbol n, no_order_id n, no_owner n).

(** What rows tell of an order: fills, and the other outcomes in order. *)
Definition rows_tell (k : OrderKey) (rows : list Json) : Z * list (string * string * Z) :=
  let mine := List.filter (fun r => counted r && bool_decide (row_key r = k)) rows in
  (count_kind (is_kind "fill") mine,
   (fun r => (trace_text "kind" r, trace_text "cause" (row_data r), trace_number "global_seq" r)) <$> List.filter (fun r => negb (is_kind "fill" r)) mine).

(** What the list of notable orders tells of it. *)
Definition notables_tell (k : OrderKey) (orders : list Notable) : Z * list (string * string * Z) :=
  let mine := List.filter (fun n => bool_decide (notable_key n = k)) orders in
  (sumZ no_fills mine, mine ≫= no_outcomes).

Definition told_add (a b : Z * list (string * string * Z)) : Z * list (string * string * Z) := (a.1 + b.1, (a.2 ++ b.2)%list).

(** Live entries point at the last order of their key. *)
Definition live_last (keys : list OrderKey) (live : gmap OrderKey nat) : Prop :=
  forall k i, live !! k = Some i -> exists before after, keys = (before ++ k :: after)%list /\ length before = i /\ k ∉ after.

(** ** Chains of replacements *)

Lemma link_grows ids r : ids ⊆ link ids r.
Proof. unfold link. repeat case_match; set_solver. Qed.

Lemma links_grow rs : forall ids, ids ⊆ foldl link ids rs.
Proof. induction rs as [|r rs IH]; intros ids; simpl; [done|]. etrans; [apply (link_grows ids r)|apply IH]. Qed.

Lemma link_sound replaced base ids r :
  r ∈ replaced -> (forall k, k ∈ ids -> linked replaced base k) -> forall k, k ∈ link ids r -> linked replaced base k.
Proof.
  intros Hr Hids k. unfold link. destruct (bool_decide _ || bool_decide _) eqn:E; [|by apply Hids].
  assert (linked replaced base (row_key r)) as Ha.
  { apply orb_true_iff in E as [E|E]; apply bool_decide_eq_true in E; [by apply Hids|]. apply linked_back; [done|by apply Hids]. }
  destruct (String.eqb_spec (next_key r).1.2 "") as [|Hne]; rewrite !elem_of_union, !elem_of_singleton.
  - intros [->|Hk]; [done|by apply Hids].
  - intros [->|[->|Hk]]; [by apply linked_on|done|by apply Hids].
Qed.

Lemma links_sound replaced base rs : (forall r, r ∈ rs -> r ∈ replaced) -> forall ids,
  (forall k, k ∈ ids -> linked replaced base k) -> forall k, k ∈ foldl link ids rs -> linked replaced base k.
Proof.
  induction rs as [|r rs IH]; intros Hrs ids Hids; simpl; [done|]. apply IH; [intros; apply Hrs; by right|].
  apply link_sound; [apply Hrs; by left|done].
Qed.

(** A pass that adds nothing has linked every row. *)
Lemma fixed_link rs : forall ids, foldl link ids rs = ids -> forall r, r ∈ rs -> link ids r = ids.
Proof.
  induction rs as [|r rs IH]; intros ids Hf r' Hr; [by apply elem_of_nil in Hr|]. simpl in Hf.
  assert (link ids r = ids) as E.
  { apply set_eq. intros k. split; [|apply link_grows]. intros Hk. rewrite <- Hf. by apply (links_grow rs). }
  apply elem_of_cons in Hr as [->|Hr]; [done|]. apply IH; [|done]. by rewrite E in Hf.
Qed.

Lemma fixed_complete replaced base ids : base ⊆ ids -> foldl link ids replaced = ids -> forall k, linked replaced base k -> k ∈ ids.
Proof.
  intros Hb Hf k. induction 1 as [k Hk|r Hr _ IH|r Hr _ IH Hne]; [by apply Hb|..].
  - rewrite <- (fixed_link _ _ Hf r Hr). unfold link. rewrite (bool_decide_eq_true_2 _ IH), orb_true_r. cbv zeta. case_match; set_solver.
  - rewrite <- (fixed_link _ _ Hf r Hr). unfold link. rewrite (bool_decide_eq_true_2 _ IH). cbv zeta. cbn [orb].
    destruct (String.eqb_spec (next_key r).1.2 ""); [done|]. by apply elem_of_union_l, elem_of_singleton.
Qed.

(** The loop stops when no candidate is left to add. *)
Lemma link_loop_stops replaced U : (forall ids, ids ⊆ U -> foldl link ids replaced ⊆ U) -> forall fuel ids,
  ids ⊆ U -> (size U - size ids < fuel)%nat ->
  exists out, link_loop fuel replaced ids = Done out /\ ids ⊆ out /\ foldl link out replaced = out.
Proof.
  intros HU fuel. induction fuel as [|fuel IH]; intros ids Hids Hf; [lia|]. cbn [link_loop].
  pose proof (links_grow replaced ids) as Hg. pose proof (subseteq_size _ _ Hg) as Hs.
  pose proof (subseteq_size _ _ (HU ids Hids)) as Hs'.
  destruct (size (foldl link ids replaced) =? size ids)%nat eqn:E.
  - apply Nat.eqb_eq in E. assert (foldl link ids replaced = ids) as Hfix.
    { symmetry. apply leibniz_equiv, set_subseteq_size_equiv; [done|lia]. }
    exists (foldl link ids replaced). split; [done|]. split; [done|]. by rewrite !Hfix.
  - apply Nat.eqb_neq in E. destruct (IH (foldl link ids replaced) (HU ids Hids)) as (out & Ho & Hi & Hx); [lia|].
    exists out. split; [done|]. split; [|done]. by etrans.
Qed.

Definition row_keys (rows : list Json) : gset OrderKey := list_to_set ((row_key <$> rows) ++ (next_key <$> rows))%list.

Lemma links_within replaced base rs : (forall r, r ∈ rs -> r ∈ replaced) -> forall ids,
  ids ⊆ base ∪ row_keys replaced -> foldl link ids rs ⊆ base ∪ row_keys replaced.
Proof.
  induction rs as [|r rs IH]; intros Hrs ids Hids; simpl; [done|]. apply IH; [intros; apply Hrs; by right|].
  assert (row_key r ∈ row_keys replaced /\ next_key r ∈ row_keys replaced) as [Ha Hb].
  { unfold row_keys. rewrite !elem_of_list_to_set, !elem_of_app. split; [left|right]; apply list_elem_of_fmap_2, Hrs; by left. }
  unfold link. repeat case_match; set_solver.
Qed.

Lemma size_list_le (l : list OrderKey) : (size (list_to_set l : gset OrderKey) <= length l)%nat.
Proof.
  induction l as [|x l IH]; [done|]. rewrite list_to_set_cons, size_union_alt, size_singleton. cbn [length].
  assert (size (list_to_set l ∖ {[x]} : gset OrderKey) <= size (list_to_set l : gset OrderKey))%nat by (apply subseteq_size; set_solver). lia.
Qed.

Lemma size_row_keys rows : (size (row_keys rows) <= 2 * length rows)%nat.
Proof. unfold row_keys. pose proof (size_list_le ((row_key <$> rows) ++ (next_key <$> rows))%list) as H. rewrite length_app, !length_fmap in H. lia. Qed.

Lemma link_loop_sound replaced base fuel : forall ids out,
  link_loop fuel replaced ids = Done out -> (forall k, k ∈ ids -> linked replaced base k) -> forall k, k ∈ out -> linked replaced base k.
Proof.
  induction fuel as [|fuel IH]; intros ids out Hd Hs; [done|]. cbn [link_loop] in Hd.
  pose proof (links_sound replaced base replaced (fun _ H => H) _ Hs) as Hs'.
  case_match; [injection Hd as <-; exact Hs'|by apply (IH _ _ Hd)].
Qed.

Lemma linked_ids_exact o rows :
  exists ids, linked_ids o rows = Done ids /\
    forall k, k ∈ ids <-> linked (List.filter (is_kind "replaced") rows) (named_ids o rows) k.
Proof.
  set (replaced := List.filter (is_kind "replaced") rows). set (base := named_ids o rows).
  destruct (link_loop_stops replaced (base ∪ row_keys replaced)) with (fuel := S (2 * length replaced)) (ids := base) as (ids & Hd & Hb & Hf).
  - by apply links_within.
  - set_solver.
  - rewrite size_union_alt. pose proof (size_row_keys replaced).
    assert (size (row_keys replaced ∖ base) <= size (row_keys replaced))%nat by (apply subseteq_size; set_solver). lia.
  - exists ids. split; [done|]. intros k. split; [|by apply fixed_complete].
    apply (link_loop_sound replaced base _ _ _ Hd). by constructor.
Qed.

Lemma unless_spec f v : unless f v = true <-> forall s, f = Some s -> v = s.
Proof. destruct f as [s|]; simpl; [rewrite String.eqb_eq|]; naive_solver. Qed.

Lemma matches_spec f v : matches f v = true <-> f = Some v.
Proof. destruct f as [s|]; simpl; [rewrite String.eqb_eq|]; naive_solver. Qed.

Lemma kept_row_spec o rows ids r :
  (forall k, k ∈ ids <-> linked (List.filter (is_kind "replaced") rows) (named_ids o rows) k) ->
  kept_row o ids r = true <-> in_scope o rows r.
Proof.
  intros Hids. unfold kept_row, in_scope. rewrite !andb_true_iff, !orb_true_iff, !andb_true_iff, !unless_spec, matches_spec, !bool_decide_eq_true, Hids.
  assert (forall f x, match f with Some v => v <=? x | None => true end = true <-> forall n, f = Some n -> n <= x) as ->.
  { intros [v|] x; [rewrite Z.leb_le|]; naive_solver. }
  assert (forall f x, match f with Some v => x <=? v | None => true end = true <-> forall n, f = Some n -> x <= n) as ->.
  { intros [v|] x; [rewrite Z.leb_le|]; naive_solver. }
  naive_solver.
Qed.

(** ** Notable orders *)

Lemma notables_tell_app k a b : notables_tell k (a ++ b) = told_add (notables_tell k a) (notables_tell k b).
Proof. unfold notables_tell, told_add. rewrite List.filter_app, sumZ_app, bind_app. done. Qed.

Lemma rows_tell_app k a b : rows_tell k (a ++ b) = told_add (rows_tell k a) (rows_tell k b).
Proof. unfold rows_tell, told_add, count_kind. rewrite !List.filter_app, length_app, fmap_app, Nat2Z.inj_add. done. Qed.

Lemma told_add_assoc a b c : told_add a (told_add b c) = told_add (told_add a b) c.
Proof. unfold told_add. simpl. by rewrite Z.add_assoc, app_assoc. Qed.

Lemma told_add_nil_r a : told_add a (0, []) = a.
Proof. destruct a. unfold told_add. simpl. by rewrite Z.add_0_r, app_nil_r. Qed.

Lemma notables_tell_other k l : Forall (fun n => notable_key n <> k) l -> notables_tell k l = (0, []).
Proof.
  intros H. unfold notables_tell. assert (List.filter (fun n => bool_decide (notable_key n = k)) l = []) as ->; [|done].
  induction H as [|n l Hn _ IH]; [done|]. simpl. by rewrite bool_decide_eq_false_2.
Qed.

Lemma tell_key kind row n : notable_key (tell_notable kind row n) = notable_key n.
Proof. unfold tell_notable, notable_key. by case_match. Qed.

(** A counted row tells one thing of its own order, nothing of the others. *)
Lemma tell_step k n row before after : notable_key n = row_key row -> counted row = true -> Forall (fun n => notable_key n <> row_key row) after ->
  notables_tell k (before ++ tell_notable (trace_text "kind" row) row n :: after) =
  told_add (notables_tell k (before ++ n :: after)) (rows_tell k [row]).
Proof.
  intros Hn Hc Ha. rewrite !notables_tell_app. change (?x :: after) with ([x] ++ after)%list. rewrite !notables_tell_app.
  assert (notable_key (tell_notable (trace_text "kind" row) row n) = row_key row) as Hn' by (by rewrite tell_key).
  destruct (decide (row_key row = k)) as [<-|Hk].
  - rewrite (notables_tell_other _ after Ha), !told_add_nil_r, <- told_add_assoc. f_equal.
    unfold notables_tell, rows_tell, told_add. cbn [List.filter]. rewrite !bool_decide_eq_true_2, Hc by done. cbn [andb].
    unfold count_kind, tell_notable, is_kind. cbn [List.filter]. destruct (String.eqb _ "fill"); simpl; rewrite ?app_nil_r; f_equal; lia.
  - assert (forall x, notable_key x = row_key row -> notables_tell k [x] = (0, [])) as E.
    { intros x Hx. apply notables_tell_other. constructor; [congruence|constructor]. }
    rewrite !E by done. assert (rows_tell k [row] = (0, [])) as ->; [|by rewrite told_add_nil_r].
    unfold rows_tell. cbn [List.filter]. by rewrite (bool_decide_eq_false_2 (row_key row = k)), andb_false_r.
Qed.

Lemma alter_middle {A} (f : A -> A) before n after : alter f (length before) (before ++ n :: after)%list = (before ++ f n :: after)%list.
Proof. induction before as [|x before IH]; [done|]. simpl. f_equal. exact IH. Qed.

(** One row. *)
Lemma tell_at row orders live i : live_last (notable_key <$> orders) live -> live !! row_key row = Some i -> counted row = true ->
  let orders' := alter (tell_notable (trace_text "kind" row) row) i orders in
  live_last (notable_key <$> orders') live /\ forall k, notables_tell k orders' = told_add (notables_tell k orders) (rows_tell k [row]).
Proof.
  intros Hl Hi Hc. destruct (Hl _ _ Hi) as (kb & ka & Hk & Hb & Ha).
  apply fmap_app_inv in Hk as (before & rest & Hkb & Hka & ->). symmetry in Hka. apply fmap_cons_inv in Hka as (n & after & Hn & Hka & ->).
  subst kb ka. rewrite length_fmap in Hb. subst i. cbv zeta. rewrite alter_middle. split.
  - intros k' i' Hk'. destruct (Hl _ _ Hk') as (b' & a' & E & Hlen). exists b', a'. split; [|done]. by rewrite <- E, !fmap_app, !fmap_cons, tell_key.
  - intros k. apply tell_step; [done|done|]. apply Forall_forall. intros x Hx E. apply Ha. rewrite <- E. by apply list_elem_of_fmap_2.
Qed.

Lemma notable_step_tells orders live row : live_last (notable_key <$> orders) live ->
  let '(orders', live') := notable_step (orders, live) row in
  live_last (notable_key <$> orders') live' /\ forall k, notables_tell k orders' = told_add (notables_tell k orders) (rows_tell k [row]).
Proof.
  intros Hl. unfold notable_step. destruct (row_key row) as [[sym id] owner] eqn:Ek.
  assert (counted row = false -> forall k, notables_tell k orders = told_add (notables_tell k orders) (rows_tell k [row])) as Hskip.
  { intros E k. unfold rows_tell. cbn [List.filter]. rewrite E. cbn. by rewrite told_add_nil_r. }
  assert (trace_text "order_id" row = id) as Hid by (by injection Ek). unfold counted in Hskip. rewrite Hid in Hskip.
  destruct (String.eqb_spec (trace_text "kind" row) "accepted") as [E|_].
  { split; [|apply Hskip; by rewrite E]. intros k i [_ Hi]%lookup_delete_Some. by apply Hl. }
  destruct (negb _ || String.eqb id "") eqn:E.
  { split; [done|]. apply Hskip. by destruct (is_notable _), (String.eqb id ""). }
  assert (counted row = true) as Hc by (unfold counted; rewrite Hid; by destruct (is_notable _), (String.eqb id "")).
  rewrite <- Ek.
  match goal with |- context [match ?x with Some _ => _ | None => _ end] => destruct x as [i|] eqn:Hi end; [by apply tell_at|].
  set (fresh := mkNotable sym id owner 0 0 []). set (live' := <[row_key row := length orders]> live).
  destruct (tell_at row (orders ++ [fresh])%list live' (length orders)) as [Hl' Ht]; [|by unfold live'; rewrite lookup_insert_eq|done|].
  - intros k i. unfold live'. rewrite fmap_app. intros [[<- <-]|[Hne Hk]]%lookup_insert_Some.
    + exists (notable_key <$> orders), []. rewrite length_fmap, Ek. split_and!; [done|done|apply not_elem_of_nil].
    + destruct (Hl _ _ Hk) as (b & a & -> & Hlen & Ha). exists b, (a ++ [row_key row])%list. rewrite Ek, <- app_assoc. split_and!; [done|done|].
      rewrite elem_of_app, list_elem_of_singleton. naive_solver.
  - split; [done|]. intros k. rewrite Ht, notables_tell_app. f_equal. rewrite <- (told_add_nil_r (notables_tell k orders)) at 2. f_equal.
    unfold notables_tell. cbn [List.filter]. by case_match.
Qed.

(** C36: For every order (symbol, id and owner) the entries that [notable_orders] lists tell together exactly
    what the rows tell: as many fills as there are fill rows, and its rejections, cancellations and expiries in the
    order of the rows with their causes and sequences. A reused id is split into several entries and loses nothing. *)
Theorem notable_orders_complete (rows : list Json) (k : OrderKey) : notables_tell k (notable_orders rows) = rows_tell k rows.
Proof.
  unfold notable_orders. revert k. apply (proj2 (A := live_last (notable_key <$> (foldl notable_step ([], ∅) rows).1) (foldl notable_step ([], ∅) rows).2)).
  induction rows as [|row rows [Hl Ht]] using rev_ind; [split; [intros k i Hi; by apply (lookup_empty_Some k i) in Hi|done]|]. rewrite foldl_app. cbn [foldl].
  destruct (foldl notable_step ([], ∅) rows) as [orders live]. pose proof (notable_step_tells orders live row Hl) as H.
  destruct (notable_step _ row) as [orders' live']. destruct H as [Hl' Ht']. split; [done|]. intros k. simpl in *. by rewrite Ht', Ht, rows_tell_app.
Qed.

Section rows.
Context `{!Sha256}.

(** C22: The timeline, explain and export commands always finish choosing their rows, and they show, redacted
    and in the order of the journal, exactly the rows in the scope of the filters: those with the asked symbol, owner
    and sequence range that are named by the client id or belong to an order reachable, backwards or forwards, from a
    named order by replacements of the same owner on the same symbol. *)
Theorem selection_exact (rows : list Json) (o : Options) :
  exists keep, (forall r, keep r = true <-> in_scope o rows r) /\
    selected rows o = Done ((fun r => redact r (o_owner o)) <$> List.filter keep rows).
Proof.
  destruct (linked_ids_exact o rows) as (ids & Hd & Hids). exists (kept_row o ids). split.
  - intros r. by apply kept_row_spec.
  - unfold selected. by rewrite Hd.
Qed.

(** ** Redaction *)

(** A map after an insertion, sorted or not. *)
Lemma bt_get_put (k k' : string) (v : Json) m : bt_get k' (bt_insert k v m) = if decide (k = k') then Some v else bt_get k' m.
Proof.
  assert (forall x : string, key_ltb x x = false) as Hi by apply key_ltb_irrefl.
  induction m as [|[k1 v1] m IH]; cbn [bt_insert bt_get].
  - case_decide as E; [subst; by rewrite Hi|]. destruct (key_ltb k' k) eqn:E1; [done|]. destruct (key_ltb k k') eqn:E2; [done|]. by destruct E; apply key_ltb_total.
  - destruct (key_ltb k k1) eqn:E1; cbn [bt_get]; [|destruct (key_ltb k1 k) eqn:E2; cbn [bt_get]].
    + case_decide as E; [subst; by rewrite Hi|]. destruct (key_ltb k' k) eqn:E2; [by rewrite (key_ltb_trans _ _ _ E2 E1)|].
      destruct (key_ltb k k') eqn:E3; [done|]. by destruct E; apply key_ltb_total.
    + rewrite IH. case_decide as E; [subst k'; by rewrite E1, E2|done].
    + assert (k = k1) as -> by (by apply key_ltb_total). case_decide as E; [subst; by rewrite Hi|].
      destruct (key_ltb k' k1) eqn:E3; [done|]. destruct (key_ltb k1 k') eqn:E4; [done|]. by destruct E; apply key_ltb_total.
Qed.

(** The alias of a name. *)
Definition alias (s : string) : string := if String.eqb s "" then "" else "anon:" ++ String.substring 0 12 (sha256 (bytes_of s)).

(** What is shown of a value that names another party: a text by its alias, the
    empty text and any other value as they are. *)
Definition hidden_value (v : Json) : Json := match v with JString s => JString (alias s) | _ => v end.

Lemma redact_field_spec field row :
  (forall k, k <> "data" -> json_get k (redact_field false row field) = json_get k row) /\
  match json_get "data" row with
  | Ok (JObject data) => exists data', json_get "data" (redact_field false row field) = Ok (JObject data') /\
      forall k, bt_get k data' = (if String.eqb k field then hidden_value else id) <$> bt_get k data
  | _ => redact_field false row field = row
  end.
Proof.
  unfold redact_field, json_get. destruct row as [| | | | |m]; try done. destruct (bt_get "data" m) as [[| | | | |data]|] eqn:Ed; try done.
  assert (hidden_value <$> bt_get field data = bt_get field data -> exists data', match bt_get "data" m with Some v => Ok v | None => Err ("missing " ++ "data")%string end = Ok (JObject data') /\
    forall k, bt_get k data' = (if String.eqb k field then hidden_value else id) <$> bt_get k data) as Hsame.
  { intros Hf. exists data. rewrite Ed. split; [done|]. intros k. destruct (String.eqb_spec k field) as [->|]; [done|]. by rewrite option_fmap_id. }
  destruct (bt_get field data) as [[| | |other| |]|] eqn:Ef; try (split; [done|by apply Hsame]).
  rewrite orb_false_r. destruct (String.eqb_spec other "") as [->|Hne]; [split; [done|by apply Hsame]|]. split.
  - intros k Hk. by rewrite bt_get_put, decide_False.
  - rewrite bt_get_put, decide_True by done. eexists. split; [done|]. intros k. rewrite bt_get_put. destruct (String.eqb_spec k field) as [->|Hk].
    + rewrite decide_True, Ef by done. cbn. unfold alias. by rewrite (proj2 (String.eqb_neq _ _) Hne).
    + rewrite decide_False by done. by rewrite option_fmap_id.
Qed.

(** Redaction keeps the rows that have data. *)
Lemma redact_data row owner : (exists d, json_get "data" row = Ok d) -> exists d, json_get "data" (redact row owner) = Ok d.
Proof.
  unfold redact. assert (forall b r f, (exists d, json_get "data" r = Ok d) -> exists d, json_get "data" (redact_field b r f) = Ok d) as Hkeep.
  { intros b r f Hr. unfold redact_field. repeat case_match; try done. cbn [json_get]. rewrite bt_get_put, decide_True by done. by eexists. }
  intros Hr. cbn [foldl]. by apply Hkeep, Hkeep.
Qed.

(** C35: A row shown to its own owner is unchanged. To anyone else every field of
    the row but the data is unchanged; in the data, where that is an object,
    the counterparty and the opposing order are replaced by an alias if they
    are texts, and every other field, texts, prices, quantities and flags alike,
    is there with the same value and no field is added; and a row whose data is
    no object is unchanged. *)
Theorem redact_hides (row : Json) (owner : option string) :
  (owner = Some (trace_text "owner" row) -> redact row owner = row) /\
  (owner <> Some (trace_text "owner" row) ->
    (forall k, k <> "data" -> json_get k (redact row owner) = json_get k row) /\
    match json_get "data" row with
    | Ok (JObject data) => exists data', json_get "data" (redact row owner) = Ok (JObject data') /\
        forall k, bt_get k data' = (if bool_decide (k ∈ party_fields) then hidden_value else id) <$> bt_get k data
    | _ => redact row owner = row
    end).
Proof.
  unfold redact. split.
  - intros ->. rewrite String.eqb_refl. cbn [foldl]. assert (forall r f, redact_field true r f = r) as E; [|by rewrite !E].
    intros r f. unfold redact_field. repeat case_match; try done. by rewrite orb_true_r in *.
  - intros Ho. assert (match owner with Some o => String.eqb (trace_text "owner" row) o | None => false end = false) as ->.
    { destruct owner as [o|]; [|done]. apply String.eqb_neq. congruence. }
    cbn [foldl]. destruct (redact_field_spec "counterparty" row) as [Hk1 Ht1].
    destruct (redact_field_spec "opposing_order" (redact_field false row "counterparty")) as [Hk2 Ht2]. split.
    + intros k Hk. by rewrite Hk2, Hk1.
    + destruct (json_get "data" row) as [[| | | | |data]|] eqn:Ed; try (rewrite Ht1 in *; rewrite Ed in Ht2; exact Ht2).
      destruct Ht1 as (data1 & Hd1 & Ht1). rewrite Hd1 in Ht2. destruct Ht2 as (data2 & Hd2 & Ht2). exists data2. split; [done|].
      intros k. rewrite Ht2, Ht1. unfold party_fields.
      destruct (String.eqb_spec k "opposing_order") as [->|]; [cbn; by rewrite option_fmap_id|]. rewrite option_fmap_id.
      destruct (String.eqb_spec k "counterparty") as [->|]; [done|].
      rewrite bool_decide_eq_false_2; [done|]. rewrite !elem_of_cons. intros [?|[?|?%elem_of_nil]]; done.
Qed.
End rows.
