(* ===== verification/ReportAssets.v ===== *)
(** * The files of the report page: shell.html, style.css and view.js

    The texts [include_str!] puts into the program. The quotes of the page are
    written as tildes, which it does not use, and put back by [quoted]. *)

From Stdlib Require Import Ascii.
From S2P Require Import Prelude.

Local Open Scope string_scope.

(** ** Definitions *)

Fixpoint quoted (s : string) : string :=
  match s with
  | EmptyString => ""
  | String c s => String (if Ascii.eqb c "~" then ascii_of_N 34 else c) (quoted s)
  end.

(** shell.html. *)
Definition shell_html : string := quoted
"<!doctype html><html lang=~en~><head><meta charset=~utf-8~><meta name=~viewport~ content=~width=device-width,initial-scale=1~><meta http-equiv=~Content-Security-Policy~ content=~default-src 'none'; script-src 'sha256-__SCRIPT_HASH__'; style-src 'sha256-__STYLE_HASH__'; connect-src 'none'; img-src 'none'; font-src 'none'; object-src 'none'; base-uri 'none'; form-action 'none'; frame-src 'none'; worker-src 'none'~><title>FXP · Run report</title><style>__CSS__</style></head><body><header><span class=~brand~>FXP</span><h1>Run report</h1><span id=~verification~ role=~status~></span></header><main><p id=~notice~></p><details><summary>Provenance, digests and verification</summary><pre id=~provenance~></pre></details><section><h2>Run summary</h2><div id=~summary~></div><div id=~owners~></div></section><section><h2>Orders</h2><div class=~filters~><label>Owner<select id=~owner~></select></label><label>Symbol<select id=~symbol~></select></label><label>Status<select id=~status~></select></label><label>Reject reason<input id=~reject~ type=~search~></label><label>Cancel cause<input id=~cancel~ type=~search~></label><label>Order / client ID<input id=~search~ type=~search~></label></div><p id=~order-count~></p><div class=~scroll~><table><thead><tr><th>Order</th><th>Owner</th><th>Symbol</th><th>Status</th><th>Reject reason</th><th>Cancel cause</th></tr></thead><tbody id=~orders~></tbody></table></div><button id=~previous~ type=~button~>Previous</button><button id=~next~ type=~button~>Next</button><article id=~detail~><h3>Select an order</h3><pre id=~explain~></pre><div id=~lifecycle~ class=~scroll~></div></article></section><section><h2>Book scrubber</h2><p>Visible top 10 levels after an atomic command, not intermediate fills. Stops, hidden reserves and auction market orders are not displayed levels.</p><label>Symbol<select id=~book-symbol~></select></label><label>Journal boundary<input id=~sequence~ type=~range~ min=~0~ max=~0~ value=~0~></label><p id=~book-caption~></p><div class=~book~><div><h3>Bids</h3><div id=~bids~></div></div><div><h3>Asks</h3><div id=~asks~></div></div></div><h3>Tape</h3><p id=~tape-caption~></p><div id=~tape~></div></section><footer>Offline artifact · No network or external assets · Recorded commands reproduce exchange behavior, not bot decisions.</footer></main><script id=~report-data~ type=~application/json~>__DATA__</script><script>__SCRIPT__</script><noscript>This report needs JavaScript to display its embedded data. It makes no network requests.</noscript></body></html>
".

(** style.css. *)
Definition style_css : string :=
":root{color-scheme:dark;--bg:#0b1020;--panel:#111a2b;--border:#29354b;--text:#e2e8f0;--muted:#9aaac0;--green:#36d399;--red:#fb7185;--accent:#70baff}*{box-sizing:border-box}body{margin:0;background:var(--bg);color:var(--text);font:14px system-ui,sans-serif}header{display:flex;gap:20px;align-items:center;padding:22px 4%;border-bottom:1px solid var(--border)}h1{font-size:22px;margin:0}.brand{font-weight:850;letter-spacing:3px;color:var(--accent)}main{max-width:1500px;margin:auto;padding:20px 4%}section,details,article{background:var(--panel);border:1px solid var(--border);border-radius:9px;padding:18px;margin:18px 0}h2{font-size:18px}h3{font-size:15px}p,footer{color:var(--muted);line-height:1.6}.filters,.book{display:flex;gap:12px;flex-wrap:wrap}label{display:flex;flex-direction:column;gap:6px;margin:8px 0;color:var(--muted)}input,select,button{border:1px solid var(--border);background:var(--bg);color:var(--text);border-radius:5px;padding:8px}button{cursor:pointer;margin:4px}button:hover,button:focus{border-color:var(--accent)}button:disabled{opacity:.4;cursor:default}table{border-collapse:collapse;width:100%;font-size:12px}th,td{text-align:left;padding:9px;border-bottom:1px solid var(--border);vertical-align:top;overflow-wrap:anywhere}th{color:var(--muted)}pre{white-space:pre-wrap;overflow-wrap:anywhere;font:12px/1.6 ui-monospace,monospace}.scroll{overflow:auto;max-height:500px}.book>div{flex:1;min-width:280px}#sequence{width:100%;padding:0}#verification{margin-left:auto;padding:6px 12px;border:1px solid var(--border);border-radius:20px}.good{color:var(--green)}.bad{color:var(--red)}.own{color:var(--accent);font-weight:600}summary{cursor:pointer}footer{font-size:12px;margin:25px 0}
".

(** view.js. *)
Definition view_js : string :=
"'use strict';
(() => {
  const d = JSON.parse(document.getElementById('report-data').textContent);
  const el = id => document.getElementById(id);
  const put = (id, text) => { el(id).textContent = text; };
  const stringify = x => JSON.stringify(x, null, 2);
  const node = (tag, text) => { const n = document.createElement(tag); if (text !== undefined) n.textContent = String(text); return n; };
  const table = (head, rows) => { const t = node('table'), h = node('tr'); head.forEach(s => h.append(node('th', s))); const th = node('thead'); th.append(h); t.append(th); const b = node('tbody'); rows.forEach(values => { const tr = node('tr'); values.forEach(s => tr.append(node('td', s))); b.append(tr); }); t.append(b); return t; };
  const choices = (id, values, all = true) => { const s = el(id); if (all) { const o = node('option', 'All'); o.value = ''; s.append(o); } [...new Set(values)].sort().forEach(v => { const o = node('option', v); o.value = all ? JSON.stringify(v) : v; s.append(o); }); };
  put('verification', d.verification.result.toUpperCase()); el('verification').className = d.verification.result === 'identical' ? 'good' : 'bad';
  put('notice', `${d.privacy.anonymized_owners ? 'Non-selected owners and all order/client identities pseudonymized; free-form manifest metadata omitted. ' : ''}Lifecycle source: ${d.verification.source}. Book source: replayed engine. Window ${d.window.from}–${d.window.to}. ${d.window.boundary}. ${d.verification.result !== 'identical' ? 'UNVERIFIED / DIVERGENT: inspect verification before relying on this report.' : ''}`);
  put('provenance', stringify({ manifest: d.manifest, verification: d.verification, window: d.window, privacy: d.privacy }));
  put('summary', `Orders: ${d.summary.orders} · public fills: ${d.summary.fills}\nRejects by reason: ${stringify(d.summary.rejects_by_reason)}\nCancels/expiry by cause: ${stringify(d.summary.cancels_by_cause)}`);
  el('owners').append(table(['Owner', 'Orders', 'Fill reports', 'Rejects', 'Cancels'], d.summary.owners.map(o => [o.owner, o.orders, o.fill_reports, o.rejects, o.cancels])));
  choices('owner', d.orders.map(o => o.owner)); choices('symbol', d.orders.map(o => o.symbol)); choices('status', d.orders.map(o => o.status)); choices('book-symbol', d.symbols, false);
  const eventIndex = new Map(d.events.map(r => [`${r.global_seq}:${r.event_index}`, r]));
  let offset = 0;
  const detail = order => {
    el('detail').querySelector('h3').textContent = `${order.order_id} · ${order.owner} · ${order.symbol}`;
    put('explain', order.explanation);
    const rows = order.positions.map(p => eventIndex.get(p.join(':'))).filter(Boolean);
    el('lifecycle').replaceChildren(table(['Seq:index', 'Event', 'Order', 'Detail'], rows.map(r => [`${r.global_seq}:${r.event_index}`, r.kind, r.order_id, stringify(r.data)])));
  };
  const renderOrders = () => {
    const query = el('search').value.toLowerCase(), reject = el('reject').value.toLowerCase(), cancel = el('cancel').value.toLowerCase();
    const found = d.orders.filter(o => (!el('owner').value || o.owner === JSON.parse(el('owner').value)) && (!el('symbol').value || o.symbol === JSON.parse(el('symbol').value)) && (!el('status').value || o.status === JSON.parse(el('status').value)) && o.reject_reason.toLowerCase().includes(reject) && o.cancel_cause.toLowerCase().includes(cancel) && (!query || stringify(o).toLowerCase().includes(query)));
    offset = Math.min(offset, Math.max(0, Math.floor((found.length - 1) / 200) * 200));
    el('orders').replaceChildren();
    found.slice(offset, offset + 200).forEach(o => { const tr = node('tr'), td = node('td'), button = node('button', o.order_id || '(empty ID)'); button.type = 'button'; button.addEventListener('click', () => detail(o)); td.append(button); tr.append(td); [o.owner, o.symbol, o.status, o.reject_reason, o.cancel_cause].forEach(s => tr.append(node('td', s))); el('orders').append(tr); });
    put('order-count', `${found.length} chains · showing ${found.length ? offset + 1 : 0}–${Math.min(offset + 200, found.length)}. Replacements share a lifecycle.`);
    el('previous').disabled = offset === 0; el('next').disabled = offset + 200 >= found.length;
  };
  ['owner', 'symbol', 'status', 'reject', 'cancel', 'search'].forEach(id => el(id).addEventListener('input', () => { offset = 0; renderOrders(); }));
  el('previous').addEventListener('click', () => { offset = Math.max(0, offset - 200); renderOrders(); }); el('next').addEventListener('click', () => { offset += 200; renderOrders(); }); renderOrders();
  const compare = (a, b) => BigInt(a) < BigInt(b) ? -1 : BigInt(a) > BigInt(b) ? 1 : 0;
  const seqs = [...new Set([d.window.from, ...d.books.map(b => b.seq), ...d.events.map(r => r.global_seq)])].sort(compare);
  el('sequence').max = String(Math.max(0, seqs.length - 1));
  const frames = new Map(d.symbols.map(s => [s, []])), prints = new Map(d.symbols.map(s => [s, []]));
  d.books.forEach(b => frames.get(b.symbol).push(b)); d.tape.forEach(r => prints.get(r.symbol).push(r));
  const prefix = (array, seq, key) => { let a = 0, b = array.length; while (a < b) { const m = (a + b) >>> 1; if (compare(key(array[m]), seq) <= 0) a = m + 1; else b = m; } return a; };
  const book = () => {
    const symbol = el('book-symbol').value, seq = seqs[Number(el('sequence').value)] || '0', f = frames.get(symbol) || [], at = prefix(f, seq, r => r.seq), ladder = at ? f[at - 1].ladder : { bids: [], asks: [], phase: 'not observed' };
    put('book-caption', `Sequence ${seq} · ${symbol} · phase ${ladder.phase} · working-order marks: ${d.privacy.selected_owner || 'none (generate with --owner NAME)'}`);
    for (const side of ['bids', 'asks']) { el(side).replaceChildren(table(['Price (fixed point)', 'Displayed qty', 'Selected owner: ID / displayed / leaves'], ladder[side].map(l => [l.price, l.quantity, l.own_orders.map(o => `${o.order_id} / ${o.displayed} / ${o.leaves}`).join('\n')]))); el(side).classList.toggle('own', ladder[side].some(l => l.own_orders.length)); }
    const tape = prints.get(symbol) || [], count = prefix(tape, seq, r => r.global_seq);
    put('tape-caption', `${count} window prints up to this boundary; showing the last ${Math.min(100, count)}. Earlier prints remain in the embedded JSON.`);
    el('tape').replaceChildren(table(['Seq', 'Price', 'Quantity', 'Auction'], tape.slice(Math.max(0, count - 100), count).reverse().map(r => [r.global_seq, r.data.price, r.data.quantity, r.data.auction ? 'yes' : 'no'])));
  };
  el('sequence').addEventListener('input', book); el('book-symbol').addEventListener('change', book); book();
})();
".
