(* ===== verification/Report.v ===== *)
(** * The run report: replay_cli/report/mod.rs and engine/report_view.rs

    [fxp-replay report] turns a bundle into one JSON document and an HTML page
    that carries it: the summary of the run, the life of every order, the visible
    book after every command and, on request, pseudonyms instead of names. *)

From Stdlib Require Import Ascii.
From S2P Require Import Prelude BTree Text Bytes Json Order OrderBook Matcher Stops Session SymbolConfig Auction Proto Reports EventLog Engine.
From S2P Require Import Canonical Digest Trace Recording Journal Bundle ReplayCli ReportAssets.

Local Open Scope string_scope.
Local Open Scope Z_scope.

(** ** Definitions *)

(** *** Options *)

Definition SCHEMA : string := "fxp-run-report-v1".
Definition MAX_INPUT : Z := 256 * 1024 * 1024.
Definition MAX_ROWS : Z := 100000.
Definition MAX_DATA : Z := 96 * 1024 * 1024.
Definition MAX_HTML : Z := 100 * 1024 * 1024.

Record Config : Type := mkConfig {
  cf_bundle : string;
  cf_html : option string;
  cf_json : option string;
  cf_owner : option string;
  cf_anonymize : bool;
  cf_from : Z;
  cf_to : Z;
  cf_force : bool;
}.

(** The components of a path, which is what [PathBuf] compares. *)
Definition path_parts (p : string) : bool * list string :=
  let root := String.prefix "/" p in
  let parts := List.filter (fun s => negb (String.eqb s "")) (split_on "/" p) in
  (root, match parts with
         | [] => []
         | first :: rest =>
           let rest := List.filter (fun s => negb (String.eqb s ".")) rest in
           if String.eqb first "." && root then rest else first :: rest
         end).

Definition same_path (a b : option string) : bool :=
  match a, b with
  | Some a, Some b => bool_decide (path_parts a = path_parts b)
  | None, None => true
  | _, _ => false
  end.

(** An option of the report with a value. *)
Definition set_report_value (k v : string) (c : Config) : result Config string :=
  let '(mkConfig bundle html json owner anonymize from to force) := c in
  if String.eqb k "--html" then Ok (mkConfig bundle (Some v) json owner anonymize from to force)
  else if String.eqb k "--json" then Ok (mkConfig bundle html (Some v) owner anonymize from to force)
  else if String.eqb k "--owner" then Ok (mkConfig bundle html json (Some v) anonymize from to force)
  else if String.eqb k "--from" then
    match parse_u64 v with Some n => Ok (mkConfig bundle html json owner anonymize n to force) | None => Err "--from requires u64" end
  else if String.eqb k "--to" then
    match parse_u64 v with Some n => Ok (mkConfig bundle html json owner anonymize from n force) | None => Err "--to requires u64" end
  else Err ("unknown report option " ++ k).

Definition set_anonymize (c : Config) : Config :=
  mkConfig (cf_bundle c) (cf_html c) (cf_json c) (cf_owner c) true (cf_from c) (cf_to c) (cf_force c).
Definition set_force (c : Config) : Config :=
  mkConfig (cf_bundle c) (cf_html c) (cf_json c) (cf_owner c) (cf_anonymize c) (cf_from c) (cf_to c) true.

(** The loop of [options]. *)
Fixpoint report_args (args : list string) (seen : gset string) (c : Config) : result Config string :=
  match args with
  | [] => Ok c
  | k :: args =>
    if bool_decide (k ∈ seen) then Err "duplicate report option"
    else
      let seen := {[ k ]} ∪ seen in
      if String.eqb k "--anonymize-owners" then report_args args seen (set_anonymize c)
      else if String.eqb k "--force" then report_args args seen (set_force c)
      else
        match args with
        | v :: args =>
          if String.eqb v "" || String.prefix "--" v then Err ("missing value for " ++ k)
          else match set_report_value k v c with Ok c => report_args args seen c | Err e => Err e end
        | [] => Err ("missing value for " ++ k)
        end
  end.

(** [options]. *)
Definition report_options (args : list string) : result Config string :=
  match args with
  | [] => Err "report requires a bundle"
  | bundle :: args =>
    if is_option bundle then Err "report requires a bundle"
    else
      match report_args args ∅ (mkConfig bundle None None None false 0 u64_max false) with
      | Err e => Err e
      | Ok c =>
        if bool_decide (is_Some (cf_html c)) && same_path (cf_html c) (cf_json c) then Err "--html and --json must name different files"
        else if bool_decide (cf_html c = None) && bool_decide (cf_json c = None) || (cf_from c >? cf_to c)
        then Err "report requires --html and/or --json; --from must not exceed --to"
        else Ok c
      end
  end.

(** *** Summary *)

Definition bit (b : bool) : Z := if b then 1 else 0.

(** Orders, fill reports, rejects and cancels of an owner. *)
Definition Activity : Type := Z * Z * Z * Z.

Definition is_ended (kind : string) : bool := String.eqb kind "canceled" || String.eqb kind "expired".

Definition add_activity (row : Json) (m : list (string * Activity)) : list (string * Activity) :=
  let owner := trace_text "owner" row in
  let kind := trace_text "kind" row in
  if String.eqb owner "" then m
  else
    let '(orders, fills, rejects, cancels) := default (0, 0, 0, 0) (bt_get owner m) in
    bt_insert owner (orders + bit (is_new_command row), fills + bit (String.eqb kind "fill"),
                     rejects + bit (String.eqb kind "rejected"), cancels + bit (is_ended kind)) m.

Definition activity_json (e : string * Activity) : Json :=
  let '(owner, (orders, fills, rejects, cancels)) := e in
  json_object [("owner", JString owner); ("orders", json_number orders); ("fill_reports", json_number fills);
               ("rejects", json_number rejects); ("cancels", json_number cancels)].

(** Every row is unwrapped. *)
Fixpoint all_data (rows : list Json) : outcome unit :=
  match rows with [] => Done tt | row :: rows => let* _d := data_of row in all_data rows end.

(** [summary]. *)
Definition report_summary (rows : list Json) : outcome Json :=
  let* _u := all_data rows in
  Done (json_object
    [("orders", json_number (count_kind is_new_command rows)); ("fills", json_number (count_kind (is_kind "trade") rows));
     ("rejects_by_reason", count_map (counts_by (is_kind "rejected") row_cause rows));
     ("cancels_by_cause", count_map (counts_by (fun r => is_ended (trace_text "kind" r)) row_cause rows));
     ("owners", JArray (activity_json <$> foldl (fun m row => add_activity row m) [] rows))]).

(** *** Lives of orders *)

(** [key]: symbol, owner, order id. *)
Definition life_key (row : Json) : OrderKey := (trace_text "symbol" row, trace_text "owner" row, trace_text "order_id" row).

(** The rows of each life so far, the life an id is in, and the submission that
    is being answered. *)
Record Lives : Type := mkLives {
  lv_groups : list (list Json);
  lv_current : gmap OrderKey nat;
  lv_pending : option (Z * OrderKey * nat);
}.

Definition answered (seq : Z) (k : OrderKey) (pending : option (Z * OrderKey * nat)) : option nat :=
  match pending with
  | Some (s, key, n) => if (s =? seq) && bool_decide (key = k) then Some n else None
  | None => None
  end.

(** The life a row belongs to. *)
Definition life_of (row : Json) (l : Lives) : nat * Lives :=
  let k := life_key row in
  let seq := trace_number "global_seq" row in
  let n := length (lv_groups l) in
  if is_new_command row then (n, mkLives (lv_groups l ++ [[]])%list (lv_current l) (Some (seq, k, n)))
  else
    match answered seq k (lv_pending l) with
    | Some g => (g, l)
    | None =>
      match lv_current l !! k with
      | Some g => (g, l)
      | None => (n, mkLives (lv_groups l ++ [[]])%list (<[k := n]> (lv_current l)) (lv_pending l))
      end
    end.

(** One row of the first loop of [orders]. *)
Definition life_step (l : Lives) (row : Json) : Lives :=
  if String.eqb (trace_text "order_id" row) "" && negb (is_new_command row) then l
  else
    let '(g, l) := life_of row l in
    let kind := trace_text "kind" row in
    let '(sym, owner, id) := life_key row in
    let current := if String.eqb kind "accepted" then <[(sym, owner, id) := g]> (lv_current l) else lv_current l in
    let next := trace_text "new_order_id" (row_data row) in
    let current := if String.eqb kind "replaced" && negb (String.eqb next "") then <[(sym, owner, next) := g]> current else current in
    mkLives (alter (fun rows => rows ++ [row])%list g (lv_groups l)) current (lv_pending l).

Definition lives (rows : list Json) : list (list Json) := lv_groups (foldl life_step (mkLives [] ∅ None) rows).

(** The status of a life: status, accepted, reject reason, cancel cause. *)
Record Status : Type := mkStatus { su_status : string; su_accepted : bool; su_reject : string; su_cancel : string }.

Definition status_step (s : Status) (row : Json) : Status :=
  let data := row_data row in
  let kind := trace_text "kind" row in
  let cause := trace_text "cause" data in
  let '(mkStatus status accepted reject cancel) := s in
  if String.eqb kind "accepted" then mkStatus "working" true reject cancel
  else if String.eqb kind "fill" then
    mkStatus (if trace_number "leaves_quantity" data =? 0 then "filled" else "partially_filled") accepted reject cancel
  else if String.eqb kind "canceled" then mkStatus "canceled" accepted reject cause
  else if String.eqb kind "expired" then mkStatus "expired" accepted reject cause
  else if String.eqb kind "rejected" then mkStatus (if accepted then status else "rejected") accepted cause cancel
  else s.

(** A [BTreeSet] of strings. *)
Definition sorted_set (l : list string) : list string := (foldl (fun m s => bt_insert s tt m) [] l).*1.

Definition in_window (from to : Z) (row : Json) : bool := (from <=? trace_number "global_seq" row) && (trace_number "global_seq" row <=? to).

Definition position_json (row : Json) : Json := JArray [json_number (trace_number "global_seq" row); json_number (trace_number "event_index" row)].

(** *** Clean up *)

(** [exact]: numbers become text. *)
Fixpoint exact (j : Json) : Json :=
  match j with
  | JNumber n => JString n
  | JArray l => JArray (exact <$> l)
  | JObject m => JObject ((fun e => (e.1, exact e.2)) <$> m)
  | j => j
  end.

(** [trim]. *)
Fixpoint trim (j : Json) : Json :=
  match j with
  | JObject m =>
    JObject (bt_remove "protobuf_hex" (bt_remove "canonical_hex" ((fun e => (e.1, trim e.2)) <$> m)))
  | JArray l => JArray (trim <$> l)
  | j => j
  end.

(** *** Privacy *)

(** A node of the automaton that finds names. *)
Record MaskNode : Type := mkMaskNode { mn_next : gmap Z nat; mn_value : option string }.

Definition mask_default : MaskNode := mkMaskNode ∅ None.

Record Privacy : Type := mkPrivacy {
  pv_owners : list (string * string);
  pv_identities : list (string * string);
  pv_masks : list MaskNode;
}.

(** [{:0width}]. *)
Definition print_width (width : nat) (n : Z) : string :=
  let s := print_dec n in
  String.concat "" (repeat "0" (width - String.length s)) ++ s.

(** The path of a name, made where it is missing. *)
Fixpoint mask_path (name : list Z) (at_ : nat) (masks : list MaskNode) : nat * list MaskNode :=
  match name with
  | [] => (at_, masks)
  | byte :: name =>
    match mn_next (default mask_default (masks !! at_)) !! byte with
    | Some next => mask_path name next masks
    | None =>
      let next := length masks in
      let masks := (masks ++ [mask_default])%list in
      mask_path name next (alter (fun n => mkMaskNode (<[byte := next]> (mn_next n)) (mn_value n)) at_ masks)
    end
  end.

Definition add_mask (masks : list MaskNode) (e : string * string) : list MaskNode :=
  let '(at_, masks) := mask_path (bytes_of e.1) 0 masks in
  alter (fun n => mkMaskNode (mn_next n) (Some e.2)) at_ masks.

Definition identity_keys : list string :=
  ["order_id"; "new_order_id"; "orig_order_id"; "client_order_id"; "counterparty"; "opposing_order"].

(** The names of orders and clients in a row and its data. *)
Definition row_names (row : Json) : list string :=
  List.filter (fun s => negb (String.eqb s ""))
    ((row :: match json_get "data" row with Ok d => [d] | Err _ => [] end) ≫= fun j => (fun k => trace_text k j) <$> identity_keys).

Definition enumerated (l : list string) : list (Z * string) := zip (seqZ 1 (Z.of_nat (length l))) l.

(** [Privacy::new]. *)
Definition privacy_new (rows : list Json) (selected : option string) : Privacy :=
  let names := sorted_set (List.filter (fun s => negb (String.eqb s "")) (trace_text "owner" <$> rows)) in
  let label := fun i => let l := "owner-" ++ print_width 4 i in if bool_decide (Some l = selected) then l ++ "-" else l in
  let owners := (fun e : Z * string => (e.2, label e.1)) <$> List.filter (fun e => negb (bool_decide (Some e.2 = selected))) (enumerated names) in
  let identities := (fun e : Z * string => (e.2, "id-" ++ print_width 6 e.1)) <$> enumerated (sorted_set (rows ≫= row_names)) in
  mkPrivacy owners identities (foldl add_mask [mask_default] (owners ++ identities)%list).

(** The longest name at the start of the bytes. *)
Fixpoint longest_mask (masks : list MaskNode) (node offset : nat) (s : list Z) (longest : option (nat * string)) : option (nat * string) :=
  match s with
  | [] => longest
  | byte :: s =>
    match mn_next (default mask_default (masks !! node)) !! byte with
    | None => longest
    | Some next =>
      longest_mask masks next (S offset) s
        (match mn_value (default mask_default (masks !! next)) with Some v => Some (S offset, v) | None => longest end)
    end
  end.

(** [char::len_utf8], from the first byte. *)
Definition char_len (b : Z) : nat := if b <? 128 then 1 else if b <? 224 then 2 else if b <? 240 then 3 else 4.

(** The loop of [prose], on at most as many characters as there are bytes. *)
Fixpoint prose_loop (fuel : nat) (masks : list MaskNode) (s : list Z) : outcome (list Z) :=
  match s with
  | [] => Done []
  | b :: _ =>
    match fuel with
    | O => OutOfFuel
    | S fuel =>
      match longest_mask masks 0 0 s None with
      | Some (len, value) => let* rest := prose_loop fuel masks (drop len s) in Done (bytes_of value ++ rest)%list
      | None => let* rest := prose_loop fuel masks (drop (char_len b) s) in Done (take (char_len b) s ++ rest)%list
      end
    end
  end.

(** [Privacy::prose]. *)
Definition prose (p : Privacy) (s : string) : outcome string :=
  let* bytes := prose_loop (String.length s) (pv_masks p) (bytes_of s) in Done (string_of bytes).

Definition plain_fields : list string :=
  ["schema"; "symbol"; "symbols"; "source"; "result"; "kind"; "role"; "status"; "phase"; "session_phase"; "bundle_format";
   "canonical_version"; "state_version"; "trace_version"; "replay_version"; "fxp_version"].

Definition is_hex_char (c : ascii) : bool :=
  let n := Ascii.N_of_ascii c in ((48 <=? n) && (n <=? 57) || (97 <=? n) && (n <=? 102) || (65 <=? n) && (n <=? 70))%N.

Definition is_hash (s : string) : bool := (40 <=? String.length s)%nat && all_chars is_hex_char s.

(** A string under a key. *)
Definition mask_text (p : Privacy) (field s : string) : outcome string :=
  if String.eqb field "owner" || String.eqb field "selected_owner" then Done (default s (bt_get s (pv_owners p)))
  else if bool_decide (field ∈ identity_keys) then Done (default s (bt_get s (pv_identities p)))
  else if negb (bool_decide (field ∈ plain_fields)) && negb (is_hash s) then prose p s
  else Done s.

Definition count_fields : list string := ["rejects_by_reason"; "cancels_by_cause"].

(** One entry of a masked object: counts of causes that become the same add up. *)
Definition mask_entry (p : Privacy) (field k : string) (v : Json) (m : list (string * Json)) : outcome (list (string * Json)) :=
  if bool_decide (field ∈ count_fields) then
    let* k := prose p k in
    match bt_get k m, v with
    | Some (JNumber a), JNumber b =>
      let* a := expect (parse_u64 a) in
      let* b := expect (parse_u64 b) in
      Done (bt_insert k (json_number (add64 a b)) m)
    | _, _ => Done (bt_insert k v m)
    end
  else Done (bt_insert k v m).

(** [Privacy::apply]. *)
Fixpoint mask_json (p : Privacy) (field : string) (j : Json) : outcome Json :=
  match j with
  | JString s => let* s := mask_text p field s in Done (JString s)
  | JArray l =>
    let* l := (fix go l := match l with [] => Done [] | v :: l => let* v := mask_json p field v in let* l := go l in Done (v :: l) end) l in
    Done (JArray l)
  | JObject m =>
    let* m := (fix go old m :=
      match old with
      | [] => Done m
      | (k, v) :: old =>
        if String.eqb k "account" || String.eqb k "stp_group" then go old m
        else let* v := mask_json p k v in let* m := mask_entry p field k v m in go old m
      end) m [] in
    Done (JObject m)
  | j => Done j
  end.

(** *** The visible book *)

Definition phase_variant (p : TradingPhase) : string :=
  match p with PhaseUnspecified => "Unspecified" | Closed => "Closed" | OpeningCall => "OpeningCall" | Continuous => "Continuous" | ClosingCall => "ClosingCall" end.

Section ladder.
Context {R I : Type}.
Implicit Types (e : Engine R I).

Definition own_order (b : OrderBook) (o : Order) : Json :=
  json_object [("order_id", JString (order_id o)); ("displayed", JString (print_dec (visible b o))); ("leaves", JString (print_dec (quantity o)))].

Definition ladder_level (b : OrderBook) (owner : option string) (level : Z * list Order) : Json :=
  let own := List.filter (fun o => matches owner (trader_id o)) level.2 in
  json_object [("price", JString (print_dec level.1)); ("quantity", JString (print_dec (sumZ (visible b) level.2)));
               ("own_orders", JArray (own_order b <$> own))].

(** [report_ladder]. *)
Definition report_ladder (owner : option string) e : Json :=
  let b := e_book e in
  json_object [("bids", JArray (ladder_level b owner <$> take 10 (reverse (side_levels Buy b))));
               ("asks", JArray (ladder_level b owner <$> take 10 (side_levels Sell b)));
               ("phase", JString (phase_variant (e_phase e)))].
End ladder.

(** The frames of the book: those in the window, the last view of each symbol, the
    views before the window, and the bytes so far. *)
Record Frames : Type := mkFrames {
  fr_frames : list Json;
  fr_previous : gmap string Json;
  fr_prefix : list (string * Json);
  fr_bytes : Z;
}.

Definition same_view (a : option Json) (b : Json) : bool := match a with Some a => json_eqb a b | None => false end.

(** The observer of the replay. *)
Definition observe_frame {R : Type} (c : Config) (seq : Z) (sym : string) (e : Engine R Z) (f : Frames) : result Frames string :=
  if seq >? cf_to c then Ok f
  else
    let view := report_ladder (cf_owner c) e in
    if seq <? cf_from c then Ok (mkFrames (fr_frames f) (fr_previous f) (bt_insert sym view (fr_prefix f)) (fr_bytes f))
    else if same_view (fr_previous f !! sym) view then Ok f
    else
      let frame := json_object [("seq", json_number seq); ("symbol", JString sym); ("ladder", view)] in
      let bytes := fr_bytes f + Z.of_nat (String.length (json_encode frame)) in
      if bytes >? MAX_DATA / 2 then Err "book frames exceed 48 MiB; narrow --from/--to"
      else Ok (mkFrames (fr_frames f ++ [frame])%list (<[sym := view]> (fr_previous f)) (fr_prefix f) bytes).

(** *** The page *)

(** [str::replace]; [skip] counts down the characters of a match. *)
Fixpoint replace_from (skip : nat) (pat rep s : string) : string :=
  match s with
  | EmptyString => ""
  | String c s' =>
    match skip with
    | S k => replace_from k pat rep s'
    | O => if String.prefix pat s then rep ++ replace_from (String.length pat - 1) pat rep s' else String c (replace_from 0 pat rep s')
    end
  end.

Definition replace (pat rep s : string) : string := replace_from 0 pat rep s.

Definition cr : string := String (ascii_of_N 13) "".
Definition backslash : string := String (ascii_of_N 92) "".
Definition line_separator : string := string_of [226; 128; 168].
Definition paragraph_separator : string := string_of [226; 128; 169].

Definition unix_lines (s : string) : string := replace cr nl (replace (cr ++ nl) nl s).

Definition page_css : string := unix_lines style_css.
Definition page_js : string := unix_lines view_js.

(** The data as it is embedded. *)
Definition script_json (data : Json) : string :=
  replace paragraph_separator (backslash ++ "u2029") (replace line_separator (backslash ++ "u2028")
    (replace ">" (backslash ++ "u003e") (replace "<" (backslash ++ "u003c") (replace "&" (backslash ++ "u0026") (json_encode data))))).

(** [base64]. *)
Definition base64_alphabet : string := "ABCDEFGHIJKLMNOPQRSTUVWXYZabcdefghijklmnopqrstuvwxyz0123456789+/".

Definition base64_char (v : Z) : ascii := default "A"%char (String.get (Z.to_nat v) base64_alphabet).

(** The four characters of a chunk of [n] bytes. *)
Definition base64_chunk (n : nat) (a b c : Z) : string :=
  let word := Z.lor (Z.lor (Z.shiftl a 16) (Z.shiftl b 8)) c in
  let char_at := fun i : Z => if (Z.of_nat n <? i) then "="%char else base64_char (Z.land (Z.shiftr word (18 - i * 6)) 63) in
  String (char_at 0) (String (char_at 1) (String (char_at 2) (String (char_at 3) ""))).

Fixpoint base64 (bytes : list Z) : string :=
  match bytes with
  | [] => ""
  | [a] => base64_chunk 1 a 0 0
  | [a; b] => base64_chunk 2 a b 0
  | a :: b :: c :: bytes => base64_chunk 3 a b c ++ base64 bytes
  end.

Section report.
Context `{!Sha256, !Build}.
Context `{!Wire Report, !Wire TradeCapture, !Wire SessionStatus, !Wire AuctionInfo}.
Context `{!Wire NewOrderSingle, !Wire OrderCancelRequest, !Wire OrderCancelReplaceRequest, !Wire OrderMassCancelRequest, !Wire SessionControl}.
Context `{!Wire LogRecord}.

(** [hash]. *)
Definition page_hash (text : string) : string := base64 (sha256_digest (bytes_of text)).

(** [html]. *)
Definition html (data : Json) : string :=
  replace "__DATA__" (script_json data)
    (replace "__SCRIPT__" page_js (replace "__CSS__" page_css
      (replace "__SCRIPT_HASH__" (page_hash page_js) (replace "__STYLE_HASH__" (page_hash page_css) shell_html)))).

(** [bounded_html]. *)
Definition bounded_html (data : Json) (limit : Z) : result string string :=
  let page := html data in
  if Z.of_nat (String.length page) >? limit then Err "HTML report exceeds size limit; narrow the --from/--to window" else Ok page.

(** The document of a life, unless none of its rows is in the window. *)
Definition life_json (from to : Z) (owner : option string) (all : list Json) : outcome (option Json) :=
  let retained := (fun r => redact r owner) <$> List.filter (in_window from to) all in
  if is_nil retained then Done None
  else
    let* first := expect (head all) in
    let told := List.filter (fun r => trace_number "global_seq" r <=? to) all in
    let* _u := all_data told in
    let s := foldl status_step (mkStatus "pending" false "" "") told in
    let* text := explanation retained (trace_text "order_id" first) in
    Done (Some (json_object
      [("order_id", JString (trace_text "order_id" first)); ("owner", JString (trace_text "owner" first)); ("symbol", JString (trace_text "symbol" first));
       ("status", JString (su_status s)); ("reject_reason", JString (su_reject s)); ("cancel_cause", JString (su_cancel s));
       ("aliases", JArray (JString <$> sorted_set (trace_text "order_id" <$> told)));
       ("client_order_ids", JArray (JString <$> sorted_set (List.filter (fun s => negb (String.eqb s "")) (trace_text "client_order_id" <$> told))));
       ("explanation", JString text); ("positions", JArray (position_json <$> retained))])).

(** [orders]. *)
Definition report_orders (rows : list Json) (from to : Z) (owner : option string) : outcome (list Json) :=
  let* _u := all_data rows in
  let* docs := mapO (life_json from to owner) (lives rows) in
  Done (omap id docs).

(** [replay_observed]: the loop of the replay with an observer after each record. *)
Fixpoint observe_records {A : Type} (obs : Z -> string -> Engine unit Z -> A -> result A string) (fuel : nat) (complete : bool) (file : list Z)
    (j : Journal unit) (st : A) : outcome (result (Journal unit * A) string) :=
  match fuel with
  | O => OutOfFuel
  | S fuel =>
    if is_nil file then Done (Ok (j, st))
    else
      match read_frame file with
      | None => Done (if complete then Err "corrupt completed event log"%string else Ok (j, st))
      | Some (r, rest) =>
        if negb (lr_seq r =? next_seq (j_log j)) then Done (Err "event log sequence gap"%string)
        else
          let* x := execute_record r j in
          match x with
          | Err e => Done (Err e)
          | Ok (_, j) =>
            let* e := expect (j_engines j !! lr_symbol r) in
            match obs (lr_seq r) (lr_symbol r) e st with
            | Err e => Done (Err e)
            | Ok st =>
              if u64_max <=? next_seq (j_log j) then Done (Err "event sequence exhausted"%string)
              else observe_records obs fuel complete rest (set_log (mkEventLog (log_file (j_log j)) (next_seq (j_log j) + 1) false) j) st
            end
          end
      end
  end.

Definition journal_observe {A : Type} (obs : Z -> string -> Engine unit Z -> A -> result A string) (schedule : option SessionSchedule) (stp : StpMode)
    (config : SymbolConfig) (complete : bool) (file : list Z) (st : A) : outcome (result (Journal unit * A) string) :=
  match read_exact_or_tail 8 file with
  | None => Done (Err "failed to fill whole buffer"%string)
  | Some (magic, rest) =>
    if bool_decide (magic <> MAGIC) then Done (Err "invalid event log magic/version"%string)
    else
      match read_frame rest with
      | None => Done (Err "missing event-log header"%string)
      | Some (header, rest) =>
        if bool_decide (header <> config_record schedule stp config)
        then Done (Err "event log configuration/replay version mismatch"%string)
        else observe_records obs (S (length rest)) complete rest (journal_new (mkEventLog file 1 false) None None schedule stp tt config) st
      end
  end.

Definition bundle_files : list string := ["manifest.json"; "commands.log"; "events.jsonl"; "expected.json"; "symbols.csv"].

Definition bundle_bytes (dir : Files) : Z := sumZ (fun name => match dir name with Some b => Z.of_nat (length b) | None => 0 end) bundle_files.

(** [Inspection::source_rows] and [source]. *)
Definition source_rows (run : Inspection) : list Json := default (in_rows run) (in_expected_rows run).
Definition source (run : Inspection) : string := match in_expected_rows run with Some _ => "recorded" | None => "replayed" end.

Definition last_seq (rows : list Json) : Z := match last rows with Some r => trace_number "global_seq" r | None => 0 end.

Definition manifest_keys : list string :=
  ["bundle_format"; "canonical_version"; "state_version"; "fxp_version"; "git_sha"; "proto_schema_sha256"; "replay_version"; "symbol_config_file";
   "symbol_config_sha256"; "session_schedule"; "stp_default"; "meta"; "start_time"; "end_time"; "complete"; "commands_sha256"; "trace_version"; "trace_sha256"].

Definition public_manifest (anonymize : bool) (manifest : Json) : Json :=
  match manifest with
  | JObject m =>
    if anonymize
    then JObject (bt_insert "meta" (JString "omitted in anonymized report") (List.filter (fun e => bool_decide (e.1 ∈ manifest_keys)) m))
    else manifest
  | _ => manifest
  end.

Definition legacy_detail : string := "legacy bundle has aggregate expectations only; first event unavailable".

Definition verification_json (run : Inspection) : Json :=
  let status := if negb (in_complete run) then "incomplete" else if in_diverged run then "divergent" else "identical" in
  let first :=
    if in_diverged run then
      match in_expected_rows run with Some r => divergence r (in_rows run) | None => json_object [("detail", JString legacy_detail)] end
    else JNull in
  json_object [("result", JString status); ("source", JString (if in_diverged run then "replayed" else source run)); ("first_divergence", first);
    ("expected", default JNull (in_expected run)); ("actual", summary_json (in_summary run))].

(** The document before names are masked. *)
Definition report_document (c : Config) (manifest : Json) (run : Inspection) (rows retained orders initial : list Json) (total : Json) : Json :=
  json_object
    [("schema", JString SCHEMA); ("manifest", public_manifest (cf_anonymize c) manifest); ("verification", verification_json run);
     ("privacy", json_object [("anonymized_owners", JBool (cf_anonymize c));
                              ("selected_owner", match cf_owner c with Some o => JString o | None => JNull end)]);
     ("window", json_object [("from", json_number (cf_from c)); ("to", json_number (Z.min (cf_to c) (last_seq rows)));
        ("max_rows", json_number MAX_ROWS); ("max_data_bytes", json_number MAX_DATA);
        ("boundary", JString "post-command journal sequence; tape/lifecycles windowed, summary whole run")]);
     ("summary", total); ("orders", JArray orders); ("symbols", JArray (JString <$> sorted_set (trace_text "symbol" <$> rows)));
     ("events", JArray retained); ("books", JArray initial); ("tape", JArray (List.filter (is_kind "trade") retained))].

(** The rows whose names are masked. *)
Definition masked_rows (run : Inspection) (rows : list Json) : list Json :=
  if in_diverged run then (in_rows run ++ default [] (in_expected_rows run))%list else rows.

Definition finish_document (c : Config) (run : Inspection) (rows : list Json) (data : Json) : outcome (result (Json * Z) string) :=
  let data := trim data in
  let* data := if cf_anonymize c then mask_json (privacy_new (masked_rows run rows) (cf_owner c)) "" data else Done data in
  let data := exact data in
  Done (if Z.of_nat (String.length (json_encode data)) >? MAX_DATA then Err "report JSON exceeds 96 MiB; narrow --from/--to"
        else Ok (data, if negb (in_complete run) then 2 else bit (in_diverged run))).

(** The manifest and the settings are read a second time. *)
Definition reread (dir : Files) (manifest : Json) : result (option SessionSchedule * StpMode * SymbolConfig) string :=
  try* s := json_get "session_schedule" manifest in
  try* schedule := match s with JNull => Ok None | j => try* t := json_text j in try* s := or_invalid "invalid session schedule" (parse_schedule t) in Ok (Some s) end in
  try* symbols := read_bundle_file "symbols.csv" dir in
  try* config := or_invalid "invalid symbol configuration" (parse_config symbols) in
  try* m := json_get "stp_default" manifest in
  try* t := json_text m in
  try* stp := or_invalid "invalid self-trade prevention mode" (stp_mode_parse t) in
  Ok (schedule, stp, config).

(** The book frames of the window, and the document. *)
Definition build_report (c : Config) (dir : Files) (run : Inspection) (manifest : Json) (rows retained : list Json) : outcome (result (Json * Z) string) :=
  match reread dir manifest with
  | Err e => Done (Err e)
  | Ok (schedule, stp, config) =>
    match dir "commands.log" with
    | None => Done (missing "commands.log")
    | Some log =>
      let* observed := journal_observe (observe_frame c) schedule stp config (in_complete run) log (mkFrames [] ∅ [] 0) in
      match observed with
      | Err e => Done (Err e)
      | Ok (j, f) =>
        if negb (json_eqb (summary_json (journal_summary j)) (summary_json (in_summary run)))
        then Done (Err "bundle changed between verification and book replay")
        else
          let first := Z.max 0 (cf_from c - 1) in
          let initial := ((fun e : string * Json => json_object [("seq", json_number first); ("symbol", JString e.1); ("ladder", e.2)]) <$> fr_prefix f) in
          let* total := report_summary rows in
          let* orders := report_orders rows (cf_from c) (cf_to c) (cf_owner c) in
          finish_document c run rows (report_document c manifest run rows retained orders (initial ++ fr_frames f)%list total)
      end
    end
  end.

(** [generate]. *)
Definition generate (c : Config) (bundle : option Files) : outcome (result (Json * Z) string) :=
  let dir := default (fun _ => None) bundle in
  if bundle_bytes dir >? MAX_INPUT then Done (Err "report input exceeds 256 MiB limit")
  else
    let* run := inspect_bundle bundle in
    match run with
    | Err e => Done (Err e)
    | Ok run =>
      let* manifest := parse_text (read_bundle_file "manifest.json" dir) in
      match manifest with
      | Err e => Done (Err e)
      | Ok manifest =>
        let rows := if in_diverged run then in_rows run else source_rows run in
        if cf_from c >? last_seq rows then Done (Err "--from exceeds the last journal sequence")
        else
          let retained := (fun r => redact r (cf_owner c)) <$> List.filter (in_window (cf_from c) (cf_to c)) rows in
          if Z.of_nat (length retained) >? MAX_ROWS then Done (Err "report exceeds 100000 timeline rows; narrow --from/--to")
          else build_report c dir run manifest rows retained
      end
    end.
End report.
