(* ===== verification/ReportNames.v ===== *)
(** * Pseudonyms in reports: [Privacy] of replay_cli/report/mod.rs

    The automaton of [Privacy::new] holds every name with its pseudonym and
    nothing else; [prose] cuts a text into the longest names, which it replaces,
    and the characters between them; [apply] leaves no name in a field of names. *)

From S2P Require Import Prelude BTree Text Bytes Json JsonSpec JsonText Trace TraceRows ReplayCli Report.

Local Open Scope string_scope.
Local Open Scope Z_scope.

(** ** Definitions *)

Definition edge (masks : list MaskNode) (n : nat) (b : Z) : option nat := mn_next (default mask_default (masks !! n)) !! b.
Definition value (masks : list MaskNode) (n : nat) : option string := mn_value (default mask_default (masks !! n)).

(** The node a text leads to. *)
Fixpoint walk (masks : list MaskNode) (node : nat) (s : list Z) : option nat :=
  match s with [] => Some node | b :: s => next ← edge masks node b; walk masks next s end.

(** The pseudonym of a text. *)
Definition found (masks : list MaskNode) (node : nat) (s : list Z) : option string := n ← walk masks node s; value masks n.

(** The automaton is a tree. *)
Record trie_ok (masks : list MaskNode) : Prop := {
  tr_root : (0 < length masks)%nat;
  tr_target n b m : edge masks n b = Some m -> (0 < m < length masks)%nat;
  tr_parent n b n' b' m : edge masks n b = Some m -> edge masks n' b' = Some m -> n = n' /\ b = b';
}.

(** One that has grown. *)
Record extends (masks masks' : list MaskNode) : Prop := {
  ex_ok : trie_ok masks';
  ex_length : (length masks <= length masks')%nat;
  ex_edge n b m : edge masks n b = Some m -> edge masks' n b = Some m;
  ex_old n b m : edge masks' n b = Some m -> (m < length masks)%nat -> edge masks n b = Some m;
  ex_value n : value masks' n = value masks n;
}.

(** The pseudonym that the names give to a text: the last one. *)
Definition label_in (names : list (string * string)) (s : list Z) : option string :=
  foldl (fun acc e => if bool_decide (bytes_of e.1 = s) then Some e.2 else acc) None names.

(** A text and what is shown of it: at every place the longest name, or a character where no name starts. *)
Inductive masked_text (names : list (string * string)) : list Z -> list Z -> Prop :=
| masked_nil : masked_text names [] []
| masked_name n label rest out :
    n <> [] -> label_in names n = Some label ->
    (forall k, (length n < k <= length (n ++ rest))%nat -> label_in names (take k (n ++ rest)) = None) ->
    masked_text names rest out -> masked_text names (n ++ rest)%list (bytes_of label ++ out)%list
| masked_char b rest out :
    (forall k, (0 < k <= length (b :: rest))%nat -> label_in names (take k (b :: rest)) = None) ->
    masked_text names (drop (char_len b) (b :: rest)) out -> masked_text names (b :: rest) (take (char_len b) (b :: rest) ++ out)%list.

Definition owner_fields : list string := ["owner"; "selected_owner"].
Definition removed_fields : list string := ["account"; "stp_group"].

(** A text that is a pseudonym, or no name. *)
Definition not_name (s : string) (names : list (string * string)) : Prop := bt_get s names = None \/ exists n, bt_get n names = Some s.

Definition text_hidden (p : Privacy) (field s : string) : Prop :=
  (field ∈ owner_fields -> not_name s (pv_owners p)) /\ (field ∈ identity_keys -> not_name s (pv_identities p)).

(** The names a report hides: of an owner other than the selected one, and of an
    order or client, in a row of the trace or in its data. *)
Definition secret_owner (rows : list Json) (selected : option string) (s : string) : Prop :=
  s <> "" /\ Some s <> selected /\ exists row, row ∈ rows /\ trace_text "owner" row = s.
Definition secret_identity (rows : list Json) (s : string) : Prop :=
  s <> "" /\ exists row k, row ∈ rows /\ k ∈ identity_keys /\
    (trace_text k row = s \/ exists d, json_get "data" row = Ok d /\ trace_text k d = s).

(** The pseudonyms: a number after owner- or id-, where a pseudonym of an owner
    that would be the selected owner has a dash more. *)
Definition owner_pseudonym (s : string) : Prop := exists i, s = "owner-" ++ print_width 4 i \/ s = "owner-" ++ print_width 4 i ++ "-".
Definition identity_pseudonym (s : string) : Prop := exists i, s = "id-" ++ print_width 6 i.

(** A text of a field that tells no hidden name, unless that looks like a pseudonym. *)
Definition tells_nothing (rows : list Json) (selected : option string) (field s : string) : Prop :=
  (field ∈ owner_fields -> secret_owner rows selected s -> owner_pseudonym s) /\
  (field ∈ identity_keys -> secret_identity rows s -> identity_pseudonym s).

(** A document in which the texts of the fields are as [P] says, without accounts. *)
Inductive hides (P : string -> string -> Prop) : string -> Json -> Prop :=
| hides_null f : hides P f JNull
| hides_bool f b : hides P f (JBool b)
| hides_number f n : hides P f (JNumber n)
| hides_string f s : P f s -> hides P f (JString s)
| hides_array f l : Forall (hides P f) l -> hides P f (JArray l)
| hides_object f m : Forall (fun e => (e.1 ∉ removed_fields) /\ hides P e.1 e.2) m -> hides P f (JObject m).

(** The numbers of the maps of counts are counts. *)
Definition count_value (v : Json) : Prop := forall n, v = JNumber n -> is_Some (parse_u64 n).

Inductive counts_ok : string -> Json -> Prop :=
| counts_null f : counts_ok f JNull
| counts_bool f b : counts_ok f (JBool b)
| counts_number f n : counts_ok f (JNumber n)
| counts_string f s : counts_ok f (JString s)
| counts_array f l : Forall (counts_ok f) l -> counts_ok f (JArray l)
| counts_object f m : (f ∈ count_fields -> Forall (fun e => count_value e.2) m) -> Forall (fun e => counts_ok e.1 e.2) m -> counts_ok f (JObject m).

(** A document without the keys [hidden], and one whose numbers are text as well. *)
Inductive clean (hidden : list string) : Json -> Prop :=
| clean_null : clean hidden JNull
| clean_bool b : clean hidden (JBool b)
| clean_number n : clean hidden (JNumber n)
| clean_string s : clean hidden (JString s)
| clean_array l : Forall (clean hidden) l -> clean hidden (JArray l)
| clean_object m : Forall (fun e => (e.1 ∉ hidden) /\ clean hidden e.2) m -> clean hidden (JObject m).

Inductive textual (hidden : list string) : Json -> Prop :=
| textual_null : textual hidden JNull
| textual_bool b : textual hidden (JBool b)
| textual_string s : textual hidden (JString s)
| textual_array l : Forall (textual hidden) l -> textual hidden (JArray l)
| textual_object m : Forall (fun e => (e.1 ∉ hidden) /\ textual hidden e.2) m -> textual hidden (JObject m).

Create HintDb masks.
#[export] Hint Constructors hides counts_ok : masks.

(** ** The automaton *)

Lemma edge_bound masks n b m : edge masks n b = Some m -> (n < length masks)%nat.
Proof.
  unfold edge. destruct (masks !! n) as [x|] eqn:E; [intros _; by apply lookup_lt_Some in E|]. simpl. by rewrite lookup_empty.
Qed.

Lemma value_bound masks n v : value masks n = Some v -> (n < length masks)%nat.
Proof. unfold value. destruct (masks !! n) as [x|] eqn:E; [intros _; by apply lookup_lt_Some in E|done]. Qed.

Lemma walk_app masks a : forall n b, walk masks n (a ++ b) = (m ← walk masks n a; walk masks m b).
Proof.
  induction a as [|x a IH]; intros n b; [done|]. cbn [app walk]. destruct (edge masks n x) as [m|]; [|done]. apply IH.
Qed.

Lemma walk_inj masks : trie_ok masks -> forall a b n, walk masks 0 a = Some n -> walk masks 0 b = Some n -> a = b.
Proof.
  intros [_ Ht Hp] a. induction a as [|x a IH] using rev_ind; intros b n; destruct b as [|y b _] using rev_ind; rewrite ?walk_app; try done.
  - intros [= <-] (m & _ & Hy)%bind_Some. simpl in Hy. apply bind_Some in Hy as (? & Hy & [= ->]). apply Ht in Hy. lia.
  - intros (m & _ & Hx)%bind_Some [= <-]. simpl in Hx. apply bind_Some in Hx as (? & Hx & [= ->]). apply Ht in Hx. lia.
  - intros (m & Ha & Hx)%bind_Some (m' & Hb & Hy)%bind_Some. simpl in Hx, Hy.
    apply bind_Some in Hx as (? & Hx & [= ->]). apply bind_Some in Hy as (? & Hy & [= ->]).
    destruct (Hp _ _ _ _ _ Hx Hy) as [-> ->]. by rewrite (IH b m').
Qed.

Lemma walk_extends masks masks' : extends masks masks' -> forall s n m, walk masks n s = Some m -> walk masks' n s = Some m.
Proof.
  intros He s. induction s as [|b s IH]; intros n m; [done|]. cbn [walk]. intros (k & Hk & Hm)%bind_Some.
  rewrite (ex_edge _ _ He _ _ _ Hk). simpl. by apply IH.
Qed.

Lemma walk_old masks masks' : extends masks masks' -> forall s m, walk masks' 0 s = Some m -> (m < length masks)%nat -> walk masks 0 s = Some m.
Proof.
  intros He s. induction s as [|b s IH] using rev_ind; intros m; [done|]. rewrite !walk_app. intros (k & Hk & Hb)%bind_Some Hm.
  simpl in Hb. apply bind_Some in Hb as (? & Hb & [= ->]). pose proof (ex_old _ _ He _ _ _ Hb Hm) as Hb'.
  rewrite (IH _ Hk (edge_bound _ _ _ _ Hb')). simpl. by rewrite Hb'.
Qed.

Lemma extends_refl masks : trie_ok masks -> extends masks masks.
Proof. intros H. by split. Qed.

Lemma extends_trans m1 m2 m3 : extends m1 m2 -> extends m2 m3 -> extends m1 m3.
Proof.
  intros [_ L1 E1 O1 V1] [K L2 E2 O2 V2]. split; [done|lia|eauto| |intros; by rewrite V2].
  intros n b m He Hm. apply O1; [|done]. apply O2; [done|lia].
Qed.

(** A new child. *)
Definition grown (masks : list MaskNode) (at_ : nat) (byte : Z) : list MaskNode :=
  alter (fun n => mkMaskNode (<[byte := length masks]> (mn_next n)) (mn_value n)) at_ (masks ++ [mask_default])%list.

Lemma lookup_new masks n : default mask_default ((masks ++ [mask_default])%list !! n) = default mask_default (masks !! n).
Proof.
  destruct (decide (n < length masks)%nat) as [H|H]; [by rewrite lookup_app_l|]. rewrite lookup_app_r, (lookup_ge_None_2 masks) by lia.
  by destruct (n - length masks)%nat.
Qed.

Lemma grown_edge masks at_ byte n b : (at_ < length masks)%nat ->
  edge (grown masks at_ byte) n b = if bool_decide (n = at_ /\ b = byte) then Some (length masks) else edge masks n b.
Proof.
  intros Hat. unfold edge, grown. destruct (decide (n = at_)) as [->|Hn].
  - rewrite list_lookup_alter_eq. destruct (lookup_lt_is_Some_2 masks at_ Hat) as [x Hx]. rewrite lookup_app_l, Hx by done. cbn.
    destruct (decide (b = byte)) as [->|Hb]; [by rewrite lookup_insert_eq, bool_decide_eq_true_2|].
    rewrite lookup_insert_ne, bool_decide_eq_false_2; naive_solver.
  - rewrite list_lookup_alter_ne, lookup_new by done. rewrite bool_decide_eq_false_2; naive_solver.
Qed.

Lemma grown_value masks at_ byte n : value (grown masks at_ byte) n = value masks n.
Proof.
  unfold value, grown. destruct (decide (n = at_)) as [->|Hn].
  - rewrite list_lookup_alter_eq. rewrite <- lookup_new. by destruct ((masks ++ [mask_default])%list !! at_).
  - by rewrite list_lookup_alter_ne, lookup_new.
Qed.

Lemma grown_extends masks at_ byte : trie_ok masks -> (at_ < length masks)%nat -> edge masks at_ byte = None -> extends masks (grown masks at_ byte).
Proof.
  intros [Hr Ht Hp] Hat Hnone.
  assert (length (grown masks at_ byte) = S (length masks)) as Hl by (unfold grown; rewrite length_alter, length_app; simpl; lia).
  split; [split| | | |intros; apply grown_value]; try lia; intros *; rewrite ?grown_edge by done.
  - case_bool_decide; [intros [= <-]; lia|]. intros Hx%Ht. lia.
  - do 2 (case_bool_decide); [naive_solver| | |by apply Hp].
    + intros [= <-] H'%Ht. lia.
    + intros H'%Ht [= <-]. lia.
  - case_bool_decide as Hb; [destruct Hb as [-> ->]; congruence|done].
  - case_bool_decide; [intros [= <-]; lia|done].
Qed.

Lemma mask_path_spec name : forall at_ masks, trie_ok masks -> (at_ < length masks)%nat ->
  let '(last, masks') := mask_path name at_ masks in
  extends masks masks' /\ walk masks' at_ name = Some last /\ (last < length masks')%nat.
Proof.
  induction name as [|b name IH]; intros at_ masks Hok Hat; cbn [mask_path]; [split_and!; [by apply extends_refl|done|done]|].
  change (mn_next (default mask_default (masks !! at_)) !! b) with (edge masks at_ b). destruct (edge masks at_ b) as [next|] eqn:E.
  - specialize (IH next masks Hok). destruct (mask_path name next masks) as [last masks']. destruct IH as (He & Hw & Hl); [apply (tr_target _ Hok) in E; lia|].
    split_and!; [done| |done]. cbn [walk]. by rewrite (ex_edge _ _ He _ _ _ E).
  - pose proof (grown_extends masks at_ b Hok Hat E) as Hg. fold (grown masks at_ b).
    assert (length masks < length (grown masks at_ b))%nat as Hlt by (unfold grown; rewrite length_alter, length_app; simpl; lia).
    specialize (IH (length masks) (grown masks at_ b) (ex_ok _ _ Hg) Hlt). destruct (mask_path name _ _) as [last masks'].
    destruct IH as (He & Hw & Hl). split_and!; [by eapply extends_trans| |done]. cbn [walk].
    rewrite (ex_edge _ _ He at_ b (length masks)); [done|]. by rewrite grown_edge, bool_decide_eq_true_2.
Qed.

Lemma add_mask_spec masks e : trie_ok masks ->
  trie_ok (add_mask masks e) /\
  forall s, found (add_mask masks e) 0 s = if bool_decide (bytes_of e.1 = s) then Some e.2 else found masks 0 s.
Proof.
  intros Hok. unfold add_mask. pose proof (mask_path_spec (bytes_of e.1) 0 masks Hok (tr_root _ Hok)) as H.
  destruct (mask_path (bytes_of e.1) 0 masks) as [last masks']. destruct H as (He & Hw & Hl).
  set (g := fun n => mkMaskNode (mn_next n) (Some e.2)).
  assert (forall n b, edge (alter g last masks') n b = edge masks' n b) as Hedge.
  { intros n b. unfold edge. destruct (decide (n = last)) as [->|Hn]; [|by rewrite list_lookup_alter_ne].
    rewrite list_lookup_alter_eq. by destruct (masks' !! last). }
  assert (forall s n, walk (alter g last masks') n s = walk masks' n s) as Hwalk.
  { intros s. induction s as [|b s IH]; intros n; [done|]. cbn [walk]. rewrite Hedge. destruct (edge masks' n b); [apply IH|done]. }
  assert (forall n, value (alter g last masks') n = if bool_decide (n = last) then Some e.2 else value masks n) as Hval.
  { intros n. rewrite <- (ex_value _ _ He). unfold value. case_bool_decide as Hn; [subst n|by rewrite list_lookup_alter_ne].
    rewrite list_lookup_alter_eq. by destruct (lookup_lt_is_Some_2 _ _ Hl) as [x ->]. }
  split.
  - destruct (ex_ok _ _ He) as [H1 H2 H3]. split; [by rewrite length_alter| |]; intros *; rewrite !Hedge, ?length_alter; [apply H2|apply H3].
  - intros s. unfold found. rewrite Hwalk. case_bool_decide as Hs; [subst s; rewrite Hw; cbn; by rewrite Hval, bool_decide_eq_true_2|].
    destruct (walk masks' 0 s) as [n|] eqn:En; cbn; [rewrite Hval, bool_decide_eq_false_2|].
    + destruct (value masks n) as [v|] eqn:Ev.
      * rewrite (walk_old _ _ He s n En (value_bound _ _ _ Ev)). by cbn.
      * destruct (walk masks 0 s) as [n'|] eqn:En'; [|done]. rewrite (walk_extends _ _ He s 0 n' En') in En. injection En as ->. by cbn.
    + intros ->. apply Hs. by apply (walk_inj _ (ex_ok _ _ He) _ _ last).
    + destruct (walk masks 0 s) as [n'|] eqn:En'; [|done]. by rewrite (walk_extends _ _ He s 0 n' En') in En.
Qed.

Lemma add_masks_spec names : forall masks acc, trie_ok masks -> (forall s, found masks 0 s = acc s) ->
  forall s, found (foldl add_mask masks names) 0 s = foldl (fun acc e => if bool_decide (bytes_of e.1 = s) then Some e.2 else acc) (acc s) names.
Proof.
  induction names as [|e names IH]; intros masks acc Hok Hacc s; cbn [foldl]; [done|].
  destruct (add_mask_spec masks e Hok) as [Hok' Hf]. rewrite (IH _ (found (add_mask masks e) 0) Hok' (fun _ => eq_refl) s). by rewrite Hf, Hacc.
Qed.

Lemma root_edge n b : edge [mask_default] n b = None.
Proof. unfold edge. destruct n as [|n]; apply lookup_empty. Qed.

Lemma root_ok : trie_ok [mask_default].
Proof. split; [simpl; lia| |]; intros *; by rewrite root_edge. Qed.

Lemma found_names names s : found (foldl add_mask [mask_default] names) 0 s = label_in names s.
Proof.
  apply (add_masks_spec names _ (fun _ => None) root_ok). intros [|b t]; [done|]. unfold found. cbn [walk]. by rewrite root_edge.
Qed.

(** ** Prose *)

Lemma longest_mask_spec masks s : forall node offset acc,
  (longest_mask masks node offset s acc = acc /\ forall k, (0 < k <= length s)%nat -> found masks node (take k s) = None) \/
  exists k v, (0 < k <= length s)%nat /\ longest_mask masks node offset s acc = Some ((offset + k)%nat, v) /\ found masks node (take k s) = Some v /\
    forall k', (k < k' <= length s)%nat -> found masks node (take k' s) = None.
Proof.
  induction s as [|b s IH]; intros node offset acc; cbn [longest_mask length]; [left; split; [done|lia]|].
  change (mn_next (default mask_default (masks !! node)) !! b) with (edge masks node b).
  destruct (edge masks node b) as [next|] eqn:E.
  - assert (forall k, found masks node (take (S k) (b :: s)) = found masks next (take k s)) as Hk by (intros k; unfold found; cbn [take walk]; by rewrite E).
    change (mn_value (default mask_default (masks !! next))) with (found masks next []).
    destruct (IH next (S offset) (match found masks next [] with Some v => Some (S offset, v) | None => acc end)) as [[-> Hn]|(k & v & Hr & -> & Hf & Hn)].
    + destruct (found masks next []) as [v|] eqn:Ev.
      * right. exists 1%nat, v. split; [lia|]. split; [f_equal; f_equal; lia|]. split; [by rewrite Hk|].
        intros [|k'] Hk'; [lia|]. rewrite Hk. apply Hn. lia.
      * left. split; [done|]. intros [|k'] Hk'; [lia|]. rewrite Hk. destruct k' as [|k']; [done|]. apply Hn. lia.
    + right. exists (S k), v. split; [lia|]. split; [f_equal; f_equal; lia|]. split; [by rewrite Hk|].
      intros [|k'] Hk'; [lia|]. rewrite Hk. apply Hn. lia.
  - left. split; [done|]. intros [|k] H; [lia|]. unfold found. cbn [take walk]. by rewrite E.
Qed.

Lemma char_len_pos b : (0 < char_len b)%nat.
Proof. unfold char_len. repeat case_match; lia. Qed.

Lemma prose_loop_spec masks names : (forall s, found masks 0 s = label_in names s) -> forall fuel s, (length s <= fuel)%nat ->
  exists out, prose_loop fuel masks s = Done out /\ masked_text names s out.
Proof.
  intros Hf fuel. induction fuel as [|fuel IH]; intros s Hs; (destruct s as [|b s]; [exists []; split; [done|constructor]|simpl in Hs; try lia]).
  cbn [prose_loop]. destruct (longest_mask_spec masks (b :: s) 0 0 None) as [[-> Hn]|(k & v & Hk & -> & Hv & Hn)].
  - pose proof (char_len_pos b) as Hc. destruct (IH (drop (char_len b) (b :: s))) as (out & -> & Hm); [rewrite length_drop; simpl; lia|].
    exists (take (char_len b) (b :: s) ++ out)%list. split; [done|]. apply masked_char; [|done]. intros k Hk. rewrite <- Hf. by apply Hn.
  - rewrite Nat.add_0_l. destruct (IH (drop k (b :: s))) as (out & -> & Hm); [rewrite length_drop; simpl; lia|].
    exists (bytes_of v ++ out)%list. split; [done|]. rewrite <- (take_drop k (b :: s)) at 1. rewrite Hf in Hv.
    apply masked_name; [|done| |done].
    + intros E. apply (f_equal length) in E. rewrite length_take in E. simpl in E. simpl in Hk. lia.
    + rewrite take_drop. intros k' Hk'. rewrite <- Hf. apply Hn. rewrite length_take in Hk'. lia.
Qed.

Lemma masked_bytes names s out : Forall is_byte s -> masked_text names s out -> Forall is_byte out.
Proof.
  intros Hs. induction 1 as [|n label rest out _ _ _ _ IH|b rest out _ _ IH]; [done|..].
  - apply Forall_app in Hs as [_ Hr]. apply Forall_app. split; [apply bytes_of_ok|by apply IH].
  - apply Forall_app. split; [by apply Forall_take|]. apply IH. by apply Forall_drop.
Qed.

Lemma prose_spec (rows : list Json) (selected : option string) (s : string) :
  let p := privacy_new rows selected in
  exists out, prose p s = Done out /\ masked_text (pv_owners p ++ pv_identities p) (bytes_of s) (bytes_of out).
Proof.
  intros p. destruct (prose_loop_spec (pv_masks p) (pv_owners p ++ pv_identities p) (found_names _) (String.length s) (bytes_of s)) as (out & Ho & Hm).
  { by rewrite length_bytes_of. }
  exists (string_of out). unfold prose. rewrite Ho. split; [done|]. rewrite bytes_of_string; [done|]. by apply (masked_bytes _ _ _ (bytes_of_ok s) Hm).
Qed.

(** C27: The replacement of names in free text always returns, and scans the text as specified: at each place the
    longest owner name or identity that starts there is replaced by its label, and a character is copied only where
    no name starts. *)
Theorem prose_exact (rows : list Json) (selected : option string) (s : string) :
  let p := privacy_new rows selected in
  exists out, prose p s = Done out /\ masked_text (pv_owners p ++ pv_identities p) (bytes_of s) (bytes_of out).
Proof. apply prose_spec. Qed.

(** ** Masked documents *)

(** The loops of [apply]. *)
Definition mask_list (p : Privacy) (field : string) : list Json -> outcome (list Json) :=
  fix go l := match l with [] => Done [] | v :: l => let* v := mask_json p field v in let* l := go l in Done (v :: l) end.

Definition mask_fields (p : Privacy) (field : string) : list (string * Json) -> list (string * Json) -> outcome (list (string * Json)) :=
  fix go old m :=
    match old with
    | [] => Done m
    | (k, v) :: old =>
      if String.eqb k "account" || String.eqb k "stp_group" then go old m
      else let* v := mask_json p k v in let* m := mask_entry p field k v m in go old m
    end.

Lemma mask_array p field l : mask_json p field (JArray l) = let* l := mask_list p field l in Done (JArray l).
Proof. reflexivity. Qed.

Lemma mask_object p field m : mask_json p field (JObject m) = let* m := mask_fields p field m [] in Done (JObject m).
Proof. reflexivity. Qed.

(** A key that changes gets a dash, which no field of names has. *)
Definition dashed (s : string) : Prop := 45 ∈ bytes_of s.

Lemma label_in_elem (names : list (string * string)) s : forall (acc : option string) l,
  foldl (fun acc e => if bool_decide (bytes_of e.1 = s) then Some e.2 else acc) acc names = Some l -> acc = Some l \/ exists n, (n, l) ∈ names.
Proof.
  induction names as [|[n l'] names IH]; intros acc l; cbn [foldl]; [by left|]. intros [H|[x Hx]]%IH; [|right; exists x; by right].
  case_bool_decide; [right; exists n; injection H as <-; by left|by left].
Qed.

Lemma masked_dash names s out : Forall (fun e => dashed e.2) names -> masked_text names s out -> out = s \/ 45 ∈ out.
Proof.
  intros Hn. induction 1 as [|n label rest out _ Hl _ _ _|b rest out _ _ IH]; [by left|..].
  - right. apply elem_of_app. left. apply label_in_elem in Hl as [?|[x Hx]]; [done|]. by rewrite Forall_forall in Hn; apply Hn in Hx.
  - destruct IH as [->|H]; [left; apply take_drop|right; apply elem_of_app; by right].
Qed.

Lemma dashed_app_l a b : dashed a -> dashed (a ++ b).
Proof. unfold dashed. rewrite bytes_of_app, elem_of_app. by left. Qed.

Lemma privacy_dashed rows selected : Forall (fun e => dashed e.2) (pv_owners (privacy_new rows selected) ++ pv_identities (privacy_new rows selected)).
Proof.
  assert (dashed "owner-") as Ho by (unfold dashed; apply (bool_decide_unpack _); vm_compute; reflexivity).
  assert (dashed "id-") as Hi by (unfold dashed; apply (bool_decide_unpack _); vm_compute; reflexivity).
  apply Forall_app. unfold privacy_new. cbn [pv_owners pv_identities]. split; apply Forall_fmap, Forall_true; intros [i n]; cbn.
  - case_bool_decide; by repeat apply dashed_app_l.
  - by apply dashed_app_l.
Qed.

Section masked.
Context (rows : list Json) (selected : option string).
Abbreviation p := (privacy_new rows selected).

Lemma prose_key k : exists k', prose p k = Done k' /\ (k' = k \/ dashed k').
Proof.
  destruct (prose_spec rows selected k) as (k' & Hk & Hm). exists k'. split; [done|].
  destruct (masked_dash _ _ _ (privacy_dashed rows selected) Hm) as [H|H]; [left; by apply bytes_of_inj|by right].
Qed.

(** A value under a key that no name is for. *)
Lemma hides_dashed k v k' : dashed k' -> hides (text_hidden p) k v -> hides (text_hidden p) k' v.
Proof.
  intros Hd. assert (k' ∉ owner_fields /\ k' ∉ identity_keys) as [H1 H2].
  { split; intros Hk; (enough (bool_decide (dashed k') = false) as E by (by rewrite bool_decide_eq_false in E)); unfold owner_fields, identity_keys in Hk;
      repeat (apply elem_of_cons in Hk as [->|Hk]; [by vm_compute|]); by apply elem_of_nil in Hk. }
  induction v as [|b|n|s|l IH|m _] using json_induction; intros Hv; inversion Hv; subst; constructor.
  - split; intros; done.
  - rewrite Forall_forall in *. eauto.
  - done.
Qed.

Lemma masked_lookup s names : not_name (default s (bt_get s names)) names.
Proof. destruct (bt_get s names) as [l|] eqn:E; [right; by exists s|by left]. Qed.

Lemma mask_text_hidden field s : exists s', mask_text p field s = Done s' /\ text_hidden p field s'.
Proof.
  unfold mask_text, text_hidden.
  assert (field ∈ owner_fields <-> String.eqb field "owner" || String.eqb field "selected_owner" = true) as Ho.
  { unfold owner_fields. rewrite orb_true_iff, !String.eqb_eq, !elem_of_cons, elem_of_nil. naive_solver. }
  destruct (_ || _) eqn:E.
  { eexists. split; [done|]. split; [intros _; apply masked_lookup|]. intros Hi. exfalso.
    apply orb_true_iff in E as [->%String.eqb_eq| ->%String.eqb_eq]; (apply (bool_decide_eq_true_2 _) in Hi; vm_compute in Hi; discriminate). }
  assert (field ∉ owner_fields) as Hno by (rewrite Ho; done).
  case_bool_decide as Hi; [eexists; split; [done|]; split; [done|]; intros _; apply masked_lookup|].
  case_match; [|eexists; by split].
  destruct (prose_spec rows selected s) as (out & -> & _). eexists. by split.
Qed.

(** Keys that are removed do not come back. *)
Lemma removed_stays k k' : k ∉ removed_fields -> k' = k \/ dashed k' -> k' ∉ removed_fields.
Proof.
  intros Hk [->|Hd]; [done|]. intros Hk'. enough (bool_decide (dashed k') = false) as E by (by rewrite bool_decide_eq_false in E).
  unfold removed_fields in Hk'. repeat (apply elem_of_cons in Hk' as [->|Hk']; [by vm_compute|]). by apply elem_of_nil in Hk'.
Qed.

Lemma not_removed k : String.eqb k "account" || String.eqb k "stp_group" = false -> k ∉ removed_fields.
Proof.
  unfold removed_fields. rewrite !elem_of_cons, elem_of_nil. intros [?%String.eqb_neq ?%String.eqb_neq]%orb_false_iff. naive_solver.
Qed.

(** An object under construction. *)
Definition partial_ok (field : string) (m : list (string * Json)) : Prop :=
  (field ∈ count_fields -> Forall (fun e => count_value e.2) m) /\ Forall (fun e => (e.1 ∉ removed_fields) /\ hides (text_hidden p) e.1 e.2) m.

Lemma mask_entry_ok field k v m : partial_ok field m -> k ∉ removed_fields -> hides (text_hidden p) k v -> (field ∈ count_fields -> count_value v) ->
  exists m', mask_entry p field k v m = Done m' /\ partial_ok field m'.
Proof.
  intros [Hc Hm] Hk Hv Hcv. unfold mask_entry.
  assert (forall k' v', k' ∉ removed_fields -> hides (text_hidden p) k' v' -> (field ∈ count_fields -> count_value v') -> partial_ok field (bt_insert k' v' m)) as Hins.
  { intros k' v' Hk' Hv' Hcv'. unfold partial_ok. rewrite !Forall_forall in *. split.
    - intros Hf e [->|He]%bt_insert_elem; [by apply Hcv'|]. by apply (Hc Hf).
    - intros e [->|He]%bt_insert_elem; [done|by apply Hm]. }
  case_bool_decide as Hf; [|eexists; split; [done|by apply Hins]].
  destruct (prose_key k) as (k' & -> & Hk'). cbn [obind].
  pose proof (removed_stays k k' Hk Hk') as Hr.
  assert (hides (text_hidden p) k' v) as Hv' by (destruct Hk' as [->|Hd]; [done|by apply (hides_dashed k)]).
  destruct (bt_get k' m) as [[| |a| | |]|] eqn:Eg; try (eexists; split; [done|by apply Hins]).
  destruct v as [| |b| | |]; try (eexists; split; [done|by apply Hins]).
  specialize (Hc Hf). apply bt_get_Some_elem in Eg. rewrite Forall_forall in Hc. destruct (Hc _ Eg a eq_refl) as [x ->]. destruct (Hcv Hf b eq_refl) as [y ->].
  cbn. eexists. split; [done|]. apply Hins; [done|constructor|]. intros _ n [= <-]. rewrite parse_u64_print; [by eexists|apply add64_count].
Qed.

Lemma mask_fields_ok field old : Forall (fun e => forall f, counts_ok f e.2 -> exists j, mask_json p f e.2 = Done j /\ hides (text_hidden p) f j /\ (count_value e.2 -> count_value j)) old ->
  Forall (fun e => counts_ok e.1 e.2) old -> (field ∈ count_fields -> Forall (fun e => count_value e.2) old) -> forall m, partial_ok field m ->
  exists m', mask_fields p field old m = Done m' /\ partial_ok field m'.
Proof.
  intros IH. induction IH as [|[k v] old Hv _ IH]; intros Hok Hc m Hm; [by exists m|]. inversion Hok as [|? ? Hkv Hok']; subst.
  cbn [mask_fields]. fold (mask_fields p field).
  assert (field ∈ count_fields -> Forall (fun e => count_value e.2) old) as Hc' by (intros Hf; specialize (Hc Hf); by inversion Hc).
  destruct (String.eqb k "account" || String.eqb k "stp_group") eqn:E; [by apply IH|]. destruct (Hv k Hkv) as (j & Hj & Hh & Hn). simpl in Hj. rewrite Hj. cbn [obind].
  destruct (mask_entry_ok field k j m Hm) as (m' & -> & Hm'); [|done| |by apply IH].
  - by apply not_removed.
  - intros Hf. apply Hn. specialize (Hc Hf). by inversion Hc.
Qed.

Lemma mask_list_ok field l : Forall (fun v => forall f, counts_ok f v -> exists j, mask_json p f v = Done j /\ hides (text_hidden p) f j /\ (count_value v -> count_value j)) l ->
  Forall (counts_ok field) l -> exists l', mask_list p field l = Done l' /\ Forall (hides (text_hidden p) field) l'.
Proof.
  intros IH. induction IH as [|v l Hv _ IH]; intros Hok; [by exists []|]. inversion Hok as [|? ? Hv' Hok']; subst. cbn [mask_list]. fold (mask_list p field).
  destruct (Hv field Hv') as (j & -> & Hj & _). destruct (IH Hok') as (l' & -> & Hl). cbn. eexists. split; [done|]. by constructor.
Qed.

Lemma mask_json_ok j : forall field, counts_ok field j -> exists j', mask_json p field j = Done j' /\ hides (text_hidden p) field j' /\ (count_value j -> count_value j').
Proof.
  induction j as [|b|n|s|l IH|m IH] using json_induction; intros field Hok; try (eexists; split_and!; [done|constructor|done]).
  - destruct (mask_text_hidden field s) as (s' & Hs & Hh). exists (JString s'). cbn [mask_json]. rewrite Hs. split_and!; [done|by constructor|done].
  - inversion Hok; subst. destruct (mask_list_ok field l IH) as (l' & Hl & Hh); [done|]. exists (JArray l'). rewrite mask_array, Hl. split_and!; [done|by constructor|done].
  - inversion Hok; subst. destruct (mask_fields_ok field m IH) with (m := @nil (string * Json)) as (m' & Hm & _ & Hh); [done|done|by split|].
    exists (JObject m'). rewrite mask_object, Hm. split_and!; [done|by constructor|done].
Qed.

Lemma mask_entry_clean field k v m m' : Forall (fun e : string * Json => (e.1 ∉ removed_fields) /\ clean removed_fields e.2) m ->
  k ∉ removed_fields -> clean removed_fields v -> mask_entry p field k v m = Done m' ->
  Forall (fun e => (e.1 ∉ removed_fields) /\ clean removed_fields e.2) m'.
Proof.
  intros Hm Hk Hv. assert (forall k' v', k' ∉ removed_fields -> clean removed_fields v' ->
    Forall (fun e => (e.1 ∉ removed_fields) /\ clean removed_fields e.2) (bt_insert k' v' m)) as Hins.
  { intros k' v' Hk' Hv'. rewrite Forall_forall in *. intros e [->|He]%bt_insert_elem; [done|by apply Hm]. }
  unfold mask_entry. case_bool_decide; [|intros [= <-]; by apply Hins]. destruct (prose_key k) as (k' & -> & Hk'). cbn [obind].
  pose proof (removed_stays k k' Hk Hk') as Hr.
  destruct (bt_get k' m) as [[| |a| | |]|], v as [| |n| | |]; try (intros [= <-]; by apply Hins).
  destruct (parse_u64 a), (parse_u64 n); try done. cbn. intros [= <-]. apply Hins; [done|constructor].
Qed.
End masked.

(** ** The document that is written *)

Lemma clean_all j : clean [] j.
Proof.
  induction j as [|b|n|s|l IH|m IH] using json_induction; constructor; [done|]. eapply Forall_impl; [exact IH|]. intros e He. split; [apply not_elem_of_nil|done].
Qed.

Lemma exact_textual hidden j : clean hidden j -> textual hidden (exact j).
Proof.
  induction j as [|b|n|s|l IH|m IH] using json_induction; intros Hj; inversion Hj; subst; cbn [exact]; constructor; apply Forall_fmap; rewrite Forall_forall in *.
  - intros x Hx. cbn. auto.
  - intros e He. cbn. split; [by apply H0|]. apply IH; [done|by apply H0].
Qed.

Lemma mask_clean rows selected j : forall field j', mask_json (privacy_new rows selected) field j = Done j' -> clean removed_fields j'.
Proof.
  induction j as [|b|n|s|l IH|m IH] using json_induction; intros field j'; try (intros [= <-]; constructor).
  - cbn [mask_json]. destruct (mask_text _ _ _); try done. intros [= <-]. constructor.
  - rewrite mask_array. destruct (mask_list _ field l) as [l'| |] eqn:E; try done. intros [= <-]. constructor. revert l' E.
    induction IH as [|v l Hv _ IHl]; intros l'; cbn [mask_list]; [by intros [= <-]|]. fold (mask_list (privacy_new rows selected) field).
    destruct (mask_json _ _ v) eqn:Ev; try done. cbn [obind]. destruct (mask_list _ _ l) as [l1| |]; try done. intros [= <-]. constructor; [by apply (Hv field)|by apply IHl].
  - rewrite mask_object. destruct (mask_fields _ field m []) as [m'| |] eqn:E; try done. intros [= <-]. constructor. revert m' E.
    enough (forall acc m', Forall (fun e : string * Json => (e.1 ∉ removed_fields) /\ clean removed_fields e.2) acc ->
      mask_fields (privacy_new rows selected) field m acc = Done m' -> Forall (fun e => (e.1 ∉ removed_fields) /\ clean removed_fields e.2) m') as Hgo by (intros m'; by apply Hgo).
    induction IH as [|[k v] m Hv _ IHm]; intros acc m' Hacc; cbn [mask_fields]; [by intros [= <-]|]. fold (mask_fields (privacy_new rows selected) field).
    destruct (String.eqb k "account" || String.eqb k "stp_group") eqn:Ek; [by apply IHm|].
    destruct (mask_json _ k v) as [v'| |] eqn:Ev; try done. cbn [obind]. apply Hv in Ev.
    destruct (mask_entry _ _ _ _ _) as [acc'| |] eqn:Ee; try done. cbn [obind]. apply IHm.
    by apply (mask_entry_clean rows selected field k v' acc acc' Hacc (not_removed k Ek) Ev Ee).
Qed.

(** *** Names and their pseudonyms *)

Lemma hides_mono (P Q : string -> string -> Prop) j : (forall f s, P f s -> Q f s) -> forall f, hides P f j -> hides Q f j.
Proof.
  intros HPQ. induction j as [|b|n|s|l IH|m IH] using json_induction; intros f Hj; inversion Hj as [| | | |? ? Hl|? ? Hl]; subst; constructor; auto.
  - rewrite Forall_forall in *. auto.
  - rewrite Forall_forall in *. intros e He. split; [by apply Hl|]. apply IH; [done|by apply Hl].
Qed.

Lemma sorted_set_spec (l : list string) : StronglySorted (fun a b => string_ltb a b = true) (sorted_set l) /\ forall s, s ∈ l -> s ∈ sorted_set l.
Proof.
  unfold sorted_set. enough (forall m : list (string * unit), bt_sorted m ->
    bt_sorted (foldl (fun m s => bt_insert s tt m) m l) /\
    forall s, s ∈ l \/ (s, tt) ∈ m -> (s, tt) ∈ foldl (fun m s => bt_insert s tt m) m l) as Hgo.
  { destruct (Hgo [] bt_sorted_nil) as [Hs Hin]. split; [exact Hs|]. intros s Hl. apply list_elem_of_fmap. exists (s, tt). eauto. }
  induction l as [|x l IH]; intros m Hm; cbn [foldl]; [split; [done|]; intros s [H|H]; [by apply elem_of_nil in H|done]|].
  destruct (IH (bt_insert x tt m) (bt_sorted_insert x tt m Hm)) as [Hs Hin]. split; [done|]. intros s Hx. apply Hin.
  destruct (decide (s = x)) as [->|Hne]; [right; apply bt_get_Some_elem, bt_get_insert_eq, Hm|].
  destruct Hx as [[->|H]%elem_of_cons|H]; [done|by left|]. right. apply bt_get_Some_elem.
  rewrite bt_get_insert_ne by done. by apply bt_elem_get.
Qed.

Lemma enumerated_spec l : (enumerated l).*2 = l.
Proof. unfold enumerated. apply snd_zip. rewrite length_seqZ. lia. Qed.

(** Every name of a sorted list that the filter keeps has a pseudonym. *)
Lemma named_get (keep : Z * string -> bool) (label : Z -> string) l s :
  StronglySorted (fun a b => string_ltb a b = true) l -> s ∈ l -> (forall i, keep (i, s) = true) ->
  is_Some (bt_get s ((fun e : Z * string => (e.2, label e.1)) <$> List.filter keep (enumerated l))).
Proof.
  rewrite <- (enumerated_spec l) at 1 2. generalize (enumerated l). clear l. intros l Hs Hin Hk.
  apply list_elem_of_fmap in Hin as ([i s'] & -> & Hin). simpl in *.
  exists (label i). apply bt_elem_get; [|apply list_elem_of_fmap; exists (i, s'); split; [done|]; apply list_elem_of_In, List.filter_In; split; [by apply list_elem_of_In|done]].
  unfold bt_sorted. rewrite <- list_fmap_compose. clear Hin. induction l as [|x l IH]; [constructor|].
  apply StronglySorted_inv in Hs as [Hs Hx]. cbn [List.filter]. destruct (keep x); [|by apply IH]. constructor; [by apply IH|].
  apply Forall_fmap in Hx. apply Forall_fmap. rewrite Forall_forall in Hx |- *. intros y [Hy _]%list_elem_of_In%List.filter_In. by apply Hx, list_elem_of_In.
Qed.

Lemma hidden_tells_nothing rows selected field s :
  text_hidden (privacy_new rows selected) field s -> tells_nothing rows selected field s.
Proof.
  intros [Ho Hi]. unfold privacy_new in Ho, Hi. cbn [pv_owners pv_identities] in Ho, Hi. split; intros Hf.
  - intros (He & Hsel & row & Hrow & Ht). destruct (Ho Hf) as [Hn|[n Hn]].
    + set (names := List.filter _ (trace_text "owner" <$> rows)) in Hn. destruct (sorted_set_spec names) as [Hss Hin].
      apply eq_None_not_Some in Hn. exfalso. apply Hn.
      pose (label := fun i => let l := "owner-" ++ print_width 4 i in if bool_decide (Some l = selected) then l ++ "-" else l).
      pose (keep := fun e : Z * string => negb (bool_decide (Some e.2 = selected))). apply (named_get keep label); [exact Hss| |].
      * apply Hin, list_elem_of_In, List.filter_In. split; [|by apply negb_true_iff, String.eqb_neq]. apply list_elem_of_In, list_elem_of_fmap. eauto.
      * intros i. unfold keep. by rewrite bool_decide_false.
    + apply bt_get_Some_elem, list_elem_of_fmap in Hn as ([i x] & [= -> ->] & _). exists i. cbn. case_bool_decide; [right|left]; [|done].
      by rewrite str_app_assoc.
  - intros (He & row & k & Hrow & Hk & Hd). destruct (Hi Hf) as [Hn|[n Hn]].
    + destruct (sorted_set_spec (rows ≫= row_names)) as [Hss Hin].
      edestruct (named_get (fun _ => true) (fun i => "id-" ++ print_width 6 i)) as [x Hx]; [exact Hss| |done|].
      * apply Hin, list_elem_of_bind. exists row. split; [|done]. apply list_elem_of_In, List.filter_In.
        split; [|by apply negb_true_iff, String.eqb_neq]. apply list_elem_of_In, list_elem_of_bind.
        destruct Hd as [Ht|(d & Hdata & Ht)]; [exists row|exists d; rewrite Hdata]; (split; [apply list_elem_of_fmap; eauto|set_solver]).
      * rewrite List.forallb_filter_id in Hx by (by apply List.forallb_forall). by rewrite Hx in Hn.
    + apply bt_get_Some_elem, list_elem_of_fmap in Hn as ([i x] & [= -> ->] & _). by exists i.
Qed.

(** C21: Anonymizing a document whose counts are integers always returns. In the
    result no owner field, at any depth, holds the name of an owner of the trace
    other than the selected one, and no identity field the name of an order or
    client of the trace, unless that name has itself the shape of a pseudonym
    (owner-0001, id-000001); and no account or self-trade group is left. *)
Theorem mask_hides (rows : list Json) (selected : option string) (field : string) (j : Json) :
  counts_ok field j -> exists j', mask_json (privacy_new rows selected) field j = Done j' /\ hides (tells_nothing rows selected) field j'.
Proof.
  intros Hj. destruct (mask_json_ok rows selected j field Hj) as (j' & Hd & Hh & _). exists j'. split; [done|].
  eapply hides_mono; [|exact Hh]. apply hidden_tells_nothing.
Qed.

(** The [unwrap] of a count panics on a document of a bundle whose counts are no integers. *)
Example fractional_counts_panic :
  mask_json (privacy_new [JObject [("owner", JString "alice")]] None) ""
    (JObject [("git_sha", JObject [("rejects_by_reason", JObject [("alice", JNumber "1.5"); ("owner-0001", JNumber "2")])])]) = Panicked.
Proof. vm_compute. reflexivity. Qed.
