(* ===== verification/ReportLives.v ===== *)
(** * The lives of orders in a report: [orders] of replay_cli/report/mod.rs

    Every row of an order is in one life and one only, in the order of the run: an
    answer in the life of its submission, any other row in the life that its order
    id stands for since an acceptance or a replacement, and a submission in one
    of its own. *)

From S2P Require Import Prelude BTree Text Bytes Json Trace ReplayCli Report.

Local Open Scope string_scope.
Local Open Scope Z_scope.

(** ** Definitions *)

(** A row that belongs to a life. *)
Definition lived (row : Json) : bool := negb (String.eqb (trace_text "order_id" row) "") || is_new_command row.

Definition party (row : Json) : string * string := (trace_text "symbol" row, trace_text "owner" row).

(** A life: rows of one owner on one symbol, of which only the first may be a submission. *)
Record life_ok (rows g : list Json) : Prop := {
  lf_some : g <> [];
  lf_order : sublist g rows;
  lf_party r r' : r ∈ g -> r' ∈ g -> party r = party r';
  lf_first : Forall (fun r => is_new_command r = false) (tail g);
}.

(** Rows by their places. A submission is answered by the rows of its command
    about the same order, until the next submission. *)
Definition submission (rows : list Json) (i : nat) : Prop := exists r, rows !! i = Some r /\ is_new_command r = true.

Record answers (rows : list Json) (i j : nat) : Prop := {
  an_before : (i < j)%nat;
  an_rows : exists r r', rows !! i = Some r /\ rows !! j = Some r' /\ is_new_command r = true /\ is_new_command r' = false /\
    trace_number "global_seq" r = trace_number "global_seq" r' /\ life_key r = life_key r';
  an_last m : (i < m < j)%nat -> ~ submission rows m;
}.

(** A row that makes its life the one that a key stands for: an acceptance, a row
    that answers no submission, and for the new id a replacement. *)
Definition claims (rows : list Json) (i : nat) (k : OrderKey) : Prop :=
  exists r, rows !! i = Some r /\ lived r = true /\
    (life_key r = k /\ (trace_text "kind" r = "accepted" \/ is_new_command r = false /\ (forall m, ~ answers rows m i)) \/
     trace_text "kind" r = "replaced" /\ trace_text "new_order_id" (row_data r) <> "" /\
       k = (trace_text "symbol" r, trace_text "owner" r, trace_text "new_order_id" (row_data r))).

(** The last one before [j]. *)
Definition holder (rows : list Json) (j : nat) (k : OrderKey) (i : nat) : Prop :=
  (i < j)%nat /\ claims rows i k /\ forall m, (i < m < j)%nat -> ~ claims rows m k.

(** The row at [j] continues the life of the row at [i]. *)
Definition follows (rows : list Json) (i j : nat) : Prop :=
  exists r, rows !! j = Some r /\ lived r = true /\ is_new_command r = false /\
    (answers rows i j \/ (forall m, ~ answers rows m j) /\ holder rows j (life_key r) i).

(** The rows of one life, where [n] numbers the life of each place. *)
Definition told (rows : list Json) (n : nat -> nat) (g : nat) : list Json :=
  (filter (fun x => lived x.2 = true /\ n x.1 = g) (imap pair rows)).*2.

Definition nonempty {A} (l : list A) : option (list A) := match l with [] => None | _ => Some l end.

Record traced (rows : list Json) (l : Lives) (n : nat -> nat) : Prop := {
  tr_groups g : lv_groups l !! g = nonempty (told rows n g);
  tr_bound i r : rows !! i = Some r -> lived r = true -> (n i < length (lv_groups l))%nat;
  tr_current k :
    match lv_current l !! k with
    | Some g => exists i, holder rows (length rows) k i /\ n i = g
    | None => forall i, ~ claims rows i k
    end;
  tr_pending :
    match lv_pending l with
    | Some (s, k, g) => exists i r, rows !! i = Some r /\ is_new_command r = true /\ trace_number "global_seq" r = s /\ life_key r = k /\ n i = g /\
        (forall m, (i < m)%nat -> ~ submission rows m)
    | None => forall i, ~ submission rows i
    end;
  tr_follows i j : follows rows i j -> n i = n j;
  tr_starts i j r r' : (i < j)%nat -> rows !! i = Some r -> lived r = true -> rows !! j = Some r' -> lived r' = true ->
    (forall m, ~ follows rows m j) -> (n i < n j)%nat;
}.

Definition key_party (k : OrderKey) : string * string := k.1.

(** A life that a key stands for. *)
Definition points_to (groups : list (list Json)) (k : OrderKey) (n : nat) : Prop :=
  exists g, groups !! n = Some g /\ forall r, r ∈ g -> party r = key_party k.

Record lives_inv (rows : list Json) (l : Lives) : Prop := {
  li_rows : concat (lv_groups l) ≡ₚ List.filter lived rows;
  li_lives : Forall (life_ok rows) (lv_groups l);
  li_current k n : lv_current l !! k = Some n -> points_to (lv_groups l) k n;
  li_pending s k n : lv_pending l = Some (s, k, n) -> points_to (lv_groups l) k n;
}.

(** ** Rows join lives *)

Lemma key_party_row row : key_party (life_key row) = party row.
Proof. done. Qed.

Lemma concat_alter (row : Json) groups : forall n g, groups !! n = Some g ->
  concat (alter (fun rows => rows ++ [row])%list n groups) ≡ₚ (concat groups ++ [row])%list.
Proof.
  induction groups as [|g groups IH]; intros [|n] g' Hn; try done.
  - simpl. rewrite <- !app_assoc. apply Permutation_app_head. solve_Permutation.
  - simpl. change (alter ?f (S n) (g :: groups)) with (g :: alter f n groups). simpl. rewrite (IH n g' Hn). by rewrite app_assoc.
Qed.

Lemma points_alter row groups k n m : points_to groups k n -> (forall g, groups !! m = Some g -> m = n -> party row = key_party k) ->
  points_to (alter (fun rows => rows ++ [row])%list m groups) k n.
Proof.
  intros (g & Hg & Hp) Hrow. destruct (decide (m = n)) as [->|Hne].
  - exists (g ++ [row])%list. rewrite list_lookup_alter_eq, Hg. split; [done|]. intros r [Hr|Hr%list_elem_of_singleton]%elem_of_app; [by apply Hp|].
    subst r. by apply (Hrow g Hg).
  - exists g. rewrite list_lookup_alter_ne by done. done.
Qed.

Lemma life_more rows row g : life_ok rows g -> life_ok (rows ++ [row]) g.
Proof. intros [H1 H2 H3 H4]. split; [done|by apply sublist_inserts_r|done|done]. Qed.

Lemma life_join rows row g : life_ok rows g -> (forall r, r ∈ g -> party r = party row) -> is_new_command row = false -> life_ok (rows ++ [row]) (g ++ [row]).
Proof.
  intros [H1 H2 H3 H4] Hp Hn. split.
  - by destruct g.
  - by apply sublist_app.
  - intros r r' [Hr|Hr%list_elem_of_singleton]%elem_of_app [Hr'|Hr'%list_elem_of_singleton]%elem_of_app; subst; [by apply H3|by apply Hp|symmetry; by apply Hp|done].
  - destruct g as [|x g]; [done|]. simpl in *. apply Forall_app. split; [done|]. by constructor.
Qed.

Lemma life_start rows row : life_ok (rows ++ [row]) [row].
Proof.
  split; [done|by apply sublist_inserts_l| |constructor]. by intros r r' ->%list_elem_of_singleton ->%list_elem_of_singleton.
Qed.

Lemma points_more groups g k n : points_to groups k n -> points_to (groups ++ [g]) k n.
Proof. intros (x & Hx & Hp). exists x. split; [by apply lookup_app_l_Some|done]. Qed.

Lemma filter_snoc (rows : list Json) row : lived row = true -> List.filter lived (rows ++ [row]) = (List.filter lived rows ++ [row])%list.
Proof. intros H. rewrite List.filter_app. simpl. by rewrite H. Qed.

(** A row that joins a life. *)
Lemma join_life rows l row n : lives_inv rows l -> points_to (lv_groups l) (life_key row) n -> is_new_command row = false -> lived row = true ->
  let groups := alter (fun rows => rows ++ [row])%list n (lv_groups l) in
  lives_inv (rows ++ [row]) (mkLives groups (lv_current l) (lv_pending l)) /\ points_to groups (life_key row) n.
Proof.
  intros [Hr Hl Hc Hp] (g & Hg & Hk) Hn Hv. cbv zeta. pose proof (Forall_lookup_1 _ _ _ _ Hl Hg) as Hok.
  assert (forall k m, points_to (lv_groups l) k m -> points_to (alter (fun rows => rows ++ [row])%list n (lv_groups l)) k m) as Hpt.
  { intros k m Hm. apply points_alter; [done|]. intros g' Hg' <-. destruct Hm as (x & Hx & Hxp). rewrite Hg in Hx. injection Hx as <-.
    destruct g as [|y g]; [by destruct Hok|]. rewrite <- (key_party_row row), <- (Hk y), <- (Hxp y); [done|by left..]. }
  split; [split|]; simpl.
  - by rewrite (concat_alter _ _ _ _ Hg), Hr, filter_snoc.
  - apply Forall_lookup. intros m x Hx. destruct (decide (n = m)) as [<-|Hne].
    + rewrite list_lookup_alter_eq, Hg in Hx. injection Hx as <-. by apply life_join.
    + rewrite list_lookup_alter_ne in Hx by done. apply life_more. by apply (Forall_lookup_1 _ _ _ _ Hl Hx).
  - intros k m Hm. by apply Hpt, Hc.
  - intros s k m Hm. by apply Hpt, (Hp s).
  - apply Hpt. by exists g.
Qed.

(** A row that starts a life. *)
Lemma start_life rows l row : lives_inv rows l -> lived row = true ->
  let groups := (lv_groups l ++ [[row]])%list in
  lives_inv (rows ++ [row]) (mkLives groups (lv_current l) (lv_pending l)) /\ points_to groups (life_key row) (length (lv_groups l)).
Proof.
  intros [Hr Hl Hc Hp] Hv. split; [split|]; simpl.
  - rewrite concat_app, Hr, filter_snoc by done. done.
  - apply Forall_app. split; [|constructor; [apply life_start|constructor]]. eapply Forall_impl; [done|]. intros g. apply life_more.
  - intros k n Hk. by apply points_more, Hc.
  - intros s k n Hk. by apply points_more, (Hp s).
  - exists [row]. split; [by rewrite list_lookup_middle|]. by intros r ->%list_elem_of_singleton.
Qed.

Lemma inv_current rows l k n : lives_inv rows l -> points_to (lv_groups l) k n -> lives_inv rows (mkLives (lv_groups l) (<[k := n]> (lv_current l)) (lv_pending l)).
Proof. intros [Hr Hl Hc Hp] Hk. split; simpl; try done. intros k' n' [[<- <-]|[_ H]]%lookup_insert_Some; [done|by apply Hc]. Qed.

Lemma inv_pending rows l s k n : lives_inv rows l -> points_to (lv_groups l) k n -> lives_inv rows (mkLives (lv_groups l) (lv_current l) (Some (s, k, n))).
Proof. intros [Hr Hl Hc Hp] Hk. split; simpl; try done. by intros s' k' n' [= <- <- <-]. Qed.

Lemma alter_new (row : Json) groups : alter (fun rows => rows ++ [row])%list (length groups) (groups ++ [[]])%list = (groups ++ [[row]])%list.
Proof. induction groups as [|g groups IH]; [done|]. simpl. by rewrite <- IH. Qed.

(** What [life_of] finds, and the row in it. *)
Lemma life_of_inv rows l row : lives_inv rows l -> lived row = true ->
  let '(g, l') := life_of row l in
  let groups := alter (fun rows => rows ++ [row])%list g (lv_groups l') in
  lives_inv (rows ++ [row]) (mkLives groups (lv_current l') (lv_pending l')) /\ points_to groups (life_key row) g.
Proof.
  intros Hinv Hv. unfold life_of. destruct (start_life rows l row Hinv Hv) as [Hs Hsp].
  destruct (is_new_command row) eqn:En; [cbn; rewrite alter_new; split; [exact (inv_pending _ _ _ _ _ Hs Hsp)|done]|].
  destruct (answered _ _ _) as [g|] eqn:Ea.
  - apply join_life; try done. unfold answered in Ea. destruct (lv_pending l) as [[[s k] n]|] eqn:Ep; [|done].
    destruct (_ && bool_decide (k = life_key row)) eqn:E; [|done]. injection Ea as <-. apply andb_true_iff in E as [_ E%bool_decide_eq_true]. subst k.
    by apply (li_pending _ _ Hinv s).
  - destruct (lv_current l !! life_key row) as [g|] eqn:Ec; [apply join_life; try done; by apply (li_current _ _ Hinv)|].
    cbn. rewrite alter_new. split; [exact (inv_current _ _ _ _ Hs Hsp)|done].
Qed.

Lemma points_party groups k k' n : key_party k = key_party k' -> points_to groups k n -> points_to groups k' n.
Proof. intros E (g & Hg & Hp). exists g. by rewrite <- E. Qed.

Lemma life_step_inv rows l row : lives_inv rows l -> lives_inv (rows ++ [row]) (life_step l row).
Proof.
  intros Hinv. unfold life_step. destruct (String.eqb _ "" && negb _) eqn:E.
  - assert (lived row = false) as Hl. { unfold lived. apply andb_true_iff in E as [-> E%negb_true_iff]. by rewrite E. }
    destruct Hinv as [H1 H2 H3 H4]. split; try done; [rewrite List.filter_app; simpl; by rewrite Hl, app_nil_r|].
    eapply Forall_impl; [done|]. intros g. apply life_more.
  - assert (lived row = true) as Hl. { unfold lived. apply andb_false_iff in E as [->|E%negb_false_iff]; [done|]. by rewrite E, orb_true_r. }
    pose proof (life_of_inv rows l row Hinv Hl) as H. destruct (life_of row l) as [g l']. destruct H as [Hi Hp]. simpl.
    set (groups := alter _ g _) in *.
    assert (forall c b k, lives_inv (rows ++ [row]) (mkLives groups c (lv_pending l')) -> key_party k = party row ->
      lives_inv (rows ++ [row]) (mkLives groups (if b : bool then <[k := g]> c else c) (lv_pending l'))) as Hset.
    { intros c [] k Hc Hk; [|done]. apply (inv_current _ _ k g Hc). exact (points_party groups (life_key row) k g (eq_sym Hk) Hp). }
    exact (Hset _ _ (trace_text "symbol" row, trace_text "owner" row, trace_text "new_order_id" (row_data row)) (Hset _ _ (life_key row) Hi eq_refl) eq_refl).
Qed.

Lemma lives_told (rows : list Json) : concat (lives rows) ≡ₚ List.filter lived rows /\ Forall (life_ok rows) (lives rows).
Proof.
  unfold lives. assert (lives_inv rows (foldl life_step (mkLives [] ∅ None) rows)) as H; [|by destruct H].
  induction rows as [|row rows IH] using rev_ind; [|rewrite foldl_app; by apply life_step_inv].
  split; simpl; [done|constructor| |done]. intros k n Hk. by apply lookup_empty_Some in Hk.
Qed.

(** ** The places of a life *)

Lemma filter_agree {A} (P Q : A -> Prop) `{forall x, Decision (P x), forall x, Decision (Q x)} l :
  Forall (fun x => P x <-> Q x) l -> filter P l = filter Q l.
Proof.
  induction 1 as [|x l Hx _ IH]; [done|]. rewrite !filter_cons, IH. destruct (decide (P x)), (decide (Q x)); tauto.
Qed.

Section step.
Context (rows : list Json) (row : Json).
Abbreviation rows' := (rows ++ [row])%list.
Abbreviation last := (length rows).

Lemma row_new : rows' !! last = Some row.
Proof. by rewrite list_lookup_middle. Qed.

Lemma row_old i : (i < last)%nat -> rows' !! i = rows !! i.
Proof. apply lookup_app_l. Qed.

Lemma row_cases i r : rows' !! i = Some r -> (i < last)%nat /\ rows !! i = Some r \/ i = last /\ r = row.
Proof.
  intros H. destruct (decide (i < last)%nat) as [Hi|Hi]; [left; by rewrite row_old in H|right].
  apply lookup_lt_Some in H as Hl. rewrite length_app in Hl. simpl in Hl. assert (i = last) as -> by lia. rewrite row_new in H. by injection H as ->.
Qed.

Lemma submission_old i : (i < last)%nat -> submission rows' i <-> submission rows i.
Proof. intros Hi. unfold submission. by rewrite row_old. Qed.

Lemma answers_old i j : (j < last)%nat -> answers rows' i j <-> answers rows i j.
Proof.
  intros Hj. split; intros [Hb (r & r' & H1 & H2 & H) Hl].
  - rewrite !row_old in H1, H2 by lia. split; [done|by exists r, r'|]. intros m Hm. specialize (Hl m Hm). by rewrite submission_old in Hl by lia.
  - split; [done|exists r, r'; by rewrite !row_old by lia|]. intros m Hm. specialize (Hl m Hm). by rewrite submission_old by lia.
Qed.

Lemma claims_old i k : (i < last)%nat -> claims rows' i k <-> claims rows i k.
Proof. intros Hi. unfold claims. rewrite row_old by done. by setoid_rewrite (fun m => answers_old m i Hi). Qed.

Lemma holder_old j k i : (j <= last)%nat -> holder rows' j k i <-> holder rows j k i.
Proof.
  intros Hj. split; intros (H1 & H2 & H3); (split_and!; [done|by apply claims_old; [lia|]|]); intros m Hm Hc; apply (H3 m Hm), claims_old; [lia|done|lia|done].
Qed.

Lemma follows_old i j : (j < last)%nat -> follows rows' i j <-> follows rows i j.
Proof.
  intros Hj. unfold follows. rewrite row_old by done. setoid_rewrite (fun i => answers_old i j Hj). by setoid_rewrite (fun k i => holder_old j k i (Nat.lt_le_incl _ _ Hj)).
Qed.

(** The holder of a key after the row. *)
Lemma holder_new k : claims rows' last k -> holder rows' (length rows') k last.
Proof. intros Hc. rewrite length_app. split_and!; [simpl; lia|done|]. intros m Hm. simpl in Hm. lia. Qed.

Lemma holder_kept k i : ~ claims rows' last k -> holder rows last k i -> holder rows' (length rows') k i.
Proof.
  intros Hn (H1 & H2 & H3). rewrite length_app. split_and!; [simpl; lia|by apply claims_old|]. intros m Hm. simpl in Hm.
  destruct (decide (m = last)) as [->|Hne]; [done|]. rewrite claims_old by lia. apply H3. lia.
Qed.

Lemma answers_unique i i' j : answers rows' i j -> answers rows' i' j -> i = i'.
Proof.
  intros [H1 (r & r1 & Hr & _ & Hn & _) H2] [H1' (r' & r1' & Hr' & _ & Hn' & _) H2']. destruct (Nat.lt_trichotomy i i') as [Hlt|[E|Hlt]]; [|done|]; exfalso.
  - apply (H2 i'); [lia|by exists r'].
  - apply (H2' i); [lia|by exists r].
Qed.

Lemma holder_unique j k i i' : holder rows j k i -> holder rows j k i' -> i = i'.
Proof.
  intros (H1 & H2 & H3) (H1' & H2' & H3'). destruct (Nat.lt_trichotomy i i') as [Hlt|[E|Hlt]]; [|done|]; exfalso.
  - by apply (H3 i'); [lia|].
  - by apply (H3' i); [lia|].
Qed.

(** What [life_of] finds. *)
Inductive life_case (l : Lives) (n : nat -> nat) : nat -> Lives -> Prop :=
| case_new :
    is_new_command row = true ->
    life_case l n (length (lv_groups l))
      (mkLives (lv_groups l ++ [[]])%list (lv_current l) (Some (trace_number "global_seq" row, life_key row, length (lv_groups l))))
| case_answers i :
    is_new_command row = false -> answers rows' i last -> (n i < length (lv_groups l))%nat -> life_case l n (n i) l
| case_holds i :
    is_new_command row = false -> (forall m, ~ answers rows' m last) -> holder rows last (life_key row) i ->
    lv_current l !! life_key row = Some (n i) -> (n i < length (lv_groups l))%nat -> life_case l n (n i) l
| case_first :
    is_new_command row = false -> (forall m, ~ answers rows' m last) -> (forall i, ~ claims rows i (life_key row)) ->
    life_case l n (length (lv_groups l)) (mkLives (lv_groups l ++ [[]])%list (<[life_key row := length (lv_groups l)]> (lv_current l)) (lv_pending l)).

Lemma answered_spec l n : traced rows l n -> is_new_command row = false ->
  match answered (trace_number "global_seq" row) (life_key row) (lv_pending l) with
  | Some g => exists i, answers rows' i last /\ g = n i /\ (n i < length (lv_groups l))%nat
  | None => forall m, ~ answers rows' m last
  end.
Proof.
  intros Ht Hn. pose proof (tr_pending _ _ _ Ht) as Hp. unfold answered. destruct (lv_pending l) as [[[s k] g]|].
  - destruct Hp as (i & r & Hr & Hnr & Hs & Hk & Hg & Hlast). pose proof (lookup_lt_Some _ _ _ Hr) as Hi.
    assert (forall m, answers rows' m last -> m = i) as Huniq.
    { intros m [H1 (r1 & r2 & Hr1 & _ & Hn1 & _) H2]. destruct (Nat.lt_trichotomy m i) as [Hlt|[E|Hlt]]; [|done|]; exfalso.
      - apply (H2 i); [lia|]. exists r. by rewrite row_old.
      - apply (Hlast m Hlt). rewrite row_old in Hr1 by lia. by exists r1. }
    destruct (_ && _) eqn:E.
    + apply andb_true_iff in E as [E1%Z.eqb_eq E2%bool_decide_eq_true]. exists i. split_and!; [|done|].
      * split; [done| |]; [exists r, row; rewrite row_old, row_new by done; split_and!; congruence|].
        intros m Hm. rewrite submission_old by lia. apply Hlast. lia.
      * eapply tr_bound; [done|done|]. unfold lived. by rewrite Hnr, orb_true_r.
    + intros m Hm. rewrite (Huniq _ Hm) in Hm. destruct Hm as [_ (r1 & r2 & Hr1 & Hr2 & _ & _ & E1 & E2) _].
      rewrite row_old, Hr in Hr1 by done. rewrite row_new in Hr2. injection Hr1 as <-. injection Hr2 as <-.
      apply andb_false_iff in E as [E%Z.eqb_neq|E%bool_decide_eq_false]; congruence.
  - intros m [H1 (r1 & r2 & Hr1 & _ & Hn1 & _) _]. apply (Hp m). rewrite row_old in Hr1 by done. by exists r1.
Qed.

Lemma life_of_case l n : traced rows l n -> life_case l n (life_of row l).1 (life_of row l).2.
Proof.
  intros Ht. unfold life_of. destruct (is_new_command row) eqn:En; [by apply case_new|].
  pose proof (answered_spec l n Ht En) as Ha. destruct (answered _ _ _) as [g|]; [destruct Ha as (i & Ha & -> & Hb); by apply case_answers|].
  pose proof (tr_current _ _ _ Ht (life_key row)) as Hc. destruct (lv_current l !! life_key row) as [g|] eqn:Ec; [|by apply case_first].
  destruct Hc as (i & Hh & <-). apply case_holds; try done. destruct Hh as (_ & (r & Hr & Hl & _) & _). by eapply tr_bound.
Qed.

(** The life of every place after the row. *)
Definition placed (n : nat -> nat) (g i : nat) : nat := if decide (i = last) then g else n i.

Lemma placed_new n g : placed n g last = g.
Proof. unfold placed. by rewrite decide_True. Qed.

Lemma placed_old n g i : (i < last)%nat -> placed n g i = n i.
Proof. intros Hi. unfold placed. rewrite decide_False by lia. done. Qed.

Lemma told_snoc n g h : lived row = true -> told rows' (placed n g) h = (told rows n h ++ if decide (g = h) then [row] else [])%list.
Proof.
  intros Hl. unfold told. rewrite imap_app, filter_app, fmap_app. f_equal.
  - f_equal. apply filter_agree, Forall_forall. intros [i r] Hx. apply elem_of_lookup_imap in Hx as (i' & r' & [= -> ->] & Hi). simpl.
    rewrite placed_old by (by eapply lookup_lt_Some). done.
  - simpl. rewrite Nat.add_0_r, filter_cons. simpl. rewrite placed_new. destruct (decide (g = h)); [rewrite decide_True by done; done|].
    rewrite decide_False by naive_solver. done.
Qed.

(** What [life_case] says of the groups. *)
Lemma case_groups l n g l' : life_case l n g l' ->
  (g < length (lv_groups l'))%nat /\ (length (lv_groups l) <= length (lv_groups l'))%nat /\
  forall h, alter (fun rows => rows ++ [row])%list g (lv_groups l') !! h =
    if decide (g = h) then Some (default [] (lv_groups l !! g) ++ [row])%list else lv_groups l !! h.
Proof.
  set (len := length (lv_groups l)).
  assert (forall h, alter (fun rows => rows ++ [row])%list len (lv_groups l ++ [[]])%list !! h =
    if decide (len = h) then Some (default [] (lv_groups l !! len) ++ [row])%list else lv_groups l !! h) as Hnew.
  { intros h. unfold len. rewrite alter_new, (lookup_ge_None_2 _ (length _)) by done. case_decide as E; [subst h; by rewrite list_lookup_middle|].
    destruct (decide (h < length (lv_groups l))%nat); [by rewrite lookup_app_l|]. rewrite !lookup_ge_None_2; [done|lia|rewrite length_app; simpl; lia]. }
  assert (forall i, (n i < len)%nat -> forall h, alter (fun rows => rows ++ [row])%list (n i) (lv_groups l) !! h =
    if decide (n i = h) then Some (default [] (lv_groups l !! n i) ++ [row])%list else lv_groups l !! h) as Hold.
  { intros i Hi h. case_decide as E; [|by rewrite list_lookup_alter_ne]. subst h. rewrite list_lookup_alter_eq.
    destruct (lookup_lt_is_Some_2 _ _ Hi) as [x ->]. done. }
  destruct 1; simpl; rewrite ?length_app; simpl; fold len; (split_and!; [lia|lia|auto]).
Qed.

(** And of the keys: those that the row claims stand for its life. *)
Definition keys_after (g : nat) (current : gmap OrderKey nat) : gmap OrderKey nat :=
  let current := if String.eqb (trace_text "kind" row) "accepted" then <[life_key row := g]> current else current in
  if String.eqb (trace_text "kind" row) "replaced" && negb (String.eqb (trace_text "new_order_id" (row_data row)) "")
  then <[(trace_text "symbol" row, trace_text "owner" row, trace_text "new_order_id" (row_data row)) := g]> current else current.

Lemma case_keys l n g l' : lived row = true -> life_case l n g l' -> forall k,
  claims rows' last k /\ keys_after g (lv_current l') !! k = Some g \/
  ~ claims rows' last k /\ keys_after g (lv_current l') !! k = lv_current l !! k.
Proof.
  intros Hl Hcase k. set (un := is_new_command row = false /\ forall m, ~ answers rows' m last).
  set (k2 := (trace_text "symbol" row, trace_text "owner" row, trace_text "new_order_id" (row_data row))).
  assert (claims rows' last k <-> life_key row = k /\ (trace_text "kind" row = "accepted" \/ un) \/
    trace_text "kind" row = "replaced" /\ trace_text "new_order_id" (row_data row) <> "" /\ k = k2) as Hc.
  { unfold claims. rewrite row_new. split; [intros (r & [= <-] & _ & H); exact H|]. intros H. by exists row. }
  assert (un /\ lv_current l' = <[life_key row := g]> (lv_current l) \/ ~ un /\ lv_current l' = lv_current l) as Hun.
  { unfold un. destruct Hcase as [Hn|i Hn Ha|i Hn Ha Hh Hcur|Hn Ha Hno]; simpl.
    - right. split; [intros [? _]; congruence|done].
    - right. split; [intros [_ Hx]; by apply (Hx i)|done].
    - left. split; [done|]. by rewrite insert_id.
    - left. done. }
  rewrite Hc. clear Hc Hcase. unfold keys_after. fold k2. set (m1 := if String.eqb (trace_text "kind" row) "accepted" then _ else _).
  assert (life_key row = k /\ (trace_text "kind" row = "accepted" \/ un) /\ m1 !! k = Some g \/
    ~ (life_key row = k /\ (trace_text "kind" row = "accepted" \/ un)) /\ m1 !! k = lv_current l !! k) as H1.
  { unfold m1. destruct (decide (life_key row = k)) as [<-|Hne].
    - destruct (String.eqb_spec (trace_text "kind" row) "accepted") as [Ea|Ea]; [left; rewrite lookup_insert_eq; tauto|].
      destruct Hun as [[Hu ->]|[Hu ->]]; [left; rewrite lookup_insert_eq; tauto|right; tauto].
    - right. split; [tauto|]. destruct (String.eqb _ "accepted"), Hun as [[Hu ->]|[Hu ->]]; rewrite ?lookup_insert_ne by done; done. }
  clearbody m1. destruct (String.eqb_spec (trace_text "kind" row) "replaced") as [Er|Er]; cbn [andb]; [|tauto].
  destruct (String.eqb_spec (trace_text "new_order_id" (row_data row)) "") as [Ex|Ex]; cbn [negb]; [tauto|].
  destruct (decide (k2 = k)) as [E|E]; [left; rewrite E, lookup_insert_eq; split; [right; by split_and!|done]|].
  rewrite lookup_insert_ne by done. destruct H1 as [(H1 & H2 & H3)|[H1 H2]]; [left; tauto|right]. split; [|done]. intros [H|(_ & _ & H)]; [tauto|congruence].
Qed.
End step.

Lemma life_step_lived l row : lived row = true ->
  life_step l row = mkLives (alter (fun rows => rows ++ [row])%list (life_of row l).1 (lv_groups (life_of row l).2))
    (keys_after row (life_of row l).1 (lv_current (life_of row l).2)) (lv_pending (life_of row l).2).
Proof.
  intros Hl. unfold life_step. assert (String.eqb (trace_text "order_id" row) "" && negb (is_new_command row) = false) as ->.
  { unfold lived in Hl. by destruct (String.eqb _ _), (is_new_command row). }
  by destruct (life_of row l) as [g l'].
Qed.

Lemma nonempty_default {A} (l : list A) : default [] (nonempty l) = l.
Proof. by destruct l. Qed.

Lemma nonempty_snoc {A} (l : list A) x : nonempty (l ++ [x])%list = Some (l ++ [x])%list.
Proof. by destruct l. Qed.

Section continued.
Context (rows : list Json) (row : Json) (l : Lives) (n : nat -> nat) (g : nat) (l' : Lives).
Context (Ht : traced rows l n) (Hl : lived row = true) (Hcase : life_case rows row l n g l').
Abbreviation rows' := (rows ++ [row])%list.
Abbreviation n' := (placed rows n g).

Lemma follows_before i j : follows rows' i j -> (i < j)%nat.
Proof using Type. intros (r & _ & _ & _ & [[H _ _]|[_ (H & _)]]); exact H. Qed.

Lemma continued_follows i j : follows rows' i j -> n' i = n' j.
Proof using Ht Hcase.
  intros Hf. pose proof (follows_before _ _ Hf) as Hlt. pose proof Hf as (r & Hr & _ & Hn & Hx).
  apply row_cases in Hr as [[Hj _]|[-> ->]].
  - rewrite !placed_old by lia. apply (tr_follows _ _ _ Ht). by apply (follows_old rows row).
  - rewrite placed_new, placed_old by done. destruct Hcase as [Hc|m Hc Ha Hb|m Hc Ha Hh Hk Hb|Hc Ha Hno]; [congruence|..].
    + destruct Hx as [Hx|[Hx _]]; [by rewrite (answers_unique rows row _ _ _ Hx Ha)|by apply Hx in Ha].
    + destruct Hx as [Hx|[_ Hx]]; [by apply Ha in Hx|]. rewrite holder_old in Hx by done. by rewrite (holder_unique _ _ _ _ _ Hx Hh).
    + destruct Hx as [Hx|[_ (Hi & Hx & _)]]; [by apply Ha in Hx|]. rewrite claims_old in Hx by done. by apply Hno in Hx.
Qed.

Lemma continued_starts i j r r' : (i < j)%nat -> rows' !! i = Some r -> lived r = true -> rows' !! j = Some r' -> lived r' = true ->
  (forall m, ~ follows rows' m j) -> (n' i < n' j)%nat.
Proof using Ht Hl Hcase.
  intros Hlt Hr Hlr Hr' Hlr' Hno. pose proof (lookup_lt_Some _ _ _ Hr') as Hj. rewrite length_app in Hj. simpl in Hj.
  rewrite row_old in Hr by lia. apply row_cases in Hr' as [[Hj' Hr']|[-> ->]].
  - rewrite !placed_old by lia. eapply (tr_starts _ _ _ Ht); try done. intros m Hm. apply (Hno m). by apply follows_old.
  - rewrite placed_new, placed_old by done. pose proof (tr_bound _ _ _ Ht _ _ Hr Hlr) as Hb.
    destruct Hcase as [Hc|m Hc Ha _|m Hc Ha Hh Hk _|Hc Ha Hx]; [done|..|done]; exfalso; apply (Hno m); exists row; rewrite row_new; split_and!; try done.
    + by left.
    + right. split; [done|]. by apply holder_old.
Qed.

Lemma continued_pending :
  match lv_pending l' with
  | Some (s, k, h) => exists i r, rows' !! i = Some r /\ is_new_command r = true /\ trace_number "global_seq" r = s /\ life_key r = k /\ n' i = h /\
      (forall m, (i < m)%nat -> ~ submission rows' m)
  | None => forall i, ~ submission rows' i
  end.
Proof using Ht Hcase.
  assert (is_new_command row = false -> forall m, submission rows' m -> submission rows m) as Hold.
  { intros Hn m (r & [[Hm Hr]|[-> ->]]%row_cases & Hx); [by exists r|congruence]. }
  assert (is_new_command row = false -> lv_pending l' = lv_pending l -> match lv_pending l' with
    | Some (s, k, h) => exists i r, rows' !! i = Some r /\ is_new_command r = true /\ trace_number "global_seq" r = s /\ life_key r = k /\ n' i = h /\
        (forall m, (i < m)%nat -> ~ submission rows' m)
    | None => forall i, ~ submission rows' i end) as Hkeep.
  { intros Hn ->. pose proof (tr_pending _ _ _ Ht) as Hp. destruct (lv_pending l) as [[[s k] h]|]; [|intros i Hi; by apply (Hp i), Hold].
    destruct Hp as (i & r & Hr & H1 & H2 & H3 & H4 & H5). pose proof (lookup_lt_Some _ _ _ Hr) as Hi. exists i, r.
    rewrite row_old, placed_old by done. split_and!; [done..|]. intros m Hm Hx. by apply (H5 m Hm), Hold. }
  destruct Hcase as [Hc|m Hc Ha _|m Hc Ha Hh Hk _|Hc Ha Hx]; [|by apply Hkeep..]. simpl. exists (length rows), row.
  rewrite row_new, placed_new. split_and!; [done..|]. intros m Hm (r & Hr & _). apply lookup_lt_Some in Hr. rewrite length_app in Hr. simpl in Hr. lia.
Qed.

Lemma traced_step : traced rows' (mkLives (alter (fun rows => rows ++ [row])%list g (lv_groups l')) (keys_after row g (lv_current l')) (lv_pending l')) n'.
Proof using Ht Hl Hcase.
  destruct (case_groups _ _ _ _ _ _ Hcase) as (Hg & Hlen & Hgroups). split; simpl.
  - intros h. rewrite Hgroups, told_snoc by done. rewrite !(tr_groups _ _ _ Ht). case_decide as E; [|by rewrite app_nil_r].
    subst h. by rewrite nonempty_default, nonempty_snoc.
  - intros i r Hr Hlr. rewrite length_alter. apply row_cases in Hr as [[Hi Hr]|[-> ->]]; [|by rewrite placed_new].
    rewrite placed_old by done. pose proof (tr_bound _ _ _ Ht _ _ Hr Hlr). lia.
  - intros k. destruct (case_keys _ _ _ _ _ _ Hl Hcase k) as [[Hc ->]|[Hc ->]]; [exists (length rows); rewrite placed_new; split; [by apply holder_new|done]|].
    pose proof (tr_current _ _ _ Ht k) as Hk. destruct (lv_current l !! k) as [h|].
    + destruct Hk as (i & Hh & <-). exists i. rewrite placed_old by apply Hh. split; [by apply holder_kept|done].
    + intros i Hi. destruct (decide (i < length rows)%nat) as [Hlt|Hge]; [by apply claims_old in Hi; [apply Hk in Hi|]|].
      pose proof Hi as (r & Hr & _). apply row_cases in Hr as [[? _]|[-> _]]; [lia|done].
  - apply continued_pending.
  - apply continued_follows.
  - apply continued_starts.
Qed.
End continued.

(** A row that belongs to no life. *)
Lemma traced_skip rows row l n : traced rows l n -> lived row = false -> traced (rows ++ [row]) l n.
Proof.
  intros Ht Hl. assert (is_new_command row = false) as Hn by (unfold lived in Hl; apply orb_false_iff in Hl; tauto).
  assert (forall k i, claims (rows ++ [row]) i k -> claims rows i k) as Hcl.
  { intros k i Hc. pose proof Hc as (r & Hr & Hlr & _). apply row_cases in Hr as [[Hi _]|[-> ->]]; [by rewrite claims_old in Hc by done|congruence]. }
  assert (forall i r, (rows ++ [row])%list !! i = Some r -> lived r = true -> (i < length rows)%nat /\ rows !! i = Some r) as Hlk.
  { intros i r [H|[-> ->]]%row_cases Hr; [done|congruence]. }
  split.
  - intros g. rewrite (tr_groups _ _ _ Ht). unfold told. rewrite imap_app, filter_app. simpl. rewrite filter_cons. simpl. rewrite decide_False by (intros [? _]; congruence).
    by rewrite app_nil_r.
  - intros i r Hr Hlr. destruct (Hlk i r Hr Hlr) as [_ Hr']. by apply (tr_bound _ _ _ Ht i r).
  - intros k. pose proof (tr_current _ _ _ Ht k) as Hk. destruct (lv_current l !! k) as [h|]; [|intros i Hi; by apply (Hk i), Hcl].
    destruct Hk as (i & Hh & <-). exists i. split; [|done]. apply holder_kept; [|done]. intros Hc%Hcl. destruct Hc as (r & Hr & _). apply lookup_lt_Some in Hr. lia.
  - pose proof (tr_pending _ _ _ Ht) as Hp. assert (forall m, submission (rows ++ [row]) m -> submission rows m) as Hs.
    { intros m (r & [[Hm Hr]|[-> ->]]%row_cases & Hx); [by exists r|congruence]. }
    destruct (lv_pending l) as [[[s k] h]|]; [|intros i Hi; by apply (Hp i), Hs]. destruct Hp as (i & r & Hr & H1 & H2 & H3 & H4 & H5).
    exists i, r. rewrite row_old by (by eapply lookup_lt_Some). split_and!; [done..|]. intros m Hm Hx. by apply (H5 m Hm), Hs.
  - intros i j Hf. pose proof Hf as (r & Hr & Hlr & _). destruct (Hlk j r Hr Hlr) as [Hj _]. apply (tr_follows _ _ _ Ht). by rewrite follows_old in Hf by done.
  - intros i j r r' Hij Hr Hlr Hr' Hlr' Hno. destruct (Hlk i r Hr Hlr) as [_ Hi], (Hlk j r' Hr' Hlr') as [Hj Hj']. eapply (tr_starts _ _ _ Ht); try done.
    intros m Hm. apply (Hno m). by apply follows_old.
Qed.

Lemma lives_traced rows : exists n, traced rows (foldl life_step (mkLives [] ∅ None) rows) n.
Proof.
  induction rows as [|row rows [n IH]] using rev_ind.
  - exists (fun _ => 0%nat). split; simpl; try done; [intros k; rewrite lookup_empty|]; by intros i (r & Hr & _).
  - rewrite foldl_app. simpl. destruct (lived row) eqn:Hl.
    + rewrite life_step_lived by done. eexists. eapply traced_step; [done|done|by apply life_of_case].
    + exists n. unfold life_step. assert (String.eqb (trace_text "order_id" row) "" && negb (is_new_command row) = true) as ->.
      { unfold lived in Hl. by destruct (String.eqb _ _), (is_new_command row). }
      by apply traced_skip.
Qed.

(** C28: A report files every row about an order, and every submission, in
    exactly one lifecycle, and it is the right one. The lifecycles are numbered
    in the order of their first rows, and each holds its rows in the order of
    the journal. A row that answers the last submission (of the same command,
    about the same order) is in the lifecycle of that submission; any other row
    is in the lifecycle of the last row before it that was an acceptance of its
    order id, a replacement by that id, or itself an unanswering row of it; and
    a row for which there is neither, such as every submission, starts the next
    lifecycle. Each lifecycle belongs to one owner on one symbol and holds no
    submission but as its first row. *)
Theorem lives_partition (rows : list Json) :
  concat (lives rows) ≡ₚ List.filter lived rows /\ Forall (life_ok rows) (lives rows) /\
  exists n, (forall g, lives rows !! g = nonempty (told rows n g)) /\
    (forall i j, follows rows i j -> n i = n j) /\
    (forall i j r r', (i < j)%nat -> rows !! i = Some r -> lived r = true -> rows !! j = Some r' -> lived r' = true ->
       (forall m, ~ follows rows m j) -> (n i < n j)%nat).
Proof.
  destruct (lives_told rows) as [H1 H2]. split_and!; [done..|]. destruct (lives_traced rows) as [n Ht].
  exists n. split_and!; [exact (tr_groups _ _ _ Ht)|exact (tr_follows _ _ _ Ht)|exact (tr_starts _ _ _ Ht)].
Qed.
