(* ===== verification/ReportPage.v ===== *)
(** * The page of a report: [html] and [base64] of replay_cli/report/mod.rs

    The page is the shell with its style, its script and the data at their places;
    the hashes of the content security policy are those of the style and the script
    on the page; the data cannot leave the element that holds it. *)

From Stdlib Require Import Ascii.
From S2P Require Import Prelude Text Bytes Json Digest ReplayCli ReportAssets Report.

Local Open Scope string_scope.
Local Open Scope Z_scope.

(** ** Definitions *)

Fixpoint cat (l : list string) : string := match l with [] => "" | s :: l => s ++ cat l end.

(** No match of the pattern starts in the text and ends after it. *)
Fixpoint tight (pat s : string) : bool :=
  match s with EmptyString => true | String _ s' => negb (String.prefix s pat && (String.length s <? String.length pat)%nat) && tight pat s' end.

(** The pattern is nowhere in the text. *)
Fixpoint absent (pat s : string) : bool :=
  match s with EmptyString => true | String _ s' => negb (String.prefix pat s) && absent pat s' end.

Fixpoint has_char (c : ascii) (s : string) : bool := match s with EmptyString => false | String d s => Ascii.eqb d c || has_char c s end.

(** The text before and after a placeholder. *)
Definition before (pat s : string) : string := match String.index 0 pat s with Some i => String.substring 0 i s | None => s end.
Definition after (pat s : string) : string :=
  match String.index 0 pat s with Some i => String.substring (i + String.length pat) (String.length s) s | None => "" end.

(** The shell around its five placeholders. *)
Definition shell_0 : string := Eval vm_compute in before "__SCRIPT_HASH__'" shell_html.
Definition shell_1 : string := Eval vm_compute in before "__STYLE_HASH__'" (after "__SCRIPT_HASH__'" shell_html).
Definition shell_2 : string := Eval vm_compute in before "__CSS__<" (after "__STYLE_HASH__'" shell_html).
Definition shell_3 : string := Eval vm_compute in before "__DATA__<" (after "__CSS__<" shell_html).
Definition shell_4 : string := Eval vm_compute in before "__SCRIPT__<" (after "__DATA__<" shell_html).
Definition shell_5 : string := Eval vm_compute in after "__SCRIPT__<" shell_html.

(** *** A reference decoder of base64 *)

Definition base64_value (c : ascii) : option Z := Z.of_nat <$> String.index 0 (String c "") base64_alphabet.

Definition unpack (a b c d : Z) : Z * Z * Z := ((a * 4 + b / 16) mod 256, (b * 16 + c / 4) mod 256, (c * 64 + d) mod 256).

Fixpoint base64_decode (s : string) : option (list Z) :=
  match s with
  | EmptyString => Some []
  | String a (String b (String c (String d s))) =>
    x ← base64_value a; y ← base64_value b;
    if Ascii.eqb c "="%char then Some [(unpack x y 0 0).1.1]
    else
      z ← base64_value c;
      if Ascii.eqb d "="%char then Some [(unpack x y z 0).1.1; (unpack x y z 0).1.2]
      else w ← base64_value d; rest ← base64_decode s; let '(p, q, r) := unpack x y z w in Some (p :: q :: r :: rest)
  | _ => None
  end.

(** ** Replacement *)

Lemma append_assoc (a b c : string) : (a ++ b) ++ c = a ++ (b ++ c).
Proof. induction a as [|x a IH]; [done|]. exact (f_equal _ IH). Qed.

Lemma append_nil_r (a : string) : a ++ "" = a.
Proof. induction a as [|x a IH]; [done|]. exact (f_equal _ IH). Qed.

Lemma string_length_app a b : String.length (a ++ b) = (String.length a + String.length b)%nat.
Proof. induction a as [|x a IH]; [done|]. exact (f_equal _ IH). Qed.

(** A prefix of [a ++ b] is one of [a], or goes beyond it. *)
Lemma prefix_app pat : forall a b, String.prefix pat (a ++ b) = true ->
  String.prefix pat a = true /\ (String.length pat <= String.length a)%nat \/ String.prefix a pat = true /\ (String.length a < String.length pat)%nat.
Proof.
  induction pat as [|x pat IH]; intros a b; [left; split; [by destruct a|cbn; lia]|]. destruct a as [|y a]; [right; split; [done|cbn; lia]|].
  change (String y a ++ b) with (String y (a ++ b)). cbn [String.prefix String.length]. destruct (ascii_dec x y) as [->|]; [|discriminate].
  destruct (ascii_dec y y) as [_|]; [|congruence]. intros [[H ?]|[H ?]]%IH; [left|right]; (split; [done|lia]).
Qed.

Lemma prefix_app_l pat : forall a b, String.prefix pat a = true -> String.prefix pat (a ++ b) = true.
Proof.
  induction pat as [|x pat IH]; intros a b; [by destruct a, b|]. destruct a as [|y a]; [done|].
  change (String y a ++ b) with (String y (a ++ b)). cbn [String.prefix]. destruct (ascii_dec x y); [apply IH|done].
Qed.

Lemma replace_from_app pat rep a : pat <> "" -> tight pat a = true -> forall skip b, (skip <= String.length a)%nat ->
  replace_from skip pat rep (a ++ b) = replace_from skip pat rep a ++ replace pat rep b.
Proof.
  intros Hpat. induction a as [|c a IH]; intros Ht skip b Hs.
  { cbn in Hs. replace skip with 0%nat by lia. done. }
  cbn [tight] in Ht. apply andb_true_iff in Ht as [Ht Hta]. specialize (IH Hta).
  change (String c a ++ b) with (String c (a ++ b)). cbn [replace_from]. cbn in Hs. destruct skip as [|k]; [|apply IH; lia].
  change (String c (a ++ b)) with (String c a ++ b). destruct (String.prefix pat (String c a ++ b)) eqn:E.
  - apply prefix_app in E as [[-> Hl]|[H1 H2]]; [|by rewrite H1, (proj2 (Nat.ltb_lt _ _) H2) in Ht].
    rewrite append_assoc. f_equal. apply IH. cbn in Hl. lia.
  - destruct (String.prefix pat (String c a)) eqn:E'; [by rewrite (prefix_app_l _ _ _ E') in E|]. exact (f_equal (String c) (IH 0%nat b ltac:(lia))).
Qed.

Lemma replace_app pat rep a b : pat <> "" -> tight pat a = true -> replace pat rep (a ++ b) = replace pat rep a ++ replace pat rep b.
Proof. intros. apply replace_from_app; [done|done|lia]. Qed.

Lemma replace_absent pat rep s : absent pat s = true -> replace pat rep s = s.
Proof.
  unfold replace. induction s as [|c s IH]; [done|]. cbn [absent replace_from]. intros [->%negb_true_iff H]%andb_true_iff. by rewrite IH.
Qed.

(** The parts of a text, each with what becomes of it. *)
Lemma replace_parts pat rep parts parts' : pat <> "" ->
  Forall2 (fun s s' => tight pat s = true /\ replace pat rep s = s') parts parts' -> replace pat rep (cat parts) = cat parts'.
Proof.
  intros Hp. induction 1 as [|s s' parts parts' [Ht Hr] _ IH]; [done|]. cbn [cat]. by rewrite replace_app, Hr, IH.
Qed.

(** A text without the first character of the pattern. *)
Lemma no_char_tight c pat s : has_char c s = false -> tight (String c pat) s = true /\ absent (String c pat) s = true.
Proof.
  induction s as [|d s IH]; [done|]. cbn [has_char]. intros [Hd Hs]%orb_false_iff. destruct (IH Hs) as [H1 H2]. apply Ascii.eqb_neq in Hd.
  cbn [tight absent String.prefix]. destruct (ascii_dec d c); [done|]. destruct (ascii_dec c d) as [->|]; [done|]. by rewrite H1, H2.
Qed.

Lemma has_char_app c a b : has_char c (a ++ b) = has_char c a || has_char c b.
Proof. induction a as [|x a IH]; [done|]. change (has_char c (String x a ++ b)) with (Ascii.eqb x c || has_char c (a ++ b)). by rewrite IH, orb_assoc. Qed.

(** ** Base64 *)

Lemma bits_below n lo i : 0 <= n <= i -> 0 <= lo < 2 ^ n -> Z.testbit lo i = false.
Proof.
  intros Hi Hlo. destruct (Z.eq_dec lo 0) as [->|]; [apply Z.bits_0|]. apply Z.bits_above_log2; [lia|].
  apply Z.log2_lt_pow2; [lia|]. apply (Z.lt_le_trans _ (2 ^ n)); [lia|]. apply Z.pow_le_mono_r; lia.
Qed.

Lemma lor_low hi n lo : 0 <= n -> 0 <= lo < 2 ^ n -> Z.lor (Z.shiftl hi n) lo = hi * 2 ^ n + lo.
Proof.
  intros Hn Hlo. assert (Z.land (Z.shiftl hi n) lo = 0) as E.
  { apply Z.bits_inj'. intros i Hi. rewrite Z.land_spec, Z.bits_0. destruct (Z.ltb_spec i n); [by rewrite Z.shiftl_spec_low|].
    rewrite (bits_below n lo i) by lia. apply andb_false_r. }
  rewrite <- Z.lxor_lor, <- Z.add_nocarry_lxor by done. by rewrite Z.shiftl_mul_pow2.
Qed.

Lemma base64_word a b c : is_byte a -> is_byte b -> is_byte c -> Z.lor (Z.lor (Z.shiftl a 16) (Z.shiftl b 8)) c = a * 65536 + b * 256 + c.
Proof.
  unfold is_byte. intros Ha Hb Hc. change 16 with (8 + 8). rewrite <- Z.shiftl_shiftl, <- Z.shiftl_lor by lia. rewrite !lor_low by (simpl; lia). simpl. lia.
Qed.

Lemma base64_index v : 0 <= v < 64 -> base64_value (base64_char v) = Some v /\ Ascii.eqb (base64_char v) "="%char = false /\ has_char "_"%char (String (base64_char v) "") = false.
Proof.
  intros Hv. assert (forallb (fun v => bool_decide (base64_value (base64_char v) = Some v) && negb (Ascii.eqb (base64_char v) "="%char)
    && negb (has_char "_"%char (String (base64_char v) ""))) (seqZ 0 64) = true) as H by (vm_compute; reflexivity).
  rewrite forallb_forall in H. specialize (H v). rewrite <- list_elem_of_In, elem_of_seqZ, !andb_true_iff, !negb_true_iff, bool_decide_eq_true in H.
  destruct H as [[H1 H2] H3]; [lia|done].
Qed.

(** The six bits of a place. *)
Lemma sextet_range word i : 0 <= Z.land (Z.shiftr word i) 63 < 64.
Proof. change 63 with (Z.ones 6). rewrite Z.land_ones by lia. apply Z.mod_pos_bound. done. Qed.

Lemma sextet word i : 0 <= i -> Z.land (Z.shiftr word i) 63 = word / 2 ^ i mod 64.
Proof. intros Hi. change 63 with (Z.ones 6). by rewrite Z.land_ones, Z.shiftr_div_pow2. Qed.

Lemma unpack_word a b c : is_byte a -> is_byte b -> is_byte c ->
  let w := a * 65536 + b * 256 + c in unpack (w / 2 ^ 18 mod 64) (w / 2 ^ 12 mod 64) (w / 2 ^ 6 mod 64) (w / 2 ^ 0 mod 64) = (a, b, c).
Proof.
  unfold is_byte, unpack. intros Ha Hb Hc. cbn zeta. change (2 ^ 18) with 262144. change (2 ^ 12) with 4096. change (2 ^ 6) with 64. change (2 ^ 0) with 1.
  f_equal; [f_equal|]; Z.to_euclidean_division_equations; lia.
Qed.

(** The characters of a chunk. *)
Lemma chunk_chars n a b c : is_byte a -> is_byte b -> is_byte c -> (1 <= n <= 3)%nat ->
  let w := a * 65536 + b * 256 + c in
  base64_chunk n a b c =
    String (base64_char (w / 2 ^ 18 mod 64)) (String (base64_char (w / 2 ^ 12 mod 64))
      (String (if (n <? 2)%nat then "="%char else base64_char (w / 2 ^ 6 mod 64)) (String (if (n <? 3)%nat then "="%char else base64_char (w / 2 ^ 0 mod 64)) ""))).
Proof.
  intros Ha Hb Hc Hn. unfold base64_chunk. rewrite base64_word by done. rewrite !sextet by done.
  destruct n as [|[|[|[|n]]]]; try lia; reflexivity.
Qed.

Lemma sextet_value v : base64_value (base64_char (v mod 64)) = Some (v mod 64).
Proof. apply base64_index, Z.mod_pos_bound. done. Qed.

Lemma sextet_char v : Ascii.eqb (base64_char (v mod 64)) "="%char = false.
Proof. apply base64_index, Z.mod_pos_bound. done. Qed.

Lemma quad_app a b c d s : String a (String b (String c (String d ""))) ++ s = String a (String b (String c (String d s))).
Proof. reflexivity. Qed.

Lemma decode_quad a b c d s : base64_decode (String a (String b (String c (String d s)))) =
  x ← base64_value a; y ← base64_value b;
  if Ascii.eqb c "="%char then Some [(unpack x y 0 0).1.1]
  else
    z ← base64_value c;
    if Ascii.eqb d "="%char then Some [(unpack x y z 0).1.1; (unpack x y z 0).1.2]
    else w ← base64_value d; rest ← base64_decode s; let '(p, q, r) := unpack x y z w in Some (p :: q :: r :: rest).
Proof. reflexivity. Qed.

(** A chunk decodes to its bytes. *)
Lemma decode_three a b c s : is_byte a -> is_byte b -> is_byte c ->
  base64_decode (base64_chunk 3 a b c ++ s) = rest ← base64_decode s; Some (a :: b :: c :: rest).
Proof.
  intros Ha Hb Hc. rewrite chunk_chars by (done || lia). pose proof (unpack_word a b c Ha Hb Hc) as E. cbv zeta in *.
  rewrite quad_app, decode_quad. cbn [Nat.ltb Nat.leb]. rewrite !sextet_value, !sextet_char. cbn [mbind option_bind]. by rewrite E.
Qed.

Lemma decode_two a b : is_byte a -> is_byte b -> base64_decode (base64_chunk 2 a b 0) = Some [a; b].
Proof.
  intros Ha Hb. assert (is_byte 0) as H0 by (unfold is_byte; lia). rewrite chunk_chars by (done || lia). pose proof (unpack_word a b 0 Ha Hb H0) as E. cbv zeta in *.
  rewrite decode_quad. cbn [Nat.ltb Nat.leb]. rewrite !sextet_value, !sextet_char. cbn [mbind option_bind]. unfold unpack in *. injection E as E1 E2 _.
  cbn [fst snd]. by rewrite E1, E2.
Qed.

Lemma decode_one a : is_byte a -> base64_decode (base64_chunk 1 a 0 0) = Some [a].
Proof.
  intros Ha. assert (is_byte 0) as H0 by (unfold is_byte; lia). rewrite chunk_chars by (done || lia). pose proof (unpack_word a 0 0 Ha H0 H0) as E. cbv zeta in *.
  rewrite decode_quad. cbn [Nat.ltb Nat.leb]. rewrite !sextet_value. cbn [mbind option_bind]. unfold unpack in *. injection E as E1 _ _. cbn [fst snd]. by rewrite E1.
Qed.

(** C37: The base64 text of any bytes, decoded by the rules of RFC 4648, gives the bytes back: the hashes of the
    content security policy of a report denote the digests they are computed from. *)
Theorem base64_roundtrip (bytes : list Z) : Forall is_byte bytes -> base64_decode (base64 bytes) = Some bytes.
Proof.
  enough (forall n bytes, (length bytes <= n)%nat -> Forall is_byte bytes -> base64_decode (base64 bytes) = Some bytes) as H by (by apply (H (length bytes))).
  clear bytes. intros n. induction n as [|n IH]; intros bytes Hn Hb; [by destruct bytes; [|simpl in Hn; lia]|].
  destruct bytes as [|a bytes]; [done|]. apply Forall_cons in Hb as [Ha Hb]. destruct bytes as [|b bytes]; [by apply decode_one|].
  apply Forall_cons in Hb as [Hb Hc]. destruct bytes as [|c bytes]; [by apply decode_two|]. apply Forall_cons in Hc as [Hc Hbs].
  change (base64 (a :: b :: c :: bytes)) with (base64_chunk 3 a b c ++ base64 bytes). rewrite decode_three by done.
  rewrite IH; [done|simpl in Hn; lia|done].
Qed.

(** A digest in base64 has no placeholder. *)
Lemma chunk_plain n a b c : has_char "_"%char (base64_chunk n a b c) = false.
Proof.
  unfold base64_chunk. set (w := Z.lor _ c).
  assert (forall i, has_char "_"%char (String (if Z.of_nat n <? i then "="%char else base64_char (Z.land (Z.shiftr w (18 - i * 6)) 63)) "") = false) as H.
  { intros i. case_match; [done|]. apply base64_index, sextet_range. }
  cbn [has_char] in *. pose proof (H 0) as H0. pose proof (H 1) as H1. pose proof (H 2) as H2. pose proof (H 3) as H3.
  rewrite orb_false_r in H0, H1, H2, H3. by rewrite H0, H1, H2, H3.
Qed.

Lemma base64_plain bytes : has_char "_"%char (base64 bytes) = false.
Proof.
  enough (forall n bytes, (length bytes <= n)%nat -> has_char "_"%char (base64 bytes) = false) as H by (by apply (H (length bytes))).
  clear bytes. intros n. induction n as [|n IH]; intros bytes Hn; [by destruct bytes; [|simpl in Hn; lia]|].
  destruct bytes as [|a [|b [|c bytes]]]; [done|apply chunk_plain|apply chunk_plain|].
  change (base64 (a :: b :: c :: bytes)) with (base64_chunk 3 a b c ++ base64 bytes). rewrite has_char_app, chunk_plain. apply IH. simpl in Hn. lia.
Qed.

(** What replacement leaves alone. *)
Definition keeps_part (pat rep s s' : string) : Prop := tight pat s = true /\ replace pat rep s = s'.

Lemma part_fixed pat rep s : tight pat s && absent pat s = true -> keeps_part pat rep s s.
Proof. intros [H1 H2]%andb_true_iff. split; [done|by apply replace_absent]. Qed.

Lemma part_plain c pat rep s : has_char c s = false -> keeps_part (String c pat) rep s s.
Proof. intros H. destruct (no_char_tight c pat s H) as [H1 H2]. apply part_fixed. by rewrite H1, H2. Qed.

Section page.
Context `{!Sha256}.

Lemma hash_plain text s : has_char "_"%char s = false -> has_char "_"%char (page_hash text ++ s) = false.
Proof. intros Hs. rewrite has_char_app, Hs, orb_false_r. apply base64_plain. Qed.

(** A part that has no placeholder, one that is a digest, and the placeholder itself. *)
Ltac fixed_part := apply part_fixed; vm_compute; reflexivity.
Ltac hash_part := apply part_plain, hash_plain; reflexivity.
Ltac placed_part := split; [vm_compute; reflexivity|match goal with |- replace _ ?r _ = _ => generalize r; intros; vm_compute; reflexivity end].

(** The shell, with each placeholder and the character after it. *)
Definition shell_parts (script_hash style_hash css data js : string) : list string :=
  [shell_0; script_hash ++ "'"; shell_1; style_hash ++ "'"; shell_2; css ++ "<"; shell_3; data ++ "<"; shell_4; js ++ "<"; shell_5].

Lemma shell_split : shell_html = cat (shell_parts "__SCRIPT_HASH__" "__STYLE_HASH__" "__CSS__" "__DATA__" "__SCRIPT__").
Proof. vm_compute. reflexivity. Qed.

Lemma replace_stage pat rep s0 s1 s2 s3 s4 s0' s1' s2' s3' s4' : pat <> "" ->
  Forall (fun s => tight pat s && absent pat s = true) [shell_0; shell_1; shell_2; shell_3; shell_4; shell_5] ->
  keeps_part pat rep (s0 ++ "'") (s0' ++ "'") -> keeps_part pat rep (s1 ++ "'") (s1' ++ "'") -> keeps_part pat rep (s2 ++ "<") (s2' ++ "<") ->
  keeps_part pat rep (s3 ++ "<") (s3' ++ "<") -> keeps_part pat rep (s4 ++ "<") (s4' ++ "<") ->
  replace pat rep (cat (shell_parts s0 s1 s2 s3 s4)) = cat (shell_parts s0' s1' s2' s3' s4').
Proof.
  intros Hp Hs H0 H1 H2 H3 H4. apply replace_parts; [done|]. unfold shell_parts.
  repeat (apply Forall_cons in Hs as [?%(part_fixed _ rep) Hs]). repeat (constructor; [assumption|]). constructor.
Qed.

Ltac stage := repeat (constructor; [vm_compute; reflexivity|]); constructor.

(** The five replacements, one after the other. *)
Section stages.
Context (data : Json).
Abbreviation script_hash := (page_hash page_js).
Abbreviation style_hash := (page_hash page_css).

Lemma stage_style : replace "__STYLE_HASH__" style_hash shell_html =
  cat (shell_parts "__SCRIPT_HASH__" style_hash "__CSS__" "__DATA__" "__SCRIPT__").
Proof.
  rewrite shell_split. apply replace_stage; [done|stage|fixed_part|placed_part|fixed_part|fixed_part|fixed_part].
Qed.

Lemma stage_script_hash : replace "__SCRIPT_HASH__" script_hash (cat (shell_parts "__SCRIPT_HASH__" style_hash "__CSS__" "__DATA__" "__SCRIPT__")) =
  cat (shell_parts script_hash style_hash "__CSS__" "__DATA__" "__SCRIPT__").
Proof. apply replace_stage; [done|stage|placed_part|hash_part|fixed_part|fixed_part|fixed_part]. Qed.

Lemma stage_css : replace "__CSS__" page_css (cat (shell_parts script_hash style_hash "__CSS__" "__DATA__" "__SCRIPT__")) =
  cat (shell_parts script_hash style_hash page_css "__DATA__" "__SCRIPT__").
Proof. apply replace_stage; [done|stage|hash_part|hash_part|placed_part|fixed_part|fixed_part]. Qed.

Lemma stage_script : replace "__SCRIPT__" page_js (cat (shell_parts script_hash style_hash page_css "__DATA__" "__SCRIPT__")) =
  cat (shell_parts script_hash style_hash page_css "__DATA__" page_js).
Proof. apply replace_stage; [done|stage|hash_part|hash_part|fixed_part|fixed_part|placed_part]. Qed.

Lemma stage_data : replace "__DATA__" (script_json data) (cat (shell_parts script_hash style_hash page_css "__DATA__" page_js)) =
  cat (shell_parts script_hash style_hash page_css (script_json data) page_js).
Proof. apply replace_stage; [done|stage|hash_part|hash_part|fixed_part|placed_part|fixed_part]. Qed.

Lemma page_parts : html data = cat (shell_parts script_hash style_hash page_css (script_json data) page_js).
Proof.
  unfold html.
  exact (eq_trans (f_equal _ (eq_trans (f_equal _ (eq_trans (f_equal _ (eq_trans (f_equal _ stage_style) stage_script_hash)) stage_css)) stage_script)) stage_data).
Qed.
End stages.

(** *** Text that is inert in a page *)

Lemma replace_no_char c pat rep s : has_char c rep = false -> forall skip, has_char c s = false -> has_char c (replace_from skip pat rep s) = false.
Proof.
  intros Hr. induction s as [|d s IH]; intros skip; [done|]. cbn [has_char]. intros [Hd Hs]%orb_false_iff. cbn [replace_from].
  destruct skip; [|by apply IH]. destruct (String.prefix pat (String d s)); [rewrite has_char_app, Hr; by apply IH|]. cbn [has_char]. rewrite Hd. by apply IH.
Qed.

Lemma replace_char_gone c rep s : has_char c rep = false -> has_char c (replace (String c "") rep s) = false.
Proof.
  intros Hr. unfold replace. induction s as [|d s IH]; [done|]. cbn [replace_from String.prefix String.length Nat.sub].
  destruct (ascii_dec c d) as [|Hne]; [assert (String.prefix "" s = true) as -> by (by destruct s); rewrite has_char_app, Hr; exact IH|]. cbn [has_char]. by rewrite (proj2 (Ascii.eqb_neq d c)) by congruence.
Qed.

Lemma script_json_inert data c : c ∈ ["&"%char; "<"%char; ">"%char] -> has_char c (script_json data) = false.
Proof.
  unfold script_json. intros Hc. rewrite !elem_of_cons, elem_of_nil in Hc.
  destruct Hc as [->|[->|[->|[]]]]; repeat first [by apply replace_char_gone | apply replace_no_char; [done|]].
Qed.

(** What stands around the parts that are put in. *)
Definition quote : string := String (ascii_of_N 34) "".

Definition shell_context : Prop :=
  (exists a, shell_0 = a ++ "script-src 'sha256-") /\ shell_1 = "; style-src 'sha256-" /\ (exists a, shell_2 = a ++ "<style>") /\
  (exists a, shell_3 = "/style>" ++ a ++ "<script id=" ++ quote ++ "report-data" ++ quote ++ " type=" ++ quote ++ "application/json" ++ quote ++ ">") /\
  shell_4 = "/script><script>" /\ (exists a, shell_5 = "/script>" ++ a).

Lemma shell_around : shell_context.
Proof.
  unfold shell_context. split_and!.
  - exists (before "script-src 'sha256-" shell_0). vm_compute. reflexivity.
  - vm_compute. reflexivity.
  - exists (before "<style>" shell_2). vm_compute. reflexivity.
  - exists (before "<script id" (after "/style>" shell_3)). vm_compute. reflexivity.
  - vm_compute. reflexivity.
  - exists (after "/script>" shell_5). vm_compute. reflexivity.
Qed.

(** C29: The page of any report is the shell with each placeholder filled once: the hashes of the very script and
    style that are embedded in the policy, the style, the data and the script in their elements, and nothing that the
    data contain is taken for a placeholder; the embedded data contain none of the characters that could end their
    script element. *)
Theorem page_exact (data : Json) :
  html data = cat (shell_parts (page_hash page_js) (page_hash page_css) page_css (script_json data) page_js) /\
  shell_context /\
  forall c, c ∈ ["&"%char; "<"%char; ">"%char] -> has_char c (script_json data) = false.
Proof. split_and!; [apply page_parts|apply shell_around|intros c; apply script_json_inert]. Qed.
End page.

(** *** A page that is checked *)

Lemma base64_roundtrip_witness : base64_decode (base64 [77; 97; 110; 0; 255]) = Some [77; 97; 110; 0; 255].
Proof. apply (base64_roundtrip [77; 97; 110; 0; 255]). apply (bool_decide_unpack _). vm_compute. exact Logic.I. Defined.
