(* ===== verification/ReplayTool.v ===== *)
(** * The replay tool: the commands of [fxp-replay]

    What the tool does with a bundle: [execute] of replay_cli.rs for verify, diff,
    timeline, explain and export, [execute] and [save] of replay_cli/report/mod.rs
    for report, and the exit codes of [run] where no resource limit is asked for. *)

From S2P Require Import Prelude BTree Text Bytes Json Order Session SymbolConfig Proto Reports EventLog Canonical Digest Trace Recording Journal Bundle.
From Stdlib Require Import Ascii.
From S2P Require Import ReplayCli Report.

Local Open Scope string_scope.
Local Open Scope Z_scope.

(** ** Definitions *)

(** *** Saving a report *)

(** What the operating system says of a path: the canonical components of a
    directory, whether a path names a directory, the process and the clock. *)
Class Host := {
  canonicalize : bool * list string -> result (list string) string;
  is_directory : string -> bool;
  process_id : Z;
  subsec_nanos : Z -> Z;
}.

(** The errors a file operation may meet, by what it says; a write stops after
    some of the bytes. *)
Record Faults : Type := mkFaults {
  ft_create : option string;
  ft_write : option (nat * string);
  ft_rename : option string;
  ft_remove : bool;
}.

Definition no_faults : Faults := mkFaults None None None false.

Definition exists_text : string := "File exists".
Definition directory_text : string := "Is a directory".

Definition path_text (parts : list string) : string := "/" ++ join_with "/" parts.

(** [Path::parent], or the current directory. *)
Definition parent_of (path : string) : bool * list string :=
  let '(root, parts) := path_parts path in
  match removelast parts with
  | [] => if root && negb (is_nil parts) then (true, []) else (false, ["."])
  | parts => (root, parts)
  end.

(** The entry of a path in its canonical directory. *)
Definition entry_in (parent : list string) (path : string) : string := path_text (parent ++ [default "" (last (path_parts path).2)])%list.

Fixpoint starts_with (path base : list string) : bool :=
  match base, path with
  | [], _ => true
  | b :: base, p :: path => String.eqb p b && starts_with path base
  | _ :: _, [] => false
  end.

Definition fs_remove (name : string) (fs : Fs) : Fs := mkFs (fs_files fs) (delete name (fs_dir fs)) (fs_durable fs).

Section save.
Context `{!Host}.

Definition temp_name (parent : list string) (attempt : Z) : string :=
  let name := ".fxp-report-" ++ print_dec process_id ++ "-" ++ print_dec (subsec_nanos attempt) ++ "-" ++ print_dec attempt ++ ".tmp" in
  path_text (parent ++ [name])%list.

Definition cannot_write (path why : string) : string := "cannot write " ++ path ++ ": " ++ why.

Definition already_exists (path : string) : string := path ++ " already exists; choose another path or pass --force".

(** The loop that opens a new file: attempts 0 to 16 at a temporary name where the
    report replaces one, the report's own name otherwise. *)
Fixpoint open_target (fuel : nat) (f : Faults) (found : bool) (parent : list string) (path : string) (attempt : Z) (fs : Fs) : outcome (result (string * Fs) string) :=
  match fuel with
  | O => OutOfFuel
  | S fuel =>
    let target := if found then temp_name parent attempt else entry_in parent path in
    match ft_create f with
    | Some why => Done (Err (cannot_write path why))
    | None =>
      match fs_step (CreateNew target) fs with
      | Some fs => Done (Ok (target, fs))
      | None =>
        if found && (attempt <? 16) then open_target fuel f found parent path (attempt + 1) fs
        else if negb found then Done (Err (already_exists path))
        else Done (Err (cannot_write path exists_text))
      end
    end
  end.

(** [remove_file], whose error is ignored. *)
Definition clean_up (f : Faults) (target : string) (fs : Fs) : Fs := if ft_remove f then fs else fs_remove target fs.

Definition write_target (f : Faults) (target : string) (bytes : list Z) (fs : Fs) : result Fs string * Fs :=
  match ft_write f with
  | Some (k, why) => (Err why, default fs (fs_step (WriteAll target (take k bytes)) fs))
  | None =>
    let fs := default fs (fs_step (WriteAll target bytes) fs) in
    let fs := default fs (fs_step (SyncFile target) fs) in
    (Ok fs, fs)
  end.

(** The file once it is open. *)
Definition fill_target (f : Faults) (found : bool) (parent : list string) (path target : string) (bytes : list Z) (fs : Fs) : result unit string * Fs :=
  match write_target f target bytes fs with
  | (Err why, fs) => (Err (cannot_write path why), clean_up f target fs)
  | (Ok _, fs) =>
    if negb found then (Ok tt, fs)
    else
      match (if is_directory path then Some directory_text else ft_rename f) with
      | Some why => (Err ("cannot replace " ++ path ++ ": " ++ why), clean_up f target fs)
      | None => (Ok tt, default fs (fs_step (Rename target (entry_in parent path)) fs))
      end
  end.

(** [save]. *)
Definition save (f : Faults) (path bundle : string) (bytes : list Z) (force : bool) (fs : Fs) : outcome (result unit string * Fs) :=
  match canonicalize (parent_of path) with
  | Err why => Done (Err (cannot_write path why), fs)
  | Ok parent =>
    match canonicalize (path_parts bundle) with
    | Err why => Done (Err why, fs)
    | Ok base =>
      if starts_with parent base then Done (Err "report output must be outside the bundle", fs)
      else
        let found := is_directory path || bool_decide (is_Some (fs_dir fs !! entry_in parent path)) in
        if found && negb force then Done (Err (already_exists path), fs)
        else
          let* opened := open_target 17 f found parent path 0 fs in
          match opened with
          | Err e => Done (Err e, fs)
          | Ok (target, fs) => Done (fill_target f found parent path target bytes fs)
          end
    end
  end.
End save.

(** *** Commands *)

(** What a command writes to its two outputs, and its exit code or error. *)
Record Shown : Type := mkShown { sh_out : string; sh_err : string; sh_code : result Z string }.

Definition ln (s : string) : string := s ++ nl.

Definition show_bool (b : bool) : string := if b then "true" else "false".

Definition fails (e : string) : Shown := mkShown "" "" (Err e).

Definition shows (out err : string) (code : Z) : Shown := mkShown out err (Ok code).

Definition json_same (a b : option Json) : bool :=
  match a, b with Some a, Some b => json_eqb a b | None, None => true | _, _ => false end.

Section commands.
Context `{!Sha256, !Build}.
Context `{!Wire Report, !Wire TradeCapture, !Wire SessionStatus, !Wire AuctionInfo}.
Context `{!Wire NewOrderSingle, !Wire OrderCancelRequest, !Wire OrderCancelReplaceRequest, !Wire OrderMassCancelRequest, !Wire SessionControl}.
Context `{!Wire LogRecord}.

Definition identical_line (s : RunSummary) : string :=
  ln ("IDENTICAL events=" ++ print_dec (ed_count (rs_global s)) ++ " symbols=" ++ print_dec (Z.of_nat (length (rs_symbols s))) ++
      " global=" ++ ed_sha256 (rs_global s) ++ " state=" ++ rs_final_state s).

(** The command [verify]. *)
Definition run_verify (run : Inspection) : outcome Shown :=
  if negb (in_complete run) then Done (fails "incomplete bundle: replay ran but cannot verify")
  else if in_diverged run then
    let detail := match in_expected_rows run with
      | Some expected => divergence expected (in_rows run)
      | None => json_object [("global_seq", JNull); ("symbol", JNull); ("input", JNull); ("expected_event", JNull); ("actual_event", JNull);
                             ("detail", JString legacy_detail)]
      end in
    let* expected := expect (in_expected run) in
    Done (shows (ln ("DIVERGENCE " ++ json_encode detail) ++
                 ln ("expected=" ++ json_encode expected ++ " actual=" ++ json_encode (summary_json (in_summary run)))) "" 1)
  else Done (shows (identical_line (in_summary run)) "" 0).

Definition diff_warning : string := "warning: current replay diverged from a recorded expectation; comparing historical source events".

(** The line on the final states, of the text output. *)
Definition state_line (expected actual : Json) : result string string :=
  try* a := json_get "final_state_sha256" expected in
  try* a := json_text a in
  try* b := json_get "final_state_sha256" actual in
  try* b := json_text b in
  Ok (if String.eqb a b then "" else ln ("final_state expected=" ++ a ++ " actual=" ++ b)).

(** The command [diff]. *)
Definition run_diff (json : bool) (run other : Inspection) : outcome Shown :=
  if negb (in_complete run) || negb (in_complete other) then Done (fails "diff requires complete bundles")
  else
    let a := source_rows run in
    let b := source_rows other in
    let err := if in_diverged run || in_diverged other then ln diff_warning else "" in
    let different := negb (json_eqb (JArray a) (JArray b)) || negb (json_same (in_expected run) (in_expected other)) in
    let* expected := expect (in_expected run) in
    let* actual := expect (in_expected other) in
    let first := if different then divergence a b else JNull in
    if json then
      Done (shows (ln (json_encode (json_object [("different", JBool different); ("first_divergence", first); ("A", stats a); ("B", stats b);
              ("expected_summary", expected); ("actual_summary", actual)]))) err (bit different))
    else
      let out := ln ((if different then "DIVERGENCE " ++ json_encode first else "IDENTICAL") ++ nl ++
                     "A " ++ json_encode (stats a) ++ nl ++ "B " ++ json_encode (stats b)) in
      Done (match state_line expected actual with
            | Err e => mkShown out err (Err e)
            | Ok l => shows (out ++ l) err (bit different)
            end).

(** The warnings before a timeline. *)
Definition view_warnings (run : Inspection) : string :=
  (if in_complete run then "" else ln "warning: incomplete bundle; committed prefix only, unverified") ++
  (if in_diverged run then ln ("warning: replay diverged; displaying " ++ source run ++ " events") else "").

Definition verified (run : Inspection) : bool := in_complete run && negb (in_diverged run).

Definition view_title (name : string) (run : Inspection) : string := ln (name ++ " source=" ++ source run ++ " verified=" ++ show_bool (verified run)).

Definition view_json (first : list (string * Json)) (run : Inspection) (rest : list (string * Json)) : string :=
  ln (json_encode (json_object (first ++ [("source", JString (source run)); ("verified", JBool (verified run))] ++ rest)%list)).

(** [explain] without an order. *)
Definition explain_all (run : Inspection) (o : Options) (path : string) (rows : list Json) : string :=
  let orders := notable_orders rows in
  if o_json o then view_json [] run [("orders", JArray (notable_json <$> orders))]
  else
    view_title "explain" run ++ (if is_nil orders then ln "No fills, rejects or cancels in this scope." else "") ++
    String.concat "" ((fun n => ln (notable_text n)) <$> orders) ++ ln ("Explain one with: fxp-replay explain " ++ path ++ " --order ID").

(** [explain] of one order. *)
Definition explain_one (run : Inspection) (o : Options) (order : string) (rows : list Json) : outcome (result string string) :=
  if is_nil rows then Done (Err "order not found in selected scope")
  else
    let* text := explanation rows order in
    Done (Ok (if o_json o then view_json [("order_id", JString order)] run [("summary", JString text); ("events", JArray rows)]
              else view_title "explain" run ++ text)).

(** [timeline] and [export]. *)
Definition timeline (run : Inspection) (o : Options) (rows : list Json) : string :=
  if o_json o then view_json [("schema", JString "fxp-timeline-v1")] run [("events", JArray rows)]
  else if o_jsonl o then String.concat "" ((fun r => ln (json_encode r)) <$> rows)
  else view_title "timeline" run ++ String.concat "" ((fun r => ln (line r (in_config run))) <$> rows).

(** The commands that show rows. *)
Definition run_view (run : Inspection) (o : Options) (path : string) : outcome Shown :=
  let err := view_warnings run in
  let* rows := selected (source_rows run) o in
  if String.eqb (o_command o) "explain" then
    match o_order o with
    | None => Done (shows (explain_all run o path rows) err 0)
    | Some order =>
      let* text := explain_one run o order rows in
      Done (match text with Ok text => shows text err 0 | Err e => mkShown "" err (Err e) end)
    end
  else Done (shows (timeline run o rows) err 0).

(** What a command does with the bundle it has inspected. *)
Definition run_command (bundles : string -> option Files) (o : Options) (run : Inspection) : outcome Shown :=
  if String.eqb (o_command o) "verify" then run_verify run
  else if String.eqb (o_command o) "diff" then
    let* second := expect (o_paths o !! 1%nat) in
    let* other := inspect_bundle (bundles second) in
    match other with Ok other => run_diff (o_json o) run other | Err e => Done (fails e) end
  else
    let* path := expect (head (o_paths o)) in
    run_view run o path.

(** [execute] of the commands other than report. *)
Definition execute_command (bundles : string -> option Files) (args : list string) : outcome Shown :=
  match parse_options args with
  | Err e => Done (fails e)
  | Ok o =>
    let* path := expect (head (o_paths o)) in
    let* run := inspect_bundle (bundles path) in
    match run with Ok run => run_command bundles o run | Err e => Done (fails e) end
  end.

Context `{!Host}.

(** One of the two files of a report. *)
Definition save_as (label : string) (f : Faults) (path : option string) (c : Config) (text : result string string) (fs : Fs)
    : outcome (result string string * Fs) :=
  match path with
  | None => Done (Ok "", fs)
  | Some p =>
    match text with
    | Err e => Done (Err e, fs)
    | Ok text =>
      let* saved := save f p (cf_bundle c) (bytes_of text) (cf_force c) fs in
      Done (match saved.1 with Ok _ => Ok (ln (label ++ " report: " ++ p)) | Err e => Err e end, saved.2)
    end
  end.

(** [execute] of the report. *)
Definition execute_report (bundles : string -> option Files) (f : Faults * Faults) (args : list string) (fs : Fs) : outcome (Shown * Fs) :=
  match report_options args with
  | Err e => Done (fails e, fs)
  | Ok c =>
    let* report := generate c (bundles (cf_bundle c)) in
    match report with
    | Err e => Done (fails e, fs)
    | Ok (data, code) =>
      let* page := save_as "HTML" f.1 (cf_html c) c (bounded_html data MAX_HTML) fs in
      match page with
      | (Err e, fs) => Done (fails e, fs)
      | (Ok out, fs) =>
        let* text := save_as "JSON" f.2 (cf_json c) c (Ok (json_encode data)) fs in
        Done (match text with
              | (Err e, fs) => (mkShown out "" (Err e), fs)
              | (Ok out', fs) => (shows (out ++ out') "" code, fs)
              end)
      end
    end
  end.

(** [execute]. *)
Definition execute_tool (bundles : string -> option Files) (f : Faults * Faults) (args : list string) (fs : Fs) : outcome (Shown * Fs) :=
  match args with
  | first :: rest =>
    if String.eqb first "report" then execute_report bundles f rest fs
    else let* shown := execute_command bundles args in Done (shown, fs)
  | [] => let* shown := execute_command bundles [] in Done (shown, fs)
  end.

(** What [run] leaves: the two outputs and the exit code. *)
Record Finished : Type := mkFinished { fin_out : string; fin_err : string; fin_code : Z }.

(** An argument that [Limits::extract] takes for a resource limit, with its
    value after an equals sign or in the next argument. *)
Definition limit_argument (arg : string) : bool :=
  let name := match split_once "="%char arg with Some (k, _) => k | None => arg end in
  bool_decide (name ∈ ["--max-events"; "--max-bytes"; "--max-wall-seconds"; "--max-memory-mb"]).

(** [run] where no argument is a [limit_argument], so that [Limits::extract] gives
    the arguments back and no budget is set, and both output streams take
    everything that is written to them. *)
Definition run_tool (bundles : string -> option Files) (f : Faults * Faults) (args : list string) (fs : Fs) : outcome (Finished * Fs) :=
  if bool_decide (args = ["--help"]) || bool_decide (args = ["-h"]) then Done (mkFinished (ln USAGE) "" 0, fs)
  else
    let* done := execute_tool bundles f args fs in
    let '(shown, fs) := done in
    Done (match sh_code shown with
          | Ok code => mkFinished (sh_out shown) (sh_err shown) code
          | Err e => mkFinished (sh_out shown) (sh_err shown ++ ln ("invalid: " ++ e)) 2
          end, fs).
End commands.
