(* ===== verification/ReportSave.v ===== *)
(** * Writing a report: [save] of replay_cli/report/mod.rs

    A report never lands in the bundle, never replaces a file unless told to, and
    whatever fails on the way, the file that was there before is still there. *)

From S2P Require Import Prelude BTree Text Bytes Json Digest Trace Recording BundleFiles Bundle ReplayCli Report ReplayTool.

Local Open Scope string_scope.
Local Open Scope Z_scope.

(** ** Definitions *)

Definition is_err {A B : Type} (r : result A B) : bool := match r with Ok _ => false | Err _ => true end.

(** What saving [bytes] as [entry] may leave. *)
Record saved (entry : string) (bytes : list Z) (res : result unit string) (fs fs' : Fs) : Prop := {
  sv_wf : fs_wf fs';
  sv_done : res = Ok tt -> fs_read entry fs' = Some bytes;
  sv_failed : is_err res = true -> is_Some (fs_dir fs !! entry) -> fs_read entry fs' = fs_read entry fs;
  sv_crash found : is_Some (fs_dir fs !! entry) -> crashed fs' entry found -> found = Some bytes \/ crashed fs entry found;
  sv_others name : name <> entry -> is_Some (fs_dir fs !! name) -> fs_read name fs' = fs_read name fs /\ keeps name fs fs';
}.

(** ** The states on the way *)

Section states.
Context (fs : Fs) (Hwf : fs_wf fs) (target : string) (Hnew : fs_dir fs !! target = None).

Abbreviation n := (length (fs_files fs)).

Definition opened (f : File) : Fs := mkFs (fs_files fs ++ [f])%list (<[target := n]> (fs_dir fs)) (fs_durable fs).
Definition removed (f : File) : Fs := mkFs (fs_files fs ++ [f])%list (delete target (<[target := n]> (fs_dir fs))) (fs_durable fs).
Definition replaced (entry : string) (f : File) : Fs :=
  mkFs (fs_files fs ++ [f])%list (<[entry := n]> (delete target (<[target := n]> (fs_dir fs)))) (fs_durable fs).

Lemma read_appended name f dir : is_Some (fs_dir fs !! name) -> dir !! name = fs_dir fs !! name ->
  fs_read name (mkFs (fs_files fs ++ [f])%list dir (fs_durable fs)) = fs_read name fs /\ keeps name fs (mkFs (fs_files fs ++ [f])%list dir (fs_durable fs)).
Proof using Hwf.
  intros [m Hm] Hd. split.
  - unfold fs_read, fs_lookup. simpl. rewrite Hd, Hm. simpl. rewrite lookup_app_l; [done|]. apply (Hwf name). auto.
  - apply appended_keeps; rewrite ?Hd; auto.
Qed.

Lemma read_new name f dir : dir !! name = Some n -> fs_read name (mkFs (fs_files fs ++ [f])%list dir (fs_durable fs)) = Some (f_written f).
Proof. intros Hd. unfold fs_read, fs_lookup. simpl. rewrite Hd. simpl. by rewrite lookup_app_r, Nat.sub_diag by lia. Qed.

Lemma not_target name : is_Some (fs_dir fs !! name) -> target <> name.
Proof using Hnew. intros [m Hm] <-. congruence. Qed.

Lemma kept_opened name : is_Some (fs_dir fs !! name) -> <[target := n]> (fs_dir fs) !! name = fs_dir fs !! name.
Proof using Hnew. intros Hn. by rewrite lookup_insert_ne by (by apply not_target). Qed.

Lemma kept_removed name : is_Some (fs_dir fs !! name) -> delete target (<[target := n]> (fs_dir fs)) !! name = fs_dir fs !! name.
Proof using Hnew. intros Hn. rewrite lookup_delete_ne by (by apply not_target). by apply kept_opened. Qed.

Lemma appended_wf f dir : (forall x m, dir !! x = Some m -> m = n \/ fs_dir fs !! x = Some m) -> fs_wf (mkFs (fs_files fs ++ [f])%list dir (fs_durable fs)).
Proof using Hwf. intros Hd. apply states_wf; [done| |auto]. intros x m Hx. destruct (Hd x m Hx); auto. Qed.

(** A file that was not there, written or not, removed or not. *)
Lemma saved_opened bytes res f : (res = Ok tt -> f_written f = bytes) -> saved target bytes res fs (opened f).
Proof using Hwf Hnew.
  intros Hf. split.
  - apply appended_wf. intros x m. rewrite lookup_insert_Some. naive_solver.
  - intros Hr. unfold opened. rewrite read_new by apply lookup_insert_eq. by rewrite Hf.
  - intros _ [m Hm]. congruence.
  - intros found [m Hm]. congruence.
  - intros name _ Hs. apply read_appended; [done|by apply kept_opened].
Qed.

Lemma removed_wf f : fs_wf (removed f).
Proof using Hwf.
  apply appended_wf. intros x m. rewrite lookup_delete_Some, lookup_insert_Some. naive_solver.
Qed.

(** The temporary file failed: the old one stays. *)
Lemma saved_aside entry bytes e f : saved entry bytes (Err e) fs (opened f) /\ saved entry bytes (Err e) fs (removed f).
Proof using Hwf Hnew.
  assert (forall dir, (forall name, is_Some (fs_dir fs !! name) -> dir !! name = fs_dir fs !! name) -> fs_wf (mkFs (fs_files fs ++ [f])%list dir (fs_durable fs)) ->
    saved entry bytes (Err e) fs (mkFs (fs_files fs ++ [f])%list dir (fs_durable fs))) as H.
  { intros dir Hd Hw. split; [done|done| | |].
    - intros _ Hs. apply read_appended; auto.
    - intros found Hs Hc. right. by apply (read_appended entry f dir); auto.
    - intros name _ Hs. apply read_appended; auto. }
  split; apply H; [apply kept_opened| |apply kept_removed|apply removed_wf].
  apply appended_wf. intros x m. rewrite lookup_insert_Some. naive_solver.
Qed.

(** The temporary file takes the place of the old one. *)
Lemma saved_replaced entry bytes : is_Some (fs_dir fs !! entry) -> saved entry bytes (Ok tt) fs (replaced entry (mkFile bytes (length bytes))).
Proof using Hwf Hnew.
  intros Hs. split.
  - apply appended_wf. intros x m. rewrite lookup_insert_Some, lookup_delete_Some, lookup_insert_Some. naive_solver.
  - intros _. unfold replaced. by rewrite read_new by apply lookup_insert_eq.
  - done.
  - intros found _ (e & He & Hf). simpl in He. rewrite lookup_insert_eq in He. destruct He as [->| ->].
    + left. destruct Hf as (g & k & Hg & Hk & ->). simpl in Hg. rewrite lookup_app_r, Nat.sub_diag in Hg by lia. injection Hg as <-. simpl in *. by rewrite take_ge by lia.
    + right. exists (fs_durable fs !! entry). split; [by right|]. destruct (fs_durable fs !! entry) as [m|] eqn:E; [|done]. simpl in Hf.
      rewrite lookup_app_l in Hf; [done|]. apply (Hwf entry). auto.
  - intros name Hne Hn. apply read_appended; [done|]. rewrite lookup_insert_ne by done. by apply kept_removed.
Qed.

(** *** The operations *)

Lemma create_target : fs_step (CreateNew target) fs = Some (opened (mkFile [] 0)).
Proof using Hnew. cbn [fs_step]. by rewrite Hnew. Qed.

Lemma update_target g f : fs_update target g (opened f) = Some (opened (g f)).
Proof. unfold fs_update, opened. cbn [fs_dir fs_files fs_durable]. rewrite lookup_insert_eq. f_equal. f_equal. apply alter_last. Qed.

Lemma write_target_spec f bytes :
  match write_target f target bytes (opened (mkFile [] 0)) with
  | (Ok _, fs') => fs' = opened (mkFile bytes (length bytes))
  | (Err _, fs') => exists k, fs' = opened (mkFile (take k bytes) 0)
  end.
Proof.
  unfold write_target. cbn [fs_step]. destruct (ft_write f) as [[k why]|]; rewrite update_target; cbn [from_option id]; [by exists k|]. by rewrite update_target.
Qed.

Lemma clean_up_spec f g : clean_up f target (opened g) = opened g \/ clean_up f target (opened g) = removed g.
Proof. unfold clean_up. destruct (ft_remove f); auto. Qed.

Lemma rename_target entry g : fs_step (Rename target entry) (opened g) = Some (replaced entry g).
Proof. cbn [fs_step opened fs_dir fs_files fs_durable]. by rewrite lookup_insert_eq. Qed.
End states.

(** ** Saving *)

Section save.
Context `{!Host}.

(** Seventeen attempts are the most there are. *)
Lemma open_target_spec fuel f found parent path attempt fs : 0 <= attempt <= 16 -> 17 - attempt <= Z.of_nat fuel ->
  exists res, open_target fuel f found parent path attempt fs = Done res /\
    match res with
    | Ok (target, fs') => fs_dir fs !! target = None /\ fs' = opened fs target (mkFile [] 0) /\ (found = false -> target = entry_in parent path)
    | Err _ => True
    end.
Proof.
  revert attempt. induction fuel as [|fuel IH]; intros attempt Ha Hf; [lia|]. cbn [open_target].
  destruct (ft_create f); [by eexists|]. set (target := if found then _ else _). destruct (fs_dir fs !! target) as [m|] eqn:Et.
  - cbn [fs_step]. rewrite Et. destruct (found && (attempt <? 16)) eqn:E; [|by destruct (negb found); eexists].
    apply andb_true_iff in E as [_ E%Z.ltb_lt]. apply IH; lia.
  - rewrite create_target by done. eexists. split; [done|]. split_and!; [done|done|]. by intros ->.
Qed.

Lemma fill_target_spec f found parent path target bytes fs : fs_wf fs -> fs_dir fs !! target = None ->
  (found = false -> target = entry_in parent path) -> (found = true -> is_directory path = false -> is_Some (fs_dir fs !! entry_in parent path)) ->
  let '(res, fs') := fill_target f found parent path target bytes (opened fs target (mkFile [] 0)) in saved (entry_in parent path) bytes res fs fs'.
Proof.
  intros Hwf Hnew Hentry Hfound. unfold fill_target. pose proof (write_target_spec fs target f bytes) as Hw.
  assert (forall e g, saved (entry_in parent path) bytes (Err e) fs (clean_up f target (opened fs target g))) as Hfail.
  { intros e g. destruct (saved_aside fs Hwf target Hnew (entry_in parent path) bytes e g) as [H1 H2]. by destruct (clean_up_spec fs target f g) as [-> | ->]. }
  destruct (write_target f target bytes _) as [[x|why] fs']; [subst fs'|destruct Hw as [k ->]; by apply Hfail].
  destruct found; cbn [negb].
  - destruct (is_directory path) eqn:Ed; [by apply Hfail|]. destruct (ft_rename f); [by apply Hfail|].
    rewrite rename_target. cbn [from_option id]. apply saved_replaced; [done|done|by apply Hfound].
  - rewrite <- Hentry by done. by apply saved_opened.
Qed.

Lemma saved_nothing entry bytes e fs : fs_wf fs -> saved entry bytes (Err e) fs fs.
Proof. intros Hwf. split; try done; [by right|]. intros name _ _. split; [done|apply keeps_refl]. Qed.

Lemma save_spec (f : Faults) (path bundle : string) (bytes : list Z) (force : bool) (fs : Fs) : fs_wf fs ->
  exists res fs', save f path bundle bytes force fs = Done (res, fs') /\
    match canonicalize (parent_of path) with
    | Err _ => is_err res = true /\ fs' = fs
    | Ok parent =>
      saved (entry_in parent path) bytes res fs fs' /\
      (is_Some (fs_dir fs !! entry_in parent path) -> force = false -> is_err res = true /\ fs' = fs) /\
      (forall base, canonicalize (path_parts bundle) = Ok base -> starts_with parent base = true -> is_err res = true /\ fs' = fs)
    end.
Proof.
  intros Hwf. unfold save. destruct (canonicalize (parent_of path)) as [parent|why]; [|by do 2 eexists].
  destruct (canonicalize (path_parts bundle)) as [base|why]; [|by do 2 eexists; split_and!; [done|by apply saved_nothing|done|done]].
  destruct (starts_with parent base) eqn:Eb; [by do 2 eexists; split_and!; [done|by apply saved_nothing|done|done]|].
  set (found := is_directory path || _). destruct (found && negb force) eqn:E; [by do 2 eexists; split_and!; [done|by apply saved_nothing|done|done]|].
  destruct (open_target_spec 17 f found parent path 0 fs) as (res & -> & Hres); [lia|lia|]. cbn [obind].
  assert (forall base', (Ok base : result (list string) string) = Ok base' -> starts_with parent base' = true -> False) as Hin by (intros base' [= <-]; congruence).
  assert (is_Some (fs_dir fs !! entry_in parent path) -> force = false -> False) as Hold.
  { intros Hs ->. subst found. rewrite bool_decide_eq_true_2, orb_true_r in E by done. discriminate. }
  destruct res as [[target fs1]|e]; [|do 2 eexists; split_and!; [done|by apply saved_nothing|by intros ? []%Hold|by intros b' Hb []%(Hin b' Hb)]].
  destruct Hres as (Hnew & -> & Hentry). pose proof (fill_target_spec f found parent path target bytes fs Hwf Hnew Hentry) as Hfill.
  destruct (fill_target _ _ _ _ _ _ _) as [res fs']. exists res, fs'. split_and!; [done| |by intros ? []%Hold|by intros b' Hb []%(Hin b' Hb)].
  apply Hfill. subst found. intros Hf Hd. rewrite Hd in Hf. by apply bool_decide_eq_true in Hf.
Qed.
(** C19: Saving a report always returns. On success the file holds exactly the bytes; on failure an existing report
    reads as before; after a crash at the end an existing report is found old or new, never torn; other existing files are
    never changed; without --force an existing file, and always a path inside the bundle, is refused with no change. *)
Theorem save_safe (f : Faults) (path bundle : string) (bytes : list Z) (force : bool) (fs : Fs) : fs_wf fs ->
  exists res fs', save f path bundle bytes force fs = Done (res, fs') /\
    match canonicalize (parent_of path) with
    | Err _ => is_err res = true /\ fs' = fs
    | Ok parent =>
      saved (entry_in parent path) bytes res fs fs' /\
      (is_Some (fs_dir fs !! entry_in parent path) -> force = false -> is_err res = true /\ fs' = fs) /\
      (forall base, canonicalize (path_parts bundle) = Ok base -> starts_with parent base = true -> is_err res = true /\ fs' = fs)
    end.
Proof. apply save_spec. Qed.
End save.
