(* ===== verification/ReplayToolSpec.v ===== *)
(** * What the replay tool promises

    A bundle that can be inspected is shown, verified and compared without a
    panic, with the exit codes of the documentation; a report replays the run it
    was inspected from; a run that a server has recorded verifies. *)

From S2P Require Import Prelude BTree Text Bytes Json JsonSpec JsonText Order Session SymbolConfig Proto Reports EventLog Engine Canonical Digest Trace.
From S2P Require Import TraceRows Recording Journal Bundle BundleFiles ReplayCli ReplayCliSpec Report ReportNames ReportLives ReplayTool ReportSave.

Local Open Scope string_scope.
Local Open Scope Z_scope.

(** ** Definitions *)

Definition has_data (row : Json) : Prop := exists d, json_get "data" row = Ok d.

(** What an inspection has made sure of. *)
Record inspected (run : Inspection) : Prop := {
  ip_rows : Forall has_data (in_rows run);
  ip_recorded rows : in_expected_rows run = Some rows -> Forall has_data rows;
  ip_expected : in_complete run = true -> is_Some (in_expected run);
}.

(** The exit code of [verify]. *)
Definition verify_code (r : result Inspection string) : Z :=
  match r with Ok run => if in_complete run then bit (in_diverged run) else 2 | Err _ => 2 end.

(** ** Rows with data *)

Lemma tally_total commands rows : Forall has_data rows -> forall t, exists t', tally_rows commands rows t = Done t'.
Proof. induction 1 as [|row rows [d Hd] _ IH]; intros t; cbn [tally_rows]; [by eexists|]. unfold data_of. rewrite Hd. apply IH. Qed.

Lemma phase_lines_total rows : Forall has_data rows -> exists s, phase_lines rows = Done s.
Proof. induction 1 as [|row rows [d Hd] _ [s IH]]; cbn [phase_lines]; [by eexists|]. unfold data_of. rewrite Hd. cbn [obind]. rewrite IH. by eexists. Qed.

Lemma explanation_total rows order : Forall has_data rows -> exists s, explanation rows order = Done s.
Proof.
  intros H. unfold explanation. destruct (tally_total (command_table rows) rows H (mkTally 0 0 0 0 [])) as [t ->]. cbn [obind].
  destruct (phase_lines_total rows H) as [s ->]. by eexists.
Qed.

Lemma all_data_total rows : Forall has_data rows -> all_data rows = Done tt.
Proof. induction 1 as [|row rows [d Hd] _ IH]; cbn [all_data]; [done|]. unfold data_of. by rewrite Hd. Qed.

Lemma filter_data (f : Json -> bool) rows : Forall has_data rows -> Forall has_data (List.filter f rows).
Proof. rewrite !Forall_forall. intros H r Hr. apply H. rewrite list_elem_of_In in *. by apply filter_In in Hr as [? _]. Qed.

Section tool.
Context `{!Sha256, !Build}.
Context `{!Wire Report, !Wire TradeCapture, !Wire SessionStatus, !Wire AuctionInfo}.
Context `{!Wire NewOrderSingle, !Wire OrderCancelRequest, !Wire OrderCancelReplaceRequest, !Wire OrderMassCancelRequest, !Wire SessionControl}.
Context `{!Wire LogRecord}.

Lemma redacted_data owner rows : Forall has_data rows -> Forall has_data ((fun r => redact r owner) <$> rows).
Proof. intros Hr. apply Forall_fmap. eapply Forall_impl; [exact Hr|]. intros r. apply redact_data. Qed.

Lemma selected_data rows o : Forall has_data rows -> exists kept, selected rows o = Done kept /\ Forall has_data kept.
Proof.
  intros Hr. destruct (linked_ids_exact o rows) as (ids & Hd & _). unfold selected. rewrite Hd. cbn [obind]. eexists. split; [done|].
  by apply redacted_data, filter_data.
Qed.

(** ** What an inspection makes sure of *)

Lemma execute_rows (sym : string) at_ input (owner : unit) (j : Journal unit) outs j' :
  is_count (next_seq (j_log j)) -> j_recording j = None -> (forall c, j_inspection j = Some c -> rows_ok c) -> execute sym at_ input owner j = Done (outs, j') ->
  j_log j' = j_log j /\ j_recording j' = None /\ (forall c, j_inspection j' = Some c -> rows_ok c) /\ is_Some (j_engines j' !! sym).
Proof.
  intros Hs Hr Hc. unfold execute. destruct (dispatch _ _ _) as [e| |]; try done. cbn [obind]. destruct (take_diagnostics (fresh e)) as [diags e'].
  rewrite Hr. intros [= <- <-]. cbn [j_log j_recording j_inspection j_engines]. split_and!; [done|done| |by rewrite lookup_insert_eq].
  intros c Hi. destruct (j_inspection j) as [c0|]; [|done]. injection Hi as <-. apply capture_ok; [done|by apply Hc].
Qed.

Lemma execute_record_rows r (j j' : Journal unit) outs :
  is_count (next_seq (j_log j)) -> j_recording j = None -> (forall c, j_inspection j = Some c -> rows_ok c) -> execute_record r j = Done (Ok (outs, j')) ->
  j_log j' = j_log j /\ j_recording j' = None /\ (forall c, j_inspection j' = Some c -> rows_ok c) /\ is_Some (j_engines j' !! lr_symbol r).
Proof.
  intros Hs Hr Hc. unfold execute_record. destruct (input_decode r) as [input|]; [|done].
  destruct (execute _ _ _ _ _) as [[outs' j1]| |] eqn:E; try done. cbn [obind]. intros [= <- <-]. by apply (execute_rows _ _ _ _ _ _ _ Hs Hr Hc E).
Qed.

Lemma replay_rows fuel complete : forall file (j j' : Journal unit),
  is_count (next_seq (j_log j)) -> j_recording j = None -> (forall c, j_inspection j = Some c -> rows_ok c) ->
  replay_records fuel complete file j = Done (Ok j') -> forall c, j_inspection j' = Some c -> rows_ok c.
Proof.
  induction fuel as [|fuel IH]; intros file j j' Hs Hr Hc; cbn [replay_records]; [done|]. destruct (is_nil file); [by intros [= <-]|].
  destruct (read_frame file) as [[r rest]|]; [|destruct complete; [done|by intros [= <-]]]. destruct (negb _); [done|].
  destruct (execute_record r j) as [[[outs j1]|e]| |] eqn:E; try done. cbn [obind].
  destruct (execute_record_rows r j j1 outs Hs Hr Hc E) as (Hl & Hr1 & Hc1 & _).
  destruct (Z.leb_spec u64_max (next_seq (j_log j1))) as [|Hlt]; [done|]. apply IH; [|exact Hr1|exact Hc1]. rewrite Hl in *. cbn. unfold is_count in *. lia.
Qed.

Lemma row_ok_data row : row_ok row -> has_data row.
Proof. intros Hr. apply (ro_others _ Hr). unfold other_keys. set_solver. Qed.

Lemma checked_data rows : check_all check_row rows = Ok tt -> Forall has_data rows.
Proof.
  induction rows as [|row rows IH]; [constructor|]. cbn [check_all]. destruct (check_row row) eqn:E; [|done]. cbn [rbind]. intros Hr. constructor; [|by apply IH].
  unfold check_row in E. repeat match type of E with rbind ?x _ = _ => destruct x eqn:?; [cbn [rbind] in E|done] end. by eexists.
Qed.

Lemma read_expected_some manifest dir e : read_expected true manifest dir = Done (Ok e) -> is_Some e.
Proof.
  unfold read_expected. destruct (rbind _ _); [|done]. destruct (parse_text _) as [[j|]| |]; try done. cbn [obind rbind].
  destruct (validate_expected j); [|done]. cbn [rbind]. intros [= <-]. by eexists.
Qed.

Lemma read_trace_data complete manifest dir rows : read_trace complete manifest dir = Done (Ok (Some rows)) -> Forall has_data rows.
Proof.
  unfold read_trace. destruct (negb (Bool.eqb _ _)); [done|]. destruct (json_get "trace_version" manifest) as [v|]; [|done].
  destruct (json_text v); [|done]. case_bool_decide; [done|]. destruct complete; [|done]. destruct (rbind _ _); [|done].
  destruct (collect _ _) as [[l|]| |]; try done. cbn [obind rbind]. destruct (check_all check_row l) as [[]|] eqn:E; [|done]. cbn [rbind].
  intros [= <-]. by apply checked_data.
Qed.

Lemma collected_data (j : Journal unit) : (forall c, j_inspection j = Some c -> rows_ok c) ->
  Forall has_data (match j_inspection j with Some c => cl_rows c | None => [] end).
Proof.
  intros Hc. destruct (j_inspection j) as [c|]; [|constructor]. eapply Forall_impl; [by apply (Hc c)|]. apply row_ok_data.
Qed.

Lemma replayed_rows schedule stp config complete file (j : Journal unit) : journal_replay schedule stp tt config complete true file = Done (Ok j) ->
  forall c, j_inspection j = Some c -> rows_ok c.
Proof.
  unfold journal_replay. destruct (read_exact_or_tail 8 file) as [[magic rest]|]; [|done]. case_bool_decide; [done|].
  destruct (read_frame rest) as [[header rest']|]; [|done]. case_bool_decide; [done|]. apply replay_rows; [by vm_compute|done|].
  intros c [= <-]. constructor.
Qed.

Lemma inspect_facts dir run : inspect_bundle dir = Done (Ok run) -> inspected run.
Proof.
  unfold inspect_bundle. destruct dir as [dir|]; [|done]. destruct (parse_text _) as [manifest| |]; try done. cbn [obind].
  destruct (rbind _ _) as [[[m config] s]|]; [|done]. destruct (read_expected _ _ _) as [[expected|]| |] eqn:Ee; try done. cbn [obind].
  destruct (read_trace _ _ _) as [[expected_rows|]| |] eqn:Et; try done. cbn [obind]. unfold compare_replay. destruct (dir "commands.log"); [|done].
  destruct (journal_replay _ _ _ _ _ _ _) as [[j|]| |] eqn:Ej; try done. cbn [obind rbind]. intros [= <-]. split; cbn.
  - apply collected_data. by apply (replayed_rows _ _ _ _ _ _ Ej).
  - intros rows ->. by apply (read_trace_data _ _ _ _ Et).
  - intros Hc. rewrite Hc in Ee. by apply (read_expected_some _ _ _ Ee).
Qed.

Lemma source_data run : inspected run -> Forall has_data (source_rows run).
Proof. intros [H1 H2 _]. unfold source_rows. destruct (in_expected_rows run) as [rows|]; [by apply H2|done]. Qed.

(** ** Commands *)

Definition code_ok (shown : Shown) : Prop := match sh_code shown with Ok code => code = 0 \/ code = 1 | Err _ => True end.

Lemma bit_ok b : bit b = 0 \/ bit b = 1.
Proof. destruct b; auto. Qed.

Lemma verify_total run : inspected run -> exists shown, run_verify run = Done shown /\ code_ok shown.
Proof.
  intros Hi. unfold run_verify. destruct (in_complete run) eqn:Ec; [|by eexists]. cbn [negb]. destruct (in_diverged run).
  - destruct (ip_expected _ Hi Ec) as [e ->]. eexists. split; [done|]. by right.
  - eexists. split; [done|]. by left.
Qed.

Lemma diff_total json run other : inspected run -> inspected other -> exists shown, run_diff json run other = Done shown /\ code_ok shown.
Proof.
  intros H1 H2. unfold run_diff. destruct (in_complete run) eqn:E1, (in_complete other) eqn:E2; try by eexists. cbn [negb orb].
  destruct (ip_expected _ H1 E1) as [a ->], (ip_expected _ H2 E2) as [b ->]. cbn [expect obind].
  destruct json; [eexists; split; [done|apply bit_ok]|]. destruct (state_line a b); eexists; (split; [done|]); [apply bit_ok|done].
Qed.

Lemma view_total run o path : inspected run -> exists shown, run_view run o path = Done shown /\ code_ok shown.
Proof.
  intros Hi. unfold run_view. destruct (selected_data _ o (source_data _ Hi)) as (kept & -> & Hk). cbn [obind].
  destruct (String.eqb _ "explain"); [|eexists; split; [done|by left]]. destruct (o_order o) as [order|]; [|eexists; split; [done|by left]].
  unfold explain_one. destruct (is_nil kept); [by eexists|]. destruct (explanation_total kept order Hk) as [s ->]. eexists. split; [done|by left].
Qed.

(** The paths of the options that are accepted. *)
Lemma parsed_paths args o : parse_options args = Ok o ->
  exists path rest, o_paths o = path :: rest /\ (String.eqb (o_command o) "diff" = true -> is_Some (head rest)).
Proof.
  unfold parse_options. destruct args as [|command args]; [done|]. destruct (negb _); [done|]. destruct (parse_args _ _ _) as [o'|]; [|done].
  unfold check_options. destruct (negb (_ =? _)%nat) eqn:E; [done|]. apply negb_false_iff, Nat.eqb_eq in E. intros Ho. assert (o' = o) as ->.
  { revert Ho. repeat match goal with |- (if ?b then _ else _) = _ -> _ => destruct b; [done|] end. by intros [= ->]. }
  destruct (o_paths o) as [|path rest]; [by destruct (String.eqb (o_command o) "diff")|]. exists path, rest. split; [done|]. intros Hd. rewrite Hd in E. destruct rest; [done|by eexists].
Qed.

(** Bundles whose inspection returns. *)
Definition inspectable (bundles : string -> option Files) : Prop := forall path, exists r, inspect_bundle (bundles path) = Done r.

Lemma command_total bundles o run : inspectable bundles -> inspected run ->
  (exists path rest, o_paths o = path :: rest /\ (String.eqb (o_command o) "diff" = true -> is_Some (head rest))) ->
  exists shown, run_command bundles o run = Done shown /\ code_ok shown.
Proof.
  intros Hb Hi (path & rest & Hp & Hd). unfold run_command. destruct (String.eqb (o_command o) "verify"); [by apply verify_total|]. rewrite Hp.
  destruct (String.eqb (o_command o) "diff"); [|by apply view_total]. destruct (Hd eq_refl) as [second Hs]. destruct rest as [|x rest]; [done|]. cbn.
  destruct (Hb x) as [[other|e] Hx]; rewrite Hx; cbn [obind]; [|by eexists]. by apply diff_total, inspect_facts with (bundles x).
Qed.

Lemma execute_command_total bundles args : inspectable bundles -> exists shown, execute_command bundles args = Done shown /\ code_ok shown.
Proof.
  intros Hb. unfold execute_command. destruct (parse_options args) as [o|e] eqn:Eo; [|by eexists]. pose proof (parsed_paths _ _ Eo) as Hp.
  destruct Hp as (path & rest & Hpath & Hd). rewrite Hpath. cbn [head expect obind]. destruct (Hb path) as [[run|e] Hx]; rewrite Hx; cbn [obind]; [|by eexists].
  apply command_total; [done|by apply inspect_facts with (bundles path)|by exists path, rest].
Qed.
(** ** Reports *)

Lemma execute_record_engine r (j j' : Journal unit) outs : execute_record r j = Done (Ok (outs, j')) -> is_Some (j_engines j' !! lr_symbol r).
Proof.
  unfold execute_record. destruct (input_decode r) as [input|]; [|done]. unfold execute. destruct (dispatch _ _ _) as [e| |]; try done. cbn [obind].
  destruct (take_diagnostics (fresh e)) as [diags e']. intros [= <- <-]. cbn [j_engines]. by rewrite lookup_insert_eq.
Qed.

(** The observed replay goes the way of the replay, unless the observer stops it. *)
Lemma observe_records_total {A} (obs : Z -> string -> Engine unit Z -> A -> result A string) fuel complete : forall file (j : Journal unit) st r,
  replay_records fuel complete file j = Done r ->
  exists r', observe_records obs fuel complete file j st = Done r' /\ forall j' st', r' = Ok (j', st') -> r = Ok j'.
Proof.
  induction fuel as [|fuel IH]; intros file j st r; cbn [replay_records observe_records]; [done|].
  destruct (is_nil file); [intros [= <-]; eexists; split; [done|]; by intros j' st' [= <- <-]|].
  destruct (read_frame file) as [[rec rest]|].
  2: { destruct complete; intros [= <-]; eexists; (split; [done|]); [done|]. by intros j' st' [= <- <-]. }
  destruct (negb _); [intros [= <-]; by eexists|].
  destruct (execute_record rec j) as [[[outs j1]|e]| |] eqn:E; try done; cbn [obind]; [|intros [= <-]; by eexists].
  destruct (execute_record_engine _ _ _ _ E) as [e He]. rewrite He. cbn [expect obind]. intros Hr.
  destruct (obs _ _ _ _) as [st1|why]; [|by eexists]. destruct (u64_max <=? next_seq (j_log j1)); [by eexists|]. by apply IH.
Qed.

Lemma journal_observe_total {A} (obs : Z -> string -> Engine unit Z -> A -> result A string) schedule stp config complete file st r :
  journal_replay schedule stp tt config complete false file = Done r ->
  exists r', journal_observe obs schedule stp config complete file st = Done r' /\ forall j' st', r' = Ok (j', st') -> r = Ok j'.
Proof.
  unfold journal_replay, journal_observe. destruct (read_exact_or_tail 8 file) as [[magic rest]|]; [|intros [= <-]; by eexists].
  case_bool_decide; [intros [= <-]; by eexists|]. destruct (read_frame rest) as [[header rest']|]; [|intros [= <-]; by eexists].
  case_bool_decide; [intros [= <-]; by eexists|]. apply observe_records_total.
Qed.

Lemma summary_total rows : Forall has_data rows -> exists j, report_summary rows = Done j.
Proof. intros Hr. unfold report_summary. rewrite all_data_total by done. by eexists. Qed.

Lemma life_total from to owner rows g : Forall has_data rows -> life_ok rows g -> exists o, life_json from to owner g = Done o.
Proof.
  intros Hr [Hs Hl _ _]. assert (Forall has_data g) as Hg.
  { rewrite Forall_forall in *. intros x Hx. by apply Hr, (elem_of_submseteq g rows x Hx), sublist_submseteq. }
  unfold life_json. destruct (is_nil _); [by eexists|]. destruct g as [|row g]; [done|]. cbn [head expect obind].
  rewrite all_data_total by (by apply filter_data). cbn [obind].
  match goal with |- context [explanation ?l ?o] => destruct (explanation_total l o) as [s ->] end; [by apply redacted_data, filter_data|]. by eexists.
Qed.

Lemma orders_total rows from to owner : Forall has_data rows -> exists l, report_orders rows from to owner = Done l.
Proof.
  intros Hr. unfold report_orders. rewrite all_data_total by done. cbn [obind]. destruct (lives_told rows) as [_ Hl].
  assert (exists docs, mapO (life_json from to owner) (lives rows) = Done docs) as [docs ->]; [|by eexists].
  induction Hl as [|g gs Hg _ [docs IH]]; cbn [mapO]; [by eexists|]. destruct (life_total from to owner rows g Hr Hg) as [o ->]. cbn [obind]. rewrite IH. by eexists.
Qed.

(** Bundles whose log replays without the collector too, under the settings of their manifest. *)
Definition replayable (bundles : string -> option Files) : Prop :=
  forall path dir log manifest schedule stp config complete, bundles path = Some dir -> dir "commands.log" = Some log ->
    parse_text (read_bundle_file "manifest.json" dir) = Done (Ok manifest) -> reread dir manifest = Ok (schedule, stp, config) ->
    exists r, journal_replay schedule stp tt config complete false log = Done r.

Lemma generate_total c bundles : inspectable bundles -> replayable bundles -> cf_anonymize c = false ->
  exists r, generate c (bundles (cf_bundle c)) = Done r /\ forall data code, r = Ok (data, code) -> 0 <= code <= 2.
Proof.
  intros Hb Hp Ha. unfold generate. destruct (_ >? MAX_INPUT); [by eexists|]. destruct (Hb (cf_bundle c)) as [[run|e] Hx]; rewrite Hx; cbn [obind]; [|by eexists].
  pose proof (inspect_facts _ _ Hx) as Hi.
  assert (forall t, exists m, parse_text t = Done m) as Hparse. { intros [t|e]; cbn [parse_text]; [|by eexists]. destruct (json_parse_returns t) as (m & -> & _). by eexists. }
  destruct (Hparse (read_bundle_file "manifest.json" (default (fun _ => None) (bundles (cf_bundle c))))) as [[manifest|e] Hman]; rewrite Hman; cbn [obind]; [|by eexists].
  set (rows := if in_diverged run then in_rows run else source_rows run).
  assert (Forall has_data rows) as Hrows by (subst rows; destruct (in_diverged run); [apply Hi|by apply source_data]).
  destruct (_ >? last_seq rows); [by eexists|]. destruct (_ >? MAX_ROWS); [by eexists|]. unfold build_report.
  destruct (reread _ manifest) as [[[schedule stp] config]|e] eqn:Es; [|by eexists]. destruct (bundles (cf_bundle c)) as [dir|] eqn:Ed; cbn [from_option id] in *; [|done].
  destruct (dir "commands.log") as [log|] eqn:El; [|by eexists]. destruct (Hp _ dir log manifest schedule stp config (in_complete run) Ed El Hman Es) as [r Hr].
  destruct (journal_observe_total (observe_frame c) _ _ _ _ _ (mkFrames [] ∅ [] 0) _ Hr) as ([[j f]|e] & -> & _); cbn [obind]; [|by eexists].
  destruct (negb _); [by eexists|]. destruct (summary_total rows Hrows) as [total ->]. cbn [obind].
  destruct (orders_total rows (cf_from c) (cf_to c) (cf_owner c) Hrows) as [orders ->]. cbn [obind]. unfold finish_document. rewrite Ha. cbn [obind].
  eexists. split; [done|]. intros data code. destruct (_ >? MAX_DATA); [done|]. intros [= <- <-]. destruct (in_complete run), (in_diverged run); done.
Qed.

(** The document of a report. *)
Lemma finished_typed c run rows doc data code : finish_document c run rows doc = Done (Ok (data, code)) ->
  textual (if cf_anonymize c then removed_fields else []) data /\ Z.of_nat (String.length (json_encode data)) <= MAX_DATA /\ code = (if in_complete run then bit (in_diverged run) else 2).
Proof.
  unfold finish_document.
  assert (forall d, (if cf_anonymize c then mask_json (privacy_new (masked_rows run rows) (cf_owner c)) "" (trim doc) else Done (trim doc)) = Done d ->
    clean (if cf_anonymize c then removed_fields else []) d) as Hd.
  { intros d. destruct (cf_anonymize c); [apply mask_clean|]. intros _. apply clean_all. }
  destruct (if cf_anonymize c then _ else _) as [d| |]; try done. cbn [obind]. destruct (Z.gtb_spec (Z.of_nat (String.length (json_encode (exact d)))) MAX_DATA) as [|Hle]; [done|].
  intros [= <- <-]. split_and!; [by apply exact_textual, Hd|done|by destruct (in_complete run)].
Qed.

Lemma generated c bundle data code : generate c bundle = Done (Ok (data, code)) ->
  exists run rows doc, inspect_bundle bundle = Done (Ok run) /\ finish_document c run rows doc = Done (Ok (data, code)).
Proof.
  unfold generate. destruct (_ >? MAX_INPUT); [done|]. destruct (inspect_bundle bundle) as [[run|]| |]; try done. cbn [obind].
  destruct (parse_text _) as [[manifest|]| |]; try done. cbn [obind]. set (rows := if in_diverged run then in_rows run else source_rows run).
  destruct (_ >? last_seq rows); [done|]. destruct (_ >? MAX_ROWS); [done|]. unfold build_report. destruct (reread _ manifest) as [[[schedule stp] config]|]; [|done].
  match goal with |- context [match ?x with Some _ => _ | None => Done (missing _) end] => destruct x; [|done] end. destruct (journal_observe _ _ _ _ _ _ _) as [[[j f]|]| |]; try done. cbn [obind]. destruct (negb _); [done|].
  destruct (report_summary rows); try done. cbn [obind]. destruct (report_orders _ _ _ _); try done. cbn [obind]. intros Hf. by do 3 eexists.
Qed.

(** C34: A generated report has no JSON number anywhere (every integer is decimal text), has no account or
    self-trade group anywhere when it is anonymized, fits the 96 MiB bound, and comes with the exit code that verify
    gives the same bundle. *)
Theorem report_typed (c : Config) (bundle : option Files) (data : Json) (code : Z) : generate c bundle = Done (Ok (data, code)) ->
  textual (if cf_anonymize c then removed_fields else []) data /\ Z.of_nat (String.length (json_encode data)) <= MAX_DATA /\
  exists r, inspect_bundle bundle = Done r /\ code = verify_code r.
Proof.
  intros (run & rows & doc & Hi & Hf)%generated. destruct (finished_typed _ _ _ _ _ _ Hf) as (H1 & H2 & H3). split_and!; [done|done|].
  exists (Ok run). by split.
Qed.

(** ** The whole tool *)

Lemma set_value_plain k v c c' : set_report_value k v c = Ok c' -> cf_anonymize c' = cf_anonymize c.
Proof. unfold set_report_value. destruct c. repeat (case_match; try done); by intros [= <-]. Qed.

Lemma report_args_plain n : forall args seen c c', (length args <= n)%nat -> "--anonymize-owners" ∉ args -> report_args args seen c = Ok c' -> cf_anonymize c' = cf_anonymize c.
Proof.
  induction n as [|n IH]; intros args seen c c' Hn Ha; (destruct args as [|k args]; [by intros [= <-]|simpl in Hn; try lia]). cbn [report_args].
  apply not_elem_of_cons in Ha as [Hk Ha]. case_bool_decide; [done|]. destruct (String.eqb_spec k "--anonymize-owners") as [E|_]; [congruence|].
  destruct (String.eqb k "--force"); [intros Hr; apply IH in Hr; [exact Hr|lia|done]|]. destruct args as [|v args]; [done|]. apply not_elem_of_cons in Ha as [_ Ha].
  destruct (_ || _); [done|]. destruct (set_report_value k v c) as [c1|] eqn:Es; [|done]. intros Hr. rewrite <- (set_value_plain _ _ _ _ Es).
  apply IH in Hr; [exact Hr|simpl in Hn; lia|done].
Qed.

Lemma report_options_plain args c : "--anonymize-owners" ∉ args -> report_options args = Ok c -> cf_anonymize c = false.
Proof.
  intros Ha. unfold report_options. destruct args as [|bundle args]; [done|]. apply not_elem_of_cons in Ha as [_ Ha]. destruct (is_option bundle); [done|].
  destruct (report_args args ∅ _) as [c1|] eqn:E; [|done]. apply (report_args_plain (length args)) in E; [|done|done].
  destruct (_ && same_path _ _); [done|]. destruct (_ || _); [done|]. by intros [= <-].
Qed.

Context `{!Host}.

Lemma save_as_total label f path c text fs : fs_wf fs -> exists res fs', save_as label f path c text fs = Done (res, fs') /\ fs_wf fs'.
Proof.
  intros Hfs. unfold save_as. destruct path as [p|]; [|by do 2 eexists]. destruct text as [text|e]; [|by do 2 eexists].
  destruct (save_spec f p (cf_bundle c) (bytes_of text) (cf_force c) fs Hfs) as (res & fs' & -> & Hs). cbn [obind].
  do 2 eexists. split; [done|]. cbn. destruct (canonicalize (parent_of p)); [by destruct Hs as [[] _]|by destruct Hs as [_ ->]].
Qed.

Lemma execute_report_total bundles f args fs : inspectable bundles -> replayable bundles -> "--anonymize-owners" ∉ args -> fs_wf fs ->
  exists shown fs', execute_report bundles f args fs = Done (shown, fs') /\ fs_wf fs' /\ forall code, sh_code shown = Ok code -> 0 <= code <= 2.
Proof.
  intros Hb Hp Ha Hfs. unfold execute_report. destruct (report_options args) as [c|e] eqn:Ec; [|by do 2 eexists]. apply report_options_plain in Ec; [|done].
  destruct (generate_total c bundles Hb Hp Ec) as ([[data code]|e] & -> & Hcode); cbn [obind]; [|by do 2 eexists].
  destruct (save_as_total "HTML" f.1 (cf_html c) c (bounded_html data MAX_HTML) fs Hfs) as ([out|e] & fs1 & -> & Hfs1); cbn [obind]; [|by do 2 eexists].
  destruct (save_as_total "JSON" f.2 (cf_json c) c (Ok (json_encode data)) fs1 Hfs1) as ([out'|e] & fs2 & -> & Hfs2); cbn [obind]; [|by do 2 eexists].
  do 2 eexists. split_and!; [done|done|]. cbn. intros code' [= <-]. by apply (Hcode data).
Qed.

(** C20: For every command line that sets no resource limit and asks for no anonymization, any files, and any
    failures of the writes of a report file, the tool ends without panicking, with an exit code from 0 to 2 and a
    well-formed file system, provided that the replays of the journals of the bundles return and the two output
    streams take what is written to them. *)
Theorem tool_total (bundles : string -> option Files) (f : Faults * Faults) (args : list string) (fs : Fs) :
  inspectable bundles -> replayable bundles -> Forall (fun arg => limit_argument arg = false) args -> "--anonymize-owners" ∉ args -> fs_wf fs ->
  exists fin fs', run_tool bundles f args fs = Done (fin, fs') /\ fs_wf fs' /\ 0 <= fin_code fin <= 2.
Proof.
  intros Hb Hp _ Ha Hfs. unfold run_tool. destruct (_ || _); [by do 2 eexists|].
  assert (exists shown fs', execute_tool bundles f args fs = Done (shown, fs') /\ fs_wf fs' /\ forall code, sh_code shown = Ok code -> 0 <= code <= 2)
    as (shown & fs' & -> & Hfs' & Hcode).
  { unfold execute_tool. assert (exists shown, execute_command bundles args = Done shown /\ forall code, sh_code shown = Ok code -> 0 <= code <= 2) as (shown & Hs & Hc).
    { destruct (execute_command_total bundles args Hb) as (shown & Hs & Hc). exists shown. split; [done|]. intros code E. unfold code_ok in Hc. rewrite E in Hc. lia. }
    destruct args as [|first rest]; [rewrite Hs; by do 2 eexists|]. destruct (String.eqb first "report"); [|rewrite Hs; by do 2 eexists].
    apply execute_report_total; [done|done| |done]. by apply not_elem_of_cons in Ha as [_ ?]. }
  cbn [obind]. do 2 eexists. split_and!; [done|done|..]; destruct (sh_code shown) as [code|e]; cbn; try lia; specialize (Hcode _ eq_refl); lia.
Qed.

Lemma parse_verify path : is_option path = false -> parse_options ["verify"; path] = Ok (push_path path (options_of "verify")).
Proof. intros Ho. unfold parse_options. rewrite bool_decide_eq_true_2 by set_solver. cbn [negb parse_args]. rewrite Ho. reflexivity. Qed.

(** The exit code of [verify]. *)
Lemma verify_run bundles f path fs r : is_option path = false -> inspect_bundle (bundles path) = Done r ->
  exists fin, run_tool bundles f ["verify"; path] fs = Done (fin, fs) /\ fin_code fin = verify_code r /\
    (forall run, r = Ok run -> in_complete run = true -> in_diverged run = false -> forall shown, run_verify run = Done shown -> fin = mkFinished (sh_out shown) "" 0).
Proof.
  intros Ho Hr. unfold run_tool. rewrite !bool_decide_eq_false_2 by done. cbn [orb]. change (execute_tool bundles f ["verify"; path] fs) with
    (let* shown := execute_command bundles ["verify"; path] in Done (shown, fs)). unfold execute_command. rewrite parse_verify by done.
  change (head (o_paths (push_path path (options_of "verify")))) with (Some path). cbn [expect obind]. rewrite Hr. cbn [obind].
  destruct r as [run|e]; [|eexists; split_and!; done]. change (run_command bundles (push_path path (options_of "verify")) run) with (run_verify run).
  pose proof (inspect_facts _ _ Hr) as Hi. unfold run_verify, verify_code.
  destruct (in_complete run) eqn:Ec; cbn; [|eexists; split_and!; [done|done|]; intros run' [= <-]; congruence].
  destruct (in_diverged run) eqn:Ed; cbn.
  - destruct (ip_expected _ Hi Ec) as [e ->]. cbn. eexists. split_and!; [done|done|]. intros run' [= <-]. congruence.
  - eexists. split_and!; [done|done|]. intros run' [= <-] _ _ shown. rewrite Ec, Ed. cbn. by intros [= <-].
Qed.

(** [fxp-replay verify] exits with 0 exactly when the bundle is complete and replays identically, with 1 when
    it is complete and diverges and with 2 when it is invalid or incomplete, and it writes no file. *)
Theorem verify_exit_code (bundles : string -> option Files) (f : Faults * Faults) (path : string) (fs : Fs) (r : result Inspection string) :
  is_option path = false -> inspect_bundle (bundles path) = Done r ->
  exists fin, run_tool bundles f ["verify"; path] fs = Done (fin, fs) /\ fin_code fin = verify_code r.
Proof. intros Ho Hr. destruct (verify_run bundles f path fs r Ho Hr) as (fin & Hrun & Hcode & _). by exists fin. Qed.
End tool.
