(* ===== verification/ReplayServer.v ===== *)
(** * From the server to the replay tool

    A run that a server records and shuts down is found identical by [fxp-replay
    verify], and the tool on sample bundles: what its theorems say there. *)

From Stdlib Require Import Ascii.
From S2P Require Import Prelude BTree Text Bytes Json JsonSpec JsonText Order OrderBook Matcher Stops Session SymbolConfig Auction Proto Reports EventLog Engine EngineInv.
From S2P Require Import LogRecovery WireSamples Canonical EngineOwners Digest Trace Recording Journal JournalOwners JournalRecovery Bundle TraceRows BundleFiles ReplayMirror BundleSpec.
From S2P Require Import Transport TransportSpec Server ServerSpec ServerMoves ServerStatus ServerSamples ServerRecovery.
From S2P Require Import ReplayCli ReplayCliSpec Report ReportNames ReplayTool ReportSave ReplayToolSpec.

Local Open Scope string_scope.
Local Open Scope Z_scope.

(** ** Theorem *)

Section server.
Context {sha : Sha256} {sha_laws : Sha256Laws} {build : Build} {build_laws : BuildLaws}.
Context `{!Wire Report, !Wire TradeCapture, !Wire SessionStatus, !Wire AuctionInfo}.
Context `{!Wire NewOrderSingle, !Wire OrderCancelRequest, !Wire OrderCancelReplaceRequest, !Wire OrderMassCancelRequest, !Wire SessionControl}.
Context `{!WireLaws NewOrderSingle, !WireLaws OrderCancelRequest, !WireLaws OrderCancelReplaceRequest, !WireLaws OrderMassCancelRequest, !WireLaws SessionControl}.
Context `{!Wire LogRecord, !WireLaws LogRecord, !Wire FxpMessage}.
Context `{!Host}.
Context (env : Env) (read_file : string -> result string string) (router : SymbolRouter) (detached : Z).
Context (Hrouter : start_router env read_file = Ok router).

(** C6: For every run of a server started with run recording, from its start to a shutdown that drains, and
    whatever a crash right after it leaves of the files, [fxp-replay verify] on the bundle prints the line IDENTICAL
    with the count, the digests and the final state of the journal of that server, exits with 0 and changes no file. *)
Theorem recorded_server_identical path existing budget budget' log now disk trace s0 s j j' a b c d written r' found bundles f name fs :
  env_run_record env = Some path -> env_event_log env = None -> 0 <= nanos now < 1000000000 ->
  start_server env read_file existing budget log now (wall_time a b) detached disk trace = Done (Ok s0) -> server_run s0 s ->
  sv_journal s = Some j -> text_recorded j ->
  shutdown_drain budget' (wall_time c d) false false s = Ok (written, Some j') -> j_recording j' = Some r' -> crash_view r' found ->
  is_option name = false -> bundles name = Some (with_log (log_file (j_log j)) found) ->
  run_tool bundles f ["verify"; name] fs = Done (mkFinished (identical_line (journal_summary j)) "" 0, fs).
Proof using Hrouter sha_laws build_laws WireLaws0 WireLaws1 WireLaws2 WireLaws3 WireLaws4 WireLaws5.
  intros Hrec Hlog Hn Hstart Hrun Hj Htext Hdrain Hr' Hview Hname Hb.
  destruct (server_recording_inspected _ _ _ _ Hrouter _ _ _ _ _ _ _ _ _ _ _ _ _ _ _ _ _ _ _ Hrec Hlog Hn Hstart Hrun Hj Htext Hdrain Hr' Hview) as (i & Hi & G1 & G2 & G3 & G4).
  rewrite <- Hb in Hi. destruct (verify_run bundles f name fs _ Hname Hi) as (fin & -> & _ & Hout).
  rewrite (Hout i eq_refl G1 G2 (shows (identical_line (in_summary i)) "" 0)); [by rewrite G3|]. unfold run_verify. by rewrite G1, G2.
Qed.
End server.

(** ** Witnesses *)

#[local] Existing Instance wire_of.
#[local] Existing Instance wire_of_laws.
#[local] Existing Instance sample_sha.
#[local] Existing Instance sample_build.
#[local] Existing Instance sample_sha_laws.
#[local] Existing Instance sample_build_laws.

(** A working directory [/work] with the bundle [run] in it. *)
#[local] Instance sample_host : Host := {|
  canonicalize := fun p => if bool_decide (p.2 = ["run"]) then Ok ["work"; "run"] else Ok ["work"];
  is_directory := fun p => String.eqb p "run";
  process_id := 7;
  subsec_nanos := fun attempt => 100 + attempt;
|}.

Definition sample_dir : Files := with_log (log_file (j_log server_journal)) (read_files drained_journal).

Definition sample_bundles (name : string) : option Files := if String.eqb name "run" then Some sample_dir else None.

Lemma recorded_server_identical_witness :
  run_tool sample_bundles (no_faults, no_faults) ["verify"; "run"] fs_empty = Done (mkFinished (identical_line (journal_summary server_journal)) "" 0, fs_empty).
Proof.
  refine (recorded_server_identical record_env no_file sample_router 0 _ "run" false 100 100 [] (mkTime 99 0) (fun _ => Synced) (fun _ => Synced)
    (server0 record_env) (server4 record_env) server_journal drained_journal 5 6 7 8 (frames_in drained) (files_of drained_journal) (read_files drained_journal)
    sample_bundles (no_faults, no_faults) "run" fs_empty
    _ _ _ (checked_start record_env _) (checked_moves order_moves (server0 record_env) _) (journal_in_ok _ _) (text_checked _ _) (drained_ok _ _) (files_of_ok _ _) (read_view _ _) _ _).
  - vm_compute. reflexivity.
  - reflexivity.
  - reflexivity.
  - split; [discriminate|reflexivity].
  - vm_compute. reflexivity.
  - vm_compute. reflexivity.
  - vm_compute. reflexivity.
  - vm_compute. reflexivity.
  - vm_compute. reflexivity.
  - vm_compute. reflexivity.
  - vm_compute. reflexivity.
  - reflexivity.
  - reflexivity.
Defined.

(** An old report that a new one replaces, and one that fails half way. *)
Definition old_report : Fs := mkFs [mkFile [9] 1] {[ "/work/out.html" := 0%nat ]} {[ "/work/out.html" := 0%nat ]}.

Lemma save_safe_witness :
  exists res fs', save (mkFaults None (Some (1%nat, "No space left on device")) None false) "out.html" "run" [1; 2; 3] true old_report = Done (res, fs') /\
    saved "/work/out.html" [1; 2; 3] res old_report fs'.
Proof.
  destruct (save_safe (mkFaults None (Some (1%nat, "No space left on device")) None false) "out.html" "run" [1; 2; 3] true old_report) as (res & fs' & Hs & Hsaved & _).
  - apply wf_checked. vm_compute. reflexivity.
  - exists res, fs'. split; [exact Hs|exact Hsaved].
Defined.

(** The bundle of a run that has recorded nothing yet. *)
Definition idle_dir : Files := fun name =>
  if String.eqb name "manifest.json" then Some (bytes_of (json_encode (manifest_of None StpNone [] (JObject []) (wall_time 5 6))))
  else if String.eqb name "symbols.csv" then Some []
  else if String.eqb name "commands.log" then Some (log_file (j_log journal0))
  else None.

Definition idle_bundles (name : string) : option Files := if String.eqb name "run" then Some idle_dir else None.

(** A report of it, with pseudonyms. *)
Definition sample_config : Config := mkConfig "run" (Some "out.html") (Some "out.json") None true 0 u64_max false.

Definition report_made (c : Config) (bundle : option Files) : bool := match generate c bundle with Done (Ok _) => true | _ => false end.

Lemma report_typed_witness : exists data code, generate sample_config (Some idle_dir) = Done (Ok (data, code)) /\
  textual removed_fields data /\ Z.of_nat (String.length (json_encode data)) <= MAX_DATA /\ exists r, inspect_bundle (Some idle_dir) = Done r /\ code = verify_code r.
Proof.
  assert (report_made sample_config (Some idle_dir) = true) as Hmade by (vm_compute; reflexivity).
  revert Hmade. unfold report_made. destruct (generate sample_config (Some idle_dir)) as [[[data code]|e]| |] eqn:E; intros Hmade; [|discriminate Hmade..].
  exists data, code. exact (conj eq_refl (report_typed sample_config (Some idle_dir) data code E)).
Defined.

Lemma verify_exit_code_witness : exists fin, run_tool sample_bundles (no_faults, no_faults) ["verify"; "other"] fs_empty = Done (fin, fs_empty) /\ fin_code fin = 2.
Proof. exact (verify_exit_code sample_bundles (no_faults, no_faults) "other" fs_empty (Err "bundle directory not found") eq_refl eq_refl). Defined.

(** The replay under the settings of the manifest, complete or not. *)
Definition replays (dir : Files) (complete : bool) : bool :=
  match parse_text (read_bundle_file "manifest.json" dir), dir "commands.log" with
  | Done (Ok manifest), Some log =>
    match reread dir manifest with
    | Ok (schedule, stp, config) => match journal_replay schedule stp tt config complete false log with Done _ => true | _ => false end
    | Err _ => true
    end
  | _, _ => true
  end.

Lemma checked_replayable bundles : (forall path dir complete, bundles path = Some dir -> replays dir complete = true) -> replayable bundles.
Proof.
  intros Hall path dir log manifest schedule stp config complete Hb Hl Hm Hs. specialize (Hall path dir complete Hb).
  unfold replays in Hall. rewrite Hm, Hl, Hs in Hall. destruct (journal_replay _ _ _ _ _ _ _) as [r| |]; [by exists r|discriminate..].
Qed.

Definition inspection_returns (bundle : option Files) : bool := match inspect_bundle bundle with Done _ => true | _ => false end.

Lemma checked_inspectable bundles : (forall path, inspection_returns (bundles path) = true) -> inspectable bundles.
Proof.
  intros Hall path. specialize (Hall path). unfold inspection_returns in Hall. destruct (inspect_bundle (bundles path)) as [r| |]; [by exists r|discriminate..].
Qed.

Lemma tool_total_witness :
  exists fin fs', run_tool idle_bundles (no_faults, no_faults) ["report"; "run"; "--html"; "out.html"; "--force"] old_report = Done (fin, fs') /\
    fs_wf fs' /\ 0 <= fin_code fin <= 2.
Proof.
  refine (tool_total idle_bundles (no_faults, no_faults) ["report"; "run"; "--html"; "out.html"; "--force"] old_report
    (checked_inspectable _ _) (checked_replayable _ _) _ _ (wf_checked _ _)).
  - intros path. unfold idle_bundles. destruct (String.eqb path "run"); vm_compute; reflexivity.
  - intros path dir complete. unfold idle_bundles. generalize (eq_refl idle_dir). generalize idle_dir at 1 3. intros d Hd.
    destruct (String.eqb path "run"); [|discriminate]. intros Hb. assert (dir = d) as -> by congruence. rewrite Hd. destruct complete; vm_compute; reflexivity.
  - repeat constructor.
  - intros H. apply (bool_decide_eq_true_2 _) in H. vm_compute in H. discriminate.
  - vm_compute. reflexivity.
Defined.

(** Names of two owners, and a reason that tells one of them. *)
Definition sample_rows : list Json :=
  [json_object [("owner", JString "alice"); ("order_id", JString "a1")]; json_object [("owner", JString "bob"); ("order_id", JString "b1")]].

Definition sample_counts : Json :=
  json_object [("owner", JString "bob"); ("account", JString "x"); ("rejects_by_reason", json_object [("a1 unknown", json_number 2); ("id-000001 unknown", json_number 3)])].

Lemma mask_hides_witness :
  exists j', mask_json (privacy_new sample_rows None) "" sample_counts = Done j' /\ hides (tells_nothing sample_rows None) "" j'.
Proof.
  refine (mask_hides sample_rows None "" sample_counts _). vm_compute. apply counts_object.
  - intros H. apply (bool_decide_eq_true_2 _) in H. vm_compute in H. discriminate.
  - apply Forall_cons_2; [apply counts_string|]. apply Forall_cons_2; [apply counts_string|]. apply Forall_cons_2; [|apply Forall_nil_2]. apply counts_object.
    + intros _. apply Forall_cons_2; [|apply Forall_cons_2; [|apply Forall_nil_2]]; intros n Hn; injection Hn as <-; eexists; vm_compute; reflexivity.
    + apply Forall_cons_2; [apply counts_number|]. apply Forall_cons_2; [apply counts_number|apply Forall_nil_2].
Defined.
