(* ===== verification/Metrics.v ===== *)
(** * Counters: metrics.rs

    The fixed counters of the core: messages by type, rejections by reason, and
    the latency of the log's syncs in buckets. The page that renders them, which
    prints floating-point seconds, and the socket that serves it are left out. *)

From Stdlib Require Import Ascii.
From S2P Require Import Prelude Text Bytes Order Proto Reports Transport.

Local Open Scope string_scope.
Local Open Scope Z_scope.

(** ** Definitions *)

Definition BOUNDS : list Z :=
  [100000; 250000; 500000; 1000000; 2500000; 5000000; 10000000; 25000000; 50000000; 100000000; 250000000; 1000000000].

Definition TYPES : list string :=
  ["unknown"; "heartbeat"; "logon"; "logout"; "gap_fill"; "new_order"; "order_acknowledgment"; "order_cancel"; "execution_report";
   "market_data_snapshot"; "market_data_incremental"; "market_data_request"; "trade_capture_report"; "error_message"; "logon_ack";
   "order_cancel_replace"; "trading_session_status"; "auction_info"; "order_mass_cancel"; "order_mass_cancel_report"; "order_status_request";
   "order_status_response"; "session_control"; "session_control_report"].

Definition REASONS : list string :=
  ["authentication"; "permission"; "rate_limit"; "capacity"; "unknown_order"; "duplicate"; "invalid"; "other"].

(** The counters. *)
Record Metrics : Type := mkMetrics {
  mt_enabled : bool;
  mt_clients : Z;
  mt_in : list Z;
  mt_out : list Z;
  mt_rejects : list Z;
  mt_commands : Z;
  mt_fsyncs : Z;
  mt_fsync_errors : Z;
  mt_fsync_ns : Z;
  mt_buckets : list Z;
}.

Definition metrics_off : Metrics := mkMetrics false 0 (replicate 24 0) (replicate 24 0) (replicate 8 0) 0 0 0 0 (replicate 13 0).

(** [start] enables the counters. *)
Definition metrics_start (m : Metrics) : Metrics :=
  mkMetrics true (mt_clients m) (mt_in m) (mt_out m) (mt_rejects m) (mt_commands m) (mt_fsyncs m) (mt_fsync_errors m) (mt_fsync_ns m) (mt_buckets m).

(** [fetch_add] of one on a counter of an array, whose index must exist. *)
Definition bump (i : nat) (l : list Z) : outcome (list Z) :=
  match l !! i with Some n => Done (<[i := add64 n 1]> l) | None => Panicked end.

(** [message_kind]. *)
Definition message_kind (raw : list Z) : nat :=
  let kind :=
    match raw with
    | a :: rest =>
      if (a <? 128) && (Z.land a 7 =? 2) then Z.to_nat (Z.shiftr a 3)
      else
        match rest with
        | b :: _ => if (Z.land a 7 =? 2) && (b =? 1) then (Z.to_nat (Z.shiftr (Z.land a 127) 3) + 16)%nat else 0%nat
        | [] => 0%nat
        end
    | [] => 0%nat
    end in
  if (kind <? length TYPES)%nat then kind else 0%nat.

(** [frame]. *)
Definition metrics_frame (raw : list Z) (incoming : bool) (m : Metrics) : outcome Metrics :=
  if negb (mt_enabled m) then Done m
  else
    let kind := message_kind raw in
    if incoming then
      let* l := bump kind (mt_in m) in
      Done (mkMetrics (mt_enabled m) (mt_clients m) l (mt_out m) (mt_rejects m) (mt_commands m) (mt_fsyncs m) (mt_fsync_errors m) (mt_fsync_ns m) (mt_buckets m))
    else
      let* l := bump kind (mt_out m) in
      Done (mkMetrics (mt_enabled m) (mt_clients m) (mt_in m) l (mt_rejects m) (mt_commands m) (mt_fsyncs m) (mt_fsync_errors m) (mt_fsync_ns m) (mt_buckets m)).

(** [command]. *)
Definition metrics_command (m : Metrics) : Metrics :=
  if mt_enabled m then
    mkMetrics true (mt_clients m) (mt_in m) (mt_out m) (mt_rejects m) (add64 (mt_commands m) 1) (mt_fsyncs m) (mt_fsync_errors m) (mt_fsync_ns m) (mt_buckets m)
  else m.

(** [to_ascii_lowercase] and [contains]. *)
Definition lower_char (c : ascii) : ascii :=
  let n := N_of_ascii c in if ((65 <=? n) && (n <=? 90))%N then ascii_of_N (n + 32) else c.

Fixpoint to_lower (s : string) : string := match s with EmptyString => "" | String c s => String (lower_char c) (to_lower s) end.

Fixpoint str_contains (pat s : string) : bool :=
  String.prefix pat s || match s with EmptyString => false | String _ s => str_contains pat s end.

Definition contains_any (pats : list string) (s : string) : bool := existsb (fun p => str_contains p s) pats.

(** The category of [reject]. *)
Definition reject_index (reason : string) : nat :=
  let r := to_lower reason in
  if contains_any ["token"; "logon"; "auth"; "session expired"] r then 0
  else if contains_any ["permission"; "operator"; "owner"; "not owned"] r then 1
  else if str_contains "rate limit" r then 2
  else if contains_any ["limit"; "maximum"; "unavailable"; "queue"] r then 3
  else if contains_any ["unknown order"; "not found"] r then 4
  else if str_contains "duplicate" r then 5
  else if contains_any ["invalid"; "required"; "quantity"; "price"; "unknown"] r then 6
  else 7.

(** [reject]. *)
Definition metrics_reject (reason : string) (m : Metrics) : outcome Metrics :=
  if negb (mt_enabled m) then Done m
  else
    let* l := bump (reject_index reason) (mt_rejects m) in
    Done (mkMetrics true (mt_clients m) (mt_in m) (mt_out m) l (mt_commands m) (mt_fsyncs m) (mt_fsync_errors m) (mt_fsync_ns m) (mt_buckets m)).

(** The bucket of a latency: the first bound that is not below it. *)
Fixpoint bucket_of (ns : Z) (bounds : list Z) : nat :=
  match bounds with [] => 0 | b :: bounds => if ns <=? b then 0 else S (bucket_of ns bounds) end.

(** [fsync_done]: a sync that was timed is counted. *)
Definition fsync_done (start : option Z) (success : bool) (m : Metrics) : outcome Metrics :=
  match start with
  | None => Done m
  | Some elapsed =>
    let ns := Z.min elapsed u64_max in
    let* l := bump (bucket_of ns BOUNDS) (mt_buckets m) in
    Done (mkMetrics (mt_enabled m) (mt_clients m) (mt_in m) (mt_out m) (mt_rejects m) (mt_commands m) (add64 (mt_fsyncs m) 1)
            (if success then mt_fsync_errors m else add64 (mt_fsync_errors m) 1) (add64 (mt_fsync_ns m) ns) l)
  end.

(** [fsync_start], with the time that elapses until the call of [fsync_done]. *)
Definition fsync_start (elapsed : Z) (m : Metrics) : option Z := if mt_enabled m then Some elapsed else None.

(** The syncs of a journal, each between the two calls. *)
Fixpoint fsync_all (syncs : list (Z * bool)) (m : Metrics) : outcome Metrics :=
  match syncs with [] => Done m | (elapsed, ok) :: syncs => let* m := fsync_done (fsync_start elapsed m) ok m in fsync_all syncs m end.

(** The cumulative counts that [render] shows, one for each bound and one for all. *)
Fixpoint cumulative (total : Z) (buckets : list Z) : list Z :=
  match buckets with [] => [] | n :: buckets => add64 total n :: cumulative (add64 total n) buckets end.

(** The bytes a message of a field starts with: the key of a length-delimited field. *)
Definition field_key (n : Z) : list Z := if n <? 16 then [n * 8 + 2] else [(n * 8 + 2) mod 128 + 128; (n * 8 + 2) / 128].

(** ** Messages *)

(** A frame whose first key is that of the payload field [n] of [FxpMessage], one or two bytes of it, is
    counted under the type [n], for each of the 23 payloads and whatever follows the key. *)
Theorem message_kind_exact (n : Z) (rest : list Z) : 1 <= n <= 23 -> message_kind (field_key n ++ rest) = Z.to_nat n.
Proof.
  intros Hn. assert (Forall (fun n => forall rest, message_kind (field_key n ++ rest) = Z.to_nat n) (seqZ 1 23)) as H.
  { unfold seqZ. cbn [seq fmap list_fmap Z.to_nat Pos.to_nat Pos.iter_op Init.Nat.add]. repeat constructor. }
  rewrite Forall_forall in H. apply H, elem_of_seqZ. lia.
Qed.

Lemma message_kind_range raw : (message_kind raw < 24)%nat.
Proof. unfold message_kind. cbv zeta. match goal with |- ((if ?b then _ else _) < _)%nat => destruct b eqn:E end; [by apply Nat.ltb_lt in E|lia]. Qed.

Lemma reject_index_range reason : (reject_index reason < 8)%nat.
Proof. unfold reject_index. cbv zeta. repeat case_match; lia. Qed.

(** ** Indices *)

(** The arrays have the lengths of the source. *)
Record sized (m : Metrics) : Prop := {
  sz_in : length (mt_in m) = 24%nat;
  sz_out : length (mt_out m) = 24%nat;
  sz_rejects : length (mt_rejects m) = 8%nat;
  sz_buckets : length (mt_buckets m) = 13%nat;
}.

Lemma bump_total i l : (i < length l)%nat -> exists l', bump i l = Done l' /\ length l' = length l.
Proof. intros Hi. unfold bump. destruct (lookup_lt_is_Some_2 l i Hi) as [n ->]. eexists. split; [done|apply length_insert]. Qed.

(** No counter is out of range. *)
Lemma frame_total raw incoming m : sized m -> exists m', metrics_frame raw incoming m = Done m' /\ sized m'.
Proof.
  intros [H1 H2 H3 H4]. unfold metrics_frame. destruct (mt_enabled m); [|by eexists]. cbn [negb]. pose proof (message_kind_range raw).
  destruct incoming; [destruct (bump_total (message_kind raw) (mt_in m)) as (l & -> & Hl)|destruct (bump_total (message_kind raw) (mt_out m)) as (l & -> & Hl)];
    try lia; eexists; (split; [done|]); split; simpl; lia.
Qed.

Lemma reject_total reason m : sized m -> exists m', metrics_reject reason m = Done m' /\ sized m'.
Proof.
  intros [H1 H2 H3 H4]. unfold metrics_reject. destruct (mt_enabled m); [|by eexists]. cbn [negb]. pose proof (reject_index_range reason).
  destruct (bump_total (reject_index reason) (mt_rejects m)) as (l & -> & Hl); [lia|]. eexists. split; [done|]. split; simpl; lia.
Qed.

(** ** Latencies *)

(** Syncs that took no longer than a bound. *)
Definition within (bound : Z) (syncs : list (Z * bool)) : Z := Z.of_nat (length (List.filter (fun s => Z.min s.1 u64_max <=? bound) syncs)).

(** What the histogram should show. *)
Definition histogram (syncs : list (Z * bool)) : list Z := ((fun b => within b syncs) <$> BOUNDS) ++ [Z.of_nat (length syncs)].

(** The bucket of a sync. *)
Definition sync_bucket (s : Z * bool) : nat := bucket_of (Z.min s.1 u64_max) BOUNDS.

Definition count {A : Type} (p : A -> bool) (l : list A) : Z := Z.of_nat (length (List.filter p l)).

Definition ascending (bounds : list Z) : Prop := StronglySorted Z.lt bounds.

Lemma bucket_le ns bounds : ascending bounds -> forall i b, bounds !! i = Some b -> (bucket_of ns bounds <= i)%nat <-> ns <= b.
Proof.
  induction 1 as [|x bounds _ IH Hx]; intros i b Hb; [done|]. cbn [bucket_of]. destruct (Z.leb_spec ns x) as [Hle|Hgt].
  - split; [intros _|lia]. destruct i as [|i]; [by injection Hb as <-|]. apply (Forall_lookup_1 _ _ _ _ Hx) in Hb. lia.
  - destruct i as [|i]; [injection Hb as <-; lia|]. rewrite <- (IH i b Hb). lia.
Qed.

Lemma bucket_range ns bounds : (bucket_of ns bounds <= length bounds)%nat.
Proof. induction bounds as [|b bounds IH]; simpl; [lia|]. case_match; lia. Qed.

Lemma bounds_ascending : ascending BOUNDS.
Proof. unfold ascending, BOUNDS. repeat constructor. Qed.

Lemma count_ext {A} (p q : A -> bool) l : (forall x, p x = q x) -> count p l = count q l.
Proof. intros H. unfold count. by rewrite (List.filter_ext p q H). Qed.

Lemma count_split {A} (g : A -> nat) i l : count (fun x => (g x <? i)%nat) l + count (fun x => (g x =? i)%nat) l = count (fun x => (g x <? S i)%nat) l.
Proof.
  unfold count. induction l as [|x l IH]; [done|]. cbn [List.filter].
  destruct (Nat.ltb_spec (g x) i), (Nat.eqb_spec (g x) i), (Nat.ltb_spec (g x) (S i)); cbn [length]; lia.
Qed.

Lemma count_le {A} (p : A -> bool) l : 0 <= count p l <= Z.of_nat (length l).
Proof. unfold count. pose proof (List.filter_length_le p l). lia. Qed.

(** Partial sums of the counts of the buckets. *)
Lemma cumulative_counts {A} (g : A -> nat) l : Z.of_nat (length l) <= u64_max -> forall n start,
  cumulative (count (fun x => (g x <? start)%nat) l) ((fun j => count (fun x => (g x =? j)%nat) l) <$> seq start n) =
  (fun j => count (fun x => (g x <? S j)%nat) l) <$> seq start n.
Proof.
  intros Hl n. induction n as [|n IH]; intros start; [done|]. cbn [seq fmap list_fmap cumulative].
  assert (add64 (count (fun x => (g x <? start)%nat) l) (count (fun x => (g x =? start)%nat) l) = count (fun x => (g x <? S start)%nat) l) as ->.
  { pose proof (count_split g start l). pose proof (count_le (fun x => (g x <? S start)%nat) l).
    pose proof (count_le (fun x => (g x <? start)%nat) l). pose proof (count_le (fun x => (g x =? start)%nat) l). rewrite add64_small; lia. }
  f_equal. apply IH.
Qed.

(** The buckets after a sequence of syncs. *)
Definition bucket_counts (syncs : list (Z * bool)) : list Z := (fun j => count (fun s => (sync_bucket s =? j)%nat) syncs) <$> seq 0 13.

Lemma count_snoc {A} (p : A -> bool) l x : count p (l ++ [x]) = count p l + (if p x then 1 else 0).
Proof. unfold count. rewrite List.filter_app, length_app. cbn [List.filter]. destruct (p x); simpl; lia. Qed.

Lemma bump_bucket syncs s : Z.of_nat (length syncs) < u64_max ->
  bump (sync_bucket s) (bucket_counts syncs) = Done (bucket_counts (syncs ++ [s])).
Proof.
  intros Hl. pose proof (bucket_range (Z.min s.1 u64_max) BOUNDS) as Hr. fold (sync_bucket s) in Hr. change (length BOUNDS) with 12%nat in Hr.
  unfold bump, bucket_counts. rewrite list_lookup_fmap, lookup_seq_lt by lia. cbn [fmap option_fmap option_map]. f_equal. apply list_eq. intros i.
  destruct (decide (i < 13)%nat) as [Hi|Hi].
  - rewrite (list_lookup_fmap _ (seq 0 13)), (lookup_seq_lt 0 13 i) by done. cbn [fmap option_fmap option_map]. rewrite count_snoc. change (0 + i)%nat with i. change (0 + sync_bucket s)%nat with (sync_bucket s).
    destruct (Nat.eqb_spec (sync_bucket s) i) as [<-|Hne].
    + rewrite list_lookup_insert_eq by (rewrite length_fmap, length_seq; lia). pose proof (count_le (fun x => (sync_bucket x =? sync_bucket s)%nat) syncs).
      f_equal. apply add64_small; lia.
    + rewrite list_lookup_insert_ne, list_lookup_fmap, lookup_seq_lt by done. cbn. f_equal. lia.
  - rewrite !lookup_ge_None_2; [done|..]; rewrite ?length_insert, length_fmap, length_seq; lia.
Qed.

Lemma fsync_all_spec syncs : forall past m, mt_enabled m = true -> Z.of_nat (length past) + Z.of_nat (length syncs) <= u64_max ->
  mt_buckets m = bucket_counts past -> mt_fsyncs m = Z.of_nat (length past) -> mt_fsync_errors m = count (fun s => negb s.2) past ->
  exists m', fsync_all syncs m = Done m' /\ mt_buckets m' = bucket_counts (past ++ syncs) /\ mt_fsyncs m' = Z.of_nat (length (past ++ syncs)) /\
    mt_fsync_errors m' = count (fun s => negb s.2) (past ++ syncs).
Proof.
  induction syncs as [|[ns ok] syncs IH]; intros past m Hon Hl Hb Hf He; [rewrite app_nil_r; by exists m|]. cbn [fsync_all length] in *.
  unfold fsync_done, fsync_start. rewrite Hon. cbv zeta. rewrite Hb. change (bucket_of (Z.min ns u64_max) BOUNDS) with (sync_bucket (ns, ok)). rewrite bump_bucket by lia. cbn [obind].
  rewrite (cons_middle (ns, ok) past syncs), app_assoc. pose proof (count_le (fun s : Z * bool => negb s.2) past). apply IH; cbn [mt_enabled mt_buckets mt_fsyncs mt_fsync_errors]; rewrite ?length_app; simpl length; try lia; [done|..].
  - rewrite Hf, add64_small; lia.
  - rewrite He, count_snoc. cbn [snd]. destruct ok; cbn [negb]; [lia|]. apply add64_small; lia.
Qed.

(** C38: After the counters are enabled and any sequence of syncs of the journal, each with its duration and whether it succeeded, the
    cumulative buckets that the endpoint publishes are, for each bound, the number of syncs that took at most that
    long, the last one being all of them; the counters of syncs and of failed syncs are exact as well. The number of
    syncs is assumed to fit the 64-bit counters. *)
Theorem histogram_exact (syncs : list (Z * bool)) : Z.of_nat (length syncs) <= u64_max ->
  exists m, fsync_all syncs (metrics_start metrics_off) = Done m /\ cumulative 0 (mt_buckets m) = histogram syncs /\
    mt_fsyncs m = Z.of_nat (length syncs) /\ mt_fsync_errors m = count (fun s => negb s.2) syncs.
Proof.
  intros Hl. destruct (fsync_all_spec syncs [] (metrics_start metrics_off)) as (m & Hm & Hb & Hf & He); [done|simpl; lia|done|done|done|]. exists m. split_and!; [done| |done|done].
  rewrite Hb. pose proof (cumulative_counts sync_bucket syncs Hl 13 0) as Hc.
  assert (count (fun x => (sync_bucket x <? 0)%nat) syncs = 0) as E. { unfold count. clear. induction syncs as [|x l IH]; [done|exact IH]. }
  rewrite E in Hc. unfold bucket_counts. simpl app. rewrite Hc. unfold histogram, BOUNDS. cbn [seq fmap list_fmap app].
  assert (forall j b, BOUNDS !! j = Some b -> count (fun x => (sync_bucket x <? S j)%nat) syncs = within b syncs) as Hw.
  { intros j b Hj. apply count_ext. intros s. apply eq_true_iff_eq. rewrite Nat.ltb_lt, Z.leb_le, <- (bucket_le _ _ bounds_ascending j b Hj). unfold sync_bucket. lia. }
  repeat (f_equal; [by apply Hw|]). f_equal. unfold count. f_equal. f_equal. clear. induction syncs as [|s l IH]; [done|]. cbn [List.filter].
  pose proof (bucket_range (Z.min s.1 u64_max) BOUNDS) as Hr. change (length BOUNDS) with 12%nat in Hr. rewrite (proj2 (Nat.ltb_lt _ _)); [by rewrite IH|]. unfold sync_bucket. lia.
Qed.

Lemma message_kind_exact_witness : message_kind [186; 1; 5] = 23%nat.
Proof. exact (message_kind_exact 23 [5] (conj (Zle_bool_imp_le 1 23 eq_refl) (Zle_bool_imp_le 23 23 eq_refl))). Defined.

Lemma histogram_exact_witness : exists m, fsync_all [(90000, true); (300000000, false)] (metrics_start metrics_off) = Done m /\
  cumulative 0 (mt_buckets m) = histogram [(90000, true); (300000000, false)] /\ mt_fsyncs m = 2 /\ mt_fsync_errors m = 1.
Proof. exact (histogram_exact [(90000, true); (300000000, false)] (Zle_bool_imp_le 2 u64_max eq_refl)). Defined.
